(* ===== verification/_CoqProject ===== *)
-Q . S2P
Prelude.v
Libc.v
Utf8.v
PacketCodec.v
Props.v
Packets.v
LinkedList.v
SocketIO.v
SocketSelect.v
Protocol.v
ProtocolSpec.v
ProtocolTimers.v
Persistence.v
PersistenceSpec.v
PersistenceQueue.v
PersistenceDefault.v
Base64.v
Sha1.v
Connect.v
WebSocketFrame.v
WebSocketRead.v
WebSocketHandshake.v
AsyncCommands.v
AsyncQueue.v
AsyncJournal.v
AsyncConnect.v
AsyncProcess.v
AsyncApi.v
AsyncLedger.v
AsyncSpec.v
SyncClient.v
SyncApi.v
SyncSpec.v
Trees.v
TreesShape.v
TreesBalance.v
TreesIndex.v
TreesSpec.v
Heap.v
HeapSpec.v
Trace.v
TraceSpec.v
AppConfig.v
AppTopics.v
AppRuntime.v
