(* ===== verification/Prelude.v ===== *)
(** * cmqtt: a verification library for the MQTT bridge and its client library

    The program (src/) is a bridge between MQTT and a MySQL database.  Its own
    code - [src/main.c], [core/], [lib/] - reads a configuration file, connects
    with the asynchronous interface of the Eclipse Paho C client
    ([paho.mqtt.c/src]), subscribes to the topics that its table enables, and
    dispatches the messages received to handlers.  The library keeps the
    protocol: packets are serialized, written to a socket that may take only a
    part of them, read from a socket that may give only a part of them, and the
    QoS 1 and 2 exchanges are kept until they are acknowledged.

    ** The files, from the bytes up

    - [Prelude]: notations, machine integers, byte strings, readers over
      buffers ([None] is an access out of bounds), outcomes of whole functions
      (fault, exit, return), statements that change a state and emit events
      ([emitting], the monad of [Protocol], [AsyncProcess], [SyncClient] and [Trace]) with
      their triples, the [Codec] class of the writer and reader pairs, tactics and
      generic lemmas.
    - [Libc]: functions of the C library that several components call ([atoi],
      [sprintf] of integers, [strstr], [strchr]).
    - [Utf8] ([utf-8.c]): the validator decides well-formed UTF-8.
    - [PacketCodec] ([MQTTPacket.c]): variable byte integers, integers, strings;
      instances of [Codec].
    - [Props] ([MQTTProperties.c]): MQTT 5 properties; the list invariant and its
      preservation, exact lengths, round trip, termination on arbitrary bytes,
      queries.
    - [Packets] ([MQTTPacket.c], [MQTTPacketOut.c]): parsers and serializers of
      every control packet; exact buffers, round trips, error branches, where
      the parsers leave the packet.
    - [LinkedList] ([LinkedList.c]): the doubly linked lists on an explicit heap,
      refined to sequences; what is freed.
    - [SocketIO] ([Socket.c], [SocketBuffer.c], the factory of [MQTTPacket.c]):
      Module [SocketRead] is reading with the queue of interrupted reads: any
      fragmentation of the input gives the same packet.  Module [SocketWrite]
      is writing with the pending writes: any sequence of partial writes sends
      the packet once, whole and in order.
    - [SocketSelect] ([Socket.c], [Socket.h]): the sets of sockets, select, the
      turn of each socket, the creation and the closing; the well-formedness of
      the module's state over any sequence of its calls.
    - [Protocol] ([MQTTProtocolClient.c], [Clients.h], [MQTTProtocol.h]): the
      in-flight messages, the stored publications with their reference counts,
      the handlers, the keep-alive and the retries, over the [Transport]
      interface.  A handler works on the client found for its socket and on the
      state shared by the clients ([session]); [on_client] finds it in the
      process.  What leaves the module (packets, deliveries, closed sessions) is
      a list of events.
    - [ProtocolSpec]: the abstract machine of the exchanges ([astep]), the
      ownership invariant ([wf]), the refinement, exactly-once delivery over
      any run ([steps]), isolation of the clients, release of a client; the
      socket layer as an instance of [Transport] with its laws
      ([TransportLaws]), which discharges the interface.
    - [ProtocolTimers]: identifiers, keep-alive and retries, proved from the
      laws of the transport.
    - [Persistence] ([MQTTPersistence.c], [MQTTPersistence.h], the persistence
      of [MQTTPacket.c]): the records of packets and of queued messages over the
      [Store] interface ([StoreLaws] is what it promises), what is written,
      removed and restored.
    - [PersistenceSpec]: the journal that the records stand for; the senders and
      the acknowledgements keep it, a restart rebuilds the messages in flight
      from it, the removal is exact.
    - [PersistenceQueue]: the order of the messages after a restart, the queue of
      received messages.
    - [PersistenceDefault] ([MQTTPersistenceDefault.c]): the store of one file
      per record over the [FileSystem] interface, an instance of [Store] and of
      its laws.
    - [Base64] ([Base64.c]), [Sha1] ([SHA1.c], [SHA1.h]): equal to RFC 4648 and to
      FIPS 180-4, in the bounds shown.
    - [Connect] ([MQTTProtocolOut.c]): addresses, the proxy of the environment,
      the steps of a connection.
    - [WebSocketFrame], [WebSocketRead], [WebSocketHandshake] ([WebSocket.c]): the
      frames written around a packet are those of RFC 6455 and leave the buffers
      as they were; any fragmentation of the frames received gives the message,
      with a PONG for each PING; which answers upgrade the connection.
    - [AsyncCommands], [AsyncQueue], [AsyncJournal] ([MQTTAsync.c], the options of
      [MQTTAsync.h]): the commands that wait to be sent, their records in the
      store and the two readings of each, the queue that the clients share and
      the choice of the next command, the message identifiers; over any run of
      additions and removals a restart, when no command of another client waits,
      queues again the recorded commands that were still there, in their order.
    - [AsyncConnect]: the jitter and the back-off of the reconnections, the
      servers and the versions that an attempt to connect goes through.
    - [AsyncProcess]: both threads, as statements on the state of the process
      ([world], [act]): processing a command, closing and cleaning a session,
      the timeouts, the end of a write, the packets that end a command, the
      messages for the application, the end of a client.  [AsyncApi]: the calls
      of the application.
    - [AsyncLedger]: the account of each command through every function of the two
      files; over any run of all of them but the creation of a client no PUBLISH,
      SUBSCRIBE or UNSUBSCRIBE is answered twice, and a SUBSCRIBE or UNSUBSCRIBE
      whose address is not used again is answered before its client is destroyed.
      A command is known by the number of its allocation; its address is that of
      [place], which may give the same one again.
      [AsyncSpec]: messages reach the application in order; a DISCONNECT that
      has to wait is forgotten.
    - [SyncClient], [SyncApi] ([MQTTClient.c], [MQTTClient.h]): the synchronous
      interface - one cycle over the sockets, the thread that calls the callbacks,
      the waits, and the calls of the application - over the same protocol,
      persistence and connection as [AsyncProcess].  [SyncSpec]: a connection gives a
      session or nothing, a disconnection closes the client, what the answer of a
      wait for a delivery means and that it comes, what becomes of a message that
      could not be written, the life of a client.
    - [Trees] ([Tree.c], [Tree.h]): the red-black trees on an explicit heap of nodes,
      with the pointer updates of the code.  [TreesShape]: the shape of a tree, its
      places, and what a statement [does] at a place.  [TreesBalance]: the loops after
      an addition and after a removal leave a balanced tree with its items in order.
      [TreesIndex]: the operations on one index, on sorted lists of items, and the walk
      in order.  [TreesSpec]: a tree represents a list for each of its indexes; adding,
      removing, searching (in logarithmic time) and walking are those of the lists.
    - [Heap] ([Heap.c], [Heap.h]): the allocations that are tracked, over [Trees].
      [HeapSpec]: the state stands for a map of the blocks in use; allocating, freeing
      and reallocating are those of the map, and free what they have to, once; a block
      without memory for its node is given out and is in no map.
    - [Trace] ([Log.c], [Log.h], [StackTrace.c], [Messages.c], [MQTTReasonCodes.c]): the
      texts, the ring of the last log entries, the trace file with its backup, the
      stacks of the threads.  [TraceSpec]: after any calls the ring holds the last
      entries and the file with its backup the last lines; the stack of each thread is
      that of its open calls; what goes wrong past the limits of the tables.
    - [AppConfig] ([lib/init.c], [lib/mysql.sdk.c], [lib/globle.c],
      [src/main.c]): the INI scanner and the settings.
    - [AppTopics] ([core/regfunc.c], [core/handle.c]): topic table and dispatch.
    - [AppRuntime] ([lib/mysql.sdk.c], [core/mqtta.c], [core/core.c],
      [lib/decode.c], [lib/cmd.init.c], [src/main.c]): Modules [Mysql], [Mqtta],
      [Threads], [Commands] and [Main].

    ** Conventions

    Bytes are [Z] in [0, 256); integers are [Z] with their wrap-around written
    where the code can reach it.  Addresses are [positive], NULL is [None].
    Undefined behaviour is [None] (or [Faults]), so a theorem that a function
    returns also says that it stays inside its buffers.  The results of the
    system and of libraries (what [recv] and [writev] meet, allocations, the
    answers of MySQL and of MQTTAsync, the return code of the persistence) are
    arguments.  The file system is a class with its laws; one of them is that closing a
    file loses nothing that was written, which the code does not test.

    ** Limits of the theorems

    Where the code goes wrong a theorem states its limit, and the list of findings
    says what is beyond it: four-byte properties are below 2^31 (writeInt4), the
    identifiers of MQTT 5 messages in the store below 10000 (the array of the key),
    descriptors below FD_SETSIZE, the names of traced functions at most 256 bytes; a
    buffer given to a web socket keeps no mask from an interrupted write, no PING comes
    behind a queued frame, and commands are restored into an empty list.  The tree
    of the heap, the lists and the protocol start from states that their own
    operations make.

    ** Fuel

    Loops that are not structural take fuel: the list searches take the number
    of elements, the property reader the length of the buffer, the identifiers
    65535, [encode_loop] ten digits, the packet loop one turn more than there
    are input events.  The theorems show each bound enough, or that more fuel
    changes nothing; the one loop of the code that may not end
    ([MQTTProtocol_assignMsgId] of a fresh client with every identifier in
    flight) is shown not to.

    The loops of [Trees] go up or down a tree and take its number of nodes and two
    turns; the theorems are about total correctness ([runs]), so they show it enough.

    The loops of [SyncClient] that wait take one turn of the state for each wait on
    the sockets, so the number of turns that are left bounds them.

    ** Not modelled

    Input and output only: the version tool, the samples, the other functions of
    [lib/init.c].  The other components call [Log] and the macros of [StackTrace.h]
    at every turn; those calls do not change their states and are left out of them.  The other components allocate without
    [Heap.c], which only tracks what is allocated.  [SSLSocket.c] and
    the TLS paths of the socket layer call OpenSSL at every step.  Of [Thread.c] the
    semaphores are modelled and the mutexes are not: each outermost function of
    [MQTTAsync.c] is one step, and a function of [MQTTClient.c] gives way to the
    callback thread where it waits.  Not modelled either: the release of the options
    of a client, the will and the credentials of a connection, the branches for
    Windows, the start and the end of the threads of [MQTTAsync.c], the calls that an
    application makes from inside a callback, [MQTTAsync_reconnect] of a client that
    does not reconnect by itself. *)
From stdpp Require Export prelude list list_numbers numbers strings gmap.
From Stdlib Require Export ZArith Lia.

(** ** Scope and notations *)

Declare Scope cmqtt_scope.
Delimit Scope cmqtt_scope with cmqtt.
#[global] Open Scope Z_scope.
#[global] Open Scope cmqtt_scope.

(** The length of a byte sequence, as the C code's integers see it. *)
Abbreviation len l := (Z.of_nat (length l)).

(** C's bit operations. *)
Notation "a .& b" := (Z.land a b) (at level 40, left associativity) : cmqtt_scope.
Notation "a .| b" := (Z.lor a b) (at level 50, left associativity) : cmqtt_scope.
Notation "a .^ b" := (Z.lxor a b) (at level 50, left associativity) : cmqtt_scope.

(** ** Machine integers

    Memory bytes are [Z] in [0, 256); a C [char] is signed on the target,
    [s8] is the value it has in an expression. *)

Definition u8 (x : Z) : Z := x mod 256.
Definition u16 (x : Z) : Z := x mod 65536.
Definition u32 (x : Z) : Z := x mod 2 ^ 32.
Definition u64 (x : Z) : Z := x mod 2 ^ 64.
Definition s8 (x : Z) : Z := (x + 128) mod 256 - 128.
Definition s32 (x : Z) : Z := (x + 2 ^ 31) mod 2 ^ 32 - 2 ^ 31.

Definition is_byte (b : Z) : Prop := 0 ≤ b < 256.
Definition is_u16 (x : Z) : Prop := 0 ≤ x < 65536.
Definition is_u32 (x : Z) : Prop := 0 ≤ x < 2 ^ 32.
Abbreviation bytes_ok := (Forall is_byte).

#[export] Instance is_byte_dec b : Decision (is_byte b).
Proof. unfold is_byte. apply _. Defined.
#[export] Instance is_u16_dec x : Decision (is_u16 x).
Proof. unfold is_u16. apply _. Defined.
#[export] Instance is_u32_dec x : Decision (is_u32 x).
Proof. unfold is_u32. apply _. Defined.

(** ** Byte strings *)

Definition byte_of_ascii (a : Ascii.ascii) : Z := Z.of_N (Ascii.N_of_ascii a).

(** The bytes of a string literal of the source (without the closing NUL). *)
Definition bs (s : string) : list Z := byte_of_ascii <$> String.list_ascii_of_string s.

(** The C string held by a buffer: the bytes before the first NUL. *)
Fixpoint cstr (buf : list Z) : list Z :=
  match buf with
  | [] => []
  | b :: rest => if decide (b = 0) then [] else b :: cstr rest
  end.

(** A sequence of bytes that a C string can hold. *)
Definition cstring_ok (s : list Z) : Prop := Forall (λ b, 0 < b < 256) s.

#[export] Instance cstring_ok_dec s : Decision (cstring_ok s).
Proof. unfold cstring_ok. apply _. Defined.

(** Reading one byte of an allocated buffer; [None] is an access out of its
    bounds. *)
Definition peek (buf : list Z) (pos : Z) : option Z :=
  if decide (0 ≤ pos) then buf !! Z.to_nat pos else None.

(** ** Readers

    A reader walks a [char **pptr] over a buffer: the state is the position
    of the cursor, and [None] is an access out of the bounds of the buffer
    (undefined behaviour of the C code). *)

Definition reader (A : Type) : Type := list Z → Z → option (A * Z).

#[export] Instance reader_ret : MRet reader := λ A a buf pos, Some (a, pos).
#[export] Instance reader_bind : MBind reader := λ A B k m buf pos,
  match m buf pos with
  | Some (a, pos') => k a buf pos'
  | None => None
  end.

(** The current position, used where the code computes [enddata - *pptr]. *)
Definition tell : reader Z := λ buf pos, Some (pos, pos).
Definition advance (n : Z) : reader () := λ buf pos, Some ((), pos + n).
Definition fault {A} : reader A := λ buf pos, None.

(** ** Statements

    A statement works on a state [W] and leaves events [E], in order; [None] is
    undefined behaviour. *)

Section Emitting.
Context {W E : Type}.
Definition emitting (A : Type) : Type := W → option (A * W * list E).
#[export] Instance emitting_ret : MRet emitting := λ A a s, Some (a, s, []).
#[export] Instance emitting_bind : MBind emitting := λ A B k m s,
  match m s with
  | Some (a, s', ev) => match k a s' with Some (b, s'', ev') => Some (b, s'', ev ++ ev') | None => None end
  | None => None
  end.
Definition lift {A} (o : option A) : emitting A := λ s, match o with Some a => Some (a, s, []) | None => None end.
Definition emits (l : list E) : emitting () := λ s, Some ((), s, l).

(** A statement for each element, in order. *)
Fixpoint each {A} (f : A → emitting ()) (l : list A) : emitting () :=
  match l with [] => mret () | x :: l' => f x;; each f l' end.

(** A loop: the body gives the value of the next turn, or the result. *)
Fixpoint iterate {A B} (fuel : nat) (body : A → emitting (A + B)) (x : A) : emitting B :=
  match fuel with
  | O => lift None
  | S fuel' => r ← body x; match r with inl x' => iterate fuel' body x' | inr y => mret y end
  end.

(** What holds after a statement that returns, if [P] holds before. *)
Definition triple {A} (P : W → Prop) (f : emitting A) (Q : A → W → Prop) : Prop :=
  ∀ w r w' ev, f w = Some (r, w', ev) → P w → Q r w'.

Lemma triple_ret {A} (P : W → Prop) (r : A) Q : (∀ w, P w → Q r w) → triple P (mret r) Q.
Proof. intros H w r' w' ev [= <- <- <-]. apply H. Qed.
Lemma triple_lift {A} (P : W → Prop) (o : option A) Q : (∀ r w, o = Some r → P w → Q r w) → triple P (lift o) Q.
Proof. intros H w r w' ev. unfold lift. destruct o; [|done]. intros [= <- <- <-]. by apply H. Qed.
Lemma triple_emits (P : W → Prop) l Q : (∀ w, P w → Q () w) → triple P (emits l) Q.
Proof. intros H w r w' ev [= <- <- <-]. apply H. Qed.
Lemma triple_bind {A B} P (f : emitting A) Q (g : A → emitting B) Q2 :
  triple P f Q → (∀ r, triple (Q r) (g r) Q2) → triple P (f ≫= g) Q2.
Proof.
  intros Hf Hg w b w' ev H HP. unfold mbind, emitting_bind in H.
  destruct (f w) as [[[r w1] ev1]|] eqn:H1; [|done]. destruct (g r w1) as [[[b' w2] ev2]|] eqn:H2; [|done].
  injection H as -> -> <-. eapply Hg, Hf; done.
Qed.
Lemma triple_conseq {A} P (f : emitting A) Q (P' : W → Prop) (Q' : A → W → Prop) :
  triple P f Q → (∀ w, P' w → P w) → (∀ r w, Q r w → Q' r w) → triple P' f Q'.
Proof. intros H HP HQ w r w' ev H1 Hw. eapply HQ, H; [done|]. by apply HP. Qed.
Lemma triple_true {A} P (f : emitting A) : triple P f (λ _ _, True).
Proof. done. Qed.
(** What is done before does not matter. *)
Lemma triple_after {A B} P (f : emitting A) (g : A → emitting B) Q : (∀ r, triple (λ _, True) (g r) Q) → triple P (f ≫= g) Q.
Proof. intros H. eapply triple_bind; [apply triple_true|done]. Qed.
Lemma triple_if {A} (b : bool) P (f g : emitting A) Q :
  (b = true → triple P f Q) → (b = false → triple P g Q) → triple P (if b then f else g) Q.
Proof. destruct b; auto. Qed.
Lemma triple_each {A} I (f : A → emitting ()) l : (∀ x, x ∈ l → triple I (f x) (λ _, I)) → triple I (each f l) (λ _, I).
Proof.
  induction l as [|x l IH]; intros H; [by apply triple_ret|]. cbn [each]. eapply triple_bind; [apply H; left|].
  intros []. apply IH. intros y Hy. apply H. by right.
Qed.
Lemma triple_iterate {A B} (I : A → W → Prop) (Q : B → W → Prop) fuel (body : A → emitting (A + B)) :
  (∀ x, triple (I x) (body x) (λ r, match r with inl x' => I x' | inr y => Q y end)) →
  ∀ x, triple (I x) (iterate fuel body x) Q.
Proof.
  intros H. induction fuel as [|fuel IH]; intros x; [done|]. cbn [iterate]. eapply triple_bind; [apply H|].
  intros [x'|y]; [apply IH|by apply triple_ret].
Qed.
Lemma triple_when {A} (φ : Prop) (f : emitting A) Q : (φ → triple (λ _, True) f Q) → triple (λ _, φ) f Q.
Proof. intros H w r w' ev E1 Hφ. by eapply (H Hφ). Qed.

(** What a statement does: it returns, and [Q] holds of the result, the state and
    the events. *)
Definition runs {A} (f : emitting A) (w : W) (Q : A → W → list E → Prop) : Prop :=
  match f w with Some (r, w', ev) => Q r w' ev | None => False end.
Lemma runs_ret {A} (r : A) w Q : Q r w [] → runs (mret r) w Q.
Proof. done. Qed.
Lemma runs_emits l w Q : Q () w l → runs (emits l) w Q.
Proof. done. Qed.
Lemma runs_lift {A} (o : option A) x w Q : o = Some x → Q x w [] → runs (lift o) w Q.
Proof. by intros ->. Qed.
Lemma runs_bind {A B} (f : emitting A) (g : A → emitting B) w Q :
  runs f w (λ r w1 ev1, runs (g r) w1 (λ x w2 ev2, Q x w2 (ev1 ++ ev2))) → runs (f ≫= g) w Q.
Proof.
  unfold runs, mbind, emitting_bind. destruct (f w) as [[[r w1] ev1]|]; [|done]. by destruct (g r w1) as [[[x w2] ev2]|].
Qed.
Lemma runs_mono {A} (f : emitting A) w (Q Q' : A → W → list E → Prop) :
  runs f w Q → (∀ r w' ev, Q r w' ev → Q' r w' ev) → runs f w Q'.
Proof. unfold runs. destruct (f w) as [[[r w1] ev1]|]; auto. Qed.
Lemma runs_some {A} (f : emitting A) w Q : runs f w Q → ∃ r w' ev, f w = Some (r, w', ev) ∧ Q r w' ev.
Proof. unfold runs. destruct (f w) as [[[r w1] ev1]|]; [|done]. eauto. Qed.
End Emitting.
Arguments emitting : clear implicits.

(** ** Outcomes of whole functions

    A function of the program faults (undefined behaviour), ends the process,
    or returns. *)

Inductive outcome (A : Type) : Type :=
  | Faults
  | Exits (code : Z)
  | Returns (a : A).
Arguments Faults {A}.
Arguments Exits {A} code.
Arguments Returns {A} a.

#[export] Instance outcome_ret : MRet outcome := λ A a, Returns a.
#[export] Instance outcome_bind : MBind outcome := λ A B k m,
  match m with
  | Faults => Faults
  | Exits c => Exits c
  | Returns a => k a
  end.

(** A read that may fault, as an outcome. *)
Definition or_fault {A} (o : option A) : outcome A :=
  match o with Some a => Returns a | None => Faults end.

Lemma bind_Exits {A B} (m : outcome A) (k : A → outcome B) c :
  m ≫= k = Exits c → m = Exits c ∨ ∃ a, m = Returns a ∧ k a = Exits c.
Proof. destruct m as [|c'|a]; intros H; [done|left; injection H as ->; done|right; by exists a]. Qed.

Lemma bind_Returns {A B} (m : outcome A) (k : A → outcome B) b :
  m ≫= k = Returns b → ∃ a, m = Returns a ∧ k a = Returns b.
Proof. destruct m as [|c'|a]; intros H; [done|done|by exists a]. Qed.

Lemma or_fault_Exits {A} (o : option A) c : or_fault o ≠ Exits c.
Proof. by destruct o. Qed.

(** ** Codecs

    The contract between a writer and a reader of the packet format: reading
    back what was written, at any place of any buffer, gives the value and
    leaves the cursor after it.  [e] is the [enddata] limit of the reader. *)

Class Codec {A : Type} (write : A → list Z) (read : Z → reader A) (wf : A → Prop) : Prop :=
  codec_law : ∀ a pre post e,
    wf a → len pre + len (write a) ≤ e →
    read e (pre ++ write a ++ post) (len pre) = Some (a, len pre + len (write a)).

(** The law with the place of the encoding given by equations. *)
Lemma codec_read {A} {write : A → list Z} {read : Z → reader A} {wf : A → Prop}
    `{!Codec write read wf} a buf pre post e pos :
  wf a → buf = pre ++ write a ++ post → pos = len pre → pos + len (write a) ≤ e →
  read e buf pos = Some (a, pos + len (write a)).
Proof. intros Hwf -> -> He. by apply codec_law. Qed.

(** ** Tactics and hint databases *)

Create HintDb cmqtt.
Create Rewrite HintDb lens.
Create Rewrite HintDb ints.
#[export] Hint Rewrite @length_app @length_cons @length_nil @length_fmap @length_replicate
  @length_reverse @length_insert @Nat2Z.inj_add @Nat2Z.inj_succ : lens.

(** Length arithmetic: normalises the lengths of concatenations, then [lia]. *)
Ltac lens := autorewrite with lens in *; cbn [length] in *; try lia.

Ltac case_decides :=
  repeat match goal with
  | |- context [decide ?P] => destruct (decide P); try lia
  | H : context [decide ?P] |- _ => destruct (decide P); try lia
  end.

(** Cases on the boolean comparisons of the goal, discharged by [lia]. *)
Ltac case_leb :=
  repeat match goal with
  | |- context [?a <=? ?b] => destruct (Z.leb_spec a b); try lia
  | |- context [?a <? ?b] => destruct (Z.ltb_spec a b); try lia
  | |- context [?a =? ?b] => destruct (Z.eqb_spec a b); try lia
  end.

(** ** Generic lemmas *)

Lemma filter_every {A} (P : A → Prop) `{!∀ x, Decision (P x)} (l : list A) : (∀ x, x ∈ l → P x) → filter P l = l.
Proof.
  induction l as [|x l IH]; intros Hl; [done|]. rewrite filter_cons_True by (apply Hl; left). f_equal. apply IH. intros y Hy. apply Hl. by right.
Qed.

Lemma u8_byte x : is_byte (u8 x).
Proof. unfold u8, is_byte. apply Z.mod_pos_bound. lia. Qed.

Lemma u8_small b : is_byte b → u8 b = b.
Proof. unfold u8, is_byte. intros. by apply Z.mod_small. Qed.

Lemma u32_small x : is_u32 x → u32 x = x.
Proof. unfold u32, is_u32. intros. by apply Z.mod_small. Qed.

Lemma s32_small x : - 2 ^ 31 ≤ x < 2 ^ 31 → s32 x = x.
Proof. unfold s32. intros. rewrite Z.mod_small; lia. Qed.

Lemma s8_low b : 0 ≤ b < 128 → s8 b = b.
Proof. unfold s8. intros. rewrite Z.mod_small; lia. Qed.

Lemma s8_high b : 128 ≤ b < 256 → s8 b = b - 256.
Proof.
  unfold s8. intros. replace (b + 128) with ((b - 128) + 1 * 256) by lia.
  rewrite Z.mod_add, Z.mod_small; lia.
Qed.

#[export] Hint Resolve u8_byte : cmqtt.
#[export] Hint Rewrite u8_small using (unfold is_byte; lia) : ints.

Lemma peek_app pre b post : peek (pre ++ b :: post) (len pre) = Some b.
Proof.
  unfold peek. rewrite decide_True by lia. rewrite Nat2Z.id.
  by rewrite list_lookup_middle.
Qed.

Lemma peek_app_at pre b post pos :
  pos = len pre → peek (pre ++ b :: post) pos = Some b.
Proof. intros ->. apply peek_app. Qed.

Lemma peek_Some_inv buf pos b : peek buf pos = Some b → 0 ≤ pos < len buf.
Proof.
  unfold peek. case_decide; [|done]. intros Hl%lookup_lt_Some. lia.
Qed.

Lemma peek_None buf pos : len buf ≤ pos → peek buf pos = None.
Proof. unfold peek. intros. case_decide; [|done]. apply lookup_ge_None. lia. Qed.

Lemma peek_is_Some buf pos : 0 ≤ pos < len buf → ∃ b, peek buf pos = Some b.
Proof.
  intros. unfold peek. rewrite decide_True by lia.
  destruct (lookup_lt_is_Some_2 buf (Z.to_nat pos)) as [b Hb]; [lia|]. by exists b.
Qed.

Lemma peek_byte buf pos b : bytes_ok buf → peek buf pos = Some b → is_byte b.
Proof.
  unfold peek. intros Hok. case_decide; [|done]. intros Hl. exact (Forall_lookup_1 _ _ _ _ Hok Hl).
Qed.

Lemma cstr_ok s : cstring_ok s → cstr s = s.
Proof.
  induction 1 as [|b s Hb Hs IH]; simpl; [done|].
  rewrite decide_False by lia. by rewrite IH.
Qed.

Lemma cstr_app_nul s t : cstring_ok s → cstr (s ++ 0 :: t) = s.
Proof.
  induction 1 as [|b s Hb Hs IH]; simpl; [done|].
  rewrite decide_False by lia. by rewrite IH.
Qed.

Lemma cstr_cstring_ok buf : bytes_ok buf → cstring_ok (cstr buf).
Proof.
  induction 1 as [|b buf Hb Hbs IH]; simpl; [constructor|].
  case_decide; [constructor|]. constructor; [unfold is_byte in *; lia|done].
Qed.

Lemma cstring_ok_bytes s : cstring_ok s → bytes_ok s.
Proof. intros H. eapply Forall_impl; [exact H|]. unfold is_byte. simpl. lia. Qed.

(** A property of a finite range of integers is checked by evaluating it on
    each of them; the 256 bytes are the common case. *)
Lemma seqZ_forallb (P : Z → bool) n :
  forallb P (seqZ 0 n) = true → ∀ x, 0 ≤ x < n → P x = true.
Proof.
  intros H x Hx. rewrite forallb_forall in H. apply H.
  apply list_elem_of_In, elem_of_seqZ. lia.
Qed.

Lemma byte_forallb (P : Z → bool) :
  forallb P (seqZ 0 256) = true → ∀ b, is_byte b → P b = true.
Proof. apply seqZ_forallb. Qed.
