(* ===== verification/Libc.v ===== *)
(** * The C library functions the sources call on strings

    Decimal conversion both ways, prefix and substring search, and the strings
    they work on: bytes without the terminator. *)
From S2P Require Import Prelude.

Module Libc.

(** ** Numbers *)

(** [atoi] of the C library: white space, sign, digits; [strtol] saturates at
    the limits of [long] and the result is converted to [int]. *)
Definition is_space (c : Z) : bool := (c =? 32) || ((9 <=? c) && (c <=? 13)).

Fixpoint skip_space (s : list Z) : list Z :=
  match s with
  | c :: s' => if is_space c then skip_space s' else s
  | [] => []
  end.

Fixpoint digits (acc : Z) (s : list Z) : Z :=
  match s with
  | c :: s' => if (48 <=? c) && (c <=? 57) then digits (10 * acc + (c - 48)) s' else acc
  | [] => acc
  end.

Definition clamp_long (x : Z) : Z := Z.max (- 2 ^ 63) (Z.min x (2 ^ 63 - 1)).

Definition atoi (s : list Z) : Z :=
  match skip_space s with
  | 45 :: s' => s32 (clamp_long (- digits 0 s'))
  | 43 :: s' => s32 (clamp_long (digits 0 s'))
  | s' => s32 (clamp_long (digits 0 s'))
  end.

(** [sprintf(key, "%s%d", stem, n)] writes the digits of [n]; twenty digits hold
    any [long]. *)
Fixpoint dec_loop (fuel : nat) (n : Z) : list Z :=
  match fuel with
  | O => []
  | S fuel' => (if n <? 10 then [] else dec_loop fuel' (n / 10)) ++ [48 + n mod 10]
  end.
Definition dec (n : Z) : list Z := if n <? 0 then 45 :: dec_loop 20 (- n) else dec_loop 20 n.

(** ** Searching *)

(** [strncmp(s, p, strlen(p)) == 0]. *)
Fixpoint starts_with (p s : list Z) : bool :=
  match p, s with
  | [], _ => true
  | a :: p', b :: s' => (a =? b) && starts_with p' s'
  | _ :: _, [] => false
  end.

(** [strstr]: what precedes the first occurrence, and the rest from it. *)
Fixpoint strstr (s p : list Z) : option (list Z * list Z) :=
  if starts_with p s then Some ([], s)
  else match s with
       | [] => None
       | c :: s' => '(a, b) ← strstr s' p; Some (c :: a, b)
       end.

(** [strchr]: what precedes the first [c], and the rest from it. *)
Definition strchr (s : list Z) (c : Z) : option (list Z * list Z) := strstr s [c].

(** ** Decimal round trip *)

Lemma dec_loop_nonneg fuel n : 0 ≤ n → Forall (λ c, 48 ≤ c ≤ 57) (dec_loop fuel n).
Proof.
  revert n. induction fuel as [|fuel IH]; intros n Hn; cbn [dec_loop]; [done|].
  apply Forall_app. split.
  - case_leb; [done|]. apply IH, Z.div_pos; lia.
  - repeat constructor; pose proof (Z.mod_pos_bound n 10); lia.
Qed.

Lemma dec_loop_short fuel n k : 0 ≤ n → (1 ≤ k)%nat → (k < fuel)%nat → (length (dec_loop fuel n) ≤ k)%nat ↔ n < 10 ^ Z.of_nat k.
Proof.
  revert n k. induction fuel as [|fuel IH]; intros n k Hn Hk Hf; [lia|]. cbn [dec_loop]. rewrite length_app. cbn [length].
  destruct (Z.ltb_spec n 10) as [Hs|Hs].
  - cbn. split; [|lia]. intros _. assert (10 ^ 1 ≤ 10 ^ Z.of_nat k) by (apply Z.pow_le_mono_r; lia). lia.
  - destruct (decide (k = 1%nat)) as [->|Hk1].
    + split; [|lia]. destruct fuel; [lia|]. cbn [dec_loop]. rewrite length_app. cbn. lia.
    + specialize (IH (n / 10) (k - 1)%nat). rewrite Nat2Z.inj_sub in IH by lia.
      assert (Hp : 10 ^ Z.of_nat k = 10 * 10 ^ (Z.of_nat k - 1)) by (rewrite <-Z.pow_succ_r by lia; f_equal; lia).
      assert (Hd : n / 10 < 10 ^ (Z.of_nat k - 1) ↔ n < 10 ^ Z.of_nat k).
      { rewrite Hp. rewrite (Z.lt_nge (n / 10)), (Z.lt_nge n). split; intros H H'; apply H; [apply Z.div_le_lower_bound|]; try lia.
        pose proof (Z.mul_div_le n 10 ltac:(lia)). lia. }
      rewrite <-Hd, <-IH by (try apply Z.div_pos; lia). lia.
Qed.

Lemma digits_app acc l1 l2 :
  Forall (λ c, 48 ≤ c ≤ 57) l1 → digits acc (l1 ++ l2) = digits (digits acc l1) l2.
Proof.
  intros H. revert acc. induction H as [|c l1 Hc Hl IH]; intros acc; [done|].
  cbn [app digits]. destruct ((48 <=? c) && (c <=? 57)) eqn:E; [apply IH|]. lia.
Qed.

Lemma digits_dec_loop fuel n : 0 ≤ n < 10 ^ Z.of_nat fuel → digits 0 (dec_loop fuel n) = n.
Proof.
  revert n. induction fuel as [|fuel IH]; intros n Hn; [simpl in *; lia|].
  rewrite Nat2Z.inj_succ, Z.pow_succ_r in Hn by lia. cbn [dec_loop].
  pose proof (Z.mod_pos_bound n 10 ltac:(lia)). pose proof (Z.div_mod n 10 ltac:(lia)) as Hdm.
  rewrite digits_app by (case_leb; [done|]; apply dec_loop_nonneg, Z.div_pos; lia).
  assert (Hq : digits 0 (if n <? 10 then [] else dec_loop fuel (n / 10)) = n / 10).
  { case_leb; [rewrite Z.div_small by lia; done|]. apply IH.
    split; [apply Z.div_pos; lia|apply Z.div_lt_upper_bound; lia]. }
  rewrite Hq. cbn [digits]. destruct ((48 <=? _) && _) eqn:E; lia.
Qed.

Lemma dec_digits n : 0 ≤ n → Forall (λ c, 48 ≤ c ≤ 57) (dec n).
Proof. intros Hn. unfold dec. case_leb. by apply dec_loop_nonneg. Qed.

Lemma dec_cons n : 0 ≤ n → ∃ c l, dec n = c :: l ∧ 48 ≤ c ≤ 57.
Proof.
  intros Hn. pose proof (dec_digits n Hn) as H. destruct (dec n) as [|c l] eqn:E.
  - unfold dec in E. destruct (n <? 0); [done|]. cbn [dec_loop] in E. by destruct (if n <? 10 then _ else _).
  - exists c, l. split; [done|]. by inversion H.
Qed.

Lemma digits_dec n : 0 ≤ n < 10 ^ 20 → digits 0 (dec n) = n.
Proof. intros Hn. unfold dec. case_leb. by apply digits_dec_loop. Qed.

Lemma atoi_dec n : 0 ≤ n < 2 ^ 31 → atoi (dec n) = n.
Proof.
  intros Hn. pose proof (digits_dec n ltac:(lia)) as Hd.
  destruct (dec_cons n ltac:(lia)) as (c & l & E & Hc). rewrite E in *. unfold atoi. cbn [skip_space].
  replace (is_space c) with false by (unfold is_space; lia).
  assert (Hs : s32 (clamp_long (digits 0 (c :: l))) = n).
  { rewrite Hd. unfold clamp_long. rewrite s32_small; lia. }
  do 6 (destruct c as [|c|]; try lia; try exact Hs).
Qed.

Lemma dec_inj n m : 0 ≤ n < 10 ^ 20 → 0 ≤ m < 10 ^ 20 → dec n = dec m → n = m.
Proof. intros Hn Hm E. by rewrite <-(digits_dec n), <-(digits_dec m), E. Qed.

Lemma dec_loop_length k fuel n :
  0 ≤ n → (k ≤ fuel)%nat → (k ≠ 0)%nat → n < 10 ^ Z.of_nat k → (length (dec_loop fuel n) ≤ k)%nat.
Proof.
  revert fuel n. induction k as [|k IH]; intros fuel n Hn Hk Hk0 Hlt; [done|].
  destruct fuel as [|fuel]; [lia|]. cbn [dec_loop]. rewrite length_app. cbn [length].
  case_leb; [cbn [length]; lia|].
  rewrite Nat2Z.inj_succ, Z.pow_succ_r in Hlt by lia.
  destruct (decide (k = 0)%nat) as [->|]; [simpl in Hlt; lia|].
  enough (length (dec_loop fuel (n / 10)) ≤ k)%nat by lia.
  apply IH; [apply Z.div_pos; lia|lia|done|apply Z.div_lt_upper_bound; lia].
Qed.

Lemma dec_loop_length_ge k fuel n :
  (k < fuel)%nat → 10 ^ Z.of_nat k ≤ n → (k < length (dec_loop fuel n))%nat.
Proof.
  revert fuel n. induction k as [|k IH]; intros fuel n Hk Hle; (destruct fuel as [|fuel]; [lia|]);
    cbn [dec_loop]; rewrite length_app; cbn [length]; [lia|].
  rewrite Nat2Z.inj_succ, Z.pow_succ_r in Hle by lia.
  assert (1 ≤ 10 ^ Z.of_nat k) by (pose proof (Z.pow_pos_nonneg 10 (Z.of_nat k)); lia).
  case_leb. enough (k < length (dec_loop fuel (n / 10)))%nat by lia.
  apply IH; [lia|]. apply Z.div_le_lower_bound; lia.
Qed.

Lemma dec_length_le k n :
  0 ≤ n < 10 ^ Z.of_nat k → (0 < k ≤ 20)%nat → (length (dec n) ≤ k)%nat.
Proof. intros Hn Hk. unfold dec. case_leb. apply dec_loop_length; lia. Qed.

Lemma dec_length_ge k n :
  10 ^ Z.of_nat k ≤ n → (k < 20)%nat → (k < length (dec n))%nat.
Proof.
  intros Hn Hk. pose proof (Z.pow_pos_nonneg 10 (Z.of_nat k)).
  unfold dec. case_leb. by apply dec_loop_length_ge.
Qed.

(** ** Searching, by prefixes *)

Lemma starts_with_spec p s : starts_with p s = true ↔ ∃ t, s = p ++ t.
Proof.
  revert s. induction p as [|a p IH]; intros s; cbn [starts_with app].
  - split; [by exists s|done].
  - destruct s as [|b s]; [split; [done|by intros [t ?]]|].
    rewrite andb_true_iff, Z.eqb_eq, IH. split.
    + intros [-> [t ->]]. by exists t.
    + intros [t [= -> ->]]. split; [done|by exists t].
Qed.

Lemma starts_with_app p t : starts_with p (p ++ t) = true.
Proof. apply starts_with_spec. by exists t. Qed.

End Libc.
