(* ===== verification/Utf8.v ===== *)
(** * UTF-8 validation (paho.mqtt.c/src/utf-8.c)

    [UTF8_char_validate] and [UTF8_validate] with the table of byte ranges of
    the source, compared as signed chars the way the C code does, against the
    definition of UTF-8: the concatenations of the encodings of Unicode scalar
    values. *)
From S2P Require Import Prelude.

#[local] Ltac Zify.zify_post_hook ::= Z.to_euclidean_division_equations.

Module Utf8.

(** ** The code *)

(** A row of [valid_ranges]: the length, and the lower and upper [char] limits
    of each byte. *)
Record range_row := Row { row_len : Z; row_bytes : list (Z * Z) }.

(** The limits are stored in [char] fields, so 0xC2 is the value -62. *)
Definition rng (lower upper : Z) : Z * Z := (s8 lower, s8 upper).

Definition valid_ranges : list range_row :=
  [ Row 1 [rng 0x00 0x7F];
    Row 2 [rng 0xC2 0xDF; rng 0x80 0xBF];
    Row 3 [rng 0xE0 0xE0; rng 0xA0 0xBF; rng 0x80 0xBF];
    Row 3 [rng 0xE1 0xEC; rng 0x80 0xBF; rng 0x80 0xBF];
    Row 3 [rng 0xED 0xED; rng 0x80 0x9F; rng 0x80 0xBF];
    Row 3 [rng 0xEE 0xEF; rng 0x80 0xBF; rng 0x80 0xBF];
    Row 4 [rng 0xF0 0xF0; rng 0x90 0xBF; rng 0x80 0xBF; rng 0x80 0xBF];
    Row 4 [rng 0xF1 0xF3; rng 0x80 0xBF; rng 0x80 0xBF; rng 0x80 0xBF];
    Row 4 [rng 0xF4 0xF4; rng 0x80 0x8F; rng 0x80 0xBF; rng 0x80 0xBF] ].

(** The number of bytes announced by the first byte. *)
Definition char_len (d0 : Z) : Z :=
  if s8 d0 .& 128 =? 0 then 1
  else if s8 d0 .& 0xF0 =? 0xF0 then 4
  else if s8 d0 .& 0xE0 =? 0xE0 then 3
  else 2.

(** The inner loop over [j]: each byte within the limits of its column. *)
Fixpoint row_match (limits : list (Z * Z)) (data : list Z) : bool :=
  match limits, data with
  | [], _ => true
  | (lower, upper) :: limits', d :: data' =>
      if (s8 d <? lower) || (upper <? s8 d) then false else row_match limits' data'
  | _ :: _, [] => false
  end.

(** [data] is the string from the current position, [len] the length passed
    with it; the result is the string after the character, [None] for NULL. *)
Definition UTF8_char_validate (len : Z) (data : list Z) : option (list Z) :=
  match data with
  | [] => None
  | d0 :: _ =>
      let charlen := char_len d0 in
      if len <? charlen then None
      else
        let good := existsb (λ row, (row_len row =? charlen) && row_match (row_bytes row) data)
                      valid_ranges in
        if good then Some (drop (Z.to_nat charlen) data) else None
  end.

(** The while loop; each turn consumes at least one byte, so the length of the
    string is enough fuel ([UTF8_loop_fuel]). *)
Fixpoint UTF8_loop (fuel : nat) (curdata : option (list Z)) : option (list Z) :=
  match fuel, curdata with
  | S fuel', Some (d :: data) =>
      UTF8_loop fuel' (UTF8_char_validate (len (d :: data)) (d :: data))
  | _, _ => curdata
  end.

(** [data = None] is the NULL pointer. *)
Definition UTF8_validate (n : Z) (data : option (list Z)) : Z :=
  match data with
  | None => 1
  | Some d =>
      if n =? 0 then 1
      else match UTF8_loop (length d) (UTF8_char_validate n d) with
           | Some _ => 1
           | None => 0
           end
  end.

Definition UTF8_validateString (string : option (list Z)) : Z :=
  match string with
  | None => 0
  | Some s => UTF8_validate (len s) (Some s)
  end.

(** ** The specification *)

(** Unicode scalar values: every code point except the surrogates. *)
Definition scalar (c : Z) : Prop := 0 ≤ c ≤ 0x10FFFF ∧ ¬ (0xD800 ≤ c ≤ 0xDFFF).

Definition utf8_encode (c : Z) : list Z :=
  if c <? 0x80 then [c]
  else if c <? 0x800 then [0xC0 + c / 64; 0x80 + c mod 64]
  else if c <? 0x10000 then [0xE0 + c / 4096; 0x80 + c / 64 mod 64; 0x80 + c mod 64]
  else [0xF0 + c / 262144; 0x80 + c / 4096 mod 64; 0x80 + c / 64 mod 64; 0x80 + c mod 64].

Definition well_formed (data : list Z) : Prop :=
  ∃ cps, Forall scalar cps ∧ data = concat (utf8_encode <$> cps).

(** ** Lemmas *)

Lemma char_len_spec b : is_byte b →
  char_len b = if b <? 128 then 1 else if b <? 224 then 2 else if b <? 240 then 3 else 4.
Proof.
  intros Hb. apply Z.eqb_eq.
  apply (byte_forallb (λ b, char_len b =?
    if b <? 128 then 1 else if b <? 224 then 2 else if b <? 240 then 3 else 4)); [|done].
  by vm_compute.
Qed.

(** The signed comparison of bytes with limits of the upper half is the
    unsigned one. *)
Lemma s8_range b lo hi : is_byte b → 128 ≤ lo < 256 → 128 ≤ hi < 256 →
  (s8 b <? s8 lo) || (s8 hi <? s8 b) = (b <? lo) || (hi <? b).
Proof.
  unfold is_byte. intros Hb Hlo Hhi. rewrite !(s8_high lo), !(s8_high hi) by lia.
  destruct (decide (b < 128)); [rewrite s8_low by lia|rewrite s8_high by lia];
    apply eq_bool_prop_intro; rewrite !orb_True, !Is_true_true, !Z.ltb_lt; lia.
Qed.

(** The range test of one byte. *)
Definition in_rng (lo hi b : Z) : bool := negb ((b <? lo) || (hi <? b)).

Lemma row_match_cons lo hi limits d data : is_byte d → 128 ≤ lo < 256 → 128 ≤ hi < 256 →
  row_match (rng lo hi :: limits) (d :: data) = in_rng lo hi d && row_match limits data.
Proof. intros. simpl. rewrite s8_range by done. unfold in_rng. by destruct (_ || _). Qed.

Lemma in_rng_true lo hi b : in_rng lo hi b = true ↔ lo ≤ b ≤ hi.
Proof. unfold in_rng. rewrite negb_true_iff, orb_false_iff, !Z.ltb_ge. lia. Qed.

(** The rows of the table with [n] bytes, tried on [data]. *)
Definition rows_match (n : Z) (data : list Z) : bool :=
  existsb (λ row, (row_len row =? n) && row_match (row_bytes row) data) valid_ranges.

Ltac eval_rows :=
  intros; unfold rows_match, valid_ranges;
  cbn [existsb row_len row_bytes Z.eqb Pos.eqb andb orb];
  rewrite ?row_match_cons by (first [done | lia]);
  cbn [row_match]; rewrite ?andb_true_r, ?orb_false_r; try done.

Lemma rows_1 d0 t : 0 ≤ d0 < 128 → rows_match 1 (d0 :: t) = true.
Proof.
  intros Hd. unfold rows_match, valid_ranges. cbn [existsb row_len row_bytes Z.eqb Pos.eqb andb].
  unfold rng. cbn [row_match]. rewrite !s8_low by lia.
  destruct (Z.ltb_spec d0 0), (Z.ltb_spec 127 d0); simpl; lia || done.
Qed.

Lemma rows_2 d0 d1 t : is_byte d0 → is_byte d1 →
  rows_match 2 (d0 :: d1 :: t) = in_rng 0xC2 0xDF d0 && in_rng 0x80 0xBF d1.
Proof. eval_rows. Qed.

Lemma rows_3 d0 d1 d2 t : is_byte d0 → is_byte d1 → is_byte d2 → 128 ≤ d0 →
  rows_match 3 (d0 :: d1 :: d2 :: t) =
    in_rng 0xE0 0xE0 d0 && (in_rng 0xA0 0xBF d1 && in_rng 0x80 0xBF d2)
    || (in_rng 0xE1 0xEC d0 && (in_rng 0x80 0xBF d1 && in_rng 0x80 0xBF d2)
    || (in_rng 0xED 0xED d0 && (in_rng 0x80 0x9F d1 && in_rng 0x80 0xBF d2)
    || in_rng 0xEE 0xEF d0 && (in_rng 0x80 0xBF d1 && in_rng 0x80 0xBF d2))).
Proof. eval_rows. Qed.

Lemma rows_4 d0 d1 d2 d3 t :
  is_byte d0 → is_byte d1 → is_byte d2 → is_byte d3 →
  rows_match 4 (d0 :: d1 :: d2 :: d3 :: t) =
    in_rng 0xF0 0xF0 d0 && (in_rng 0x90 0xBF d1 && (in_rng 0x80 0xBF d2 && in_rng 0x80 0xBF d3))
    || (in_rng 0xF1 0xF3 d0 && (in_rng 0x80 0xBF d1 && (in_rng 0x80 0xBF d2 && in_rng 0x80 0xBF d3))
    || in_rng 0xF4 0xF4 d0 && (in_rng 0x80 0x8F d1 && (in_rng 0x80 0xBF d2 && in_rng 0x80 0xBF d3))).
Proof. eval_rows. Qed.

Lemma validate_unfold d0 t : is_byte d0 →
  UTF8_char_validate (len (d0 :: t)) (d0 :: t) =
    if len (d0 :: t) <? char_len d0 then None
    else if rows_match (char_len d0) (d0 :: t)
         then Some (drop (Z.to_nat (char_len d0)) (d0 :: t)) else None.
Proof. done. Qed.

Ltac bool_hyps :=
  repeat match goal with
  | H : _ && _ = true |- _ => apply andb_true_iff in H as [? ?]
  | H : _ || _ = true |- _ => apply orb_true_iff in H as [H|H]
  | H : in_rng _ _ _ = true |- _ => apply in_rng_true in H
  end.

Ltac encode_by_range :=
  unfold utf8_encode; case_leb; simpl; repeat f_equal; lia.

(** A character accepted by the code is the encoding of a scalar value. *)
Lemma char_validate_sound data rest : bytes_ok data →
  UTF8_char_validate (len data) data = Some rest →
  ∃ c, scalar c ∧ data = utf8_encode c ++ rest.
Proof.
  intros Hok Hv. destruct data as [|d0 t]; [done|].
  pose proof Hok as Hb. apply Forall_cons in Hb as [Hd0 Hb].
  rewrite validate_unfold in Hv by done. rewrite char_len_spec in Hv by done.
  unfold is_byte in Hd0.
  destruct (Z.ltb_spec d0 128); [|destruct (Z.ltb_spec d0 224); [|destruct (Z.ltb_spec d0 240)]].
  - exists d0. unfold scalar. split; [lia|].
    destruct (_ <? 1) eqn:?; [done|]. rewrite rows_1 in Hv by lia.
    simplify_eq. encode_by_range.
  - destruct t as [|d1 t]; [done|]. apply Forall_cons in Hb as [Hd1 Hb].
    destruct (_ <? 2) eqn:?; [done|]. rewrite rows_2 in Hv by (unfold is_byte in *; lia).
    unfold is_byte in *. destruct (_ && _) eqn:E in Hv; simplify_eq. bool_hyps.
    exists ((d0 - 0xC0) * 64 + (d1 - 0x80)). unfold scalar. split; [lia|]. encode_by_range.
  - destruct t as [|d1 [|d2 t]]; [done..|].
    apply Forall_cons in Hb as [Hd1 Hb]. apply Forall_cons in Hb as [Hd2 Hb].
    destruct (_ <? 3) eqn:?; [done|]. rewrite rows_3 in Hv by (unfold is_byte in *; lia).
    unfold is_byte in *. destruct (_ || _) eqn:E in Hv; simplify_eq.
    exists ((d0 - 0xE0) * 4096 + (d1 - 0x80) * 64 + (d2 - 0x80)). unfold scalar.
    bool_hyps; (split; [lia|]; encode_by_range).
  - destruct t as [|d1 [|d2 [|d3 t]]]; [done..|].
    apply Forall_cons in Hb as [Hd1 Hb]. apply Forall_cons in Hb as [Hd2 Hb].
    apply Forall_cons in Hb as [Hd3 Hb].
    destruct (_ <? 4) eqn:?; [done|]. rewrite rows_4 in Hv by (unfold is_byte in *; lia).
    unfold is_byte in *. destruct (_ || _) eqn:E in Hv; simplify_eq.
    exists ((d0 - 0xF0) * 262144 + (d1 - 0x80) * 4096 + (d2 - 0x80) * 64 + (d3 - 0x80)).
    unfold scalar. bool_hyps; (split; [lia|]; encode_by_range).
Qed.

(** [in_rng] is decided by arithmetic: used to evaluate the rows on the bytes
    of an encoding. *)
Lemma in_rng_dec lo hi b : in_rng lo hi b = bool_decide (lo ≤ b ≤ hi).
Proof.
  destruct (in_rng lo hi b) eqn:E; symmetry.
  - apply bool_decide_eq_true. by apply in_rng_true.
  - apply bool_decide_eq_false. intros H%in_rng_true. congruence.
Qed.

Lemma encode_bytes c : scalar c → bytes_ok (utf8_encode c).
Proof.
  unfold scalar, utf8_encode. intros.
  case_leb; repeat (constructor; [unfold is_byte; lia|]); constructor.
Qed.

Lemma encode_nonempty c : 1 ≤ len (utf8_encode c).
Proof. unfold utf8_encode. case_leb; simpl; lia. Qed.

Ltac rows_true :=
  rewrite !in_rng_dec; repeat (case_bool_decide; simpl; try done; try lia).

Ltac len_enough :=
  match goal with
  | |- context [len ?l <? ?n] => rewrite (proj2 (Z.ltb_ge (len l) n)) by (simpl; lia)
  end.

(** The encoding of a scalar value is accepted, and exactly it is consumed. *)
Lemma char_validate_complete c rest : scalar c →
  UTF8_char_validate (len (utf8_encode c ++ rest)) (utf8_encode c ++ rest) = Some rest.
Proof.
  intros Hc. pose proof (encode_bytes c Hc) as Hb. unfold scalar in Hc.
  unfold utf8_encode in *.
  destruct (Z.ltb_spec c 0x80); [|destruct (Z.ltb_spec c 0x800);
    [|destruct (Z.ltb_spec c 0x10000)]]; cbn [app];
    repeat (apply Forall_cons in Hb as [? Hb]);
    rewrite validate_unfold, char_len_spec by done; unfold is_byte in *.
  - rewrite (proj2 (Z.ltb_lt c 128)) by lia. rewrite rows_1 by lia.
    by len_enough.
  - rewrite (proj2 (Z.ltb_ge _ 128)), (proj2 (Z.ltb_lt _ 224)) by lia.
    rewrite rows_2 by (unfold is_byte; lia).
    len_enough. rows_true.
  - rewrite (proj2 (Z.ltb_ge _ 128)), (proj2 (Z.ltb_ge _ 224)), (proj2 (Z.ltb_lt _ 240)) by lia.
    rewrite rows_3 by (unfold is_byte; lia).
    len_enough. rows_true.
  - rewrite (proj2 (Z.ltb_ge _ 128)), (proj2 (Z.ltb_ge _ 224)), (proj2 (Z.ltb_ge _ 240)) by lia.
    rewrite rows_4 by (unfold is_byte; lia).
    len_enough. rows_true.
Qed.

(** Enough fuel: the loop decides well-formedness of what is left. *)
Lemma UTF8_loop_fuel fuel data : bytes_ok data → (length data ≤ fuel)%nat →
  is_Some (UTF8_loop fuel (Some data)) ↔ well_formed data.
Proof.
  revert data. induction fuel as [|fuel IH]; intros [|d data] Hok Hlen; simpl in Hlen; try lia.
  1, 2: split; [exists []; split; [constructor|done]|eauto].
  cbn [UTF8_loop].
  destruct (UTF8_char_validate _ _) as [rest|] eqn:Hv.
  - destruct (char_validate_sound _ _ Hok Hv) as (c & Hc & Heq).
    pose proof (encode_nonempty c).
    assert (bytes_ok rest) by (rewrite Heq in Hok; by apply Forall_app in Hok as [_ ?]).
    assert (length rest ≤ fuel)%nat.
    { apply (f_equal length) in Heq. rewrite length_app in Heq. simpl in Heq. lia. }
    rewrite IH by done. split; intros (cps & Hcps & Hd).
    + exists (c :: cps). split; [by constructor|]. simpl. by rewrite Heq, Hd.
    + destruct cps as [|c' cps]; [done|]. apply Forall_cons in Hcps as [Hc' Hcps].
      exists cps. split; [done|]. simpl in Hd. rewrite Hd in Hv.
      rewrite char_validate_complete in Hv by done. by simplify_eq.
  - replace (UTF8_loop fuel None) with (@None (list Z)) by (by destruct fuel).
    split; [by intros [? ?]|]. intros (cps & Hcps & Hd).
    destruct cps as [|c' cps]; [done|]. apply Forall_cons in Hcps as [Hc' Hcps].
    simpl in Hd. rewrite Hd, char_validate_complete in Hv by done. done.
Qed.


(** ** Properties *)

(** C40: on every byte string [UTF8_validate] answers 1 exactly when the string
    is well-formed UTF-8, that is the concatenation of the encodings of
    Unicode scalar values (so no overlong form, no surrogate, nothing above
    U+10FFFF and no truncated character), and 0 exactly when it is not. *)
Theorem UTF8_validate_correct data : bytes_ok data →
  (UTF8_validate (len data) (Some data) = 1 ↔ well_formed data) ∧
  (UTF8_validate (len data) (Some data) = 0 ↔ ¬ well_formed data).
Proof.
  intros Hok. pose proof (UTF8_loop_fuel (S (length data)) data Hok (le_S _ _ (le_n _))) as Hl.
  unfold UTF8_validate. destruct data as [|d data].
  - rewrite <-Hl. cbn. split; [by split; eauto|]. split; [done|]. intros Hn. by destruct Hn; eauto.
  - replace (len (d :: data) =? 0) with false by (symmetry; apply Z.eqb_neq; simpl; lia).
    cbn [UTF8_loop] in Hl. rewrite <-Hl.
    destruct (UTF8_loop (length (d :: data)) _).
    + split; [by split; eauto|]. split; [done|]. intros Hn. by destruct Hn; eauto.
    + split; [|by split; [intros _ [? ?]|]]. split; [done|]. by intros [? ?].
Qed.

Lemma UTF8_validate_correct_witness :
  bytes_ok [0x41; 0xE2; 0x89; 0xA2] ∧
  (UTF8_validate (len [0x41; 0xE2; 0x89; 0xA2]) (Some [0x41; 0xE2; 0x89; 0xA2]) = 1
     ↔ well_formed [0x41; 0xE2; 0x89; 0xA2]).
Proof.
  assert (H : bytes_ok [0x41; 0xE2; 0x89; 0xA2]) by (repeat constructor; unfold is_byte; lia).
  split; [exact H|]. exact (proj1 (UTF8_validate_correct _ H)).
Defined.

End Utf8.
