(* ===== verification/PacketCodec.v ===== *)
(** * Primitive encodings of MQTT packets (paho.mqtt.c/src/MQTTPacket.c)

    The header byte, the variable byte integers, the two- and four-byte
    integers, the length-prefixed strings: writers as the bytes they append,
    readers as movements of the cursor [*pptr] over the packet buffer. *)
From S2P Require Import Prelude.

#[local] Ltac Zify.zify_post_hook ::= Z.to_euclidean_division_equations.

Module Codecs.

(** ** The header byte (union Header, little-endian bit fields) *)

Definition CONNECT := 1.
Definition CONNACK := 2.
Definition PUBLISH := 3.
Definition PUBACK := 4.
Definition PUBREC := 5.
Definition PUBREL := 6.
Definition PUBCOMP := 7.
Definition SUBSCRIBE := 8.
Definition SUBACK := 9.
Definition UNSUBSCRIBE := 10.
Definition UNSUBACK := 11.
Definition PINGREQ := 12.
Definition PINGRESP := 13.
Definition DISCONNECT := 14.
Definition AUTH := 15.

Definition MQTTVERSION_3_1 := 3.
Definition MQTTVERSION_3_1_1 := 4.
Definition MQTTVERSION_5 := 5.

Record Header := mkHeader { h_type : Z; h_dup : Z; h_qos : Z; h_retain : Z }.

#[export] Instance Header_eq_dec : EqDecision Header.
Proof. solve_decision. Defined.

(** Writing the bit fields truncates to their widths. *)
Definition header_byte (h : Header) : Z :=
  Z.shiftl (h_type h .& 15) 4 .| Z.shiftl (h_dup h .& 1) 3
  .| Z.shiftl (h_qos h .& 3) 1 .| (h_retain h .& 1).

Definition header_of_byte (b : Z) : Header :=
  mkHeader (Z.shiftr b 4 .& 15) (Z.shiftr b 3 .& 1) (Z.shiftr b 1 .& 3) (b .& 1).

Definition packet_names : list string :=
  [ "RESERVED"; "CONNECT"; "CONNACK"; "PUBLISH"; "PUBACK"; "PUBREC"; "PUBREL";
    "PUBCOMP"; "SUBSCRIBE"; "SUBACK"; "UNSUBSCRIBE"; "UNSUBACK";
    "PINGREQ"; "PINGRESP"; "DISCONNECT"; "AUTH" ]%string.

Definition MQTTPacket_name (ptype : Z) : string :=
  if (0 <=? ptype) && (ptype <=? AUTH)
  then default "UNKNOWN"%string (packet_names !! Z.to_nat ptype) else "UNKNOWN"%string.

(** ** Integers *)

(** [length] is a [size_t]: at most ten digits are produced. *)
Fixpoint encode_loop (fuel : nat) (length : Z) : list Z :=
  match fuel with
  | O => []
  | S fuel' =>
      let d := length mod 128 in
      let length' := length / 128 in
      if 0 <? length' then (d .| 0x80) :: encode_loop fuel' length' else [d]
  end.

Definition MQTTPacket_encode (length : Z) : list Z := encode_loop 10 length.

Definition MQTTPacket_VBIlen (rem_len : Z) : Z :=
  if rem_len <? 128 then 1
  else if rem_len <? 16384 then 2
  else if rem_len <? 2097152 then 3
  else 4.

(** [MAX_NO_OF_REMAINING_LENGTH_BYTES - len] bytes may still be read; [len]
    counts the turns, the rejected fifth one included.  Returns the number of
    turns and the [unsigned int] accumulated. *)
Definition MAX_NO_OF_REMAINING_LENGTH_BYTES : nat := 4.

Fixpoint VBI_loop (left : nat) (buf : list Z) (pos n multiplier value : Z) : option (Z * Z) :=
  match left with
  | O => Some (n + 1, value)
  | S left' =>
      match peek buf pos with
      | None => None
      | Some c =>
          let value' := u32 (value + (c .& 127) * multiplier) in
          if (c .& 128) =? 0 then Some (n + 1, value')
          else VBI_loop left' buf (pos + 1) (n + 1) (multiplier * 128) value'
      end
  end.

Definition MQTTPacket_decodeBuf (buf : list Z) (pos : Z) : option (Z * Z) :=
  VBI_loop MAX_NO_OF_REMAINING_LENGTH_BYTES buf pos 0 1 0.

(** [MQTTPacket_decodeBuf] at the cursor, which is then moved by its result. *)
Definition readVBI : reader (Z * Z) := λ buf pos,
  match MQTTPacket_decodeBuf buf pos with
  | Some (n, v) => Some ((n, v), pos + n)
  | None => None
  end.

Definition readChar : reader Z := λ buf pos,
  match peek buf pos with Some c => Some (c, pos + 1) | None => None end.

Definition readInt : reader Z := λ buf pos,
  match peek buf pos, peek buf (pos + 1) with
  | Some a, Some b => Some (256 * a + b, pos + 2)
  | _, _ => None
  end.

(** The sum is computed in [int]. *)
Definition readInt4 : reader Z := λ buf pos,
  match peek buf pos, peek buf (pos + 1), peek buf (pos + 2), peek buf (pos + 3) with
  | Some a, Some b, Some c, Some d =>
      Some (s32 (16777216 * a + 65536 * b + 256 * c + d), pos + 4)
  | _, _, _, _ => None
  end.

Definition writeChar (c : Z) : list Z := [u8 c].

(** C's division and remainder truncate towards zero. *)
Definition writeInt (anInt : Z) : list Z := [u8 (Z.quot anInt 256); u8 (Z.rem anInt 256)].

(** The parameter is an [int]: an [unsigned int] argument is converted. *)
Definition writeInt4 (anInt : Z) : list Z :=
  let n3 := s32 anInt in
  let n2 := Z.rem n3 16777216 in
  let n1 := Z.rem n2 65536 in
  [u8 (Z.quot n3 16777216); u8 (Z.quot n2 65536); u8 (Z.quot n1 256); u8 (Z.rem n1 256)].

(** ** Strings *)

Definition writeUTF (s : list Z) : list Z := writeInt (s32 (len s)) ++ s.
Definition writeData (data : list Z) (datalen : Z) : list Z :=
  writeInt datalen ++ take (Z.to_nat datalen) data.

(** [len] bytes from the cursor, as [memcpy] reads them. *)
Definition read_bytes (n : Z) : reader (list Z) := λ buf pos,
  if decide (0 ≤ pos ∧ pos + n ≤ len buf)
  then Some (take (Z.to_nat n) (drop (Z.to_nat pos) buf), pos + n) else None.

(** [None] as a value is the NULL result; the length is only set when the two
    length bytes could be read. *)
Definition readUTFlen (enddata : Z) : reader (option (list Z) * option Z) :=
  pos ← tell;
  if 1 <? enddata - pos then
    n ← readInt;
    pos' ← tell;
    if pos' + n <=? enddata then
      s ← read_bytes n; mret (Some s, Some n)
    else mret (None, Some n)
  else mret (None, None).

Definition readUTF (enddata : Z) : reader (option (list Z)) :=
  r ← readUTFlen enddata; mret (fst r).

Definition writeMQTTLenString (s : list Z) : list Z := writeInt (len s) ++ s.

(** The return value and the [MQTTLenString] filled: [None] for a field that
    was left as it was. *)
Definition MQTTLenStringRead (enddata : Z) : reader (Z * (option Z * option (list Z))) :=
  pos ← tell;
  if 1 <? enddata - pos then
    n ← readInt;
    pos' ← tell;
    if pos' + n <=? enddata then
      s ← read_bytes n; mret (2 + n, (Some n, Some s))
    else mret (0, (Some n, None))
  else mret (0, (None, None)).

(** ** Lemmas: the header *)

(** A property of every header byte is checked by evaluation. *)
Lemma header_roundtrip b : is_byte b → header_byte (header_of_byte b) = b.
Proof.
  intros Hb. apply Z.eqb_eq. apply (byte_forallb (λ b, header_byte (header_of_byte b) =? b));
    [|done]. by vm_compute.
Qed.

Definition header_ok (h : Header) : Prop :=
  0 ≤ h_type h < 16 ∧ 0 ≤ h_dup h < 2 ∧ 0 ≤ h_qos h < 4 ∧ 0 ≤ h_retain h < 2.

Lemma header_of_byte_ok b : is_byte b → header_ok (header_of_byte b).
Proof.
  unfold is_byte, header_ok, header_of_byte. simpl. intros.
  change 15 with (Z.ones 4). change 1 with (Z.ones 1). change 3 with (Z.ones 2).
  rewrite !Z.land_ones by lia. lia.
Qed.

Lemma header_byte_of h : header_ok h → header_of_byte (header_byte h) = h.
Proof.
  destruct h as [t d q r]. unfold header_ok. simpl. intros (Ht & Hd & Hq & Hr).
  pose (P := λ t d q r, bool_decide
    (header_of_byte (header_byte (mkHeader t d q r)) = mkHeader t d q r)).
  assert (H : forallb (λ t, forallb (λ d, forallb (λ q, forallb (P t d q) (seqZ 0 2))
    (seqZ 0 4)) (seqZ 0 2)) (seqZ 0 16) = true) by (by vm_compute).
  pose proof (seqZ_forallb _ _ H t Ht) as H1. pose proof (seqZ_forallb _ _ H1 d Hd) as H2.
  pose proof (seqZ_forallb _ _ H2 q Hq) as H3. pose proof (seqZ_forallb _ _ H3 r Hr) as H4.
  exact (bool_decide_eq_true_1 _ H4).
Qed.

(** ** Lemmas: variable byte integers *)

Lemma digit_more d : 0 ≤ d < 128 →
  is_byte (d .| 0x80) ∧ (d .| 0x80) .& 127 = d ∧ ((d .| 0x80) .& 128 =? 0) = false.
Proof.
  intros Hd.
  assert (H : forallb (λ d, bool_decide (is_byte (d .| 0x80) ∧ (d .| 0x80) .& 127 = d ∧
    ((d .| 0x80) .& 128 =? 0) = false)) (seqZ 0 128) = true) by (by vm_compute).
  exact (bool_decide_eq_true_1 _ (seqZ_forallb _ _ H d Hd)).
Qed.

Lemma digit_last d : 0 ≤ d < 128 → d .& 127 = d ∧ (d .& 128 =? 0) = true.
Proof.
  intros Hd.
  assert (H : forallb (λ d, bool_decide (d .& 127 = d ∧ (d .& 128 =? 0) = true))
    (seqZ 0 128) = true) by (by vm_compute).
  exact (bool_decide_eq_true_1 _ (seqZ_forallb _ _ H d Hd)).
Qed.

Lemma encode_loop_bytes fuel n : 0 ≤ n → bytes_ok (encode_loop fuel n).
Proof.
  revert n. induction fuel as [|fuel IH]; intros n Hn; cbn [encode_loop]; [constructor|].
  case_leb; constructor; [|apply IH; lia| |constructor].
  - apply digit_more. lia.
  - unfold is_byte. lia.
Qed.

(** The decoder inverts the encoder when at most [left] digits are needed. *)
Lemma VBI_loop_encode left : ∀ fuel n pre post cnt mult value,
  (left ≤ fuel)%nat → 0 ≤ n < 128 ^ Z.of_nat left → 0 ≤ value → 0 < mult →
  value + n * mult < 2 ^ 32 → (0 < left)%nat →
  VBI_loop left (pre ++ encode_loop fuel n ++ post) (len pre) cnt mult value =
    Some (cnt + len (encode_loop fuel n), value + n * mult).
Proof.
  induction left as [|left IH]; intros fuel n pre post cnt mult value Hf Hn Hv Hm Hb Hl; [lia|].
  destruct fuel as [|fuel]; [lia|]. cbn [VBI_loop encode_loop].
  assert (Hdm : n = 128 * (n / 128) + n mod 128) by (apply Z.div_mod; lia).
  assert (Hd : 0 ≤ n mod 128 < 128) by lia.
  assert (Hsum : n mod 128 * mult + n / 128 * (mult * 128) = n * mult) by (rewrite Hdm at 3; ring).
  destruct (Z.ltb_spec 0 (n / 128)) as [Hq|Hq].
  - destruct (digit_more (n mod 128) Hd) as (_ & Hland & Hbit).
    cbn [app]. rewrite peek_app, Hland, Hbit.
    assert (0 ≤ n mod 128 * mult ∧ 0 ≤ n / 128 * (mult * 128)) by (split; apply Z.mul_nonneg_nonneg; lia).
    rewrite u32_small by (unfold is_u32; lia).
    assert (Hl' : (0 < left)%nat).
    { destruct left; [|lia]. simpl in Hn. lia. }
    assert (n / 128 < 128 ^ Z.of_nat left).
    { rewrite Nat2Z.inj_succ, Z.pow_succ_r in Hn by lia. apply Z.div_lt_upper_bound; lia. }
    specialize (IH fuel (n / 128) (pre ++ [n mod 128 .| 0x80]) post (cnt + 1) (mult * 128)
      (value + n mod 128 * mult)).
    rewrite <-app_assoc in IH. cbn [app] in IH.
    replace (len (pre ++ [n mod 128 .| 0x80])) with (len pre + 1) in IH by lens.
    rewrite IH by lia. apply (f_equal Some), pair_eq. split; [cbn [length]; lia|lia].
  - destruct (digit_last (n mod 128) Hd) as (Hland & Hbit).
    cbn [app]. rewrite peek_app, Hland, Hbit.
    assert (n / 128 = 0) as Hz by lia. rewrite Hz in *.
    assert (0 ≤ n mod 128 * mult) by (apply Z.mul_nonneg_nonneg; lia).
    rewrite u32_small by (unfold is_u32; lia). apply (f_equal Some), pair_eq. split; [simpl; lia|lia].
Qed.

Lemma decodeBuf_encode n pre post : 0 ≤ n < 2 ^ 28 →
  MQTTPacket_decodeBuf (pre ++ MQTTPacket_encode n ++ post) (len pre) =
    Some (len (MQTTPacket_encode n), n).
Proof.
  intros Hn. unfold MQTTPacket_decodeBuf, MQTTPacket_encode, MAX_NO_OF_REMAINING_LENGTH_BYTES.
  rewrite VBI_loop_encode; simpl in *; try lia. repeat f_equal; lia.
Qed.

Lemma encode_len n : 0 ≤ n < 2 ^ 28 → len (MQTTPacket_encode n) = MQTTPacket_VBIlen n.
Proof.
  intros Hn. unfold MQTTPacket_encode, MQTTPacket_VBIlen. cbn [encode_loop].
  case_leb; cbn [length]; lia.
Qed.

(** The decoder on any bytes: between one and five turns, never a byte beyond
    the fourth, a value below 2^28. *)
Lemma VBI_loop_bounds left : ∀ buf pos n mult value,
  bytes_ok buf → 0 ≤ pos → pos + Z.of_nat left ≤ len buf → 0 ≤ value →
  0 < mult → value < mult → mult * 128 ^ Z.of_nat left ≤ 2 ^ 28 →
  ∃ k v, VBI_loop left buf pos n mult value = Some (n + k, v) ∧
    1 ≤ k ≤ Z.of_nat left + 1 ∧ 0 ≤ v < 2 ^ 28.
Proof.
  induction left as [|left IH]; intros buf pos n mult value Hok Hp Hlen Hv Hm Hlt Hmax;
    cbn [VBI_loop].
  - exists 1, value. split; [done|]. simpl in Hmax. lia.
  - destruct (peek_is_Some buf pos) as [c Hc]; [lia|]. rewrite Hc.
    assert (Hland : 0 ≤ c .& 127 < 128).
    { change 127 with (Z.ones 7). rewrite Z.land_ones by lia. lia. }
    rewrite Nat2Z.inj_succ, Z.pow_succ_r in Hmax by lia.
    assert (1 ≤ 128 ^ Z.of_nat left) by (pose proof (Z.pow_pos_nonneg 128 (Z.of_nat left)); lia).
    assert (0 ≤ (c .& 127) * mult ≤ 127 * mult) by nia. assert (mult * 128 ≤ 2 ^ 28) by nia.
    rewrite u32_small by (unfold is_u32; lia).
    destruct (_ =? 0).
    + eexists 1, _. split; [done|]. lia.
    + destruct (IH buf (pos + 1) (n + 1) (mult * 128) (value + (c .& 127) * mult))
        as (k & v & -> & Hk & Hv'); try done; try lia.
      exists (k + 1), v. split; [f_equal; f_equal; lia|lia].
Qed.

(** ** Lemmas: integers *)

Lemma peek_app2 pre a b post : peek (pre ++ a :: b :: post) (len pre + 1) = Some b.
Proof.
  rewrite (cons_middle a pre (b :: post)), (app_assoc pre [a]). apply peek_app_at. lens.
Qed.

Lemma peek_app3 pre a b c post : peek (pre ++ a :: b :: c :: post) (len pre + 2) = Some c.
Proof.
  change (a :: b :: c :: post) with ([a; b] ++ c :: post). rewrite app_assoc.
  apply peek_app_at. lens.
Qed.

Lemma peek_app4 pre a b c d post : peek (pre ++ a :: b :: c :: d :: post) (len pre + 3) = Some d.
Proof.
  change (a :: b :: c :: d :: post) with ([a; b; c] ++ d :: post). rewrite app_assoc.
  apply peek_app_at. lens.
Qed.

Lemma readInt_bytes pre a b post :
  readInt (pre ++ a :: b :: post) (len pre) = Some (256 * a + b, len pre + 2).
Proof. unfold readInt. by rewrite peek_app, peek_app2. Qed.

Lemma readInt4_bytes pre a b c d post :
  readInt4 (pre ++ a :: b :: c :: d :: post) (len pre) =
    Some (s32 (16777216 * a + 65536 * b + 256 * c + d), len pre + 4).
Proof. unfold readInt4. by rewrite peek_app, peek_app2, peek_app3, peek_app4. Qed.

Lemma writeInt_u16 n : is_u16 n → writeInt n = [n / 256; n mod 256].
Proof.
  unfold is_u16, writeInt, u8. intros. rewrite Z.quot_div_nonneg, Z.rem_mod_nonneg by lia.
  f_equal; [|f_equal]; apply Z.mod_small; lia.
Qed.

Lemma writeInt4_small n : 0 ≤ n < 2 ^ 31 →
  writeInt4 n = [n / 16777216; n / 65536 mod 256; n / 256 mod 256; n mod 256].
Proof.
  intros. unfold writeInt4, u8. rewrite (s32_small n) by lia.
  rewrite !Z.rem_mod_nonneg by lia. rewrite !Z.quot_div_nonneg by lia.
  repeat (apply (f_equal2 cons); [lia|]). done.
Qed.

Lemma writeInt_len n : len (writeInt n) = 2.
Proof. done. Qed.
Lemma writeInt4_len n : len (writeInt4 n) = 4.
Proof. done. Qed.
#[export] Hint Rewrite writeInt_len writeInt4_len : lens.

Lemma read_bytes_at pre s post :
  read_bytes (len s) (pre ++ s ++ post) (len pre) = Some (s, len pre + len s).
Proof.
  unfold read_bytes. rewrite decide_True by lens. rewrite !Nat2Z.id, drop_app_length.
  by rewrite take_app_length.
Qed.

(** ** Codec instances *)

#[export] Instance char_codec : Codec writeChar (λ _, readChar) is_byte.
Proof.
  intros a pre post e Ha _. unfold writeChar, readChar. rewrite u8_small by done.
  cbn [app]. by rewrite peek_app.
Qed.

#[export] Instance int_codec : Codec writeInt (λ _, readInt) is_u16.
Proof.
  intros a pre post e Ha _. rewrite writeInt_u16 by done. cbn [app].
  rewrite readInt_bytes. apply (f_equal Some), pair_eq. split; [lia|done].
Qed.

#[export] Instance int4_codec : Codec writeInt4 (λ _, readInt4) (λ n, 0 ≤ n < 2 ^ 31).
Proof.
  intros a pre post e Ha _. rewrite writeInt4_small by done. cbn [app].
  rewrite readInt4_bytes. apply (f_equal Some), pair_eq. split; [|done].
  rewrite s32_small; lia.
Qed.

Definition readVBI_value : reader Z := r ← readVBI; mret (snd r).

#[export] Instance VBI_codec : Codec MQTTPacket_encode (λ _, readVBI_value) (λ n, 0 ≤ n < 2 ^ 28).
Proof.
  intros a pre post e Ha _. unfold readVBI_value, mbind, reader_bind, readVBI.
  by rewrite decodeBuf_encode.
Qed.

Definition short_bytes (s : list Z) : Prop := len s < 65536.

Lemma LenString_read s pre post e : short_bytes s → len pre + len (writeMQTTLenString s) ≤ e →
  MQTTLenStringRead e (pre ++ writeMQTTLenString s ++ post) (len pre) =
    Some ((2 + len s, (Some (len s), Some s)), len pre + len (writeMQTTLenString s)).
Proof.
  unfold short_bytes, writeMQTTLenString. intros Hs He.
  rewrite length_app, Nat2Z.inj_add, writeInt_len in *.
  unfold MQTTLenStringRead, mbind, reader_bind, tell.
  rewrite (proj2 (Z.ltb_lt 1 _)) by lia. rewrite <-app_assoc.
  rewrite (int_codec (len s) pre (s ++ post) e) by (unfold is_u16; lens).
  rewrite writeInt_len. rewrite (proj2 (Z.leb_le _ _)) by lia.
  rewrite app_assoc.
  replace (len pre + 2) with (len (pre ++ writeInt (len s))) at 1 by lens.
  rewrite read_bytes_at. apply (f_equal Some), pair_eq. split; [done|lens].
Qed.

Lemma UTF_read s pre post e : short_bytes s → len pre + len (writeUTF s) ≤ e →
  readUTFlen e (pre ++ writeUTF s ++ post) (len pre) =
    Some ((Some s, Some (len s)), len pre + len (writeUTF s)).
Proof.
  unfold short_bytes, writeUTF. intros Hs He. rewrite s32_small in * by lia.
  rewrite length_app, Nat2Z.inj_add, writeInt_len in *.
  unfold readUTFlen, mbind, reader_bind, tell.
  rewrite (proj2 (Z.ltb_lt 1 _)) by lia. rewrite <-app_assoc.
  rewrite (int_codec (len s) pre (s ++ post) e) by (unfold is_u16; lens).
  rewrite writeInt_len. rewrite (proj2 (Z.leb_le _ _)) by lia.
  rewrite app_assoc.
  replace (len pre + 2) with (len (pre ++ writeInt (len s))) at 1 by lens.
  rewrite read_bytes_at. apply (f_equal Some), pair_eq. split; [done|lens].
Qed.

Lemma u8_opp x : 0 ≤ x < 256 → u8 (- x) = if x =? 0 then 0 else 256 - x.
Proof. unfold u8. intros. case_leb. Qed.

(** The bytes that [writeInt4] produces when its [int] parameter is negative:
    each of them is truncated towards zero on its own. *)
Lemma writeInt4_negative m : 0 < m ≤ 2 ^ 31 →
  writeInt4 (2 ^ 32 - m) =
    [u8 (- (m / 16777216)); u8 (- (m mod 16777216 / 65536));
     u8 (- (m mod 65536 / 256)); u8 (- (m mod 256))].
Proof.
  intros Hm. unfold writeInt4. cbv zeta. replace (s32 (2 ^ 32 - m)) with (- m) by (unfold s32; lia).
  rewrite !Z.rem_opp_l', !Z.quot_opp_l by lia.
  rewrite !Z.rem_mod_nonneg by lia. rewrite !Z.quot_div_nonneg by lia.
  repeat (apply (f_equal2 cons); [lia || (f_equal; lia)|]). done.
Qed.

(** ** Properties *)

(** C20: round trip of the variable byte integers: every length below 2^28 is
    encoded in [MQTTPacket_VBIlen] bytes, and decoding them at any place of any
    buffer gives the length back and moves the cursor by exactly the bytes
    written. *)
Theorem VBI_roundtrip n pre post : 0 ≤ n < 2 ^ 28 →
  readVBI (pre ++ MQTTPacket_encode n ++ post) (len pre) =
    Some ((MQTTPacket_VBIlen n, n), len pre + len (MQTTPacket_encode n)) ∧
  len (MQTTPacket_encode n) = MQTTPacket_VBIlen n ∧ bytes_ok (MQTTPacket_encode n).
Proof.
  intros Hn. unfold readVBI. rewrite decodeBuf_encode by done.
  rewrite encode_len by done. split; [done|]. split; [done|]. apply encode_loop_bytes. lia.
Qed.

Lemma VBI_roundtrip_witness :
  0 ≤ 16384 < 2 ^ 28 ∧ len (MQTTPacket_encode 16384) = 3.
Proof. split; [lia|]. exact (proj1 (proj2 (VBI_roundtrip 16384 [] [] ltac:(lia)))). Defined.

(** On any bytes the decoder stops after at most four bytes: it makes between
    one and five turns (five reports a malformed length without reading a
    fifth byte) and accumulates a value below 2^28, so no [int] overflows. *)
Theorem decodeBuf_bounds buf pos : bytes_ok buf → 0 ≤ pos → pos + 4 ≤ len buf →
  ∃ n v, MQTTPacket_decodeBuf buf pos = Some (n, v) ∧ 1 ≤ n ≤ 5 ∧ 0 ≤ v < 2 ^ 28.
Proof.
  intros Hok Hp Hl. unfold MQTTPacket_decodeBuf, MAX_NO_OF_REMAINING_LENGTH_BYTES.
  destruct (VBI_loop_bounds 4 buf pos 0 1 0) as (k & v & -> & ? & ?); try done; try lia.
  exists k, v. split; [done|]. simpl in *. lia.
Qed.

Lemma decodeBuf_bounds_witness :
  bytes_ok [0xFF; 0xFF; 0xFF; 0xFF; 0x7F] ∧
  ∃ n v, MQTTPacket_decodeBuf [0xFF; 0xFF; 0xFF; 0xFF; 0x7F] 0 = Some (n, v) ∧
    1 ≤ n ≤ 5 ∧ 0 ≤ v < 2 ^ 28.
Proof.
  assert (H : bytes_ok [0xFF; 0xFF; 0xFF; 0xFF; 0x7F]) by (repeat constructor; unfold is_byte; lia).
  split; [exact H|]. apply decodeBuf_bounds; [exact H|lia|simpl; lia].
Defined.

(** The four-byte integers read back what was written exactly when the value
    is below 2^31 or its three low bytes are zero: [writeInt4] takes an [int]
    and divides it with truncation, so 0xFFFFFFFF is sent as 0x000000FF. *)
Theorem writeInt4_roundtrip_iff n pre post : is_u32 n →
  ∃ m, readInt4 (pre ++ writeInt4 n ++ post) (len pre) = Some (m, len pre + 4) ∧
    (u32 m = n ↔ n < 2 ^ 31 ∨ n mod 2 ^ 24 = 0).
Proof.
  unfold is_u32. intros Hn. destruct (decide (n < 2 ^ 31)) as [Hlt|Hge].
  - exists n. split; [|split; [tauto|]; intros _; apply u32_small; done].
    pose proof (int4_codec n pre post (len pre + 4)) as H. rewrite writeInt4_len in H.
    apply H; lia.
  - pose (m := 2 ^ 32 - n). replace n with (2 ^ 32 - m) by lia.
    assert (Hm : 0 < m ≤ 2 ^ 31) by lia. clearbody m. clear n Hn Hge.
    rewrite writeInt4_negative by done. cbn [app].
    eexists. rewrite readInt4_bytes. split; [done|].
    assert (Hs : ∀ x, u32 (s32 x) = u32 x) by (intros; unfold u32, s32; lia). rewrite Hs.
    assert (Ha : 0 ≤ m / 16777216 < 256) by lia.
    assert (Hb : 0 ≤ m mod 16777216 / 65536 < 256) by lia.
    assert (Hc : 0 ≤ m mod 65536 / 256 < 256) by lia.
    assert (Hd : 0 ≤ m mod 256 < 256) by lia.
    rewrite !u8_opp by done.
    assert (Hdec : m = 16777216 * (m / 16777216) + 65536 * (m mod 16777216 / 65536)
      + 256 * (m mod 65536 / 256) + m mod 256) by lia.
    revert Ha Hb Hc Hd Hdec.
    generalize (m / 16777216) (m mod 16777216 / 65536) (m mod 65536 / 256) (m mod 256).
    intros a b c d Ha Hb Hc Hd ->. unfold u32. case_leb.
Qed.

Lemma writeInt4_roundtrip_iff_witness :
  is_u32 0xFFFFFFFF ∧
  ∃ m, readInt4 (writeInt4 0xFFFFFFFF ++ []) 0 = Some (m, 4) ∧
    (u32 m = 0xFFFFFFFF ↔ 0xFFFFFFFF < 2 ^ 31 ∨ 0xFFFFFFFF mod 2 ^ 24 = 0).
Proof.
  assert (H : is_u32 0xFFFFFFFF) by (unfold is_u32; lia).
  split; [exact H|]. exact (writeInt4_roundtrip_iff 0xFFFFFFFF [] [] H).
Defined.

(** The value of the session expiry interval that means 'never' is sent as 255. *)
Example writeInt4_never : writeInt4 0xFFFFFFFF = [0; 0; 0; 255].
Proof. by vm_compute. Qed.

End Codecs.
