(* ===== verification/Props.v ===== *)
(** * MQTT 5 properties (paho.mqtt.c/src/MQTTProperties.c)

    The property list, its construction, serialization, parsing and queries.
    The union of a property is an inductive type: a read of another member
    than the one written is not modelled ([None]). *)
From S2P Require Import Prelude PacketCodec.

#[local] Ltac Zify.zify_post_hook ::= Z.to_euclidean_division_equations.

Module Properties.
Import Codecs.

(** ** Data *)

Inductive MQTTPropertyTypes :=
  | TYPE_BYTE
  | TYPE_TWO_BYTE_INTEGER
  | TYPE_FOUR_BYTE_INTEGER
  | TYPE_VARIABLE_BYTE_INTEGER
  | TYPE_BINARY_DATA
  | TYPE_UTF_8_ENCODED_STRING
  | TYPE_UTF_8_STRING_PAIR.

#[export] Instance MQTTPropertyTypes_eq_dec : EqDecision MQTTPropertyTypes.
Proof. solve_decision. Defined.

Definition namesToTypes : list (Z * MQTTPropertyTypes) :=
  [ (1, TYPE_BYTE);                       (* PAYLOAD_FORMAT_INDICATOR *)
    (2, TYPE_FOUR_BYTE_INTEGER);          (* MESSAGE_EXPIRY_INTERVAL *)
    (3, TYPE_UTF_8_ENCODED_STRING);       (* CONTENT_TYPE *)
    (8, TYPE_UTF_8_ENCODED_STRING);       (* RESPONSE_TOPIC *)
    (9, TYPE_BINARY_DATA);                (* CORRELATION_DATA *)
    (11, TYPE_VARIABLE_BYTE_INTEGER);     (* SUBSCRIPTION_IDENTIFIER *)
    (17, TYPE_FOUR_BYTE_INTEGER);         (* SESSION_EXPIRY_INTERVAL *)
    (18, TYPE_UTF_8_ENCODED_STRING);      (* ASSIGNED_CLIENT_IDENTIFER *)
    (19, TYPE_TWO_BYTE_INTEGER);          (* SERVER_KEEP_ALIVE *)
    (21, TYPE_UTF_8_ENCODED_STRING);      (* AUTHENTICATION_METHOD *)
    (22, TYPE_BINARY_DATA);               (* AUTHENTICATION_DATA *)
    (23, TYPE_BYTE);                      (* REQUEST_PROBLEM_INFORMATION *)
    (24, TYPE_FOUR_BYTE_INTEGER);         (* WILL_DELAY_INTERVAL *)
    (25, TYPE_BYTE);                      (* REQUEST_RESPONSE_INFORMATION *)
    (26, TYPE_UTF_8_ENCODED_STRING);      (* RESPONSE_INFORMATION *)
    (28, TYPE_UTF_8_ENCODED_STRING);      (* SERVER_REFERENCE *)
    (31, TYPE_UTF_8_ENCODED_STRING);      (* REASON_STRING *)
    (33, TYPE_TWO_BYTE_INTEGER);          (* RECEIVE_MAXIMUM *)
    (34, TYPE_TWO_BYTE_INTEGER);          (* TOPIC_ALIAS_MAXIMUM *)
    (35, TYPE_TWO_BYTE_INTEGER);          (* TOPIC_ALIAS *)
    (36, TYPE_BYTE);                      (* MAXIMUM_QOS *)
    (37, TYPE_BYTE);                      (* RETAIN_AVAILABLE *)
    (38, TYPE_UTF_8_STRING_PAIR);         (* USER_PROPERTY *)
    (39, TYPE_FOUR_BYTE_INTEGER);         (* MAXIMUM_PACKET_SIZE *)
    (40, TYPE_BYTE);                      (* WILDCARD_SUBSCRIPTION_AVAILABLE *)
    (41, TYPE_BYTE);                      (* SUBSCRIPTION_IDENTIFIERS_AVAILABLE *)
    (42, TYPE_BYTE) ].                    (* SHARED_SUBSCRIPTION_AVAILABLE *)

Definition nameToString : list (Z * string) :=
  [ (1, "PAYLOAD_FORMAT_INDICATOR"); (2, "MESSAGE_EXPIRY_INTERVAL"); (3, "CONTENT_TYPE");
    (8, "RESPONSE_TOPIC"); (9, "CORRELATION_DATA"); (11, "SUBSCRIPTION_IDENTIFIER");
    (17, "SESSION_EXPIRY_INTERVAL"); (18, "ASSIGNED_CLIENT_IDENTIFER");
    (19, "SERVER_KEEP_ALIVE"); (21, "AUTHENTICATION_METHOD"); (22, "AUTHENTICATION_DATA");
    (23, "REQUEST_PROBLEM_INFORMATION"); (24, "WILL_DELAY_INTERVAL");
    (25, "REQUEST_RESPONSE_INFORMATION"); (26, "RESPONSE_INFORMATION");
    (28, "SERVER_REFERENCE"); (31, "REASON_STRING"); (33, "RECEIVE_MAXIMUM");
    (34, "TOPIC_ALIAS_MAXIMUM"); (35, "TOPIC_ALIAS"); (36, "MAXIMUM_QOS");
    (37, "RETAIN_AVAILABLE"); (38, "USER_PROPERTY"); (39, "MAXIMUM_PACKET_SIZE");
    (40, "WILDCARD_SUBSCRIPTION_AVAILABLE"); (41, "SUBSCRIPTION_IDENTIFIERS_AVAILABLE");
    (42, "SHARED_SUBSCRIPTION_AVAILABLE") ]%string.

(** The value union; [VUninit] is memory that was never written. *)
Inductive prop_value :=
  | VByte (byte : Z)
  | VInt2 (integer2 : Z)
  | VInt4 (integer4 : Z)
  | VData (data : list Z)
  | VPair (data value : list Z)
  | VUninit.

Record MQTTProperty := mkProp { identifier : Z; pvalue : prop_value }.

(** [count] is the length of [array]; [allocated] is [array != NULL]. *)
Record MQTTProperties := mkProps {
  array : list MQTTProperty;
  max_count : Z;
  length_ : Z;
  allocated : bool
}.

Definition count (ps : MQTTProperties) : Z := len (array ps).
Definition MQTTProperties_initializer : MQTTProperties := mkProps [] 0 0 false.

#[export] Instance prop_value_eq_dec : EqDecision prop_value.
Proof. solve_decision. Defined.
#[export] Instance MQTTProperty_eq_dec : EqDecision MQTTProperty.
Proof. solve_decision. Defined.
#[export] Instance MQTTProperties_eq_dec : EqDecision MQTTProperties.
Proof. solve_decision. Defined.

Definition MQTT_INVALID_PROPERTY_ID := -2.
Definition PAHO_MEMORY_ERROR := -99.

(** ** Operations *)

Fixpoint assoc_find {A} (k : Z) (l : list (Z * A)) : option A :=
  match l with
  | [] => None
  | (k', a) :: l' => if k' =? k then Some a else assoc_find k l'
  end.

(** [None] is the result -1. *)
Definition MQTTProperty_getType (value : Z) : option MQTTPropertyTypes :=
  assoc_find value namesToTypes.

Definition MQTTPropertyName (value : Z) : option string := assoc_find value nameToString.

Definition MQTTProperties_len (props : option MQTTProperties) : Z :=
  match props with
  | None => 1
  | Some ps => length_ ps + MQTTPacket_VBIlen (length_ ps)
  end.

(** The length computed by [MQTTProperties_add] for a value of each type; an
    [unsigned int] is passed to the [int] parameter of [MQTTPacket_VBIlen]. *)
Definition value_len (type : MQTTPropertyTypes) (v : prop_value) : option Z :=
  match type, v with
  | TYPE_BYTE, _ => Some 1
  | TYPE_TWO_BYTE_INTEGER, _ => Some 2
  | TYPE_FOUR_BYTE_INTEGER, _ => Some 4
  | TYPE_VARIABLE_BYTE_INTEGER, VInt4 n => Some (MQTTPacket_VBIlen (s32 n))
  | TYPE_BINARY_DATA, VData d | TYPE_UTF_8_ENCODED_STRING, VData d => Some (2 + len d)
  | TYPE_UTF_8_STRING_PAIR, VPair d v => Some (2 + len d + (2 + len v))
  | _, _ => None
  end.

(** The array after the growth step of [MQTTProperties_add]; [mem] is whether
    the allocation, when there is one, succeeds. *)
Definition grow_array (mem : bool) (ps : MQTTProperties) : MQTTProperties :=
  if negb (allocated ps) then mkProps (array ps) 10 (length_ ps) mem
  else if count ps =? max_count ps then
    mkProps (array ps) (max_count ps + 10) (length_ ps) mem
  else ps.

Definition MQTTProperties_add (mem : bool) (ps : MQTTProperties) (prop : MQTTProperty)
    : option (Z * MQTTProperties) :=
  match MQTTProperty_getType (identifier prop) with
  | None => Some (MQTT_INVALID_PROPERTY_ID, ps)
  | Some type =>
      let ps' := grow_array mem ps in
      if allocated ps' then
        n ← value_len type (pvalue prop);
        Some (0, mkProps (array ps' ++ [prop]) (max_count ps') (length_ ps' + (n + 1)) true)
      else Some (PAHO_MEMORY_ERROR, ps')
  end.

(** The switch of [MQTTProperty_write]: the bytes appended and [rc]. *)
Definition write_value (type : MQTTPropertyTypes) (v : prop_value) : option (list Z * Z) :=
  match type, v with
  | TYPE_BYTE, VByte b => Some (writeChar b, 1)
  | TYPE_TWO_BYTE_INTEGER, VInt2 n => Some (writeInt n, 2)
  | TYPE_FOUR_BYTE_INTEGER, VInt4 n => Some (writeInt4 n, 4)
  | TYPE_VARIABLE_BYTE_INTEGER, VInt4 n =>
      Some (MQTTPacket_encode n, len (MQTTPacket_encode n))
  | TYPE_BINARY_DATA, VData d | TYPE_UTF_8_ENCODED_STRING, VData d =>
      Some (writeMQTTLenString d, len d + 2)
  | TYPE_UTF_8_STRING_PAIR, VPair d v =>
      Some (writeMQTTLenString d ++ writeMQTTLenString v, len d + len v + 4)
  | _, _ => None
  end.

Definition MQTTProperty_write (prop : MQTTProperty) : option (list Z * Z) :=
  match MQTTProperty_getType (identifier prop) with
  | None => Some ([], -1 + 1)
  | Some type =>
      '(body, rc) ← write_value type (pvalue prop);
      Some (writeChar (identifier prop) ++ body, rc + 1)
  end.

Fixpoint write_loop (props : list MQTTProperty) (n : Z) : option (list Z * Z) :=
  match props with
  | [] => Some ([], n)
  | p :: props' =>
      '(b, rc) ← MQTTProperty_write p;
      if rc <? 0 then Some (b, rc)
      else '(b', n') ← write_loop props' (n + rc); Some (b ++ b', n')
  end.

Definition MQTTProperties_write (props : option MQTTProperties) : option (list Z * Z) :=
  match props with
  | None => Some (MQTTPacket_encode 0, 1)
  | Some ps =>
      '(b, rc) ← write_loop (array ps) 1;
      Some (MQTTPacket_encode (length_ ps) ++ b, rc)
  end.

(** [datadup] of a length-prefixed string that was not read copies from an
    uninitialized pointer. *)
Definition datadup (r : option Z * option (list Z)) : reader (list Z) :=
  match snd r with
  | Some d => mret d
  | None => fault
  end.

(** The switch of [MQTTProperty_read]: the value and [len]. *)
Definition read_value (type : MQTTPropertyTypes) (enddata : Z) : reader (prop_value * Z) :=
  match type with
  | TYPE_BYTE => b ← readChar; mret (VByte b, 1)
  | TYPE_TWO_BYTE_INTEGER => n ← readInt; mret (VInt2 n, 2)
  | TYPE_FOUR_BYTE_INTEGER => n ← readInt4; mret (VInt4 (u32 n), 4)
  | TYPE_VARIABLE_BYTE_INTEGER => '(k, n) ← readVBI; mret (VInt4 n, k)
  | TYPE_BINARY_DATA | TYPE_UTF_8_ENCODED_STRING =>
      '(k, r) ← MQTTLenStringRead enddata;
      d ← datadup r; mret (VData d, k)
  | TYPE_UTF_8_STRING_PAIR =>
      '(k, r) ← MQTTLenStringRead enddata;
      d ← datadup r;
      '(k', r') ← MQTTLenStringRead enddata;
      v ← datadup r'; mret (VPair d v, k + k')
  end.

Definition MQTTProperty_read (enddata : Z) : reader (MQTTProperty * Z) :=
  id ← readChar;
  '(v, n) ← match MQTTProperty_getType id with
            | None => mret (VUninit, 0)
            | Some type => read_value type enddata
            end;
  mret (mkProp id v, n + 1).

(** The while loop; [remlength] is an [unsigned int].  Every turn reads at least
    one byte, so the buffer's length bounds the turns ([read_loop_fuel]). *)
Fixpoint read_loop (fuel : nat) (enddata remlength : Z) (ps : MQTTProperties)
    : reader MQTTProperties :=
  match fuel with
  | O => fault
  | S fuel' =>
      if 0 <? remlength then
        let ps' := if count ps =? max_count ps
                   then mkProps (array ps) (max_count ps + 10) (length_ ps) true else ps in
        '(p, k) ← MQTTProperty_read enddata;
        read_loop fuel' enddata (u32 (remlength - k))
          (mkProps (array ps' ++ [p]) (max_count ps') (length_ ps') (allocated ps'))
      else mret ps
  end.

Definition buffer_length : reader Z := λ buf pos, Some (len buf, pos).

Definition MQTTProperties_read (ps : MQTTProperties) (enddata : Z) : reader (Z * MQTTProperties) :=
  pos ← tell;
  if 0 <? enddata - pos then
    '(_, remlength) ← readVBI;
    n ← buffer_length;
    ps' ← read_loop (S (S (Z.to_nat n))) enddata remlength
            (mkProps (array ps) (max_count ps) (s32 remlength) (allocated ps));
    mret (1, ps')
  else
    mret (0, if allocated ps then mkProps [] 0 (length_ ps) false else ps).

Definition MQTTProperties_free (ps : MQTTProperties) : MQTTProperties := mkProps [] 0 0 false.

Fixpoint copy_loop (mem : bool) (props : list MQTTProperty) (result : MQTTProperties)
    : option MQTTProperties :=
  match props with
  | [] => Some result
  | p :: props' => '(_, result') ← MQTTProperties_add mem result p; copy_loop mem props' result'
  end.

Definition MQTTProperties_copy (mem : bool) (ps : MQTTProperties) : option MQTTProperties :=
  copy_loop mem (array ps) MQTTProperties_initializer.

Definition MQTTProperties_hasProperty (ps : MQTTProperties) (propid : Z) : Z :=
  if existsb (λ p, propid =? identifier p) (array ps) then 1 else 0.

Fixpoint count_loop (props : list MQTTProperty) (propid n : Z) : Z :=
  match props with
  | [] => n
  | p :: props' => count_loop props' propid (if propid =? identifier p then n + 1 else n)
  end.

Definition MQTTProperties_propertyCount (ps : MQTTProperties) (propid : Z) : Z :=
  count_loop (array ps) propid 0.

Definition numeric_value (p : MQTTProperty) : option Z :=
  match MQTTProperty_getType (identifier p), pvalue p with
  | Some TYPE_BYTE, VByte b => Some b
  | Some TYPE_TWO_BYTE_INTEGER, VInt2 n => Some n
  | Some TYPE_FOUR_BYTE_INTEGER, VInt4 n | Some TYPE_VARIABLE_BYTE_INTEGER, VInt4 n =>
      Some (s32 n)
  | Some (TYPE_BYTE | TYPE_TWO_BYTE_INTEGER | TYPE_FOUR_BYTE_INTEGER
         | TYPE_VARIABLE_BYTE_INTEGER), _ => None
  | _, _ => Some (-999999)
  end.

Fixpoint numeric_loop (props : list MQTTProperty) (propid index cur_index : Z) : option Z :=
  match props with
  | [] => Some (-9999999)
  | p :: props' =>
      if identifier p =? propid then
        if cur_index <? index then numeric_loop props' propid index (cur_index + 1)
        else numeric_value p
      else numeric_loop props' propid index cur_index
  end.

Definition MQTTProperties_getNumericValueAt (ps : MQTTProperties) (propid index : Z) : option Z :=
  numeric_loop (array ps) propid index 0.
Definition MQTTProperties_getNumericValue (ps : MQTTProperties) (propid : Z) : option Z :=
  MQTTProperties_getNumericValueAt ps propid 0.

Fixpoint property_loop (props : list MQTTProperty) (propid index cur_index : Z)
    : option MQTTProperty :=
  match props with
  | [] => None
  | p :: props' =>
      if identifier p =? propid then
        if cur_index =? index then Some p
        else property_loop props' propid index (cur_index + 1)
      else property_loop props' propid index cur_index
  end.

Definition MQTTProperties_getPropertyAt (ps : MQTTProperties) (propid index : Z)
    : option MQTTProperty :=
  property_loop (array ps) propid index 0.
Definition MQTTProperties_getProperty (ps : MQTTProperties) (propid : Z) : option MQTTProperty :=
  MQTTProperties_getPropertyAt ps propid 0.

(** ** Well-formed properties *)

Definition value_ok (type : MQTTPropertyTypes) (v : prop_value) : Prop :=
  match type, v with
  | TYPE_BYTE, VByte b => is_byte b
  | TYPE_TWO_BYTE_INTEGER, VInt2 n => is_u16 n
  | TYPE_FOUR_BYTE_INTEGER, VInt4 n => 0 ≤ n < 2 ^ 31
  | TYPE_VARIABLE_BYTE_INTEGER, VInt4 n => 0 ≤ n < 2 ^ 28
  | TYPE_BINARY_DATA, VData d | TYPE_UTF_8_ENCODED_STRING, VData d => short_bytes d
  | TYPE_UTF_8_STRING_PAIR, VPair d v => short_bytes d ∧ short_bytes v
  | _, _ => False
  end.

Definition prop_ok (p : MQTTProperty) : Prop :=
  match MQTTProperty_getType (identifier p) with
  | Some type => value_ok type (pvalue p)
  | None => False
  end.

(** The bytes of a property, and of a list of properties. *)
Definition prop_bytes (p : MQTTProperty) : list Z :=
  match MQTTProperty_write p with Some (b, _) => b | None => [] end.
Definition props_bytes (l : list MQTTProperty) : list Z := concat (prop_bytes <$> l).

(** The capacity after the allocations by ten that [n] properties need. *)
Definition grown (n : Z) : Z := (n + 9) / 10 * 10.

(** The invariant of a property list built by the operations: its [length] is
    the number of bytes of its properties, its capacity what they need. *)
Record props_ok (ps : MQTTProperties) : Prop := {
  ok_array : Forall prop_ok (array ps);
  ok_length : length_ ps = len (props_bytes (array ps));
  ok_max : max_count ps = grown (count ps);
  ok_alloc : allocated ps = bool_decide (array ps ≠ [])
}.

(** ** Lemmas *)

Lemma writeMQTTLenString_len s : len (writeMQTTLenString s) = 2 + len s.
Proof. unfold writeMQTTLenString. lens. Qed.
#[export] Hint Rewrite writeMQTTLenString_len : lens.

(** A well-formed value is written in the number of bytes announced, which is
    the length that [MQTTProperties_add] computes. *)
Lemma write_value_ok type v : value_ok type v →
  ∃ b, write_value type v = Some (b, len b) ∧ value_len type v = Some (len b).
Proof.
  destruct type, v; cbn [value_ok write_value value_len]; try done; intros Hok;
    eexists; (split; [f_equal; f_equal; lens|]); rewrite ?s32_small, ?encode_len by (simpl; lia);
    try done; f_equal; lens.
Qed.

(** Reading it back. *)
Lemma read_value_ok type v b pre post e :
  value_ok type v → write_value type v = Some (b, len b) → len pre + len b ≤ e →
  read_value type e (pre ++ b ++ post) (len pre) = Some ((v, len b), len pre + len b).
Proof.
  destruct type, v; cbn [value_ok write_value]; try done; intros Hok Hw He;
    apply (inj Some), pair_eq in Hw as [Hb Hlen]; unfold read_value, mbind, reader_bind.
  - subst b. by rewrite (char_codec byte pre post e).
  - subst b. by rewrite (int_codec integer2 pre post e).
  - subst b. rewrite (int4_codec integer4 pre post e) by done.
    unfold mret, reader_ret. rewrite u32_small by (unfold is_u32; lia). done.
  - subst b. unfold readVBI. by rewrite decodeBuf_encode.
  - subst b. rewrite LenString_read by done. cbn [snd datadup mret reader_ret].
    by rewrite writeMQTTLenString_len.
  - subst b. rewrite LenString_read by done. cbn [snd datadup mret reader_ret].
    by rewrite writeMQTTLenString_len.
  - destruct Hok as [Hd Hv]. subst b. rewrite length_app, Nat2Z.inj_add in He.
    rewrite <-app_assoc. rewrite LenString_read by (done || lia).
    cbn [snd datadup mret reader_ret].
    rewrite app_assoc. replace (len pre + len (writeMQTTLenString data))
      with (len (pre ++ writeMQTTLenString data)) by lens.
    rewrite LenString_read by (done || lens). cbn [snd datadup mret reader_ret].
    apply (f_equal Some), pair_eq. split; [f_equal; lens|lens].
Qed.

Lemma getType_byte id t : MQTTProperty_getType id = Some t → is_byte id.
Proof.
  unfold MQTTProperty_getType, namesToTypes, is_byte. cbn [assoc_find].
  repeat (match goal with |- context [?a =? id] => destruct (Z.eqb_spec a id); [lia|] end).
  done.
Qed.

(** A well-formed property: its type, the bytes of its value, and what the
    operations compute for it. *)
Lemma prop_write_ok p : prop_ok p → ∃ t b,
  MQTTProperty_getType (identifier p) = Some t ∧ value_ok t (pvalue p) ∧
  write_value t (pvalue p) = Some (b, len b) ∧ value_len t (pvalue p) = Some (len b) ∧
  prop_bytes p = writeChar (identifier p) ++ b ∧
  MQTTProperty_write p = Some (prop_bytes p, len (prop_bytes p)).
Proof.
  unfold prop_ok, prop_bytes, MQTTProperty_write.
  destruct (MQTTProperty_getType (identifier p)) as [t|]; [|done]. intros Hok.
  destruct (write_value_ok t _ Hok) as (b & Hw & Hl). exists t, b. rewrite Hw.
  cbn [mbind option_bind]. repeat split; try done. f_equal. f_equal. cbn [writeChar app]. lens.
Qed.

Lemma prop_bytes_pos p : prop_ok p → 1 ≤ len (prop_bytes p).
Proof. intros (t & b & _ & _ & _ & _ & -> & _)%prop_write_ok. cbn [writeChar app]. lens. Qed.

(** Reading back a well-formed property, with the length reported. *)
Lemma prop_read_ok p pre post e : prop_ok p → len pre + len (prop_bytes p) ≤ e →
  MQTTProperty_read e (pre ++ prop_bytes p ++ post) (len pre) =
    Some ((p, len (prop_bytes p)), len pre + len (prop_bytes p)).
Proof.
  intros (t & b & Ht & Hv & Hw & _ & Hb & _)%prop_write_ok He. rewrite Hb in *. clear Hb.
  unfold MQTTProperty_read, mbind, reader_bind. rewrite <-app_assoc.
  assert (len (writeChar (identifier p)) = 1) as H1 by done. rewrite length_app in He.
  rewrite (char_codec (identifier p) pre (b ++ post) e) by (lia || eauto using getType_byte).
  rewrite Ht, app_assoc. replace (len pre + len (writeChar (identifier p)))
    with (len (pre ++ writeChar (identifier p))) by lens.
  rewrite (read_value_ok t (pvalue p) b) by (done || lens).
  destruct p as [id v]. cbn [mret reader_ret identifier pvalue] in *.
  apply (f_equal Some), pair_eq. split; [f_equal; lens|lens].
Qed.

Lemma write_loop_ok l : ∀ n, 0 ≤ n → Forall prop_ok l →
  write_loop l n = Some (props_bytes l, n + len (props_bytes l)).
Proof.
  induction l as [|p l IH]; intros n Hn Hl; [simpl; f_equal; f_equal; lia|].
  apply Forall_cons in Hl as [Hp Hl]. pose proof (prop_bytes_pos p Hp).
  destruct (prop_write_ok p Hp) as (_ & _ & _ & _ & _ & _ & _ & Hw).
  cbn [write_loop]. rewrite Hw. cbn [mbind option_bind].
  rewrite (proj2 (Z.ltb_ge _ 0)) by lia. rewrite IH by (done || lia).
  cbn [mbind option_bind]. unfold props_bytes. rewrite fmap_cons. cbn [concat].
  f_equal. f_equal. lens.
Qed.

Lemma grown_step n : 0 ≤ n →
  grown (n + 1) = if n =? grown n then grown n + 10 else grown n.
Proof. unfold grown. intros. case_leb. Qed.

(** The reading loop over a written list: it appends the properties, with the
    capacity they need, and stops at their end. *)
Lemma read_loop_ok l : ∀ fuel ps pre post e,
  Forall prop_ok l → (length l < fuel)%nat → len (props_bytes l) < 2 ^ 32 →
  max_count ps = grown (count ps) → allocated ps = bool_decide (array ps ≠ []) →
  len pre + len (props_bytes l) ≤ e →
  read_loop fuel e (len (props_bytes l)) ps (pre ++ props_bytes l ++ post) (len pre) =
    Some (mkProps (array ps ++ l) (grown (count ps + len l)) (length_ ps)
            (bool_decide (array ps ++ l ≠ [])), len pre + len (props_bytes l)).
Proof.
  induction l as [|p l IH]; intros fuel ps pre post e Hl Hf Hlen Hmax Halloc He.
  - destruct fuel as [|fuel]; [simpl in Hf; lia|]. change (len (props_bytes [])) with 0.
    cbn [read_loop Z.ltb Z.compare app length]. rewrite app_nil_r, !Z.add_0_r, <-Hmax, <-Halloc.
    by destruct ps.
  - apply Forall_cons in Hl as [Hp Hl]. pose proof (prop_bytes_pos p Hp) as Hpos.
    destruct fuel as [|fuel]; [simpl in Hf; lia|]. cbn [read_loop].
    change (props_bytes (p :: l)) with (prop_bytes p ++ props_bytes l) in *.
    rewrite length_app, Nat2Z.inj_add in *.
    rewrite (proj2 (Z.ltb_lt 0 _)) by lia.
    unfold mbind, reader_bind. rewrite <-app_assoc, prop_read_ok by (done || lia).
    cbn [fst snd].
    replace (u32 (len (prop_bytes p) + len (props_bytes l) - len (prop_bytes p)))
      with (len (props_bytes l)) by (rewrite u32_small; unfold is_u32; lia).
    rewrite app_assoc. replace (len pre + len (prop_bytes p))
      with (len (pre ++ prop_bytes p)) by lens.
    set (ps' := if count ps =? max_count ps then _ else ps).
    assert (Hps' : array ps' = array ps ∧ length_ ps' = length_ ps ∧
      max_count ps' = grown (count ps + 1) ∧ allocated ps' = true).
    { subst ps'. rewrite Hmax, grown_step by (unfold count; lia).
      destruct (Z.eqb_spec (count ps) (grown (count ps))) as [Hc|Hc]; cbn;
        repeat split; try done; try lia.
      rewrite Halloc. apply bool_decide_eq_true. intros Hnil. destruct Hc.
      unfold count. by rewrite Hnil. }
    destruct Hps' as (Ha & Hlg & Hm & Hal).
    rewrite IH; cbn [array max_count length_ allocated count].
    + rewrite Ha, Hlg. unfold count. cbn [array].
      rewrite <-(app_assoc (array ps)). cbn [app]. apply (f_equal Some), pair_eq.
      split; [|lens]. f_equal. f_equal. lens.
    + done.
    + simpl in Hf. lia.
    + lia.
    + rewrite Hm. unfold count. cbn [array]. rewrite Ha. f_equal. lens.
    + rewrite Hal. symmetry. apply bool_decide_eq_true. by destruct (array ps').
    + lens.
Qed.

(** ** Termination of the reading loop on arbitrary bytes *)

(** Splits the first reader off a run of readers in the hypothesis [H]. *)
Ltac run_step H E :=
  match type of H with
  | match ?m with _ => _ end = Some _ => destruct m as [[? ?]|] eqn:E; [|discriminate H]
  end.

Lemma VBI_loop_turns left : ∀ buf pos n mult value k v,
  VBI_loop left buf pos n mult value = Some (k, v) → n + 1 ≤ k.
Proof.
  induction left as [|left IH]; intros buf pos n mult value k v H; cbn [VBI_loop] in H.
  - simplify_eq. lia.
  - destruct (peek buf pos); [|done]. destruct (_ =? 0); [simplify_eq; lia|].
    apply IH in H. lia.
Qed.

Lemma readChar_inv buf pos c pos' : readChar buf pos = Some (c, pos') →
  peek buf pos = Some c ∧ pos' = pos + 1.
Proof. unfold readChar. destruct (peek buf pos); intros; simplify_eq; done. Qed.

Lemma readInt_inv buf pos n pos' : bytes_ok buf → readInt buf pos = Some (n, pos') →
  0 ≤ n < 65536 ∧ pos' = pos + 2.
Proof.
  intros Hok. unfold readInt. destruct (peek buf pos) as [a|] eqn:Ha; [|done].
  destruct (peek buf (pos + 1)) as [b|] eqn:Hb; [|done]. intros. simplify_eq.
  apply (peek_byte _ _ _ Hok) in Ha, Hb. unfold is_byte in *. split; [lia|done].
Qed.

Lemma readInt4_inv buf pos n pos' : readInt4 buf pos = Some (n, pos') → pos' = pos + 4.
Proof. unfold readInt4. repeat (case_match; try done). intros. by simplify_eq. Qed.

Lemma LenString_inv e buf pos r pos' : bytes_ok buf →
  MQTTLenStringRead e buf pos = Some (r, pos') → pos ≤ pos'.
Proof.
  intros Hok. unfold MQTTLenStringRead, mbind, reader_bind, tell.
  destruct (1 <? _); [|unfold mret, reader_ret; intros; simplify_eq; lia].
  destruct (readInt buf pos) as [[n p1]|] eqn:Hn; [|done].
  apply (readInt_inv _ _ _ _ Hok) in Hn as [? ->].
  destruct (_ <=? e); [|unfold mret, reader_ret; intros; simplify_eq; lia].
  unfold read_bytes. case_decide; [|done]. unfold mret, reader_ret. intros. simplify_eq. lia.
Qed.

Lemma datadup_inv r buf pos d pos' : datadup r buf pos = Some (d, pos') → pos' = pos.
Proof. unfold datadup, mret, reader_ret, fault. by destruct (snd r); intros [= _ ->] || done. Qed.

Lemma read_value_mono t e buf pos r pos' : bytes_ok buf →
  read_value t e buf pos = Some (r, pos') → pos ≤ pos'.
Proof.
  intros Hok. destruct t; unfold read_value, mbind, reader_bind, mret, reader_ret; intros H;
    run_step H E1; simplify_eq.
  - apply readChar_inv in E1 as [_ ->]. lia.
  - apply (readInt_inv _ _ _ _ Hok) in E1 as [_ ->]. lia.
  - apply readInt4_inv in E1 as ->. lia.
  - destruct p. simplify_eq. unfold readVBI, MQTTPacket_decodeBuf in E1.
    run_step E1 E2. apply VBI_loop_turns in E2. simplify_eq. lia.
  - destruct p as [k r']. run_step H E2. apply datadup_inv in E2. simplify_eq.
    by apply (LenString_inv _ _ _ _ _ Hok) in E1.
  - destruct p as [k r']. run_step H E2. apply datadup_inv in E2. simplify_eq.
    by apply (LenString_inv _ _ _ _ _ Hok) in E1.
  - destruct p as [k r']. run_step H E2. apply datadup_inv in E2. subst. run_step H E3.
    destruct p as [k' r'']. run_step H E4. apply datadup_inv in E4. simplify_eq.
    apply (LenString_inv _ _ _ _ _ Hok) in E1, E3. lia.
Qed.

(** Each property consumes at least one byte inside the buffer. *)
Lemma prop_read_advance e buf pos r pos' : bytes_ok buf →
  MQTTProperty_read e buf pos = Some (r, pos') → 0 ≤ pos < len buf ∧ pos < pos'.
Proof.
  intros Hok. unfold MQTTProperty_read, mbind, reader_bind. intros H.
  run_step H E1. apply readChar_inv in E1 as [Hp%peek_Some_inv ->]. split; [done|].
  run_step H E2. destruct p. unfold mret, reader_ret in H. simplify_eq.
  destruct (MQTTProperty_getType z).
  - apply (read_value_mono _ _ _ _ _ _ Hok) in E2. lia.
  - unfold mret, reader_ret in E2. simplify_eq. lia.
Qed.

Lemma read_loop_fuel fuel : ∀ fuel' e rem ps buf pos, bytes_ok buf →
  Z.max 0 (len buf - pos) < Z.of_nat fuel → (fuel ≤ fuel')%nat →
  read_loop fuel' e rem ps buf pos = read_loop fuel e rem ps buf pos.
Proof.
  induction fuel as [|fuel IH]; intros fuel' e rem ps buf pos Hok Hf Hle; [lia|].
  destruct fuel' as [|fuel']; [lia|]. cbn [read_loop]. destruct (0 <? rem); [|done].
  unfold mbind, reader_bind.
  destruct (MQTTProperty_read e buf pos) as [[[p k] pos']|] eqn:Hr; [|done].
  apply (prop_read_advance _ _ _ _ _ Hok) in Hr. apply IH; [done|lia|lia].
Qed.

(** ** The list codec *)

Lemma write_ok ps : props_ok ps →
  MQTTProperties_write (Some ps) =
    Some (MQTTPacket_encode (length_ ps) ++ props_bytes (array ps), 1 + length_ ps).
Proof.
  intros [Ha Hl _ _]. unfold MQTTProperties_write. rewrite write_loop_ok by (done || lia).
  cbn [mbind option_bind]. by rewrite Hl at 3.
Qed.

Lemma encode_pos n : 0 ≤ n < 2 ^ 28 → 1 ≤ len (MQTTPacket_encode n).
Proof. intros. rewrite encode_len by done. unfold MQTTPacket_VBIlen. case_leb. Qed.

Lemma props_count_le l : Forall prop_ok l → len l ≤ len (props_bytes l).
Proof.
  induction 1 as [|p l Hp Hl IH]; [simpl; lia|]. pose proof (prop_bytes_pos p Hp).
  change (props_bytes (p :: l)) with (prop_bytes p ++ props_bytes l). lens.
Qed.

Lemma read_ok ps pre post e : props_ok ps → length_ ps < 2 ^ 28 →
  len pre + len (MQTTPacket_encode (length_ ps) ++ props_bytes (array ps)) ≤ e →
  MQTTProperties_read MQTTProperties_initializer e
    (pre ++ (MQTTPacket_encode (length_ ps) ++ props_bytes (array ps)) ++ post) (len pre) =
    Some ((1, ps),
          len pre + len (MQTTPacket_encode (length_ ps) ++ props_bytes (array ps))).
Proof.
  intros [Ha Hl Hm Hal] Hlt He.
  assert (Hr : 0 ≤ length_ ps < 2 ^ 28) by lia. pose proof (encode_pos _ Hr).
  rewrite length_app, Nat2Z.inj_add in *.
  unfold MQTTProperties_read, mbind, reader_bind, tell.
  rewrite (proj2 (Z.ltb_lt 0 _)) by lia.
  unfold readVBI. rewrite <-app_assoc, decodeBuf_encode by done.
  unfold buffer_length at 1. rewrite app_assoc.
  replace (len pre + len (MQTTPacket_encode (length_ ps)))
    with (len (pre ++ MQTTPacket_encode (length_ ps))) by lens.
  rewrite Hl at 2. pose proof (props_count_le _ Ha).
  rewrite read_loop_ok; try done; try lens.
  unfold mret, reader_ret. apply (f_equal Some), pair_eq. split; [|lens].
  f_equal. unfold count in *.
  change (mkProps (array ps) (grown (len (array ps))) (s32 (length_ ps))
            (bool_decide (array ps ≠ [])) = ps).
  rewrite <-Hm, <-Hal, s32_small by lia. by destruct ps.
Qed.

(** What a packet needs of the property list it carries: this is the interface
    through which the packet modules use this one. *)
Definition props_sendable (ps : MQTTProperties) : Prop := props_ok ps ∧ length_ ps < 2 ^ 28.
Definition write_props (ps : MQTTProperties) : list Z :=
  match MQTTProperties_write (Some ps) with Some (b, _) => b | None => [] end.
(** The parse of a fresh property list, with a failure of the packet as a value. *)
Definition read_props (e : Z) : reader MQTTProperties :=
  '(rc, ps) ← MQTTProperties_read MQTTProperties_initializer e;
  if rc =? 1 then mret ps else fault.

#[export] Instance props_codec : Codec write_props read_props props_sendable.
Proof.
  intros ps pre post e [Hok Hlt] He. unfold write_props in *. rewrite write_ok in * by done.
  unfold read_props, mbind, reader_bind. by rewrite read_ok.
Qed.

Lemma initializer_ok : props_sendable MQTTProperties_initializer.
Proof. split; [split; try done; constructor|done]. Qed.

Lemma add_ok ps p : props_ok ps → prop_ok p →
  ∃ ps', MQTTProperties_add true ps p = Some (0, ps') ∧ props_ok ps' ∧
    array ps' = array ps ++ [p].
Proof.
  intros [Ha Hl Hm Hal] Hp.
  destruct (prop_write_ok p Hp) as (t & b & Ht & _ & _ & Hvl & Hb & _).
  unfold MQTTProperties_add. rewrite Ht.
  assert (Hg : array (grow_array true ps) = array ps ∧ length_ (grow_array true ps) = length_ ps ∧
    max_count (grow_array true ps) = grown (count ps + 1) ∧
    allocated (grow_array true ps) = true).
  { unfold grow_array. destruct (allocated ps) eqn:E; cbn [negb].
    - rewrite Hm, grown_step by (unfold count; lia).
      destruct (_ =? _); cbn; repeat split; try done; lia.
    - symmetry in Hal. apply bool_decide_eq_false in Hal. apply dec_stable in Hal.
      cbn. unfold count. rewrite Hal. done. }
  destruct Hg as (Hga & Hgl & Hgm & ->). rewrite Hvl. cbn [mbind option_bind].
  eexists. split; [done|]. rewrite Hga, Hgl, Hgm. split; [|done].
  assert (Hpb : props_bytes (array ps ++ [p]) = props_bytes (array ps) ++ prop_bytes p).
  { unfold props_bytes. rewrite fmap_app, concat_app. simpl. by rewrite app_nil_r. }
  split; cbn [array max_count length_ allocated].
  - apply Forall_app. split; [done|]. by repeat constructor.
  - rewrite Hpb, Hl, Hb. cbn [writeChar app]. lens.
  - unfold count. cbn [array]. f_equal. lens.
  - symmetry. apply bool_decide_eq_true. by destruct (array ps).
Qed.

(** ** Queries *)

Definition of_id (propid : Z) (l : list MQTTProperty) : list MQTTProperty :=
  filter (λ p, identifier p = propid) l.

Lemma of_id_cons propid p l :
  of_id propid (p :: l) = if identifier p =? propid then p :: of_id propid l else of_id propid l.
Proof.
  unfold of_id. rewrite filter_cons. destruct (Z.eqb_spec (identifier p) propid);
    [by rewrite decide_True|by rewrite decide_False].
Qed.

Lemma property_loop_spec l propid index : ∀ cur, cur ≤ index →
  property_loop l propid index cur = of_id propid l !! Z.to_nat (index - cur).
Proof.
  induction l as [|p l IH]; intros cur Hc; [done|]. cbn [property_loop].
  rewrite of_id_cons. destruct (identifier p =? propid); [|by apply IH].
  destruct (Z.eqb_spec cur index) as [->|Hne]; [by rewrite Z.sub_diag|].
  rewrite IH by lia. replace (Z.to_nat (index - cur)) with (S (Z.to_nat (index - (cur + 1)))) by lia.
  done.
Qed.

Lemma numeric_loop_spec l propid index : ∀ cur, cur ≤ index →
  numeric_loop l propid index cur =
    match of_id propid l !! Z.to_nat (index - cur) with
    | Some p => numeric_value p
    | None => Some (-9999999)
    end.
Proof.
  induction l as [|p l IH]; intros cur Hc; [done|]. cbn [numeric_loop].
  rewrite of_id_cons. destruct (identifier p =? propid); [|by apply IH].
  destruct (Z.ltb_spec cur index).
  - rewrite IH by lia.
    replace (Z.to_nat (index - cur)) with (S (Z.to_nat (index - (cur + 1)))) by lia. done.
  - replace (Z.to_nat (index - cur)) with O by lia. done.
Qed.

Lemma count_loop_spec l propid : ∀ n, count_loop l propid n = n + len (of_id propid l).
Proof.
  induction l as [|p l IH]; intros n; cbn [count_loop]; [simpl; lia|].
  rewrite of_id_cons, IH, Z.eqb_sym. destruct (identifier p =? propid); simpl; lia.
Qed.

Lemma existsb_of_id l propid :
  existsb (λ p, propid =? identifier p) l = bool_decide (of_id propid l ≠ []).
Proof.
  induction l as [|p l IH]; [done|]. cbn [existsb]. rewrite of_id_cons, IH, Z.eqb_sym.
  by destruct (identifier p =? propid).
Qed.

(** ** Properties *)

(** A list built with the operations, used by the witnesses. *)
Definition sample_props : MQTTProperties :=
  mkProps [mkProp 1 (VByte 1); mkProp 11 (VInt4 300); mkProp 38 (VPair (bs "k") (bs "v"))]
    10 12 true.

Lemma sample_props_ok : props_ok sample_props.
Proof.
  split; [|reflexivity..]. repeat (apply Forall_cons; split); [..|apply Forall_nil];
    vm_compute; repeat split; done.
Qed.

(** C18: round trip of the property lists: what [MQTTProperties_write] sends for
    a list is read back by [MQTTProperties_read], at any place of any buffer, as
    the same structure (properties, count, length and capacity), without reading
    outside the bytes written.  The list is one that the operations build from
    properties of known identifiers whose values keep within what is written
    right ([props_ok]: four-byte integers below 2^31, the larger ones being
    written wrong; variable-byte integers below 2^28; strings below 2^16 bytes),
    of less than 2^28 bytes in all, and the end given to the reader is not before
    that of the bytes. *)
Theorem MQTTProperties_roundtrip ps pre post e : props_ok ps → length_ ps < 2 ^ 28 →
  ∃ b, MQTTProperties_write (Some ps) = Some (b, 1 + length_ ps) ∧
    (len pre + len b ≤ e →
     MQTTProperties_read MQTTProperties_initializer e (pre ++ b ++ post) (len pre) =
       Some ((1, ps), len pre + len b)).
Proof.
  intros Hok Hlt. eexists. split; [by apply write_ok|]. intros He. by apply read_ok.
Qed.

Lemma MQTTProperties_roundtrip_witness :
  props_ok sample_props ∧ length_ sample_props < 2 ^ 28 ∧
  ∃ b, MQTTProperties_write (Some sample_props) = Some (b, 13) ∧
    (len [7] + len b ≤ 20 →
     MQTTProperties_read MQTTProperties_initializer 20 ([7] ++ b ++ []) (len [7]) =
       Some ((1, sample_props), len [7] + len b)).
Proof.
  assert (H : length_ sample_props < 2 ^ 28) by reflexivity.
  split; [exact sample_props_ok|]. split; [exact H|].
  exact (MQTTProperties_roundtrip sample_props [7] [] 20 sample_props_ok H).
Defined.

(** The buffers are sized exactly: for a list built by the operations the
    serialization has [MQTTProperties_len] bytes, which is what every caller
    allocates, so the write does not overflow; the value returned by
    [MQTTProperties_write] is that number only below 128 bytes of properties
    (the length field is always counted as one byte). *)
Theorem MQTTProperties_len_exact ps : props_ok ps → length_ ps < 2 ^ 28 →
  ∃ b rc, MQTTProperties_write (Some ps) = Some (b, rc) ∧
    len b = MQTTProperties_len (Some ps) ∧ (rc = len b ↔ length_ ps < 128).
Proof.
  intros Hok Hlt. do 2 eexists. split; [by apply write_ok|].
  destruct Hok as [_ Hl _ _]. unfold MQTTProperties_len.
  assert (Hr : 0 ≤ length_ ps < 2 ^ 28) by lia.
  rewrite length_app, Nat2Z.inj_add, encode_len, <-Hl by done. split; [lia|].
  unfold MQTTPacket_VBIlen. case_leb.
Qed.

Lemma MQTTProperties_len_exact_witness :
  props_ok sample_props ∧ length_ sample_props < 2 ^ 28 ∧
  ∃ b rc, MQTTProperties_write (Some sample_props) = Some (b, rc) ∧
    len b = MQTTProperties_len (Some sample_props) ∧ (rc = len b ↔ length_ sample_props < 128).
Proof.
  assert (H : length_ sample_props < 2 ^ 28) by reflexivity.
  split; [exact sample_props_ok|]. split; [exact H|].
  exact (MQTTProperties_len_exact sample_props sample_props_ok H).
Defined.

(** [MQTTProperties_add] keeps the invariant of the list: a well-formed
    property is appended with the length of its encoding and the capacity it
    needs, a property whose identifier is unknown is refused and changes
    nothing, and a failed allocation is reported. *)
Theorem MQTTProperties_add_invariant ps p : props_ok ps →
  (prop_ok p → ∃ ps', MQTTProperties_add true ps p = Some (0, ps') ∧ props_ok ps' ∧
     array ps' = array ps ++ [p]) ∧
  (MQTTProperty_getType (identifier p) = None →
     ∀ mem, MQTTProperties_add mem ps p = Some (MQTT_INVALID_PROPERTY_ID, ps)) ∧
  (prop_ok p → count ps = max_count ps →
     ∃ ps', MQTTProperties_add false ps p = Some (PAHO_MEMORY_ERROR, ps')).
Proof.
  intros Hok. split; [by apply add_ok|]. split.
  - intros Ht mem. unfold MQTTProperties_add. by rewrite Ht.
  - intros Hp Hc. destruct (prop_write_ok p Hp) as (t & b & Ht & _).
    unfold MQTTProperties_add. rewrite Ht. unfold grow_array. rewrite Hc, Z.eqb_refl.
    destruct (negb (allocated ps)); by eexists.
Qed.

Lemma MQTTProperties_add_invariant_witness :
  props_ok sample_props ∧
  ∃ ps', MQTTProperties_add true sample_props (mkProp 33 (VInt2 20)) = Some (0, ps') ∧
    props_ok ps' ∧ array ps' = array sample_props ++ [mkProp 33 (VInt2 20)].
Proof.
  split; [exact sample_props_ok|].
  apply (MQTTProperties_add_invariant sample_props (mkProp 33 (VInt2 20)) sample_props_ok).
  cbn. unfold is_u16. lia.
Defined.

(** [MQTTProperties_read] terminates on arbitrary bytes: whatever the lengths
    in the packet, each turn of its loop consumes a byte of the buffer or
    stops, so more turns than the buffer has bytes never change the result. *)
Theorem MQTTProperties_read_terminates buf pos e rem ps extra : bytes_ok buf → 0 ≤ pos →
  read_loop (S (S (length buf)) + extra) e rem ps buf pos =
    read_loop (S (S (length buf))) e rem ps buf pos.
Proof. intros Hok Hp. apply read_loop_fuel; [done|lia|lia]. Qed.

Lemma MQTTProperties_read_terminates_witness :
  bytes_ok [5; 1] ∧
  read_loop (S (S (length [5; 1])) + 7) 2 5 MQTTProperties_initializer [5; 1] 1 =
    read_loop (S (S (length [5; 1]))) 2 5 MQTTProperties_initializer [5; 1] 1.
Proof.
  assert (H : bytes_ok [5; 1]) by (repeat constructor; unfold is_byte; lia).
  split; [exact H|].
  exact (MQTTProperties_read_terminates [5; 1] 1 2 5 MQTTProperties_initializer 7 H ltac:(lia)).
Defined.

(** The queries agree with the sub-list of the properties of that identifier:
    [hasProperty] tells whether it is empty, [propertyCount] its length,
    [getPropertyAt] its element of that index, and [getNumericValueAt] the
    number of that element, or -9999999 when there is none. *)
Theorem MQTTProperties_queries ps propid index : 0 ≤ index →
  MQTTProperties_hasProperty ps propid =
    (if decide (of_id propid (array ps) = []) then 0 else 1) ∧
  MQTTProperties_propertyCount ps propid = len (of_id propid (array ps)) ∧
  MQTTProperties_getPropertyAt ps propid index =
    of_id propid (array ps) !! Z.to_nat index ∧
  MQTTProperties_getNumericValueAt ps propid index =
    match of_id propid (array ps) !! Z.to_nat index with
    | Some p => numeric_value p
    | None => Some (-9999999)
    end.
Proof.
  intros Hi. unfold MQTTProperties_hasProperty, MQTTProperties_propertyCount,
    MQTTProperties_getPropertyAt, MQTTProperties_getNumericValueAt.
  rewrite existsb_of_id, count_loop_spec, property_loop_spec, numeric_loop_spec by done.
  rewrite Z.sub_0_r. repeat split; try lia. by destruct (of_id propid (array ps)).
Qed.

Lemma MQTTProperties_queries_witness :
  0 ≤ 0 ∧ MQTTProperties_getNumericValueAt sample_props 11 0 = Some 300.
Proof.
  split; [lia|].
  exact (proj2 (proj2 (proj2 (MQTTProperties_queries sample_props 11 0 ltac:(lia))))).
Defined.

(** ** What malformed input does *)

(** A property that is longer than the announced length makes the unsigned
    [remlength] wrap, and the loop reads past the end of the packet. *)
Example remlength_wraps :
  MQTTProperties_read MQTTProperties_initializer 6 [1; 2; 0; 0; 0; 1] 0 = None.
Proof. by vm_compute. Qed.

(** A subscription identifier of 2^31 is counted as one byte and written as five. *)
Example vbi_overflow :
  MQTTProperties_add true MQTTProperties_initializer (mkProp 11 (VInt4 (2 ^ 31))) =
    Some (0, mkProps [mkProp 11 (VInt4 (2 ^ 31))] 10 2 true) ∧
  MQTTProperty_write (mkProp 11 (VInt4 (2 ^ 31))) = Some ([11; 128; 128; 128; 128; 8], 6).
Proof. by vm_compute. Qed.

(** An unknown identifier is skipped as a one-byte property. *)
Example unknown_identifier_accepted :
  MQTTProperties_read MQTTProperties_initializer 2 [1; 127] 0 =
    Some ((1, mkProps [mkProp 127 VUninit] 10 1 true), 2).
Proof. by vm_compute. Qed.

End Properties.
