(* ===== verification/Packets.v ===== *)
(** * MQTT packets (paho.mqtt.c/src/MQTTPacket.c, MQTTPacketOut.c)

    The packet structures, the functions of the [new_packets] table that parse
    what a server sends, and the serializers of what the client sends, as the
    bytes of the buffers handed to the socket layer. *)
From S2P Require Import Prelude PacketCodec Props.

#[local] Ltac Zify.zify_post_hook ::= Z.to_euclidean_division_equations.

Module Packets.
Import Codecs Properties.

(** [strlen] of a C string stored in a buffer. *)
Definition strlen (s : list Z) : Z := len (cstr s).

(** ** Data *)

Record Publish := mkPublish {
  pb_header : Header;
  pb_topic : list Z;
  pb_topiclen : Z;
  pb_msgId : Z;
  pb_payload : list Z;
  pb_payloadlen : Z;
  pb_MQTTVersion : Z;
  pb_properties : MQTTProperties
}.

(** A field is [None] when the function leaves it uninitialized. *)
Record Ack := mkAck {
  ack_header : Header;
  ack_msgId : option Z;
  ack_rc : option Z;
  ack_MQTTVersion : Z;
  ack_properties : option MQTTProperties
}.

Record Connack := mkConnack {
  cn_header : Header;
  cn_flags : Z;
  cn_rc : Z;
  cn_MQTTVersion : Z;
  cn_properties : option MQTTProperties
}.

(** [qoss] of a suback, [reasonCodes] of an unsuback ([None] for NULL). *)
Record Suback := mkSuback {
  sa_header : Header;
  sa_msgId : Z;
  sa_MQTTVersion : Z;
  sa_properties : option MQTTProperties;
  sa_codes : option (list Z)
}.

Inductive packet :=
  | PConnack (p : Connack)
  | PPublish (p : Publish)
  | PAck (p : Ack)
  | PSuback (p : Suback)
  | PUnsuback (p : Suback)
  | PHeader (h : Z).

(** ** Parsing

    The functions run on the [datalen] bytes of the packet; [None] is a read
    outside of them (or a use of freed memory), [Some None] the NULL result. *)

Definition MQTTREASONCODE_SUCCESS := 0.

Definition run_parser {A} (m : reader A) (data : list Z) : option A := fst <$> m data 0.

(** The property block of the MQTT 5 packets: NULL when it cannot be read. *)
Definition read_properties (enddata : Z) : reader (option MQTTProperties) :=
  '(rc, ps) ← MQTTProperties_read MQTTProperties_initializer enddata;
  mret (if rc =? 1 then Some ps else None).

Definition MQTTPacket_header_only (MQTTVersion aHeader : Z) (data : list Z) : option (option Z) :=
  Some (Some aHeader).

Definition publish_reader (MQTTVersion aHeader : Z) (data : list Z) : reader (option Publish) :=
  let datalen := len data in
  let h := header_of_byte aHeader in
  '(topic, topiclen) ← readUTFlen datalen;
  match topic, topiclen with
  | Some t, Some tl =>
      msgId ← (if 0 <? h_qos h then readInt else mret 0);
      props ← (if MQTTVERSION_5 <=? MQTTVersion then read_properties datalen
               else mret (Some MQTTProperties_initializer));
      match props with
      | None => mret None
      | Some ps =>
          pos ← tell;
          mret (Some (mkPublish h t tl msgId (drop (Z.to_nat pos) data) (s32 (datalen - pos))
                        MQTTVersion ps))
      end
  | _, _ => mret None
  end.

Definition MQTTPacket_publish (MQTTVersion aHeader : Z) (data : list Z) : option (option Publish) :=
  run_parser (publish_reader MQTTVersion aHeader data) data.

Definition ack_reader (MQTTVersion aHeader : Z) (data : list Z) : reader (option Ack) :=
  let datalen := len data in
  let h := header_of_byte aHeader in
  msgId ← (if h_type h =? DISCONNECT then mret None else n ← readInt; mret (Some n));
  if MQTTVERSION_5 <=? MQTTVersion then
    rc ← (if 2 <? datalen then readChar else mret MQTTREASONCODE_SUCCESS);
    props ← (if 3 <? datalen then read_properties datalen
             else mret (Some MQTTProperties_initializer));
    match props with
    | None => mret None
    | Some ps => mret (Some (mkAck h msgId (Some rc) MQTTVersion (Some ps)))
    end
  else mret (Some (mkAck h msgId None MQTTVersion None)).

Definition MQTTPacket_ack (MQTTVersion aHeader : Z) (data : list Z) : option (option Ack) :=
  run_parser (ack_reader MQTTVersion aHeader data) data.

Definition connack_reader (MQTTVersion aHeader : Z) (data : list Z) : reader (option Connack) :=
  let datalen := len data in
  let h := header_of_byte aHeader in
  flags ← readChar;
  rc ← readChar;
  if MQTTVersion <? MQTTVERSION_5 then
    mret (if datalen =? 2 then Some (mkConnack h flags rc MQTTVersion None) else None)
  else if 2 <? datalen then
    props ← read_properties datalen;
    mret (match props with
          | None => None
          | Some ps => Some (mkConnack h flags rc MQTTVersion (Some ps))
          end)
  else mret (Some (mkConnack h flags rc MQTTVersion None)).

Definition MQTTPacket_connack (MQTTVersion aHeader : Z) (data : list Z) : option (option Connack) :=
  run_parser (connack_reader MQTTVersion aHeader data) data.

(** [while ((size_t)(curdata - data) < datalen)]: one code per byte. *)
Fixpoint codes_loop (fuel : nat) (datalen : Z) (codes : list Z) : reader (list Z) :=
  match fuel with
  | O => mret codes
  | S fuel' =>
      pos ← tell;
      if pos <? datalen then c ← readChar; codes_loop fuel' datalen (codes ++ [c])
      else mret codes
  end.

(** An empty list of codes frees the packet before its list is taken from it. *)
Definition suback_reader (MQTTVersion aHeader : Z) (data : list Z) : reader (option Suback) :=
  let datalen := len data in
  let h := header_of_byte aHeader in
  msgId ← readInt;
  props ← (if MQTTVERSION_5 <=? MQTTVersion
           then ps ← read_properties datalen; mret (Some <$> ps)
           else mret (Some None));
  match props with
  | None => mret None
  | Some ps =>
      qoss ← codes_loop (length data) datalen [];
      if len qoss =? 0 then fault
      else mret (Some (mkSuback h msgId MQTTVersion ps (Some qoss)))
  end.

Definition MQTTPacket_suback (MQTTVersion aHeader : Z) (data : list Z) : option (option Suback) :=
  run_parser (suback_reader MQTTVersion aHeader data) data.

Definition unsuback_reader (MQTTVersion aHeader : Z) (data : list Z) : reader (option Suback) :=
  let datalen := len data in
  let h := header_of_byte aHeader in
  msgId ← readInt;
  if MQTTVERSION_5 <=? MQTTVersion then
    props ← read_properties datalen;
    match props with
    | None => mret None
    | Some ps =>
        codes ← codes_loop (length data) datalen [];
        mret (if len codes =? 0 then None
              else Some (mkSuback h msgId MQTTVersion (Some ps) (Some codes)))
    end
  else mret (Some (mkSuback h msgId MQTTVersion None None)).

Definition MQTTPacket_unsuback (MQTTVersion aHeader : Z) (data : list Z) : option (option Suback) :=
  run_parser (unsuback_reader MQTTVersion aHeader data) data.

(** The packet a parser of the table returns through [void*]. *)
Definition as_packet {A} (k : A → packet) (f : Z → Z → list Z → option (option A))
    (MQTTVersion aHeader : Z) (data : list Z) : option (option packet) :=
  option_map (option_map k) (f MQTTVersion aHeader data).

(** The [new_packets] table; [None] is a NULL entry. *)
Definition new_packets (ptype : Z) : option (Z → Z → list Z → option (option packet)) :=
  if ptype =? CONNACK then Some (as_packet PConnack MQTTPacket_connack)
  else if ptype =? PUBLISH then Some (as_packet PPublish MQTTPacket_publish)
  else if (PUBACK <=? ptype) && (ptype <=? PUBCOMP) then Some (as_packet PAck MQTTPacket_ack)
  else if ptype =? SUBACK then Some (as_packet PSuback MQTTPacket_suback)
  else if ptype =? UNSUBACK then Some (as_packet PUnsuback MQTTPacket_unsuback)
  else if (ptype =? PINGREQ) || (ptype =? PINGRESP) then Some (as_packet PHeader MQTTPacket_header_only)
  else if (ptype =? DISCONNECT) || (ptype =? AUTH) then Some (as_packet PAck MQTTPacket_ack)
  else None.

(** The type test and the dispatch of [MQTTPacket_Factory] once the remaining
    data is there: the outer [None] is undefined behaviour, [Some None] no
    packet with the error code left as it was, [Some (Some None)] a bad packet. *)
Definition Factory_dispatch (MQTTVersion header : Z) (data : list Z)
    : option (option (option packet)) :=
  let ptype := h_type (header_of_byte header) in
  if (ptype <? CONNECT) || ((MQTTVersion <? MQTTVERSION_5) && (DISCONNECT <=? ptype))
     || ((MQTTVERSION_5 <=? MQTTVersion) && (AUTH <? ptype))
  then Some None
  else match new_packets ptype with
       | None => Some None
       | Some f => Some <$> f MQTTVersion header data
       end.

(** ** Serialization *)

(** [MQTTPacket_send] and [MQTTPacket_sends]: the fixed header, then the
    buffers. *)
Definition fixed_header (h : Header) (total : Z) : list Z :=
  header_byte h :: MQTTPacket_encode total.

Definition MQTTPacket_sends (h : Header) (bufs : list (list Z)) : list Z :=
  fixed_header h (len (concat bufs)) ++ concat bufs.

Definition MQTTPacket_send (h : Header) (buffer : list Z) : list Z :=
  fixed_header h (len buffer) ++ buffer.

Definition MQTTPacket_send_ack (type msgid dup : Z) : list Z :=
  MQTTPacket_send (mkHeader type dup (if type =? PUBREL then 1 else 0) 0) (writeInt msgid).

Definition MQTTPacket_send_puback (msgid : Z) : list Z := MQTTPacket_send_ack PUBACK msgid 0.
Definition MQTTPacket_send_pubrec (msgid : Z) : list Z := MQTTPacket_send_ack PUBREC msgid 0.
Definition MQTTPacket_send_pubrel (msgid dup : Z) : list Z := MQTTPacket_send_ack PUBREL msgid dup.
Definition MQTTPacket_send_pubcomp (msgid : Z) : list Z := MQTTPacket_send_ack PUBCOMP msgid 0.

Definition MQTTPacket_send_pingreq : list Z := MQTTPacket_send (mkHeader PINGREQ 0 0 0) [].

(** The size passed to [malloc] and the bytes written to it, for the buffers
    that are filled by hand. *)
Definition write_properties (ps : MQTTProperties) : list Z := write_props ps.

Definition disconnect_buffer (reason : Z) (props : option MQTTProperties) : Z * list Z :=
  (1 + match props with None => 0 | Some ps => MQTTProperties_len (Some ps) end,
   writeChar reason ++ match props with None => [] | Some ps => write_properties ps end).

Definition MQTTPacket_send_disconnect (MQTTVersion reason : Z) (props : option MQTTProperties)
    : list Z :=
  let h := mkHeader DISCONNECT 0 0 0 in
  if (5 <=? MQTTVersion)
     && (match props with Some _ => true | None => false end
         || negb (reason =? MQTTREASONCODE_SUCCESS))
  then MQTTPacket_send h (snd (disconnect_buffer reason props))
  else MQTTPacket_send h [].

(** The buffer between the topic and the payload of a PUBLISH. *)
Definition publish_buffer (pack : Publish) (qos : Z) : Z * list Z :=
  ((if 0 <? qos then 2 else 0)
   + (if 5 <=? pb_MQTTVersion pack then MQTTProperties_len (Some (pb_properties pack)) else 0),
   (if 0 <? qos then writeInt (pb_msgId pack) else [])
   ++ (if 5 <=? pb_MQTTVersion pack then write_properties (pb_properties pack) else [])).

Definition MQTTPacket_send_publish (pack : Publish) (dup qos retained : Z) : list Z :=
  let h := mkHeader PUBLISH dup qos retained in
  let topic := cstr (pb_topic pack) in
  let payload := take (Z.to_nat (pb_payloadlen pack)) (pb_payload pack) in
  if (0 <? qos) || (5 <=? pb_MQTTVersion pack)
  then MQTTPacket_sends h [writeInt (s32 (len topic)); topic; snd (publish_buffer pack qos); payload]
  else MQTTPacket_sends h [writeInt (s32 (len topic)); topic; payload].

(** What [MQTTPacket_send_connect] uses of the client. *)
Record will_message := mkWill {
  will_topic : list Z;
  will_payload : list Z;
  will_retained : Z;
  will_qos : Z
}.

Record connect_client := mkConnectClient {
  cc_clientID : list Z;
  cc_username : option (list Z);
  cc_password : option (list Z);
  cc_cleansession : Z;
  cc_cleanstart : Z;
  cc_keepAliveInterval : Z;
  cc_will : option will_message
}.

Definition opt_len {A} (f : A → Z) (o : option A) : Z :=
  match o with Some a => f a | None => 0 end.
Definition opt_bytes {A} (f : A → list Z) (o : option A) : list Z :=
  match o with Some a => f a | None => [] end.

Definition connect_len (c : connect_client) (MQTTVersion : Z)
    (connectProperties willProperties : MQTTProperties) : Z :=
  (if MQTTVersion =? MQTTVERSION_3_1 then 12 else 10) + strlen (cc_clientID c) + 2
  + opt_len (λ w, strlen (will_topic w) + 2 + len (will_payload w) + 2) (cc_will c)
  + opt_len (λ u, strlen u + 2) (cc_username c)
  + opt_len (λ p, len p + 2) (cc_password c)
  + (if MQTTVERSION_5 <=? MQTTVersion
     then MQTTProperties_len (Some connectProperties)
          + opt_len (λ _, MQTTProperties_len (Some willProperties)) (cc_will c)
     else 0).

(** The connect flags union, little-endian bit fields. *)
Definition connect_flags (c : connect_client) (MQTTVersion : Z) : Z :=
  let clean := if MQTTVERSION_5 <=? MQTTVersion then cc_cleanstart c else cc_cleansession c in
  Z.shiftl (clean .& 1) 1
  .| match cc_will c with
     | Some w => 4 .| Z.shiftl (will_qos w .& 3) 3 .| Z.shiftl (will_retained w .& 1) 5
     | None => 0
     end
  .| opt_len (λ _, 64) (cc_password c) .| opt_len (λ _, 128) (cc_username c).

Definition writeUTF_c (s : list Z) : list Z := writeUTF (cstr s).

(** [None] for a version that is not 3, 4 or 5: nothing is sent. *)
Definition connect_buffer (c : connect_client) (MQTTVersion : Z)
    (connectProperties willProperties : MQTTProperties) : option (list Z) :=
  let v5 {A} (b : list A) := if MQTTVERSION_5 <=? MQTTVersion then b else [] in
  protocol ←
    (if MQTTVersion =? MQTTVERSION_3_1
     then Some (writeUTF (bs "MQIsdp") ++ writeChar MQTTVERSION_3_1)
     else if (MQTTVersion =? MQTTVERSION_3_1_1) || (MQTTVersion =? MQTTVERSION_5)
     then Some (writeUTF (bs "MQTT") ++ writeChar MQTTVersion)
     else None);
  Some (protocol ++ writeChar (connect_flags c MQTTVersion)
        ++ writeInt (cc_keepAliveInterval c)
        ++ v5 (write_properties connectProperties)
        ++ writeUTF_c (cc_clientID c)
        ++ opt_bytes (λ w, v5 (write_properties willProperties)
                           ++ writeUTF_c (will_topic w)
                           ++ writeData (will_payload w) (len (will_payload w))) (cc_will c)
        ++ opt_bytes writeUTF_c (cc_username c)
        ++ opt_bytes (λ p, writeData p (len p)) (cc_password c)).

Definition MQTTPacket_send_connect (c : connect_client) (MQTTVersion : Z)
    (connectProperties willProperties : MQTTProperties) : option (list Z) :=
  MQTTPacket_send (mkHeader CONNECT 0 0 0)
    <$> connect_buffer c MQTTVersion connectProperties willProperties.

Record MQTTSubscribe_options := mkSubOpts {
  noLocal : Z; retainAsPublished : Z; retainHandling : Z
}.

(** [opts] is NULL or has one entry per topic. *)
Definition subopts_byte (MQTTVersion qos : Z) (opt : option MQTTSubscribe_options) : Z :=
  match opt with
  | Some o =>
      if MQTTVERSION_5 <=? MQTTVersion
      then qos .| Z.shiftl (noLocal o) 2 .| Z.shiftl (retainAsPublished o) 3
           .| Z.shiftl (retainHandling o) 4
      else qos
  | None => qos
  end.

(** The loop that adds up [strlen(elem->content)]. *)
Definition topics_len (topics : list (list Z)) : Z := foldr (λ t n, strlen t + n) 0 topics.

Definition subscribe_len (MQTTVersion : Z) (topics : list (list Z)) (props : option MQTTProperties)
    : Z :=
  2 + len topics * 3 + topics_len topics
  + (if MQTTVERSION_5 <=? MQTTVersion then MQTTProperties_len props else 0).

Definition write_opt_properties (props : option MQTTProperties) : list Z :=
  match props with Some ps => write_properties ps | None => MQTTPacket_encode 0 end.

Fixpoint subscribe_topics (MQTTVersion : Z)
    (entries : list (list Z * Z * option MQTTSubscribe_options)) : list Z :=
  match entries with
  | [] => []
  | (t, qos, opt) :: entries' =>
      writeUTF_c t ++ writeChar (subopts_byte MQTTVersion qos opt)
      ++ subscribe_topics MQTTVersion entries'
  end.

(** The three lists advance together; [entries] is their zip. *)
Definition subscribe_buffer (MQTTVersion : Z)
    (entries : list (list Z * Z * option MQTTSubscribe_options)) (props : option MQTTProperties)
    (msgid : Z) : list Z :=
  writeInt msgid
  ++ (if MQTTVERSION_5 <=? MQTTVersion then write_opt_properties props else [])
  ++ subscribe_topics MQTTVersion entries.

Definition MQTTPacket_send_subscribe MQTTVersion entries props msgid dup : list Z :=
  MQTTPacket_send (mkHeader SUBSCRIBE dup 1 0) (subscribe_buffer MQTTVersion entries props msgid).

Definition unsubscribe_len (MQTTVersion : Z) (topics : list (list Z))
    (props : option MQTTProperties) : Z :=
  2 + len topics * 2 + topics_len topics
  + (if MQTTVERSION_5 <=? MQTTVersion then MQTTProperties_len props else 0).

Definition unsubscribe_buffer (MQTTVersion : Z) (topics : list (list Z))
    (props : option MQTTProperties) (msgid : Z) : list Z :=
  writeInt msgid
  ++ (if MQTTVERSION_5 <=? MQTTVersion then write_opt_properties props else [])
  ++ concat (writeUTF_c <$> topics).

Definition MQTTPacket_send_unsubscribe MQTTVersion topics props msgid dup : list Z :=
  MQTTPacket_send (mkHeader UNSUBSCRIBE dup 1 0) (unsubscribe_buffer MQTTVersion topics props msgid).

(** ** Lemmas *)

Lemma write_properties_len ps : props_sendable ps →
  len (write_properties ps) = MQTTProperties_len (Some ps).
Proof.
  intros [Hok Hlt]. unfold write_properties, write_props. rewrite write_ok by done.
  destruct Hok as [_ Hl _ _]. unfold MQTTProperties_len. lens.
  rewrite encode_len by lia. lia.
Qed.

Lemma write_opt_properties_len o : default True (props_sendable <$> o) →
  len (write_opt_properties o) = MQTTProperties_len o.
Proof. destruct o as [ps|]; simpl; [apply write_properties_len|done]. Qed.

Lemma writeUTF_c_len s : len (writeUTF_c s) = strlen s + 2.
Proof. unfold writeUTF_c, writeUTF, strlen. lens. Qed.

Lemma writeData_len d : len (writeData d (len d)) = len d + 2.
Proof. unfold writeData. rewrite Nat2Z.id, firstn_all. lens. Qed.

Lemma topics_bytes_len topics : len (concat (writeUTF_c <$> topics)) = len topics * 2 + topics_len topics.
Proof.
  induction topics as [|t topics IH]; [done|]. rewrite fmap_cons. cbn [concat topics_len foldr length].
  unfold topics_len in IH. rewrite length_app, Nat2Z.inj_add, IH, writeUTF_c_len. lia.
Qed.

Lemma subscribe_topics_len v entries :
  len (subscribe_topics v entries) = len entries * 3 + topics_len (fst ∘ fst <$> entries).
Proof.
  induction entries as [|[[t q] o] entries IH]; [done|].
  rewrite fmap_cons. cbn [subscribe_topics topics_len foldr length compose fst].
  unfold topics_len in IH. rewrite !length_app, !Nat2Z.inj_add, IH, writeUTF_c_len.
  unfold writeChar. cbn [length]. lia.
Qed.

#[export] Hint Rewrite writeUTF_c_len writeData_len topics_bytes_len subscribe_topics_len : lens.

(** The property block read by the packet parsers. *)
Lemma read_properties_ok ps pre post e : props_sendable ps →
  len pre + len (write_properties ps) ≤ e →
  read_properties e (pre ++ write_properties ps ++ post) (len pre) =
    Some (Some ps, len pre + len (write_properties ps)).
Proof.
  intros [Hok Hlt] He. unfold write_properties, write_props in *. rewrite write_ok in * by done.
  unfold read_properties, mbind, reader_bind. by rewrite read_ok.
Qed.
(** ** Lemmas: parsing *)

Lemma UTF_read_at s buf pre post e pos : short_bytes s → buf = pre ++ writeUTF s ++ post →
  pos = len pre → pos + len (writeUTF s) ≤ e →
  readUTFlen e buf pos = Some ((Some s, Some (len s)), pos + len (writeUTF s)).
Proof. intros ? -> -> ?. by apply UTF_read. Qed.

Lemma read_properties_at ps buf pre post e pos : props_sendable ps →
  buf = pre ++ write_properties ps ++ post → pos = len pre →
  pos + len (write_properties ps) ≤ e →
  read_properties e buf pos = Some (Some ps, pos + len (write_properties ps)).
Proof. intros ? -> -> ?. by apply read_properties_ok. Qed.

(** The optional message id and property block, present or absent. *)
Lemma read_opt_int (b : bool) n buf pre post pos : is_u16 n →
  buf = pre ++ (if b then writeInt n else []) ++ post → pos = len pre →
  (if b then readInt else mret 0) buf pos
    = Some (if b then n else 0, pos + len (if b then writeInt n else [])).
Proof.
  intros Hn -> ->. destruct b.
  - by apply (int_codec n pre post (len pre + len (writeInt n))).
  - unfold mret, reader_ret. repeat f_equal. simpl. lia.
Qed.

Lemma read_opt_properties (b : bool) ps buf pre post e pos : (b = true → props_sendable ps) →
  buf = pre ++ (if b then write_properties ps else []) ++ post → pos = len pre →
  pos + len (if b then write_properties ps else []) ≤ e →
  (if b then read_properties e else mret (Some MQTTProperties_initializer)) buf pos
    = Some (Some (if b then ps else MQTTProperties_initializer),
            pos + len (if b then write_properties ps else [])).
Proof.
  intros Hps -> -> He. destruct b.
  - by apply read_properties_ok; [apply Hps|].
  - unfold mret, reader_ret. repeat f_equal. simpl. lia.
Qed.

(** The variable header and payload of a PUBLISH. *)
Definition publish_body (v : Z) (topic : list Z) (qos msgId : Z) (ps : MQTTProperties)
    (payload : list Z) : list Z :=
  writeUTF topic ++ (if 0 <? qos then writeInt msgId else [])
  ++ (if MQTTVERSION_5 <=? v then write_properties ps else []) ++ payload.

Lemma publish_reader_ok v h topic msgId ps payload : header_ok h → short_bytes topic →
  is_u16 msgId → (MQTTVERSION_5 ≤ v → props_sendable ps) → len payload < 2 ^ 31 →
  MQTTPacket_publish v (header_byte h) (publish_body v topic (h_qos h) msgId ps payload) =
    Some (Some (mkPublish h topic (len topic) (if 0 <? h_qos h then msgId else 0)
      payload (len payload) v
      (if MQTTVERSION_5 <=? v then ps else MQTTProperties_initializer))).
Proof.
  intros Hh Ht Hm Hps Hpl. unfold MQTTPacket_publish, run_parser, publish_reader.
  rewrite header_byte_of by done. set (data := publish_body _ _ _ _ _ _).
  set (mid := if 0 <? h_qos h then writeInt msgId else []).
  set (pr := if MQTTVERSION_5 <=? v then write_properties ps else []).
  assert (Hd : data = writeUTF topic ++ mid ++ pr ++ payload) by done. clearbody data.
  assert (Hl : len data = len (writeUTF topic) + len mid + len pr + len payload)
    by (rewrite Hd; lens).
  cbn [mbind reader_bind]. unfold mbind, reader_bind at 1.
  rewrite (UTF_read_at topic data [] (mid ++ pr ++ payload)); try done; try (simpl; lia).
  unfold reader_bind at 1.
  rewrite (read_opt_int _ msgId data (writeUTF topic) (pr ++ payload)); try done; try (simpl; lia).
  fold mid. unfold reader_bind at 1.
  rewrite (read_opt_properties _ ps data (writeUTF topic ++ mid) payload); try (fold pr).
  - unfold reader_bind, tell, mret, reader_ret. cbn [option_fmap option_map fst fmap].
    replace (Z.to_nat _) with (length (writeUTF topic ++ mid ++ pr)) by lens.
    replace (drop _ data) with payload by (rewrite Hd, !app_assoc, drop_app_length; done).
    rewrite s32_small by lia. repeat f_equal. lia.
  - intros Hv%Z.leb_le. by apply Hps.
  - by rewrite Hd, <-!app_assoc.
  - lens.
  - lia.
  - lia.
Qed.
Lemma codes_loop_ok codes : ∀ fuel acc pre,
  (length codes ≤ fuel)%nat →
  codes_loop fuel (len (pre ++ codes)) acc (pre ++ codes) (len pre)
    = Some (acc ++ codes, len (pre ++ codes)).
Proof.
  induction codes as [|c codes IH]; intros fuel acc pre Hf.
  - rewrite !app_nil_r. destruct fuel; cbn [codes_loop]; unfold mbind, reader_bind, tell; [done|].
    by rewrite Z.ltb_irrefl.
  - destruct fuel as [|fuel]; [simpl in Hf; lia|].
    cbn [codes_loop]. unfold mbind, reader_bind, tell, readChar.
    rewrite (proj2 (Z.ltb_lt _ _)) by lens. rewrite peek_app.
    replace (len pre + 1) with (len (pre ++ [c])) by lens.
    replace (pre ++ c :: codes) with ((pre ++ [c]) ++ codes) by (by rewrite <-app_assoc).
    rewrite IH by (simpl in Hf; lia). by rewrite <-app_assoc.
Qed.

Lemma codes_loop_at fuel data pre codes pos : data = pre ++ codes → pos = len pre →
  (length codes ≤ fuel)%nat →
  codes_loop fuel (len data) [] data pos = Some (codes, len data).
Proof. intros -> -> Hf. by apply (codes_loop_ok codes fuel [] pre). Qed.

Lemma readInt_none data pos : 0 ≤ pos → readInt data pos = None ↔ len data < pos + 2.
Proof.
  intros Hp. unfold readInt.
  destruct (decide (len data < pos + 2)) as [Hs|Hs].
  - split; [done|]. intros _. rewrite (peek_None data (pos + 1)) by lia. by destruct (peek data pos).
  - destruct (peek_is_Some data pos) as [a ->]; [lia|].
    destruct (peek_is_Some data (pos + 1)) as [b ->]; [lia|]. by split; [|lia].
Qed.

Lemma codes_loop_total fuel data : ∀ acc pos, 0 ≤ pos → len data ≤ pos + Z.of_nat fuel →
  ∃ codes, codes_loop fuel (len data) acc data pos = Some (acc ++ codes, Z.max pos (len data)) ∧
    len codes = Z.max 0 (len data - pos).
Proof.
  induction fuel as [|fuel IH]; intros acc pos Hp Hf; cbn [codes_loop];
    unfold mbind, reader_bind, tell, mret, reader_ret.
  - exists []. rewrite app_nil_r, Z.max_l by lia. split; [done|simpl; lia].
  - destruct (Z.ltb_spec pos (len data)) as [Hlt|Hge].
    + unfold readChar. destruct (peek_is_Some data pos) as [c ->]; [lia|].
      destruct (IH (acc ++ [c]) (pos + 1)) as (codes & -> & Hc); [lia..|].
      exists (c :: codes). rewrite <-app_assoc, !Z.max_r by lia. split; [done|].
      cbn [length]. lia.
    + exists []. rewrite app_nil_r, Z.max_l by lia. split; [done|simpl; lia].
Qed.

(** ** Properties: the buffers are exactly as long as allocated *)

(** [MQTTPacket_send_connect] writes exactly the [len] bytes it allocates,
    for every combination of version, will, username and password. *)
Theorem connect_buffer_exact c v cps wps b :
  (MQTTVERSION_5 ≤ v → props_sendable cps ∧ props_sendable wps) →
  connect_buffer c v cps wps = Some b → len b = connect_len c v cps wps.
Proof.
  intros Hps Hb. unfold connect_buffer in Hb.
  destruct (if v =? MQTTVERSION_3_1 then _ else _) as [protocol|] eqn:Hp; [|done].
  cbn [mbind option_bind] in Hb. apply (inj Some) in Hb. subst b.
  assert (Hl : len protocol = if v =? MQTTVERSION_3_1 then 9 else 7).
  { destruct (v =? MQTTVERSION_3_1); [by apply (inj Some) in Hp; subst|].
    destruct (_ || _); [|done]. by apply (inj Some) in Hp; subst. }
  unfold connect_len, writeChar. autorewrite with lens. rewrite Hl. cbn [length].
  assert (5 ≤ v → len (write_properties cps) = MQTTProperties_len (Some cps) ∧
    len (write_properties wps) = MQTTProperties_len (Some wps)) as Hw.
  { intros Hv. destruct (Hps Hv). by rewrite !write_properties_len. }
  unfold MQTTVERSION_5, MQTTVERSION_3_1 in *.
  destruct (cc_will c) as [w|], (cc_username c) as [u|], (cc_password c) as [pw|];
    cbn [opt_len opt_bytes]; autorewrite with lens; cbn [length];
    destruct (Z.leb_spec 5 v), (v =? 3) eqn:?; autorewrite with lens; cbn [length];
    try (destruct Hw as [-> ->]; [lia|]); lia.
Qed.

(** A client with a will, a user name and a password. *)
Definition sample_client : connect_client :=
  mkConnectClient (bs "bridge") (Some (bs "user")) (Some [0; 1; 2]) 1 0 20
    (Some (mkWill (bs "gone") [9] 1 2)).

Lemma connect_buffer_exact_witness :
  (MQTTVERSION_5 ≤ 5 → props_sendable sample_props ∧ props_sendable sample_props) ∧
  ∃ b, connect_buffer sample_client 5 sample_props sample_props = Some b ∧
    len b = connect_len sample_client 5 sample_props sample_props.
Proof.
  assert (H : MQTTVERSION_5 ≤ 5 → props_sendable sample_props ∧ props_sendable sample_props)
    by (intros _; split; (split; [apply sample_props_ok|done])).
  split; [exact H|]. eexists. split; [reflexivity|].
  exact (connect_buffer_exact sample_client 5 sample_props sample_props _ H eq_refl).
Defined.

(** The other buffers filled by hand (SUBSCRIBE, UNSUBSCRIBE, DISCONNECT and
    the block between topic and payload of PUBLISH) are also filled to exactly
    the size that is allocated and given as the length to send. *)
Theorem packet_buffers_exact v entries topics props ps pack qos reason msgid :
  default True (props_sendable <$> props) → props_sendable (pb_properties pack) →
  props_sendable ps →
  len (subscribe_buffer v entries props msgid)
    = subscribe_len v (fst ∘ fst <$> entries) props ∧
  len (unsubscribe_buffer v topics props msgid) = unsubscribe_len v topics props ∧
  len (snd (disconnect_buffer reason (Some ps))) = fst (disconnect_buffer reason (Some ps)) ∧
  len (snd (publish_buffer pack qos)) = fst (publish_buffer pack qos).
Proof.
  intros Hps Hpub Hd.
  unfold subscribe_buffer, subscribe_len, unsubscribe_buffer, unsubscribe_len,
    disconnect_buffer, publish_buffer, writeChar. cbn [fst snd].
  autorewrite with lens.
  split; [|split; [|split]].
  - destruct (_ <=? v); [rewrite write_opt_properties_len by done|]; cbn [length]; lia.
  - destruct (_ <=? v); [rewrite write_opt_properties_len by done|]; cbn [length]; lia.
  - rewrite write_properties_len by done. simpl. lia.
  - destruct (0 <? qos), (_ <=? _); rewrite ?write_properties_len by done; cbn [length]; lens.
Qed.

Lemma packet_buffers_exact_witness :
  props_sendable sample_props ∧
  len (subscribe_buffer 5 [(bs "a/b", 1, None)] (Some sample_props) 7)
    = subscribe_len 5 [bs "a/b"] (Some sample_props).
Proof.
  assert (H : props_sendable sample_props) by (split; [apply sample_props_ok|done]).
  split; [exact H|].
  exact (proj1 (packet_buffers_exact 5 [(bs "a/b", 1, None)] [] (Some sample_props) sample_props
    (mkPublish (mkHeader 3 0 1 0) [] 0 0 [] 0 5 sample_props) 1 0 7 H H H)).
Defined.

(** ** Properties: what is sent is what is parsed *)

(** C19: a PUBLISH that is sent and received is the same message: the bytes are a
    header byte, the length of the body, and a body that the packet table
    parses into the same topic, message id, properties and payload, for every
    version, QoS, DUP and RETAIN.  The topic has no NUL and less than 2^16 bytes,
    the identifier 16 bits, the payload its stated length, below 2^31, and the
    properties of an MQTT 5 message are those that are written right
    ([props_sendable]: four-byte integers below 2^31, less than 2^28 bytes). *)
Theorem publish_roundtrip pack dup qos retained :
  let v := pb_MQTTVersion pack in
  let h := mkHeader PUBLISH dup qos retained in
  header_ok h → cstring_ok (pb_topic pack) → short_bytes (pb_topic pack) →
  is_u16 (pb_msgId pack) → (MQTTVERSION_5 ≤ v → props_sendable (pb_properties pack)) →
  pb_payloadlen pack = len (pb_payload pack) → len (pb_payload pack) < 2 ^ 31 →
  ∃ body,
    MQTTPacket_send_publish pack dup qos retained
      = header_byte h :: MQTTPacket_encode (len body) ++ body ∧
    Factory_dispatch v (header_byte h) body =
      Some (Some (Some (PPublish (mkPublish h (pb_topic pack) (len (pb_topic pack))
        (if 0 <? qos then pb_msgId pack else 0) (pb_payload pack) (len (pb_payload pack)) v
        (if MQTTVERSION_5 <=? v then pb_properties pack else MQTTProperties_initializer))))).
Proof.
  intros v h Hh Hc Ht Hm Hps Hpl Hlt.
  exists (publish_body v (pb_topic pack) qos (pb_msgId pack) (pb_properties pack) (pb_payload pack)).
  split.
  - unfold MQTTPacket_send_publish, MQTTPacket_sends, fixed_header, publish_buffer, publish_body,
      writeUTF. fold h. cbn [snd]. rewrite Hpl, Nat2Z.id, firstn_all, (cstr_ok _ Hc).
    unfold MQTTVERSION_5. fold v.
    destruct (0 <? qos), (5 <=? v); cbn [orb concat app]; by rewrite ?app_nil_r, <-?app_assoc.
  - unfold Factory_dispatch. rewrite header_byte_of by done. cbn [h_type h].
    replace (_ || _ || _) with false; [|unfold MQTTVERSION_5; simpl; by rewrite !andb_false_r].
    change (new_packets PUBLISH) with (Some (as_packet PPublish MQTTPacket_publish)). cbn beta iota.
    unfold as_packet.
    pose proof (publish_reader_ok v h (pb_topic pack) (pb_msgId pack) (pb_properties pack)
      (pb_payload pack) Hh Ht Hm Hps Hlt) as H. cbn [h_qos h] in H. by rewrite H.
Qed.

Definition sample_publish : Publish :=
  mkPublish (mkHeader PUBLISH 0 0 0) (bs "hall/1") 6 513 [1; 2; 3; 255] 4 5 sample_props.

Lemma publish_roundtrip_witness :
  props_sendable sample_props ∧
  ∃ body, MQTTPacket_send_publish sample_publish 0 2 1 = header_byte (mkHeader PUBLISH 0 2 1) :: MQTTPacket_encode (len body) ++ body ∧
    body = [0; 6] ++ bs "hall/1" ++ [2; 1] ++ write_props sample_props ++ [1; 2; 3; 255] ∧
    Factory_dispatch 5 (header_byte (mkHeader PUBLISH 0 2 1)) body =
      Some (Some (Some (PPublish (mkPublish (mkHeader PUBLISH 0 2 1) (bs "hall/1") 6 513 [1; 2; 3; 255] 4 5 sample_props)))).
Proof.
  assert (H : props_sendable sample_props) by (split; [apply sample_props_ok|done]).
  split; [exact H|].
  assert (Hc : cstring_ok (bs "hall/1")) by (apply (bool_decide_eq_true_1 _); vm_compute; reflexivity).
  destruct (publish_roundtrip sample_publish 0 2 1) as (body & Hb & Hp);
    [unfold header_ok, PUBLISH; cbn; lia|exact Hc|done|unfold is_u16; cbn; lia|intros _; exact H
    |reflexivity|done|].
  exists body. split; [exact Hb|]. split; [|exact Hp].
  assert (E : drop 2 (MQTTPacket_send_publish sample_publish 0 2 1) = [0; 6] ++ bs "hall/1" ++ [2; 1] ++ write_props sample_props ++ [1; 2; 3; 255])
    by (vm_compute; reflexivity).
  assert (Hl : Z.of_nat (length (MQTTPacket_send_publish sample_publish 0 2 1)) < 128) by (vm_compute; reflexivity).
  rewrite Hb in Hl, E. cbn [length] in Hl. rewrite length_app in Hl.
  assert (He : MQTTPacket_encode (len body) = [len body mod 128]).
  { unfold MQTTPacket_encode. cbn [encode_loop]. by rewrite (Z.div_small (len body) 128) by lia. }
  rewrite He in E. exact E.
Defined.

(** The acknowledgements of the client (PUBACK, PUBREC, PUBREL, PUBCOMP) are
    four bytes that a receiver of any version parses as the same packet, with
    the message id and, for MQTT 5, the reason code success and no property;
    PUBREL alone carries QoS 1 in its header. *)
Theorem ack_roundtrip v type msgid dup :
  PUBACK ≤ type ≤ PUBCOMP → is_u16 msgid → 0 ≤ dup < 2 →
  let h := mkHeader type dup (if type =? PUBREL then 1 else 0) 0 in
  ∃ body, MQTTPacket_send_ack type msgid dup = [header_byte h; 2] ++ body ∧ length body = 2%nat ∧
    Factory_dispatch v (header_byte h) body =
      Some (Some (Some (PAck (if MQTTVERSION_5 <=? v
        then mkAck h (Some msgid) (Some MQTTREASONCODE_SUCCESS) v (Some MQTTProperties_initializer)
        else mkAck h (Some msgid) None v None)))).
Proof.
  intros Ht Hm Hd h. exists (writeInt msgid). split; [done|]. split; [done|].
  assert (Hh : header_ok h) by (unfold header_ok, h, PUBACK, PUBCOMP in *; simpl; case_leb).
  unfold Factory_dispatch. rewrite header_byte_of by done. cbn [h_type h].
  unfold PUBACK, PUBCOMP, PUBREL, CONNECT, DISCONNECT, AUTH, MQTTVERSION_5 in *.
  replace (_ || _ || _) with false; [|symmetry; case_leb; by rewrite ?andb_false_r].
  assert (Hn : new_packets type = Some (as_packet PAck MQTTPacket_ack)).
  { assert (type = 4 ∨ type = 5 ∨ type = 6 ∨ type = 7) as [->|[->|[->| ->]]] by lia; done. }
  rewrite Hn. unfold as_packet, MQTTPacket_ack, ack_reader, run_parser.
  rewrite header_byte_of by done. cbn [h_type h].
  rewrite (proj2 (Z.eqb_neq type DISCONNECT)) by (unfold DISCONNECT; lia).
  unfold mbind, reader_bind.
  pose proof (int_codec msgid [] [] 2 Hm ltac:(done)) as Hr. rewrite app_nil_r in Hr.
  change ([] ++ writeInt msgid) with (writeInt msgid) in Hr. change (len []) with 0 in Hr.
  rewrite Hr.
  unfold MQTTVERSION_5. by destruct (5 <=? v).
Qed.

Lemma ack_roundtrip_witness :
  PUBACK ≤ PUBREL ≤ PUBCOMP ∧ is_u16 513 ∧ 0 ≤ 1 < 2 ∧
  ∃ body, MQTTPacket_send_ack PUBREL 513 1 = [0x6A; 2] ++ body.
Proof.
  assert (H : is_u16 513) by (unfold is_u16; lia).
  split; [unfold PUBACK, PUBREL, PUBCOMP; lia|]. split; [exact H|]. split; [lia|].
  destruct (ack_roundtrip 4 PUBREL 513 1) as (body & Hb & _);
    [unfold PUBACK, PUBREL, PUBCOMP; lia|exact H|lia|].
  exists body. exact Hb.
Defined.

(** The packets that confirm a subscription: a SUBACK, and an UNSUBACK of
    MQTT 5, parse into their message id, properties and the list of all the
    codes in order; an UNSUBACK without codes is rejected, a SUBACK without
    codes makes the parser use the packet after freeing it. *)
Theorem suback_parse v hb msgid ps codes :
  is_u16 msgid → (MQTTVERSION_5 ≤ v → props_sendable ps) →
  let h := header_of_byte hb in
  let data := writeInt msgid ++ (if MQTTVERSION_5 <=? v then write_properties ps else []) ++ codes in
  let props := if MQTTVERSION_5 <=? v then Some ps else None in
  MQTTPacket_suback v hb data =
    (if len codes =? 0 then None else Some (Some (mkSuback h msgid v props (Some codes)))) ∧
  MQTTPacket_unsuback v hb data =
    Some (if MQTTVERSION_5 <=? v
          then if len codes =? 0 then None else Some (mkSuback h msgid v props (Some codes))
          else Some (mkSuback h msgid v None None)).
Proof.
  intros Hm Hps h data props.
  set (pr := if MQTTVERSION_5 <=? v then write_properties ps else []) in data.
  assert (Hl : len data = 2 + len pr + len codes) by (unfold data; lens).
  assert (Hr : readInt data 0 = Some (msgid, 2)) by
    (apply (int_codec msgid [] (pr ++ codes) 2 Hm); done).
  assert (Hc : codes_loop (length data) (len data) [] data (2 + len pr) = Some (codes, len data)).
  { apply (codes_loop_at _ _ (writeInt msgid ++ pr)); [by rewrite <-app_assoc|lens|lia]. }
  assert (Hp : (MQTTVERSION_5 <=? v) = true →
    read_properties (len data) data 2 = Some (Some ps, 2 + len pr)).
  { intros E. assert (Hpr : pr = write_properties ps) by (unfold pr; by rewrite E).
    rewrite Hpr. apply (read_properties_at ps data (writeInt msgid) codes);
      [apply Hps; lia|unfold data; by rewrite Hpr|done|rewrite <-Hpr; lia]. }
  unfold MQTTPacket_suback, MQTTPacket_unsuback, suback_reader, unsuback_reader, run_parser.
  unfold mbind, reader_bind. rewrite Hr. unfold props.
  destruct (MQTTVERSION_5 <=? v) eqn:E.
  - rewrite (Hp eq_refl). unfold mret, reader_ret. cbn [fmap option_fmap option_map].
    rewrite Hc. by destruct (_ =? 0).
  - replace (2 + len pr) with 2 in Hc by (unfold pr; simpl; lia).
    unfold mret, reader_ret. rewrite Hc. by destruct (_ =? 0).
Qed.

Lemma suback_parse_witness :
  is_u16 7 ∧ props_sendable sample_props ∧
  MQTTPacket_suback 5 0x90 (writeInt 7 ++ write_properties sample_props ++ [0; 1; 0x80]) =
    Some (Some (mkSuback (mkHeader SUBACK 0 0 0) 7 5 (Some sample_props) (Some [0; 1; 0x80]))).
Proof.
  assert (H : props_sendable sample_props) by (split; [apply sample_props_ok|done]).
  assert (H7 : is_u16 7) by (unfold is_u16; lia).
  split; [exact H7|]. split; [exact H|].
  exact (proj1 (suback_parse 5 0x90 7 sample_props [0; 1; 0x80] H7 (λ _, H))).
Defined.

(** The data that the MQTT 3 parser of a packet needs to stay inside it. *)
Definition v3_inside (h : Header) (data : list Z) : Prop :=
  let ptype := h_type h in
  if (ptype =? CONNACK) || ((PUBACK <=? ptype) && (ptype <=? PUBCOMP)) || (ptype =? UNSUBACK)
  then 2 ≤ len data
  else if ptype =? SUBACK then 3 ≤ len data
  else if ptype =? PUBLISH
  then h_qos h = 0 ∨ len data < 2 ∨
       ∃ n, readInt data 0 = Some (n, 2) ∧ (len data < 2 + n ∨ 2 + n + 2 ≤ len data)
  else True.

Lemma publish_v3_fault v hb data : v < MQTTVERSION_5 → bytes_ok data →
  MQTTPacket_publish v hb data = None ↔
    ¬ (h_qos (header_of_byte hb) = 0 ∨ len data < 2 ∨
       ∃ n, readInt data 0 = Some (n, 2) ∧ (len data < 2 + n ∨ 2 + n + 2 ≤ len data)).
Proof.
  intros Hv Hok. unfold MQTTPacket_publish, publish_reader, run_parser.
  unfold mbind, reader_bind, readUTFlen, mbind, reader_bind, tell.
  rewrite (proj2 (Z.leb_gt _ _)) by done. rewrite Z.sub_0_r.
  assert (Hq : 0 ≤ h_qos (header_of_byte hb)).
  { unfold header_of_byte. cbn [h_qos]. apply Z.land_nonneg. lia. }
  destruct (Z.ltb_spec 1 (len data)) as [H1|H1]; [|split; [done|]; intros []; right; left; lia].
  destruct (readInt data 0) as [[n p]|] eqn:Hr; [|apply readInt_none in Hr; lia].
  destruct (readInt_inv _ _ _ _ Hok Hr) as (Hn & ->).
  change (0 + 2) with 2 in *.
  destruct (Z.leb_spec (2 + n) (len data)) as [H2|H2].
  - unfold read_bytes. rewrite decide_True by lia. unfold mret, reader_ret.
    destruct (Z.ltb_spec 0 (h_qos (header_of_byte hb))) as [H3|H3].
    + destruct (readInt data (2 + n)) as [[i p]|] eqn:Hi.
      * split; [done|]. intros []. right. right. exists n. split; [done|]. right.
        destruct (decide (len data < 2 + n + 2)) as [Hs|]; [|lia].
        apply readInt_none in Hs; [congruence|lia].
      * split; [|done]. intros _ [H4|[H4|(m & Hm & H4)]]; [lia|lia|].
        assert (m = n) as -> by congruence. apply readInt_none in Hi; lia.
    + split; [done|]. intros []. left. lia.
  - split; [done|]. intros []. right. right. exists n. split; [done|]. by left.
Qed.

Lemma ack_v3_fault v hb data : v < MQTTVERSION_5 → h_type (header_of_byte hb) ≠ DISCONNECT →
  MQTTPacket_ack v hb data = None ↔ len data < 2.
Proof.
  intros Hv Ht. rewrite <-(readInt_none data 0) by lia.
  unfold MQTTPacket_ack, ack_reader, run_parser, mbind, reader_bind.
  rewrite (proj2 (Z.eqb_neq _ _)) by done. rewrite (proj2 (Z.leb_gt _ _)) by done.
  by destruct (readInt data 0) as [[n p]|].
Qed.

Lemma connack_v3_fault v hb data : v < MQTTVERSION_5 →
  MQTTPacket_connack v hb data = None ↔ len data < 2.
Proof.
  intros Hv. unfold MQTTPacket_connack, connack_reader, run_parser, mbind, reader_bind, readChar.
  rewrite (proj2 (Z.ltb_lt _ _)) by done.
  destruct (decide (len data < 2)) as [Hl|Hl].
  - split; [done|]. intros _. destruct (peek data 0); [|done]. by rewrite (peek_None data (0 + 1)) by lia.
  - destruct (peek_is_Some data 0) as [a ->]; [lia|].
    destruct (peek_is_Some data (0 + 1)) as [b ->]; [lia|]. split; [done|lia].
Qed.

Lemma suback_v3_fault v hb data : v < MQTTVERSION_5 →
  (MQTTPacket_suback v hb data = None ↔ len data < 3) ∧
  (MQTTPacket_unsuback v hb data = None ↔ len data < 2).
Proof.
  intros Hv. rewrite <-(readInt_none data 0) by lia.
  unfold MQTTPacket_suback, MQTTPacket_unsuback, suback_reader, unsuback_reader, run_parser,
    mbind, reader_bind.
  rewrite (proj2 (Z.leb_gt _ _)) by done.
  destruct (readInt data 0) as [[n p]|] eqn:Hr.
  - assert (Hl : ¬ len data < 2) by (intros Hl; apply (readInt_none data 0) in Hl; congruence || lia).
    assert (Hp : p = 2).
    { unfold readInt in Hr. destruct (peek data 0), (peek data (0 + 1)); by simplify_eq. }
    subst p. unfold mret, reader_ret. split; [|done].
    destruct (codes_loop_total (length data) data [] 2) as (codes & -> & Hc); [lia..|].
    cbn [app]. destruct (Z.eqb_spec (len codes) 0); split; try done; lia.
  - apply (readInt_none data 0) in Hr; [|lia]. split; [split; [lia|done]|done].
Qed.

Lemma header_type_bound hb : 0 ≤ h_type (header_of_byte hb) < 16.
Proof.
  unfold header_of_byte. cbn [h_type]. change 15 with (Z.ones 4). rewrite Z.land_ones by lia. lia.
Qed.

(** For MQTT 3.1 and 3.1.1 the parsers read outside of the packet (or use
    freed memory) exactly on the packets that are too short for their type;
    there is no length test before the message id and the flags are read. *)
Theorem Factory_v3_inside v hb data : v < MQTTVERSION_5 → bytes_ok data →
  Factory_dispatch v hb data = None ↔ ¬ v3_inside (header_of_byte hb) data.
Proof.
  intros Hv Hok. unfold Factory_dispatch, v3_inside.
  pose proof (header_type_bound hb) as Ht.
  pose proof (publish_v3_fault v hb data Hv Hok) as Hpub.
  pose proof (ack_v3_fault v hb data Hv) as Hack. pose proof (connack_v3_fault v hb data Hv) as Hcon.
  pose proof (suback_v3_fault v hb data Hv) as [Hsub Huns].
  rewrite (proj2 (Z.ltb_lt v _)) by done. rewrite (proj2 (Z.leb_gt _ v)) by done.
  set (t := h_type (header_of_byte hb)) in *.
  assert (t = 0 ∨ t = 1 ∨ t = 2 ∨ t = 3 ∨ t = 4 ∨ t = 5 ∨ t = 6 ∨ t = 7 ∨ t = 8 ∨ t = 9 ∨ t = 10
    ∨ t = 11 ∨ t = 12 ∨ t = 13 ∨ t = 14 ∨ t = 15) as Hcases by lia.
  repeat (destruct Hcases as [Hcases|Hcases]); rewrite Hcases in *; clearbody t;
    cbn -[MQTTPacket_publish MQTTPacket_ack MQTTPacket_connack MQTTPacket_suback
          MQTTPacket_unsuback as_packet]; unfold as_packet; try (split; [done|tauto]).
  - destruct (MQTTPacket_connack v hb data); cbn; rewrite <-Z.lt_nge, <-Hcon; done.
  - destruct (MQTTPacket_publish v hb data); cbn; rewrite <-Hpub; done.
  - destruct (MQTTPacket_ack v hb data); cbn; rewrite <-Z.lt_nge, <-Hack; done.
  - destruct (MQTTPacket_ack v hb data); cbn; rewrite <-Z.lt_nge, <-Hack; done.
  - destruct (MQTTPacket_ack v hb data); cbn; rewrite <-Z.lt_nge, <-Hack; done.
  - destruct (MQTTPacket_ack v hb data); cbn; rewrite <-Z.lt_nge, <-Hack; done.
  - destruct (MQTTPacket_suback v hb data); cbn; rewrite <-Z.lt_nge, <-Hsub; done.
  - destruct (MQTTPacket_unsuback v hb data); cbn; rewrite <-Z.lt_nge, <-Huns; done.
Qed.

(** A PUBACK of one byte makes the parser read past the packet. *)
Lemma Factory_v3_inside_witness :
  bytes_ok [1] ∧ Factory_dispatch 4 0x40 [1] = None.
Proof.
  assert (H : bytes_ok [1]) by (repeat constructor; unfold is_byte; lia).
  split; [exact H|]. apply (proj2 (Factory_v3_inside 4 0x40 [1] ltac:(done) H)).
  unfold v3_inside. simpl. lia.
Defined.

End Packets.
