(* ===== verification/LinkedList.v ===== *)
(** * The doubly linked lists (paho.mqtt.c/src/LinkedList.c)

    The operations on a heap of list elements with their [prev] and [next]
    pointers, and their refinement of operations on sequences: every other
    component keeps its clients, messages, commands and buffers in such lists. *)
From S2P Require Import Prelude.

Module LinkedLists.

(** ** Data

    Addresses of elements are [positive]; a content is an address, 0 is NULL. *)

Record ListElement := mkElem { prev : option positive; next : option positive; content : Z }.

Record List := mkList {
  first : option positive;
  last : option positive;
  current : option positive;
  count : Z;
  size : Z
}.

#[export] Instance ListElement_eq_dec : EqDecision ListElement.
Proof. solve_decision. Defined.
#[export] Instance List_eq_dec : EqDecision List.
Proof. solve_decision. Defined.

(** The elements allocated, the list structure, and the contents given to
    [free], latest first. *)
Record state := mkState { elems : gmap positive ListElement; aList : List; freed : list Z }.

(** Statements on the state; [None] is an access through NULL or to an element
    that is not allocated. *)
Definition cmd (A : Type) : Type := state → option (A * state).

#[export] Instance cmd_ret : MRet cmd := λ A a s, Some (a, s).
#[export] Instance cmd_bind : MBind cmd := λ A B k m s,
  match m s with Some (a, s') => k a s' | None => None end.

Definition get_list : cmd List := λ s, Some (aList s, s).
Definition set_list (l : List) : cmd () := λ s, Some ((), mkState (elems s) l (freed s)).
Definition deref (p : option positive) : cmd ListElement := λ s,
  match p with
  | Some l => match elems s !! l with Some e => Some (e, s) | None => None end
  | None => None
  end.
Definition store (l : positive) (e : ListElement) : cmd () := λ s,
  Some ((), mkState (<[l:=e]> (elems s)) (aList s) (freed s)).
Definition free_elem (p : option positive) : cmd () := λ s,
  match p with
  | Some l =>
      match elems s !! l with
      | Some _ => Some ((), mkState (delete l (elems s)) (aList s) (freed s))
      | None => None
      end
  | None => Some ((), s)
  end.
(** [free] of a content: nothing happens for NULL. *)
Definition free_content (c : Z) : cmd () := λ s,
  Some ((), mkState (elems s) (aList s) (if c =? 0 then freed s else c :: freed s)).

Definition set_first (p : option positive) : cmd () :=
  l ← get_list; set_list (mkList p (last l) (current l) (count l) (size l)).
Definition set_last (p : option positive) : cmd () :=
  l ← get_list; set_list (mkList (first l) p (current l) (count l) (size l)).
Definition set_current (p : option positive) : cmd () :=
  l ← get_list; set_list (mkList (first l) (last l) p (count l) (size l)).
Definition add_count (n sz : Z) : cmd () :=
  l ← get_list; set_list (mkList (first l) (last l) (current l) (count l + n) (u64 (size l + sz))).

Definition set_next (p q : option positive) : cmd () :=
  e ← deref p;
  match p with Some l => store l (mkElem (prev e) q (content e)) | None => mret () end.
Definition set_prev (p q : option positive) : cmd () :=
  e ← deref p;
  match p with Some l => store l (mkElem q (next e) (content e)) | None => mret () end.

Definition is_null (p : option positive) : bool := match p with None => true | Some _ => false end.

(** ** Operations *)

Definition ListZero : List := mkList None None None 0 0.
Definition ListInitialize : state := mkState ∅ ListZero [].

(** [newel] is an allocated element of the caller: its fields are overwritten. *)
Definition ListAppendNoMalloc (c : Z) (newel : positive) (sz : Z) : cmd () :=
  l ← get_list;
  store newel (mkElem (last l) None c);;
  (if is_null (first l) then set_first (Some newel) else set_next (last l) (Some newel));;
  set_last (Some newel);;
  add_count 1 sz.

(** [mem] is the result of [malloc]. *)
Definition ListAppend (c sz : Z) (mem : option positive) : cmd (option positive) :=
  match mem with
  | Some newel => ListAppendNoMalloc c newel sz;; mret (Some newel)
  | None => mret None
  end.

Definition ListInsert (c sz : Z) (index mem : option positive) : cmd (option positive) :=
  match mem with
  | None => mret None
  | Some newel =>
      match index with
      | None => ListAppendNoMalloc c newel sz;; mret (Some newel)
      | Some i =>
          e ← deref index;
          store newel (mkElem (prev e) index c);;
          set_prev index (Some newel);;
          (if is_null (prev e) then set_first (Some newel) else set_next (prev e) (Some newel));;
          add_count 1 sz;;
          mret (Some newel)
      end
  end.

Definition ListNextElement (pos : option positive) : cmd (option positive) :=
  match pos with
  | None => l ← get_list; mret (first l)
  | Some _ => e ← deref pos; mret (next e)
  end.

Definition ListPrevElement (pos : option positive) : cmd (option positive) :=
  match pos with
  | None => l ← get_list; mret (last l)
  | Some _ => e ← deref pos; mret (prev e)
  end.

(** The comparison of an element: by address without a callback. *)
Definition matches (callback : option (Z → Z → bool)) (c d : Z) : bool :=
  match callback with None => d =? c | Some f => f d c end.

(** [while (ListNextElement(aList, &current) != NULL)]: at most one turn per
    element and the last one; [fuel] is more than their number. *)
Fixpoint find_loop (fuel : nat) (c : Z) (callback : option (Z → Z → bool)) (pos : option positive)
    : cmd (option positive) :=
  match fuel with
  | O => λ s, None
  | S fuel' =>
      pos' ← ListNextElement pos;
      if is_null pos' then mret None
      else
        e ← deref pos';
        if matches callback c (content e) then mret pos' else find_loop fuel' c callback pos'
  end.

Definition elem_count : cmd nat := λ s, Some (Datatypes.S (base.size (elems s)), s).

Definition ListFindItem (c : Z) (callback : option (Z → Z → bool)) : cmd (option positive) :=
  l ← get_list;
  cached ← (if is_null (current l) then mret false
            else e ← deref (current l); mret (matches callback c (content e)));
  if (cached : bool) then mret (current l)
  else
    fuel ← elem_count;
    rc ← find_loop fuel c callback None;
    (if is_null rc then mret () else set_current rc);;
    mret rc.

Definition ListFind (c : Z) : cmd (option positive) := ListFindItem c None.

Definition ListUnlink (c : Z) (callback : option (Z → Z → bool)) (freeContent : bool) : cmd Z :=
  l0 ← get_list;
  let saved := current l0 in
  found ← ListFindItem c callback;
  if is_null found then mret 0
  else
    l ← get_list;
    let cur := current l in
    e ← deref cur;
    (if is_null (prev e) then set_first (next e) else set_next (prev e) (next e));;
    (if is_null (next e) then set_last (prev e) else set_prev (next e) (prev e));;
    (if freeContent then free_content (content e) else mret ());;
    free_elem cur;;
    set_current (if decide (saved = cur) then next e else saved);;
    add_count (-1) 0;;
    mret 1.

Definition ListDetach (c : Z) : cmd Z := ListUnlink c None false.
Definition ListRemove (c : Z) : cmd Z := ListUnlink c None true.
Definition ListDetachItem (c : Z) callback : cmd Z := ListUnlink c callback false.
Definition ListRemoveItem (c : Z) callback : cmd Z := ListUnlink c callback true.

Definition ListDetachHead : cmd Z :=
  l ← get_list;
  if 0 <? count l then
    let f := first l in
    e ← deref f;
    (if decide (current l = f) then set_current (next e) else mret ());;
    (if decide (last l = f) then set_last None else mret ());;
    set_first (next e);;
    (if is_null (next e) then mret () else set_prev (next e) None);;
    free_elem f;;
    add_count (-1) 0;;
    mret (content e)
  else mret 0.

Definition ListRemoveHead : cmd Z := c ← ListDetachHead; free_content c;; mret 0.

Definition ListPopTail : cmd Z :=
  l ← get_list;
  if 0 <? count l then
    let t := last l in
    e ← deref t;
    (if decide (current l = t) then set_current (prev e) else mret ());;
    (if decide (first l = t) then set_first None else mret ());;
    set_last (prev e);;
    (if is_null (prev e) then mret () else set_next (prev e) None);;
    free_elem t;;
    add_count (-1) 0;;
    mret (content e)
  else mret 0.

Fixpoint empty_loop (fuel : nat) (with_content : bool) : cmd () :=
  match fuel with
  | O => λ s, None
  | S fuel' =>
      l ← get_list;
      if is_null (first l) then mret ()
      else
        e ← deref (first l);
        (if with_content then free_content (content e) else mret ());;
        set_first (next e);;
        free_elem (first l);;
        empty_loop fuel' with_content
  end.

Definition ListEmpty : cmd () :=
  fuel ← elem_count;
  empty_loop fuel true;;
  set_list ListZero.

(** [ListFree] and [ListFreeNoContent]: what is left of the elements. *)
Definition ListFree : cmd () := ListEmpty.
Definition ListFreeNoContent : cmd () := fuel ← elem_count; empty_loop fuel false.

Definition intcompare (mem : Z → Z) (a b : Z) : bool := mem a =? mem b.
Definition stringcompare (mem : Z → list Z) (a b : Z) : bool := bool_decide (mem a = mem b).

(** ** Representation

    The list holds the sequence [xs] of elements with their contents. *)

Abbreviation node := (positive * Z)%type.
Abbreviation locs xs := (fst <$> (xs : list node)).

Definition hd_loc (xs : list node) (n : option positive) : option positive :=
  match xs with [] => n | (l, _) :: _ => Some l end.
Definition last_loc (p : option positive) (xs : list node) : option positive :=
  match list.last xs with Some (l, _) => Some l | None => p end.

Fixpoint dlseg (h : gmap positive ListElement) (p : option positive) (xs : list node)
    (n : option positive) : Prop :=
  match xs with
  | [] => True
  | (l, c) :: xs' => h !! l = Some (mkElem p (hd_loc xs' n) c) ∧ dlseg h (Some l) xs' n
  end.

Record represents (s : state) (xs : list node) : Prop := {
  rep_nodup : NoDup (locs xs);
  rep_seg : dlseg (elems s) None xs None;
  rep_first : first (aList s) = hd_loc xs None;
  rep_last : last (aList s) = last_loc None xs;
  rep_count : count (aList s) = len xs;
  rep_current : ∀ l, current (aList s) = Some l → l ∈ locs xs
}.

(** Everything outside the list is untouched. *)
Definition frame (xs : list node) (s s' : state) : Prop :=
  ∀ l, l ∉ locs xs → elems s' !! l = elems s !! l.

(** ** Lemmas: segments *)

Lemma locs_app xs ys : locs (xs ++ ys) = locs xs ++ locs ys.
Proof. apply fmap_app. Qed.

Lemma hd_loc_app xs ys n : hd_loc (xs ++ ys) n = hd_loc xs (hd_loc ys n).
Proof. by destruct xs as [|[]]. Qed.

Lemma last_loc_app p xs ys : last_loc p (xs ++ ys) = last_loc (last_loc p xs) ys.
Proof.
  unfold last_loc. rewrite last_app. by destruct (list.last ys) as [[]|].
Qed.

Lemma last_loc_cons p l c xs : last_loc p ((l, c) :: xs) = last_loc (Some l) xs.
Proof. apply (last_loc_app p [(l, c)] xs). Qed.

Lemma dlseg_app h xs ys : ∀ p n,
  dlseg h p (xs ++ ys) n ↔ dlseg h p xs (hd_loc ys n) ∧ dlseg h (last_loc p xs) ys n.
Proof.
  induction xs as [|[l c] xs IH]; intros p n; [by cbn; tauto|].
  cbn [app dlseg]. rewrite IH, hd_loc_app, last_loc_cons. tauto.
Qed.

Lemma dlseg_ext h h' xs : ∀ p n, (∀ l, l ∈ locs xs → h' !! l = h !! l) →
  dlseg h p xs n → dlseg h' p xs n.
Proof.
  induction xs as [|[l c] xs IH]; intros p n Hext; [done|]. rewrite fmap_cons in Hext.
  intros [Hl Hs]. split; [rewrite Hext by set_solver; done|].
  apply IH; [|done]. intros l' Hl'. apply Hext. set_solver.
Qed.

Lemma dlseg_elem h xs p n l : dlseg h p xs n → l ∈ locs xs → is_Some (h !! l).
Proof.
  revert p. induction xs as [|[l' c] xs IH]; intros p; [by intros _ ?%elem_of_nil|].
  intros [Hl Hs] [->|Hin]%elem_of_cons; [by eexists|by eapply IH].
Qed.

Lemma last_loc_elem xs q : last_loc None xs = Some q → q ∈ locs xs.
Proof.
  unfold last_loc. destruct (list.last xs) as [[l c]|] eqn:E; [|done]. intros [= ->].
  apply last_Some in E as [xs' ->]. rewrite locs_app. set_solver.
Qed.

Lemma hd_loc_elem xs q : hd_loc xs None = Some q → q ∈ locs xs.
Proof. destruct xs as [|[l c] xs]; [done|]. intros [= ->]. set_solver. Qed.

Lemma last_loc_none xs : last_loc None xs = None → xs = [].
Proof. destruct xs as [|x xs] using rev_ind; [done|]. unfold last_loc. rewrite last_snoc. by destruct x. Qed.

Lemma last_loc_ne p p' xs : xs ≠ [] → last_loc p xs = last_loc p' xs.
Proof.
  destruct xs as [|[l c] xs]; [done|]. intros _. by rewrite !last_loc_cons.
Qed.

(** Redirecting the [next] of the last element, the [prev] of the first one. *)
Lemma dlseg_set_next h xs p n q n' : NoDup (locs xs) → dlseg h p xs n → last_loc None xs = Some q →
  ∃ e, h !! q = Some e ∧ dlseg (<[q:=mkElem (prev e) n' (content e)]> h) p xs n'.
Proof.
  intros Hnd Hseg Hq. destruct xs as [|[l c] xs _] using rev_ind; [done|].
  unfold last_loc in Hq. rewrite last_snoc in Hq. apply (inj Some) in Hq as ->.
  apply dlseg_app in Hseg as [Hxs [Hl _]]. eexists. split; [done|]. cbn [prev content].
  rewrite locs_app in Hnd. apply NoDup_app in Hnd as (_ & Hnot & _).
  apply dlseg_app. split; [|split; [by rewrite lookup_insert_eq|done]].
  eapply dlseg_ext; [|exact Hxs]. intros l' Hl'. rewrite lookup_insert_ne; [done|].
  intros <-. eapply Hnot; [exact Hl'|]. set_solver.
Qed.

Lemma dlseg_set_prev h xs p n q p' : NoDup (locs xs) → dlseg h p xs n → hd_loc xs None = Some q →
  ∃ e, h !! q = Some e ∧ dlseg (<[q:=mkElem p' (next e) (content e)]> h) p' xs n.
Proof.
  destruct xs as [|[l c] xs]; [done|]. rewrite fmap_cons. intros [Hl Hnd]%NoDup_cons [Hh Hseg] [= <-].
  eexists. split; [done|]. cbn [next content]. split; [by rewrite lookup_insert_eq|].
  eapply dlseg_ext; [|exact Hseg]. intros l' Hl'. rewrite lookup_insert_ne; [done|]. by intros <-.
Qed.

(** The two halves of linking: what the code writes at the end of [xs], and at
    the start of [ys]. *)
Lemma link_next_ok s xs n q : NoDup (locs xs) → dlseg (elems s) None xs n →
  (xs ≠ [] → first (aList s) = hd_loc xs None) →
  ∃ h', (if is_null (last_loc None xs) then set_first q else set_next (last_loc None xs) q) s =
      Some ((), mkState h' (mkList (hd_loc xs q) (last (aList s)) (current (aList s))
        (count (aList s)) (size (aList s))) (freed s)) ∧
    dlseg h' None xs q ∧ (∀ l, l ∉ locs xs → h' !! l = elems s !! l).
Proof.
  intros Hnd Hseg Hf. destruct (last_loc None xs) as [r|] eqn:Hr; cbn [is_null].
  - destruct (dlseg_set_next _ xs None n r q Hnd Hseg Hr) as (e & He & Hseg').
    eexists. unfold set_next, mbind, cmd_bind, deref. rewrite He. unfold store.
    assert (Hne : xs ≠ []) by (by intros ->).
    replace (hd_loc xs q) with (first (aList s)) by (rewrite Hf by done; by destruct xs as [|[]]).
    destruct s as [h [f la cu co si] fr]. split; [done|]. split; [done|].
    intros l Hl. rewrite lookup_insert_ne; [done|]. intros <-. by apply Hl, last_loc_elem.
  - apply last_loc_none in Hr as ->. exists (elems s). done.
Qed.

Lemma link_prev_ok s ys p p' n : NoDup (locs ys) → dlseg (elems s) p ys n →
  (ys ≠ [] → last (aList s) = last_loc p ys) →
  ∃ h', (if is_null (hd_loc ys None) then set_last p' else set_prev (hd_loc ys None) p') s =
      Some ((), mkState h' (mkList (first (aList s)) (last_loc p' ys) (current (aList s))
        (count (aList s)) (size (aList s))) (freed s)) ∧
    dlseg h' p' ys n ∧ (∀ l, l ∉ locs ys → h' !! l = elems s !! l).
Proof.
  intros Hnd Hseg Hf. destruct (hd_loc ys None) as [r|] eqn:Hr; cbn [is_null].
  - destruct (dlseg_set_prev _ ys p n r p' Hnd Hseg Hr) as (e & He & Hseg').
    eexists. unfold set_prev, mbind, cmd_bind, deref. rewrite He. unfold store.
    assert (Hne : ys ≠ []) by (by intros ->).
    rewrite (last_loc_ne p' p) by done. rewrite <-Hf by done.
    destruct s as [h [f la cu co si] fr]. split; [done|]. split; [done|].
    intros l Hl. rewrite lookup_insert_ne; [done|]. intros <-. by apply Hl, hd_loc_elem.
  - destruct ys as [|[]]; [|done]. exists (elems s). done.
Qed.

(** An element of a list splits it. *)
Lemma locs_split xs l : l ∈ locs xs → ∃ xs1 c xs2, xs = xs1 ++ (l, c) :: xs2.
Proof.
  intros ([l' c] & -> & Hin)%list_elem_of_fmap. apply list_elem_of_split in Hin as (xs1 & xs2 & ->).
  by exists xs1, c, xs2.
Qed.

Lemma represents_split s xs1 l c xs2 : represents s (xs1 ++ (l, c) :: xs2) →
  NoDup (locs xs1) ∧ NoDup (locs xs2) ∧ l ∉ locs xs1 ∧ l ∉ locs xs2 ∧
  (∀ l', l' ∈ locs xs1 → l' ∉ locs xs2) ∧
  dlseg (elems s) None xs1 (Some l) ∧
  elems s !! l = Some (mkElem (last_loc None xs1) (hd_loc xs2 None) c) ∧
  dlseg (elems s) (Some l) xs2 None.
Proof.
  intros [Hnd Hseg _ _ _ _]. rewrite locs_app, fmap_cons in Hnd.
  apply NoDup_app in Hnd as (H1 & Hdisj & [Hl H2]%NoDup_cons).
  apply dlseg_app in Hseg as [Hs1 [He Hs2]].
  do 2 (split; [done|]). split; [intros ?; eapply Hdisj; [done|set_solver]|].
  split; [done|]. split; [|done]. intros l' Hl' Hin. eapply Hdisj; [done|set_solver].
Qed.

(** ** Lemmas: operations *)

(** The parts of the state that an operation keeps. *)
Record untouched (xs : list node) (s s' : state) : Prop := {
  un_frame : frame xs s s';
  un_freed : freed s' = freed s;
  un_current : current (aList s') = current (aList s)
}.

Lemma append_ok s xs c newel sz : represents s xs → newel ∉ locs xs →
  ∃ s', ListAppendNoMalloc c newel sz s = Some ((), s') ∧ represents s' (xs ++ [(newel, c)]) ∧
    untouched (xs ++ [(newel, c)]) s s'.
Proof.
  intros [Hnd Hseg Hf Hl Hc Hcur] Hnew.
  pose (s1 := mkState (<[newel := mkElem (last (aList s)) None c]> (elems s)) (aList s) (freed s)).
  assert (Hseg1 : dlseg (elems s1) None xs None).
  { eapply dlseg_ext; [|exact Hseg]. intros l Hin. cbn. rewrite lookup_insert_ne; [done|]. by intros <-. }
  destruct (link_next_ok s1 xs None (Some newel) Hnd Hseg1 (λ _, Hf)) as (h' & Hrun & Hseg' & Hext).
  unfold ListAppendNoMalloc, mbind, cmd_bind, get_list, store. fold s1.
  assert (Hnull : is_null (first (aList s)) = is_null (last_loc None xs)).
  { rewrite Hf. destruct xs as [|x xs _] using rev_ind; [done|]. unfold last_loc. rewrite last_snoc.
    destruct x. by destruct xs as [|[]]. }
  rewrite Hnull, Hl, Hrun. unfold set_last, add_count, mbind, cmd_bind, get_list, set_list. cbn.
  eexists. split; [done|]. split; [split|split]; cbn.
  - rewrite locs_app. apply NoDup_app. split; [done|]. split; [set_solver|]. apply NoDup_singleton.
  - apply dlseg_app. split; [done|]. split; [|done].
    rewrite Hext by done. cbn. rewrite lookup_insert_eq. by rewrite Hl.
  - by rewrite hd_loc_app.
  - rewrite last_loc_app. done.
  - rewrite Hc. lens.
  - intros l Hin%Hcur. rewrite locs_app. set_solver.
  - intros l Hin. rewrite locs_app in Hin. cbn. rewrite Hext by set_solver. cbn.
    rewrite lookup_insert_ne; [done|]. set_solver.
  - done.
  - done.
Qed.

Lemma insert_ok s xs1 i ci xs2 c newel sz : represents s (xs1 ++ (i, ci) :: xs2) →
  newel ∉ locs (xs1 ++ (i, ci) :: xs2) →
  ∃ s', ListInsert c sz (Some i) (Some newel) s = Some (Some newel, s') ∧
    represents s' (xs1 ++ (newel, c) :: (i, ci) :: xs2) ∧
    untouched (xs1 ++ (newel, c) :: (i, ci) :: xs2) s s'.
Proof.
  intros Hrep Hnew.
  destruct (represents_split _ _ _ _ _ Hrep) as (Hn1 & Hn2 & Hi1 & Hi2 & Hdisj & Hs1 & Hi & Hs2).
  destruct Hrep as [Hnd Hseg Hf Hl Hc Hcur].
  rewrite locs_app, fmap_cons, not_elem_of_app, not_elem_of_cons in Hnew. cbn [fst] in Hnew.
  destruct Hnew as (Hnew1 & Hne & Hnew2).
  unfold ListInsert, mbind, cmd_bind, deref at 1. rewrite Hi. cbn [prev].
  unfold store at 1.
  set (h1 := <[newel := mkElem (last_loc None xs1) (Some i) c]> (elems s)).
  assert (Hi1' : h1 !! i = elems s !! i) by (unfold h1; rewrite lookup_insert_ne; done).
  unfold set_prev, mbind, cmd_bind, deref at 1. cbn [elems]. rewrite Hi1', Hi. unfold store. cbn [elems aList freed next content].
  set (h2 := <[i := _]> h1).
  set (s2 := mkState h2 (aList s) (freed s)).
  assert (Hs12 : dlseg (elems s2) None xs1 (Some i)).
  { eapply dlseg_ext; [|exact Hs1]. intros l Hin. unfold s2, h2, h1. cbn.
    rewrite !lookup_insert_ne; [done|..]; intros <-; done. }
  destruct (link_next_ok s2 xs1 (Some i) (Some newel) Hn1 Hs12) as (h' & Hrun & Hseg' & Hext).
  { intros Hne1. cbn. rewrite Hf, hd_loc_app. by destruct xs1 as [|[]]. }
  rewrite Hrun. unfold add_count, mbind, cmd_bind, get_list, set_list, mret, cmd_ret. cbn.
  eexists. split; [done|].
  assert (Hkeep : ∀ l, l ∉ locs xs1 → l ≠ i → l ≠ newel → h' !! l = elems s !! l).
  { intros l H1 H2 H3. rewrite Hext by done. unfold s2, h2, h1. cbn. by rewrite !lookup_insert_ne. }
  split; [split|split]; cbn.
  - rewrite locs_app, !fmap_cons. rewrite locs_app, fmap_cons in Hnd.
    apply NoDup_app in Hnd as (_ & Hd & Hnd). apply NoDup_app. split; [done|]. split.
    + intros l Hin. cbn. rewrite not_elem_of_cons. split; [set_solver|by apply Hd].
    + constructor; [|done]. cbn. set_solver.
  - apply dlseg_app. split; [done|]. cbn [dlseg hd_loc]. split; [|split].
    + rewrite Hext by done. unfold s2, h2, h1. cbn. rewrite lookup_insert_ne by done.
      by rewrite lookup_insert_eq.
    + rewrite Hext by done. unfold s2, h2. cbn. by rewrite lookup_insert_eq.
    + eapply dlseg_ext; [|exact Hs2]. intros l Hin. apply Hkeep; [|set_solver..].
      intros ?. by eapply Hdisj.
  - by rewrite hd_loc_app.
  - rewrite Hl, !last_loc_app, !last_loc_cons. done.
  - rewrite Hc. lens.
  - intros l Hin%Hcur. rewrite locs_app, fmap_cons in Hin. rewrite locs_app, !fmap_cons. set_solver.
  - intros l Hin. rewrite locs_app, !fmap_cons in Hin. apply Hkeep; set_solver.
  - done.
  - done.
Qed.

(** ** Searching *)

Fixpoint first_match (m : Z → bool) (xs : list node) : option node :=
  match xs with
  | [] => None
  | (l, c) :: xs' => if m c then Some (l, c) else first_match m xs'
  end.

Fixpoint node_at (l : positive) (xs : list node) : option node :=
  match xs with
  | [] => None
  | (l', c) :: xs' => if decide (l = l') then Some (l', c) else node_at l xs'
  end.

(** The element a search answers: the cached one if it matches, or else the
    first one that does. *)
Definition search (m : Z → bool) (cur : option positive) (xs : list node) : option node :=
  match cur ≫= λ l, node_at l xs with
  | Some (l, c) => if m c then Some (l, c) else first_match m xs
  | None => first_match m xs
  end.

Lemma first_match_split m xs l c : first_match m xs = Some (l, c) → m c = true ∧ (l, c) ∈ xs.
Proof.
  induction xs as [|[l' c'] xs IH]; cbn; [done|]. destruct (m c') eqn:Hm; [intros [= <- <-]; set_solver|].
  intros [? ?]%IH. set_solver.
Qed.

Lemma node_at_elem l xs x : node_at l xs = Some x → fst x = l ∧ x ∈ xs.
Proof.
  induction xs as [|[l' c'] xs IH]; cbn; [done|]. case_decide as Hl; [intros [= <-]; set_solver|].
  intros [? ?]%IH. set_solver.
Qed.

Lemma node_at_some l xs : l ∈ locs xs → is_Some (node_at l xs).
Proof.
  induction xs as [|[l' c'] xs IH]; cbn; [by intros ?%elem_of_nil|].
  case_decide as Hl; [by eexists|]. intros [?|?]%elem_of_cons; [done|by apply IH].
Qed.

Lemma search_elem m cur xs l c : search m cur xs = Some (l, c) → m c = true ∧ (l, c) ∈ xs.
Proof.
  unfold search. destruct (cur ≫= _) as [[l' c']|] eqn:Hc; [|apply first_match_split].
  destruct (m c') eqn:Hm; [|apply first_match_split]. intros [= <- <-].
  destruct cur as [k|]; [|done]. by apply node_at_elem in Hc as [_ ?].
Qed.

Lemma dlseg_at h xs p n l c : dlseg h p xs n → (l, c) ∈ xs → ∃ e, h !! l = Some e ∧ content e = c.
Proof.
  intros Hs (xs1 & xs2 & ->)%list_elem_of_split. apply dlseg_app in Hs as [_ [Hl _]]. eauto.
Qed.

Lemma represents_size s xs : represents s xs → (length xs < Datatypes.S (base.size (elems s)))%nat.
Proof.
  intros [Hnd Hseg _ _ _ _]. rewrite <-(length_fmap fst xs).
  rewrite <-(size_list_to_set (C := gset positive)) by done.
  rewrite <-size_dom. apply Nat.lt_succ_r, subseteq_size. intros l Hl.
  apply elem_of_list_to_set in Hl. apply elem_of_dom. by eapply dlseg_elem.
Qed.

Lemma next_element_ok s xs1 xs2 : represents s (xs1 ++ xs2) →
  ListNextElement (last_loc None xs1) s = Some (hd_loc xs2 None, s).
Proof.
  intros [_ Hseg Hf _ _ _]. unfold ListNextElement.
  destruct xs1 as [|[l c] xs1 _] using rev_ind.
  - unfold last_loc. cbn. unfold mbind, cmd_bind, get_list, mret, cmd_ret. by rewrite Hf.
  - unfold last_loc. rewrite last_snoc. rewrite <-app_assoc in Hseg. apply dlseg_app in Hseg as [_ [Hl _]].
    unfold mbind, cmd_bind, deref. by rewrite Hl.
Qed.

Lemma find_loop_ok s c cb xs2 : ∀ fuel xs1, represents s (xs1 ++ xs2) → (length xs2 < fuel)%nat →
  find_loop fuel c cb (last_loc None xs1) s = Some (fst <$> first_match (matches cb c) xs2, s).
Proof.
  induction xs2 as [|[l d] xs2 IH]; intros fuel xs1 Hrep Hf; (destruct fuel as [|fuel]; [cbn in Hf; lia|]);
    cbn [find_loop]; unfold mbind, cmd_bind; rewrite (next_element_ok _ _ _ Hrep); cbn [hd_loc is_null].
  - done.
  - pose proof (represents_split _ _ _ _ _ Hrep) as (_ & _ & _ & _ & _ & _ & Hl & _).
    unfold deref. rewrite Hl. cbn [content first_match].
    destruct (matches cb c d); [done|].
    specialize (IH fuel (xs1 ++ [(l, d)])). rewrite <-app_assoc in IH. cbn [app] in IH.
    unfold last_loc at 1 in IH. rewrite last_snoc in IH. apply IH; [done|]. cbn in Hf. lia.
Qed.

Lemma set_current_ok s xs l : represents s xs → (∀ k, l = Some k → k ∈ locs xs) →
  ∃ s', set_current l s = Some ((), s') ∧ represents s' xs ∧ elems s' = elems s ∧ freed s' = freed s ∧
    current (aList s') = l.
Proof. intros [] Hl. eexists. split; [done|]. split; [|done]. by split. Qed.

Lemma find_item_ok s xs c cb : represents s xs →
  ∃ s', ListFindItem c cb s = Some (fst <$> search (matches cb c) (current (aList s)) xs, s') ∧
    represents s' xs ∧ elems s' = elems s ∧ freed s' = freed s ∧
    current (aList s') =
      (match search (matches cb c) (current (aList s)) xs with
       | Some (l, _) => Some l | None => current (aList s) end).
Proof.
  intros Hrep. unfold ListFindItem, mbind, cmd_bind, get_list, elem_count.
  assert (Hloop : find_loop (Datatypes.S (base.size (elems s))) c cb None s =
    Some (fst <$> first_match (matches cb c) xs, s)).
  { apply (find_loop_ok s c cb xs _ [] Hrep). by apply represents_size. }
  assert (Hset : ∃ s', (match (if is_null (fst <$> first_match (matches cb c) xs) then mret ()
      else set_current (fst <$> first_match (matches cb c) xs)) s with
      | Some (_, s') => (mret (fst <$> first_match (matches cb c) xs) : cmd _) s' | None => None end)
      = Some (fst <$> first_match (matches cb c) xs, s') ∧
    represents s' xs ∧ elems s' = elems s ∧ freed s' = freed s ∧
    current (aList s') = match first_match (matches cb c) xs with
      | Some (l, _) => Some l | None => current (aList s) end).
  { destruct (first_match (matches cb c) xs) as [[l d]|] eqn:Hm; cbn [fmap option_fmap option_map is_null fst].
    - destruct (set_current_ok s xs (Some l) Hrep) as (s' & -> & ?).
      + intros k [= <-]. apply first_match_split in Hm as [_ Hin].
        exact (list_elem_of_fmap_2 fst xs _ Hin).
      + by exists s'.
    - by exists s. }
  unfold search. destruct (current (aList s)) as [k|] eqn:Hcur; cbn [is_null mbind option_bind].
  - assert (Hk : k ∈ locs xs) by (by apply (rep_current s xs Hrep)).
    destruct (node_at_some k xs Hk) as [[k' d] Hn]. rewrite Hn.
    destruct (node_at_elem _ _ _ Hn) as [Hkk Hin]. cbn in Hkk. subst k'.
    destruct (dlseg_at _ _ _ _ _ _ (rep_seg s xs Hrep) Hin) as (e & He & <-).
    unfold deref. rewrite He. unfold mret at 1, cmd_ret at 1.
    destruct (matches cb c (content e)).
    + exists s. by rewrite Hcur.
    + rewrite Hloop. exact Hset.
  - unfold mret at 1, cmd_ret at 1. rewrite Hloop. exact Hset.
Qed.

(** ** Removing *)

(** Relinking around an element, and freeing it. *)
Lemma relink_ok s xs1 l c xs2 (k : cmd Z) : represents s (xs1 ++ (l, c) :: xs2) →
  ∃ h1 h2,
    (let e := mkElem (last_loc None xs1) (hd_loc xs2 None) c in
     (if is_null (prev e) then set_first (next e) else set_next (prev e) (next e));;
     (if is_null (next e) then set_last (prev e) else set_prev (next e) (prev e));; k) s =
    k (mkState h1 (mkList (hd_loc (xs1 ++ xs2) None) (last_loc None (xs1 ++ xs2)) (current (aList s))
         (count (aList s)) (size (aList s))) (freed s)) ∧
    h2 = delete l h1 ∧ h1 !! l = Some (mkElem (last_loc None xs1) (hd_loc xs2 None) c) ∧
    NoDup (locs (xs1 ++ xs2)) ∧ dlseg h2 None (xs1 ++ xs2) None ∧
    (∀ k, k ∉ locs (xs1 ++ xs2) → k ≠ l → h2 !! k = elems s !! k) ∧
    first (aList s) = hd_loc (xs1 ++ (l, c) :: xs2) None.
Proof.
  intros Hrep.
  destruct (represents_split _ _ _ _ _ Hrep) as (Hn1 & Hn2 & Hl1 & Hl2 & Hdisj & Hs1 & Hl & Hs2).
  destruct Hrep as [Hnd Hseg Hf Hla Hc Hcur].
  destruct (link_next_ok s xs1 (Some l) (hd_loc xs2 None) Hn1 Hs1) as (h1 & Hrun1 & Hseg1 & Hext1).
  { intros ?. rewrite Hf, hd_loc_app. by destruct xs1 as [|[]]. }
  set (s1 := mkState h1 _ _) in Hrun1.
  assert (Hs2' : dlseg (elems s1) (Some l) xs2 None).
  { eapply dlseg_ext; [|exact Hs2]. intros k' Hk. apply Hext1. intros ?. by eapply Hdisj. }
  destruct (link_prev_ok s1 xs2 (Some l) (last_loc None xs1) None Hn2 Hs2') as (h2 & Hrun2 & Hseg2 & Hext2).
  { intros ?. cbn. by rewrite Hla, last_loc_app, last_loc_cons. }
  exists h2, (delete l h2). cbn [prev next]. unfold mbind, cmd_bind. rewrite Hrun1, Hrun2. cbn.
  rewrite hd_loc_app, last_loc_app. split; [done|]. split; [done|].
  split; [by rewrite Hext2, Hext1 by done|].
  assert (Hdel : ∀ k', k' ≠ l → delete l h2 !! k' = h2 !! k') by (intros; by apply lookup_delete_ne).
  split; [|split; [|split; [|done]]].
  - rewrite locs_app. rewrite locs_app, fmap_cons in Hnd.
    apply NoDup_app in Hnd as (? & Hd & ?). apply NoDup_app. split; [done|]. split; [|done].
    intros k' Hk. specialize (Hd k' Hk). set_solver.
  - apply dlseg_app. split; (eapply dlseg_ext; [|done || exact Hseg1 || exact Hseg2]); intros k' Hk.
    + rewrite Hdel by (intros ->; done). rewrite Hext2; [done|]. by apply Hdisj.
    + apply Hdel. by intros ->.
  - intros k' Hk Hne. rewrite locs_app in Hk. rewrite Hdel by done.
    rewrite Hext2 by set_solver. apply Hext1. set_solver.
Qed.

(** ListUnlink once the element is found. *)
Lemma unlink_ok s xs cb c fc l d : represents s xs →
  search (matches cb c) (current (aList s)) xs = Some (l, d) →
  ∃ xs1 xs2 s', xs = xs1 ++ (l, d) :: xs2 ∧ ListUnlink c cb fc s = Some (1, s') ∧
    represents s' (xs1 ++ xs2) ∧ elems s' !! l = None ∧
    (∀ k, k ∉ locs xs → elems s' !! k = elems s !! k) ∧
    freed s' = (if fc && negb (d =? 0) then d :: freed s else freed s) ∧
    current (aList s') =
      (if decide (current (aList s) = Some l) then hd_loc xs2 None else current (aList s)).
Proof.
  intros Hrep Hsearch.
  destruct (find_item_ok s xs c cb Hrep) as (s1 & Hrun & Hrep1 & He1 & Hfr1 & Hcur1).
  rewrite Hsearch in Hrun, Hcur1. cbn [fmap option_fmap option_map fst] in Hrun.
  destruct (search_elem _ _ _ _ _ Hsearch) as [_ (xs1 & xs2 & ->)%list_elem_of_split].
  exists xs1, xs2.
  destruct (represents_split _ _ _ _ _ Hrep1) as (_ & _ & Hl1 & Hl2 & _ & _ & Hl & _).
  pose proof (rep_count _ _ Hrep1) as Hcount.
  unfold ListUnlink. unfold mbind at 1, cmd_bind at 1, get_list at 1. unfold mbind at 1, cmd_bind at 1.
  rewrite Hrun. cbn [is_null]. unfold mbind at 1, cmd_bind at 1, get_list at 1.
  unfold mbind at 1, cmd_bind at 1. rewrite Hcur1. unfold deref at 1. rewrite Hl.
  match goal with |- context [(if is_null (prev _) then _ else _);; (_;; ?k)] => pose (kk := k) end.
  destruct (relink_ok s1 xs1 l d xs2 kk Hrep1) as (h1 & h2 & Hk & Hh2 & Hh1 & Hnd' & Hseg' & Hfr & _).
  fold kk. cbn zeta in Hk. rewrite Hk. subst kk.
  set (s2 := mkState h1 _ _).
  assert (Hfc : (if fc then free_content (content (mkElem (last_loc None xs1) (hd_loc xs2 None) d)) else mret ()) s2
    = Some ((), mkState h1 (aList s2) (if fc && negb (d =? 0) then d :: freed s else freed s))).
  { unfold s2. cbn. rewrite Hfr1. destruct fc; [|done]. unfold free_content. cbn. by destruct (d =? 0). }
  unfold mbind at 1, cmd_bind at 1. rewrite Hfc.
  unfold mbind at 1, cmd_bind at 1, free_elem at 1. cbn [elems]. rewrite Hh1.
  unfold set_current, add_count, mbind, cmd_bind, get_list, set_list, mret, cmd_ret. cbn [aList elems freed s2].
  eexists. split; [done|]. split; [done|]. cbn [elems freed aList current next].
  rewrite <-Hh2. split; [|split; [|split; [|split]]].
  - split; cbn; try done.
    + rewrite Hcount. lens.
    + intros k. case_decide as Hd.
      * intros Hk'%hd_loc_elem. rewrite locs_app. set_solver.
      * intros Hk'. pose proof (rep_current _ _ Hrep k Hk') as Hin. rewrite locs_app, fmap_cons in Hin.
        rewrite locs_app. assert (k ≠ l) by congruence. set_solver.
  - rewrite Hh2. apply lookup_delete_eq.
  - intros k Hk'. rewrite locs_app, fmap_cons in Hk'. rewrite <-He1. apply Hfr; [rewrite locs_app|]; set_solver.
  - done.
  - done.
Qed.

(** ** Taking from the ends *)

(** An operation that took the element [l] of content [c] and left [ys]. *)
Record taken (s s' : state) (l : positive) (ys : list node) : Prop := {
  tk_rep : represents s' ys;
  tk_gone : elems s' !! l = None;
  tk_frame : ∀ k, k ∉ locs ys → k ≠ l → elems s' !! k = elems s !! k;
  tk_freed : freed s' = freed s
}.

Lemma detach_head_ok s l c ys : represents s ((l, c) :: ys) →
  ∃ s', ListDetachHead s = Some (c, s') ∧ taken s s' l ys ∧
    current (aList s') =
      (if decide (current (aList s) = Some l) then hd_loc ys None else current (aList s)).
Proof.
  intros Hrep. destruct (represents_split s [] l c ys Hrep) as (_ & Hn2 & _ & Hl2 & _ & _ & Hl & Hs2).
  destruct Hrep as [Hnd Hseg Hf Hla Hc Hcur].
  destruct s as [h [f la cu co si] fr]. cbn [elems aList first last current count freed] in *.
  unfold ListDetachHead, set_current, set_last, set_first, add_count, free_elem, mbind, cmd_bind,
    get_list, set_list, mret, cmd_ret. cbn.
  rewrite Hc, (proj2 (Z.ltb_lt 0 _)) by (cbn; lia). cbn [hd_loc] in Hf. subst f.
  unfold deref at 1. cbn [elems]. rewrite Hl. cbn [next].
  assert (Hcu : ∀ k, (if decide (cu = Some l) then hd_loc ys None else cu) = Some k → k ∈ locs ys).
  { intros k. case_decide; [apply hd_loc_elem|]. intros Hk. specialize (Hcur k Hk).
    rewrite fmap_cons in Hcur. assert (k ≠ l) by congruence. set_solver. }
  destruct ys as [|[l2 c2] ys].
  - cbn [hd_loc is_null]. rewrite last_loc_cons in Hla. cbn in Hla. subst la.
    rewrite (decide_True (P := Some l = Some l)) by done.
    destruct (decide (cu = Some l)) as [->|Hcl]; cbn; rewrite Hl; cbn.
    all: eexists; split; [done|]; split; [|done].
    all: split; cbn; [|by apply lookup_delete_eq|intros; by apply lookup_delete_ne|done].
    all: split; cbn; [constructor|done|done|done|lia|]; intros k Hk; specialize (Hcu k); cbn in Hcu;
      rewrite ?decide_True, ?decide_False in Hcu by done; by apply Hcu.
  - cbn [hd_loc is_null]. rewrite fmap_cons in Hl2. cbn in Hl2. apply not_elem_of_cons in Hl2 as [Hne Hl2].
    assert (la ≠ Some l) as Hlal.
    { rewrite last_loc_cons in Hla. intros Heq. rewrite Heq in Hla. symmetry in Hla.
      rewrite last_loc_ne with (p' := None) in Hla by done.
      apply last_loc_elem in Hla. set_solver. }
    rewrite (decide_False (P := la = Some l)) by done.
    destruct (dlseg_set_prev h ((l2, c2) :: ys) (Some l) None l2 None Hn2 Hs2 eq_refl) as (e & He & Hseg').
    unfold set_prev, mbind, cmd_bind, deref, store.
    destruct (decide (cu = Some l)) as [->|Hcl]; cbn; rewrite He; cbn;
      rewrite (lookup_insert_ne _ l2 l) by done; rewrite Hl; cbn.
    all: eexists; split; [done|]; split; [|done].
    all: split; cbn; [|by apply lookup_delete_eq| |done];
      [|intros k Hk Hkl; rewrite lookup_delete_ne, lookup_insert_ne; [done| |done]; intros <-; set_solver].
    all: split; cbn; [done| |done|by rewrite Hla, last_loc_cons; apply last_loc_ne|lia|].
    1, 3: eapply (dlseg_ext _ _ ((l2, c2) :: ys)); [|exact Hseg'].
    1, 2: intros k Hk; apply lookup_delete_ne; rewrite fmap_cons in Hk; set_solver.
    all: intros k Hk; specialize (Hcu k); cbn in Hcu;
      rewrite ?decide_True, ?decide_False in Hcu by done; by apply Hcu.
Qed.

Lemma pop_tail_ok s l c ys : represents s (ys ++ [(l, c)]) →
  ∃ s', ListPopTail s = Some (c, s') ∧ taken s s' l ys ∧
    current (aList s') =
      (if decide (current (aList s) = Some l) then last_loc None ys else current (aList s)).
Proof.
  intros Hrep. destruct (represents_split s ys l c [] Hrep) as (Hn1 & _ & Hl1 & _ & _ & Hs1 & Hl & _).
  destruct Hrep as [Hnd Hseg Hf Hla Hc Hcur].
  destruct s as [h [f la cu co si] fr]. cbn [elems aList first last current count freed] in *.
  unfold ListPopTail, set_current, set_last, set_first, add_count, free_elem, mbind, cmd_bind,
    get_list, set_list, mret, cmd_ret. cbn.
  rewrite Hc, (proj2 (Z.ltb_lt 0 _)) by lens.
  rewrite last_loc_app in Hla. change (la = Some l) in Hla. subst la.
  unfold deref at 1. cbn [elems]. rewrite Hl. cbn [prev].
  assert (Hcu : ∀ k, (if decide (cu = Some l) then last_loc None ys else cu) = Some k → k ∈ locs ys).
  { intros k. case_decide; [apply last_loc_elem|]. intros Hk. specialize (Hcur k Hk).
    rewrite locs_app in Hcur. assert (k ≠ l) by congruence. set_solver. }
  rewrite length_app, Nat2Z.inj_add in Hc. cbn [length] in Hc.
  destruct (last_loc None ys) as [q|] eqn:Hq.
  - assert (f ≠ Some l) as Hfl.
    { rewrite hd_loc_app in Hf. intros Heq. rewrite Heq in Hf. symmetry in Hf.
      destruct ys as [|[l2 c2] ys]; [done|]. cbn in Hf. injection Hf as ->. set_solver. }
    rewrite (decide_False (P := f = Some l)) by done. cbn [is_null].
    assert (Hql : q ∈ locs ys) by (by apply last_loc_elem). assert (q ≠ l) by (by intros ->).
    destruct (dlseg_set_next h ys None (Some l) q None Hn1 Hs1 Hq) as (e & He & Hseg').
    unfold set_next, mbind, cmd_bind, deref, store.
    destruct (decide (cu = Some l)) as [->|Hcl]; cbn; rewrite He; cbn;
      rewrite (lookup_insert_ne _ q l) by done; rewrite Hl; cbn.
    all: eexists; split; [done|]; split; [|done].
    all: split; cbn; [|by apply lookup_delete_eq| |done];
      [|intros k Hk Hkl; rewrite lookup_delete_ne, lookup_insert_ne; [done| |done]; by intros <-].
    all: split; cbn; [done| | |done|lens|].
    1, 4: eapply (dlseg_ext _ _ ys); [|exact Hseg']; intros k Hk; apply lookup_delete_ne; by intros ->.
    1, 3: rewrite Hf, hd_loc_app; by destruct ys as [|[]].
    all: intros k Hk; specialize (Hcu k); cbn in Hcu;
      rewrite ?decide_True, ?decide_False in Hcu by done; by apply Hcu.
  - apply last_loc_none in Hq as ->. cbn [app hd_loc is_null] in *. subst f.
    rewrite (decide_True (P := Some l = Some l)) by done.
    destruct (decide (cu = Some l)) as [->|Hcl]; cbn; rewrite Hl; cbn.
    all: eexists; split; [done|]; split; [|done].
    all: split; cbn; [|by apply lookup_delete_eq|intros; by apply lookup_delete_ne|done].
    all: split; cbn; [constructor|done|done|done|lia|]; intros k Hk; specialize (Hcu k); cbn in Hcu;
      rewrite ?decide_True, ?decide_False in Hcu by done; by apply Hcu.
Qed.

(** Emptying: every element is freed, and its content when asked. *)
Definition free_contents (wc : bool) (xs : list node) (fr : list Z) : list Z :=
  if wc then foldl (λ fr x, if snd x =? 0 then fr else snd x :: fr) fr xs else fr.

Lemma empty_loop_ok wc xs : ∀ fuel s, (length xs < fuel)%nat → NoDup (locs xs) →
  (∃ p, dlseg (elems s) p xs None) → first (aList s) = hd_loc xs None →
  ∃ s', empty_loop fuel wc s = Some ((), s') ∧ first (aList s') = None ∧
    freed s' = free_contents wc xs (freed s) ∧
    (∀ l, l ∈ locs xs → elems s' !! l = None) ∧ (∀ l, l ∉ locs xs → elems s' !! l = elems s !! l).
Proof.
  induction xs as [|[l c] xs IH]; intros fuel s Hf Hnd [p Hseg] Hfirst;
    (destruct fuel as [|fuel]; [cbn in Hf; lia|]); cbn [empty_loop];
    unfold mbind at 1, cmd_bind at 1, get_list at 1; rewrite Hfirst; cbn [hd_loc is_null].
  { exists s. split; [done|]. split; [done|]. split; [by destruct wc|]. split; [by intros ? ?%elem_of_nil|done]. }
  rewrite fmap_cons in Hnd. apply NoDup_cons in Hnd as [Hl Hnd]. destruct Hseg as [Hel Hseg].
  unfold mbind at 1, cmd_bind at 1, deref at 1. rewrite Hel.
  pose (s1 := mkState (delete l (elems s)) (mkList (hd_loc xs None) (last (aList s)) (current (aList s))
    (count (aList s)) (size (aList s))) (if wc && negb (c =? 0) then c :: freed s else freed s)).
  destruct (IH fuel s1) as (s' & Hrun & H1 & H2 & H3 & H4); [cbn in Hf; lia|done| |done|].
  { exists (Some l). eapply dlseg_ext; [|exact Hseg]. intros k Hk. cbn. apply lookup_delete_ne. by intros ->. }
  exists s'. split; [|split; [done|split; [|split]]].
  - rewrite <-Hrun. unfold set_first, free_content, free_elem, mbind, cmd_bind, get_list, set_list, mret, cmd_ret.
    destruct wc; cbn; rewrite Hel; cbn; [|done]. unfold s1. cbn. by destruct (c =? 0).
  - rewrite H2. unfold free_contents. destruct wc; [|done]. cbn. by destruct (c =? 0).
  - intros k [->|Hk]%elem_of_cons; [|by apply H3]. rewrite H4 by done. apply lookup_delete_eq.
  - intros k Hk. rewrite fmap_cons, not_elem_of_cons in Hk. destruct Hk as [Hkl Hk].
    rewrite H4 by done. cbn. by apply lookup_delete_ne.
Qed.

(** ** Specification: the operations on sequences

    The abstract list is a sequence of nodes with the address of the current
    one. *)

Definition alist : Type := list node * option positive.

Fixpoint insert_before (i : positive) (x : node) (xs : list node) : list node :=
  match xs with
  | [] => [x]
  | (l, c) :: xs' => if decide (l = i) then x :: xs else (l, c) :: insert_before i x xs'
  end.

Fixpoint remove_at (l : positive) (xs : list node) : list node :=
  match xs with
  | [] => []
  | (l', c) :: xs' => if decide (l' = l) then xs' else (l', c) :: remove_at l xs'
  end.

Fixpoint after (l : positive) (xs : list node) : option positive :=
  match xs with
  | [] => None
  | (l', _) :: xs' => if decide (l' = l) then hd_loc xs' None else after l xs'
  end.

Inductive op :=
  | OAppend (c sz : Z) (newel : positive)
  | OInsert (c sz : Z) (index newel : positive)
  | OFind (c : Z) (callback : option (Z → Z → bool))
  | OUnlink (c : Z) (callback : option (Z → Z → bool)) (freeContent : bool)
  | ODetachHead
  | OPopTail.

(** The result of an operation: an address, or a number. *)
Inductive result := RLoc (p : option positive) | RNum (n : Z).

Definition run_op (o : op) : cmd result :=
  match o with
  | OAppend c sz newel => r ← ListAppend c sz (Some newel); mret (RLoc r)
  | OInsert c sz i newel => r ← ListInsert c sz (Some i) (Some newel); mret (RLoc r)
  | OFind c cb => r ← ListFindItem c cb; mret (RLoc r)
  | OUnlink c cb fc => r ← ListUnlink c cb fc; mret (RNum r)
  | ODetachHead => r ← ListDetachHead; mret (RNum r)
  | OPopTail => r ← ListPopTail; mret (RNum r)
  end.

Definition spec_op (o : op) (a : alist) : result * alist :=
  let '(xs, cur) := a in
  match o with
  | OAppend c _ newel => (RLoc (Some newel), (xs ++ [(newel, c)], cur))
  | OInsert c _ i newel => (RLoc (Some newel), (insert_before i (newel, c) xs, cur))
  | OFind c cb =>
      match search (matches cb c) cur xs with
      | Some (l, _) => (RLoc (Some l), (xs, Some l))
      | None => (RLoc None, (xs, cur))
      end
  | OUnlink c cb _ =>
      match search (matches cb c) cur xs with
      | Some (l, _) =>
          (RNum 1, (remove_at l xs, if decide (cur = Some l) then after l xs else cur))
      | None => (RNum 0, (xs, cur))
      end
  | ODetachHead =>
      match xs with
      | [] => (RNum 0, (xs, cur))
      | (l, c) :: ys => (RNum c, (ys, if decide (cur = Some l) then hd_loc ys None else cur))
      end
  | OPopTail =>
      match list.last xs with
      | None => (RNum 0, (xs, cur))
      | Some (l, c) =>
          let ys := take (length xs - 1) xs in
          (RNum c, (ys, if decide (cur = Some l) then last_loc None ys else cur))
      end
  end.

(** What an operation needs: [malloc] gives an element that is not allocated,
    an index is an element of the list. *)
Definition op_ok (o : op) (s : state) (xs : list node) : Prop :=
  match o with
  | OAppend _ _ newel => elems s !! newel = None
  | OInsert _ _ i newel => elems s !! newel = None ∧ i ∈ locs xs
  | _ => True
  end.

Lemma insert_before_split xs1 i c xs2 x : i ∉ locs xs1 →
  insert_before i x (xs1 ++ (i, c) :: xs2) = xs1 ++ x :: (i, c) :: xs2.
Proof.
  induction xs1 as [|[l d] xs1 IH]; intros Hi; cbn; [by rewrite decide_True|].
  rewrite fmap_cons, not_elem_of_cons in Hi. destruct Hi as [Hil Hi].
  rewrite decide_False by (by intros ->). by rewrite IH.
Qed.

Lemma remove_at_split xs1 l c xs2 : l ∉ locs xs1 →
  remove_at l (xs1 ++ (l, c) :: xs2) = xs1 ++ xs2 ∧ after l (xs1 ++ (l, c) :: xs2) = hd_loc xs2 None.
Proof.
  induction xs1 as [|[k d] xs1 IH]; intros Hi; cbn; [by rewrite !decide_True|].
  rewrite fmap_cons, not_elem_of_cons in Hi. destruct Hi as [Hil Hi].
  rewrite !decide_False by (by intros ->). by destruct (IH Hi) as [-> ->].
Qed.

Lemma alloc_fresh s xs newel : represents s xs → elems s !! newel = None → newel ∉ locs xs.
Proof.
  intros Hrep Hn Hin. destruct (dlseg_elem _ _ _ _ _ (rep_seg s xs Hrep) Hin) as [e He]. congruence.
Qed.

Lemma represents_empty_count s : represents s [] → count (aList s) = 0.
Proof. intros Hrep. by rewrite (rep_count _ _ Hrep). Qed.

(** ** Properties *)

(** C13: the pointer operations of the lists refine operations on sequences: from
    a well-formed list every append, insertion, search, removal by content and
    removal at either end runs without an invalid access, answers what the
    specification answers, and leaves a well-formed list of the specified
    elements with the specified current element.  A new element is at an address
    not in use, and an insertion is before an element of the list.  Taking the
    first or last element off answers its content, which is not freed, and NULL
    for an empty list, unlike the comment of ListDetachHead; ListRemoveHead
    always answers 0 (see the findings). *)
Theorem list_ops_refine o s xs : represents s xs → op_ok o s xs →
  ∃ s', run_op o s = Some (fst (spec_op o (xs, current (aList s))), s') ∧
    represents s' (fst (snd (spec_op o (xs, current (aList s))))) ∧
    current (aList s') = snd (snd (spec_op o (xs, current (aList s)))).
Proof.
  intros Hrep Hok. destruct o as [c sz newel|c sz i newel|c cb|c cb fc| |]; cbn [run_op spec_op op_ok] in *;
    unfold mbind, cmd_bind.
  - pose proof (alloc_fresh _ _ _ Hrep Hok) as Hn.
    destruct (append_ok s xs c newel sz Hrep Hn) as (s' & Hrun & Hrep' & []).
    exists s'. unfold ListAppend, mbind, cmd_bind. by rewrite Hrun.
  - destruct Hok as [Hn Hi]. apply (alloc_fresh _ _ _ Hrep) in Hn.
    destruct (locs_split _ _ Hi) as (xs1 & ci & xs2 & ->).
    pose proof (represents_split _ _ _ _ _ Hrep) as (_ & _ & Hi1 & _).
    destruct (insert_ok s xs1 i ci xs2 c newel sz Hrep Hn) as (s' & Hrun & Hrep' & []).
    exists s'. rewrite Hrun. cbn. by rewrite insert_before_split.
  - destruct (find_item_ok s xs c cb Hrep) as (s' & Hrun & Hrep' & _ & _ & Hcur).
    exists s'. rewrite Hrun. by destruct (search _ _ _) as [[]|].
  - destruct (search (matches cb c) (current (aList s)) xs) as [[l d]|] eqn:Hs.
    + destruct (unlink_ok s xs cb c fc l d Hrep Hs) as (xs1 & xs2 & s' & -> & Hrun & Hrep' & _ & _ & _ & Hcur).
      pose proof (represents_split _ _ _ _ _ Hrep) as (_ & _ & Hl1 & _).
      exists s'. rewrite Hrun. cbn. destruct (remove_at_split xs1 l d xs2 Hl1) as [-> ->]. done.
    + destruct (find_item_ok s xs c cb Hrep) as (s' & Hrun & Hrep' & _ & _ & Hcur).
      rewrite Hs in Hrun, Hcur. exists s'. unfold ListUnlink, mbind, cmd_bind, get_list. by rewrite Hrun.
  - destruct xs as [|[l c] ys].
    + exists s. unfold ListDetachHead, mbind, cmd_bind, get_list. by rewrite represents_empty_count.
    + destruct (detach_head_ok s l c ys Hrep) as (s' & Hrun & [] & Hcur). exists s'. by rewrite Hrun.
  - destruct xs as [|[l c] ys _] using rev_ind.
    + exists s. unfold ListPopTail, mbind, cmd_bind, get_list. by rewrite represents_empty_count.
    + destruct (pop_tail_ok s l c ys Hrep) as (s' & Hrun & [] & Hcur). exists s'. rewrite Hrun, last_snoc.
      replace (take (length (ys ++ [(l, c)]) - 1) (ys ++ [(l, c)])) with ys; [done|].
      rewrite length_app. cbn [length]. by rewrite Nat.add_sub, take_app_length.
Qed.

(** A list of two elements, the second being current. *)
Definition two_elems : state :=
  mkState {[ 5%positive := mkElem None (Some 9%positive) 100; 9%positive := mkElem (Some 5%positive) None 200 ]}
    (mkList (Some 5%positive) (Some 9%positive) (Some 9%positive) 2 16) [].

Lemma two_elems_ok : represents two_elems [(5%positive, 100); (9%positive, 200)].
Proof.
  split; try done.
  - apply (bool_decide_eq_true_1 _). by vm_compute.
  - intros l [= <-]. set_solver.
Qed.

Lemma list_ops_refine_witness :
  represents two_elems [(5%positive, 100); (9%positive, 200)] ∧
  ∃ s', run_op (OUnlink 200 None true) two_elems = Some (RNum 1, s') ∧
    represents s' [(5%positive, 100)] ∧ current (aList s') = None.
Proof.
  split; [exact two_elems_ok|].
  exact (list_ops_refine (OUnlink 200 None true) two_elems _ two_elems_ok I).
Defined.

(** Removing by content frees exactly the element found, and its content only
    when asked; the elements of other lists are untouched, nothing is freed
    when nothing matches. *)
Theorem ListUnlink_frees s xs cb c fc : represents s xs →
  ∃ r s', ListUnlink c cb fc s = Some (r, s') ∧
    match search (matches cb c) (current (aList s)) xs with
    | Some (l, d) => r = 1 ∧ elems s' !! l = None ∧ matches cb c d = true ∧
        freed s' = (if fc && negb (d =? 0) then d :: freed s else freed s)
    | None => r = 0 ∧ elems s' = elems s ∧ freed s' = freed s
    end ∧
    (∀ k, k ∉ locs xs → elems s' !! k = elems s !! k).
Proof.
  intros Hrep. destruct (search (matches cb c) (current (aList s)) xs) as [[l d]|] eqn:Hs.
  - destruct (unlink_ok s xs cb c fc l d Hrep Hs) as (xs1 & xs2 & s' & Hxs & Hrun & _ & Hg & Hfr & Hf & _).
    exists 1, s'. split; [done|]. split; [|done]. destruct (search_elem _ _ _ _ _ Hs) as [Hm _]. done.
  - destruct (find_item_ok s xs c cb Hrep) as (s' & Hrun & _ & He & Hf & _). rewrite Hs in Hrun.
    exists 0, s'. unfold ListUnlink, mbind, cmd_bind, get_list. rewrite Hrun. cbn.
    split; [done|]. split; [done|]. intros. by rewrite He.
Qed.

Lemma ListUnlink_frees_witness :
  represents two_elems [(5%positive, 100); (9%positive, 200)] ∧
  ∃ r s', ListUnlink 100 None true two_elems = Some (r, s') ∧
    (r = 1 ∧ elems s' !! 5%positive = None ∧ matches None 100 100 = true ∧ freed s' = [100]) ∧
    (∀ k, k ∉ locs [(5%positive, 100); (9%positive, 200)] → elems s' !! k = elems two_elems !! k).
Proof.
  split; [exact two_elems_ok|].
  exact (ListUnlink_frees two_elems _ None 100 true two_elems_ok).
Defined.

(** [ListEmpty] ends, frees every element and every content that is not NULL,
    in order, and leaves an empty list; other elements are untouched. *)
Theorem ListEmpty_frees s xs : represents s xs →
  ∃ s', ListEmpty s = Some ((), s') ∧ represents s' [] ∧
    freed s' = free_contents true xs (freed s) ∧
    (∀ l, l ∈ locs xs → elems s' !! l = None) ∧ (∀ l, l ∉ locs xs → elems s' !! l = elems s !! l).
Proof.
  intros Hrep. pose proof (represents_size s xs Hrep) as Hsz. destruct Hrep as [Hnd Hseg Hf _ _ _].
  destruct (empty_loop_ok true xs _ s Hsz Hnd (ex_intro (λ p, dlseg _ p _ _) None Hseg) Hf) as (s1 & Hrun & _ & Hfr & Hg & Hk).
  eexists. unfold ListEmpty, mbind, cmd_bind, elem_count. rewrite Hrun. split; [done|].
  split; [|done]. split; try done. constructor.
Qed.

Lemma ListEmpty_frees_witness :
  represents two_elems [(5%positive, 100); (9%positive, 200)] ∧
  ∃ s', ListEmpty two_elems = Some ((), s') ∧ represents s' [] ∧ freed s' = [200; 100].
Proof.
  split; [exact two_elems_ok|].
  destruct (ListEmpty_frees two_elems _ two_elems_ok) as (s' & H1 & H2 & H3 & _).
  exists s'. exact (conj H1 (conj H2 H3)).
Defined.

End LinkedLists.
