(* ===== verification/SocketIO.v ===== *)
(** * Socket input and output (paho.mqtt.c/src/SocketBuffer.c, Socket.c,
    MQTTPacket.c, WebSocket.c)

    The queues that make reads and writes resumable on non-blocking sockets,
    the reading of a packet through them, and the writing of a packet in as many
    pieces as the kernel takes. The queues and the pending writes are kept in
    lists searched by socket (LinkedList.v). The system calls are lists of their
    results. *)
From S2P Require Import Prelude PacketCodec Props Packets.

Module SocketRead.
Import Codecs Packets.

(** ** Data *)

Definition TCPSOCKET_COMPLETE := 0.
Definition SOCKET_ERROR := -1.
Definition TCPSOCKET_INTERRUPTED := -22.
Definition SOCKETBUFFER_INTERRUPTED := -22.
Definition EAGAIN := 11.
Definition fixed_header_size : Z := 5.

(** [q_fixed_header] has five bytes, [q_buf] the bytes allocated. *)
Record socket_queue := mkQueue {
  q_socket : Z;
  q_index : Z;
  q_headerlen : Z;
  q_fixed_header : list Z;
  q_buflen : Z;
  q_datalen : Z;
  q_buf : list Z
}.

(** What [recv] meets on the socket: bytes that have arrived (none for an
    orderly shutdown), or an error number. *)
Inductive recv_event := Chunk (data : list Z) | RError (errno : Z).

(** The module's variables and the input of the socket being read. *)
Record state := mkState {
  queues : list socket_queue;
  def_queue : socket_queue;
  input : list recv_event
}.

(** Statements; [None] is an access out of the bounds of a buffer. *)
Definition io (A : Type) : Type := state → option (A * state).
#[export] Instance io_ret : MRet io := λ A a s, Some (a, s).
#[export] Instance io_bind : MBind io := λ A B k m s,
  match m s with Some (a, s') => k a s' | None => None end.

Definition get : io state := λ s, Some (s, s).
Definition set_queues (l : list socket_queue) : io () := λ s, Some ((), mkState l (def_queue s) (input s)).
Definition set_def (q : socket_queue) : io () := λ s, Some ((), mkState (queues s) q (input s)).
Definition io_fault {A} : io A := λ s, None.

(** [recv] of at most [n] bytes; with no more input the socket would block. *)
Inductive recv_result := RBytes (data : list Z) | RErr (errno : Z).
Definition recv (n : Z) : io recv_result := λ s,
  match input s with
  | [] => Some (RErr EAGAIN, s)
  | RError e :: rest => Some (RErr e, mkState (queues s) (def_queue s) rest)
  | Chunk d :: rest =>
      let got := take (Z.to_nat n) d in
      let left := drop (Z.to_nat n) d in
      Some (RBytes got, mkState (queues s) (def_queue s)
        (match left with [] => rest | _ => Chunk left :: rest end))
  end.

(** [ListFindItem] with [socketcompare], and the updates through the pointer it
    gives. *)
Fixpoint find_queue (socket : Z) (l : list socket_queue) : option socket_queue :=
  match l with
  | [] => None
  | q :: l' => if q_socket q =? socket then Some q else find_queue socket l'
  end.
Fixpoint update_queue (socket : Z) (q : socket_queue) (l : list socket_queue) : list socket_queue :=
  match l with
  | [] => []
  | q' :: l' => if q_socket q' =? socket then q :: l' else q' :: update_queue socket q l'
  end.
Fixpoint remove_queue (socket : Z) (l : list socket_queue) : list socket_queue :=
  match l with
  | [] => []
  | q :: l' => if q_socket q =? socket then l' else q :: remove_queue socket l'
  end.

(** ** SocketBuffer.c *)

(** 1000 bytes are allocated, but [buflen] is reset to 0 with the rest. *)
Definition SocketBuffer_newDefQ : socket_queue :=
  mkQueue 0 0 0 (replicate 5 0) 0 0 (replicate 1000 0).

Definition SocketBuffer_initialize : list socket_queue * socket_queue := ([], SocketBuffer_newDefQ).

Definition reset_queue (q : socket_queue) : socket_queue :=
  mkQueue 0 0 0 (q_fixed_header q) (q_buflen q) 0 (q_buf q).

Definition SocketBuffer_cleanup (socket : Z) : io () :=
  s ← get;
  (match find_queue socket (queues s) with
   | Some _ => set_queues (remove_queue socket (queues s))
   | None => mret ()
   end);;
  if q_socket (def_queue s) =? socket then set_def (reset_queue (def_queue s)) else mret ().

(** The queue of the socket, or the default one, with its buffer made large
    enough; the length already read is returned. A buffer that holds data is
    replaced by an uninitialized one, and copied from itself. *)
Definition grow_buf (q : socket_queue) (bytes : Z) : socket_queue :=
  if q_buflen q <? bytes then
    mkQueue (q_socket q) (q_index q) (q_headerlen q) (q_fixed_header q) bytes (q_datalen q)
      (if 0 <? q_datalen q then replicate (Z.to_nat bytes) 0 else resize (Z.to_nat bytes) 0 (q_buf q))
  else q.

Definition SocketBuffer_getQueuedData (socket bytes : Z) : io Z :=
  s ← get;
  match find_queue socket (queues s) with
  | Some q => set_queues (update_queue socket (grow_buf q bytes) (queues s));; mret (q_datalen q)
  | None => set_def (grow_buf (def_queue s) bytes);; mret 0
  end.

Definition SocketBuffer_getQueuedChar (socket : Z) : io (Z * Z) :=
  s ← get;
  match find_queue socket (queues s) with
  | Some q =>
      if q_index q <? q_headerlen q then
        match peek (q_fixed_header q) (q_index q) with
        | None => io_fault
        | Some c =>
            set_queues (update_queue socket
              (mkQueue (q_socket q) (q_index q + 1) (q_headerlen q) (q_fixed_header q) (q_buflen q)
                 (q_datalen q) (q_buf q)) (queues s));;
            mret (TCPSOCKET_COMPLETE, c)
        end
      else if 4 <? q_index q then mret (SOCKET_ERROR, 0)
      else mret (SOCKETBUFFER_INTERRUPTED, 0)
  | None => mret (SOCKETBUFFER_INTERRUPTED, 0)
  end.

Definition SocketBuffer_interrupted (socket actual_len : Z) : io () :=
  s ← get;
  let stop q := mkQueue (q_socket q) 0 (q_headerlen q) (q_fixed_header q) (q_buflen q) actual_len (q_buf q) in
  match find_queue socket (queues s) with
  | Some q => set_queues (update_queue socket (stop q) (queues s))
  | None =>
      let q := def_queue s in
      set_queues (queues s ++
        [stop (mkQueue socket (q_index q) (q_headerlen q) (q_fixed_header q) (q_buflen q) (q_datalen q) (q_buf q))]);;
      set_def SocketBuffer_newDefQ
  end.

(** The buffer of the completed queue is returned: it is the one of the new
    default queue. *)
Definition SocketBuffer_complete (socket : Z) : io (list Z) :=
  s ← get;
  let q := match find_queue socket (queues s) with Some q => q | None => def_queue s end in
  set_queues (match find_queue socket (queues s) with
              | Some _ => remove_queue socket (queues s)
              | None => queues s
              end);;
  set_def (reset_queue q);;
  mret (q_buf q).

(** The byte goes to the header of the queue of the socket, or of the default
    queue when it is free or the socket's own. *)
Definition SocketBuffer_queueChar (socket c : Z) : io () :=
  s ← get;
  let put q :=
    mkQueue (q_socket q) (q_index q + 1) (q_index q + 1) (<[Z.to_nat (q_index q) := c]> (q_fixed_header q))
      (q_buflen q) (q_datalen q) (q_buf q) in
  match find_queue socket (queues s) with
  | Some q => if 4 <? q_index q then mret () else set_queues (update_queue socket (put q) (queues s))
  | None =>
      let d := def_queue s in
      let '(q, error) :=
        if q_socket d =? 0
        then (mkQueue socket 0 (q_headerlen d) (q_fixed_header d) (q_buflen d) 0 (q_buf d), false)
        else (d, negb (q_socket d =? socket)) in
      set_def (if error || (4 <? q_index q) then q else put q)
  end.

(** ** Socket.c *)

Definition Socket_getch (socket : Z) : io (Z * Z) :=
  '(rc, c) ← SocketBuffer_getQueuedChar socket;
  if negb (rc =? SOCKETBUFFER_INTERRUPTED) then mret (rc, c)
  else
    r ← recv 1;
    match r with
    | RErr e =>
        if e =? EAGAIN then SocketBuffer_interrupted socket 0;; mret (TCPSOCKET_INTERRUPTED, 0)
        else mret (SOCKET_ERROR, 0)
    | RBytes [] => mret (SOCKET_ERROR, 0)
    | RBytes (b :: _) => SocketBuffer_queueChar socket b;; mret (TCPSOCKET_COMPLETE, b)
    end.

(** Storing received bytes at an offset of the buffer of the queue in use. *)
Definition write_at (off : Z) (d buf : list Z) : list Z :=
  take (Z.to_nat off) buf ++ d ++ drop (Z.to_nat off + length d) buf.

Definition store_data (socket off : Z) (d : list Z) : io (list Z) :=
  s ← get;
  let put q := mkQueue (q_socket q) (q_index q) (q_headerlen q) (q_fixed_header q) (q_buflen q)
                 (q_datalen q) (write_at off d (q_buf q)) in
  match find_queue socket (queues s) with
  | Some q =>
      if off + len d <=? len (q_buf q)
      then set_queues (update_queue socket (put q) (queues s));; mret (write_at off d (q_buf q))
      else io_fault
  | None =>
      let q := def_queue s in
      if off + len d <=? len (q_buf q) then set_def (put q);; mret (write_at off d (q_buf q)) else io_fault
  end.

Definition queue_buf (socket : Z) : io (list Z) :=
  s ← get;
  mret (q_buf (match find_queue socket (queues s) with Some q => q | None => def_queue s end)).

(** [*rc] ([None] when it is not written), the buffer ([None] for NULL) and
    [*actual_len], 0 on entry. *)
Definition Socket_getdata_rc (socket bytes : Z) : io (option Z * option (list Z) * Z) :=
  if bytes =? 0 then buf ← SocketBuffer_complete socket; mret (None, Some buf, 0)
  else
    actual ← SocketBuffer_getQueuedData socket bytes;
    r ← recv (bytes - actual);
    match r with
    | RErr e =>
        if negb (e =? EAGAIN) then mret (Some e, None, actual)
        else
          buf ← queue_buf socket;
          (if actual =? bytes then SocketBuffer_complete socket;; mret ()
           else SocketBuffer_interrupted socket actual);;
          mret (Some e, Some buf, actual)
    | RBytes [] => mret (Some 0, None, actual)
    | RBytes d =>
        buf ← store_data socket actual d;
        let actual := actual + len d in
        (if actual =? bytes then SocketBuffer_complete socket;; mret ()
         else SocketBuffer_interrupted socket actual);;
        mret (Some (len d), Some buf, actual)
    end.

(** The buffer and the length, for the callers that ignore [*rc]. *)
Definition Socket_getdata (socket bytes : Z) : io (option (list Z) * Z) :=
  '(_, buf, actual_len) ← Socket_getdata_rc socket bytes; mret (buf, actual_len).

(** [WebSocket_getch] and [WebSocket_getdata] of a connection without web
    socket nor TLS. *)
Definition WebSocket_getch := Socket_getch.
Definition WebSocket_getdata := Socket_getdata.

(** ** MQTTPacket.c *)

(** [left] bytes may still be read; the sum is a [size_t] of [int] products. *)
Fixpoint decode_loop (left : nat) (socket multiplier value : Z) : io (Z * Z) :=
  match left with
  | O => mret (SOCKET_ERROR, value)
  | S left' =>
      '(rc, c) ← WebSocket_getch socket;
      if negb (rc =? TCPSOCKET_COMPLETE) then mret (rc, value)
      else
        let value := value + (c .& 127) * multiplier in
        if (c .& 128) =? 0 then mret (rc, value)
        else decode_loop left' socket (multiplier * 128) value
  end.

Definition MQTTPacket_decode (socket : Z) : io (Z * Z) :=
  decode_loop MAX_NO_OF_REMAINING_LENGTH_BYTES socket 1 0.

(** What a call of the factory answers: the error code, or the header and the
    data on which the parser of its type runs. *)
Inductive factory_result := FError (rc : Z) | FPacket (header : Z) (data : list Z).

Definition Factory_read (socket : Z) : io factory_result :=
  '(rc, header) ← WebSocket_getch socket;
  if negb (rc =? TCPSOCKET_COMPLETE) then mret (FError rc)
  else
    '(rc, remaining_length) ← MQTTPacket_decode socket;
    if negb (rc =? TCPSOCKET_COMPLETE) then mret (FError rc)
    else
      '(data, actual_len) ← WebSocket_getdata socket remaining_length;
      match data with
      | None => mret (if remaining_length =? 0 then FPacket header [] else FError SOCKET_ERROR)
      | Some data =>
          if actual_len <? remaining_length then mret (FError TCPSOCKET_INTERRUPTED)
          else mret (FPacket header (take (Z.to_nat remaining_length) data))
      end.

(** [MQTTPacket_Factory]: the packet, or the error code. *)
Definition MQTTPacket_Factory (MQTTVersion socket : Z) : io (Z * option packet) :=
  r ← Factory_read socket;
  match r with
  | FError rc => mret (rc, None)
  | FPacket header data =>
      match Factory_dispatch MQTTVersion header data with
      | None => io_fault
      | Some None => mret (TCPSOCKET_COMPLETE, None)
      | Some (Some None) => mret (SOCKET_ERROR, None)
      | Some (Some (Some p)) => mret (TCPSOCKET_COMPLETE, Some p)
      end
  end.

(** The calls made by the receive loop while the packet is not complete. *)
Fixpoint receive (fuel : nat) (socket : Z) : io factory_result :=
  match fuel with
  | O => mret (FError TCPSOCKET_INTERRUPTED)
  | S fuel' =>
      r ← Factory_read socket;
      match r with
      | FError rc => if rc =? TCPSOCKET_INTERRUPTED then receive fuel' socket else mret r
      | FPacket _ _ => mret r
      end
  end.

(** ** The state of a read in progress *)

Definition bytes_of (ev : list recv_event) : list Z :=
  concat ((λ e, match e with Chunk d => d | RError _ => [] end) <$> ev).

(** The peer neither closes nor fails: bytes arrive, sometimes too late. *)
Definition alive (ev : list recv_event) : Prop :=
  Forall (λ e, match e with Chunk d => d ≠ [] ∧ bytes_ok d | RError e => e = EAGAIN end) ev.

(** A queue whose reader is at header byte [k], with the header bytes [hdr] and
    the data [D] received; [total] is the length of the data expected. *)
Record queue_ok (total : Z) (q : socket_queue) (k : Z) (hdr D : list Z) : Prop := {
  qo_index : q_index q = k;
  qo_headerlen : q_headerlen q = len hdr;
  qo_fixed : length (q_fixed_header q) = 5%nat;
  qo_hdr : take (length hdr) (q_fixed_header q) = hdr;
  qo_datalen : q_datalen q = len D;
  qo_data : take (length D) (q_buf q) = D;
  qo_buflen : 0 ≤ q_buflen q ≤ len (q_buf q);
  qo_total : D ≠ [] → total ≤ q_buflen q
}.

Definition free_queue (q : socket_queue) : Prop := q_socket q = 0 ∧ queue_ok 0 q 0 [] [].

(** The queue of the socket, if any, or else the default queue, is at byte [k];
    there is one queue per socket. *)
Record reading (socket total : Z) (s : state) (k : Z) (hdr D : list Z) : Prop := {
  rd_nodup : NoDup (q_socket <$> queues s);
  rd_k : 0 ≤ k ≤ len hdr;
  rd_len : len hdr ≤ fixed_header_size;
  rd_queue :
    match find_queue socket (queues s) with
    | Some q => queue_ok total q k hdr D ∧ free_queue (def_queue s)
    | None => D = [] ∧ len hdr = k ∧
        (k = 0 ∧ free_queue (def_queue s) ∨
         q_socket (def_queue s) = socket ∧ queue_ok total (def_queue s) k hdr [])
    end
}.

Definition others (socket : Z) (l : list socket_queue) : list socket_queue :=
  filter (λ q, q_socket q ≠ socket) l.

(** ** Lemmas: the list of queues *)

Lemma find_queue_socket sock l q : find_queue sock l = Some q → q_socket q = sock ∧ q ∈ l.
Proof.
  induction l as [|q' l IH]; cbn; [done|]. destruct (Z.eqb_spec (q_socket q') sock).
  - intros [= ->]. set_solver.
  - intros [? ?]%IH. set_solver.
Qed.

Lemma find_queue_none sock l : find_queue sock l = None ↔ sock ∉ q_socket <$> l.
Proof.
  induction l as [|q l IH]; cbn; [set_solver|]. destruct (Z.eqb_spec (q_socket q) sock) as [->|Hne].
  - split; [done|]. set_solver.
  - rewrite IH. set_solver.
Qed.

Lemma others_cons sock q l :
  others sock (q :: l) = if q_socket q =? sock then others sock l else q :: others sock l.
Proof.
  unfold others. rewrite filter_cons.
  destruct (Z.eqb_spec (q_socket q) sock); [by rewrite decide_False by (by intros [])|].
  by rewrite decide_True.
Qed.

Lemma update_queue_ok sock q' l : is_Some (find_queue sock l) → q_socket q' = sock →
  find_queue sock (update_queue sock q' l) = Some q' ∧
  others sock (update_queue sock q' l) = others sock l ∧
  q_socket <$> update_queue sock q' l = q_socket <$> l.
Proof.
  intros Hf Hs. induction l as [|q l IH]; cbn [find_queue update_queue] in *; [by destruct Hf|].
  destruct (Z.eqb_spec (q_socket q) sock) as [He|Hne]; cbn [find_queue].
  - rewrite !others_cons, !fmap_cons, Hs, He, Z.eqb_refl. done.
  - rewrite !others_cons, !fmap_cons. rewrite (proj2 (Z.eqb_neq _ _)) by done.
    destruct (IH Hf) as (-> & -> & ->). done.
Qed.

Lemma remove_queue_ok sock l : NoDup (q_socket <$> l) →
  find_queue sock (remove_queue sock l) = None ∧ others sock (remove_queue sock l) = others sock l ∧
  NoDup (q_socket <$> remove_queue sock l).
Proof.
  induction l as [|q l IH]; [done|]. rewrite fmap_cons. intros [Hq Hnd]%NoDup_cons.
  cbn [remove_queue]. destruct (IH Hnd) as (H1 & H2 & H3). rewrite others_cons.
  destruct (Z.eqb_spec (q_socket q) sock) as [He|Hne].
  - split; [apply find_queue_none; by rewrite <-He|]. done.
  - cbn [find_queue]. rewrite others_cons. rewrite (proj2 (Z.eqb_neq _ _)) by done.
    split; [done|]. split; [by rewrite H2|]. rewrite fmap_cons.
    constructor; [|done]. intros Hin. apply Hq. clear -Hin.
    induction l as [|q' l IH]; [done|]. cbn [remove_queue] in Hin.
    destruct (q_socket q' =? sock); [set_solver|]. set_solver.
Qed.

Lemma append_queue_ok sock q l : find_queue sock l = None → q_socket q = sock → NoDup (q_socket <$> l) →
  find_queue sock (l ++ [q]) = Some q ∧ others sock (l ++ [q]) = others sock l ∧
  NoDup (q_socket <$> l ++ [q]).
Proof.
  intros Hf Hs Hnd. split; [|split].
  - induction l as [|q' l IH]; cbn [find_queue app] in *; [by rewrite Hs, Z.eqb_refl|].
    rewrite fmap_cons in Hnd. apply NoDup_cons in Hnd as [_ Hnd].
    destruct (q_socket q' =? sock); [done|]. by apply IH.
  - unfold others. rewrite filter_app, filter_cons, decide_False by (by intros []).
    by rewrite app_nil_r.
  - rewrite fmap_app. apply NoDup_app. split; [done|]. split; [|apply NoDup_singleton].
    apply find_queue_none in Hf. set_solver.
Qed.

(** ** Lemmas: the input *)

Lemma recv_one s : alive (input s) →
  (∃ b ev, recv 1 s = Some (RBytes [b], mkState (queues s) (def_queue s) ev) ∧ is_byte b ∧
     bytes_of (input s) = b :: bytes_of ev ∧ alive ev ∧ (length ev ≤ length (input s))%nat) ∨
  (∃ ev, recv 1 s = Some (RErr EAGAIN, mkState (queues s) (def_queue s) ev) ∧
     bytes_of (input s) = bytes_of ev ∧ alive ev ∧
     (length ev < length (input s) ∨ input s = [] ∧ ev = [])%nat).
Proof.
  unfold recv, alive. destruct s as [l d [|[c|e] ev]]; cbn; intros Ha.
  - right. exists []. split; [done|]. split; [done|]. split; [done|]. by right.
  - left. apply Forall_cons in Ha as [[Hne Hok] Ha]. destruct c as [|b c]; [done|].
    apply Forall_cons in Hok as [Hb Hc]. exists b, (match c with [] => ev | _ => Chunk c :: ev end).
    split; [by destruct c|]. split; [done|]. destruct c as [|b' c].
    + split; [done|]. split; [done|]. lia.
    + split; [done|]. split; [by constructor|]. cbn. lia.
  - right. apply Forall_cons in Ha as [-> Ha]. exists ev. split; [done|]. split; [done|].
    split; [done|]. left. lia.
Qed.

Lemma recv_many n s : alive (input s) → 0 < n →
  (∃ d ev, recv n s = Some (RBytes d, mkState (queues s) (def_queue s) ev) ∧ d ≠ [] ∧ len d ≤ n ∧
     bytes_of (input s) = d ++ bytes_of ev ∧ alive ev ∧
     (length ev ≤ length (input s))%nat ∧ (len d < n → (length ev < length (input s))%nat)) ∨
  (∃ ev, recv n s = Some (RErr EAGAIN, mkState (queues s) (def_queue s) ev) ∧
     bytes_of (input s) = bytes_of ev ∧ alive ev ∧
     (length ev < length (input s) ∨ input s = [] ∧ ev = [])%nat).
Proof.
  unfold recv, alive. destruct s as [l d [|[c|e] ev]]; cbn; intros Ha Hn.
  - right. exists []. split; [done|]. split; [done|]. split; [done|]. by right.
  - left. apply Forall_cons in Ha as [[Hne Hok] Ha].
    eexists _, _. split; [done|]. split; [|split; [|split; [|split]]].
    + destruct c as [|b c]; [done|]. destruct (Z.to_nat n) eqn:?; [lia|]. done.
    + rewrite length_take. lia.
    + change (bytes_of (Chunk c :: ev)) with (c ++ bytes_of ev).
      rewrite <-(take_drop (Z.to_nat n) c) at 1. rewrite <-app_assoc. f_equal.
      by destruct (drop (Z.to_nat n) c).
    + destruct (drop (Z.to_nat n) c) eqn:Hd; [done|]. constructor; [|done].
      split; [done|]. rewrite <-Hd. by apply Forall_drop.
    + destruct (drop (Z.to_nat n) c) eqn:Hd; cbn [length]; [split; lia|]. split; [lia|].
      apply (f_equal length) in Hd. rewrite length_drop in Hd. cbn in Hd. rewrite length_take. lia.
  - right. apply Forall_cons in Ha as [-> Ha]. exists ev. split; [done|]. split; [done|].
    split; [done|]. left. lia.
Qed.

(** ** Lemmas: reading the header *)

Lemma newDefQ_free : free_queue SocketBuffer_newDefQ.
Proof. split; [done|]. split; try done; cbn; try lia. Qed.

Lemma take_insert_snoc {A} (l r : list A) b : take (length r) l = r → (length r < length l)%nat →
  take (S (length r)) (<[length r := b]> l) = r ++ [b].
Proof.
  intros Ht Hl. rewrite (take_S_r _ _ b).
  - rewrite take_insert_ge by lia. by rewrite Ht.
  - apply list_lookup_insert_eq. lia.
Qed.

(** Storing the next header byte in the queue in use. *)
Lemma queue_ok_put total q R b : queue_ok total q (len R) R [] → len R ≤ 4 →
  queue_ok total (mkQueue (q_socket q) (q_index q + 1) (q_index q + 1)
    (<[Z.to_nat (q_index q) := b]> (q_fixed_header q)) (q_buflen q) (q_datalen q) (q_buf q))
    (len R + 1) (R ++ [b]) [].
Proof.
  intros [Hi Hh Hf Ht Hd Hb Hl Htot] HR. rewrite Hi, Nat2Z.id.
  split; cbn [q_index q_headerlen q_fixed_header q_datalen q_buf q_buflen]; try done.
  - lens.
  - by rewrite length_insert.
  - rewrite length_app. cbn [length]. rewrite Nat.add_1_r. apply take_insert_snoc; [done|lia].
Qed.

Lemma queue_ok_stop total q k R D D' sock : queue_ok total q k R D →
  take (length D') (q_buf q) = D' → (D' ≠ [] → total ≤ q_buflen q) →
  queue_ok total (mkQueue sock 0 (q_headerlen q) (q_fixed_header q) (q_buflen q) (len D') (q_buf q)) 0 R D'.
Proof. intros []. by split. Qed.

(** A free queue belongs to any read that has not started. *)
Lemma free_queue_any total q : free_queue q → queue_ok total q 0 [] [].
Proof. intros [_ []]. by split. Qed.

(** The queue that a read uses. *)
Definition current_queue (socket : Z) (s : state) : socket_queue :=
  match find_queue socket (queues s) with Some q => q | None => def_queue s end.

(** Stopping a read, with the data [D'] in the buffer: the queue of the socket
    is kept aside. *)
Lemma interrupted_ok sock total s k R D D' : 0 < sock → reading sock total s k R D →
  take (length D') (q_buf (current_queue sock s)) = D' →
  (D' ≠ [] → total ≤ q_buflen (current_queue sock s)) →
  ∃ s', SocketBuffer_interrupted sock (len D') s = Some ((), s') ∧ reading sock total s' 0 R D' ∧
    input s' = input s ∧ others sock (queues s') = others sock (queues s).
Proof.
  intros Hs [Hnd Hk HR Hq]. unfold current_queue.
  unfold SocketBuffer_interrupted, mbind, io_bind, get, set_queues, set_def.
  destruct (find_queue sock (queues s)) as [q|] eqn:Hf; intros Hbuf Htot.
  - destruct Hq as [Hq Hdef]. destruct (find_queue_socket _ _ _ Hf) as [Hsock _].
    destruct (update_queue_ok sock (mkQueue (q_socket q) 0 (q_headerlen q) (q_fixed_header q)
      (q_buflen q) (len D') (q_buf q)) (queues s) (ex_intro _ q Hf) Hsock) as (Hf' & Ho & Hss).
    eexists. split; [done|]. split; [|done]. split; cbn [queues def_queue].
    + by rewrite Hss.
    + lia.
    + done.
    + rewrite Hf'. split; [|done]. by eapply queue_ok_stop.
  - destruct Hq as (HD & Hk' & Hdef). cbn zeta.
    destruct (append_queue_ok sock (mkQueue sock 0 (q_headerlen (def_queue s)) (q_fixed_header (def_queue s))
      (q_buflen (def_queue s)) (len D') (q_buf (def_queue s))) (queues s) Hf eq_refl Hnd) as (Hf' & Ho & Hnd').
    eexists. split; [done|]. split; [|done].
    split; cbn [queues def_queue q_socket q_headerlen q_fixed_header q_buflen q_buf].
    + done.
    + lia.
    + done.
    + rewrite Hf'. split; [|apply newDefQ_free].
      destruct Hdef as [[-> Hfree]|[_ Hdef]]; [|by eapply queue_ok_stop].
      assert (R = []) as -> by (destruct R; [done|cbn in Hk'; lia]).
      eapply queue_ok_stop; [by apply free_queue_any|done|done].
Qed.

(** Storing a byte just received. *)
Lemma queueChar_ok sock total s R b : 0 < sock → reading sock total s (len R) R [] → len R ≤ 4 →
  ∃ s', SocketBuffer_queueChar sock b s = Some ((), s') ∧ reading sock total s' (len R + 1) (R ++ [b]) [] ∧
    input s' = input s ∧ others sock (queues s') = others sock (queues s).
Proof.
  intros Hs [Hnd Hk HR Hq] H4. unfold SocketBuffer_queueChar, mbind, io_bind, get, set_queues, set_def, mret, io_ret.
  assert (Hlen : len (R ++ [b]) = len R + 1) by lens.
  destruct (find_queue sock (queues s)) as [q|] eqn:Hf.
  - destruct Hq as [Hq Hdef]. destruct (find_queue_socket _ _ _ Hf) as [Hsock _].
    assert (Hlt : (4 <? q_index q) = false) by (rewrite (qo_index _ _ _ _ _ Hq); apply Z.ltb_ge; lia).
    rewrite Hlt.
    destruct (update_queue_ok sock (mkQueue (q_socket q) (q_index q + 1) (q_index q + 1)
      (<[Z.to_nat (q_index q) := b]> (q_fixed_header q)) (q_buflen q) (q_datalen q) (q_buf q))
      (queues s) (ex_intro _ q Hf) Hsock) as (Hf' & Ho & Hss).
    eexists. split; [done|]. split; [|done].
    split; cbn [queues def_queue].
    + by rewrite Hss.
    + lia.
    + unfold fixed_header_size. lia.
    + rewrite Hf'. split; [by apply queue_ok_put|done].
  - destruct Hq as (_ & Hk' & Hdef).
    assert (Hdone : ∀ d, q_socket d = sock → queue_ok total d (len R) R [] →
      reading sock total (mkState (queues s) (mkQueue (q_socket d) (q_index d + 1) (q_index d + 1)
        (<[Z.to_nat (q_index d) := b]> (q_fixed_header d)) (q_buflen d) (q_datalen d) (q_buf d)) (input s))
        (len R + 1) (R ++ [b]) []).
    { intros d Hd Hok. split; cbn [queues def_queue].
      - done.
      - lia.
      - unfold fixed_header_size. lia.
      - rewrite Hf. split; [done|]. split; [done|]. right. split; [done|]. by apply queue_ok_put. }
    destruct Hdef as [[H0 [Hz Hfree]]|[Hsock Hdef]].
    + rewrite Hz. cbn [Z.eqb]. cbn [q_index]. cbn [orb Z.ltb Z.compare].
      eexists. split; [done|]. split; [|done].
      apply (Hdone (mkQueue sock 0 (q_headerlen (def_queue s)) (q_fixed_header (def_queue s))
        (q_buflen (def_queue s)) 0 (q_buf (def_queue s)))); [done|].
      assert (R = []) as -> by (destruct R; [done|cbn in *; lia]).
      destruct Hfree. by split.
    + assert (Hlt : (4 <? q_index (def_queue s)) = false)
        by (rewrite (qo_index _ _ _ _ _ Hdef); apply Z.ltb_ge; lia).
      assert (H0 : (q_socket (def_queue s) =? 0) = false) by (rewrite Hsock; apply Z.eqb_neq; lia).
      assert (H1 : (q_socket (def_queue s) =? sock) = true) by (rewrite Hsock; apply Z.eqb_refl).
      rewrite H0, H1, Hlt. cbn [negb orb].
      eexists. split; [done|]. split; [|done]. by apply Hdone.
Qed.

(** The events only shrink, and the queues of other sockets stay. *)
Definition kept (socket : Z) (s s' : state) : Prop :=
  alive (input s') ∧ others socket (queues s') = others socket (queues s) ∧
  (length (input s') ≤ length (input s))%nat.

(** A call that had to stop: it consumed a would-block event, or everything the
    socket will ever receive. *)
Definition waited (socket : Z) (s s' : state) : Prop :=
  kept socket s s' ∧ ((length (input s') < length (input s))%nat ∨ bytes_of (input s') = []).

Lemma kept_trans socket s s' s'' : kept socket s s' → kept socket s' s'' → kept socket s s''.
Proof. intros (_ & H2 & H3) (H4 & H5 & H6). split; [done|]. split; [congruence|lia]. Qed.

Lemma kept_waited socket s s' s'' : kept socket s s' → waited socket s' s'' → waited socket s s''.
Proof.
  intros Hk [Hk' Hw]. split; [by eapply kept_trans|]. destruct Hk as (_ & _ & Hl).
  destruct Hw; [left; lia|by right].
Qed.

Lemma reading_input sock total s k R D ev : reading sock total s k R D →
  reading sock total (mkState (queues s) (def_queue s) ev) k R D.
Proof. intros []. by split. Qed.

(** A byte that was queued by an earlier call is replayed. *)
Lemma getch_replay sock total s k R D : reading sock total s k R D → k < len R →
  ∃ b s', Socket_getch sock s = Some ((TCPSOCKET_COMPLETE, b), s') ∧ R !! Z.to_nat k = Some b ∧
    reading sock total s' (k + 1) R D ∧ input s' = input s ∧
    others sock (queues s') = others sock (queues s).
Proof.
  intros [Hnd Hk HR Hq] Hlt.
  unfold Socket_getch, SocketBuffer_getQueuedChar, mbind, io_bind, get, set_queues, mret, io_ret.
  destruct (find_queue sock (queues s)) as [q|] eqn:Hf; [|lia].
  destruct Hq as [[Hi Hh Hfx Ht Hd Hb Hl Htot] Hdef]. destruct (find_queue_socket _ _ _ Hf) as [Hsock _].
  rewrite Hi, Hh, (proj2 (Z.ltb_lt _ _)) by done.
  destruct (lookup_lt_is_Some_2 R (Z.to_nat k)) as [b Hbk]; [lia|].
  assert (Hpk : peek (q_fixed_header q) k = Some b).
  { unfold peek. rewrite decide_True by lia. rewrite <-Ht in Hbk. rewrite lookup_take_lt in Hbk by lia. done. }
  rewrite Hpk. destruct (update_queue_ok sock (mkQueue (q_socket q) (k + 1) (len R) (q_fixed_header q)
    (q_buflen q) (q_datalen q) (q_buf q)) (queues s) (ex_intro _ q Hf) Hsock) as (Hf' & Ho & Hss).
  exists b. eexists. split; [done|]. split; [done|]. split; [|done].
  split; cbn [queues def_queue]; [by rewrite Hss|lia|done|]. rewrite Hf'. split; [by split|done].
Qed.

(** When all the queued bytes have been read, the next one comes from [recv]. *)
Lemma getch_fresh sock total s R : reading sock total s (len R) R [] → len R ≤ 4 →
  Socket_getch sock s =
    (r ← recv 1;
     match r with
     | RErr e => if e =? EAGAIN then SocketBuffer_interrupted sock 0;; mret (TCPSOCKET_INTERRUPTED, 0)
                 else mret (SOCKET_ERROR, 0)
     | RBytes [] => mret (SOCKET_ERROR, 0)
     | RBytes (b :: _) => SocketBuffer_queueChar sock b;; mret (TCPSOCKET_COMPLETE, b)
     end) s.
Proof.
  intros [Hnd Hk HR Hq] H4.
  unfold Socket_getch, SocketBuffer_getQueuedChar, mbind, io_bind, get, mret, io_ret.
  destruct (find_queue sock (queues s)) as [q|]; [|done]. destruct Hq as [[Hi Hh _ _ _ _ _ _] _].
  rewrite Hi, Hh, Z.ltb_irrefl. by rewrite (proj2 (Z.ltb_ge 4 _)).
Qed.

(** One character of the stream [T], or a stop with the header read so far. *)
Lemma getch_ok sock total s k R D T : 0 < sock → reading sock total s k R D → alive (input s) →
  T = R ++ D ++ bytes_of (input s) → (k = len R → D = [] ∧ k ≤ 4) →
  (∃ b s' R', Socket_getch sock s = Some ((TCPSOCKET_COMPLETE, b), s') ∧ T !! Z.to_nat k = Some b ∧
     reading sock total s' (k + 1) R' D ∧ T = R' ++ D ++ bytes_of (input s') ∧ kept sock s s' ∧
     len R ≤ len R' ≤ Z.max (len R) (k + 1)) ∨
  (∃ s', Socket_getch sock s = Some ((TCPSOCKET_INTERRUPTED, 0), s') ∧ k = len R ∧ D = [] ∧
     reading sock total s' 0 R [] ∧ T = R ++ bytes_of (input s') ∧ waited sock s s').
Proof.
  intros Hs Hrd Ha HT Hend. destruct (decide (k < len R)) as [Hlt|Hge].
  - left. destruct (getch_replay _ _ _ _ _ _ Hrd Hlt) as (b & s' & Hrun & Hb & Hrd' & Hin & Ho).
    exists b, s', R. rewrite Hin. split; [done|]. split; [|split; [done|split; [done|]]].
    + rewrite HT. by apply lookup_app_l_Some.
    + unfold kept. rewrite Hin. split; [done|lia].
  - assert (Hk : k = len R) by (destruct Hrd; lia). destruct (Hend Hk) as [-> H4]. subst k.
    cbn [app] in HT. rewrite (getch_fresh _ _ _ _ Hrd H4). unfold mbind, io_bind.
    destruct (recv_one s Ha) as [(b & ev & Hrecv & Hb & Hbytes & Ha' & Hl)|(ev & Hrecv & Hbytes & Ha' & Hl)];
      rewrite Hrecv;
      pose proof (reading_input _ _ _ _ _ _ ev Hrd) as Hrd1.
    + left. destruct (queueChar_ok sock total _ R b Hs Hrd1 H4) as (s' & Hrun & Hrd' & Hin & Ho).
      exists b, s', (R ++ [b]). rewrite Hrun. cbn [input] in Hin. rewrite Hin.
      split; [done|]. split; [|split; [done|split]].
      * rewrite HT, Hbytes, Nat2Z.id. by apply list_lookup_middle.
      * rewrite HT, Hbytes. by rewrite <-app_assoc.
      * unfold kept. rewrite Hin. split; [done|lens].
    + right. change (EAGAIN =? EAGAIN) with true. cbn iota.
      destruct (interrupted_ok sock total _ (len R) R [] [] Hs Hrd1) as (s' & Hrun & Hrd' & Hin & Ho);
        [done|done|].
      change (len []) with 0 in Hrun. exists s'. rewrite Hrun. cbn [input] in Hin. rewrite Hin.
      split; [done|]. split; [done|]. split; [done|]. split; [done|].
      split; [by rewrite HT, Hbytes|]. unfold waited, kept. rewrite Hin. cbn [queues] in Ho.
      split; [split; [done|split; [done|]]|].
      * destruct Hl as [?|[_ ->]]; [lia|]. cbn. lia.
      * destruct Hl as [?|[_ ->]]; [by left|by right].
Qed.

(** The remaining length, read at the byte [k] of a stream that encodes it there. *)
Lemma decode_ok sock total T tail left : ∀ fuel n k s R D mult value,
  0 < sock → 0 ≤ k → reading sock total s k R D → alive (input s) → T = R ++ D ++ bytes_of (input s) →
  let H := k + len (encode_loop fuel n) in
  H ≤ 5 → len R ≤ H → (D ≠ [] → len R = H) → drop (Z.to_nat k) T = encode_loop fuel n ++ tail →
  (left ≤ fuel)%nat → (0 < left)%nat → 0 ≤ n < 128 ^ Z.of_nat left → 
  (∃ s' R', decode_loop left sock mult value s = Some ((TCPSOCKET_COMPLETE, value + n * mult), s') ∧
     reading sock total s' H R' D ∧ len R' = H ∧ T = R' ++ D ++ bytes_of (input s') ∧ kept sock s s') ∨
  (∃ s' R' v, decode_loop left sock mult value s = Some ((TCPSOCKET_INTERRUPTED, v), s') ∧ D = [] ∧
     reading sock total s' 0 R' [] ∧ len R' < H ∧ T = R' ++ bytes_of (input s') ∧ waited sock s s').
Proof.
  induction left as [|left IH]; intros fuel n k s R D mult value Hs Hk Hrd Ha HT H H5 HRH HD Hdrop Hf Hl0 Hn; [lia|].
  destruct fuel as [|fuel]; [lia|]. cbn [decode_loop]. unfold mbind, io_bind.
  assert (Hpos : 1 ≤ len (encode_loop (S fuel) n)) by (cbn [encode_loop]; case_leb; cbn [length]; lia).
  destruct (getch_ok sock total s k R D T Hs Hrd Ha HT) as
    [(b & s1 & R1 & Hrun & Hb & Hrd1 & HT1 & Hk1 & HR1)|(s1 & Hrun & HkR & HD0 & Hrd1 & HT1 & Hw)].
  { intros HkR. split; [|lia]. destruct (decide (D = [])); [done|]. specialize (HD n0). lia. }
  2: { right. exists s1, R, value. unfold WebSocket_getch. rewrite Hrun.
       split; [done|]. split; [done|]. split; [done|]. split; [lia|]. done. }
  unfold WebSocket_getch. rewrite Hrun. cbn [negb Z.eqb].
  change (negb (TCPSOCKET_COMPLETE =? TCPSOCKET_COMPLETE)) with false. cbn iota.
  assert (Hbe : encode_loop (S fuel) n !! 0%nat = Some b).
  { rewrite <-(Nat.add_0_r (Z.to_nat k)), <-lookup_drop, Hdrop in Hb. rewrite lookup_app_l in Hb by lia. done. }
  cbn [encode_loop] in *.
  assert (Hdig : 0 ≤ n mod 128 < 128) by (apply Z.mod_pos_bound; lia).
  pose proof (Z.div_mod n 128 ltac:(lia)) as Hdm. assert (Hq0 : 0 ≤ n / 128) by (apply Z.div_pos; lia).
  destruct (Z.ltb_spec 0 (n / 128)) as [Hq|Hq]; injection Hbe as <-.
  - destruct (digit_more _ Hdig) as (_ & Hland & Hbit). rewrite Hland, Hbit.
    assert (0 < left)%nat. { destruct left; [|lia]. change (128 ^ Z.of_nat 1) with 128 in Hn.
      assert (n / 128 = 0) by (apply Z.div_small; lia). lia. }
    cbn [length] in *.
    destruct (IH fuel (n / 128) (k + 1) s1 R1 D (mult * 128) (value + n mod 128 * mult)) as
      [(s2 & R2 & Hrun2 & Hrd2 & HR2 & HT2 & Hk2)|(s2 & R2 & v & Hrun2 & HD2 & Hrd2 & HR2 & HT2 & Hw2)];
      try done; try lia.
    + apply Hk1.
    + intros HDne. specialize (HD HDne). lia.
    + replace (Z.to_nat (k + 1)) with (Z.to_nat k + 1)%nat by lia. rewrite <-drop_drop, Hdrop. done.
    + rewrite Nat2Z.inj_succ, Z.pow_succ_r in Hn by lia. split; [lia|]. apply Z.div_lt_upper_bound; lia.
    + left. exists s2, R2. rewrite Hrun2. split.
      { replace (value + n mod 128 * mult + n / 128 * (mult * 128)) with (value + n * mult); [done|].
        rewrite Hdm at 1. ring. }
      replace (k + 1 + len (encode_loop fuel (n / 128))) with H in * by (unfold H; lia).
      split; [done|]. split; [done|]. split; [done|]. by eapply kept_trans.
    + right. exists s2, R2, v. split; [done|]. split; [done|]. split; [done|]. split; [unfold H; lia|].
      split; [done|]. by eapply kept_waited.
  - destruct (digit_last _ Hdig) as (Hland & Hbit). rewrite Hland, Hbit. left.
    assert (n / 128 = 0) as Hz by lia. rewrite Hz in Hdm.
    exists s1, R1. split; [by replace (n mod 128) with n by lia|]. cbn [length] in *.
    replace (k + 1) with H in * by (unfold H; lia). split; [done|].
    split; [destruct Hrd1; lia|]. done.
Qed.

(** ** Lemmas: reading the data *)

(** No read in progress on the socket. *)
Definition idle (socket : Z) (s : state) : Prop :=
  NoDup (q_socket <$> queues s) ∧ find_queue socket (queues s) = None ∧ free_queue (def_queue s).

Lemma idle_reading sock total s : idle sock s → reading sock total s 0 [] [].
Proof. intros (Hnd & Hf & Hfree). split; [done|done|done|]. rewrite Hf. auto. Qed.

Lemma current_ok sock total s k R D : 0 < k → reading sock total s k R D →
  queue_ok total (current_queue sock s) k R D ∧ q_socket (current_queue sock s) = sock.
Proof.
  intros Hk [_ _ _ Hq]. unfold current_queue. destruct (find_queue sock (queues s)) eqn:Hf.
  - split; [apply Hq|]. by apply find_queue_socket in Hf as [? _].
  - destruct Hq as (-> & _ & [[? _]|[? ?]]); [lia|done].
Qed.

Lemma complete_ok sock total s k R D : reading sock total s k R D →
  ∃ s', SocketBuffer_complete sock s = Some (q_buf (current_queue sock s), s') ∧ idle sock s' ∧
    input s' = input s ∧ others sock (queues s') = others sock (queues s).
Proof.
  intros [Hnd Hk HR Hq].
  unfold SocketBuffer_complete, current_queue, mbind, io_bind, get, set_queues, set_def, mret, io_ret.
  assert (Hreset : ∀ q k R D, queue_ok total q k R D → free_queue (reset_queue q)).
  { intros q k' R' D' []. split; [done|]. by split. }
  destruct (find_queue sock (queues s)) as [q|] eqn:Hf.
  - eexists. split; [done|]. cbn [queues input]. destruct (remove_queue_ok sock (queues s) Hnd) as (? & ? & ?).
    split; [|done]. split; [done|]. split; [done|]. destruct Hq. by eapply Hreset.
  - eexists. split; [done|]. split; [|done]. split; [done|]. split; [done|]. cbn [def_queue].
    destruct Hq as (_ & _ & [[_ Hfree]|[_ Hok]]); [|by eapply Hreset].
    by apply (Hreset _ 0 [] []), free_queue_any.
Qed.

(** Replacing the queue in use by one of the same read. *)
Lemma set_current_queue sock total s k R D D' q' : 0 < k → reading sock total s k R D →
  queue_ok total q' k R D' → q_socket q' = sock → (D = [] → D' = []) →
  let s' := match find_queue sock (queues s) with
            | Some _ => mkState (update_queue sock q' (queues s)) (def_queue s) (input s)
            | None => mkState (queues s) q' (input s)
            end in
  reading sock total s' k R D' ∧ current_queue sock s' = q' ∧ input s' = input s ∧
  others sock (queues s') = others sock (queues s).
Proof.
  intros Hk [Hnd Hkr HR Hq] Hok Hsock HD s'. unfold s', current_queue.
  destruct (find_queue sock (queues s)) as [q|] eqn:Hf.
  - destruct (update_queue_ok sock q' (queues s) (ex_intro _ q Hf) Hsock) as (Hf' & Ho & Hss).
    cbn [queues def_queue input]. rewrite Hf'. split; [|done]. split; cbn [queues def_queue].
    + by rewrite Hss.
    + done.
    + done.
    + rewrite Hf'. destruct Hq. done.
  - cbn [queues def_queue input]. rewrite Hf. split; [|done]. split; cbn [queues def_queue]; try done.
    destruct Hq as (HD0 & Hlen & _). rewrite Hf, (HD HD0) in *. split; [done|]. split; [done|]. by right.
Qed.

Lemma grow_buf_ok total q k R D : queue_ok total q k R D → 0 ≤ total →
  queue_ok total (grow_buf q total) k R D ∧ total ≤ q_buflen (grow_buf q total) ∧
  q_socket (grow_buf q total) = q_socket q.
Proof.
  intros [Hi Hh Hf Ht Hd Hb Hl Htot] H0. unfold grow_buf.
  destruct (Z.ltb_spec (q_buflen q) total) as [Hlt|Hge]; [|by split].
  assert (D = []) as -> by (destruct D; [done|specialize (Htot ltac:(done)); lia]).
  rewrite Hd. cbn [length]. split; [|done].
  split; cbn [q_index q_headerlen q_fixed_header q_datalen q_buf q_buflen]; try done.
  change (0 <? Z.of_nat 0) with false. cbn iota. rewrite length_resize. lia.
Qed.

Lemma getQueuedData_ok sock total s k R D : 0 < k → 0 ≤ total → reading sock total s k R D →
  ∃ s', SocketBuffer_getQueuedData sock total s = Some (len D, s') ∧ reading sock total s' k R D ∧
    total ≤ q_buflen (current_queue sock s') ∧ input s' = input s ∧
    others sock (queues s') = others sock (queues s).
Proof.
  intros Hk H0 Hrd. destruct (current_ok _ _ _ _ _ _ Hk Hrd) as [Hok Hsock].
  destruct (grow_buf_ok _ _ _ _ _ Hok H0) as (Hok' & Htot & Hsock').
  destruct (set_current_queue sock total s k R D D _ Hk Hrd Hok') as (Hrd' & Hcur & Hin & Ho);
    [congruence|done|].
  pose proof (qo_datalen _ _ _ _ _ Hok) as Hd. destruct Hrd as [_ _ _ Hq].
  unfold SocketBuffer_getQueuedData, mbind, io_bind, get, set_queues, set_def, mret, io_ret.
  unfold current_queue in *. destruct (find_queue sock (queues s)) as [q|].
  - eexists. rewrite Hd. split; [done|]. rewrite Hcur. done.
  - destruct Hq as (-> & _). eexists. split; [done|]. rewrite Hcur. done.
Qed.

Lemma write_at_take off d buf : 0 ≤ off → off + len d ≤ len buf →
  take (Z.to_nat off + length d) (write_at off d buf) = take (Z.to_nat off) buf ++ d ∧
  len (write_at off d buf) = len buf.
Proof.
  intros H0 Hl. unfold write_at.
  assert (Hlt : length (take (Z.to_nat off) buf) = Z.to_nat off) by (rewrite length_take; lia).
  split.
  - rewrite app_assoc. apply take_app_length'. rewrite length_app. lia.
  - rewrite !length_app, Hlt, length_drop. lia.
Qed.

Lemma store_data_ok sock total s k R D d : 0 < k → reading sock total s k R D →
  len D + len d ≤ total → total ≤ q_buflen (current_queue sock s) →
  ∃ s', store_data sock (len D) d s = Some (q_buf (current_queue sock s'), s') ∧
    reading sock total s' k R D ∧ take (length (D ++ d)) (q_buf (current_queue sock s')) = D ++ d ∧
    total ≤ q_buflen (current_queue sock s') ∧ input s' = input s ∧
    others sock (queues s') = others sock (queues s).
Proof.
  intros Hk Hrd Hlen Htot. destruct (current_ok _ _ _ _ _ _ Hk Hrd) as [Hok Hsock].
  pose proof Hok as [Hi Hh Hf Ht Hd Hb Hl Ht'].
  set (q := current_queue sock s) in *.
  destruct (write_at_take (len D) d (q_buf q)) as [Htake Hwl]; [lia|lia|]. rewrite Nat2Z.id in Htake.
  rewrite Hb, <-length_app in Htake.
  set (q' := mkQueue (q_socket q) (q_index q) (q_headerlen q) (q_fixed_header q) (q_buflen q)
    (q_datalen q) (write_at (len D) d (q_buf q))).
  assert (Hok' : queue_ok total q' k R D).
  { split; cbn [q' q_index q_headerlen q_fixed_header q_datalen q_buf q_buflen]; try done; [|lia].
    assert (Htt : take (length D) (take (length (D ++ d)) (write_at (len D) d (q_buf q)))
      = take (length D) (write_at (len D) d (q_buf q))).
    { rewrite take_take. f_equal. rewrite length_app. lia. }
    rewrite <-Htt, Htake. apply take_app_length. }
  destruct (set_current_queue sock total s k R D D q' Hk Hrd Hok' Hsock) as (Hrd' & Hcur & Hin & Ho); [done|].
  unfold store_data, mbind, io_bind, get, set_queues, set_def, mret, io_ret.
  subst q'. unfold q, current_queue in *. clear q.
  destruct (find_queue sock (queues s)) as [q|]; rewrite (proj2 (Z.leb_le _ _)) by lia;
    (eexists; rewrite Hcur; split; [done|]; cbn [q_buf q_buflen]; done).
Qed.

(** The data of the packet: all of it, or a stop with more of it kept. *)
Lemma getdata_ok sock s k R D body rest : 0 < sock → 0 < k →
  let total := len body in
  reading sock total s k R D → alive (input s) → len D < total ∨ D = [] →
  D ++ bytes_of (input s) = body ++ rest → 
  (∃ buf s', Socket_getdata sock total s = Some ((Some buf, total), s') ∧ take (length body) buf = body ∧
     idle sock s' ∧ bytes_of (input s') = rest ∧ kept sock s s') ∨
  (∃ buf s' D', Socket_getdata sock total s = Some ((Some buf, len D'), s') ∧ len D' < total ∧
     reading sock total s' 0 R D' ∧ D' ++ bytes_of (input s') = body ++ rest ∧ waited sock s s').
Proof.
  intros Hs Hk total Hrd Ha HD HT. unfold Socket_getdata, Socket_getdata_rc.
  destruct (Z.eqb_spec total 0) as [Hz|Hnz].
  { left. destruct (complete_ok sock total s k R D Hrd) as (s' & Hrun & Hidle & Hin & Ho).
    eexists _, s'. unfold mbind, io_bind. rewrite Hrun, Hz. split; [done|].
    assert (body = []) as -> by (destruct body; [done|cbn in *; unfold total in *; cbn in *; lia]).
    assert (D = []) as -> by (destruct HD as [HD|?]; [lia|done]).
    unfold kept. rewrite Hin, Ho. done. }
  assert (H0 : 0 ≤ total) by (unfold total; lia). assert (HDt : len D < total) by (destruct HD as [?| ->]; [lia|cbn; lia]).
  destruct (getQueuedData_ok sock total s k R D Hk H0 Hrd) as (s1 & Hrun1 & Hrd1 & Htot1 & Hin1 & Ho1).
  unfold mbind, io_bind. rewrite Hrun1. rewrite <-Hin1 in Ha.
  destruct (recv_many (total - len D) s1 Ha ltac:(lia)) as
    [(d & ev & Hrecv & Hd & Hdl & Hbytes & Ha' & Hl & Hl')|(ev & Hrecv & Hbytes & Ha' & Hl)]; rewrite Hrecv;
    set (s2 := mkState _ _ ev);
    assert (Hrd2 : reading sock total s2 k R D) by (by apply reading_input);
    assert (Hcur2 : current_queue sock s2 = current_queue sock s1) by done.
  - destruct d as [|x d]; [done|]. set (dd := x :: d) in *.
    destruct (store_data_ok sock total s2 k R D dd Hk Hrd2) as
      (s3 & Hrun3 & Hrd3 & Htake & Htot3 & Hin3 & Ho3); [lia|by rewrite Hcur2|].
    rewrite Hrun3. replace (len D + len dd) with (len (D ++ dd)) by lens.
    assert (HT' : (D ++ dd) ++ bytes_of ev = body ++ rest).
    { rewrite <-HT, <-Hin1, Hbytes. by rewrite <-app_assoc. }
    destruct (Z.eqb_spec (len (D ++ dd)) total) as [He|Hne].
    + left. destruct (complete_ok sock total s3 k R D Hrd3) as (s4 & Hrun4 & Hidle & Hin4 & Ho4).
      rewrite Hrun4. eexists _, s4. split; [by rewrite He|].
      assert (length (D ++ dd) = length body) as Hlb by (unfold total in He; lia).
      apply app_inj_1 in HT' as [Hbody Hrest]; [|done].
      rewrite <-Hbody. split; [done|]. split; [done|]. rewrite Hin4, Hin3. split; [done|].
      unfold kept. rewrite Hin4, Hin3, Ho4, Ho3. cbn [s2 input queues]. rewrite <-Hin1.
      split; [done|]. done.
    + right. destruct (interrupted_ok sock total s3 k R D (D ++ dd) Hs Hrd3 Htake (λ _, Htot3)) as
        (s4 & Hrun4 & Hrd4 & Hin4 & Ho4).
      rewrite Hrun4. eexists _, s4, (D ++ dd). split; [done|].
      split; [rewrite length_app, Nat2Z.inj_add in *; lia|]. split; [done|].
      rewrite Hin4, Hin3. split; [done|].
      unfold waited, kept. rewrite Hin4, Hin3, Ho4, Ho3. cbn [s2 input queues]. rewrite <-Hin1.
      rewrite length_app, Nat2Z.inj_add in Hne.
      assert (length ev < length (input s1))%nat by (apply Hl'; lia).
      split; [split; [done|split; [done|lia]]|by left].
  - right. change (negb (EAGAIN =? EAGAIN)) with false. cbn iota.
    unfold queue_buf, mbind, io_bind, get, mret, io_ret. rewrite (proj2 (Z.eqb_neq (len D) total)) by lia.
    destruct (current_ok _ _ _ _ _ _ Hk Hrd2) as [Hok2 _].
    destruct (interrupted_ok sock total s2 k R D D Hs Hrd2 (qo_data _ _ _ _ _ Hok2)) as
      (s4 & Hrun4 & Hrd4 & Hin4 & Ho4); [by rewrite Hcur2|].
    rewrite Hrun4. eexists _, s4, D. split; [done|]. split; [done|]. split; [done|].
    rewrite Hin4. split; [by rewrite <-HT, <-Hin1, Hbytes|].
    unfold waited, kept. rewrite Hin4, Ho4. cbn [s2 input queues]. rewrite <-Hin1.
    split; [split; [done|split; [done|]]|].
    + destruct Hl as [?|[_ ->]]; [lia|cbn; lia].
    + destruct Hl as [?|[_ ->]]; [by left|by right].
Qed.

(** ** Lemmas: reading a packet *)

Definition packet_header (hb : Z) (body : list Z) : list Z := hb :: MQTTPacket_encode (len body).

(** A packet of which the bytes [R] and [D] have arrived, the next ones being on
    their way. *)
Record partial (socket : Z) (s : state) (hb : Z) (body rest R D : list Z) : Prop := {
  pt_reading : reading socket (len body) s 0 R D;
  pt_stream : packet_header hb body ++ body ++ rest = R ++ D ++ bytes_of (input s);
  pt_header : len R ≤ len (packet_header hb body);
  pt_data : D ≠ [] → len R = len (packet_header hb body);
  pt_more : len D < len body ∨ D = [];
  pt_missing : len R < len (packet_header hb body) ∨ len D < len body
}.

Lemma Factory_read_ok sock s hb body rest R D : 0 < sock → len body < 2 ^ 28 →
  partial sock s hb body rest R D → alive (input s) →
  (∃ s', Factory_read sock s = Some (FPacket hb body, s') ∧ idle sock s' ∧
     bytes_of (input s') = rest ∧ kept sock s s') ∨
  (∃ s' R' D', Factory_read sock s = Some (FError TCPSOCKET_INTERRUPTED, s') ∧
     partial sock s' hb body rest R' D' ∧ waited sock s s').
Proof.
  intros Hs Hbl [Hrd HT HRl HDl HDm Hmiss] Ha. set (hdr := packet_header hb body) in *.
  assert (Hhdr : len hdr = 1 + len (MQTTPacket_encode (len body))) by (unfold hdr, packet_header; cbn [length]; lia).
  assert (He : 1 ≤ len (MQTTPacket_encode (len body)) ≤ 4).
  { rewrite encode_len by lia. unfold MQTTPacket_VBIlen. case_leb. }
  unfold Factory_read, mbind, io_bind, WebSocket_getch.
  destruct (getch_ok sock (len body) s 0 R D _ Hs Hrd Ha HT) as
    [(b & s1 & R1 & Hrun & Hb & Hrd1 & HT1 & Hk1 & HR1)|(s1 & Hrun & HkR & HD0 & Hrd1 & HT1 & Hw)].
  { intros HR. split; [|lia]. destruct (decide (D = [])) as [|Hne]; [done|]. specialize (HDl Hne). lia. }
  2: { right. rewrite Hrun. exists s1, R, []. split; [done|]. split; [|done].
       split; [done|done|done|done|by right|left; fold hdr; lia]. }
  rewrite Hrun. change (negb (TCPSOCKET_COMPLETE =? TCPSOCKET_COMPLETE)) with false. cbn iota.
  change (Z.to_nat 0) with 0%nat in Hb. unfold hdr, packet_header in Hb. cbn in Hb. injection Hb as <-.
  change (0 + 1) with 1 in Hrd1, HR1.
  destruct (decode_ok sock (len body) (hdr ++ body ++ rest) (body ++ rest) 4 10 (len body) 1 s1 R1 D 1 0) as
    [(s2 & R2 & Hrun2 & Hrd2 & HR2 & HT2 & Hk2)|(s2 & R2 & v & Hrun2 & HD2 & Hrd2 & HR2 & HT2 & Hw2)];
    fold (MQTTPacket_encode (len body)); try done; try lia.
  { apply Hk1. }
  { intros Hne. specialize (HDl Hne). lia. }
  - fold (MQTTPacket_encode (len body)) in *.
    unfold MQTTPacket_decode, MAX_NO_OF_REMAINING_LENGTH_BYTES. rewrite Hrun2.
    change (negb (TCPSOCKET_COMPLETE =? TCPSOCKET_COMPLETE)) with false. cbn iota.
    replace (0 + len body * 1) with (len body) by lia.
    apply app_inj_1 in HT2 as [<- HT2]; [|lia].
    rewrite <-Hhdr in Hrd2.
    destruct (getdata_ok sock s2 (len hdr) hdr D body rest Hs ltac:(lia) Hrd2 ltac:(apply Hk2) HDm (eq_sym HT2)) as
      [(buf & s3 & Hrun3 & Hbuf & Hidle & Hrest & Hk3)|(buf & s3 & D3 & Hrun3 & HD3 & Hrd3 & HT3 & Hw3)];
      unfold WebSocket_getdata; rewrite Hrun3.
    + left. exists s3. rewrite Z.ltb_irrefl, Nat2Z.id, Hbuf. split; [done|]. split; [done|]. split; [done|].
      eapply kept_trans; [exact Hk1|]. by eapply kept_trans.
    + right. exists s3, hdr, D3. rewrite (proj2 (Z.ltb_lt _ _)) by done. split; [done|]. split.
      * fold hdr in Hrd3; split; fold hdr; [done|by rewrite HT3|lia|done|by left|by right].
      * eapply kept_waited; [exact Hk1|]. by eapply kept_waited.
  - right. unfold MQTTPacket_decode, MAX_NO_OF_REMAINING_LENGTH_BYTES. rewrite Hrun2.
    fold (MQTTPacket_encode (len body)) in *.
    exists s2, R2, []. split; [done|]. split; [|by eapply kept_waited].
    split; fold hdr; [done|done|lia|done|by right|left; lia].
Qed.

Lemma receive_ok sock hb body rest fuel : ∀ s R D, 0 < sock → len body < 2 ^ 28 →
  partial sock s hb body rest R D → alive (input s) → (length (input s) < fuel)%nat →
  ∃ s', receive fuel sock s = Some (FPacket hb body, s') ∧ idle sock s' ∧
    bytes_of (input s') = rest ∧ kept sock s s'.
Proof.
  induction fuel as [|fuel IH]; intros s R D Hs Hbl Hpt Ha Hf; [lia|].
  cbn [receive]. unfold mbind, io_bind.
  destruct (Factory_read_ok sock s hb body rest R D Hs Hbl Hpt Ha) as
    [(s' & Hrun & ?)|(s1 & R1 & D1 & Hrun & Hpt1 & Hk1 & Hw)]; rewrite Hrun; [by exists s'|].
  change (TCPSOCKET_INTERRUPTED =? TCPSOCKET_INTERRUPTED) with true. cbn iota.
  destruct Hw as [Hlt|Hempty].
  - destruct (IH s1 R1 D1 Hs Hbl Hpt1) as (s' & Hrun' & H1 & H2 & H3); [apply Hk1|lia|].
    exists s'. split; [done|]. split; [done|]. split; [done|]. by eapply kept_trans.
  - exfalso. destruct Hpt1 as [_ HT HR HD Hm Hmiss]. rewrite Hempty in HT.
    apply (f_equal length) in HT. rewrite !length_app in HT. cbn [length] in HT.
    destruct Hm as [Hm| ->]; destruct Hmiss; cbn [length] in *; lia.
Qed.

(** ** Properties *)

(** C8: reading is independent of how the bytes arrive: from any idle state of the
    socket, and in whatever pieces and after however many would-block results
    the bytes of a packet arrive, the repeated calls of the packet factory end
    and give exactly that packet, having consumed exactly its bytes; the socket
    is idle again and the queues of the other sockets are untouched. *)
Theorem receive_fragmented sock s hb body rest : 0 < sock → idle sock s → alive (input s) →
  is_byte hb → len body < 2 ^ 28 →
  bytes_of (input s) = hb :: MQTTPacket_encode (len body) ++ body ++ rest →
  ∃ s', receive (S (length (input s))) sock s = Some (FPacket hb body, s') ∧ idle sock s' ∧
    bytes_of (input s') = rest ∧ alive (input s') ∧
    others sock (queues s') = others sock (queues s).
Proof.
  intros Hs Hidle Ha Hb Hbl HT.
  assert (Hpt : partial sock s hb body rest [] []).
  { split; [by apply idle_reading|by rewrite HT|cbn; lia|done|by right|].
    left. unfold packet_header. cbn [length]. lia. }
  destruct (receive_ok sock hb body rest (S (length (input s))) s [] [] Hs Hbl Hpt Ha ltac:(lia))
    as (s' & Hrun & Hi & Hr & Hk1 & Hk2 & _).
  by exists s'.
Qed.

(** A PUBLISH whose seven bytes arrive one, none, three and three at a time. *)
Definition slow_input : list recv_event :=
  [RError EAGAIN; Chunk [0x30]; RError EAGAIN; Chunk [5; 0; 1]; RError EAGAIN; Chunk [97; 1; 2; 0xC0]].

Lemma receive_fragmented_witness :
  bytes_of slow_input = 0x30 :: MQTTPacket_encode 5 ++ [0; 1; 97; 1; 2] ++ [0xC0] ∧
  ∃ s', receive 7 4 (mkState [] SocketBuffer_newDefQ slow_input) = Some (FPacket 0x30 [0; 1; 97; 1; 2], s') ∧
    bytes_of (input s') = [0xC0].
Proof.
  assert (H : bytes_of slow_input = 0x30 :: MQTTPacket_encode 5 ++ [0; 1; 97; 1; 2] ++ [0xC0])
    by (vm_compute; reflexivity).
  split; [exact H|].
  assert (Ha : alive slow_input).
  { unfold slow_input. repeat constructor; try discriminate; unfold is_byte; lia. }
  destruct (receive_fragmented 4 (mkState [] SocketBuffer_newDefQ slow_input) 0x30 [0; 1; 97; 1; 2] [0xC0])
    as (s' & H1 & _ & H2 & _);
    [lia|split; [constructor|split; [reflexivity|exact newDefQ_free]]|exact Ha|unfold is_byte; lia
    |reflexivity|exact H|].
  exists s'. exact (conj H1 H2).
Defined.

(** A larger request for a queue that holds data loses it: the old buffer is
    freed before it is copied. *)
Example grow_buf_loses_data :
  take 2 (q_buf (grow_buf (mkQueue 4 0 2 [0x30; 9; 0; 0; 0] 3 2 [7; 8; 0]) 9)) = [0; 0].
Proof. done. Qed.

End SocketRead.

(** * Writing *)

Module SocketWrite.
Import SocketRead.

(** ** Data: the buffers given to [writev], and the writes not finished *)

Record iobuf := mkBuf { iov_base : list Z; frees : bool }.

Record pending_writes := mkPending {
  pw_socket : Z;
  pw_total : Z;
  pw_bytes : Z;
  pw_iovecs : list iobuf
}.

(** What [writev] meets: room for a number of bytes (it takes as many of them as
    it is offered), or an error number. *)
Inductive writev_result := WRoom (n : Z) | WError (errno : Z).

(** The pending writes, the sockets of [write_pending], and per socket the bytes
    the kernel has taken. *)
Record wstate := mkW {
  writes : list pending_writes;
  write_pending : list Z;
  sent : Z → list Z
}.

Definition iov_bytes (l : list iobuf) : list Z := concat (iov_base <$> l).

Definition add_sent (socket : Z) (d : list Z) (f : Z → list Z) : Z → list Z :=
  λ k, if k =? socket then f k ++ d else f k.

(** [Socket_writev]: the completion code and the bytes written. *)
Definition Socket_writev (result : writev_result) (socket : Z) (iovecs : list iobuf) (s : wstate)
    : Z * Z * wstate :=
  match result with
  | WError e => (if e =? EAGAIN then TCPSOCKET_INTERRUPTED else SOCKET_ERROR, 0, s)
  | WRoom n =>
      let taken := take (Z.to_nat n) (iov_bytes iovecs) in
      (len taken, len taken, mkW (writes s) (write_pending s) (add_sent socket taken (sent s)))
  end.

Definition Socket_noPendingWrites (socket : Z) (s : wstate) : bool :=
  bool_decide (socket ∉ write_pending s).

(** [buf0] is freed by the module when the write is interrupted. *)
Definition Socket_putdatas (result : writev_result) (socket : Z) (buf0 : list Z) (bufs : list iobuf)
    (s : wstate) : Z * wstate :=
  if negb (Socket_noPendingWrites socket s) then (SOCKET_ERROR, s)
  else
    let iovecs := mkBuf buf0 true :: bufs in
    let total := len (iov_bytes iovecs) in
    let '(rc, bytes, s) := Socket_writev result socket iovecs s in
    if rc =? SOCKET_ERROR then (rc, s)
    else if bytes =? total then (TCPSOCKET_COMPLETE, s)
    else (TCPSOCKET_INTERRUPTED,
          mkW (writes s ++ [mkPending socket total bytes iovecs]) (write_pending s ++ [socket]) (sent s)).

(** [SocketBuffer_getWrite] and [SocketBuffer_writeComplete]. *)
Fixpoint SocketBuffer_getWrite (socket : Z) (l : list pending_writes) : option pending_writes :=
  match l with
  | [] => None
  | w :: l' => if pw_socket w =? socket then Some w else SocketBuffer_getWrite socket l'
  end.
Fixpoint update_write (socket : Z) (w : pending_writes) (l : list pending_writes) : list pending_writes :=
  match l with
  | [] => []
  | w' :: l' => if pw_socket w' =? socket then w :: l' else w' :: update_write socket w l'
  end.
Fixpoint SocketBuffer_writeComplete (socket : Z) (l : list pending_writes) : list pending_writes :=
  match l with
  | [] => []
  | w :: l' => if pw_socket w =? socket then l' else w :: SocketBuffer_writeComplete socket l'
  end.

(** The buffers that are still to write: whole ones after [bytes], and nothing
    more once one of them has to be split. *)
Fixpoint remaining_iovecs (bytes curbuflen : Z) (iovecs : list iobuf) : list iobuf :=
  match iovecs with
  | [] => []
  | b :: iovecs' =>
      if bytes <=? curbuflen then b :: remaining_iovecs bytes (curbuflen + len (iov_base b)) iovecs'
      else if bytes <? curbuflen + len (iov_base b)
      then [mkBuf (drop (Z.to_nat (bytes - curbuflen)) (iov_base b)) (frees b)]
      else remaining_iovecs bytes (curbuflen + len (iov_base b)) iovecs'
  end.

(** The buffers freed when the write is over. *)
Definition clear_freed (l : list iobuf) : list iobuf :=
  (λ b, if frees b then mkBuf [] (frees b) else b) <$> l.

(** A socket without pending write is a NULL pointer. *)
Definition Socket_continueWrite (result : writev_result) (socket : Z) (s : wstate) : option (Z * wstate) :=
  match SocketBuffer_getWrite socket (writes s) with
  | None => None
  | Some pw =>
      let iovecs1 := remaining_iovecs (pw_bytes pw) 0 (pw_iovecs pw) in
      let '(rc, bytes, s1) := Socket_writev result socket iovecs1 s in
      let set w := mkW (update_write socket w (writes s1)) (write_pending s1) (sent s1) in
      if rc =? SOCKET_ERROR
      then Some (rc, set (mkPending socket (pw_total pw) (pw_bytes pw) (clear_freed (pw_iovecs pw))))
      else
        let bytes' := pw_bytes pw + bytes in
        if bytes' =? pw_total pw
        then Some (1, set (mkPending socket (pw_total pw) bytes' (clear_freed (pw_iovecs pw))))
        else Some (0, set (mkPending socket (pw_total pw) bytes' (pw_iovecs pw)))
  end.

(** The turn of [Socket_continueWrites] for a socket that is ready: a finished
    write, or one that failed, is removed; [writecomplete] gets the code. *)
Definition continue_ready (result : writev_result) (socket : Z) (s : wstate) : option (Z * wstate) :=
  '(rc, s1) ← Socket_continueWrite result socket s;
  if rc =? 0 then Some (rc, s1)
  else Some (rc, mkW (SocketBuffer_writeComplete socket (writes s1))
                   (filter (λ k, k ≠ socket) (write_pending s1)) (sent s1)).

(** The sequence of select rounds in which the socket is ready to write. *)
Fixpoint continue_all (results : list writev_result) (socket : Z) (s : wstate) : option (Z * wstate) :=
  match results with
  | [] => Some (0, s)
  | r :: results' =>
      '(rc, s1) ← continue_ready r socket s;
      if rc =? 0 then continue_all results' socket s1 else Some (rc, s1)
  end.

(** ** Lemmas *)

Lemma iov_bytes_cons b l : iov_bytes (b :: l) = iov_base b ++ iov_bytes l.
Proof. done. Qed.

Lemma remaining_whole bytes l : ∀ cur, bytes ≤ cur → remaining_iovecs bytes cur l = l.
Proof.
  induction l as [|b l IH]; intros cur Hc; [done|]. cbn [remaining_iovecs].
  rewrite (proj2 (Z.leb_le _ _)) by done. f_equal. apply IH. lia.
Qed.

(** What is offered to the kernel is a non-empty prefix of what is left. *)
Lemma remaining_prefix bytes l : ∀ cur, cur ≤ bytes → bytes < cur + len (iov_bytes l) →
  ∃ rest, drop (Z.to_nat (bytes - cur)) (iov_bytes l) = iov_bytes (remaining_iovecs bytes cur l) ++ rest ∧
    iov_bytes (remaining_iovecs bytes cur l) ≠ [].
Proof.
  induction l as [|b l IH]; intros cur Hc Hb; [cbn in Hb; lia|]. cbn [remaining_iovecs].
  rewrite iov_bytes_cons, length_app, Nat2Z.inj_add in Hb.
  destruct (Z.leb_spec bytes cur) as [Hle|Hgt].
  - rewrite remaining_whole by lia. exists []. rewrite app_nil_r.
    replace (Z.to_nat (bytes - cur)) with 0%nat by lia. split; [done|].
    rewrite iov_bytes_cons. intros Hnil. apply (f_equal length) in Hnil. rewrite length_app in Hnil.
    cbn [length] in Hnil. lia.
  - destruct (Z.ltb_spec bytes (cur + len (iov_base b))) as [Hin|Hout].
    + exists (iov_bytes l). rewrite !iov_bytes_cons. cbn [iov_base]. rewrite drop_app_le by lia.
      cbn [iov_bytes fmap list_fmap concat]. unfold iov_bytes. cbn. rewrite app_nil_r. split; [done|].
      intros Hnil. apply (f_equal length) in Hnil. rewrite length_drop in Hnil. cbn [length] in Hnil. lia.
    + destruct (IH (cur + len (iov_base b))) as (rest & Hd & Hne); [lia|lia|].
      exists rest. rewrite iov_bytes_cons. split; [|done]. rewrite <-Hd.
      rewrite drop_app_ge by lia. f_equal. lia.
Qed.

Lemma getWrite_app sock l w : SocketBuffer_getWrite sock l = None → pw_socket w = sock →
  SocketBuffer_getWrite sock (l ++ [w]) = Some w.
Proof.
  intros Hl Hw. induction l as [|w' l IH]; cbn [SocketBuffer_getWrite app] in *; [by rewrite Hw, Z.eqb_refl|].
  destruct (_ =? _); [done|]. by apply IH.
Qed.

Lemma getWrite_update sock l w w' : SocketBuffer_getWrite sock l = Some w → pw_socket w' = sock →
  SocketBuffer_getWrite sock (update_write sock w' l) = Some w' ∧
  SocketBuffer_writeComplete sock (update_write sock w' l) = SocketBuffer_writeComplete sock l.
Proof.
  intros Hl Hw. induction l as [|v l IH]; cbn [SocketBuffer_getWrite update_write SocketBuffer_writeComplete] in *; [done|].
  destruct (pw_socket v =? sock) eqn:E; cbn [SocketBuffer_getWrite SocketBuffer_writeComplete].
  - by rewrite Hw, Z.eqb_refl.
  - rewrite E. destruct (IH Hl) as [-> ->]. done.
Qed.

(** A write of [P] to the socket, of which [n] bytes have been taken since the
    socket had been sent [base]. *)
Record writing (sock : Z) (base P : list Z) (n : Z) (s : wstate) : Prop := {
  wr_pending : sock ∈ write_pending s;
  wr_write : ∃ w, SocketBuffer_getWrite sock (writes s) = Some w ∧ pw_bytes w = n ∧ pw_total w = len P ∧
    iov_bytes (pw_iovecs w) = P;
  wr_range : 0 ≤ n < len P;
  wr_sent : sent s sock = base ++ take (Z.to_nat n) P
}.

Record written (sock : Z) (base P : list Z) (s : wstate) : Prop := {
  wn_pending : sock ∉ write_pending s;
  wn_sent : sent s sock = base ++ P
}.

Lemma take_prefix {A} (l p r : list A) m : l = p ++ r → take m p = take (length (take m p)) l.
Proof.
  intros ->. rewrite length_take. destruct (decide (m ≤ length p)%nat).
  - rewrite Nat.min_l by lia. by rewrite take_app_le.
  - rewrite Nat.min_r by lia. by rewrite take_app_length, take_ge by lia.
Qed.

(** One more round: at least one byte if there is room for it. *)
Lemma continue_step sock base P n s room : writing sock base P n s → 0 ≤ room →
  (∃ n' s', continue_ready (WRoom room) sock s = Some (0, s') ∧ writing sock base P n' s' ∧
     n ≤ n' ∧ (0 < room → n < n') ∧ (∀ k, k ≠ sock → sent s' k = sent s k)) ∨
  (∃ s', continue_ready (WRoom room) sock s = Some (1, s') ∧ written sock base P s' ∧
     (∀ k, k ≠ sock → sent s' k = sent s k)).
Proof.
  intros [Hp (w & Hw & Hb & Ht & Hio) Hr Hs] Hroom.
  unfold continue_ready, Socket_continueWrite. rewrite Hw, Hb, Ht.
  destruct (remaining_prefix n (pw_iovecs w) 0) as (rest & Hd & Hne); [lia|rewrite Hio; lia|].
  rewrite Z.sub_0_r, Hio in Hd. set (off := remaining_iovecs n 0 (pw_iovecs w)) in *.
  cbn [Socket_writev]. set (taken := take (Z.to_nat room) (iov_bytes off)).
  assert (Htk : taken = take (length taken) (drop (Z.to_nat n) P)) by (by eapply take_prefix).
  assert (Hlen : 0 ≤ len taken ≤ len P - n).
  { rewrite Htk, length_take, length_drop. lia. }
  assert (Hgrow : 0 < room → 0 < len taken).
  { intros H0. unfold taken. rewrite length_take. destruct (iov_bytes off); [done|]. cbn [length]. lia. }
  assert (Hsent : add_sent sock taken (sent s) sock = base ++ take (Z.to_nat (n + len taken)) P).
  { unfold add_sent. rewrite Z.eqb_refl, Hs, <-app_assoc. f_equal. rewrite Htk at 1.
    rewrite Z2Nat.inj_add, Nat2Z.id by lia. apply take_take_drop. }
  assert (Hother : ∀ k, k ≠ sock → add_sent sock taken (sent s) k = sent s k).
  { intros k Hk. unfold add_sent. by rewrite (proj2 (Z.eqb_neq k sock)). }
  unfold SOCKET_ERROR. rewrite (proj2 (Z.eqb_neq (len taken) (-1))) by lia. cbn [writes write_pending sent].
  destruct (Z.eqb_spec (n + len taken) (len P)) as [Hall|Hmore]; cbn [mbind option_bind].
  - right. change (1 =? 0) with false. cbn iota. eexists. split; [done|]. split; [|done].
    split; cbn [write_pending sent writes].
    + rewrite list_elem_of_filter. by intros [[] _].
    + rewrite Hsent. f_equal. apply take_ge. lia.
  - left. change (0 =? 0) with true. cbn iota.
    eexists (n + len taken), _. split; [done|]. split; [|split; [lia|split; [lia|done]]].
    split; cbn [write_pending writes sent]; [done| |lia|done].
    destruct (getWrite_update sock (writes s) w
      (mkPending sock (len P) (n + len taken) (pw_iovecs w)) Hw eq_refl) as [Hg _].
    eexists. split; [exact Hg|]. done.
Qed.

(** A round in which the socket would block after all changes nothing. *)
Lemma continue_block sock base P n s : writing sock base P n s →
  ∃ s', continue_ready (WError EAGAIN) sock s = Some (0, s') ∧ writing sock base P n s' ∧ sent s' = sent s.
Proof.
  intros [Hp (w & Hw & Hb & Ht & Hio) Hr Hs].
  unfold continue_ready, Socket_continueWrite. rewrite Hw, Hb, Ht. cbn [Socket_writev].
  change (EAGAIN =? EAGAIN) with true. cbn iota. change (TCPSOCKET_INTERRUPTED =? SOCKET_ERROR) with false.
  cbn iota. rewrite Z.add_0_r. rewrite (proj2 (Z.eqb_neq n (len P))) by lia. cbn [mbind option_bind].
  change (0 =? 0) with true. cbn iota. eexists. split; [done|]. split; [|done].
  split; cbn [write_pending writes sent]; try done.
  destruct (getWrite_update sock (writes s) w (mkPending sock (len P) n (pw_iovecs w)) Hw eq_refl) as [Hg _].
  eexists. split; [exact Hg|]. done.
Qed.

(** The rounds of a write: room or nothing. *)
Definition rounds_ok (results : list writev_result) : Prop :=
  Forall (λ r, match r with WRoom n => 0 ≤ n | WError e => e = EAGAIN end) results.
Definition has_room (r : writev_result) : bool :=
  match r with WRoom n => 0 <? n | WError _ => false end.
Definition progress (results : list writev_result) : nat := length (filter has_room results).

Lemma progress_cons r results : progress (r :: results) = ((if has_room r then 1 else 0) + progress results)%nat.
Proof. unfold progress. rewrite filter_cons. by destruct (has_room r). Qed.

Lemma continue_all_ok sock base P results : ∀ n s, writing sock base P n s → rounds_ok results →
  (∃ n' s', continue_all results sock s = Some (0, s') ∧ writing sock base P n' s' ∧
     n + Z.of_nat (progress results) ≤ n' ∧ (∀ k, k ≠ sock → sent s' k = sent s k)) ∨
  (∃ s', continue_all results sock s = Some (1, s') ∧ written sock base P s' ∧
     (∀ k, k ≠ sock → sent s' k = sent s k)).
Proof.
  induction results as [|r results IH]; intros n s Hw Hok.
  { left. exists n, s. split; [done|]. split; [done|]. unfold progress. cbn. split; [lia|done]. }
  apply Forall_cons in Hok as [Hr Hok]. cbn [continue_all]. destruct r as [room|e].
  - destruct (continue_step sock base P n s room Hw Hr) as
      [(n1 & s1 & -> & Hw1 & Hge & Hgt & Ho)|(s1 & -> & Hwn & Ho)]; cbn [mbind option_bind].
    + change (0 =? 0) with true. cbn iota.
      destruct (IH n1 s1 Hw1 Hok) as [(n2 & s2 & -> & Hw2 & Hp & Ho2)|(s2 & -> & Hwn & Ho2)].
      * left. exists n2, s2. split; [done|]. split; [done|]. split.
        -- rewrite progress_cons. cbn [has_room]. destruct (Z.ltb_spec 0 room); lia.
        -- intros k Hk. by rewrite Ho2, Ho.
      * right. exists s2. split; [done|]. split; [done|]. intros k Hk. by rewrite Ho2, Ho.
    + right. exists s1. done.
  - subst e. destruct (continue_block sock base P n s Hw) as (s1 & -> & Hw1 & He). cbn [mbind option_bind].
    change (0 =? 0) with true. cbn iota.
    destruct (IH n s1 Hw1 Hok) as [(n2 & s2 & -> & Hw2 & Hp & Ho2)|(s2 & -> & Hwn & Ho2)].
    + left. exists n2, s2. split; [done|]. split; [done|]. split.
      * rewrite progress_cons. cbn [has_room]. lia.
      * intros k Hk. by rewrite Ho2, He.
    + right. exists s2. split; [done|]. split; [done|]. intros k Hk. by rewrite Ho2, He.
Qed.

(** The call itself: everything is taken, or the rest becomes pending. *)
Lemma putdatas_first sock buf0 bufs s r :
  let P := buf0 ++ iov_bytes bufs in
  sock ∉ write_pending s → SocketBuffer_getWrite sock (writes s) = None → 0 < len P →
  match r with WRoom n => 0 ≤ n | WError e => e = EAGAIN end →
  (∃ s1, Socket_putdatas r sock buf0 bufs s = (TCPSOCKET_COMPLETE, s1) ∧
     written sock (sent s sock) P s1 ∧ (∀ k, k ≠ sock → sent s1 k = sent s k)) ∨
  (∃ n s1, Socket_putdatas r sock buf0 bufs s = (TCPSOCKET_INTERRUPTED, s1) ∧
     writing sock (sent s sock) P n s1 ∧ (has_room r = true → 1 ≤ n) ∧
     (∀ k, k ≠ sock → sent s1 k = sent s k)).
Proof.
  intros P Hnp Hng HP Hr.
  unfold Socket_putdatas, Socket_noPendingWrites. rewrite bool_decide_true by done. cbn [negb].
  rewrite iov_bytes_cons. cbn [iov_base]. fold P. destruct r as [room|e]; cbn [Socket_writev].
  - rewrite iov_bytes_cons. cbn [iov_base]. fold P. set (taken := take (Z.to_nat room) P).
    assert (Hlen : 0 ≤ len taken ≤ len P) by (unfold taken; rewrite length_take; lia).
    assert (Hs : add_sent sock taken (sent s) sock = sent s sock ++ taken)
      by (unfold add_sent; by rewrite Z.eqb_refl).
    assert (Ho : ∀ k, k ≠ sock → add_sent sock taken (sent s) k = sent s k)
      by (intros k Hk; unfold add_sent; by rewrite (proj2 (Z.eqb_neq k sock))).
    unfold SOCKET_ERROR. rewrite (proj2 (Z.eqb_neq (len taken) (-1))) by lia.
    destruct (Z.eqb_spec (len taken) (len P)) as [Hall|Hmore].
    + left. eexists. split; [done|]. split; [|done]. split; [done|]. cbn [sent]. rewrite Hs.
      f_equal. unfold taken. apply take_ge. unfold taken in Hall. rewrite length_take in Hall. lia.
    + right. eexists (len taken), _. split; [done|]. split; [|split; [|done]].
      * split; cbn [write_pending writes sent].
        -- set_solver.
        -- eexists. rewrite getWrite_app by done. split; [done|]. done.
        -- lia.
        -- rewrite Hs, Nat2Z.id. f_equal. apply (take_prefix P P []). by rewrite app_nil_r.
      * cbn [has_room]. intros H0%Z.ltb_lt. unfold taken. rewrite length_take. lia.
  - subst e. right. eexists 0, _. change (EAGAIN =? EAGAIN) with true. cbn iota.
    change (TCPSOCKET_INTERRUPTED =? SOCKET_ERROR) with false. cbn iota.
    rewrite (proj2 (Z.eqb_neq 0 (len P))) by lia. split; [done|]. split; [|done].
    split; cbn [write_pending writes sent].
    + set_solver.
    + eexists. rewrite getWrite_app by done. split; [done|]. done.
    + lia.
    + by rewrite app_nil_r.
Qed.

(** ** Properties *)

(** C9: a packet given to [Socket_putdatas] on a socket without pending output is
    sent whole, once and in order, whatever the kernel takes at each turn:
    after any number of rounds the socket has been sent exactly a prefix of
    the packet and the rest is pending, or all of it and nothing is pending;
    every round with room makes progress, so as many of them as the packet has
    bytes complete it, and no other socket is written. *)
Theorem putdatas_sends sock buf0 bufs s r results :
  let P := buf0 ++ iov_bytes bufs in
  sock ∉ write_pending s → SocketBuffer_getWrite sock (writes s) = None → P ≠ [] →
  rounds_ok (r :: results) →
  ∃ s', 
    (let '(rc, s1) := Socket_putdatas r sock buf0 bufs s in
     if rc =? TCPSOCKET_COMPLETE then Some (1, s1) else continue_all results sock s1)
      = Some (if decide (sock ∈ write_pending s') then 0 else 1, s') ∧
    (written sock (sent s sock) P s' ∨
     (∃ n, writing sock (sent s sock) P n s' ∧ Z.of_nat (progress (r :: results)) ≤ n)) ∧
    (len P ≤ Z.of_nat (progress (r :: results)) → written sock (sent s sock) P s') ∧
    (∀ k, k ≠ sock → sent s' k = sent s k).
Proof.
  intros P Hnp Hng Hne Hok. apply Forall_cons in Hok as [Hr Hok].
  assert (HP : 0 < len P) by (destruct P; [done|cbn; lia]).
  pose proof (putdatas_first sock buf0 bufs s r Hnp Hng HP Hr) as Hfirst. fold P in Hfirst.
  destruct Hfirst as [(s1 & -> & Hw & Ho)|(n & s1 & -> & Hw & Hn & Ho)].
  - exists s1. change (TCPSOCKET_COMPLETE =? TCPSOCKET_COMPLETE) with true. cbn iota.
    pose proof (wn_pending _ _ _ _ Hw). rewrite decide_False by done. auto.
  - change (TCPSOCKET_INTERRUPTED =? TCPSOCKET_COMPLETE) with false. cbn iota.
    destruct (continue_all_ok sock _ P results n s1 Hw Hok) as
      [(n2 & s2 & Hrun & Hw2 & Hp & Ho2)|(s2 & Hrun & Hw2 & Ho2)]; exists s2; rewrite Hrun.
    + rewrite decide_True by apply Hw2. split; [done|].
      assert (Z.of_nat (progress (r :: results)) ≤ n2).
      { rewrite progress_cons. destruct Hw as [_ _ Hrange _].
        destruct (has_room r); [specialize (Hn eq_refl)|]; lia. }
      split; [right; by exists n2|]. split; [|intros k Hk; by rewrite Ho2, Ho].
      intros Hfull. destruct Hw2 as [_ _ Hrange _]. lia.
    + rewrite decide_False by apply Hw2. split; [done|]. split; [by left|]. split; [done|].
      intros k Hk. by rewrite Ho2, Ho.
Qed.

Definition idle_w : wstate := mkW [] [] (λ _, []).

Lemma putdatas_sends_witness :
  rounds_ok [WRoom 3; WError EAGAIN; WRoom 1; WRoom 9; WRoom 9] ∧
  ∃ s', (let '(rc, s1) := Socket_putdatas (WRoom 3) 4 [0x30; 5] [mkBuf [0; 1] true; mkBuf [97; 1; 2] false] idle_w in
     if rc =? TCPSOCKET_COMPLETE then Some (1, s1)
     else continue_all [WError EAGAIN; WRoom 1; WRoom 9; WRoom 9] 4 s1) = Some (1, s') ∧
    sent s' 4 = [0x30; 5; 0; 1; 97; 1; 2].
Proof.
  assert (H : rounds_ok [WRoom 3; WError EAGAIN; WRoom 1; WRoom 9; WRoom 9])
    by (repeat constructor; lia).
  split; [exact H|].
  destruct (putdatas_sends 4 [0x30; 5] [mkBuf [0; 1] true; mkBuf [97; 1; 2] false] idle_w (WRoom 3)
    [WError EAGAIN; WRoom 1; WRoom 9; WRoom 9]) as (s' & H1 & H2 & _);
    [set_solver|reflexivity|discriminate|exact H|].
  exists s'. destruct H2 as [[Hp Hs]|(n & [Hp (w & Hw & _) Hr Hs] & Hn)].
  - rewrite decide_False in H1 by exact Hp. exact (conj H1 Hs).
  - exfalso. rewrite decide_True in H1 by exact Hp.
    vm_compute in H1. discriminate H1.
Defined.

End SocketWrite.
