(* ===== verification/SocketSelect.v ===== *)
(** * The sockets of the process and the select loop (paho.mqtt.c/src/Socket.c)

    The descriptors that are watched, the socket served next, the writes that are
    continued when a socket can take more, the creation and the closing of a
    socket.  Sets of descriptors are finite sets of integers; a descriptor
    outside of [0, FD_SETSIZE) is an access outside of an [fd_set]. *)
From S2P Require Import Prelude Packets SocketIO.

Module SocketSelect.
Import SocketRead SocketWrite.

(** ** Data *)

Definition FD_SETSIZE := 1024.
Definition fd_ok (fd : Z) : Prop := 0 ≤ fd < FD_SETSIZE.
#[export] Instance fd_ok_dec fd : Decision (fd_ok fd).
Proof. unfold fd_ok. apply _. Defined.

(** [Sockets], with the writes of SocketBuffer.c and [write_pending] together, and
    the queues of interrupted reads; [cur_clientsds] is the socket in the element
    it points to, the list having none twice. *)
Record Sockets := mkSockets {
  rset : gset Z;
  wset : gset Z;
  rset_saved : gset Z;
  maxfdp1 : Z;
  clientsds : list Z;
  cur_clientsds : option Z;
  connect_pending : list Z;
  pending_wset : gset Z;
  wr : wstate;
  rd : state
}.

Definition set_sets (s : Sockets) (r w : gset Z) : Sockets :=
  mkSockets r w (rset_saved s) (maxfdp1 s) (clientsds s) (cur_clientsds s) (connect_pending s) (pending_wset s) (wr s) (rd s).
Definition set_cur (s : Sockets) (cur : option Z) : Sockets :=
  mkSockets (rset s) (wset s) (rset_saved s) (maxfdp1 s) (clientsds s) cur (connect_pending s) (pending_wset s) (wr s) (rd s).
Definition set_connect (s : Sockets) (l : list Z) : Sockets :=
  mkSockets (rset s) (wset s) (rset_saved s) (maxfdp1 s) (clientsds s) (cur_clientsds s) l (pending_wset s) (wr s) (rd s).
Definition set_writes (s : Sockets) (p : gset Z) (w : wstate) : Sockets :=
  mkSockets (rset s) (wset s) (rset_saved s) (maxfdp1 s) (clientsds s) (cur_clientsds s) (connect_pending s) p w (rd s).

Definition Socket_outInitialize (w : wstate) : Sockets :=
  mkSockets ∅ ∅ ∅ 0 [] None [] ∅ w (let '(qs, d) := SocketBuffer_initialize in mkState qs d []).

(** [ListRemoveItem]: the first element equal to the socket. *)
Fixpoint remove_sock (socket : Z) (l : list Z) : list Z :=
  match l with [] => [] | x :: l' => if x =? socket then l' else x :: remove_sock socket l' end.

(** [ListNextElement] from the element of a socket; [None] at the end. *)
Fixpoint next_of (socket : Z) (l : list Z) : option Z :=
  match l with [] => None | x :: l' => if x =? socket then head l' else next_of socket l' end.

(** ** Adding a socket; [nonblocking] is the answer of [Socket_setnonblocking] *)

Definition Socket_addSocket (nonblocking newSd : Z) (s : Sockets) : option (Z * Sockets) :=
  if bool_decide (newSd ∈ clientsds s) then Some (0, s)
  else if FD_SETSIZE <=? len (clientsds s) then Some (SOCKET_ERROR, s)
  else if bool_decide (fd_ok newSd) then
    Some (nonblocking, mkSockets (rset s) (wset s) ({[newSd]} ∪ rset_saved s) (Z.max (maxfdp1 s) (newSd + 1))
                         (clientsds s ++ [newSd]) (cur_clientsds s) (connect_pending s) (pending_wset s) (wr s) (rd s))
  else None.

Definition Socket_addPendingWrite (socket : Z) (s : Sockets) : option Sockets :=
  if bool_decide (fd_ok socket) then Some (set_writes s ({[socket]} ∪ pending_wset s) (wr s)) else None.

Definition Socket_clearPendingWrite (socket : Z) (s : Sockets) : option Sockets :=
  if bool_decide (fd_ok socket) then Some (set_writes s (pending_wset s ∖ {[socket]}) (wr s)) else None.

(** ** The next socket to serve *)

Definition isReady (socket : Z) (s : Sockets) : bool * Sockets :=
  if bool_decide (socket ∈ connect_pending s) && bool_decide (socket ∈ wset s)
  then (true, set_connect s (remove_sock socket (connect_pending s)))
  else (bool_decide (socket ∈ rset s) && bool_decide (socket ∈ wset s) && Socket_noPendingWrites socket (wr s), s).

(** The [while] loops over the elements from [cur_clientsds] on. *)
Fixpoint ready_loop (l : list Z) (s : Sockets) : Sockets :=
  match l with
  | [] => set_cur s None
  | x :: l' => let '(b, s1) := isReady x s in if b then set_cur s1 (Some x) else ready_loop l' s1
  end.
Fixpoint from_sock (socket : Z) (l : list Z) : list Z :=
  match l with [] => [] | x :: l' => if x =? socket then l else from_sock socket l' end.

(** [select] on the descriptors below [nfds]: those that are ready in the system,
    [None] for an error; its result counts them. *)
Definition select (nfds : Z) (fds : gset Z) (system : gset Z) : gset Z :=
  filter (λ x, x < nfds ∧ x ∈ system) fds.

(** [Socket_continueWrites] from the elements [todo] of [write_pending] on; what
    each [writev] meets, and the calls of [writecomplete]. *)
Fixpoint continue_writes (todo : list Z) (pwset : gset Z) (results : Z → writev_result) (s : Sockets)
    : option (Sockets * list (Z * Z)) :=
  match todo with
  | [] => Some (s, [])
  | x :: todo' =>
      if bool_decide (x ∈ pwset) then
        '(rc, w) ← continue_ready (results x) x (wr s);
        if rc =? 0 then continue_writes todo' pwset results (set_writes s (pending_wset s) w)
        else
          '(s', calls) ← continue_writes todo' pwset results (set_writes s (pending_wset s ∖ {[x]}) w);
          Some (s', (x, rc) :: calls)
      else continue_writes todo' pwset results s
  end.
Definition Socket_continueWrites (pwset : gset Z) (results : Z → writev_result) (s : Sockets) :=
  continue_writes (write_pending (wr s)) pwset results s.

(** What the system answers: the descriptors that can be read and written at the
    first [select] ([None]: an error), those that can be written at the second
    one, and the writes that are continued. *)
Record answers := mkAnswers {
  a_first : option (gset Z * gset Z);
  a_second : option (gset Z);
  a_writev : Z → writev_result
}.

(** The socket that [cur_clientsds] ends on is returned and passed. *)
Definition take_current (s : Sockets) : Z * Sockets :=
  match cur_clientsds s with
  | None => (0, s)
  | Some x => (x, set_cur s (next_of x (clientsds s)))
  end.

Definition select_phase (a : answers) (s : Sockets) : option (Z * Sockets * list (Z * Z)) :=
  match a_first a with
  | None => Some (SOCKET_ERROR, set_sets s (rset_saved s) (wset s), [])
  | Some (readable, writable) =>
      let r := select (maxfdp1 s) (rset_saved s) readable in
      let p := select (maxfdp1 s) (pending_wset s) writable in
      let rc := Z.of_nat (size r) + Z.of_nat (size p) in
      '(s, calls) ← Socket_continueWrites p (a_writev a) (set_sets s r (wset s));
      match a_second a with
      | None => Some (SOCKET_ERROR, set_sets s r (rset_saved s), calls)
      | Some writable =>
          let w := select (maxfdp1 s) (rset_saved s) writable in
          let s := set_sets s r w in
          if (rc =? 0) && (Z.of_nat (size w) =? 0) then Some (0, s, calls)
          else let '(x, s) := take_current (ready_loop (clientsds s) s) in Some (x, s, calls)
      end
  end.

Definition Socket_getReadySocket (a : answers) (s : Sockets) : option (Z * Sockets * list (Z * Z)) :=
  match clientsds s with
  | [] => Some (0, s, [])
  | _ =>
      let s := match cur_clientsds s with
               | None => s
               | Some x => ready_loop (from_sock x (clientsds s)) s
               end in
      match cur_clientsds s with
      | None => select_phase a s
      | Some _ => let '(x, s) := take_current s in Some (x, s, [])
      end
  end.

(** ** Writing: an interrupted write is watched *)

Definition Socket_putdatas (result : writev_result) (socket : Z) (buf0 : list Z) (bufs : list iobuf) (s : Sockets)
    : option (Z * Sockets) :=
  let '(rc, w) := SocketWrite.Socket_putdatas result socket buf0 bufs (wr s) in
  if (rc =? TCPSOCKET_INTERRUPTED) && negb (bool_decide (fd_ok socket)) then None
  else
    Some (rc, set_writes s (if rc =? TCPSOCKET_INTERRUPTED then {[socket]} ∪ pending_wset s else pending_wset s) w).

(** ** Closing *)

(** The buffers that [Socket_abortWrite] frees. *)
Definition Socket_abortWrite (socket : Z) (s : Sockets) : list iobuf :=
  match SocketBuffer_getWrite socket (writes (wr s)) with
  | None => []
  | Some pw => List.filter frees (pw_iovecs pw)
  end.

Definition Socket_close (socket : Z) (s : Sockets) : option Sockets :=
  if bool_decide (fd_ok socket) then
    let cur := match cur_clientsds s with
               | Some x => if x =? socket then next_of x (clientsds s) else Some x
               | None => None
               end in
    let w := mkW (SocketBuffer_writeComplete socket (writes (wr s))) (remove_sock socket (write_pending (wr s))) (sent (wr s)) in
    '(_, r) ← SocketBuffer_cleanup socket (rd s);
    let l := remove_sock socket (clientsds s) in
    let fdp1 := if maxfdp1 s <=? socket + 1 then foldr Z.max 0 l + 1 else maxfdp1 s in
    Some (mkSockets (rset s) (wset s) (rset_saved s ∖ {[socket]}) fdp1 l cur
            (remove_sock socket (connect_pending s)) (pending_wset s ∖ {[socket]}) w r)
  else None.

(** ** A new connection *)

Definition AF_INET := 2.
Definition AF_INET6 := 10.
Definition EINPROGRESS := 115.
Definition EWOULDBLOCK := 11.

(** The name given to [getaddrinfo]. *)
Definition lookup_name (addr : list Z) (addr_len : nat) : list Z :=
  match addr with
  | 91 :: addr' => take (addr_len - 1) addr'
  | _ => take addr_len addr
  end.

(** The first address of IPv4, or the last of the list. *)
Fixpoint prefer_ip4 (families : list Z) : option Z :=
  match families with
  | [] => None
  | [f] => Some f
  | f :: families' => if f =? AF_INET then Some f else prefer_ip4 families'
  end.

(** The answers of [getaddrinfo] with the families it finds, of [socket],
    [fcntl] and [connect], and [errno] after each of those that fail. *)
Record new_answers := mkNew {
  n_getaddrinfo : Z; n_families : list Z;
  n_socket : Z; n_socket_errno : Z;
  n_nonblocking : Z; n_add_errno : Z;
  n_connect : Z; n_connect_errno : Z
}.

(** The return code, the socket (-1 for none) and the module's state. *)
Definition Socket_new (a : new_answers) (s : Sockets) : option (Z * Z * Sockets) :=
  let rc :=
    if n_getaddrinfo a =? 0 then
      match prefer_ip4 (n_families a) with
      | None => -1
      | Some f => if (f =? AF_INET) || (f =? AF_INET6) then 0 else -1
      end
    else n_getaddrinfo a in
  if negb (rc =? 0) then Some (rc, -1, s)
  else if n_socket a =? -1 then Some (n_socket_errno a, -1, s)
  else
    let sock := n_socket a in
    '(rc, s) ← Socket_addSocket (n_nonblocking a) sock s;
    let '(rc, s) :=
      if rc =? SOCKET_ERROR then (n_add_errno a, s)
      else
        let rc := if n_connect a =? SOCKET_ERROR then n_connect_errno a else n_connect a in
        (rc, if (rc =? EINPROGRESS) || (rc =? EWOULDBLOCK) then set_connect s (connect_pending s ++ [sock]) else s) in
    if negb (rc =? 0) && negb (rc =? EINPROGRESS) && negb (rc =? EWOULDBLOCK)
    then s ← Socket_close sock s; Some (rc, -1, s)
    else Some (rc, sock, s).

(** ** The invariant *)

Record wf (s : Sockets) : Prop := {
  wf_nodup : NoDup (clientsds s);
  wf_fds : Forall fd_ok (clientsds s);
  wf_saved : rset_saved s = list_to_set (clientsds s);
  wf_max : Forall (λ x, x < maxfdp1 s) (clientsds s);
  wf_cur x : cur_clientsds s = Some x → x ∈ clientsds s;
  wf_pending : NoDup (write_pending (wr s));
  wf_writes : pw_socket <$> writes (wr s) = write_pending (wr s);
  wf_open x : x ∈ write_pending (wr s) → x ∈ clientsds s;
  wf_watched x : x ∈ write_pending (wr s) → x ∈ pending_wset s
}.

Lemma remove_sock_id x l : x ∉ l → remove_sock x l = l.
Proof.
  induction l as [|y l IH]; [done|]. intros [Hne Hx]%not_elem_of_cons. cbn [remove_sock].
  rewrite (proj2 (Z.eqb_neq y x)) by done. by rewrite IH.
Qed.

Lemma remove_sock_filter x l : NoDup l → remove_sock x l = filter (λ k, k ≠ x) l.
Proof.
  induction 1 as [|y l Hy Hl IH]; [done|]. cbn [remove_sock]. rewrite filter_cons.
  destruct (Z.eqb_spec y x) as [->|Hne].
  - rewrite decide_False by naive_solver. by rewrite <-IH, remove_sock_id.
  - rewrite decide_True by done. by rewrite IH.
Qed.

Lemma elem_of_remove_sock x l k : NoDup l → k ∈ remove_sock x l ↔ k ≠ x ∧ k ∈ l.
Proof. intros H. rewrite remove_sock_filter by done. by rewrite list_elem_of_filter. Qed.

Lemma NoDup_remove_sock x l : NoDup l → NoDup (remove_sock x l).
Proof. intros H. rewrite remove_sock_filter by done. by apply NoDup_filter. Qed.

Lemma writeComplete_sockets x l : pw_socket <$> SocketBuffer_writeComplete x l = remove_sock x (pw_socket <$> l).
Proof.
  induction l as [|w l IH]; [done|]. cbn [SocketBuffer_writeComplete]. rewrite fmap_cons. cbn [remove_sock].
  destruct (_ =? _); [done|]. by rewrite fmap_cons, IH.
Qed.

Lemma update_write_sockets x w l : pw_socket w = x → pw_socket <$> update_write x w l = pw_socket <$> l.
Proof.
  intros Hw. induction l as [|v l IH]; [done|]. cbn [update_write]. destruct (Z.eqb_spec (pw_socket v) x) as [E|].
  - rewrite !fmap_cons. congruence.
  - by rewrite !fmap_cons, IH.
Qed.

Lemma getWrite_in x l : x ∈ pw_socket <$> l → is_Some (SocketBuffer_getWrite x l).
Proof.
  induction l as [|w l IH]; [by intros ?%elem_of_nil|]. rewrite fmap_cons. cbn [SocketBuffer_getWrite].
  destruct (Z.eqb_spec (pw_socket w) x); [by eexists|]. intros [->|Hx]%elem_of_cons; [done|]. by apply IH.
Qed.

(** A turn of [Socket_continueWrites] keeps the write, or drops it whole. *)
Lemma continue_ready_sockets r x w : pw_socket <$> writes w = write_pending w → NoDup (write_pending w) → x ∈ write_pending w →
  ∃ rc w', continue_ready r x w = Some (rc, w') ∧ pw_socket <$> writes w' = write_pending w' ∧
    write_pending w' = if rc =? 0 then write_pending w else remove_sock x (write_pending w).
Proof.
  intros Hw Hnd Hx. destruct (getWrite_in x (writes w)) as [pw Hg]; [by rewrite Hw|].
  unfold continue_ready, Socket_continueWrite. rewrite Hg.
  destruct (Socket_writev r x _ w) as [[rc bytes] w1] eqn:E.
  assert (H1 : writes w1 = writes w ∧ write_pending w1 = write_pending w).
  { destruct r; cbn in E; simplify_eq; by cbn. }
  destruct H1 as [Hw1 Hp1].
  assert (Hupd : ∀ a b c, pw_socket <$> update_write x (mkPending x a b c) (writes w1) = write_pending w).
  { intros. rewrite update_write_sockets by done. by rewrite Hw1. }
  assert (Hfin : ∀ a b c, pw_socket <$> SocketBuffer_writeComplete x (update_write x (mkPending x a b c) (writes w1)) =
    filter (λ k, k ≠ x) (write_pending w)).
  { intros. by rewrite writeComplete_sockets, Hupd, remove_sock_filter. }
  destruct (Z.eqb_spec rc SOCKET_ERROR) as [->|]; [|destruct (_ =? _)]; cbn [mbind option_bind];
    [change (SOCKET_ERROR =? 0) with false|change (1 =? 0) with false|change (0 =? 0) with true]; cbn iota;
    eexists _, _; (split; [done|]); cbn [write_pending writes];
    [change (SOCKET_ERROR =? 0) with false|change (1 =? 0) with false|change (0 =? 0) with true]; cbn iota;
    rewrite ?Hp1, ?Hfin, ?Hupd; split; try done; by rewrite remove_sock_filter.
Qed.

(** What does not change while the writes are continued. *)
Record same_watch (s s' : Sockets) : Prop := {
  sw_sets : rset s' = rset s ∧ wset s' = wset s ∧ rset_saved s' = rset_saved s;
  sw_list : clientsds s' = clientsds s ∧ cur_clientsds s' = cur_clientsds s ∧ maxfdp1 s' = maxfdp1 s;
  sw_pending : connect_pending s' = connect_pending s ∧ rd s' = rd s
}.

Lemma continue_writes_wf pwset results todo : ∀ s, wf s → NoDup todo → (∀ x, x ∈ todo → x ∈ write_pending (wr s)) →
  ∃ s' calls, continue_writes todo pwset results s = Some (s', calls) ∧ wf s' ∧ same_watch s s'.
Proof.
  induction todo as [|x todo IH]; intros s Hwf Hnd Hin; [by exists s, []|]. apply NoDup_cons in Hnd as [Hx Hnd].
  cbn [continue_writes]. case_bool_decide as Hp; [|by apply IH; auto; intros; apply Hin; right].
  destruct Hwf as [W1 W2 W3 W4 W5 W6 W7 W8 W9].
  destruct (continue_ready_sockets (results x) x (wr s) W7 W6 (Hin x ltac:(left))) as (rc & w & -> & Hw1 & Hw2).
  cbn [mbind option_bind]. destruct (Z.eqb_spec rc 0).
  - destruct (IH (set_writes s (pending_wset s) w)) as (s' & calls & -> & Hs & []).
    + split; cbn; try done; by rewrite Hw2.
    + done.
    + intros y Hy. cbn. rewrite Hw2. apply Hin. by right.
    + by exists s', calls.
  - destruct (IH (set_writes s (pending_wset s ∖ {[x]}) w)) as (s' & calls & -> & Hs & []).
    + split; cbn; try done; rewrite Hw2.
      * by apply NoDup_remove_sock.
      * intros y [? Hy]%elem_of_remove_sock; [|done]. by apply W8.
      * intros y [? Hy]%elem_of_remove_sock; [|done]. apply elem_of_difference. rewrite elem_of_singleton. auto.
    + done.
    + intros y Hy. cbn. rewrite Hw2. apply elem_of_remove_sock; [done|]. split; [by intros ->|]. apply Hin. by right.
    + cbn [mbind option_bind]. by eexists s', _.
Qed.

(** ** The operations keep the invariant *)

Lemma isReady_wf x s : wf s → wf (isReady x s).2.
Proof. intros [W1 W2 W3 W4 W5 W6 W7 W8 W9]. unfold isReady. case_match; by split. Qed.

Lemma isReady_same x s : clientsds (isReady x s).2 = clientsds s ∧ cur_clientsds (isReady x s).2 = cur_clientsds s.
Proof. unfold isReady. by case_match. Qed.

Lemma set_cur_wf cur s : wf s → (∀ x, cur = Some x → x ∈ clientsds s) → wf (set_cur s cur).
Proof. intros [W1 W2 W3 W4 W5 W6 W7 W8 W9] H. by split. Qed.

Lemma set_sets_wf r w s : wf s → wf (set_sets s r w).
Proof. intros [W1 W2 W3 W4 W5 W6 W7 W8 W9]. by split. Qed.

Lemma ready_loop_wf l : ∀ s, wf s → (∀ x, x ∈ l → x ∈ clientsds s) →
  wf (ready_loop l s) ∧ clientsds (ready_loop l s) = clientsds s.
Proof.
  induction l as [|x l IH]; intros s Hs Hl; cbn [ready_loop]; [split; [by apply set_cur_wf|done]|].
  pose proof (isReady_wf x s Hs) as H1. pose proof (isReady_same x s) as [H2 H3].
  destruct (isReady x s) as [b s1]. cbn [snd] in *. destruct b.
  - split; [|done]. apply set_cur_wf; [done|]. intros y [= <-]. rewrite H2. apply Hl. by left.
  - rewrite <-H2. apply IH; [done|]. intros y Hy. rewrite H2. apply Hl. by right.
Qed.

Lemma next_of_in x l y : next_of x l = Some y → y ∈ l.
Proof.
  induction l as [|z l IH]; [done|]. cbn [next_of]. destruct (z =? x).
  - intros Hy. apply elem_of_cons. right. destruct l; [done|]. injection Hy as ->. by left.
  - intros Hy. right. by apply IH.
Qed.

Lemma take_current_wf s x s' : wf s → take_current s = (x, s') → wf s'.
Proof.
  intros Hs E. unfold take_current in E. destruct (cur_clientsds s) as [y|]; simplify_eq; [|done].
  apply set_cur_wf; [done|]. intros z Hz. by eapply next_of_in.
Qed.

Lemma from_sock_in x l y : y ∈ from_sock x l → y ∈ l.
Proof.
  induction l as [|z l IH]; [done|]. cbn [from_sock]. destruct (z =? x); [done|]. intros Hy. right. by apply IH.
Qed.

Lemma select_phase_wf a s : wf s → ∃ x s' calls, select_phase a s = Some (x, s', calls) ∧ wf s'.
Proof.
  intros Hs. unfold select_phase. destruct (a_first a) as [[r w]|]; [|eexists _, _, _; split; [done|by apply set_sets_wf]].
  unfold Socket_continueWrites.
  destruct (continue_writes_wf (select (maxfdp1 s) (pending_wset s) w) (a_writev a) (write_pending (wr s))
    (set_sets s (select (maxfdp1 s) (rset_saved s) r) (wset s))) as (s1 & calls & E & Hs1 & _).
  { by apply set_sets_wf. } { apply Hs. } { done. }
  cbn [wr set_sets] in *. rewrite E. cbn [mbind option_bind].
  destruct (a_second a) as [w2|]; [|eexists _, _, _; split; [done|by apply set_sets_wf]].
  case_match; [eexists _, _, _; split; [done|by apply set_sets_wf]|].
  set (s2 := set_sets s1 _ _). assert (Hs2 : wf s2) by by apply set_sets_wf.
  destruct (ready_loop_wf (clientsds s2) s2 Hs2) as [H3 _]; [done|].
  change (clientsds s2) with (clientsds s1) in *.
  destruct (take_current (ready_loop (clientsds s1) s2)) as [x s3] eqn:E3. exists x, s3, calls. split; [done|].
  by eapply take_current_wf.
Qed.

Lemma getReadySocket_wf a s : wf s → ∃ x s' calls, Socket_getReadySocket a s = Some (x, s', calls) ∧ wf s'.
Proof.
  intros Hs. unfold Socket_getReadySocket. destruct (clientsds s) as [|c l] eqn:El; [by eexists _, _, _|]. rewrite <-El.
  set (s1 := match cur_clientsds s with Some _ => _ | None => _ end).
  assert (Hs1 : wf s1).
  { subst s1. destruct (cur_clientsds s) as [x|]; [|done]. apply ready_loop_wf; [done|]. intros y. apply from_sock_in. }
  clearbody s1. destruct (cur_clientsds s1) eqn:Ec; [|by apply select_phase_wf].
  destruct (take_current s1) as [x s2] eqn:E. exists x, s2, []. split; [done|]. by eapply take_current_wf.
Qed.

Lemma addSocket_wf nb x s : wf s → fd_ok x → ∃ rc s', Socket_addSocket nb x s = Some (rc, s') ∧ wf s' ∧
  (rc ≠ SOCKET_ERROR → nb ≠ SOCKET_ERROR → x ∈ clientsds s') ∧ (∀ y, y ∈ clientsds s → y ∈ clientsds s').
Proof.
  intros [W1 W2 W3 W4 W5 W6 W7 W8 W9] Hx. unfold Socket_addSocket. case_bool_decide as Hin.
  { exists 0, s. by split_and!. }
  case_match; [by exists SOCKET_ERROR, s|]. rewrite bool_decide_eq_true_2 by done. eexists _, _. split; [done|].
  split_and!; cbn.
  - split; cbn; try done.
    + apply NoDup_app. split_and!; [done| |apply NoDup_singleton]. intros y Hy ->%list_elem_of_singleton. done.
    + apply Forall_app. split; [done|]. by apply Forall_singleton.
    + rewrite W3. set_solver.
    + apply Forall_app. split; [|apply Forall_singleton; lia]. eapply Forall_impl; [exact W4|]. cbn. lia.
    + intros y Hy. apply elem_of_app. left. by apply W5.
    + intros y Hy. apply elem_of_app. left. by apply W8.
  - intros _ _. apply elem_of_app. right. by left.
  - intros y Hy. apply elem_of_app. by left.
Qed.

Lemma max_list l : 0 ≤ foldr Z.max 0 l ∧ Forall (λ x, x ≤ foldr Z.max 0 l) l.
Proof.
  induction l as [|x l [IH1 IH2]]; [done|]. cbn [foldr]. split; [lia|]. constructor; [lia|].
  eapply Forall_impl; [exact IH2|]. cbn. lia.
Qed.

Lemma cleanup_total x r : ∃ r', SocketBuffer_cleanup x r = Some ((), r').
Proof.
  unfold SocketBuffer_cleanup. unfold mbind, io_bind, get. destruct (find_queue x (queues r)); cbn;
    match goal with |- context [if ?b then _ else _] => destruct b end; by eexists.
Qed.

Lemma next_of_other x l y : NoDup l → next_of x l = Some y → y ≠ x.
Proof.
  induction 1 as [|z l Hz Hl IH]; [done|]. cbn [next_of]. destruct (Z.eqb_spec z x) as [->|]; [|done].
  destruct l as [|w l]; [done|]. cbn [head]. intros [= <-] ->. apply Hz. by left.
Qed.

Lemma close_wf x s : wf s → fd_ok x → ∃ s', Socket_close x s = Some s' ∧ wf s' ∧ clientsds s' = remove_sock x (clientsds s).
Proof.
  intros [W1 W2 W3 W4 W5 W6 W7 W8 W9] Hx. unfold Socket_close. rewrite bool_decide_eq_true_2 by done.
  destruct (cleanup_total x (rd s)) as [r ->]. cbn [mbind option_bind]. eexists. split; [done|]. split; [|done].
  assert (Hsub : ∀ y, y ∈ remove_sock x (clientsds s) ↔ y ≠ x ∧ y ∈ clientsds s) by (intros; by apply elem_of_remove_sock).
  split; cbn.
  - by apply NoDup_remove_sock.
  - apply Forall_forall. intros y [_ Hy]%Hsub. by eapply Forall_forall in W2.
  - rewrite W3. apply set_eq. intros y. rewrite elem_of_difference, elem_of_singleton, !elem_of_list_to_set, Hsub. tauto.
  - case_match.
    + pose proof (max_list (remove_sock x (clientsds s))) as [_ H1]. eapply Forall_impl; [exact H1|]. cbn. lia.
    + apply Forall_forall. intros y [_ Hy]%Hsub. by eapply Forall_forall in W4.
  - intros y Hy. apply Hsub. destruct (cur_clientsds s) as [z|] eqn:Ez; [|done]. destruct (Z.eqb_spec z x) as [->|].
    + split; [exact (next_of_other x _ y W1 Hy)|exact (next_of_in x _ y Hy)].
    + simplify_eq. split; [done|]. by apply W5.
  - by apply NoDup_remove_sock.
  - rewrite writeComplete_sockets. by rewrite W7.
  - intros y [? Hy]%elem_of_remove_sock; [|done]. apply Hsub. split; [done|]. by apply W8.
  - intros y [? Hy]%elem_of_remove_sock; [|done]. apply elem_of_difference. rewrite elem_of_singleton. auto.
Qed.

Lemma putdatas_wf r x b bufs s : wf s → x ∈ clientsds s →
  ∃ rc s', Socket_putdatas r x b bufs s = Some (rc, s') ∧ wf s'.
Proof.
  intros [W1 W2 W3 W4 W5 W6 W7 W8 W9] Hx. unfold Socket_putdatas, SocketWrite.Socket_putdatas.
  pose proof (proj1 (Forall_forall _ _) W2 x Hx) as Hfd. rewrite (bool_decide_eq_true_2 (fd_ok x)) by done. cbn [negb].
  destruct (Socket_noPendingWrites x (wr s)) eqn:Hno; cbn [negb].
  2: { change (SOCKET_ERROR =? TCPSOCKET_INTERRUPTED) with false. cbn iota. eexists _, _. split; [done|]. by split. }
  apply bool_decide_eq_true in Hno.
  destruct (Socket_writev r x _ (wr s)) as [[rc bytes] w1] eqn:E.
  assert (H1 : writes w1 = writes (wr s) ∧ write_pending w1 = write_pending (wr s)).
  { destruct r; cbn in E; simplify_eq; by cbn. }
  destruct H1 as [Hw1 Hp1].
  destruct (Z.eqb_spec rc SOCKET_ERROR) as [->|]; [|destruct (bytes =? _)];
    [change (SOCKET_ERROR =? TCPSOCKET_INTERRUPTED) with false|change (TCPSOCKET_COMPLETE =? TCPSOCKET_INTERRUPTED) with false|
     change (TCPSOCKET_INTERRUPTED =? TCPSOCKET_INTERRUPTED) with true]; rewrite ?andb_false_r; cbn iota; eexists _, _; (split; [done|]).
  - split; cbn; rewrite ?Hw1, ?Hp1; done.
  - split; cbn; rewrite ?Hw1, ?Hp1; done.
  - split; cbn; rewrite ?fmap_app, ?Hw1, ?Hp1, ?W7; try done.
    + apply NoDup_app. split_and!; [done| |apply NoDup_singleton]. intros y Hy ->%list_elem_of_singleton. done.
    + intros y [Hy| ->%list_elem_of_singleton]%elem_of_app; [by apply W8|done].
    + intros y [Hy| ->%list_elem_of_singleton]%elem_of_app; set_solver.
Qed.

Lemma new_wf a s : wf s → (n_socket a ≠ -1 → fd_ok (n_socket a)) → ∃ rc sock s', Socket_new a s = Some (rc, sock, s') ∧ wf s'.
Proof.
  intros Hs Hfd. unfold Socket_new. case_match; [by eexists _, _, _|]. destruct (Z.eqb_spec (n_socket a) (-1)) as [|Hne]; [by eexists _, _, _|].
  specialize (Hfd Hne). destruct (addSocket_wf (n_nonblocking a) (n_socket a) s Hs Hfd) as (rc & s1 & -> & Hs1 & _). cbn [mbind option_bind].
  assert (Hc : ∀ l, wf (set_connect s1 l)) by (intros l; destruct Hs1 as [W1 W2 W3 W4 W5 W6 W7 W8 W9]; by split).
  set (p := if rc =? SOCKET_ERROR then _ else _). assert (Hp : wf p.2) by (subst p; destruct (rc =? SOCKET_ERROR); [done|]; cbn [snd]; destruct (_ || _); [apply Hc|done]).
  destruct p as [rc2 s2]. cbn [snd] in Hp. destruct (_ && _); [|by eexists _, _, _].
  destruct (close_wf (n_socket a) s2 Hp Hfd) as (s3 & -> & Hs3 & _). cbn [mbind option_bind]. by eexists _, _, _.
Qed.

(** The calls of the other modules, in any order. *)
Inductive call :=
  | CNew (a : new_answers)
  | CAddPending (socket : Z)
  | CClearPending (socket : Z)
  | CReady (a : answers)
  | CPut (result : writev_result) (socket : Z) (buf0 : list Z) (bufs : list iobuf)
  | CClose (socket : Z).

Definition exec (c : call) (s : Sockets) : option Sockets :=
  match c with
  | CNew a => '(_, _, s) ← Socket_new a s; Some s
  | CAddPending x => Socket_addPendingWrite x s
  | CClearPending x => Socket_clearPendingWrite x s
  | CReady a => '(_, s, _) ← Socket_getReadySocket a s; Some s
  | CPut r x b bufs => '(_, s) ← Socket_putdatas r x b bufs s; Some s
  | CClose x => Socket_close x s
  end.

(** What the callers have to respect: descriptors that an [fd_set] can hold,
    writes on open sockets, and no clearing of a socket whose write is not
    finished. *)
Definition call_ok (c : call) (s : Sockets) : Prop :=
  match c with
  | CNew a => n_socket a ≠ -1 → fd_ok (n_socket a)
  | CAddPending x | CClose x => fd_ok x
  | CClearPending x => fd_ok x ∧ x ∉ write_pending (wr s)
  | CReady _ => True
  | CPut _ x _ _ => x ∈ clientsds s
  end.

Fixpoint exec_all (cs : list call) (s : Sockets) : option Sockets :=
  match cs with [] => Some s | c :: cs' => s ← exec c s; exec_all cs' s end.
Fixpoint calls_ok (cs : list call) (s : Sockets) : Prop :=
  match cs with [] => True | c :: cs' => call_ok c s ∧ ∀ s', exec c s = Some s' → calls_ok cs' s' end.

Lemma exec_wf c s : wf s → call_ok c s → ∃ s', exec c s = Some s' ∧ wf s'.
Proof.
  intros Hs Hc. destruct c; cbn [exec call_ok] in *.
  - destruct (new_wf a s Hs Hc) as (? & ? & s' & -> & ?). by exists s'.
  - unfold Socket_addPendingWrite. rewrite bool_decide_eq_true_2 by done. eexists. split; [done|].
    destruct Hs as [W1 W2 W3 W4 W5 W6 W7 W8 W9]. split; cbn; try done. intros x Hx. apply elem_of_union. right. by apply W9.
  - unfold Socket_clearPendingWrite. destruct Hc as [Hc Hn]. rewrite bool_decide_eq_true_2 by done. eexists. split; [done|].
    destruct Hs as [W1 W2 W3 W4 W5 W6 W7 W8 W9]. split; cbn; try done. intros x Hx. apply elem_of_difference.
    split; [by apply W9|]. by intros ->%elem_of_singleton.
  - destruct (getReadySocket_wf a s Hs) as (? & s' & ? & -> & ?). by exists s'.
  - destruct (putdatas_wf result socket buf0 bufs s Hs Hc) as (? & s' & -> & ?). by exists s'.
  - destruct (close_wf socket s Hs Hc) as (s' & -> & ? & _). by exists s'.
Qed.

Lemma exec_all_wf cs : ∀ s, wf s → calls_ok cs s → ∃ s', exec_all cs s = Some s' ∧ wf s'.
Proof.
  induction cs as [|c cs IH]; intros s Hs Hc; [by exists s|]. destruct Hc as [Hc Hcs].
  destruct (exec_wf c s Hs Hc) as (s1 & E & H1). cbn [exec_all]. rewrite E. cbn [mbind option_bind]. apply IH; [done|by apply Hcs].
Qed.

(** C27: Whatever the system answers and in whatever order the module is called, no
    call faults and its data stay well formed: the list of sockets has none twice
    and is the set given to [select], which looks far enough; the socket to serve
    next is in it; a socket with an unfinished write is open, is watched until it
    can be written again, and has exactly one write in the socket buffer.  It is
    called as its callers do: the descriptors the system hands out are below
    FD_SETSIZE (a larger one is written outside the sets, see the findings), only
    sockets in the list are written to, and the watch is taken off a socket only
    when it has no unfinished write. *)
Theorem sockets_well_formed cs w :
  writes w = [] → write_pending w = [] → calls_ok cs (Socket_outInitialize w) →
  ∃ s, exec_all cs (Socket_outInitialize w) = Some s ∧ wf s.
Proof.
  intros Hw Hp Hc. apply exec_all_wf; [|done]. split; cbn; rewrite ?Hw, ?Hp; try done.
  all: first [apply NoDup_nil_2|intros x Hx; by apply elem_of_nil in Hx].
Qed.

(** ** Every socket that is ready is served before the next select *)

(** The state after the two calls of [select]. *)
Definition selected (a : answers) (s : Sockets) : option Sockets :=
  '(readable, writable) ← a_first a;
  writable2 ← a_second a;
  '(s', _) ← Socket_continueWrites (select (maxfdp1 s) (pending_wset s) writable) (a_writev a)
               (set_sets s (select (maxfdp1 s) (rset_saved s) readable) (wset s));
  Some (set_sets s' (rset s') (select (maxfdp1 s') (rset_saved s') writable2)).

Definition ready (s : Sockets) : list Z := List.filter (λ x, (isReady x s).1) (clientsds s).

(** The results of calls one after the other. *)
Fixpoint polls (l : list answers) (s : Sockets) : option (list Z * Sockets) :=
  match l with
  | [] => Some ([], s)
  | a :: l' =>
      '(x, s, _) ← Socket_getReadySocket a s;
      '(xs, s) ← polls l' s;
      Some (x :: xs, s)
  end.

Lemma not_ready x s : (isReady x s).1 = false → (isReady x s).2 = s.
Proof. unfold isReady. by case_match. Qed.

Lemma isReady_other x y s : x ≠ y → (isReady y (isReady x s).2).1 = (isReady y s).1.
Proof.
  intros Hne. assert (Hin : ∀ l, y ∈ remove_sock x l ↔ y ∈ l).
  { induction l as [|z l IH]; [done|]. cbn [remove_sock]. destruct (Z.eqb_spec z x) as [->|].
    - rewrite elem_of_cons. naive_solver.
    - by rewrite !elem_of_cons, IH. }
  unfold isReady at 2. destruct (bool_decide (x ∈ connect_pending s) && bool_decide (x ∈ wset s)); [|done]. cbn [snd].
  unfold isReady. cbn [connect_pending set_connect wset rset wr]. rewrite (bool_decide_ext _ _ (Hin (connect_pending s))).
  by case_match.
Qed.

Lemma next_of_at p x v : NoDup (p ++ x :: v) → next_of x (p ++ x :: v) = head v.
Proof.
  induction p as [|z p IH]; cbn [app next_of]; [by rewrite Z.eqb_refl|]. intros [Hz Hnd]%NoDup_cons.
  rewrite (proj2 (Z.eqb_neq z x)); [by apply IH|]. intros ->. apply Hz. apply elem_of_app. right. by left.
Qed.

Lemma from_sock_at p x v : NoDup (p ++ x :: v) → from_sock x (p ++ x :: v) = x :: v.
Proof.
  induction p as [|z p IH]; cbn [app from_sock]; [by rewrite Z.eqb_refl|]. intros [Hz Hnd]%NoDup_cons.
  rewrite (proj2 (Z.eqb_neq z x)); [by apply IH|]. intros ->. apply Hz. apply elem_of_app. right. by left.
Qed.

(** The next ready socket of the elements [l], and where the search goes on. *)
Lemma ready_loop_next l : ∀ s p, NoDup (p ++ l) → clientsds s = p ++ l →
  match List.filter (λ x, (isReady x s).1) l with
  | [] => ready_loop l s = set_cur s None
  | x :: xs => cur_clientsds (ready_loop l s) = Some x ∧
      ∃ p' l' s', take_current (ready_loop l s) = (x, s') ∧ clientsds s' = p' ++ l' ∧ clientsds s' = clientsds s ∧
      cur_clientsds s' = head l' ∧ List.filter (λ y, (isReady y s').1) l' = xs
  end.
Proof.
  induction l as [|y l IH]; intros s p Hnd Hl; [done|]. cbn [List.filter ready_loop].
  pose proof (isReady_same y s) as [H1 _]. pose proof (not_ready y s) as H2. pose proof (λ z, isReady_other y z s) as H3.
  destruct (isReady y s) as [b s1] eqn:E. cbn [fst snd] in *. destruct b.
  - split; [done|]. exists (p ++ [y]), l, (set_cur s1 (head l)). unfold take_current. cbn [cur_clientsds set_cur clientsds].
    rewrite H1, Hl. rewrite next_of_at by done. split_and!; [done|by rewrite <-app_assoc|done|done|].
    apply filter_ext_in. intros z Hz%list_elem_of_In.
    assert (Hne : y ≠ z). { intros ->. apply NoDup_app in Hnd as (_ & _ & Hnd). by apply NoDup_cons in Hnd as [? _]. }
    transitivity (isReady z s1).1; [|by apply H3].
    unfold isReady. cbn [connect_pending set_cur wset rset wr]. by case_match.
  - rewrite (H2 eq_refl) in *. apply (IH s (p ++ [y])); by rewrite <-app_assoc.
Qed.

(** [l] are the sockets not yet looked at since the select. *)
Lemma polls_ready xs : ∀ s p l rest, NoDup (p ++ l) → p ++ l ≠ [] → clientsds s = p ++ l → cur_clientsds s = head l →
  List.filter (λ x, (isReady x s).1) l = xs → length rest = length xs →
  ∃ s', polls rest s = Some (xs, s') ∧ ∀ a, Socket_getReadySocket a s' = select_phase a (set_cur s' None).
Proof.
  induction xs as [|x xs IH]; intros s p l rest Hnd Hne Hl Hc Hf Hlen.
  - destruct rest; [|done]. exists s. split; [done|]. intros a. unfold Socket_getReadySocket.
    rewrite Hl. destruct (p ++ l) eqn:El; [done|]. rewrite <-El in *. rewrite Hc. destruct l as [|y l]; cbn [head].
    + destruct s. cbn in *. by rewrite Hc.
    + rewrite from_sock_at by done. pose proof (ready_loop_next (y :: l) s p Hnd Hl) as H. rewrite Hf in H. rewrite H. done.
  - destruct rest as [|a rest]; [done|]. cbn [polls]. pose proof (ready_loop_next l s p Hnd Hl) as H. rewrite Hf in H.
    destruct H as (Hx & p' & l' & s1 & E & H1 & H2 & H3 & H4). unfold Socket_getReadySocket.
    rewrite Hl. destruct (p ++ l) eqn:El; [done|]. rewrite <-El in *. rewrite Hc. destruct l as [|y l]; [done|]. cbn [head].
    rewrite from_sock_at by done. rewrite Hx, E. cbn [mbind option_bind].
    destruct (IH s1 p' l' rest) as (s' & -> & Hs'); [by rewrite <-H1, H2, Hl|by rewrite <-H1, H2, Hl, El|done..|by injection Hlen|].
    cbn [mbind option_bind]. by exists s'.
Qed.

(** C28: The sockets that a [select] finds ready (readable and writable without an
    unfinished write, or connected) are served one call after the other, each
    once, in the order in which they were added, whatever becomes ready in the
    meantime; only then the module calls [select] again. *)
Theorem select_serves_each a s s1 rest :
  wf s → cur_clientsds s = None → clientsds s ≠ [] → selected a s = Some s1 → ready s1 ≠ [] →
  length rest = pred (length (ready s1)) →
  ∃ s2, polls (a :: rest) s = Some (ready s1, s2) ∧
    ∀ a', Socket_getReadySocket a' s2 = select_phase a' (set_cur s2 None).
Proof.
  intros Hs Hc Hne Hsel Hr Hlen. unfold selected in Hsel.
  destruct (a_first a) as [[r w]|] eqn:E1; [|done]. cbn [mbind option_bind] in Hsel.
  destruct (a_second a) as [w2|] eqn:E2; [|done]. cbn [mbind option_bind] in Hsel.
  set (p := select (maxfdp1 s) (pending_wset s) w) in *. set (r1 := select (maxfdp1 s) (rset_saved s) r) in *.
  unfold Socket_continueWrites in Hsel.
  destruct (continue_writes_wf p (a_writev a) (write_pending (wr s)) (set_sets s r1 (wset s))) as (s0 & calls & E & Hs0 & Hsame).
  { by apply set_sets_wf. } { apply Hs. } { done. }
  cbn [wr set_sets] in Hsel. rewrite E in Hsel. cbn [mbind option_bind] in Hsel. simplify_eq.
  destruct Hsame as [(Hr0 & Hw0 & Hsv) (Hcl & Hcur & Hmax) _]. cbn in Hr0, Hcl, Hcur, Hsv, Hmax.
  set (s1 := set_sets s0 _ _) in *. assert (Hcl1 : clientsds s1 = clientsds s) by done.
  assert (E0 : select_phase a s = let '(x, s') := take_current (ready_loop (clientsds s1) s1) in Some (x, s', calls)).
  { unfold select_phase. rewrite E1. unfold Socket_continueWrites. cbn [wr set_sets]. fold p r1. rewrite E. cbn [mbind option_bind].
    rewrite E2. replace (set_sets s0 r1 (select (maxfdp1 s0) (rset_saved s0) w2)) with s1 by (unfold s1; by rewrite Hr0).
    destruct (_ && _) eqn:Ez; [|done]. apply andb_true_iff in Ez as [_ Ez].
    exfalso. apply Z.eqb_eq in Ez. assert (Hempty : wset s1 = ∅).
    { apply leibniz_equiv, size_empty_inv. cbn [wset s1 set_sets]. lia. }
    apply Hr. unfold ready. generalize (clientsds s1). induction l as [|x l IH]; [done|]. cbn [List.filter].
    assert (Hn : (isReady x s1).1 = false).
    { unfold isReady. rewrite Hempty, !(bool_decide_eq_false_2 (x ∈ (∅ : gset Z))) by set_solver. by rewrite !andb_false_r. }
    by rewrite Hn. }
  assert (Hnd : NoDup ([] ++ clientsds s1)) by (rewrite Hcl1; apply Hs).
  pose proof (ready_loop_next (clientsds s1) s1 [] Hnd eq_refl) as H. unfold ready in *.
  destruct (List.filter _ (clientsds s1)) as [|x xs] eqn:Ef; [done|].
  destruct H as (Hx & p' & l' & s2 & Et & H1 & H2 & H3 & H4). rewrite Et in E0.
  cbn [polls]. unfold Socket_getReadySocket at 1. destruct (clientsds s) as [|c l] eqn:El; [done|]. rewrite Hc, E0. cbn iota. rewrite Hc. cbn [mbind option_bind].
  destruct (polls_ready xs s2 p' l' rest) as (s3 & -> & Hs3); [by rewrite <-H1, H2| |done..|].
  { rewrite <-H1, H2, Hcl1. done. }
  cbn [mbind option_bind]. by exists s3.
Qed.

(** ** Witnesses *)

Definition three_sockets : Sockets :=
  mkSockets ∅ ∅ {[4; 5; 6]} 7 [4; 5; 6] None [] ∅ idle_w (mkState [] SocketBuffer_newDefQ []).
Definition all_writable : answers := mkAnswers (Some ({[4; 6]}, ∅)) (Some {[4; 5; 6]}) (λ _, WRoom 0).

Lemma three_sockets_wf : wf three_sockets.
Proof.
  split; cbn; try done.
  - apply (bool_decide_eq_true_1 _); vm_compute; reflexivity.
  - apply (bool_decide_eq_true_1 _); vm_compute; reflexivity.
  - apply (bool_decide_eq_true_1 _); vm_compute; reflexivity.
  - apply NoDup_nil_2.
  - intros x Hx. by apply elem_of_nil in Hx.
  - intros x Hx. by apply elem_of_nil in Hx.
Qed.

Lemma select_serves_each_witness :
  wf three_sockets ∧ ∃ s2, polls [all_writable; all_writable] three_sockets = Some ([4; 6], s2) ∧
    ∀ a', Socket_getReadySocket a' s2 = select_phase a' (set_cur s2 None).
Proof.
  split; [apply three_sockets_wf|].
  refine (select_serves_each all_writable three_sockets _ [all_writable] three_sockets_wf eq_refl _ eq_refl _ _).
  - done.
  - vm_compute. discriminate.
  - vm_compute. reflexivity.
Defined.

Definition new_socket_4 : new_answers := mkNew 0 [AF_INET6; AF_INET] 4 0 0 0 SOCKET_ERROR EINPROGRESS.

Lemma sockets_well_formed_witness :
  calls_ok [CNew new_socket_4; CReady all_writable; CClose 4] (Socket_outInitialize idle_w) ∧
  ∃ s, exec_all [CNew new_socket_4; CReady all_writable; CClose 4] (Socket_outInitialize idle_w) = Some s ∧ wf s.
Proof.
  assert (H : calls_ok [CNew new_socket_4; CReady all_writable; CClose 4] (Socket_outInitialize idle_w)).
  { cbn [calls_ok call_ok]. split; [intros _; apply (bool_decide_eq_true_1 _); vm_compute; reflexivity|]. intros s1 _.
    split; [done|]. intros s2 _. split; [apply (bool_decide_eq_true_1 _); vm_compute; reflexivity|done]. }
  split; [exact H|]. exact (sockets_well_formed _ idle_w eq_refl eq_refl H).
Defined.
End SocketSelect.
