(* ===== verification/Protocol.v ===== *)
(** * The MQTT protocol client (paho.mqtt.c/src/MQTTProtocolClient.c)

    Message identifiers, the in-flight messages of both directions and the
    publications they refer to, the QoS 1 and 2 handshakes, the keep-alive and
    the retries, over a transport given by its interface. *)
From S2P Require Import Prelude PacketCodec Props Packets SocketIO.

Module Protocol.
Import Codecs Properties Packets SocketRead.

(** ** The transport interface

    What the protocol needs of the socket layer: a packet can be sent on a
    socket, which answers a completion code, and a socket may have output
    pending.  [OPacket] is a packet that another module has made. *)

Inductive out_packet :=
  | OPublish (p : Publish) (dup qos retained : Z)
  | OAck (type msgid dup : Z)
  | OPingreq
  | OPacket (bytes : list Z).

(** The bytes of a packet, as the serializers of MQTTPacket.c make them. *)
Definition out_bytes (p : out_packet) : list Z :=
  match p with
  | OPublish p dup qos retained => MQTTPacket_send_publish p dup qos retained
  | OAck type msgid dup => MQTTPacket_send_ack type msgid dup
  | OPingreq => MQTTPacket_send_pingreq
  | OPacket bytes => bytes
  end.

Class Transport (T : Type) := {
  noPendingWrites : T → Z → bool;
  send_packet : T → Z → out_packet → Z * T
}.

(** The laws of a transport: it refuses a socket that has output pending; it
    answers one of three codes; a complete write leaves the socket free and an
    interrupted one leaves it pending; the other sockets do not change. *)
Class TransportLaws (T : Type) `{!Transport T} : Prop := {
  send_refused t s p : noPendingWrites t s = false → send_packet t s p = (SOCKET_ERROR, t);
  send_codes t s p rc t' : send_packet t s p = (rc, t') →
    rc = TCPSOCKET_COMPLETE ∨ rc = TCPSOCKET_INTERRUPTED ∨ rc = SOCKET_ERROR;
  send_complete t s p t' :
    send_packet t s p = (TCPSOCKET_COMPLETE, t') → noPendingWrites t' s = true;
  send_interrupted t s p t' :
    send_packet t s p = (TCPSOCKET_INTERRUPTED, t') → noPendingWrites t' s = false;
  send_other t s p rc t' k :
    send_packet t s p = (rc, t') → k ≠ s → noPendingWrites t' k = noPendingWrites t k
}.

(** ** Data (Clients.h, MQTTProtocol.h) *)

Record Publications := mkPublications {
  p_topic : list Z;
  p_topiclen : Z;
  p_payload : list Z;
  p_payloadlen : Z;
  p_refcount : Z
}.

(** [publish] is the address of a publication, [None] for NULL;
    [nextMessageType] is only set for QoS 2, [lastTouch] only for the messages
    sent. *)
Record Messages := mkMessage {
  qos : Z;
  retain : Z;
  msgid : Z;
  m_MQTTVersion : Z;
  m_properties : MQTTProperties;
  publish : option positive;
  lastTouch : Z;
  nextMessageType : Z
}.

Record Clients := mkClient {
  socket : Z;
  connected : bool;
  good : bool;
  ping_outstanding : bool;
  lastSent : Z;
  lastReceived : Z;
  lastPing : Z;
  msgID : Z;
  keepAliveInterval : Z;
  retryInterval : Z;
  inboundMsgs : list Messages;
  outboundMsgs : list Messages
}.

Definition MAX_MSG_ID := 65535.
Definition MQTTREASONCODE_UNSPECIFIED_ERROR := 128.

(** What the protocol does besides changing its state: packets given to the
    transport with the code answered, messages given to the application
    ([Protocol_processPublication]; topic and payload are [None] for NULL),
    sessions closed ([MQTTProtocol_closeSession] belongs to the client layer). *)
Inductive event :=
  | ESend (sock : Z) (p : out_packet) (rc : Z)
  | EDeliver (id : Z) (content : option (list Z * list Z)) (qos retain : Z)
  | EClose (sock : Z).

Definition with_inbound (c : Clients) (l : list Messages) : Clients :=
  mkClient (socket c) (connected c) (good c) (ping_outstanding c) (lastSent c) (lastReceived c)
    (lastPing c) (msgID c) (keepAliveInterval c) (retryInterval c) l (outboundMsgs c).
Definition with_outbound (c : Clients) (l : list Messages) : Clients :=
  mkClient (socket c) (connected c) (good c) (ping_outstanding c) (lastSent c) (lastReceived c)
    (lastPing c) (msgID c) (keepAliveInterval c) (retryInterval c) (inboundMsgs c) l.
Definition with_msgID (c : Clients) (id : Z) : Clients :=
  mkClient (socket c) (connected c) (good c) (ping_outstanding c) (lastSent c) (lastReceived c)
    (lastPing c) id (keepAliveInterval c) (retryInterval c) (inboundMsgs c) (outboundMsgs c).
Definition with_lastSent (c : Clients) (t : Z) : Clients :=
  mkClient (socket c) (connected c) (good c) (ping_outstanding c) t (lastReceived c)
    (lastPing c) (msgID c) (keepAliveInterval c) (retryInterval c) (inboundMsgs c) (outboundMsgs c).
Definition with_ping (c : Clients) (t : Z) : Clients :=
  mkClient (socket c) (connected c) (good c) true (lastSent c) (lastReceived c)
    t (msgID c) (keepAliveInterval c) (retryInterval c) (inboundMsgs c) (outboundMsgs c).
Definition with_good (c : Clients) (g : bool) : Clients :=
  mkClient (socket c) (connected c) g (ping_outstanding c) (lastSent c) (lastReceived c)
    (lastPing c) (msgID c) (keepAliveInterval c) (retryInterval c) (inboundMsgs c) (outboundMsgs c).

Section Protocol.
Context {T : Type} `{!Transport T}.
(** [MQTTPersistence_remove] (MQTT 5 or not, QoS, message id): its return code. *)
Context (persistence_remove : bool → Z → Z → Z).
(** The time at which the function runs, in milliseconds ([MQTTTime_now]). *)
Context (now : Z).

(** The state the clients of the process share ([MQTTProtocol state] and the
    socket layer); [pending_writes] are the QoS 0 publications kept for a write
    that is not finished. *)
Record shared := mkShared {
  publications : gmap positive Publications;
  pending_writes : list (Z * positive);
  msgs_sent : Z;
  msgs_received : Z;
  net : T
}.

(** What a handler works on: the client it found for its socket, through the
    pointer to it, and the shared state. *)
Definition session : Type := Clients * shared.

(** Statements with events; [None] is an access through NULL or through a
    pointer to a freed publication. *)
Definition proto : Type → Type := emitting session event.

Definition pfault {A} : proto A := λ s, None.
Definition the_client : proto Clients := λ s, Some (fst s, s, []).
Definition get_publications : proto (gmap positive Publications) := λ s,
  Some (publications (snd s), s, []).
Definition emit (e : event) : proto () := λ s, Some ((), s, [e]).
Definition modify_client (f : Clients → Clients) : proto () := λ s,
  Some ((), (f (fst s), snd s), []).
Definition set_publications (ps : gmap positive Publications) : proto () := λ '(c, s),
  Some ((), (c, mkShared ps (pending_writes s) (msgs_sent s) (msgs_received s) (net s)), []).
Definition add_pending (w : Z * positive) : proto () := λ '(c, s),
  Some ((), (c, mkShared (publications s) (pending_writes s ++ [w]) (msgs_sent s)
                  (msgs_received s) (net s)), []).
Definition count_sent : proto () := λ '(c, s),
  Some ((), (c, mkShared (publications s) (pending_writes s) (msgs_sent s + 1)
                  (msgs_received s) (net s)), []).
Definition count_received : proto () := λ '(c, s),
  Some ((), (c, mkShared (publications s) (pending_writes s) (msgs_sent s)
                  (msgs_received s + 1) (net s)), []).

(** [MQTTPacket_send] through the handles of a client: a complete write also
    stamps [lastSent]. *)
Definition send_on (c : Clients) (p : out_packet) (t : T) : Z * Clients * T * list event :=
  let '(rc, t') := send_packet t (socket c) p in
  (rc, if rc =? TCPSOCKET_COMPLETE then with_lastSent c now else c, t', [ESend (socket c) p rc]).

Definition send (p : out_packet) : proto Z := λ '(c, s),
  let '(rc, c', t', ev) := send_on c p (net s) in
  Some (rc, (c', mkShared (publications s) (pending_writes s) (msgs_sent s) (msgs_received s) t'), ev).
Definition no_pending : proto bool := λ s,
  Some (noPendingWrites (net (snd s)) (socket (fst s)), s, []).

(** [ListFindItem] with [messageIDCompare], [ListRemove] of what it finds, and
    the update through the pointer found. *)
Fixpoint find_msg (id : Z) (l : list Messages) : option Messages :=
  match l with
  | [] => None
  | m :: l' => if msgid m =? id then Some m else find_msg id l'
  end.
Fixpoint remove_msg (id : Z) (l : list Messages) : list Messages :=
  match l with
  | [] => []
  | m :: l' => if msgid m =? id then l' else m :: remove_msg id l'
  end.
Fixpoint replace_msg (id : Z) (m : Messages) (l : list Messages) : list Messages :=
  match l with
  | [] => []
  | m' :: l' => if msgid m' =? id then m :: l' else m' :: replace_msg id m l'
  end.

(** ** Message identifiers *)

Definition next_id (id : Z) : Z := if id =? MAX_MSG_ID then 1 else id + 1.

(** The [while] loop: [None] when the fuel is exhausted. *)
Fixpoint assign_loop (fuel : nat) (start_msgid id : Z) (l : list Messages) : option Z :=
  match find_msg id l with
  | None => Some id
  | Some _ =>
      match fuel with
      | O => None
      | S fuel' =>
          let id' := next_id id in
          if id' =? start_msgid then Some 0 else assign_loop fuel' start_msgid id' l
      end
  end.

Definition MQTTProtocol_assignMsgId (c : Clients) : option (Z * Clients) :=
  id ← assign_loop (Z.to_nat MAX_MSG_ID) (msgID c) (next_id (msgID c)) (outboundMsgs c);
  Some (id, if id =? 0 then c else with_msgID c id).

(** ** Publications *)

(** The topic and payload move from the packet to the publication. *)
Definition MQTTProtocol_storePublication (p : Publish) : proto positive :=
  pubs ← get_publications;
  let id := fresh (dom pubs) in
  set_publications
    (<[id := mkPublications (pb_topic p) (pb_topiclen p) (pb_payload p) (pb_payloadlen p) 1]> pubs);;
  mret id.

(** One reference less; the last one removes the publication. *)
Definition release_publication (id : positive) (pubs : gmap positive Publications)
    : option (gmap positive Publications) :=
  pub ← pubs !! id;
  Some (if p_refcount pub - 1 =? 0 then delete id pubs
        else <[id := mkPublications (p_topic pub) (p_topiclen pub) (p_payload pub)
                       (p_payloadlen pub) (p_refcount pub - 1)]> pubs).

(** NULL is accepted; an address that is not a publication is not. *)
Definition MQTTProtocol_removePublication (p : option positive) : proto () :=
  match p with
  | None => mret ()
  | Some id =>
      pubs ← get_publications;
      match release_publication id pubs with
      | None => pfault
      | Some pubs' => set_publications pubs'
      end
  end.

Definition deref_publication (p : option positive) : proto Publications :=
  match p with
  | None => pfault
  | Some id => pubs ← get_publications; match pubs !! id with Some pub => mret pub | None => pfault end
  end.

(** [*mm] is NULL on entry: a new message with its own publication. *)
Definition MQTTProtocol_createMessage (p : Publish) (q retained : Z) : proto Messages :=
  id ← MQTTProtocol_storePublication p;
  mret (mkMessage q retained (pb_msgId p) (pb_MQTTVersion p)
          (if 5 <=? pb_MQTTVersion p then pb_properties p else MQTTProperties_initializer)
          (Some id) now (if q =? 2 then PUBREC else 0)).

(** ** Outgoing publications *)

(** The packet built again from the stored message. *)
Definition stored_publish (m : Messages) (pub : Publications) : Publish :=
  mkPublish (mkHeader PUBLISH 0 0 0) (p_topic pub) (p_topiclen pub) (msgid m) (p_payload pub)
    (p_payloadlen pub) (m_MQTTVersion m) (m_properties m).

(** For QoS 0 an interrupted write keeps the publication for the socket buffer
    ([MQTTProtocol_storeQoS0]; the address of the bytes changes, not the bytes). *)
Definition MQTTProtocol_storeQoS0 (p : Publish) : proto () :=
  id ← MQTTProtocol_storePublication p;
  c ← the_client;
  add_pending (socket c, id).

Definition MQTTProtocol_startPublish (p : Publish) (q retained : Z) : proto Z :=
  if 0 <? q then
    m ← MQTTProtocol_createMessage p q retained;
    modify_client (λ c, with_outbound c (outboundMsgs c ++ [m]));;
    pub ← deref_publication (publish m);
    send (OPublish (stored_publish m pub) 0 q retained)
  else
    rc ← send (OPublish p 0 q retained);
    (if rc =? TCPSOCKET_INTERRUPTED then MQTTProtocol_storeQoS0 p else mret ());;
    mret rc.

(** ** Incoming publications *)

Definition MQTTProtocol_handlePublishes (p : Publish) : proto Z :=
  c ← the_client;
  let q := h_qos (pb_header p) in
  let deliver := emit (EDeliver (pb_msgId p) (Some (pb_topic p, pb_payload p)) q (h_retain (pb_header p))) in
  if q =? 0 then deliver;; mret TCPSOCKET_COMPLETE
  else
    free ← no_pending;
    if negb free then mret SOCKET_ERROR
    else if q =? 1 then
      rc ← send (OAck PUBACK (pb_msgId p) 0);
      deliver;;
      mret rc
    else if q =? 2 then
      id ← MQTTProtocol_storePublication p;
      let v5 := MQTTVERSION_5 <=? pb_MQTTVersion p in
      let m pub := mkMessage q (h_retain (pb_header p)) (pb_msgId p) (pb_MQTTVersion p)
                     (if v5 then pb_properties p else MQTTProperties_initializer) pub 0 PUBREL in
      already ←
        match find_msg (pb_msgId p) (inboundMsgs c) with
        | Some msg =>
            MQTTProtocol_removePublication (publish msg);;
            modify_client (λ c, with_inbound c (replace_msg (pb_msgId p) (m (Some id)) (inboundMsgs c)));;
            mret true
        | None =>
            modify_client (λ c, with_inbound c (inboundMsgs c ++ [m (Some id)]));; mret false
        end;
      rc ← send (OAck PUBREC (pb_msgId p) 0);
      if v5 && negb already then
        deliver;;
        pubs ← get_publications;
        set_publications (delete id pubs);;
        modify_client (λ c, with_inbound c (replace_msg (pb_msgId p) (m None) (inboundMsgs c)));;
        mret rc
      else mret rc
    else mret TCPSOCKET_COMPLETE.

(** ** Acknowledgements *)

Definition MQTTProtocol_handlePubacks (a : Ack) (id : Z) : proto Z :=
  c ← the_client;
  match find_msg id (outboundMsgs c) with
  | None => mret TCPSOCKET_COMPLETE
  | Some m =>
      if negb (qos m =? 1) then mret TCPSOCKET_COMPLETE
      else
        let rc := persistence_remove (MQTTVERSION_5 <=? m_MQTTVersion m) (qos m) id in
        MQTTProtocol_removePublication (publish m);;
        modify_client (λ c, with_outbound c (remove_msg id (outboundMsgs c)));;
        mret rc
  end.

Definition touch (m : Messages) (next : Z) : Messages :=
  mkMessage (qos m) (retain m) (msgid m) (m_MQTTVersion m) (m_properties m) (publish m) now next.

(** The reason code of a packet of a lower version is not set. *)
Definition MQTTProtocol_handlePubrecs (a : Ack) (id : Z) : proto Z :=
  c ← the_client;
  match find_msg id (outboundMsgs c) with
  | None => mret TCPSOCKET_COMPLETE
  | Some m =>
      if negb (qos m =? 2) then mret TCPSOCKET_COMPLETE
      else if negb (nextMessageType m =? PUBREC) then mret TCPSOCKET_COMPLETE
      else if (MQTTVERSION_5 <=? ack_MQTTVersion a)
              && (MQTTREASONCODE_UNSPECIFIED_ERROR <=? default 0 (ack_rc a)) then
        let rc := persistence_remove (MQTTVERSION_5 <=? ack_MQTTVersion a) (qos m) id in
        MQTTProtocol_removePublication (publish m);;
        modify_client (λ c, with_outbound c (remove_msg id (outboundMsgs c)));;
        count_sent;;
        mret rc
      else
        rc ← send (OAck PUBREL id 0);
        modify_client (λ c, with_outbound c (replace_msg id (touch m PUBCOMP) (outboundMsgs c)));;
        mret rc
  end.

Definition MQTTProtocol_handlePubrels (a : Ack) (id : Z) : proto Z :=
  c ← the_client;
  match find_msg id (inboundMsgs c) with
  | None =>
      if h_dup (ack_header a) =? 0 then mret TCPSOCKET_COMPLETE
      else
        free ← no_pending;
        if negb free then mret SOCKET_ERROR else send (OAck PUBCOMP id 0)
  | Some m =>
      if negb (qos m =? 2) then mret TCPSOCKET_COMPLETE
      else if negb (nextMessageType m =? PUBREL) then mret TCPSOCKET_COMPLETE
      else
        free ← no_pending;
        if negb free then mret SOCKET_ERROR
        else
          rc ← send (OAck PUBCOMP id 0);
          pub ← match publish m with Some _ => pub ← deref_publication (publish m); mret (Some pub)
                                   | None => mret None end;
          (if MQTTVERSION_5 <=? m_MQTTVersion m then mret ()
           else emit (EDeliver (msgid m) ((λ p, (p_topic p, p_payload p)) <$> pub) (qos m) (retain m)));;
          let rc := rc + persistence_remove (MQTTVERSION_5 <=? m_MQTTVersion m) (qos m) id in
          pubs ← get_publications;
          (match publish m with
           | Some p => set_publications (delete p pubs)
           | None => mret ()
           end);;
          modify_client (λ c, with_inbound c (remove_msg id (inboundMsgs c)));;
          count_received;;
          mret rc
  end.

Definition MQTTProtocol_handlePubcomps (a : Ack) (id : Z) : proto Z :=
  c ← the_client;
  match find_msg id (outboundMsgs c) with
  | None => mret TCPSOCKET_COMPLETE
  | Some m =>
      if negb (qos m =? 2) then mret TCPSOCKET_COMPLETE
      else if negb (nextMessageType m =? PUBCOMP) then mret TCPSOCKET_COMPLETE
      else
        let rc := persistence_remove (MQTTVERSION_5 <=? m_MQTTVersion m) (qos m) id in
        MQTTProtocol_removePublication (publish m);;
        modify_client (λ c, with_outbound c (remove_msg id (outboundMsgs c)));;
        count_sent;;
        mret rc
  end.

(** ** Keep-alive *)

Definition due (t interval : Z) : bool := interval * 1000 <=? now - t.

(** The body of the loop, on one client. *)
Definition keepalive_client (c : Clients) (t : T) : Clients * T * list event :=
  if negb (connected c) || (keepAliveInterval c =? 0) then (c, t, [])
  else if ping_outstanding c then
    if due (lastPing c) (keepAliveInterval c) then (c, t, [EClose (socket c)]) else (c, t, [])
  else if due (lastSent c) (keepAliveInterval c) || due (lastReceived c) (keepAliveInterval c) then
    if noPendingWrites t (socket c) then
      let '(rc, c', t', ev) := send_on c OPingreq t in
      if negb (rc =? TCPSOCKET_COMPLETE) then (c', t', ev ++ [EClose (socket c)])
      else (with_ping c' now, t', ev)
    else (c, t, [])
  else (c, t, []).

Fixpoint MQTTProtocol_keepalive (cs : list Clients) (t : T) : list Clients * T * list event :=
  match cs with
  | [] => ([], t, [])
  | c :: cs' =>
      let '(c1, t1, ev) := keepalive_client c t in
      let '(cs2, t2, ev') := MQTTProtocol_keepalive cs' t1 in
      (c1 :: cs2, t2, ev ++ ev')
  end.

(** ** Retries *)

Definition retry_due (regardless : bool) (c : Clients) (m : Messages) : bool :=
  regardless || (Z.max (retryInterval c) 10 * 1000 <? now - lastTouch m).

(** The packet sent again for a message, if its state calls for one; a message
    to publish without publication is a NULL pointer. *)
Definition resend (pubs : gmap positive Publications) (m : Messages) : option (option out_packet) :=
  if (qos m =? 1) || ((qos m =? 2) && (nextMessageType m =? PUBREC)) then
    match publish m ≫= λ id, pubs !! id with
    | None => None
    | Some pub => Some (Some (OPublish (stored_publish m pub) 1 (qos m) (retain m)))
    end
  else if negb (qos m =? 0) && (nextMessageType m =? PUBCOMP)
  then Some (Some (OAck PUBREL (msgid m) 0))
  else Some None.

(** [rc == SOCKET_ERROR] ends the session for a PUBLISH, anything but complete
    for a PUBREL. *)
Definition resend_failed (p : out_packet) (rc : Z) : bool :=
  match p with
  | OPublish _ _ _ _ => rc =? SOCKET_ERROR
  | _ => negb (rc =? TCPSOCKET_COMPLETE)
  end.

(** The [while] loop over the outbound messages; [c] is the client without them,
    [done] the messages already seen. *)
Fixpoint retries_loop (regardless : bool) (pubs : gmap positive Publications) (c : Clients)
    (done todo : list Messages) (t : T) : option (Clients * T * list event) :=
  match todo with
  | [] => Some (with_outbound c done, t, [])
  | m :: todo' =>
      if negb (connected c && good c && noPendingWrites t (socket c))
      then Some (with_outbound c (done ++ todo), t, [])
      else if retry_due regardless c m then
        r ← resend pubs m;
        match r with
        | None => retries_loop regardless pubs c (done ++ [m]) todo' t
        | Some p =>
            let '(rc, c1, t1, ev) := send_on c p t in
            if resend_failed p rc
            then Some (with_outbound (with_good c1 false) (done ++ todo), t1, ev ++ [EClose (socket c)])
            else
              '(c2, t2, ev') ← retries_loop regardless pubs c1
                                 (done ++ [touch m (nextMessageType m)]) todo' t1;
              Some (c2, t2, ev ++ ev')
        end
      else retries_loop regardless pubs c (done ++ [m]) todo' t
  end.

Definition MQTTProtocol_retries (regardless : bool) (pubs : gmap positive Publications) (c : Clients)
    (t : T) : option (Clients * T * list event) :=
  if negb regardless && (retryInterval c <=? 0) then Some (c, t, [])
  else retries_loop regardless pubs c [] (outboundMsgs c) t.

Fixpoint MQTTProtocol_retry (doRetry regardless : bool) (pubs : gmap positive Publications)
    (cs : list Clients) (t : T) : option (list Clients * T * list event) :=
  match cs with
  | [] => Some ([], t, [])
  | c :: cs' =>
      '(c1, t1, ev) ←
        (if negb (connected c) then Some (c, t, [])
         else if negb (good c) then Some (c, t, [EClose (socket c)])
         else if negb (noPendingWrites t (socket c)) then Some (c, t, [])
         else if doRetry then MQTTProtocol_retries regardless pubs c t
         else Some (c, t, []));
      '(cs2, t2, ev') ← MQTTProtocol_retry doRetry regardless pubs cs' t1;
      Some (c1 :: cs2, t2, ev ++ ev')
  end.

(** ** Emptying the message lists *)

(** Every publication of the list is released; the list is then freed. *)
Fixpoint release_all (l : list Messages) (pubs : gmap positive Publications)
    : option (gmap positive Publications) :=
  match l with
  | [] => Some pubs
  | m :: l' =>
      match publish m with
      | None => release_all l' pubs
      | Some id =>
          pubs' ← release_publication id pubs;
          release_all l' pubs'
      end
  end.

Definition MQTTProtocol_emptyMessageList := release_all.

(** [MQTTProtocol_freeClient]: both lists; the client structure remains. *)
Definition MQTTProtocol_freeClient (c : Clients) (pubs : gmap positive Publications)
    : option (Clients * gmap positive Publications) :=
  pubs1 ← MQTTProtocol_emptyMessageList (outboundMsgs c) pubs;
  pubs2 ← MQTTProtocol_emptyMessageList (inboundMsgs c) pubs1;
  Some (with_inbound (with_outbound c []) [], pubs2).

(** ** The clients of the process

    A handler finds the client of its socket ([ListFindItem] with
    [clientSocketCompare], whose [->content] is read at once) and works on it
    in place. *)

Definition process : Type := list Clients * shared.

Fixpoint on_client {A} (sock : Z) (h : proto A) (cs : list Clients) (sh : shared)
    : option (A * process * list event) :=
  match cs with
  | [] => None
  | c :: cs' =>
      if socket c =? sock then
        '(a, (c', sh'), ev) ← h (c, sh);
        Some (a, (c' :: cs', sh'), ev)
      else
        '(a, (cs'', sh'), ev) ← on_client sock h cs' sh;
        Some (a, (c :: cs'', sh'), ev)
  end.

End Protocol.

(** ** Strings *)

(** The bytes written to [dest], terminator included; [src] is a C string. *)
Fixpoint strncpy_loop (count : nat) (src : list Z) : list Z :=
  match count, src with
  | S (S count'), c :: src' => c :: strncpy_loop (S count') src'
  | _, _ => [0]
  end.
Definition MQTTStrncpy (src : list Z) (dest_size : nat) : list Z := strncpy_loop dest_size src.
Definition MQTTStrdup (src : list Z) : list Z := MQTTStrncpy src (S (length src)).

(** At most [dest_size] bytes are written, and the last one is the terminator. *)
Lemma MQTTStrncpy_spec src n : MQTTStrncpy src (S n) = take n src ++ [0].
Proof.
  unfold MQTTStrncpy. revert src. induction n as [|n IH]; intros src; [by destruct src|].
  destruct src as [|c src]; [done|]. cbn [take app]. rewrite <-IH. done.
Qed.

Lemma MQTTStrdup_spec src : MQTTStrdup src = src ++ [0].
Proof. unfold MQTTStrdup. by rewrite MQTTStrncpy_spec, firstn_all. Qed.

End Protocol.
