(* ===== verification/ProtocolSpec.v ===== *)
(** * What the MQTT protocol client promises (theorems about Protocol.v)

    An abstract machine for the QoS 1 and 2 exchanges of a session, the
    ownership invariant of the stored publications, the refinement of the
    machine by the handlers, exactly-once delivery, and the theorems on message
    identifiers, keep-alive and retries. *)
From S2P Require Import Prelude PacketCodec Props Packets SocketIO Protocol.

Module ProtocolSpec.
Import Codecs Properties Packets SocketRead Protocol.

(** ** The abstract machine *)

Definition content : Type := list Z * list Z.

(** What an outgoing message waits for; what an incoming QoS 2 message is until
    its PUBREL: held (MQTT 3), or already given to the application (MQTT 5). *)
Inductive out_phase := WaitPuback | WaitPubrec | WaitPubcomp.
Inductive in_phase := Held (c : option content) (retain : Z) | Accepted.

Record astate := mkA {
  a_out : gmap Z (out_phase * option content);
  a_in : gmap Z in_phase;
  a_sent : Z;
  a_received : Z
}.

Inductive aevent :=
  | ASend (bytes : list Z)
  | AAck (type id : Z)
  | ADeliver (id : Z) (c : option content) (qos retain : Z).

(** The packets a session reacts to, and the publications of the application. *)
Inductive input :=
  | InPublish (p : Publish)
  | InPuback (a : Ack) (id : Z)
  | InPubrec (a : Ack) (id : Z)
  | InPubrel (a : Ack) (id : Z)
  | InPubcomp (a : Ack) (id : Z)
  | OutPublish (p : Publish) (q retained : Z).

Definition pubrec_error (a : Ack) : bool :=
  (MQTTVERSION_5 <=? ack_MQTTVersion a) && (MQTTREASONCODE_UNSPECIFIED_ERROR <=? default 0 (ack_rc a)).

Definition set_out (a : astate) o := mkA o (a_in a) (a_sent a) (a_received a).
Definition set_in (a : astate) i := mkA (a_out a) i (a_sent a) (a_received a).
Definition add_counts (a : astate) (ds dr : Z) := mkA (a_out a) (a_in a) (a_sent a + ds) (a_received a + dr).

Definition pub_content (p : Publish) : option content := Some (pb_topic p, pb_payload p).
Definition first_phase (q : Z) : out_phase := if q =? 1 then WaitPuback else WaitPubrec.

(** One input; [free]: the socket has no output pending. *)
Definition astep (free : bool) (i : input) (a : astate) : astate * list aevent :=
  match i with
  | InPublish p =>
      let id := pb_msgId p in
      let q := h_qos (pb_header p) in
      let r := h_retain (pb_header p) in
      if q =? 0 then (a, [ADeliver id (pub_content p) q r])
      else if negb free then (a, [])
      else if q =? 1 then (a, [AAck PUBACK id; ADeliver id (pub_content p) q r])
      else if q =? 2 then
        if MQTTVERSION_5 <=? pb_MQTTVersion p then
          (set_in a (<[id := Accepted]> (a_in a)),
           AAck PUBREC id
             :: match a_in a !! id with Some _ => [] | None => [ADeliver id (pub_content p) q r] end)
        else (set_in a (<[id := Held (pub_content p) r]> (a_in a)), [AAck PUBREC id])
      else (a, [])
  | InPuback _ id =>
      match a_out a !! id with
      | Some (WaitPuback, _) => (set_out a (delete id (a_out a)), [])
      | _ => (a, [])
      end
  | InPubrec k id =>
      match a_out a !! id with
      | Some (WaitPubrec, c) =>
          if pubrec_error k then (add_counts (set_out a (delete id (a_out a))) 1 0, [])
          else (set_out a (<[id := (WaitPubcomp, c)]> (a_out a)), [AAck PUBREL id])
      | _ => (a, [])
      end
  | InPubrel k id =>
      match a_in a !! id with
      | None => if (h_dup (ack_header k) =? 0) || negb free then (a, [])
                else (a, [AAck PUBCOMP id])
      | Some ph =>
          if negb free then (a, [])
          else (add_counts (set_in a (delete id (a_in a))) 0 1,
                AAck PUBCOMP id
                  :: match ph with Held c r => [ADeliver id c 2 r] | Accepted => [] end)
      end
  | InPubcomp _ id =>
      match a_out a !! id with
      | Some (WaitPubcomp, _) => (add_counts (set_out a (delete id (a_out a))) 1 0, [])
      | _ => (a, [])
      end
  | OutPublish p q retained =>
      ((if 0 <? q then set_out a (<[pb_msgId p := (first_phase q, pub_content p)]> (a_out a)) else a),
       [ASend (out_bytes (OPublish p 0 q retained))])
  end.

(** ** The abstraction of a session *)

Section Spec.
Context {T : Type} `{!Transport T}.
Context (persistence_remove : bool → Z → Z → Z).

Definition handle (now : Z) (i : input) : proto (T:=T) Z :=
  match i with
  | InPublish p => MQTTProtocol_handlePublishes now p
  | InPuback a id => MQTTProtocol_handlePubacks persistence_remove a id
  | InPubrec a id => MQTTProtocol_handlePubrecs persistence_remove now a id
  | InPubrel a id => MQTTProtocol_handlePubrels persistence_remove now a id
  | InPubcomp a id => MQTTProtocol_handlePubcomps persistence_remove a id
  | OutPublish p q retained => MQTTProtocol_startPublish now p q retained
  end.

Definition content_of (pubs : gmap positive Publications) (m : Messages) : option content :=
  pub ← publish m ≫= (pubs !!.); Some (p_topic pub, p_payload pub).

Definition out_entry (pubs : gmap positive Publications) (m : Messages) : out_phase * option content :=
  (if qos m =? 1 then WaitPuback else if nextMessageType m =? PUBREC then WaitPubrec else WaitPubcomp,
   content_of pubs m).

Definition in_entry (pubs : gmap positive Publications) (m : Messages) : in_phase :=
  if MQTTVERSION_5 <=? m_MQTTVersion m then Accepted else Held (content_of pubs m) (retain m).

Definition view {A} (f : Messages → A) (l : list Messages) : gmap Z A :=
  list_to_map ((λ m, (msgid m, f m)) <$> l).

Definition abs (s : session (T:=T)) : astate :=
  let pubs := publications (snd s) in
  mkA (view (out_entry pubs) (outboundMsgs (fst s))) (view (in_entry pubs) (inboundMsgs (fst s)))
    (msgs_sent (snd s)) (msgs_received (snd s)).

Definition abs_event (e : event) : list aevent :=
  match e with
  | ESend _ (OAck type id _) _ => [AAck type id]
  | ESend _ p _ => [ASend (out_bytes p)]
  | EDeliver id c q r => [ADeliver id c q r]
  | EClose _ => []
  end.
Definition abs_events (l : list event) : list aevent := l ≫= abs_event.

(** ** The invariant: every stored publication has exactly one owner *)

Definition pubs_of (l : list Messages) : list positive := omap publish l.
Definition owners (c : Clients) : list positive := pubs_of (inboundMsgs c) ++ pubs_of (outboundMsgs c).

Record own_ok (os : list positive) (pubs : gmap positive Publications) : Prop := {
  own_nodup : NoDup os;
  own_dom : ∀ id, id ∈ os ↔ is_Some (pubs !! id);
  own_one : map_Forall (λ _ p, p_refcount p = 1) pubs
}.

Definition in_ok (m : Messages) : Prop :=
  qos m = 2 ∧ nextMessageType m = PUBREL ∧ (m_MQTTVersion m < MQTTVERSION_5 → is_Some (publish m)).
Definition out_ok (m : Messages) : Prop :=
  is_Some (publish m) ∧
  (qos m = 1 ∨ qos m = 2 ∧ (nextMessageType m = PUBREC ∨ nextMessageType m = PUBCOMP)).

Record client_ok (c : Clients) : Prop := {
  ok_in : Forall in_ok (inboundMsgs c);
  ok_out : Forall out_ok (outboundMsgs c);
  ok_in_ids : NoDup (msgid <$> inboundMsgs c);
  ok_out_ids : NoDup (msgid <$> outboundMsgs c)
}.

(** [rest]: the publications owned by the other clients. *)
Definition wf (rest : list positive) (s : session (T:=T)) : Prop :=
  own_ok (owners (fst s) ++ (snd <$> pending_writes (snd s)) ++ rest) (publications (snd s)) ∧
  client_ok (fst s).

(** A new publication has a QoS and an identifier that is not in use. *)
Definition input_ok (i : input) (s : session (T:=T)) : Prop :=
  match i with
  | OutPublish p q _ => q = 0 ∨ ((q = 1 ∨ q = 2) ∧ pb_msgId p ∉ msgid <$> outboundMsgs (fst s))
  | _ => True
  end.

(** ** Lists of messages *)

Lemma find_msg_split id l m : find_msg id l = Some m →
  msgid m = id ∧ ∃ l1 l2, l = l1 ++ m :: l2 ∧ remove_msg id l = l1 ++ l2 ∧
    (∀ m', replace_msg id m' l = l1 ++ m' :: l2).
Proof.
  induction l as [|x l IH]; cbn [find_msg remove_msg replace_msg]; [done|].
  destruct (Z.eqb_spec (msgid x) id) as [He|He].
  - intros [= <-]. split; [done|]. by exists [], l.
  - intros H. destruct (IH H) as (? & l1 & l2 & -> & -> & Hr). split; [done|].
    exists (x :: l1), l2. split; [done|]. split; [done|]. intros m'. cbn. by rewrite Hr.
Qed.

Lemma find_msg_None id l : find_msg id l = None ↔ id ∉ msgid <$> l.
Proof.
  induction l as [|x l IH]; cbn [find_msg]; [split; [intros _; apply not_elem_of_nil|done]|].
  rewrite fmap_cons, not_elem_of_cons. destruct (Z.eqb_spec (msgid x) id); naive_solver.
Qed.

Lemma view_cons {A} (f : Messages → A) m l : view f (m :: l) = <[msgid m := f m]> (view f l).
Proof. done. Qed.

Lemma view_lookup {A} (f : Messages → A) l k : view f l !! k = f <$> find_msg k l.
Proof.
  induction l as [|m l IH]; cbn [find_msg]; [done|]. rewrite view_cons.
  destruct (Z.eqb_spec (msgid m) k) as [<-|He]; [by rewrite lookup_insert_eq|].
  by rewrite lookup_insert_ne.
Qed.

Lemma view_remove {A} (f : Messages → A) id l : NoDup (msgid <$> l) →
  view f (remove_msg id l) = delete id (view f l).
Proof.
  induction l as [|m l IH]; cbn [remove_msg]; [by rewrite delete_id|].
  rewrite fmap_cons, NoDup_cons. intros [Hm Hl]. rewrite view_cons.
  destruct (Z.eqb_spec (msgid m) id) as [<-|He].
  - rewrite delete_insert_eq, delete_id; [done|]. rewrite view_lookup.
    by rewrite (proj2 (find_msg_None _ _)).
  - by rewrite view_cons, IH, delete_insert_ne.
Qed.

Lemma view_replace {A} (f : Messages → A) id l m m' : find_msg id l = Some m → msgid m' = id →
  view f (replace_msg id m' l) = <[id := f m']> (view f l).
Proof.
  intros Hf Hm'. induction l as [|x l IH]; cbn [find_msg replace_msg] in *; [done|].
  destruct (Z.eqb_spec (msgid x) id) as [He|He]; rewrite !view_cons.
  - rewrite Hm', He. by rewrite insert_insert_eq.
  - rewrite IH by done. by rewrite insert_insert_ne.
Qed.

Lemma view_append {A} (f : Messages → A) l m : msgid m ∉ msgid <$> l →
  view f (l ++ [m]) = <[msgid m := f m]> (view f l).
Proof.
  induction l as [|x l IH]; [done|]. rewrite fmap_cons, not_elem_of_cons. intros [H1 H2].
  cbn [app]. rewrite !view_cons, IH by done. by rewrite insert_insert_ne.
Qed.

Lemma view_ext {A} (f g : Messages → A) l : (∀ m, m ∈ l → f m = g m) → view f l = view g l.
Proof.
  intros H. induction l as [|m l IH]; [done|]. rewrite !view_cons, H, IH; [done| |by left].
  intros m' Hm'. apply H. by right.
Qed.

Lemma ids_replace id l m m' : find_msg id l = Some m → msgid m' = id →
  msgid <$> replace_msg id m' l = msgid <$> l.
Proof.
  intros (Hm & l1 & l2 & -> & _ & ->)%find_msg_split Hm'.
  rewrite !fmap_app, !fmap_cons. by rewrite Hm, Hm'.
Qed.

Lemma pubs_of_app l1 l2 : pubs_of (l1 ++ l2) = pubs_of l1 ++ pubs_of l2.
Proof. unfold pubs_of. by rewrite omap_app. Qed.

Lemma pubs_of_cons m l : pubs_of (m :: l) = option_list (publish m) ++ pubs_of l.
Proof. unfold pubs_of. cbn. by destruct (publish m). Qed.

Lemma elem_of_pubs_of m l id : m ∈ l → publish m = Some id → id ∈ pubs_of l.
Proof. intros. apply list_elem_of_omap. by exists m. Qed.

(** ** The publications a view depends on *)

Lemma content_of_ext pubs pubs' m :
  (∀ id, publish m = Some id → pubs' !! id = pubs !! id) → content_of pubs' m = content_of pubs m.
Proof. intros H. unfold content_of. destruct (publish m) as [id|]; [cbn; by rewrite H|done]. Qed.

Lemma out_view_ext pubs pubs' l : (∀ id, id ∈ pubs_of l → pubs' !! id = pubs !! id) →
  view (out_entry pubs') l = view (out_entry pubs) l.
Proof.
  intros H. apply view_ext. intros m Hm. unfold out_entry. f_equal. apply content_of_ext.
  intros id Hid. eapply H, elem_of_pubs_of; done.
Qed.

Lemma in_view_ext pubs pubs' l : (∀ id, id ∈ pubs_of l → pubs' !! id = pubs !! id) →
  view (in_entry pubs') l = view (in_entry pubs) l.
Proof.
  intros H. apply view_ext. intros m Hm. unfold in_entry. destruct (_ <=? _); [done|]. f_equal.
  apply content_of_ext. intros id Hid. eapply H, elem_of_pubs_of; done.
Qed.

(** ** Ownership *)

#[export] Instance own_ok_perm : Proper ((≡ₚ) ==> (=) ==> iff) own_ok.
Proof.
  intros l l' Hl ? pubs ->. split; intros [H1 H2 H3]; split; try done.
  - by rewrite <-Hl.
  - intros id. by rewrite <-Hl.
  - by rewrite Hl.
  - intros id. by rewrite Hl.
Qed.

Lemma own_fresh os pubs : own_ok os pubs → pubs !! fresh (dom pubs) = None ∧ fresh (dom pubs) ∉ os.
Proof.
  intros [_ H2 _]. pose proof (is_fresh (dom pubs)) as Hf. rewrite not_elem_of_dom in Hf.
  split; [done|]. rewrite H2. rewrite Hf. by intros [? ?].
Qed.

Lemma own_store os pubs id pub : own_ok os pubs → pubs !! id = None → p_refcount pub = 1 →
  own_ok (id :: os) (<[id := pub]> pubs).
Proof.
  intros [H1 H2 H3] Hid Hr. split.
  - apply NoDup_cons. split; [|done]. rewrite H2, Hid. by intros [? ?].
  - intros k. rewrite elem_of_cons, H2. destruct (decide (k = id)) as [->|Hne].
    + rewrite lookup_insert_eq. split; [by eexists|by left].
    + rewrite lookup_insert_ne by done. split; [by intros [?|?]|by right].
  - by apply map_Forall_insert_2.
Qed.

Lemma own_delete id os pubs : own_ok (id :: os) pubs → own_ok os (delete id pubs).
Proof.
  intros [[Hid Hos]%NoDup_cons H2 H3]. split; [done| |by apply map_Forall_delete].
  intros k. destruct (decide (k = id)) as [->|Hne].
  - rewrite lookup_delete_eq. split; [done|by intros [? ?]].
  - rewrite lookup_delete_ne by done. rewrite <-H2, elem_of_cons. naive_solver.
Qed.

Lemma own_Some id os pubs : own_ok os pubs → id ∈ os → ∃ pub, pubs !! id = Some pub ∧ p_refcount pub = 1.
Proof. intros [_ H2 H3] Hid. apply H2 in Hid as [pub Hp]. exists pub. split; [done|]. exact (H3 _ _ Hp). Qed.

Lemma own_release id os pubs : own_ok os pubs → id ∈ os →
  release_publication id pubs = Some (delete id pubs).
Proof.
  intros Hown Hid. destruct (own_Some _ _ _ Hown Hid) as (pub & Hp & Hr).
  unfold release_publication. rewrite Hp. cbn. by rewrite Hr.
Qed.

(** ** What one input does *)

(** The conclusion for each handler: it ends without fault, keeps the
    invariant, follows the abstract machine, and touches no publication of the
    other clients or of the writes under way. *)
Definition follows (rest : list positive) (i : input) (s : session) (r : option (Z * session * list event)) : Prop :=
  ∃ rc s' ev, r = Some (rc, s', ev) ∧ wf rest s' ∧
    (abs s', abs_events ev) = astep (noPendingWrites (net (snd s)) (socket (fst s))) i (abs s) ∧
    socket (fst s') = socket (fst s) ∧
    (∀ id, id ∈ (snd <$> pending_writes (snd s)) ++ rest →
       publications (snd s') !! id = publications (snd s) !! id).

Lemma wf_own rest c pubs pend ns nr t : wf rest (c, mkShared pubs pend ns nr t) ↔
  own_ok (pubs_of (inboundMsgs c) ++ pubs_of (outboundMsgs c) ++ (snd <$> pend) ++ rest) pubs ∧ client_ok c.
Proof. unfold wf, owners. cbn. by rewrite <-app_assoc. Qed.

(** A complete send stamps the client; its messages stay. *)
Lemma stamped_in (b : bool) c t : inboundMsgs (if b then with_lastSent c t else c) = inboundMsgs c.
Proof. by destruct b. Qed.
Lemma stamped_out (b : bool) c t : outboundMsgs (if b then with_lastSent c t else c) = outboundMsgs c.
Proof. by destruct b. Qed.
Lemma stamped_socket (b : bool) c t : socket (if b then with_lastSent c t else c) = socket c.
Proof. by destruct b. Qed.

(** Two clients with the same lists. *)
Lemma client_ok_lists c c' : client_ok c → inboundMsgs c' = inboundMsgs c →
  outboundMsgs c' = outboundMsgs c → client_ok c'.
Proof. intros [H1 H2 H3 H4] Hi Ho. split; by rewrite ?Hi, ?Ho. Qed.

Ltac red_state := cbn [fst snd publications pending_writes msgs_sent msgs_received net].
Ltac run :=
  unfold mbind, emitting_bind, mret, emitting_ret, the_client, get_publications, set_publications,
    modify_client, count_sent, count_received, add_pending, emit, pfault, no_pending; red_state.
(** The handler has answered: the parts of [follows] remain. *)
Ltac ends := red_state; eexists _, _, _; split; [reflexivity|]; red_state.

(** *** Outgoing messages *)

Section Out.
Context (rest : list positive) (c : Clients) (pubs : gmap positive Publications)
  (pend : list (Z * positive)) (id : Z) (m : Messages).
Let ins := inboundMsgs c.
Let outs := outboundMsgs c.
Context (Hown : own_ok (pubs_of ins ++ pubs_of outs ++ (snd <$> pend) ++ rest) pubs)
  (Hc : client_ok c) (Hm : find_msg id outs = Some m).

Lemma out_publication : ∃ pid, publish m = Some pid ∧
  release_publication pid pubs = Some (delete pid pubs) ∧
  own_ok (pubs_of ins ++ pubs_of (remove_msg id outs) ++ (snd <$> pend) ++ rest) (delete pid pubs) ∧
  (∀ k, k ∈ pubs_of ins ++ pubs_of (remove_msg id outs) ++ (snd <$> pend) ++ rest →
     delete pid pubs !! k = pubs !! k).
Proof.
  destruct (find_msg_split _ _ _ Hm) as (_ & l1 & l2 & Hl & Hr & _).
  pose proof (ok_out _ Hc) as Hout. fold outs in Hout. rewrite Hl, Forall_app, Forall_cons in Hout.
  destruct Hout as (_ & [[pid Hp] _] & _). exists pid. split; [done|].
  assert (Hperm : pubs_of ins ++ pubs_of outs ++ (snd <$> pend) ++ rest
    ≡ₚ pid :: (pubs_of ins ++ pubs_of (remove_msg id outs) ++ (snd <$> pend) ++ rest)).
  { rewrite Hr, Hl, !pubs_of_app, pubs_of_cons, Hp. cbn [option_list]. solve_Permutation. }
  rewrite Hperm in Hown. split; [|split; [by apply own_delete|]].
  - eapply own_release; [exact Hown|by left].
  - destruct Hown as [[Hnin _]%NoDup_cons _ _]. intros k Hk. apply lookup_delete_ne. by intros ->.
Qed.

(** The message and its publication removed. *)
Lemma remove_out c' ns nr t ns' nr' t' : inboundMsgs c' = ins → outboundMsgs c' = remove_msg id outs →
  ∃ pid, publish m = Some pid ∧ release_publication pid pubs = Some (delete pid pubs) ∧
    wf rest (c', mkShared (delete pid pubs) pend ns' nr' t') ∧
    abs (c', mkShared (delete pid pubs) pend ns' nr' t') =
      (let a := abs (c, mkShared pubs pend ns nr t) in mkA (delete id (a_out a)) (a_in a) ns' nr') ∧
    (∀ k, k ∈ (snd <$> pend) ++ rest → delete pid pubs !! k = pubs !! k).
Proof.
  intros Hi Ho. destruct out_publication as (pid & Hp & Hrel & Hown' & Hframe).
  exists pid. split; [done|]. split; [done|]. split; [|split].
  - rewrite wf_own, Hi, Ho. split; [done|].
    destruct (find_msg_split _ _ _ Hm) as (_ & l1 & l2 & Hl & Hr & _).
    destruct Hc as [H1 H2 H3 H4]. fold outs in H2, H4. rewrite Hl in H2, H4.
    rewrite Forall_app, Forall_cons in H2. rewrite fmap_app, fmap_cons in H4.
    apply NoDup_app in H4 as (H41 & H42 & [_ H43]%NoDup_cons).
    split; rewrite ?Hi, ?Ho; try done; rewrite Hr.
    + rewrite Forall_app. naive_solver.
    + rewrite fmap_app. apply NoDup_app. split; [done|]. split; [|done].
      intros x Hx Hx2. eapply H42; [done|]. by right.
  - unfold abs. cbn. rewrite Hi, Ho. f_equal.
    + rewrite (out_view_ext pubs) by (intros k Hk; apply Hframe; rewrite !elem_of_app; auto).
      apply view_remove, Hc.
    + apply in_view_ext. intros k Hk. apply Hframe. rewrite elem_of_app. auto.
  - intros k Hk. apply Hframe. rewrite !elem_of_app in *. auto.
Qed.

(** The message updated through its pointer: same publication. *)
Lemma replace_out c' m' ns nr t ns' nr' t' : inboundMsgs c' = ins →
  outboundMsgs c' = replace_msg id m' outs → msgid m' = id → publish m' = publish m → out_ok m' →
  wf rest (c', mkShared pubs pend ns' nr' t') ∧
  abs (c', mkShared pubs pend ns' nr' t') =
    (let a := abs (c, mkShared pubs pend ns nr t) in
     mkA (<[id := out_entry pubs m']> (a_out a)) (a_in a) ns' nr').
Proof.
  intros Hi Ho Hid Hpub Hok. destruct (find_msg_split _ _ _ Hm) as (_ & l1 & l2 & Hl & _ & Hr). split.
  - rewrite wf_own, Hi, Ho. split.
    + rewrite Hr. rewrite Hl in Hown. rewrite !pubs_of_app, !pubs_of_cons, Hpub in *. done.
    + destruct Hc as [H1 H2 H3 H4]. fold outs in H2, H4. split; rewrite ?Hi, ?Ho; try done.
      * rewrite Hr. rewrite Hl in H2. rewrite !Forall_app, !Forall_cons in *. naive_solver.
      * by erewrite ids_replace.
  - unfold abs. cbn. rewrite Hi, Ho. f_equal. by eapply view_replace.
Qed.

End Out.

Lemma abs_out_lookup c pubs pend ns nr t id :
  a_out (abs (c, mkShared pubs pend ns nr t)) !! id = out_entry pubs <$> find_msg id (outboundMsgs c).
Proof. apply view_lookup. Qed.

Lemma out_ok_found c id m : client_ok c → find_msg id (outboundMsgs c) = Some m → out_ok m.
Proof.
  intros Hc (_ & l1 & l2 & Hl & _)%find_msg_split. pose proof (ok_out _ Hc) as H.
  rewrite Hl, Forall_app, Forall_cons in H. naive_solver.
Qed.

Lemma pubacks_follows rest now a id s : wf rest s → follows rest (InPuback a id) s (handle now (InPuback a id) s).
Proof.
  destruct s as [c [pubs pend ns nr t]]. intros Hwf. pose proof Hwf as [Hown Hc]%wf_own.
  cbn [handle]. unfold MQTTProtocol_handlePubacks. run. unfold follows. cbn [astep fst snd]. rewrite abs_out_lookup.
  destruct (find_msg id (outboundMsgs c)) as [m|] eqn:Hm; cbn [fmap option_fmap option_map].
  2: { by ends. }
  pose proof (out_ok_found _ _ _ Hc Hm) as [_ Hq]. unfold out_entry at 1.
  destruct (Z.eqb_spec (qos m) 1) as [Hq1|Hq1]; cbn [negb].
  - destruct (remove_out rest c pubs pend id m Hown Hc Hm (with_outbound c (remove_msg id (outboundMsgs c)))
      ns nr t ns nr t eq_refl eq_refl) as (pid & Hp & Hrel & Hwf' & Habs & Hfr).
    unfold MQTTProtocol_removePublication. rewrite Hp. run. rewrite Hrel.
    ends. split; [exact Hwf'|]. split; [by rewrite Habs|]. split; [done|exact Hfr].
  - destruct (_ =? PUBREC); by ends.
Qed.

Lemma pubcomps_follows rest now a id s : wf rest s →
  follows rest (InPubcomp a id) s (handle now (InPubcomp a id) s).
Proof.
  destruct s as [c [pubs pend ns nr t]]. intros Hwf. pose proof Hwf as [Hown Hc]%wf_own.
  cbn [handle]. unfold MQTTProtocol_handlePubcomps. run. unfold follows. cbn [astep fst snd]. rewrite abs_out_lookup.
  destruct (find_msg id (outboundMsgs c)) as [m|] eqn:Hm; cbn [fmap option_fmap option_map].
  2: { by ends. }
  pose proof (out_ok_found _ _ _ Hc Hm) as [_ Hq]. unfold out_entry at 1.
  destruct Hq as [Hq|[Hq Hn]]; rewrite Hq; [by ends|].
  change (2 =? 1) with false. change (2 =? 2) with true. cbn [negb].
  destruct Hn as [Hn|Hn]; rewrite Hn; [by ends|].
  change (PUBCOMP =? PUBREC) with false. change (PUBCOMP =? PUBCOMP) with true. cbn [negb].
  destruct (remove_out rest c pubs pend id m Hown Hc Hm (with_outbound c (remove_msg id (outboundMsgs c)))
    ns nr t (ns + 1) nr t eq_refl eq_refl) as (pid & Hp & Hrel & Hwf' & Habs & Hfr).
  unfold MQTTProtocol_removePublication. rewrite Hp. run. rewrite Hrel.
  ends. split; [exact Hwf'|]. split; [|split; [done|exact Hfr]].
  rewrite Habs. unfold add_counts, set_out. cbn. by rewrite Z.add_0_r.
Qed.

Lemma send_spec now p c pubs pend ns nr t : ∃ rc c' t',
  send now p (c, mkShared pubs pend ns nr t)
    = Some (rc, (c', mkShared pubs pend ns nr t'), [ESend (socket c) p rc]) ∧
  inboundMsgs c' = inboundMsgs c ∧ outboundMsgs c' = outboundMsgs c ∧ socket c' = socket c.
Proof.
  unfold send, send_on. cbn [net]. destruct (send_packet t (socket c) p) as [rc t'].
  eexists _, _, _. split; [reflexivity|]. by rewrite stamped_in, stamped_out, stamped_socket.
Qed.

(** A statement that only replaces the client by one with the same lists and
    the state of the transport. *)
Lemma wf_same rest c c' pubs pend ns nr t ns' nr' t' :
  wf rest (c, mkShared pubs pend ns nr t) →
  inboundMsgs c' = inboundMsgs c → outboundMsgs c' = outboundMsgs c →
  wf rest (c', mkShared pubs pend ns' nr' t').
Proof.
  rewrite !wf_own. intros [Hown Hc] Hi Ho. rewrite Hi, Ho. split; [done|].
  by eapply client_ok_lists.
Qed.

Lemma abs_same c c' pubs pend pend' ns nr t t' :
  inboundMsgs c' = inboundMsgs c → outboundMsgs c' = outboundMsgs c →
  abs (c', mkShared pubs pend' ns nr t') = abs (c, mkShared pubs pend ns nr t).
Proof. intros Hi Ho. unfold abs. cbn. by rewrite Hi, Ho. Qed.

Lemma pubrecs_follows rest now a id s : wf rest s →
  follows rest (InPubrec a id) s (handle now (InPubrec a id) s).
Proof.
  destruct s as [c [pubs pend ns nr t]]. intros Hwf. pose proof Hwf as [Hown Hc]%wf_own.
  cbn [handle]. unfold MQTTProtocol_handlePubrecs. run. unfold follows. cbn [astep fst snd]. rewrite abs_out_lookup.
  destruct (find_msg id (outboundMsgs c)) as [m|] eqn:Hm; cbn [fmap option_fmap option_map].
  2: { by ends. }
  pose proof (out_ok_found _ _ _ Hc Hm) as [Hpub Hq]. unfold out_entry at 1.
  destruct Hq as [Hq|[Hq Hn]]; rewrite Hq; [by ends|].
  change (2 =? 1) with false. change (2 =? 2) with true. cbn [negb].
  destruct Hn as [Hn|Hn]; rewrite Hn; [|by ends].
  change (PUBREC =? PUBREC) with true. cbn [negb]. fold (pubrec_error a).
  destruct (pubrec_error a).
  - destruct (remove_out rest c pubs pend id m Hown Hc Hm (with_outbound c (remove_msg id (outboundMsgs c)))
      ns nr t (ns + 1) nr t eq_refl eq_refl) as (pid & Hp & Hrel & Hwf' & Habs & Hfr).
    unfold MQTTProtocol_removePublication. rewrite Hp. run. rewrite Hrel.
    ends. split; [exact Hwf'|]. split; [|split; [done|exact Hfr]].
    rewrite Habs. unfold add_counts, set_out. cbn. by rewrite Z.add_0_r.
  - destruct (send_spec now (OAck PUBREL id 0) c pubs pend ns nr t) as (rc & c' & t' & -> & Hi & Ho & Hs).
    ends. rewrite Ho. destruct (find_msg_split _ _ _ Hm) as (Hid & _).
    destruct (replace_out rest c pubs pend id m Hown Hc Hm
      (with_outbound c' (replace_msg id (touch now m PUBCOMP) (outboundMsgs c))) (touch now m PUBCOMP)
      ns nr t ns nr t') as [Hwf' Habs]; [done|done|done|done|split; cbn; auto|].
    split; [exact Hwf'|]. split; [|by rewrite <-Hs].
    rewrite Habs. unfold out_entry at 1. cbn [touch qos nextMessageType]. rewrite Hq. done.
Qed.

(** *** A publication stored *)

Section Store.
Context (rest : list positive) (c : Clients) (pubs : gmap positive Publications)
  (pend : list (Z * positive)) (pub : Publications).
Let ins := inboundMsgs c.
Let outs := outboundMsgs c.
Let pid := fresh (dom pubs).
Let pubs' := <[pid := pub]> pubs.
Context (Hown : own_ok (pubs_of ins ++ pubs_of outs ++ (snd <$> pend) ++ rest) pubs)
  (Hc : client_ok c) (Hpub : p_refcount pub = 1).

Lemma stored_own : own_ok (pid :: pubs_of ins ++ pubs_of outs ++ (snd <$> pend) ++ rest) pubs'.
Proof. destruct (own_fresh _ _ Hown). by apply own_store. Qed.

Lemma stored_frame k : k ∈ pubs_of ins ++ pubs_of outs ++ (snd <$> pend) ++ rest → pubs' !! k = pubs !! k.
Proof.
  intros Hk. destruct (own_fresh _ _ Hown) as [_ Hf]. apply lookup_insert_ne. intros <-. done.
Qed.

Lemma stored_out_view : view (out_entry pubs') outs = view (out_entry pubs) outs.
Proof. apply out_view_ext. intros k Hk. apply stored_frame. rewrite !elem_of_app. auto. Qed.
Lemma stored_in_view : view (in_entry pubs') ins = view (in_entry pubs) ins.
Proof. apply in_view_ext. intros k Hk. apply stored_frame. rewrite !elem_of_app. auto. Qed.
Lemma stored_pending_frame k : k ∈ (snd <$> pend) ++ rest → pubs' !! k = pubs !! k.
Proof. intros Hk. apply stored_frame. rewrite !elem_of_app in *. auto. Qed.

(** A new outgoing message. *)
Lemma append_out c' m ns nr t t' : inboundMsgs c' = ins → outboundMsgs c' = outs ++ [m] →
  msgid m ∉ msgid <$> outs → publish m = Some pid → out_ok m →
  wf rest (c', mkShared pubs' pend ns nr t') ∧
  abs (c', mkShared pubs' pend ns nr t') =
    (let a := abs (c, mkShared pubs pend ns nr t) in
     set_out a (<[msgid m := out_entry pubs' m]> (a_out a))).
Proof.
  intros Hi Ho Hid Hp Hok. split.
  - rewrite wf_own, Hi, Ho, pubs_of_app, pubs_of_cons, Hp. cbn [option_list]. split.
    + pose proof stored_own as Hs. eapply own_ok_perm; [|reflexivity|exact Hs].
      change (pubs_of []) with (@nil positive). solve_Permutation.
    + destruct Hc as [H1 H2 H3 H4]. split; rewrite ?Hi, ?Ho; try done.
      * apply Forall_app_2; [done|by constructor].
      * rewrite fmap_app. apply NoDup_app. split; [done|]. split; [|apply NoDup_singleton].
        intros x Hx Hx1. apply list_elem_of_singleton in Hx1 as ->. done.
  - unfold abs, set_out. cbn. rewrite Hi, Ho, view_append by done.
    by rewrite stored_out_view, stored_in_view.
Qed.

(** A publication kept for a write. *)
Lemma append_pending c' sock ns nr t t' : inboundMsgs c' = ins → outboundMsgs c' = outs →
  wf rest (c', mkShared pubs' (pend ++ [(sock, pid)]) ns nr t') ∧
  abs (c', mkShared pubs' (pend ++ [(sock, pid)]) ns nr t') = abs (c, mkShared pubs pend ns nr t).
Proof.
  intros Hi Ho. split.
  - rewrite wf_own, Hi, Ho. split; [|by eapply client_ok_lists].
    pose proof stored_own as Hs. eapply own_ok_perm; [|reflexivity|exact Hs].
    rewrite fmap_app. cbn [fmap list_fmap snd]. solve_Permutation.
  - unfold abs. cbn. by rewrite Hi, Ho, stored_out_view, stored_in_view.
Qed.

(** A new incoming message, held or already released. *)
Lemma append_in c' m ns nr t t' : inboundMsgs c' = ins ++ [m] → outboundMsgs c' = outs →
  msgid m ∉ msgid <$> ins → publish m = Some pid → in_ok m →
  wf rest (c', mkShared pubs' pend ns nr t') ∧
  abs (c', mkShared pubs' pend ns nr t') =
    (let a := abs (c, mkShared pubs pend ns nr t) in
     set_in a (<[msgid m := in_entry pubs' m]> (a_in a))).
Proof.
  intros Hi Ho Hid Hp Hok. split.
  - rewrite wf_own, Hi, Ho, pubs_of_app, pubs_of_cons, Hp. cbn [option_list]. split.
    + pose proof stored_own as Hs. eapply own_ok_perm; [|reflexivity|exact Hs].
      change (pubs_of []) with (@nil positive). solve_Permutation.
    + destruct Hc as [H1 H2 H3 H4]. split; rewrite ?Hi, ?Ho; try done.
      * apply Forall_app_2; [done|by constructor].
      * rewrite fmap_app. apply NoDup_app. split; [done|]. split; [|apply NoDup_singleton].
        intros x Hx Hx1. apply list_elem_of_singleton in Hx1 as ->. done.
  - unfold abs, set_in. cbn. rewrite Hi, Ho, view_append by done.
    by rewrite stored_out_view, stored_in_view.
Qed.

End Store.

Lemma out_bytes_stored p q retained m pub : msgid m = pb_msgId p → m_MQTTVersion m = pb_MQTTVersion p →
  m_properties m = (if 5 <=? pb_MQTTVersion p then pb_properties p else MQTTProperties_initializer) →
  p_topic pub = pb_topic p → p_payload pub = pb_payload p → p_payloadlen pub = pb_payloadlen p →
  out_bytes (OPublish (stored_publish m pub) 0 q retained) = out_bytes (OPublish p 0 q retained).
Proof.
  intros H1 H2 H3 H4 H5 H6. cbn [out_bytes]. unfold MQTTPacket_send_publish, publish_buffer, stored_publish.
  cbn [pb_topic pb_topiclen pb_payload pb_payloadlen pb_msgId pb_MQTTVersion pb_properties].
  rewrite H1, H2, H3, H4, H5, H6. by destruct (5 <=? pb_MQTTVersion p).
Qed.

Lemma startPublish_follows rest now p q retained s : wf rest s → input_ok (OutPublish p q retained) s →
  follows rest (OutPublish p q retained) s (handle now (OutPublish p q retained) s).
Proof.
  destruct s as [c [pubs pend ns nr t]]. intros Hwf. pose proof Hwf as [Hown Hc]%wf_own.
  cbn [handle input_ok fst]. intros Hin.
  unfold MQTTProtocol_startPublish, MQTTProtocol_createMessage, MQTTProtocol_storePublication, follows.
  cbn [astep]. set (pub := mkPublications _ _ _ _ 1).
  destruct Hin as [->|[Hq Hid]].
  - change (0 <? 0) with false. cbn iota. run.
    destruct (send_spec now (OPublish p 0 0 retained) c pubs pend ns nr t) as (rc & c' & t' & -> & Hi & Ho & Hs).
    cbn iota beta. destruct (rc =? TCPSOCKET_INTERRUPTED).
    + unfold MQTTProtocol_storeQoS0, MQTTProtocol_storePublication. run. fold pub.
      destruct (append_pending rest c pubs pend pub Hown Hc eq_refl c' (socket c') ns nr t t' Hi Ho) as [Hw Ha].
      ends. split; [exact Hw|]. split; [by rewrite Ha|]. split; [done|].
      by apply (stored_pending_frame rest c).
    + ends. split; [by eapply wf_same|]. by erewrite abs_same.
  - assert (Hq0 : (0 <? q) = true) by (destruct Hq as [->| ->]; done). rewrite Hq0. run.
    unfold deref_publication. cbn [publish]. run. rewrite lookup_insert_eq. run. fold pub.
    set (m := mkMessage q retained _ _ _ _ now _).
    match goal with |- context [send now ?pk (?c1, ?sh)] =>
      destruct (send_spec now pk c1 (<[fresh (dom pubs) := pub]> pubs) pend ns nr t)
        as (rc & c' & t' & -> & Hi & Ho & Hs) end.
    destruct (append_out rest c pubs pend pub Hown Hc eq_refl c' m ns nr t t' Hi Ho) as [Hw Ha]; [done|done| |].
    { split; cbn; [by eexists|]. destruct Hq as [->| ->]; [by left|right]. cbn. auto. }
    ends. split; [exact Hw|]. split; [|split; [done|by apply (stored_pending_frame rest c)]].
    rewrite Ha. cbn [abs_events mbind list_bind abs_event app]. rewrite (out_bytes_stored p) by done.
    f_equal. f_equal. f_equal. unfold out_entry, content_of. cbn [qos publish nextMessageType m].
    cbn [mbind option_bind]. rewrite lookup_insert_eq. unfold first_phase, pub_content. cbn.
    by destruct Hq as [->| ->].
Qed.

(** *** Incoming messages *)

Section In.
Context (rest : list positive) (c : Clients) (pubs : gmap positive Publications)
  (pend : list (Z * positive)) (id : Z) (m : Messages).
Let ins := inboundMsgs c.
Let outs := outboundMsgs c.
Context (Hown : own_ok (pubs_of ins ++ pubs_of outs ++ (snd <$> pend) ++ rest) pubs)
  (Hc : client_ok c) (Hm : find_msg id ins = Some m).

Definition drop_publication (p : option positive) (pubs : gmap positive Publications) :=
  match p with Some k => delete k pubs | None => pubs end.

Lemma in_publication :
  own_ok (pubs_of (remove_msg id ins) ++ pubs_of outs ++ (snd <$> pend) ++ rest)
    (drop_publication (publish m) pubs) ∧
  (∀ k, k ∈ pubs_of (remove_msg id ins) ++ pubs_of outs ++ (snd <$> pend) ++ rest →
     drop_publication (publish m) pubs !! k = pubs !! k).
Proof.
  destruct (find_msg_split _ _ _ Hm) as (_ & l1 & l2 & Hl & Hr & _).
  destruct (publish m) as [pid|] eqn:Hp; cbn [drop_publication].
  - assert (Hperm : pubs_of ins ++ pubs_of outs ++ (snd <$> pend) ++ rest
      ≡ₚ pid :: (pubs_of (remove_msg id ins) ++ pubs_of outs ++ (snd <$> pend) ++ rest)).
    { rewrite Hr, Hl, !pubs_of_app, pubs_of_cons, Hp. cbn [option_list]. solve_Permutation. }
    rewrite Hperm in Hown. split; [by apply own_delete|].
    destruct Hown as [[Hnin _]%NoDup_cons _ _]. intros k Hk. apply lookup_delete_ne. by intros ->.
  - split; [|done]. rewrite Hr. rewrite Hl, pubs_of_app, pubs_of_cons, Hp in Hown.
    cbn [option_list app] in Hown. by rewrite pubs_of_app.
Qed.

Lemma client_ok_remove_in c' : inboundMsgs c' = remove_msg id ins → outboundMsgs c' = outs → client_ok c'.
Proof.
  intros Hi Ho. destruct (find_msg_split _ _ _ Hm) as (_ & l1 & l2 & Hl & Hr & _).
  destruct Hc as [H1 H2 H3 H4]. fold ins in H1, H3. rewrite Hl in H1, H3.
  rewrite Forall_app, Forall_cons in H1. rewrite fmap_app, fmap_cons in H3.
  apply NoDup_app in H3 as (H31 & H32 & [_ H33]%NoDup_cons).
  split; rewrite ?Hi, ?Ho; try done; rewrite Hr.
  - rewrite Forall_app. naive_solver.
  - rewrite fmap_app. apply NoDup_app. split; [done|]. split; [|done].
    intros x Hx Hx2. eapply H32; [done|]. by right.
Qed.

Lemma remove_in c' ns nr t ns' nr' t' : inboundMsgs c' = remove_msg id ins → outboundMsgs c' = outs →
  let pubs' := drop_publication (publish m) pubs in
  wf rest (c', mkShared pubs' pend ns' nr' t') ∧
  abs (c', mkShared pubs' pend ns' nr' t') =
    (let a := abs (c, mkShared pubs pend ns nr t) in mkA (a_out a) (delete id (a_in a)) ns' nr') ∧
  (∀ k, k ∈ (snd <$> pend) ++ rest → pubs' !! k = pubs !! k).
Proof.
  intros Hi Ho pubs'. destruct in_publication as [Hown' Hframe]. fold pubs' in Hown', Hframe.
  split; [|split].
  - rewrite wf_own, Hi, Ho. split; [done|by apply client_ok_remove_in].
  - unfold abs. cbn. rewrite Hi, Ho. f_equal.
    + apply out_view_ext. intros k Hk. apply Hframe. rewrite !elem_of_app. auto.
    + rewrite (in_view_ext pubs) by (intros k Hk; apply Hframe; rewrite !elem_of_app; auto).
      apply view_remove, Hc.
  - intros k Hk. apply Hframe. rewrite !elem_of_app in *. auto.
Qed.

(** A message received again: its new publication takes the place of the old
    one. *)
Context (pub : Publications) (Hpub : p_refcount pub = 1).
Let pid := fresh (dom pubs).
Let pubs1 := <[pid := pub]> pubs.

Lemma replace_in c' m' ns nr t t' : inboundMsgs c' = replace_msg id m' ins → outboundMsgs c' = outs →
  msgid m' = id → publish m' = Some pid → in_ok m' →
  let pubs2 := drop_publication (publish m) pubs1 in
  MQTTProtocol_removePublication (publish m) (c, mkShared pubs1 pend ns nr t)
    = Some ((), (c, mkShared pubs2 pend ns nr t), []) ∧
  pubs2 !! pid = Some pub ∧
  wf rest (c', mkShared pubs2 pend ns nr t') ∧
  abs (c', mkShared pubs2 pend ns nr t') =
    (let a := abs (c, mkShared pubs pend ns nr t) in set_in a (<[id := in_entry pubs2 m']> (a_in a))) ∧
  (∀ k, k ∈ (snd <$> pend) ++ rest → pubs2 !! k = pubs !! k).
Proof.
  intros Hi Ho Hid Hp Hok pubs2. destruct (find_msg_split _ _ _ Hm) as (_ & l1 & l2 & Hl & Hrm & Hr).
  destruct in_publication as [Hown' Hframe].
  destruct (own_fresh _ _ Hown) as [Hfr Hfo]. fold pid in Hfr, Hfo.
  assert (Hold : ∀ k, publish m = Some k → k ≠ pid ∧ k ∈ pubs_of ins).
  { intros k Hk. assert (k ∈ pubs_of ins).
    { eapply elem_of_pubs_of; [|exact Hk]. rewrite Hl, elem_of_app, elem_of_cons. auto. }
    split; [|done]. intros ->. apply Hfo. rewrite !elem_of_app. auto. }
  assert (Hpubs2 : pubs2 = <[pid := pub]> (drop_publication (publish m) pubs)).
  { unfold pubs2, pubs1. destruct (publish m) as [k|]; [|done]. cbn [drop_publication].
    apply delete_insert_ne. by destruct (Hold k eq_refl). }
  assert (Hnew : drop_publication (publish m) pubs !! pid = None).
  { destruct (publish m) as [k|]; [|done]. cbn. rewrite lookup_delete_ne; [done|]. by destruct (Hold k eq_refl). }
  assert (Hrest : ∀ k, k ∈ pubs_of (remove_msg id ins) ++ pubs_of outs ++ (snd <$> pend) ++ rest →
    pubs2 !! k = pubs !! k).
  { intros k Hk. rewrite Hpubs2, lookup_insert_ne; [by apply Hframe|]. intros <-.
    apply (own_dom _ _ Hown') in Hk. rewrite Hnew in Hk. by destruct Hk. }
  split; [|split; [|split; [|split]]].
  - unfold MQTTProtocol_removePublication, pubs2. destruct (publish m) as [k|] eqn:Hk; [|done]. run.
    pose proof (stored_own rest c pubs pend pub Hown Hpub) as Hso. fold pid pubs1 in Hso.
    rewrite (own_release k _ pubs1 Hso); [done|]. right. rewrite elem_of_app. left. by apply Hold.
  - rewrite Hpubs2. apply lookup_insert_eq.
  - rewrite wf_own, Hi, Ho. split.
    + pose proof (own_store _ _ pid pub Hown' Hnew Hpub) as Hs. rewrite <-Hpubs2 in Hs.
      eapply own_ok_perm; [|reflexivity|exact Hs]. rewrite Hr, Hrm, !pubs_of_app, pubs_of_cons, Hp.
      cbn [option_list]. solve_Permutation.
    + destruct Hc as [H1 H2 H3 H4]. fold ins in H1, H3. split; rewrite ?Hi, ?Ho; try done.
      * rewrite Hr. rewrite Hl in H1. rewrite !Forall_app, !Forall_cons in *. naive_solver.
      * by erewrite ids_replace.
  - unfold abs, set_in. cbn. rewrite Hi, Ho. f_equal.
    + apply out_view_ext. intros k Hk. apply Hrest. rewrite !elem_of_app. auto.
    + erewrite view_replace by done. apply map_eq. intros k.
      destruct (decide (k = id)) as [->|Hne]; [by rewrite !lookup_insert_eq|].
      rewrite !lookup_insert_ne by done.
      rewrite <-(lookup_delete_ne (view (in_entry pubs2) ins) id k),
        <-(lookup_delete_ne (view (in_entry pubs) ins) id k) by done.
      rewrite <-(view_remove (in_entry pubs2)), <-(view_remove (in_entry pubs)) by apply Hc. f_equal. apply in_view_ext.
      intros j Hj. apply Hrest. rewrite !elem_of_app. auto.
  - intros k Hk. apply Hrest. rewrite !elem_of_app in *. auto.
Qed.

End In.

Lemma abs_in_lookup c pubs pend ns nr t id :
  a_in (abs (c, mkShared pubs pend ns nr t)) !! id = in_entry pubs <$> find_msg id (inboundMsgs c).
Proof. apply view_lookup. Qed.

Lemma in_ok_found c id m : client_ok c → find_msg id (inboundMsgs c) = Some m → in_ok m.
Proof.
  intros Hc (_ & l1 & l2 & Hl & _)%find_msg_split. pose proof (ok_in _ Hc) as H.
  rewrite Hl, Forall_app, Forall_cons in H. naive_solver.
Qed.

(** A message received for the first time by MQTT 5 is delivered at once: it
    stays in the list without publication. *)
Lemma append_in_released rest c pubs pend c' m ns nr t t' :
  own_ok (pubs_of (inboundMsgs c) ++ pubs_of (outboundMsgs c) ++ (snd <$> pend) ++ rest) pubs →
  client_ok c → inboundMsgs c' = inboundMsgs c ++ [m] → outboundMsgs c' = outboundMsgs c →
  msgid m ∉ msgid <$> inboundMsgs c → publish m = None → in_ok m →
  wf rest (c', mkShared pubs pend ns nr t') ∧
  abs (c', mkShared pubs pend ns nr t') =
    (let a := abs (c, mkShared pubs pend ns nr t) in
     set_in a (<[msgid m := in_entry pubs m]> (a_in a))).
Proof.
  intros Hown [H1 H2 H3 H4] Hi Ho Hid Hp Hok. split.
  - rewrite wf_own, Hi, Ho, pubs_of_app, pubs_of_cons, Hp. cbn [option_list app].
    change (pubs_of []) with (@nil positive). rewrite app_nil_r. split; [done|].
    split; rewrite ?Hi, ?Ho; try done.
    + apply Forall_app_2; [done|by constructor].
    + rewrite fmap_app. apply NoDup_app. split; [done|]. split; [|apply NoDup_singleton].
      intros x Hx Hx1. apply list_elem_of_singleton in Hx1 as ->. done.
  - unfold abs, set_in. cbn. by rewrite Hi, Ho, view_append.
Qed.

Lemma replace_msg_append id m m' l : id ∉ msgid <$> l → msgid m = id →
  replace_msg id m' (l ++ [m]) = l ++ [m'].
Proof.
  intros Hid Hm. induction l as [|x l IH]; cbn [app replace_msg]; [by rewrite Hm, Z.eqb_refl|].
  rewrite fmap_cons, not_elem_of_cons in Hid. destruct Hid as [Hx Hl].
  rewrite (proj2 (Z.eqb_neq _ _)) by congruence. by rewrite IH.
Qed.

Lemma publishes_follows rest now p s : wf rest s → follows rest (InPublish p) s (handle now (InPublish p) s).
Proof.
  destruct s as [c [pubs pend ns nr t]]. intros Hwf. pose proof Hwf as [Hown Hc]%wf_own.
  cbn [handle]. unfold MQTTProtocol_handlePublishes, follows. run. cbn [astep fst snd].
  set (id := pb_msgId p). set (r := h_retain (pb_header p)).
  destruct (Z.eqb_spec (h_qos (pb_header p)) 0) as [H0|H0]; [by ends|]. red_state.
  destruct (noPendingWrites t (socket c)); cbn [negb]; [|by ends].
  destruct (Z.eqb_spec (h_qos (pb_header p)) 1) as [H1|H1].
  { destruct (send_spec now (OAck PUBACK id 0) c pubs pend ns nr t) as (rc & c' & t' & -> & Hi & Ho & Hs).
    ends. split; [by eapply wf_same|]. by erewrite abs_same. }
  destruct (Z.eqb_spec (h_qos (pb_header p)) 2) as [H2|H2]; [rewrite H2|by ends].
  unfold MQTTProtocol_storePublication. set (pub := mkPublications _ _ _ _ 1). run.
  rewrite abs_in_lookup. destruct (find_msg id (inboundMsgs c)) as [msg|] eqn:Hm; cbn [fmap option_fmap option_map].
  - set (m := mkMessage 2 r id _ _ (Some _) 0 PUBREL).
    destruct (replace_in rest c pubs pend id msg Hown Hc Hm pub eq_refl
      (with_inbound c (replace_msg id m (inboundMsgs c))) m ns nr t t eq_refl eq_refl eq_refl eq_refl)
      as (Hrel & Hnew & Hw & Ha & Hfr); [by split; cbn|].
    rewrite Hrel. run. set (pubs2 := drop_publication (publish msg) _) in *.
    destruct (send_spec now (OAck PUBREC id 0) (with_inbound c (replace_msg id m (inboundMsgs c))) pubs2 pend ns nr t)
      as (rc & c' & t' & -> & Hi & Ho & Hs).
    red_state. rewrite andb_false_r. ends. split; [by eapply wf_same|]. split; [|by rewrite Hs].
    erewrite abs_same by done. rewrite Ha. unfold in_entry at 1. cbn [m_MQTTVersion m].
    destruct (MQTTVERSION_5 <=? pb_MQTTVersion p); [done|].
    unfold content_of. cbn [publish m mbind option_bind]. by rewrite Hnew.
  - apply find_msg_None in Hm. red_state.
    set (m := mkMessage 2 r id _ _ (Some (fresh (dom pubs))) 0 PUBREL).
    set (pubs1 := <[fresh (dom pubs) := pub]> pubs).
    destruct (send_spec now (OAck PUBREC id 0) (with_inbound c (inboundMsgs c ++ [m])) pubs1 pend ns nr t)
      as (rc & c' & t' & -> & Hi & Ho & Hs). cbn [inboundMsgs outboundMsgs with_inbound socket] in Hi, Ho, Hs.
    red_state. rewrite andb_true_r. destruct (MQTTVERSION_5 <=? pb_MQTTVersion p) eqn:Hv; run.
    + rewrite Hi, (replace_msg_append id m) by done. set (m' := mkMessage 2 r id _ _ None 0 PUBREL).
      assert (Hd : delete (fresh (dom pubs)) pubs1 = pubs) by (apply delete_insert_id; eapply own_fresh, Hown).
      rewrite Hd. destruct (append_in_released rest c pubs pend (with_inbound c' (inboundMsgs c ++ [m'])) m'
        ns nr t t' Hown Hc eq_refl Ho Hm eq_refl) as [Hw Ha].
      { split; [done|]. split; [done|]. cbn. intros Hlt. apply Z.leb_le in Hv. lia. }
      ends. split; [exact Hw|]. split; [|by rewrite <-Hs]. rewrite Ha. unfold in_entry at 1.
      cbn [m_MQTTVersion m']. by rewrite Hv.
    + destruct (append_in rest c pubs pend pub Hown Hc eq_refl c' m ns nr t t' Hi Ho Hm eq_refl) as [Hw Ha].
      { split; [done|]. split; [done|]. cbn. intros. by eexists. }
      fold pubs1 in Hw, Ha.
      ends. split; [exact Hw|]. split; [|split; [done|by apply (stored_pending_frame rest c)]].
      rewrite Ha. unfold in_entry at 1. cbn [m_MQTTVersion m]. rewrite Hv. unfold content_of.
      cbn [publish m mbind option_bind]. unfold pubs1. by rewrite lookup_insert_eq.
Qed.

Lemma pubrels_follows rest now a id s : wf rest s →
  follows rest (InPubrel a id) s (handle now (InPubrel a id) s).
Proof.
  destruct s as [c [pubs pend ns nr t]]. intros Hwf. pose proof Hwf as [Hown Hc]%wf_own.
  cbn [handle]. unfold MQTTProtocol_handlePubrels, follows. run. cbn [astep fst snd]. rewrite abs_in_lookup.
  destruct (find_msg id (inboundMsgs c)) as [m|] eqn:Hm; cbn [fmap option_fmap option_map].
  - destruct (in_ok_found _ _ _ Hc Hm) as (Hq & Hn & Hpub). rewrite Hq, Hn.
    change (2 =? 2) with true. change (PUBREL =? PUBREL) with true. cbn [negb]. red_state.
    destruct (noPendingWrites t (socket c)); cbn [negb]; [|by ends].
    destruct (send_spec now (OAck PUBCOMP id 0) c pubs pend ns nr t) as (rc & c' & t' & -> & Hi & Ho & Hs).
    destruct (find_msg_split _ _ _ Hm) as (Hid & l1 & l2 & Hl & _).
    assert (Hderef : ∀ k, publish m = Some k → ∃ pub, pubs !! k = Some pub).
    { intros k Hk. destruct (own_Some k _ _ Hown) as (pub & Hp & _); [|by exists pub].
      rewrite elem_of_app. left. eapply elem_of_pubs_of; [|exact Hk]. rewrite Hl, elem_of_app, elem_of_cons. auto. }
    destruct (remove_in rest c pubs pend id m Hown Hc Hm (with_inbound c' (remove_msg id (inboundMsgs c')))
      ns nr t ns (nr + 1) t') as (Hw & Ha & Hfr); [cbn; by rewrite Hi|done|].
    unfold in_entry, content_of. unfold deref_publication. run.
    assert (Hend : ∀ d ev, (abs_events d = ev) →
      (abs (with_inbound c' (remove_msg id (inboundMsgs c')),
         mkShared (drop_publication (publish m) pubs) pend ns (nr + 1) t'),
       abs_events (ESend (socket c) (OAck PUBCOMP id 0) rc :: d)) =
      (add_counts (set_in (abs (c, mkShared pubs pend ns nr t))
         (delete id (a_in (abs (c, mkShared pubs pend ns nr t))))) 0 1,
       AAck PUBCOMP id :: ev)).
    { intros d ev <-. rewrite Ha. unfold add_counts, set_in. cbn. by rewrite Z.add_0_r. }
    destruct (publish m) as [k|] eqn:Hk; cbn [drop_publication] in *.
    + destruct (Hderef k eq_refl) as [pub Hp]. cbn [mbind option_bind]. red_state. rewrite Hp. red_state.
      destruct (MQTTVERSION_5 <=? m_MQTTVersion m); ends; (split; [exact Hw|]);
        (split; [apply Hend; cbn; by rewrite ?Hid, ?Hq|]); (split; [done|exact Hfr]).
    + destruct (Z.leb_spec MQTTVERSION_5 (m_MQTTVersion m)) as [Hle|Hlt];
        [|destruct (Hpub Hlt) as [? [=]]].
      ends. split; [exact Hw|]. split; [by apply Hend|]. split; [done|exact Hfr].
  - destruct (h_dup (ack_header a) =? 0); cbn [orb]; [by ends|]. red_state.
    destruct (noPendingWrites t (socket c)); cbn [negb]; [|by ends].
    destruct (send_spec now (OAck PUBCOMP id 0) c pubs pend ns nr t) as (rc & c' & t' & -> & Hi & Ho & Hs).
    ends. split; [by eapply wf_same|]. by erewrite abs_same.
Qed.

Lemma handle_follows rest now i s : wf rest s → input_ok i s → follows rest i s (handle now i s).
Proof.
  intros Hwf Hok. destruct i.
  - by apply publishes_follows.
  - by apply pubacks_follows.
  - by apply pubrecs_follows.
  - by apply pubrels_follows.
  - by apply pubcomps_follows.
  - by apply startPublish_follows.
Qed.

(** ** Runs of a session

    Any sequence of inputs, at any times; between two of them the socket layer
    may do anything (finish writes, accept others). *)
Inductive steps (allowed : input → Prop) : session → list event → session → Prop :=
  | steps_refl s : steps allowed s [] s
  | steps_handle now i s rc s1 ev s2 ev' :
      allowed i → input_ok i s → handle now i s = Some (rc, s1, ev) →
      steps allowed s1 ev' s2 → steps allowed s (ev ++ ev') s2
  | steps_net t c pubs pend ns nr t0 ev s2 :
      steps allowed (c, mkShared pubs pend ns nr t) ev s2 →
      steps allowed (c, mkShared pubs pend ns nr t0) ev s2.

(** *** Exactly once *)

(** A session of one version of the protocol. *)
Definition version_ok (v5 : bool) (i : input) : Prop :=
  match i with InPublish p => (MQTTVERSION_5 <=? pb_MQTTVersion p) = v5 | _ => True end.
(** A PUBREL is not marked as a duplicate (its flags are reserved). *)
Definition unmarked (i : input) : Prop :=
  match i with InPubrel a _ => h_dup (ack_header a) = 0 | _ => True end.

Definition is_delivery (k : Z) (e : aevent) : bool :=
  match e with ADeliver id _ q _ => (id =? k) && (q =? 2) | _ => false end.
Definition is_pubcomp (k : Z) (e : aevent) : bool :=
  match e with AAck type id => (type =? PUBCOMP) && (id =? k) | _ => false end.
Definition count {A} (f : A → bool) (l : list A) : nat := length (filter f l).

(** The exchange [k] of MQTT 5 is open and its message delivered. *)
Definition ahead (v5 : bool) (k : Z) (a : astate) : nat :=
  if v5 && bool_decide (is_Some (a_in a !! k)) then 1 else 0.

Definition version_of (v5 : bool) (ph : in_phase) : Prop :=
  match ph with Accepted => v5 = true | Held _ _ => v5 = false end.
Definition versions (v5 : bool) (a : astate) : Prop := map_Forall (λ _, version_of v5) (a_in a).

Lemma count_app {A} (f : A → bool) l1 l2 : count f (l1 ++ l2) = (count f l1 + count f l2)%nat.
Proof. unfold count. by rewrite filter_app, length_app. Qed.
Lemma count_cons {A} (f : A → bool) x l : count f (x :: l) = ((if f x then 1 else 0) + count f l)%nat.
Proof. unfold count. rewrite filter_cons. by destruct (f x). Qed.

Lemma ahead_insert v5 k id ph a : ahead v5 k (set_in a (<[id := ph]> (a_in a))) =
  if v5 && (id =? k) then 1%nat else ahead v5 k a.
Proof.
  unfold ahead. cbn [a_in set_in]. destruct (Z.eqb_spec id k) as [->|Hne].
  - rewrite lookup_insert_eq, bool_decide_true by (by eexists). by destruct v5.
  - rewrite lookup_insert_ne by done. by destruct v5.
Qed.

Lemma ahead_delete v5 k id a ds dr : ahead v5 k (add_counts (set_in a (delete id (a_in a))) ds dr) =
  if id =? k then 0%nat else ahead v5 k a.
Proof.
  unfold ahead. cbn [a_in set_in add_counts]. destruct (Z.eqb_spec id k) as [->|Hne].
  - rewrite lookup_delete_eq, bool_decide_false by (by intros [? ?]). by destruct v5.
  - by rewrite lookup_delete_ne.
Qed.

Lemma ahead_Some v5 k a ph : a_in a !! k = Some ph → ahead v5 k a = if v5 then 1%nat else 0%nat.
Proof. intros H. unfold ahead. rewrite H, bool_decide_true by (by eexists). by destruct v5. Qed.
Lemma ahead_None v5 k a : a_in a !! k = None → ahead v5 k a = 0%nat.
Proof. intros H. unfold ahead. rewrite H, bool_decide_false by (by intros [? ?]). by destruct v5. Qed.

(** One step: a delivery of [k] is paid by a PUBCOMP, or opens the exchange; only a
    PUBREL marked as a duplicate has a PUBCOMP for nothing. *)
Definition accounts (v5 : bool) (k : Z) (exact : Prop) (a : astate) (l : list aevent) (a' : astate) : Prop :=
  (count (is_delivery k) l + ahead v5 k a ≤ count (is_pubcomp k) l + ahead v5 k a')%nat ∧
  (exact → (count (is_delivery k) l + ahead v5 k a = count (is_pubcomp k) l + ahead v5 k a')%nat).
Lemma accounts_eq v5 k exact a l a' :
  (count (is_delivery k) l + ahead v5 k a = count (is_pubcomp k) l + ahead v5 k a')%nat → accounts v5 k exact a l a'.
Proof. intros H. split; [lia|done]. Qed.
Lemma astep_once v5 k free i a : version_ok v5 i → versions v5 a →
  let '(a', l) := astep free i a in versions v5 a' ∧ accounts v5 k (unmarked i) a l a'.
Proof.
  intros Hv Ha. destruct i as [p|ack id|ack id|ack id|ack id|p q r]; cbn [astep version_ok unmarked] in *.
  - destruct (Z.eqb_spec (h_qos (pb_header p)) 0) as [H0|H0].
    { rewrite H0. split; [done|]. apply accounts_eq. rewrite !count_cons. cbn. by rewrite andb_false_r. }
    destruct free; cbn [negb]; [|by split; [|apply accounts_eq]].
    destruct (Z.eqb_spec (h_qos (pb_header p)) 1) as [H1|H1].
    { rewrite H1. split; [done|]. apply accounts_eq. rewrite !count_cons. cbn. by rewrite andb_false_r. }
    destruct (Z.eqb_spec (h_qos (pb_header p)) 2) as [H2|H2]; [rewrite H2|by split; [|apply accounts_eq]]. rewrite Hv.
    destruct v5; (split; [by apply map_Forall_insert_2|]); apply accounts_eq; rewrite ahead_insert, !count_cons; cbn [andb].
    + destruct (a_in a !! pb_msgId p) eqn:Hi; rewrite ?count_cons; cbn [is_delivery is_pubcomp];
        change (PUBREC =? PUBCOMP) with false; change (2 =? 2) with true; cbn [andb];
        rewrite ?andb_true_r; destruct (Z.eqb_spec (pb_msgId p) k) as [<-|Hne]; try done.
      * by rewrite (ahead_Some _ _ _ _ Hi).
      * by rewrite (ahead_None _ _ _ Hi).
    + done.
  - by destruct (a_out a !! id) as [[[] ?]|]; (split; [|apply accounts_eq]).
  - destruct (a_out a !! id) as [[[] ?]|]; try destruct (pubrec_error ack); by (split; [|apply accounts_eq]).
  - destruct (a_in a !! id) as [ph|] eqn:Hi.
    + destruct free; cbn [negb]; [|by split; [|apply accounts_eq]]. split; [by apply map_Forall_delete|]. apply accounts_eq.
      specialize (Ha _ _ Hi). rewrite ahead_delete, !count_cons. cbn [is_delivery is_pubcomp].
      change (PUBCOMP =? PUBCOMP) with true. cbn [andb].
      destruct ph; cbn in Ha; subst v5; rewrite ?count_cons; cbn [is_delivery is_pubcomp];
        change (2 =? 2) with true; rewrite ?andb_true_r;
        destruct (Z.eqb_spec id k) as [<-|Hne]; try done; rewrite (ahead_Some _ _ _ _ Hi); done.
    + destruct (_ || _) eqn:Hd; (split; [done|]); [by apply accounts_eq|]. apply orb_false_iff in Hd as [Hd _]. split.
      * rewrite !count_cons. change (count _ []) with O. cbn [is_delivery]. lia.
      * intros Hz. by rewrite Hz in Hd.
  - by destruct (a_out a !! id) as [[[] ?]|]; (split; [|apply accounts_eq]).
  - by destruct (0 <? q); (split; [|apply accounts_eq]).
Qed.

Lemma abs_events_app l1 l2 : abs_events (l1 ++ l2) = abs_events l1 ++ abs_events l2.
Proof. unfold abs_events. by rewrite bind_app. Qed.

Lemma steps_weaken (P Q : input → Prop) s ev s' : (∀ i, P i → Q i) → steps P s ev s' → steps Q s ev s'.
Proof. intros H. induction 1; econstructor; eauto. Qed.
Lemma accounts_refl v5 k exact a : accounts v5 k exact a [] a.
Proof. by apply accounts_eq. Qed.
Lemma accounts_trans v5 k (e1 e2 e : Prop) a l a1 l' a2 : accounts v5 k e1 a l a1 → accounts v5 k e2 a1 l' a2 → (e → e1) → (e → e2) →
  accounts v5 k e a (l ++ l') a2.
Proof.
  intros [H1 H1'] [H2 H2'] He1 He2. unfold accounts. rewrite !count_app. split; [lia|]. intros He. specialize (H1' (He1 He)). specialize (H2' (He2 He)). lia.
Qed.
Lemma steps_once v5 k (exact : bool) rest s ev s' : steps (λ i, version_ok v5 i ∧ (exact = true → unmarked i)) s ev s' → wf rest s → versions v5 (abs s) →
  wf rest s' ∧ versions v5 (abs s') ∧ accounts v5 k (exact = true) (abs s) (abs_events ev) (abs s').
Proof.
  induction 1 as [s|now i s rc s1 ev s2 ev' [Hal Hun] Hok Hrun _ IH|t c pubs pend ns nr t0 ev s2 _ IH]; intros Hwf Hv.
  - split; [done|]. split; [done|]. apply accounts_refl.
  - destruct (handle_follows rest now i s Hwf Hok) as (rc' & s1' & ev1 & Hrun' & Hwf1 & Habs & _).
    rewrite Hrun in Hrun'. injection Hrun' as <- <- <-.
    pose proof (astep_once v5 k (noPendingWrites (net (snd s)) (socket (fst s))) i (abs s) Hal Hv) as Ho.
    rewrite <-Habs in Ho. destruct Ho as [Hv1 Ho].
    destruct (IH Hwf1 Hv1) as (Hwf2 & Hv2 & Ho2). split; [done|]. split; [done|].
    rewrite abs_events_app. by eapply accounts_trans.
  - apply IH; [by eapply wf_same|done].
Qed.

(** ** The clients of a process *)

Definition process_ok (cs : list Clients) (sh : shared (T:=T)) : Prop :=
  own_ok (concat (owners <$> cs) ++ (snd <$> pending_writes sh)) (publications sh) ∧ Forall client_ok cs.

Fixpoint find_client (sock : Z) (cs : list Clients) : option Clients :=
  match cs with
  | [] => None
  | c :: cs' => if socket c =? sock then Some c else find_client sock cs'
  end.

Lemma on_client_found sock cs c : find_client sock cs = Some c →
  ∃ cs1 cs2, cs = cs1 ++ c :: cs2 ∧
    ∀ (h : proto (T:=T) Z) sh a c' sh' ev, h (c, sh) = Some (a, (c', sh'), ev) →
      on_client sock h cs sh = Some (a, (cs1 ++ c' :: cs2, sh'), ev).
Proof.
  intros Hf. induction cs as [|k cs IH]; cbn [find_client on_client] in *; [done|].
  destruct (Z.eqb_spec (socket k) sock) as [He|He].
  - injection Hf as ->. exists [], cs. split; [done|]. intros h sh a c' sh' ev Hh. by rewrite Hh.
  - destruct (IH Hf) as (cs1 & cs2 & -> & Hrun). exists (k :: cs1), cs2.
    split; [done|]. intros h sh a c' sh' ev Hh. by rewrite (Hrun _ _ _ _ _ _ Hh).
Qed.

Lemma owners_split cs1 c cs2 pend : concat (owners <$> cs1 ++ c :: cs2) ++ pend ≡ₚ
  owners c ++ pend ++ (concat (owners <$> cs1) ++ concat (owners <$> cs2)).
Proof. rewrite fmap_app, fmap_cons, concat_app. cbn [concat]. solve_Permutation. Qed.

Lemma process_wf cs1 c cs2 sh : process_ok (cs1 ++ c :: cs2) sh →
  wf (concat (owners <$> cs1) ++ concat (owners <$> cs2)) (c, sh).
Proof.
  intros [Hown Hcs]. rewrite owners_split in Hown. split; [done|].
  rewrite Forall_app, Forall_cons in Hcs. naive_solver.
Qed.

(** The view of a client only depends on its own publications. *)
Lemma abs_other c sh sh' : (∀ id, id ∈ owners c → publications sh' !! id = publications sh !! id) →
  a_out (abs (c, sh')) = a_out (abs (c, sh)) ∧ a_in (abs (c, sh')) = a_in (abs (c, sh)).
Proof.
  unfold owners. intros H. cbn. split; [apply out_view_ext|apply in_view_ext];
    intros id Hid; apply H; rewrite elem_of_app; auto.
Qed.

(** Releasing a list of messages removes exactly their publications. *)
Lemma release_all_ok l os pubs : own_ok (pubs_of l ++ os) pubs → ∃ pubs',
  release_all l pubs = Some pubs' ∧ own_ok os pubs' ∧ (∀ id, id ∈ os → pubs' !! id = pubs !! id).
Proof.
  revert pubs. induction l as [|m l IH]; intros pubs Hown; cbn [release_all]; [by exists pubs|].
  rewrite pubs_of_cons in Hown. destruct (publish m) as [id|]; cbn [option_list app] in Hown; [|by apply IH].
  rewrite (own_release id _ pubs Hown) by (by left). cbn [mbind option_bind].
  destruct (IH _ (own_delete _ _ _ Hown)) as (pubs' & Hrun & Hown' & Hsame).
  exists pubs'. split; [done|]. split; [done|]. intros k Hk. rewrite Hsame by done.
  apply lookup_delete_ne. intros ->. destruct Hown as [[Hn _]%NoDup_cons _ _].
  apply Hn. rewrite elem_of_app. auto.
Qed.

(** ** Properties *)

(** C1: the handlers implement the machine of the QoS 1 and 2 exchanges: on every
    input and from every state that keeps the ownership of the publications, a
    handler ends without an access through NULL or to a freed publication, its
    effect on the exchanges and on the counters, the packets it sends and the
    messages it delivers are those of the abstract machine, it keeps the
    invariant, and it leaves alone the publications of the other clients and of
    the writes under way. *)
Theorem handlers_refine rest now i s : wf rest s → input_ok i s →
  ∃ rc s' ev, handle now i s = Some (rc, s', ev) ∧ wf rest s' ∧
    (abs s', abs_events ev) = astep (noPendingWrites (net (snd s)) (socket (fst s))) i (abs s) ∧
    socket (fst s') = socket (fst s) ∧
    (∀ id, id ∈ (snd <$> pending_writes (snd s)) ++ rest →
       publications (snd s') !! id = publications (snd s) !! id).
Proof. apply handle_follows. Qed.

(** C2: exactly once: over any run of a session whose incoming PUBLISHes are all of
    MQTT 5 or all of an earlier version, and whose outgoing ones have a QoS of 0 to 2
    and a free identifier, at any times, in any order and whatever the state of the
    socket, the QoS 2 messages delivered under an identifier are at most as many as
    the PUBCOMPs sent for it (one more while an exchange of MQTT 5, which delivers
    early, is open): repeated PUBLISHes are never delivered twice.  They are as many
    when no PUBREL received is marked as a duplicate: no exchange is completed
    without delivery.  (A marked PUBREL of an unknown identifier is answered too.) *)
Theorem exactly_once v5 k rest s ev s' : wf rest s → versions v5 (abs s) →
  (steps (version_ok v5) s ev s' →
   (count (is_delivery k) (abs_events ev) + ahead v5 k (abs s) ≤ count (is_pubcomp k) (abs_events ev) + ahead v5 k (abs s'))%nat) ∧
  (steps (λ i, version_ok v5 i ∧ unmarked i) s ev s' →
   (count (is_delivery k) (abs_events ev) + ahead v5 k (abs s) = count (is_pubcomp k) (abs_events ev) + ahead v5 k (abs s'))%nat).
Proof.
  intros Hwf Hv. split; intros Hst.
  - apply (steps_once v5 k false rest s ev s'); [|done..]. eapply steps_weaken; [|exact Hst]. by intros i ?.
  - apply (steps_once v5 k true rest s ev s'); [|done..]. eapply steps_weaken; [|exact Hst]. by intros i [? ?].
Qed.

(** In the process, a packet for the socket of a client is handled without
    fault, the ownership of every stored publication by one message is kept,
    and the other clients and the contents of their exchanges do not change. *)
Theorem process_isolated now i sock c cs sh : process_ok cs sh → find_client sock cs = Some c →
  input_ok i (c, sh) →
  ∃ rc cs1 cs2 c' sh' ev, on_client sock (handle now i) cs sh = Some (rc, (cs1 ++ c' :: cs2, sh'), ev) ∧
    cs = cs1 ++ c :: cs2 ∧ process_ok (cs1 ++ c' :: cs2) sh' ∧
    (∀ k, k ∈ cs1 ++ cs2 →
       a_out (abs (k, sh')) = a_out (abs (k, sh)) ∧ a_in (abs (k, sh')) = a_in (abs (k, sh))).
Proof.
  intros Hok Hf Hin. destruct (on_client_found sock cs c Hf) as (cs1 & cs2 & -> & Hon).
  pose proof (process_wf _ _ _ _ Hok) as Hwf.
  destruct (handle_follows _ now i _ Hwf Hin) as (rc & [c' sh'] & ev & Hrun & [Hown' Hc'] & _ & _ & Hfr).
  exists rc, cs1, cs2, c', sh', ev. split; [by apply Hon|]. split; [done|]. split.
  - split; [by rewrite owners_split|]. destruct Hok as [_ Hcs].
    rewrite Forall_app, Forall_cons in *. naive_solver.
  - intros k Hk. apply abs_other. intros id Hid. apply Hfr. rewrite elem_of_app. right.
    rewrite <-concat_app, <-fmap_app. apply list_elem_of_In, in_concat.
    exists (owners k). split; apply list_elem_of_In; [|done]. apply list_elem_of_fmap. by exists k.
Qed.

(** Freeing a client releases the publications of its messages, all of them
    and no others, without fault, and leaves its lists empty. *)
Theorem freeClient_releases rest c sh : wf rest (c, sh) →
  ∃ c' pubs', MQTTProtocol_freeClient c (publications sh) = Some (c', pubs') ∧
    inboundMsgs c' = [] ∧ outboundMsgs c' = [] ∧
    own_ok ((snd <$> pending_writes sh) ++ rest) pubs' ∧
    (∀ id, pubs' !! id = if bool_decide (id ∈ owners c) then None else publications sh !! id).
Proof.
  intros [Hown _]. cbn [fst snd] in Hown. unfold owners in *.
  set (os := (snd <$> pending_writes sh) ++ rest) in *.
  assert (Hperm : (pubs_of (inboundMsgs c) ++ pubs_of (outboundMsgs c)) ++ os
    ≡ₚ pubs_of (outboundMsgs c) ++ pubs_of (inboundMsgs c) ++ os) by solve_Permutation.
  rewrite Hperm in Hown.
  unfold MQTTProtocol_freeClient, MQTTProtocol_emptyMessageList.
  destruct (release_all_ok _ _ _ Hown) as (pubs1 & -> & Hown1 & Hs1). cbn [mbind option_bind].
  destruct (release_all_ok _ _ _ Hown1) as (pubs2 & -> & Hown2 & Hs2). cbn [mbind option_bind].
  eexists _, pubs2. split; [done|]. split; [done|]. split; [done|]. split; [done|].
  intros id. destruct (decide (id ∈ os)) as [Hid|Hid].
  - rewrite Hs2, Hs1 by (rewrite ?elem_of_app; auto). rewrite bool_decide_false; [done|].
    intros Ho. destruct Hown as [Hnd _ _]. rewrite <-Hperm in Hnd. apply NoDup_app in Hnd as (_ & Hnd & _).
    by eapply Hnd.
  - assert (H2 : pubs2 !! id = None).
    { apply eq_None_not_Some. by rewrite <-(own_dom _ _ Hown2). }
    rewrite H2. destruct (bool_decide_reflect (id ∈ pubs_of (inboundMsgs c) ++ pubs_of (outboundMsgs c)))
      as [Hin|Hin]; [done|]. symmetry. apply eq_None_not_Some. rewrite <-(own_dom _ _ Hown), <-Hperm.
    rewrite elem_of_app. naive_solver.
Qed.

End Spec.

(** ** The socket layer as a transport

    [MQTTPacket_send] ends in [Socket_putdatas]; the second component is what
    the coming calls of [writev] meet (by default, room for everything). *)

Definition socket_net : Type := SocketWrite.wstate * list SocketWrite.writev_result.

Definition socket_send (n : socket_net) (sock : Z) (p : out_packet) : Z * socket_net :=
  if SocketWrite.Socket_noPendingWrites sock (fst n) then
    let r := default (SocketWrite.WRoom (len (out_bytes p))) (head (snd n)) in
    let '(rc, w) := SocketWrite.Socket_putdatas r sock (out_bytes p) [] (fst n) in
    (rc, (w, tail (snd n)))
  else (SOCKET_ERROR, n).

#[export] Instance socket_transport : Transport socket_net := {
  noPendingWrites n sock := SocketWrite.Socket_noPendingWrites sock (fst n);
  send_packet := socket_send
}.

Lemma socket_send_cases n sock p rc n' : socket_send n sock p = (rc, n') →
  SocketWrite.Socket_noPendingWrites sock (fst n) = true →
  (rc = TCPSOCKET_INTERRUPTED ∧ SocketWrite.write_pending (fst n') = SocketWrite.write_pending (fst n) ++ [sock]) ∨
  ((rc = SOCKET_ERROR ∨ rc = TCPSOCKET_COMPLETE) ∧
   SocketWrite.write_pending (fst n') = SocketWrite.write_pending (fst n)).
Proof.
  unfold socket_send. intros H Hfree. rewrite Hfree in H.
  unfold SocketWrite.Socket_putdatas in H. rewrite Hfree in H. cbn [negb] in H.
  destruct (SocketWrite.Socket_writev _ _ _ _) as [[rc1 b1] w1] eqn:Hw.
  assert (Hp : SocketWrite.write_pending w1 = SocketWrite.write_pending (fst n)).
  { unfold SocketWrite.Socket_writev in Hw. destruct (default _ _); injection Hw as _ _ <-; done. }
  destruct (Z.eqb_spec rc1 SOCKET_ERROR) as [->|].
  { injection H as <- <-. right. split; [by left|done]. }
  destruct (b1 =? _); injection H as <- <-; [right|left].
  - split; [by right|done].
  - split; [done|]. cbn. by rewrite Hp.
Qed.

#[export] Instance socket_transport_laws : TransportLaws socket_net.
Proof.
  split; cbn [noPendingWrites send_packet socket_transport].
  - intros n s p Hbusy. unfold socket_send. by rewrite Hbusy.
  - intros n s p rc n' H. destruct (SocketWrite.Socket_noPendingWrites s (fst n)) eqn:Hf.
    + destruct (socket_send_cases _ _ _ _ _ H Hf) as [[-> _]|[[-> | ->] _]]; auto.
    + unfold socket_send in H. rewrite Hf in H. injection H as <- <-. auto.
  - intros n s p n' H. destruct (SocketWrite.Socket_noPendingWrites s (fst n)) eqn:Hf.
    + destruct (socket_send_cases _ _ _ _ _ H Hf) as [[? _]|[_ Hp]]; [done|].
      unfold SocketWrite.Socket_noPendingWrites in *. by rewrite Hp.
    + unfold socket_send in H. rewrite Hf in H. done.
  - intros n s p n' H. destruct (SocketWrite.Socket_noPendingWrites s (fst n)) eqn:Hf.
    + destruct (socket_send_cases _ _ _ _ _ H Hf) as [[_ Hp]|[[?|?] _]]; [|done|done].
      unfold SocketWrite.Socket_noPendingWrites. rewrite Hp. apply bool_decide_false.
      rewrite elem_of_app, list_elem_of_singleton. naive_solver.
    + unfold socket_send in H. rewrite Hf in H. done.
  - intros n s p rc n' k H Hk. destruct (SocketWrite.Socket_noPendingWrites s (fst n)) eqn:Hf.
    + destruct (socket_send_cases _ _ _ _ _ H Hf) as [[_ Hp]|[_ Hp]];
        unfold SocketWrite.Socket_noPendingWrites; rewrite Hp; [|done].
      apply bool_decide_ext. rewrite elem_of_app, list_elem_of_singleton. naive_solver.
    + unfold socket_send in H. rewrite Hf in H. by injection H as _ <-.
Qed.

(** ** Witnesses: one client on an idle socket *)

Definition sample_client (sock : Z) : Clients := mkClient sock true true false 0 0 0 0 60 0 [] [].
Definition sample_net : socket_net := (SocketWrite.mkW [] [] (λ _, []), []).
Definition sample_shared : shared (T:=socket_net) := mkShared ∅ [] 0 0 sample_net.
Definition sample_publish (q id v : Z) : Publish :=
  mkPublish (mkHeader PUBLISH 0 q 0) (bs "a/b") 3 id (bs "on") 2 v MQTTProperties_initializer.
Definition sample_ack (type : Z) (id v : Z) : Ack := mkAck (mkHeader type 0 0 0) (Some id) None v None.

Lemma sample_client_ok sock : client_ok (sample_client sock).
Proof. split; constructor. Qed.

Lemma sample_wf : wf [] (sample_client 4, sample_shared).
Proof.
  split; [|apply sample_client_ok]. split; [constructor| |done].
  intros id. cbn. split; [intros Hid; inversion Hid|]. intros [? H]. discriminate H.
Qed.

Lemma handlers_refine_witness :
  wf [] (sample_client 4, sample_shared) ∧
  ∃ rc s' ev, handle (λ _ _ _, 0) 1000 (InPublish (sample_publish 2 7 3)) (sample_client 4, sample_shared)
      = Some (rc, s', ev) ∧ wf [] s' ∧
    a_in (abs s') !! 7 = Some (Held (Some (bs "a/b", bs "on")) 0) ∧ abs_events ev = [AAck PUBREC 7].
Proof.
  split; [exact sample_wf|].
  destruct (handlers_refine (λ _ _ _, 0) [] 1000 (InPublish (sample_publish 2 7 3))
    (sample_client 4, sample_shared) sample_wf I) as (rc & s' & ev & H1 & H2 & H3 & _).
  exists rc, s', ev. split; [exact H1|]. split; [exact H2|].
  assert (Ha : astep true (InPublish (sample_publish 2 7 3)) (abs (sample_client 4, sample_shared))
    = (mkA ∅ (<[7 := Held (Some (bs "a/b", bs "on")) 0]> ∅) 0 0, [AAck PUBREC 7])) by (vm_compute; reflexivity).
  change (noPendingWrites _ _) with true in H3. rewrite Ha in H3.
  apply pair_equal_spec in H3 as [H3a H3b]. rewrite H3a, H3b. split; [apply lookup_insert_eq|reflexivity].
Defined.

(** A PUBLISH received twice, then its PUBREL. *)
Definition sample_run : list input :=
  [InPublish (sample_publish 2 7 3); InPublish (sample_publish 2 7 3); InPubrel (sample_ack PUBREL 7 3) 7].

Fixpoint run_inputs (l : list input) (s : session (T:=socket_net)) : option (session * list event) :=
  match l with
  | [] => Some (s, [])
  | i :: l' =>
      '(_, s1, ev) ← handle (λ _ _ _, 0) 1000 i s;
      '(s2, ev') ← run_inputs l' s1;
      Some (s2, ev ++ ev')
  end.

Lemma run_inputs_steps allowed l : ∀ s s' ev, run_inputs l s = Some (s', ev) → Forall allowed l →
  Forall (λ i, match i with OutPublish _ _ _ => False | _ => True end) l →
  steps (λ _ _ _, 0) allowed s ev s'.
Proof.
  induction l as [|i l IH]; intros s s' ev H Ha Hin; cbn [run_inputs] in H.
  - injection H as <- <-. constructor.
  - destruct (handle _ _ i s) as [[[rc s1] ev1]|] eqn:Hh; cbn [mbind option_bind] in H; [|done].
    destruct (run_inputs l s1) as [[s2 ev2]|] eqn:Hr; cbn [mbind option_bind] in H; [|done].
    injection H as <- <-. apply Forall_cons in Ha as [Ha1 Ha2]. apply Forall_cons in Hin as [Hi1 Hi2].
    eapply steps_handle; [exact Ha1| |exact Hh|by apply IH]. by destruct i.
Qed.

Lemma exactly_once_witness :
  ∃ s' ev, run_inputs sample_run (sample_client 4, sample_shared) = Some (s', ev) ∧
    count (is_pubcomp 7) (abs_events ev) = 1%nat ∧ count (is_delivery 7) (abs_events ev) = 1%nat.
Proof.
  destruct (run_inputs sample_run (sample_client 4, sample_shared)) as [[s' ev]|] eqn:H;
    [|vm_compute in H; discriminate H].
  exists s', ev. split; [reflexivity|].
  assert (Hst : steps (λ _ _ _, 0) (λ i, version_ok false i ∧ unmarked i) (sample_client 4, sample_shared) ev s').
  { apply (run_inputs_steps _ sample_run); [exact H|repeat constructor|repeat constructor]. }
  assert (Hv : versions false (abs (sample_client 4, sample_shared))).
  { intros k ph Hk. discriminate Hk. }
  pose proof (proj2 (exactly_once (λ _ _ _, 0) false 7 [] _ _ _ sample_wf Hv) Hst) as Ho.
  assert (Hpc : count (is_pubcomp 7) (abs_events ev) = 1%nat).
  { vm_compute in H. injection H as <- <-. reflexivity. }
  split; [exact Hpc|]. rewrite Hpc in Ho. unfold ahead in Ho. cbn in Ho. rewrite !Nat.add_0_r in Ho. exact Ho.
Defined.

Definition sample_process : list Clients := [sample_client 3; sample_client 4].

Lemma sample_process_ok : process_ok sample_process sample_shared.
Proof.
  split; [exact (proj1 sample_wf)|]. repeat constructor.
Qed.

Lemma process_isolated_witness :
  process_ok sample_process sample_shared ∧
  ∃ rc p' ev, on_client 4 (handle (λ _ _ _, 0) 1000 (InPublish (sample_publish 1 9 3))) sample_process sample_shared
    = Some (rc, p', ev) ∧ process_ok (fst p') (snd p').
Proof.
  split; [exact sample_process_ok|].
  destruct (process_isolated (λ _ _ _, 0) 1000 (InPublish (sample_publish 1 9 3)) 4 (sample_client 4)
    sample_process sample_shared sample_process_ok eq_refl I) as (rc & cs1 & cs2 & c' & sh' & ev & H1 & _ & H2 & _).
  eexists rc, _, ev. split; [exact H1|exact H2].
Defined.

Lemma freeClient_releases_witness :
  wf [] (sample_client 4, sample_shared) ∧
  ∃ c' pubs', MQTTProtocol_freeClient (sample_client 4) (publications sample_shared) = Some (c', pubs') ∧
    outboundMsgs c' = [].
Proof.
  split; [exact sample_wf|].
  destruct (freeClient_releases [] (sample_client 4) sample_shared sample_wf)
    as (c' & pubs' & H1 & _ & H2 & _).
  exists c', pubs'. exact (conj H1 H2).
Defined.

End ProtocolSpec.
