(* ===== verification/ProtocolTimers.v ===== *)
(** * Identifiers, keep-alive and retries of the MQTT protocol client

    Theorems about the functions of Protocol.v that run on the clients of the
    process: the choice of message identifiers, the keep-alive and the retries,
    over any transport that keeps the laws of the interface. *)
From S2P Require Import Prelude PacketCodec Props Packets SocketIO Protocol ProtocolSpec.

Module Timers.
Import Codecs Properties Packets SocketRead Protocol ProtocolSpec.

(** ** Message identifiers *)

(** The [n]-th identifier after [start]. *)
Definition id_after (start n : Z) : Z := (start - 1 + n) mod MAX_MSG_ID + 1.

Definition used (c : Clients) (id : Z) : Prop := id ∈ msgid <$> outboundMsgs c.

Lemma id_after_range s n : 1 ≤ id_after s n ≤ MAX_MSG_ID.
Proof. unfold id_after, MAX_MSG_ID. pose proof (Z.mod_pos_bound (s - 1 + n) 65535). lia. Qed.

Lemma next_id_after s n : next_id (id_after s n) = id_after s (n + 1).
Proof.
  unfold next_id, id_after, MAX_MSG_ID.
  pose proof (Z.mod_pos_bound (s - 1 + n) 65535). pose proof (Z.mod_pos_bound (s - 1 + (n + 1)) 65535).
  pose proof (Z.div_mod (s - 1 + n) 65535). pose proof (Z.div_mod (s - 1 + (n + 1)) 65535).
  destruct (Z.eqb_spec ((s - 1 + n) mod 65535 + 1) 65535); nia.
Qed.

Lemma next_id_first s : 0 ≤ s ≤ MAX_MSG_ID → next_id s = id_after s 1.
Proof.
  unfold next_id, id_after, MAX_MSG_ID. intros Hs.
  destruct (Z.eqb_spec s 65535) as [->|Hne]; [done|].
  rewrite Z.mod_small by lia. lia.
Qed.

Lemma id_after_start s n : 1 ≤ s ≤ MAX_MSG_ID → 1 ≤ n ≤ MAX_MSG_ID → id_after s n = s ↔ n = MAX_MSG_ID.
Proof.
  unfold id_after, MAX_MSG_ID. intros Hs Hn.
  destruct (Z.le_gt_cases (s - 1 + n) 65534) as [Hle|Hgt].
  - rewrite Z.mod_small by lia. lia.
  - replace (s - 1 + n) with ((s - 1 + n - 65535) + 1 * 65535) by lia.
    rewrite Z.mod_add by lia. rewrite Z.mod_small by lia. lia.
Qed.

Lemma id_after_onto s id : 1 ≤ id ≤ MAX_MSG_ID → ∃ n, 1 ≤ n ≤ MAX_MSG_ID ∧ id_after s n = id.
Proof.
  unfold id_after, MAX_MSG_ID. intros Hid.
  exists ((id - s - 1) mod 65535 + 1). pose proof (Z.mod_pos_bound (id - s - 1) 65535).
  split; [lia|].
  replace (s - 1 + ((id - s - 1) mod 65535 + 1)) with ((id - s - 1) mod 65535 + s) by lia.
  rewrite Zplus_mod_idemp_l. replace (id - s - 1 + s) with (id - 1) by lia. rewrite Z.mod_small; lia.
Qed.

(** The loop at the [n]-th identifier, the earlier ones being used: the first
    free one is found, or the start is reached. *)
Lemma assign_loop_ok c s fuel : 1 ≤ s ≤ MAX_MSG_ID → ∀ n, 1 ≤ n < MAX_MSG_ID →
  MAX_MSG_ID ≤ n + Z.of_nat fuel → (∀ j, 1 ≤ j < n → used c (id_after s j)) →
  (∃ k, n ≤ k < MAX_MSG_ID ∧ assign_loop fuel s (id_after s n) (outboundMsgs c) = Some (id_after s k) ∧
     ¬ used c (id_after s k) ∧ (∀ j, 1 ≤ j < k → used c (id_after s j))) ∨
  (assign_loop fuel s (id_after s n) (outboundMsgs c) = Some 0 ∧
     ∀ j, 1 ≤ j < MAX_MSG_ID → used c (id_after s j)).
Proof.
  intros Hs. induction fuel as [|fuel IH]; intros n Hn Hf Hu; cbn [assign_loop].
  - lia.
  - destruct (find_msg (id_after s n) (outboundMsgs c)) as [m|] eqn:Hm.
    + assert (Hused : used c (id_after s n)).
      { unfold used. destruct (decide (id_after s n ∈ msgid <$> outboundMsgs c)); [done|].
        by rewrite (proj2 (find_msg_None _ _)) in Hm. }
      assert (Hu' : ∀ j, 1 ≤ j < n + 1 → used c (id_after s j)).
      { intros j Hj. destruct (decide (j = n)) as [->|]; [done|]. apply Hu. lia. }
      rewrite next_id_after. pose proof (id_after_start s (n + 1) Hs ltac:(lia)) as Hst.
      destruct (Z.eqb_spec (id_after s (n + 1)) s) as [He|Hne].
      * right. split; [done|]. intros j Hj. apply Hu'. apply Hst in He. lia.
      * destruct (IH (n + 1)) as [(k & Hk & H)|H]; [|lia|done| |by right].
        -- rewrite Hst in Hne. lia.
        -- left. exists k. split; [lia|done].
    + left. exists n. split; [lia|]. split; [done|]. split; [|done]. unfold used. by apply find_msg_None.
Qed.

(** From the identifier 0 (a client that has sent nothing) the start is never
    met: only a free identifier ends the loop. *)
Lemma assign_loop_zero c fuel : ∀ n, 1 ≤ n ≤ MAX_MSG_ID → (∀ j, 1 ≤ j < n → used c j) →
  (∃ k, n ≤ k ≤ MAX_MSG_ID ∧ ¬ used c k ∧ (∀ j, 1 ≤ j < k → used c j) ∧
     (MAX_MSG_ID ≤ n + Z.of_nat fuel → assign_loop fuel 0 n (outboundMsgs c) = Some k)) ∨
  (∀ j, 1 ≤ j ≤ MAX_MSG_ID → used c j).
Proof.
  intros n Hn Hu. remember (Z.to_nat (MAX_MSG_ID - n)) as d eqn:Hd. revert fuel n Hn Hu Hd.
  induction d as [|d IH]; intros fuel n Hn Hu Hd;
    (destruct (find_msg n (outboundMsgs c)) as [m|] eqn:Hm;
     [|left; exists n; split; [lia|]; split; [by apply find_msg_None|]; split; [done|];
       intros _; destruct fuel; cbn [assign_loop]; by rewrite Hm]).
  all: assert (Hused : used c n)
    by (unfold used; destruct (decide (n ∈ msgid <$> outboundMsgs c)); [done|];
        by rewrite (proj2 (find_msg_None _ _)) in Hm).
  all: assert (Hu' : ∀ j, 1 ≤ j < n + 1 → used c j)
    by (intros j Hj; destruct (decide (j = n)) as [->|]; [done|]; apply Hu; lia).
  - right. intros j Hj. apply Hu'. lia.
  - destruct (IH (pred fuel) (n + 1)) as [(k & Hk & Hfree & Hlow & Hrun)|Hall]; [lia|done|lia| |by right].
    left. exists k. split; [lia|]. split; [done|]. split; [done|]. intros Hf.
    destruct fuel as [|fuel]; [lia|]. cbn [assign_loop]. rewrite Hm. unfold next_id.
    rewrite (proj2 (Z.eqb_neq n MAX_MSG_ID)) by lia. rewrite (proj2 (Z.eqb_neq (n + 1) 0)) by lia.
    apply Hrun. cbn. lia.
Qed.

Lemma assign_loop_stuck c fuel : (∀ j, 1 ≤ j ≤ MAX_MSG_ID → used c j) → ∀ n, 1 ≤ n ≤ MAX_MSG_ID →
  assign_loop fuel 0 n (outboundMsgs c) = None.
Proof.
  intros Hall. induction fuel as [|fuel IH]; intros n Hn; cbn [assign_loop];
    (destruct (find_msg n (outboundMsgs c)) eqn:Hm; [|exfalso; by apply find_msg_None in Hm; apply Hm, Hall]);
    [done|].
  assert (1 ≤ next_id n ≤ MAX_MSG_ID) by (unfold next_id; destruct (Z.eqb_spec n MAX_MSG_ID); lia).
  rewrite (proj2 (Z.eqb_neq _ 0)) by lia. by apply IH.
Qed.

Lemma id_after_zero n : 1 ≤ n ≤ MAX_MSG_ID → id_after 0 n = n.
Proof. unfold id_after, MAX_MSG_ID. intros. rewrite Z.mod_small; lia. Qed.

(** ** Properties: identifiers *)

Lemma assignMsgId_ok c : 0 ≤ msgID c ≤ MAX_MSG_ID →
  ((msgID c ≠ 0 ∨ ∃ id, 1 ≤ id ≤ MAX_MSG_ID ∧ ¬ used c id) →
   ∃ r c', MQTTProtocol_assignMsgId c = Some (r, c') ∧
    ((1 ≤ r ≤ MAX_MSG_ID ∧ ¬ used c r ∧ c' = with_msgID c r ∧
      ∃ n, 1 ≤ n ∧ r = id_after (msgID c) n ∧ ∀ j, 1 ≤ j < n → used c (id_after (msgID c) j)) ∨
     (r = 0 ∧ c' = c ∧ ∀ id, 1 ≤ id ≤ MAX_MSG_ID → id ≠ msgID c → used c id))) ∧
  (msgID c = 0 → (∀ id, 1 ≤ id ≤ MAX_MSG_ID → used c id) →
   ∀ fuel, assign_loop fuel (msgID c) (next_id (msgID c)) (outboundMsgs c) = None).
Proof.
  intros Hr. split.
  - intros Hex. unfold MQTTProtocol_assignMsgId. rewrite next_id_first by done.
    destruct (decide (msgID c = 0)) as [H0|H0].
    + destruct Hex as [?|(id & Hid & Hfree)]; [done|]. rewrite H0, id_after_zero by (unfold MAX_MSG_ID; lia).
      destruct (assign_loop_zero c (Z.to_nat MAX_MSG_ID) 1) as [(k & Hk & Hnk & Hlow & Hrun)|Hall].
      * unfold MAX_MSG_ID. lia.
      * lia.
      * rewrite Hrun by (unfold MAX_MSG_ID; lia). cbn [mbind option_bind].
        rewrite (proj2 (Z.eqb_neq k 0)) by lia. exists k, (with_msgID c k). split; [done|]. left.
        split; [lia|]. split; [done|]. split; [done|]. exists k. split; [lia|].
        split; [by rewrite id_after_zero by lia|]. intros j Hj. rewrite id_after_zero by lia. by apply Hlow.
      * by destruct (Hfree (Hall id Hid)).
    + assert (Hs : 1 ≤ msgID c ≤ MAX_MSG_ID) by lia.
      destruct (assign_loop_ok c (msgID c) (Z.to_nat MAX_MSG_ID) Hs 1) as [(k & Hk & -> & Hfree & Hlow)|[-> Hall]].
      * unfold MAX_MSG_ID. lia.
      * unfold MAX_MSG_ID. lia.
      * intros j Hj. lia.
      * cbn [mbind option_bind]. pose proof (id_after_range (msgID c) k).
        rewrite (proj2 (Z.eqb_neq _ 0)) by lia. eexists _, _. split; [done|]. left.
        split; [done|]. split; [done|]. split; [done|]. exists k. split; [lia|]. done.
      * cbn [mbind option_bind]. eexists _, _. split; [done|]. right. split; [done|]. split; [done|].
        intros id Hid Hne. destruct (id_after_onto (msgID c) id Hid) as (n & Hn & <-). apply Hall.
        assert (n ≠ MAX_MSG_ID); [|lia]. intros ->. apply Hne, id_after_start; [done|lia|done].
  - intros H0 Hall fuel. rewrite H0. apply assign_loop_stuck; [done|]. unfold next_id, MAX_MSG_ID. cbn. lia.
Qed.

(** C38: [MQTTProtocol_assignMsgId] ends and answers the first identifier after the
    last one used, cyclically in 1..65535, that no outbound message has, and
    records it; or 0, the client unchanged, when every identifier other than
    the last one used is taken (the last one is not tried).  For a client that
    has not assigned any identifier yet, with all of them taken, the loop never
    ends. *)
Theorem assignMsgId_next c : 0 ≤ msgID c ≤ MAX_MSG_ID →
  ((msgID c ≠ 0 ∨ ∃ id, 1 ≤ id ≤ MAX_MSG_ID ∧ ¬ used c id) →
   ∃ r c', MQTTProtocol_assignMsgId c = Some (r, c') ∧
    ((1 ≤ r ≤ MAX_MSG_ID ∧ ¬ used c r ∧ c' = with_msgID c r ∧
      ∃ n, 1 ≤ n ∧ r = id_after (msgID c) n ∧ ∀ j, 1 ≤ j < n → used c (id_after (msgID c) j)) ∨
     (r = 0 ∧ c' = c ∧ ∀ id, 1 ≤ id ≤ MAX_MSG_ID → id ≠ msgID c → used c id))) ∧
  (msgID c = 0 → (∀ id, 1 ≤ id ≤ MAX_MSG_ID → used c id) →
   ∀ fuel, assign_loop fuel (msgID c) (next_id (msgID c)) (outboundMsgs c) = None).
Proof. apply assignMsgId_ok. Qed.

(** The identifiers 65535 and 1 are in flight: 2 is next. *)
Definition sample_message (id : Z) (pub : positive) : Messages :=
  mkMessage 1 0 id 4 MQTTProperties_initializer (Some pub) 0 0.
Definition busy_client : Clients :=
  with_msgID (with_outbound (sample_client 4) [sample_message 65535 1; sample_message 1 2]) 65534.

Lemma assignMsgId_next_witness :
  MQTTProtocol_assignMsgId busy_client = Some (2, with_msgID busy_client 2) ∧
  (∃ r c', MQTTProtocol_assignMsgId busy_client = Some (r, c')).
Proof.
  split; [reflexivity|].
  destruct (assignMsgId_next busy_client) as [H _]; [cbn; unfold MAX_MSG_ID; lia|].
  destruct H as (r & c' & Hrun & _); [left; discriminate|]. exists r, c'. exact Hrun.
Defined.

(** ** Keep-alive *)

Section Timed.
Context {T : Type} `{!Transport T} `{!TransportLaws T}.
Context (now : Z).

Definition event_socket (e : event) : option Z :=
  match e with ESend s _ _ => Some s | EClose s => Some s | EDeliver _ _ _ _ => None end.
Definition events_of (sock : Z) (ev : list event) : list event :=
  filter (λ e, event_socket e = Some sock) ev.

Definition active (c : Clients) : bool := connected c && negb (keepAliveInterval c =? 0).
(** A PINGREQ is needed; the PINGRESP is overdue. *)
Definition ping_needed (c : Clients) : bool :=
  active c && negb (ping_outstanding c) &&
  (due now (lastSent c) (keepAliveInterval c) || due now (lastReceived c) (keepAliveInterval c)).
Definition overdue (c : Clients) : bool :=
  active c && ping_outstanding c && due now (lastPing c) (keepAliveInterval c).

(** What happens to a client; [free]: its socket has no output pending. *)
Definition kept_alive (free : bool) (c c' : Clients) (ev : list event) : Prop :=
  if overdue c then c' = c ∧ ev = [EClose (socket c)]
  else if ping_needed c && free then
    ∃ rc, ev = ESend (socket c) OPingreq rc
                 :: (if decide (rc = TCPSOCKET_COMPLETE) then [] else [EClose (socket c)]) ∧
      c' = if decide (rc = TCPSOCKET_COMPLETE) then with_ping (with_lastSent c now) now else c
  else c' = c ∧ ev = [].

Ltac done0 := split; [done|split; [repeat constructor|done]].

Lemma keepalive_client_ok c t :
  let '(c', t', ev) := keepalive_client now c t in
  kept_alive (noPendingWrites t (socket c)) c c' ev ∧
  Forall (λ e, event_socket e = Some (socket c)) ev ∧
  (∀ k, k ≠ socket c → noPendingWrites t' k = noPendingWrites t k).
Proof.
  unfold keepalive_client, kept_alive, overdue, ping_needed, active.
  destruct (connected c), (keepAliveInterval c =? 0), (ping_outstanding c); cbn [negb andb orb];
    try (done0).
  - destruct (due now (lastPing c) _); done0.
  - destruct (due now (lastSent c) _ || due now (lastReceived c) _); [|done0].
    destruct (noPendingWrites t (socket c)); cbn [andb]; [|done0].
    unfold send_on. destruct (send_packet t (socket c) OPingreq) as [rc t'] eqn:Hs.
    pose proof (λ k, send_other _ _ _ _ _ k Hs) as Hother.
    destruct (Z.eqb_spec rc TCPSOCKET_COMPLETE) as [->|Hne]; cbn [negb app];
      (split; [|split; [repeat constructor|done]]).
    + exists TCPSOCKET_COMPLETE. by rewrite !decide_True by done.
    + exists rc. by rewrite !decide_False by done.
Qed.

Lemma events_of_other sock s ev : Forall (λ e, event_socket e = Some s) ev → s ≠ sock → events_of sock ev = [].
Proof.
  intros Hev Hne. unfold events_of. induction Hev as [|e ev He _ IH]; [done|].
  rewrite filter_cons, decide_False by (rewrite He; congruence). done.
Qed.
Lemma events_of_own s ev : Forall (λ e, event_socket e = Some s) ev → events_of s ev = ev.
Proof.
  intros Hev. unfold events_of. induction Hev as [|e ev He _ IH]; [done|].
  rewrite filter_cons, decide_True by done. by rewrite IH.
Qed.

Lemma keepalive_sockets cs : ∀ t, let '(_, _, ev) := MQTTProtocol_keepalive now cs t in
  ∀ sock, sock ∉ socket <$> cs → events_of sock ev = [].
Proof.
  induction cs as [|c cs IH]; intros t; cbn [MQTTProtocol_keepalive]; [done|].
  pose proof (keepalive_client_ok c t) as Hc. destruct (keepalive_client now c t) as [[c1 t1] ev1].
  specialize (IH t1). destruct (MQTTProtocol_keepalive now cs t1) as [[cs2 t2] ev2].
  destruct Hc as (_ & Hev & _). intros sock. rewrite fmap_cons, not_elem_of_cons. intros [H1 H2].
  unfold events_of in *. rewrite filter_app. fold (events_of sock ev1).
  rewrite (events_of_other sock _ ev1 Hev), IH by auto. done.
Qed.

(** The keep-alive, run on clients with different sockets, does to each of
    them what its own state and socket call for, whatever is sent to the
    others: nothing while disconnected or without interval; the session is
    closed when the PINGRESP is overdue; a single PINGREQ is sent when nothing
    has been sent or nothing received for the interval, none is outstanding and
    the socket is free, and it becomes outstanding when it is written, the
    session being closed otherwise. *)
Theorem keepalive_pings cs : ∀ t, NoDup (socket <$> cs) →
  let '(cs', _, ev) := MQTTProtocol_keepalive now cs t in
  Forall2 (λ c c', kept_alive (noPendingWrites t (socket c)) c c' (events_of (socket c) ev)) cs cs'.
Proof.
  induction cs as [|c cs IH]; intros t Hnd; cbn [MQTTProtocol_keepalive]; [constructor|].
  rewrite fmap_cons, NoDup_cons in Hnd. destruct Hnd as [Hc Hnd].
  pose proof (keepalive_client_ok c t) as Hk. destruct (keepalive_client now c t) as [[c1 t1] ev1].
  specialize (IH t1 Hnd). pose proof (keepalive_sockets cs t1) as Hother.
  destruct (MQTTProtocol_keepalive now cs t1) as [[cs2 t2] ev2].
  destruct Hk as (Hk & Hev & Hnet). constructor.
  - unfold events_of. rewrite filter_app. fold (events_of (socket c) ev1) (events_of (socket c) ev2).
    rewrite events_of_own, Hother, app_nil_r by done. done.
  - apply Forall2_same_length_lookup in IH as [Hlen IH]. apply Forall2_same_length_lookup. split; [done|].
    intros i d d' Hd Hd'. specialize (IH i d d' Hd Hd').
    assert (Hne : socket d ≠ socket c).
    { intros He. apply Hc. rewrite <-He. apply list_elem_of_fmap. exists d.
      split; [done|]. by eapply list_elem_of_lookup_2. }
    unfold events_of. rewrite filter_app. fold (events_of (socket d) ev1) (events_of (socket d) ev2).
    rewrite (events_of_other (socket d) (socket c) ev1) by auto. cbn [app]. by rewrite <-Hnet.
Qed.

(** ** Retries *)

(** The packets to send again, in the order of the messages. *)
Definition due_packets (regardless : bool) (pubs : gmap positive Publications) (c : Clients)
    (l : list Messages) : list out_packet :=
  omap (λ m, if retry_due now regardless c m then default None (resend pubs m) else None) l.

(** What a retry is, apart from the code.  A message is due when a retry is asked for
    regardless of the time, or when more than ten seconds, and more than the retry
    interval, have passed since it was touched. *)
Definition due_again (regardless : bool) (c : Clients) (m : Messages) : Prop :=
  regardless = true ∨ 10 * 1000 < now - lastTouch m ∧ retryInterval c * 1000 < now - lastTouch m.
#[export] Instance due_again_dec regardless c m : Decision (due_again regardless c m).
Proof. unfold due_again. apply _. Defined.

(** The packet that the exchange of a message calls for: its PUBLISH, as a duplicate
    with the topic, payload, properties, version and identifier that were stored,
    until PUBACK or PUBREC has come; then, for QoS 2, its PUBREL. *)
Inductive calls_for (pubs : gmap positive Publications) (m : Messages) : out_packet → Prop :=
  | calls_publish id pub : publish m = Some id → pubs !! id = Some pub →
      qos m = 1 ∨ qos m = 2 ∧ nextMessageType m = PUBREC →
      calls_for pubs m (OPublish (mkPublish (mkHeader PUBLISH 0 0 0) (p_topic pub) (p_topiclen pub) (msgid m)
        (p_payload pub) (p_payloadlen pub) (m_MQTTVersion m) (m_properties m)) 1 (qos m) (retain m))
  | calls_pubrel : qos m = 2 → nextMessageType m = PUBCOMP → calls_for pubs m (OAck PUBREL (msgid m) 0).

(** The packets given to the transport, with its answers. *)
Definition sends (ev : list event) : list (out_packet * Z) :=
  omap (λ e, match e with ESend _ p rc => Some (p, rc) | _ => None end) ev.

Definition ready (c : Clients) (t : T) : bool := connected c && good c && noPendingWrites t (socket c).

(** The messages of [l], of which the first [k] that are due are touched. *)
Definition touched_first (regardless : bool) (c : Clients) (k : nat) (l l' : list Messages) : Prop :=
  ∃ l1 l2, l = l1 ++ l2 ∧ length (filter (due_again regardless c) l1) = k ∧
    l' = ((λ m, if decide (due_again regardless c m) then touch now m (nextMessageType m) else m) <$> l1) ++ l2.

Lemma sends_app ev1 ev2 : sends (ev1 ++ ev2) = sends ev1 ++ sends ev2.
Proof. unfold sends. by rewrite omap_app. Qed.

Lemma retry_due_again regardless c m : retry_due now regardless c m = bool_decide (due_again regardless c m).
Proof. unfold retry_due, due_again. destruct regardless; symmetry; [by apply bool_decide_eq_true_2; left|]. cbn [orb].
  destruct (Z.ltb_spec (Z.max (retryInterval c) 10 * 1000) (now - lastTouch m));
    [apply bool_decide_eq_true_2; right; lia|apply bool_decide_eq_false_2; intros [|]; [done|lia]].
Qed.

Lemma resend_calls pubs m : out_ok m → (∀ id, publish m = Some id → is_Some (pubs !! id)) →
  ∃ p, resend pubs m = Some (Some p) ∧ calls_for pubs m p.
Proof.
  intros [[id Hid] Hq] Hp. destruct (Hp id Hid) as [pub Hpub]. unfold resend. rewrite Hid. cbn [mbind option_bind].
  rewrite Hpub. destruct Hq as [Hq|[Hq [Hn|Hn]]].
  1, 2: exists (OPublish (stored_publish m pub) 1 (qos m) (retain m)).
  - split; [by rewrite Hq|]. eapply calls_publish; [done..|by left].
  - split; [by rewrite Hq, Hn|]. eapply calls_publish; [done..|by right].
  - eexists. split; [by rewrite Hq, Hn|]. by constructor.
Qed.

(** The due messages with their packets. *)
Lemma due_packets_calls regardless pubs c l : Forall out_ok l → (∀ m id, m ∈ l → publish m = Some id → is_Some (pubs !! id)) →
  ∃ D, D.*1 = filter (due_again regardless c) l ∧ Forall (λ x, calls_for pubs x.1 x.2) D ∧ due_packets regardless pubs c l = D.*2.
Proof.
  intros Hok. induction Hok as [|m l Hm Hok IH]; intros Hp; [by exists []|].
  destruct IH as (D & H1 & H2 & H3); [intros k id Hk; apply Hp; by right|].
  destruct (resend_calls pubs m Hm) as (p & Hr & Hc); [intros id; apply Hp; by left|].
  unfold due_packets in *. cbn [omap list_omap]. rewrite filter_cons, retry_due_again, Hr.
  destruct (decide (due_again regardless c m)) as [Hd|Hd].
  - rewrite bool_decide_eq_true_2 by done. exists ((m, p) :: D). rewrite !fmap_cons. cbn. rewrite H1, <-H3. split; [done|]. split; [by constructor|done].
  - rewrite bool_decide_eq_false_2 by done. by exists D.
Qed.

(** A PUBLISH may be written in part, a PUBREL may not. *)
Definition refused (p : out_packet) (rc : Z) : bool :=
  match p with OPublish _ _ _ _ => rc =? SOCKET_ERROR | _ => negb (rc =? TCPSOCKET_COMPLETE) end.
(** The packets that were not refused. *)
Definition accepted (ev : list event) : nat := length (filter (λ x, refused x.1 x.2 = false) (sends ev)).

Lemma touched_none regardless c l : touched_first regardless c 0 l l.
Proof. by exists [], l. Qed.
Lemma touched_cons regardless c k m l l' : touched_first regardless c k l l' →
  touched_first regardless c (if decide (due_again regardless c m) then S k else k) (m :: l)
    ((if decide (due_again regardless c m) then touch now m (nextMessageType m) else m) :: l').
Proof.
  intros (l1 & l2 & -> & <- & ->). exists (m :: l1), l2. split; [done|]. rewrite filter_cons. destruct (decide (due_again regardless c m)) as [H|H].
  - split; [done|]. cbn [fmap list_fmap app]. by rewrite decide_True.
  - split; [done|]. cbn [fmap list_fmap app]. by rewrite decide_False.
Qed.

Definition last_failed (l : list (out_packet * Z)) : bool :=
  match last l with Some (p, rc) => refused p rc | None => false end.
Definition completed (x : out_packet * Z) : Prop := x.2 = TCPSOCKET_COMPLETE.

(** What happens to a client whose due packets are [due]. *)
Record resent (c : Clients) (t : T) (due : list out_packet) (c' : Clients) (ev : list event) : Prop := {
  (** a prefix of them is sent, in order; the rest is left when the socket is not
      ready or the last packet was not completely written *)
  rs_due : ∃ rest, due = (sends ev).*1 ++ rest ∧
    (rest ≠ [] → ready c t = false ∨
       ∃ p rc, last (sends ev) = Some (p, rc) ∧ rc ≠ TCPSOCKET_COMPLETE);
  rs_complete : Forall completed (removelast (sends ev));
  (** the session is closed exactly when the last packet failed *)
  rs_events : ev = ((λ x, ESend (socket c) (fst x) (snd x)) <$> sends ev)
                   ++ (if last_failed (sends ev) then [EClose (socket c)] else []);
  rs_good : good c' = good c && negb (last_failed (sends ev));
  rs_idle : ready c t = false → ev = []
}.

Lemma resent_nothing c t due : due = [] ∨ ready c t = false → resent c t due c [].
Proof.
  intros H. split; [|constructor|done|by rewrite andb_true_r|done].
  exists due. split; [done|]. intros Hne. destruct H as [->|H]; [done|by left].
Qed.

Lemma resent_failed c t due c' p rc : refused p rc = true → rc ≠ TCPSOCKET_COMPLETE →
  ready c t = true → good c' = false →
  resent c t (p :: due) c' [ESend (socket c) p rc; EClose (socket c)].
Proof.
  intros Hf Hrc Hr Hg. assert (Hs : sends [ESend (socket c) p rc; EClose (socket c)] = [(p, rc)]) by done.
  split; rewrite ?Hs; unfold last_failed; cbn [last fmap list_fmap app fst snd removelast].
  - exists due. split; [done|]. right. eauto.
  - constructor.
  - by rewrite Hf.
  - by rewrite Hf, andb_false_r.
  - by rewrite Hr.
Qed.

Lemma resent_cons c t c1 t1 due c' p rc ev : refused p rc = false → ready c t = true →
  good c1 = good c → socket c1 = socket c →
  (rc = TCPSOCKET_COMPLETE ∧ ready c1 t1 = true) ∨ (rc ≠ TCPSOCKET_COMPLETE ∧ ready c1 t1 = false) →
  resent c1 t1 due c' ev → resent c t (p :: due) c' (ESend (socket c) p rc :: ev).
Proof.
  intros Hf Hr Hg Hs Hcase [(rest & Hdue & Hrest) Hcomp Hev Hgood Hidle].
  assert (Hse : sends (ESend (socket c) p rc :: ev) = (p, rc) :: sends ev) by done.
  assert (Hlf : last_failed ((p, rc) :: sends ev) = last_failed (sends ev)).
  { unfold last_failed. destruct (sends ev); [by cbn; rewrite Hf|done]. }
  split; rewrite ?Hse, ?Hlf.
  - exists rest. rewrite fmap_cons. cbn [fst app]. rewrite <-Hdue. split; [done|].
    intros Hne. right. destruct Hcase as [[-> H1]|[Hrc H1]].
    + destruct (Hrest Hne) as [H|(p' & rc' & Hl & Hne')]; [by rewrite H1 in H|].
      exists p', rc'. split; [|done]. by destruct (sends ev).
    + rewrite (Hidle H1). eauto.
  - destruct Hcase as [[-> H1]|[Hrc H1]].
    + destruct (sends ev); [constructor|]. constructor; [done|exact Hcomp].
    + rewrite (Hidle H1). constructor.
  - rewrite fmap_cons. cbn [fst snd app]. f_equal. by rewrite Hs in Hev.
  - by rewrite Hgood, Hg.
  - by rewrite Hr.
Qed.

Lemma due_packets_cons regardless pubs c m l : due_packets regardless pubs c (m :: l) =
  (if retry_due now regardless c m then option_list (default None (resend pubs m)) else [])
    ++ due_packets regardless pubs c l.
Proof.
  unfold due_packets. cbn. destruct (retry_due _ _ _ _); [|done]. by destruct (default None _).
Qed.

Lemma accepted_cons x p rc ev : accepted (ESend x p rc :: ev) = if refused p rc then accepted ev else S (accepted ev).
Proof. unfold accepted. cbn [sends omap list_omap]. rewrite filter_cons. cbn [fst snd]. by destruct (refused p rc). Qed.

Lemma retries_loop_ok regardless pubs todo : ∀ c done t,
  Forall out_ok todo → (∀ m id, m ∈ todo → publish m = Some id → is_Some (pubs !! id)) →
  ∃ c' t' ev l', retries_loop now regardless pubs c done todo t = Some (c', t', ev) ∧
    outboundMsgs c' = done ++ l' ∧ touched_first regardless c (accepted ev) todo l' ∧
    inboundMsgs c' = inboundMsgs c ∧ resent c t (due_packets regardless pubs c todo) c' ev.
Proof.
  induction todo as [|m todo IH]; intros c done t Hok Hp; cbn [retries_loop].
  { eexists _, _, _, []. split; [reflexivity|]. rewrite app_nil_r. split; [done|]. split; [apply touched_none|].
    split; [done|]. destruct (resent_nothing c t []) as []; [by left|]. by split. }
  apply Forall_cons in Hok as [Hm Hok].
  destruct (ready c t) eqn:Hready; pose proof Hready as Hr; unfold ready in Hr; rewrite Hr; cbn [negb].
  2: { eexists _, _, _, (m :: todo). split; [reflexivity|]. split; [done|]. split; [apply touched_none|].
       split; [done|]. destruct (resent_nothing c t (due_packets regardless pubs c (m :: todo))) as [];
         [by right|]. by split. }
  assert (Hp' : ∀ k id, k ∈ todo → publish k = Some id → is_Some (pubs !! id))
    by (intros k id Hk; apply Hp; by right).
  rewrite due_packets_cons, retry_due_again.
  destruct (resend_calls pubs m Hm) as (p & Hrs & _); [intros id; apply Hp; by left|]. rewrite Hrs.
  pose proof (λ k, touched_cons regardless c k m todo) as Htouch.
  destruct (decide (due_again regardless c m)) as [Hdue|Hdue].
  2: { rewrite bool_decide_eq_false_2 by done.
       destruct (IH c (done ++ [m]) t Hok Hp') as (c' & t' & ev & l' & H1 & H2 & H3 & H4 & H5).
       exists c', t', ev, (m :: l'). rewrite <-app_assoc in H2. split; [done|]. split; [done|]. split; [by apply Htouch|]. done. }
  rewrite bool_decide_eq_true_2 by done. cbn [mbind option_bind default option_list app].
  unfold send_on. destruct (send_packet t (socket c) p) as [rc t1] eqn:Hs.
  set (c1 := if rc =? TCPSOCKET_COMPLETE then with_lastSent c now else c).
  assert (Hc1 : good c1 = good c ∧ socket c1 = socket c ∧ inboundMsgs c1 = inboundMsgs c ∧ connected c1 = connected c ∧
    due_packets regardless pubs c1 todo = due_packets regardless pubs c todo ∧
    (∀ k l l', touched_first regardless c1 k l l' → touched_first regardless c k l l'))
    by (unfold c1; by destruct (rc =? TCPSOCKET_COMPLETE)).
  destruct Hc1 as (Hg & Hsk & Hi & Hcn & Hd & Ht).
  change (resend_failed p rc) with (refused p rc). destruct (refused p rc) eqn:Hf.
  - eexists _, _, _, (m :: todo). split; [reflexivity|]. split; [done|]. cbn [app]. rewrite accepted_cons, Hf.
    split; [apply touched_none|]. split; [exact Hi|]. apply resent_failed; [done| |done|done]. intros ->. by destruct p.
  - destruct (IH c1 (done ++ [touch now m (nextMessageType m)]) t1 Hok Hp')
      as (c' & t' & ev & l' & -> & H2 & H3 & H4 & H5). cbn [mbind option_bind app].
    eexists _, _, _, (touch now m (nextMessageType m) :: l'). split; [reflexivity|]. rewrite accepted_cons, Hf.
    rewrite <-app_assoc in H2. split; [done|]. split; [by apply Htouch, Ht|].
    split; [by rewrite H4|]. rewrite Hd in H5.
    eapply resent_cons; [done|done|done|done| |exact H5].
    apply andb_true_iff in Hr as [Hr _]. unfold ready. rewrite Hcn, Hg, Hsk, Hr. cbn [andb].
    destruct (send_codes _ _ _ _ _ Hs) as [->|[->| ->]].
    + left. split; [done|]. by eapply send_complete.
    + right. split; [done|]. by eapply send_interrupted.
    + exfalso. by destruct p.
Qed.

(** C39: the retries of a client, whose messages in flight wait for an
    acknowledgement and have their publications, end.  A message is due when the
    retry is regardless of the time (a reconnection), or when more than ten seconds
    and more than the retry interval have passed since it was touched; [D] holds the
    messages that are due, in their order, each with the packet its exchange calls
    for: its PUBLISH as it was stored, marked as a duplicate, until PUBACK or
    PUBREC, then its PUBREL.  A prefix of these packets is sent, in order,
    stopping at the first that is not completely written and otherwise sending
    them all; the session is closed exactly when the last one failed; and exactly
    the messages whose packet was taken are touched.  Nothing happens when the
    client is not connected or its socket is not free, or without a retry interval
    unless the retry is regardless of the time. *)
Theorem retries_resend regardless pubs c t :
  Forall out_ok (outboundMsgs c) →
  (∀ m id, m ∈ outboundMsgs c → publish m = Some id → is_Some (pubs !! id)) →
  ∃ c' t' ev, MQTTProtocol_retries now regardless pubs c t = Some (c', t', ev) ∧ inboundMsgs c' = inboundMsgs c ∧
    if regardless || (0 <? retryInterval c)
    then ∃ D, D.*1 = filter (due_again regardless c) (outboundMsgs c) ∧ Forall (λ x, calls_for pubs x.1 x.2) D ∧
      resent c t D.*2 c' ev ∧ touched_first regardless c (accepted ev) (outboundMsgs c) (outboundMsgs c')
    else c' = c ∧ ev = [].
Proof.
  intros Hok Hp.
  assert (Hloop : ∃ c' t' ev, retries_loop now regardless pubs c [] (outboundMsgs c) t = Some (c', t', ev) ∧ inboundMsgs c' = inboundMsgs c ∧
    ∃ D, D.*1 = filter (due_again regardless c) (outboundMsgs c) ∧ Forall (λ x, calls_for pubs x.1 x.2) D ∧
      resent c t D.*2 c' ev ∧ touched_first regardless c (accepted ev) (outboundMsgs c) (outboundMsgs c')).
  { destruct (retries_loop_ok regardless pubs (outboundMsgs c) c [] t Hok Hp) as (c' & t' & ev & l' & H1 & H2 & H3 & H4 & H5).
    destruct (due_packets_calls regardless pubs c _ Hok Hp) as (D & HD1 & HD2 & HD3). cbn [app] in H2. subst l'.
    exists c', t', ev. split; [done|]. split; [done|]. exists D. by rewrite <-HD3. }
  unfold MQTTProtocol_retries. destruct regardless; cbn [negb andb orb]; [exact Hloop|].
  destruct (Z.leb_spec (retryInterval c) 0); destruct (Z.ltb_spec 0 (retryInterval c)); try lia; [by exists c, t, []|exact Hloop].
Qed.

End Timed.

(** ** Witnesses *)

Definition two_clients : list Clients := [sample_client 3; sample_client 4].

Lemma keepalive_pings_witness :
  NoDup (socket <$> two_clients) ∧
  (let '(cs', _, ev) := MQTTProtocol_keepalive 60000 two_clients sample_net in
   Forall2 (λ c c', kept_alive 60000 (noPendingWrites sample_net (socket c)) c c' (events_of (socket c) ev))
     two_clients cs' ∧
   ev = [ESend 3 OPingreq 0; ESend 4 OPingreq 0]).
Proof.
  assert (Hnd : NoDup (socket <$> two_clients)) by (apply (bool_decide_unpack _); reflexivity).
  split; [exact Hnd|].
  pose proof (keepalive_pings 60000 two_clients sample_net Hnd) as H.
  destruct (MQTTProtocol_keepalive 60000 two_clients sample_net) as [[cs' t'] ev] eqn:He.
  split; [exact H|]. vm_compute in He. injection He as _ _ <-. reflexivity.
Defined.

Definition sample_pubs : gmap positive Publications :=
  <[1%positive := mkPublications (bs "a") 1 (bs "x") 1 1]> (<[2%positive := mkPublications (bs "b") 1 (bs "y") 1 1]> ∅).

(** A QoS 1 message, a QoS 2 message that waits for PUBCOMP, one touched five seconds ago
    and one that waits for PUBREC, whose PUBLISH meets a full socket. *)
Definition sample_message_at (id q next time : Z) : Messages :=
  mkMessage q 0 id 4 MQTTProperties_initializer (Some (if id =? 7 then 1%positive else 2%positive)) time next.
Definition full_net : socket_net :=
  (fst sample_net, [SocketWrite.WRoom 100; SocketWrite.WRoom 100; SocketWrite.WError EAGAIN]).
Definition late_client : Clients := with_outbound (mkClient 4 true true false 0 0 0 0 60 20 [] [])
  [sample_message_at 7 1 PUBACK 0; sample_message_at 8 2 PUBCOMP 0; sample_message_at 9 1 PUBACK 94000; sample_message_at 10 2 PUBREC 0].

Lemma retries_resend_witness :
  ∃ c' t' ev, MQTTProtocol_retries 99000 false sample_pubs late_client full_net = Some (c', t', ev) ∧
    ev = [ESend 4 (OPublish (mkPublish (mkHeader PUBLISH 0 0 0) (bs "a") 1 7 (bs "x") 1 4 MQTTProperties_initializer) 1 1 0) TCPSOCKET_COMPLETE;
          ESend 4 (OAck PUBREL 8 0) TCPSOCKET_COMPLETE;
          ESend 4 (OPublish (mkPublish (mkHeader PUBLISH 0 0 0) (bs "b") 1 10 (bs "y") 1 4 MQTTProperties_initializer) 1 2 0) TCPSOCKET_INTERRUPTED] ∧
    touched_first 99000 false late_client 3 (outboundMsgs late_client) (outboundMsgs c').
Proof.
  destruct (retries_resend 99000 false sample_pubs late_client full_net) as (c' & t' & ev & H1 & _ & D & _ & _ & _ & H2).
  - repeat constructor; try (eexists; reflexivity); vm_compute; intuition congruence.
  - intros m id Hm Hid. apply list_elem_of_In in Hm. cbn in Hm. decompose [or] Hm; try done; subst m; vm_compute in Hid; injection Hid as <-; eexists; reflexivity.
  - exists c', t', ev. split; [exact H1|]. vm_compute in H1. injection H1 as <- _ <-.
    split; [vm_compute; reflexivity|exact H2].
Defined.

End Timers.
