(* ===== verification/Persistence.v ===== *)
(** * Persistence of messages (paho.mqtt.c/src/MQTTPersistence.c)

    The records of the messages in flight and of the queued messages, over a
    store given by its interface ([MQTTClientPersistence.h]): what is written,
    under which keys, what is removed, and how the state is rebuilt when a
    client starts again. *)
From S2P Require Import Prelude Libc PacketCodec Props Packets SocketIO Protocol.

Module Persistence.
Import Libc Codecs Properties Packets Protocol.

(** ** The store (MQTTClientPersistence.h)

    A store for the client's handle: return codes and the state after.  Keys
    are strings without their terminator. *)

Definition MQTTCLIENT_PERSISTENCE_ERROR := -2.

Class Store (S : Type) := {
  popen : list Z → list Z → S → Z * S;
  pclose : S → Z * S;
  pput : list Z → list (list Z) → S → Z * S;
  pget : list Z → S → Z * list Z;
  premove : list Z → S → Z * S;
  pkeys : S → Z * list (list Z);
  pclear : S → Z * S;
  pcontainskey : list Z → S → Z
}.

(** Keys that are safe as parts of file names: without '.' and '/'. *)
Definition good_key (k : list Z) : Prop := 46 ∉ k ∧ 47 ∉ k.

(** The contract, on a state that is well-formed and stays so.  Return codes are
    zero or [MQTTCLIENT_PERSISTENCE_ERROR]; a removal that fails keeps the
    record; a write that fails changes no other record. *)
Class StoreLaws (S : Type) `{!Store S} := {
  contents : S → gmap (list Z) (list Z);
  store_ok : S → Prop;
  put_rc k bufs s : store_ok s → good_key k → let '(rc, s') := pput k bufs s in
    store_ok s' ∧
    ((rc = 0 ∧ contents s' = <[k := concat bufs]> (contents s)) ∨
     (rc = MQTTCLIENT_PERSISTENCE_ERROR ∧ ∀ k', k' ≠ k → contents s' !! k' = contents s !! k'));
  get_rc k s d : store_ok s → good_key k → pget k s = (0, d) → contents s !! k = Some d;
  remove_rc k s : store_ok s → good_key k → let '(rc, s') := premove k s in
    store_ok s' ∧
    ((rc = 0 ∧ contents s' = delete k (contents s)) ∨
     (rc = MQTTCLIENT_PERSISTENCE_ERROR ∧ contents s' = contents s));
  keys_rc s l : store_ok s → pkeys s = (0, l) → NoDup l ∧ ∀ k, k ∈ l ↔ is_Some (contents s !! k);
  contains_rc k s : store_ok s → good_key k → pcontainskey k s = 0 ↔ is_Some (contents s !! k)
}.

(** ** Keys (MQTTPersistence.h) *)

Definition PERSISTENCE_PUBLISH_SENT := bs "s-".
Definition PERSISTENCE_PUBREL := bs "sc-".
Definition PERSISTENCE_PUBLISH_RECEIVED := bs "r-".
Definition PERSISTENCE_V5_PUBLISH_SENT := bs "s5-".
Definition PERSISTENCE_V5_PUBREL := bs "sc5-".
Definition PERSISTENCE_V5_PUBLISH_RECEIVED := bs "r5-".
Definition PERSISTENCE_COMMAND_KEY := bs "c-".
Definition PERSISTENCE_V5_COMMAND_KEY := bs "c5-".
Definition PERSISTENCE_QUEUE_KEY := bs "q-".
Definition PERSISTENCE_V5_QUEUE_KEY := bs "q5-".
Definition PERSISTENCE_MAX_KEY_LENGTH := 9.
Definition PERSISTENCE_SEQNO_LIMIT := 1000000.
Definition MESSAGE_FILENAME_LENGTH := 8.

(** [sprintf(key, "%s%d", stem, n)] into an array of [size] bytes. *)
Definition key_in (size : Z) (stem : list Z) (n : Z) : option (list Z) :=
  let k := stem ++ dec n in if len k <? size then Some k else None.

(** The keys of messages, in [malloc(MESSAGE_FILENAME_LENGTH + 1)]. *)
Definition message_key : list Z → Z → option (list Z) := key_in (MESSAGE_FILENAME_LENGTH + 1).

(** ** Creation *)

Definition MQTTCLIENT_PERSISTENCE_DEFAULT := 0.
Definition MQTTCLIENT_PERSISTENCE_NONE := 1.
Definition MQTTCLIENT_PERSISTENCE_USER := 2.

(** What the [void*] context points to: a directory name, or a structure of the
    application (whether each of its nine members is set). *)
Inductive pcontext := CtxNull | CtxDirectory (d : list Z) | CtxStructure (members : list bool).
Inductive persistence := PerDefault (context : list Z) | PerUser (members : list bool).

(** [mem1], [mem2]: whether the two allocations succeed.  The result is the
    return code and what [*persistence] is set to, if it is; a context of the
    other kind is a wrong pointer type. *)
Definition MQTTPersistence_create (type : Z) (ctx : pcontext) (mem1 mem2 : bool)
    : option (Z * option (option persistence)) :=
  if type =? MQTTCLIENT_PERSISTENCE_NONE then Some (0, Some None)
  else if type =? MQTTCLIENT_PERSISTENCE_DEFAULT then
    match ctx with
    | CtxStructure _ => None
    | _ =>
        if negb mem1 then Some (PAHO_MEMORY_ERROR, Some None)
        else if negb mem2 then Some (PAHO_MEMORY_ERROR, None)
        else Some (0, Some (Some (PerDefault (match ctx with CtxDirectory d => d | _ => bs "." end))))
    end
  else if type =? MQTTCLIENT_PERSISTENCE_USER then
    match ctx with
    | CtxDirectory _ => None
    | CtxNull => Some (MQTTCLIENT_PERSISTENCE_ERROR, Some None)
    | CtxStructure members =>
        Some (if forallb id members then 0 else MQTTCLIENT_PERSISTENCE_ERROR, Some (Some (PerUser members)))
    end
  else Some (MQTTCLIENT_PERSISTENCE_ERROR, Some None).

(** ** Order of the restored messages *)

Fixpoint MQTTPersistence_insertInOrder (m : Messages) (l : list Messages) : list Messages :=
  match l with
  | [] => [m]
  | x :: l' => if msgid m <? msgid x then m :: l else x :: MQTTPersistence_insertInOrder m l'
  end.

(** The loop of [wrapMsgID]: [i] is the position of the current element, [prev]
    the identifier before it; the result is the position of [wrapel]. *)
Fixpoint wrap_loop (i : nat) (prev gap : Z) (wrapel : option nat) (l : list Messages) : option nat :=
  match l with
  | [] => wrapel
  | m :: l' =>
      let curgap := msgid m - prev in
      if gap <? curgap then wrap_loop (S i) (msgid m) curgap (Some i) l'
      else wrap_loop (S i) (msgid m) gap wrapel l'
  end.

(** The ring closed and opened before [wrapel]. *)
Definition MQTTPersistence_wrapMsgID (l : list Messages) : list Messages :=
  match l, last l with
  | first :: l', Some last_ =>
      match wrap_loop 1 (msgid first) (MAX_MSG_ID - msgid last_ + msgid first) None l' with
      | Some k => drop k l ++ take k l
      | None => l
      end
  | _, _ => l
  end.

(** ** Reading a record *)

(** The decoding of the remaining length: the bytes after the header, the
    length of the fixed header and the length found; [None] is a read past the
    record or an overflow of [multiplier]. *)
Fixpoint length_loop (buffer : list Z) (multiplier remaining_length fixed_header_length : Z)
    : option (list Z * Z * Z) :=
  match buffer with
  | [] => None
  | c :: buffer' =>
      let remaining_length := remaining_length + (c .& 127) * multiplier in
      let multiplier := multiplier * 128 in
      let fixed_header_length := fixed_header_length + 1 in
      if (2 ^ 31 <=? remaining_length) || (2 ^ 31 <=? multiplier) then None
      else if c .& 128 =? 0 then Some (buffer', fixed_header_length, remaining_length)
      else length_loop buffer' multiplier remaining_length fixed_header_length
  end.

(** [Some None] is the NULL result. *)
Definition MQTTPersistence_restorePacket (MQTTVersion : Z) (buffer : list Z) : option (option packet) :=
  match buffer with
  | [] => None
  | header :: buffer' =>
      '(data, fixed_header_length, remaining_length) ← length_loop buffer' 1 0 1;
      if fixed_header_length + remaining_length =? len buffer then
        let ptype := h_type (header_of_byte header) in
        if (CONNECT <=? ptype) && (ptype <=? DISCONNECT) then
          match new_packets ptype with
          | None => Some None
          | Some f => f MQTTVersion header data
          end
        else Some None
      else Some None
  end.

Section Persistence.
Context {S T : Type} `{!Store S, !Transport T}.
(** [c->beforeWrite] and [c->afterRead], if set: a return code and the data,
    which they may replace. *)
Context (beforeWrite : option (list (list Z) → Z * list (list Z))).
Context (afterRead : option (list Z → Z * list Z)).

Definition before_write (bufs : list (list Z)) : Z * list (list Z) :=
  match beforeWrite with Some f => f bufs | None => (0, bufs) end.
Definition after_read (r : Z * list Z) : Z * list Z :=
  let '(rc, buf) := r in
  if rc =? 0 then match afterRead with Some f => f buf | None => (0, buf) end else (rc, buf).

(** ** Writing and removing records

    [persistent] is whether [c->persistence] is set, [mem] whether the
    allocations succeed.  [None]: the key does not fit its array, or [scr] is
    neither direction and the key is not set. *)

Definition packet_stem (htype scr MQTTVersion : Z) : option (list Z) :=
  if scr =? 0 then
    Some (if htype =? PUBLISH
          then if MQTTVERSION_5 <=? MQTTVersion then PERSISTENCE_V5_PUBLISH_SENT else PERSISTENCE_PUBLISH_SENT
          else if htype =? PUBREL
          then if MQTTVERSION_5 <=? MQTTVersion then PERSISTENCE_V5_PUBREL else PERSISTENCE_PUBREL
          else PERSISTENCE_PUBLISH_SENT)
  else if scr =? 1 then
    Some (if MQTTVERSION_5 <=? MQTTVersion then PERSISTENCE_V5_PUBLISH_RECEIVED else PERSISTENCE_PUBLISH_RECEIVED)
  else None.

Definition MQTTPersistence_putPacket (persistent mem : bool) (buf0 : list Z) (buffers : list (list Z))
    (htype msgId scr MQTTVersion : Z) (s : S) : option (Z * S) :=
  if negb persistent then Some (0, s)
  else if negb mem then Some (PAHO_MEMORY_ERROR, s)
  else
    stem ← packet_stem htype scr MQTTVersion;
    key ← message_key stem msgId;
    let '(rc, bufs) := before_write (buf0 :: buffers) in
    Some (if rc =? 0 then pput key bufs s else (rc, s)).

(** The four keys of a message sent, or the two of a message received, each
    through the same array. *)
Fixpoint remove_keys (stems : list (list Z)) (msgId rc : Z) (s : S) : option (Z * S) :=
  match stems with
  | [] => Some (rc, s)
  | stem :: stems' =>
      key ← message_key stem msgId;
      let '(rc', s') := premove key s in
      remove_keys stems' msgId (rc + rc') s'
  end.

Definition SENT_STEMS := [PERSISTENCE_V5_PUBLISH_SENT; PERSISTENCE_V5_PUBREL; PERSISTENCE_PUBLISH_SENT; PERSISTENCE_PUBREL].
Definition RECEIVED_STEMS := [PERSISTENCE_V5_PUBLISH_RECEIVED; PERSISTENCE_PUBLISH_RECEIVED].

Definition MQTTPersistence_remove (persistent mem : bool) (type : list Z) (qos msgId : Z) (s : S)
    : option (Z * S) :=
  if negb persistent then Some (0, s)
  else if negb mem then Some (PAHO_MEMORY_ERROR, s)
  else if bool_decide (type = PERSISTENCE_PUBLISH_SENT) || bool_decide (type = PERSISTENCE_V5_PUBLISH_SENT)
  then remove_keys SENT_STEMS msgId 0 s
  else remove_keys RECEIVED_STEMS msgId 0 s.

(** The records the packet layer writes: a PUBLISH of QoS 1 or 2 and a PUBREL
    before they are sent ([MQTTPacket_sends], [MQTTPacket_send]), a PUBLISH of
    QoS 2 after it is received ([MQTTPacket_Factory]). *)
Definition persist_sends (persistent mem : bool) (h : Header) (bufs : list (list Z)) (MQTTVersion : Z) (s : S)
    : option (Z * S) :=
  if (h_type h =? PUBLISH) && negb (h_qos h =? 0) then
    buf ← bufs !! 2%nat;
    '(msgId, _) ← readInt buf 0;
    MQTTPersistence_putPacket persistent mem (fixed_header h (len (concat bufs))) bufs (h_type h) msgId 0 MQTTVersion s
  else Some (0, s).

Definition persist_send (persistent mem : bool) (h : Header) (buffer : list Z) (MQTTVersion : Z) (s : S)
    : option (Z * S) :=
  if h_type h =? PUBREL then
    '(msgId, _) ← readInt buffer 0;
    MQTTPersistence_putPacket persistent mem (fixed_header h (len buffer)) [buffer] (h_type h) msgId 0 MQTTVersion s
  else Some (0, s).

Definition persist_received (persistent mem : bool) (header : Z) (data : list Z) (msgId MQTTVersion : Z) (s : S)
    : option (Z * S) :=
  let h := header_of_byte header in
  if (h_type h =? PUBLISH) && (h_qos h =? 2) then
    MQTTPersistence_putPacket persistent mem (header :: MQTTPacket_encode (len data)) [data] (h_type h) msgId 1 MQTTVersion s
  else Some (0, s).

(** ** Restoring the messages in flight *)

Definition other_key (key : list Z) : bool :=
  starts_with PERSISTENCE_COMMAND_KEY key || starts_with PERSISTENCE_V5_COMMAND_KEY key
  || starts_with PERSISTENCE_QUEUE_KEY key || starts_with PERSISTENCE_V5_QUEUE_KEY key.

(** [data_MQTTVersion] and [cur_key]. *)
Definition record_version (key : list Z) : Z * list Z :=
  if starts_with PERSISTENCE_V5_PUBLISH_RECEIVED key then (MQTTVERSION_5, PERSISTENCE_PUBLISH_RECEIVED)
  else if starts_with PERSISTENCE_V5_PUBLISH_SENT key then (MQTTVERSION_5, PERSISTENCE_PUBLISH_SENT)
  else if starts_with PERSISTENCE_V5_PUBREL key then (MQTTVERSION_5, PERSISTENCE_PUBREL)
  else (MQTTVERSION_3_1_1, key).

Definition with_version (p : Publish) (v : Z) : Publish :=
  mkPublish (pb_header p) (pb_topic p) (pb_topiclen p) (pb_msgId p) (pb_payload p) (pb_payloadlen p) v (pb_properties p).
Definition with_next (m : Messages) (next touched : Z) : Messages :=
  mkMessage (qos m) (retain m) (msgid m) (m_MQTTVersion m) (m_properties m) (publish m) touched next.

(** The payload and the topic of a publication freed and set to NULL, which is
    the empty sequence here. *)
Definition blank_publication (p : option positive) (pubs : gmap positive Publications)
    : gmap positive Publications :=
  match p with
  | None => pubs
  | Some id => alter (λ pub, mkPublications [] (p_topiclen pub) [] (p_payloadlen pub) (p_refcount pub)) id pubs
  end.

Context (now : Z).
(** [c->MQTTVersion]. *)
Context (version : Z).

(** What the loop works on: the client with the shared state, and the store. *)
Definition rstate : Type := session (T := T) * S.

Definition create_message (p : Publish) : proto (T := T) Messages :=
  MQTTProtocol_createMessage now p (h_qos (pb_header p)) (h_retain (pb_header p)).

Definition restore_received (p : Publish) : proto (T := T) () :=
  m ← create_message (with_version p version);
  let m := with_next m PUBREL (lastTouch m) in
  modify_client (λ c, with_inbound c (inboundMsgs c ++ [m]));;
  pubs ← get_publications;
  set_publications (if MQTTVERSION_5 <=? version then blank_publication (publish m) pubs else pubs).

Definition restore_sent (p : Publish) (rel_sent : bool) : proto (T := T) () :=
  m ← create_message (with_version p version);
  let m := with_next m (if rel_sent then PUBCOMP else nextMessageType m) 0 in
  modify_client (λ c, with_outbound c (MQTTPersistence_insertInOrder m (outboundMsgs c))).

Definition v_stem (v5 v3 : list Z) : list Z := if MQTTVERSION_5 <=? version then v5 else v3.

(** One record whose data were read.  The flag is the [goto exit] for data of
    MQTT 5; a packet of the wrong type under a key is a wrong pointer. *)
Definition restore_record (key buffer : list Z) (st : rstate) : option (bool * Z * rstate) :=
  let '(data_MQTTVersion, cur_key) := record_version key in
  if (data_MQTTVersion =? MQTTVERSION_5) && (version <? MQTTVERSION_5)
  then Some (true, MQTTCLIENT_PERSISTENCE_ERROR, st)
  else
    pack ← MQTTPersistence_restorePacket data_MQTTVersion buffer;
    match pack with
    | None => let '(rc, s') := premove key (snd st) in Some (false, rc, (fst st, s'))
    | Some pack =>
        if starts_with PERSISTENCE_PUBLISH_RECEIVED cur_key then
          match pack with
          | PPublish p => '(_, ss, _) ← restore_received p (fst st); Some (false, 0, (ss, snd st))
          | _ => None
          end
        else if starts_with PERSISTENCE_PUBLISH_SENT cur_key then
          match pack with
          | PPublish p =>
              k ← message_key (v_stem PERSISTENCE_V5_PUBREL PERSISTENCE_PUBREL) (pb_msgId p);
              '(_, ss, _) ← restore_sent p (pcontainskey k (snd st) =? 0) (fst st);
              Some (false, 0, (ss, snd st))
          | _ => None
          end
        else if starts_with PERSISTENCE_PUBREL cur_key then
          match pack with
          | PAck a =>
              id ← ack_msgId a;
              k ← message_key (v_stem PERSISTENCE_V5_PUBLISH_SENT PERSISTENCE_PUBLISH_SENT) id;
              if pcontainskey k (snd st) =? 0 then Some (false, 0, st)
              else let '(rc, s') := premove key (snd st) in Some (false, rc, (fst st, s'))
          | _ => None
          end
        else Some (false, 0, st)
    end.

Fixpoint restore_loop (keys : list (list Z)) (st : rstate) : option (bool * Z * rstate) :=
  match keys with
  | [] => Some (false, 0, st)
  | key :: keys' =>
      if other_key key then restore_loop keys' st
      else
        let '(rc, buffer) := after_read (pget key (snd st)) in
        if rc =? 0 then
          '(quit, rc, st') ← restore_record key buffer st;
          if quit || negb (rc =? 0) then Some (quit, rc, st') else restore_loop keys' st'
        else Some (false, rc, st)
  end.

Definition wrap_client (c : Clients) : Clients := with_outbound c (MQTTPersistence_wrapMsgID (outboundMsgs c)).

Definition MQTTPersistence_restorePackets (persistent : bool) (st : rstate) : option (Z * rstate) :=
  let wrapped st : rstate := ((wrap_client (fst (fst st)), snd (fst st)), snd st) in
  if negb persistent then Some (0, wrapped st)
  else
    let '(rc, keys) := pkeys (snd st) in
    if negb (rc =? 0) then Some (rc, wrapped st)
    else
      '(quit, rc, st') ← restore_loop keys st;
      Some (rc, if quit : bool then st' else wrapped st').

Definition MQTTPersistence_initialize (persistent : bool) (clientID serverURI : list Z) (st : rstate)
    : option (Z * rstate) :=
  if persistent then
    let '(rc, s') := popen clientID serverURI (snd st) in
    if rc =? 0 then MQTTPersistence_restorePackets persistent (fst st, s') else Some (rc, (fst st, s'))
  else Some (0, st).

(** The second component is [c->persistence] after. *)
Definition MQTTPersistence_close (persistent : bool) (s : S) : Z * bool * S :=
  if persistent then let '(rc, s') := pclose s in (rc, false, s') else (0, false, s).

Definition MQTTPersistence_clear (persistent : bool) (s : S) : Z * S :=
  if persistent then pclear s else (0, s).
End Persistence.

(** ** Queued messages *)

Record MQTTPersistence_message := mkPMessage {
  struct_version : Z;
  payloadlen : Z;
  payload : list Z;
  m_qos : Z;
  m_retained : Z;
  m_dup : Z;
  m_msgid : Z;
  properties : MQTTProperties
}.

(** [topicName] without its terminator. *)
Record MQTTPersistence_qEntry := mkQEntry {
  q_msg : MQTTPersistence_message;
  topicName : list Z;
  topicLen : Z;
  seqno : Z
}.

(** An [int] in memory, least significant byte first. *)
Definition int_bytes (x : Z) : list Z := [u8 x; u8 (x ≫ 8); u8 (x ≫ 16); u8 (x ≫ 24)].
Definition read_int : reader Z := λ buf pos,
  match peek buf pos, peek buf (pos + 1), peek buf (pos + 2), peek buf (pos + 3) with
  | Some a, Some b, Some c, Some d => Some (s32 (a + b * 2 ^ 8 + c * 2 ^ 16 + d * 2 ^ 24), pos + 4)
  | _, _, _, _ => None
  end.
(** [strlen] and [strcpy] at the cursor, which goes past the terminator. *)
Definition read_string : reader (list Z) := λ buf pos,
  let t := cstr (drop (Z.to_nat pos) buf) in
  if pos + len t <? len buf then Some (t, pos + len t + 1) else None.
Definition read_payload (n : Z) : reader (list Z) := if 0 <=? n then read_bytes n else fault.

(** The unsigned counter is a sequence number below the limit. *)
Definition next_seqno (n : Z) : Z := if u32 (n + 1) =? PERSISTENCE_SEQNO_LIMIT then 0 else u32 (n + 1).

Definition queue_stem (MQTTVersion : Z) : list Z :=
  if MQTTVERSION_5 <=? MQTTVersion then PERSISTENCE_V5_QUEUE_KEY else PERSISTENCE_QUEUE_KEY.
Definition queue_key (MQTTVersion n : Z) : option (list Z) :=
  key_in (PERSISTENCE_MAX_KEY_LENGTH + 1) (queue_stem MQTTVersion) n.

(** The eight buffers every version has; [None] if the payload is shorter than
    its length says. *)
Definition entry_bufs (qe : MQTTPersistence_qEntry) : option (list (list Z)) :=
  let m := q_msg qe in
  if (0 <=? payloadlen m) && (payloadlen m <=? len (payload m)) then
    Some [int_bytes (payloadlen m); take (Z.to_nat (payloadlen m)) (payload m); int_bytes (m_qos m);
          int_bytes (m_retained m); int_bytes (m_dup m); int_bytes (m_msgid m); cstr (topicName qe) ++ [0];
          int_bytes (topicLen qe)]
  else None.

Definition with_seqno (qe : MQTTPersistence_qEntry) (n : Z) : MQTTPersistence_qEntry :=
  mkQEntry (q_msg qe) (topicName qe) (topicLen qe) n.

Definition entry_props (qe : MQTTPersistence_qEntry) : MQTTProperties :=
  if 1 <=? struct_version (q_msg qe) then properties (q_msg qe) else MQTTProperties_initializer.

Section Queue.
Context {S : Type} `{!Store S}.
Context (beforeWrite : option (list (list Z) → Z * list (list Z))).
Context (afterRead : option (list Z → Z * list Z)).
(** [c->MQTTVersion]. *)
Context (version : Z).

Definition MQTTPersistence_unpersistQueueEntry (qe : MQTTPersistence_qEntry) (s : S) : option (Z * S) :=
  key ← queue_key version (seqno qe);
  Some (premove key s).

(** The return code and the additional buffer of an MQTT 5 client: the bytes
    written fill the [temp_len] bytes allocated, or run past them. *)
Definition props_buf (ps : MQTTProperties) : option (Z * list (list Z)) :=
  '(b, rc) ← MQTTProperties_write (Some ps);
  if len b =? MQTTProperties_len (Some ps) then Some (rc, [b]) else None.

(** [mem] is whether the buffer of the properties can be allocated.  The result:
    return code, the client's sequence number, the entry and the store. *)
Definition MQTTPersistence_persistQueueEntry (mem : bool) (qe : MQTTPersistence_qEntry) (qentry_seqno : Z) (s : S)
    : option (Z * Z * MQTTPersistence_qEntry * S) :=
  bufs ← entry_bufs qe;
  let n := next_seqno qentry_seqno in
  let v5 := MQTTVERSION_5 <=? version in
  if v5 && negb mem then Some (PAHO_MEMORY_ERROR, n, qe, s)
  else
    '(rc, more) ← (if v5 then props_buf (entry_props qe) else Some (0, []));
    key ← queue_key version n;
    let bufs := bufs ++ more in
    let '(rc, bufs) := match beforeWrite with Some f => f bufs | None => (rc, bufs) end in
    let '(rc, s') := if rc =? 0 then pput key bufs s else (rc, s) in
    Some (rc, n, with_seqno qe n, s').

(** The result of reading the properties is only logged. *)
Definition entry_reader (buflen MQTTVersion : Z) : reader MQTTPersistence_qEntry :=
  plen ← read_int;
  data ← read_payload plen;
  q ← read_int;
  retained ← read_int;
  dup ← read_int;
  id ← read_int;
  topic ← read_string;
  tlen ← read_int;
  ps ← (if MQTTVERSION_5 <=? MQTTVersion
        then r ← MQTTProperties_read MQTTProperties_initializer buflen; mret (snd r)
        else mret MQTTProperties_initializer);
  mret (mkQEntry (mkPMessage 1 plen data q retained dup id ps) topic tlen 0).

Definition MQTTPersistence_restoreQueueEntry (buffer : list Z) (MQTTVersion : Z) : option MQTTPersistence_qEntry :=
  fst <$> entry_reader (len buffer) MQTTVersion buffer 0.

Fixpoint MQTTPersistence_insertInSeqOrder (qe : MQTTPersistence_qEntry) (l : list MQTTPersistence_qEntry)
    : list MQTTPersistence_qEntry :=
  match l with
  | [] => [qe]
  | x :: l' => if seqno qe <? seqno x then qe :: l else x :: MQTTPersistence_insertInSeqOrder qe l'
  end.

(** [atoi(strchr(msgkeys[i], '-') + 1)] as the unsigned sequence number. *)
Definition key_seqno (key : list Z) : option Z :=
  '(_, rest) ← strchr key 45; Some (u32 (atoi (drop 1 rest))).

Definition is_queue_key (key : list Z) : bool :=
  starts_with PERSISTENCE_QUEUE_KEY key || starts_with PERSISTENCE_V5_QUEUE_KEY key.

(** [c->messageQueue] and [c->qentry_seqno]. *)
Definition queue_state : Type := list MQTTPersistence_qEntry * Z.

Definition restore_entry (key buffer : list Z) (q : queue_state) : option queue_state :=
  qe ← MQTTPersistence_restoreQueueEntry buffer
         (if starts_with PERSISTENCE_V5_QUEUE_KEY key then MQTTVERSION_5 else MQTTVERSION_3_1_1);
  n ← key_seqno key;
  Some (MQTTPersistence_insertInSeqOrder (with_seqno qe n) (fst q), Z.max (snd q) n).

Fixpoint restore_queue_loop (keys : list (list Z)) (q : queue_state) (s : S) : option (Z * queue_state) :=
  match keys with
  | [] => Some (0, q)
  | key :: keys' =>
      if negb (is_queue_key key) then restore_queue_loop keys' q s
      else
        let '(rc, buffer) := after_read afterRead (pget key s) in
        if rc =? 0 then q' ← restore_entry key buffer q; restore_queue_loop keys' q' s
        else Some (rc, q)
  end.

Definition MQTTPersistence_restoreMessageQueue (persistent : bool) (q : queue_state) (s : S) : option (Z * queue_state) :=
  if negb persistent then Some (0, q)
  else
    let '(rc, keys) := pkeys s in
    if negb (rc =? 0) then Some (rc, q) else restore_queue_loop keys q s.
End Queue.

(** ** A store in memory

    The simplest implementation of the contract, for which no operation fails. *)

Abbreviation mem_store := (gmap (list Z) (list Z)).

#[export] Instance mem_ops : Store mem_store := {
  popen _ _ s := (0, s);
  pclose s := (0, s);
  pput k bufs s := (0, <[k := concat bufs]> s);
  pget k s := match s !! k with Some d => (0, d) | None => (MQTTCLIENT_PERSISTENCE_ERROR, []) end;
  premove k s := (0, delete k s);
  pkeys s := (0, (map_to_list s).*1);
  pclear s := (0, ∅);
  pcontainskey k s := if decide (is_Some (s !! k)) then 0 else MQTTCLIENT_PERSISTENCE_ERROR
}.

#[export] Program Instance mem_laws : StoreLaws mem_store := { contents := id; store_ok _ := True }.
Next Obligation. intros. split; [done|by left]. Qed.
Next Obligation. intros k s d _ _ H. simpl in H. unfold id, MQTTCLIENT_PERSISTENCE_ERROR in *. destruct (s !! k); congruence. Qed.
Next Obligation. intros. split; [done|by left]. Qed.
Next Obligation.
  intros s l _ [= <-]. split; [apply NoDup_fst_map_to_list|]. intros k. unfold id.
  rewrite list_elem_of_fmap. split.
  - intros ([k' d] & -> & Hin%elem_of_map_to_list). by exists d.
  - intros [d Hd]. exists (k, d). split; [done|]. by apply elem_of_map_to_list.
Qed.
Next Obligation. intros k s _ _. cbn. unfold id. by case_decide. Qed.

End Persistence.
