(* ===== verification/PersistenceSpec.v ===== *)
(** * Correctness of the persistence

    A journal is what the store should hold for the messages in flight: one
    entry per record.  The packet layer writes the entries, a restart rebuilds
    the client from them, an acknowledgement removes them.  Everything is
    proved for any store that keeps the contract ([StoreLaws]). *)
From Stdlib Require Import Sorting.Sorted.
From S2P Require Import Prelude Libc PacketCodec Props Packets SocketIO Protocol Persistence.

Module PersistenceSpec.
Import Libc Codecs Properties Packets Protocol Persistence.

(** ** Keys *)

Lemma key_in_fits size stem n k :
  0 ≤ n < 10 ^ Z.of_nat k → (0 < k ≤ 20)%nat → len stem + Z.of_nat k < size →
  key_in size stem n = Some (stem ++ dec n).
Proof.
  intros Hn Hk Hs. unfold key_in. pose proof (dec_length_le k n Hn Hk).
  rewrite (proj2 (Z.ltb_lt _ _)); [done|]. rewrite length_app. lia.
Qed.

Lemma key_in_overflows size stem n k :
  10 ^ Z.of_nat k ≤ n → (k < 20)%nat → size ≤ len stem + Z.of_nat k + 1 → key_in size stem n = None.
Proof.
  intros Hn Hk Hs. unfold key_in. pose proof (dec_length_ge k n Hn Hk).
  rewrite (proj2 (Z.ltb_ge _ _)); [done|]. rewrite length_app. lia.
Qed.

(** The stems end with a dash, which is not a digit: a key determines its stem
    and its number. *)
Definition is_stem (stem : list Z) : Prop := ∃ l, stem = l ++ [45] ∧ 45 ∉ l.

Lemma dec_no_dash n : 0 ≤ n → 45 ∉ dec n.
Proof.
  intros Hn Hin. pose proof (dec_digits n Hn) as H. rewrite Forall_forall in H. specialize (H _ Hin). lia.
Qed.

Lemma split_at_unique {A} (x : A) l1 l2 r1 r2 :
  x ∉ l1 → x ∉ l2 → l1 ++ x :: r1 = l2 ++ x :: r2 → l1 = l2 ∧ r1 = r2.
Proof.
  revert l2. induction l1 as [|a l1 IH]; intros [|b l2] H1 H2 E; cbn [app] in E;
    [by injection E as -> | injection E as E1 E2; subst..].
  - by destruct H2; left.
  - by destruct H1; left.
  - apply not_elem_of_cons in H1 as [_ H1]. apply not_elem_of_cons in H2 as [_ H2].
    by destruct (IH l2 H1 H2 E2) as [-> ->].
Qed.

Lemma stem_key_inj st1 st2 n m :
  is_stem st1 → is_stem st2 → 0 ≤ n < 10 ^ 20 → 0 ≤ m < 10 ^ 20 →
  st1 ++ dec n = st2 ++ dec m → st1 = st2 ∧ n = m.
Proof.
  intros (l1 & -> & H1) (l2 & -> & H2) Hn Hm. rewrite <-!app_assoc. cbn [app]. intros E.
  apply split_at_unique in E as [-> E]; [|done|done]. by apply dec_inj in E as ->.
Qed.

Definition ALL_STEMS : list (list Z) :=
  [PERSISTENCE_PUBLISH_SENT; PERSISTENCE_PUBREL; PERSISTENCE_PUBLISH_RECEIVED; PERSISTENCE_V5_PUBLISH_SENT;
   PERSISTENCE_V5_PUBREL; PERSISTENCE_V5_PUBLISH_RECEIVED; PERSISTENCE_COMMAND_KEY; PERSISTENCE_V5_COMMAND_KEY;
   PERSISTENCE_QUEUE_KEY; PERSISTENCE_V5_QUEUE_KEY].

Lemma all_stems stem : stem ∈ ALL_STEMS → is_stem stem.
Proof.
  intros H. assert (Forall (λ s, last s = Some 45 ∧ 45 ∉ take (length s - 1) s) ALL_STEMS) as HF.
  { apply (bool_decide_eq_true_1 _). vm_compute. reflexivity. }
  rewrite Forall_forall in HF. destruct (HF _ H) as [Hl Hn].
  apply last_Some in Hl as [l ->]. exists l. split; [done|].
  by rewrite length_app, Nat.add_sub, take_app_length in Hn.
Qed.

Lemma v_stem_stem v a b : a ∈ ALL_STEMS → b ∈ ALL_STEMS → is_stem (v_stem v a b).
Proof. intros. unfold v_stem. by destruct (_ <=? _); apply all_stems. Qed.

Ltac stem := apply v_stem_stem; apply (bool_decide_eq_true_1 _); vm_compute; reflexivity.

Lemma dec_good n : 0 ≤ n → good_key (dec n).
Proof.
  intros Hn. pose proof (dec_digits n Hn) as H. rewrite Forall_forall in H.
  split; intros Hin; specialize (H _ Hin); lia.
Qed.

Lemma key_good stem n : stem ∈ ALL_STEMS → 0 ≤ n → good_key (stem ++ dec n).
Proof.
  intros Hst Hn. destruct (dec_good n Hn) as [H1 H2].
  assert (Forall good_key ALL_STEMS) as HF by (apply (bool_decide_eq_true_1 _); vm_compute; reflexivity).
  rewrite Forall_forall in HF. destruct (HF _ Hst) as [H3 H4].
  split; rewrite elem_of_app; tauto.
Qed.

Lemma v_stem_good v a b n : a ∈ ALL_STEMS → b ∈ ALL_STEMS → 0 ≤ n → good_key (v_stem v a b ++ dec n).
Proof. intros. unfold v_stem. destruct (_ <=? _); by apply key_good. Qed.

Lemma stems_good id : 0 ≤ id → ∀ stem, stem ∈ SENT_STEMS ++ RECEIVED_STEMS → stem ∈ ALL_STEMS.
Proof.
  intros _. apply Forall_forall. apply (bool_decide_eq_true_1 _). vm_compute. reflexivity.
Qed.

Ltac good := apply v_stem_good; [apply (bool_decide_eq_true_1 _); vm_compute; reflexivity..|unfold is_u16 in *; lia].

(** ** Acknowledged messages *)

Section Remove.
Context {S : Type} `{!Store S, !StoreLaws S}.

Lemma remove_keys_ok stems id rc s :
  rc ≤ 0 → store_ok s → 0 ≤ id → stems ⊆ ALL_STEMS → Forall (λ stem, ∃ k, message_key stem id = Some k) stems →
  ∃ rc' s', remove_keys stems id rc s = Some (rc', s') ∧ rc' ≤ rc ∧ store_ok s' ∧
    (∀ k, k ∉ ((λ stem, stem ++ dec id) <$> stems) → contents s' !! k = contents s !! k) ∧
    (contents s' ⊆ contents s) ∧
    (rc' = 0 → ∀ k, k ∈ ((λ stem, stem ++ dec id) <$> stems) → contents s' !! k = None).
Proof.
  intros Hrc Hok Hid Hsub0 H. revert rc s Hrc Hok Hsub0. induction H as [|stem stems [k Hk] Hstems IH]; intros rc s Hrc Hok Hsub0.
  { exists rc, s. split_and!; [done|done|done|done|done|]. intros _ k Hk. by apply elem_of_nil in Hk. }
  cbn [remove_keys]. rewrite Hk. cbn [mbind option_bind].
  assert (k = stem ++ dec id) as -> by (unfold message_key, key_in in Hk; by destruct (_ <? _); simplify_eq).
  pose proof (remove_rc (stem ++ dec id) s Hok (key_good _ _ (Hsub0 stem ltac:(left)) Hid)) as Hr.
  destruct (premove _ s) as [rc1 s1]. destruct Hr as [Hok1 Hr].
  assert (Hrc1 : rc1 ≤ 0) by (unfold MQTTCLIENT_PERSISTENCE_ERROR in Hr; lia).
  destruct (IH (rc + rc1) s1 ltac:(lia) Hok1) as (rc' & s' & -> & Hle & Hok' & Hne & Hsub & Hin).
  { intros x Hx. apply Hsub0. by right. }
  exists rc', s'. rewrite fmap_cons. split_and!; [done|lia|done| | |].
  - intros k [Hk1 Hk2]%not_elem_of_cons. rewrite Hne by done.
    destruct Hr as [[_ ->]|[_ ->]]; [by rewrite lookup_delete_ne|done].
  - etrans; [exact Hsub|]. destruct Hr as [[_ ->]|[_ ->]]; [apply delete_subseteq|done].
  - intros H0 k [->|Hk2]%elem_of_cons; [|by apply Hin].
    destruct Hr as [[_ E]|[-> _]]; [|unfold MQTTCLIENT_PERSISTENCE_ERROR in *; lia].
    eapply lookup_weaken_None; [|exact Hsub]. by rewrite E, lookup_delete_eq.
Qed.

Definition is_sent_type (type : list Z) : Prop :=
  type = PERSISTENCE_PUBLISH_SENT ∨ type = PERSISTENCE_V5_PUBLISH_SENT.

Definition stems_of (type : list Z) : list (list Z) :=
  if decide (type = PERSISTENCE_PUBLISH_SENT ∨ type = PERSISTENCE_V5_PUBLISH_SENT) then SENT_STEMS else RECEIVED_STEMS.

Lemma stems_of_all type : stems_of type ⊆ ALL_STEMS.
Proof.
  intros stem Hst. apply (stems_good 0); [done|]. apply elem_of_app. unfold stems_of in Hst.
  destruct (decide _); [by left|by right].
Qed.

Lemma remove_unfold type qos id s :
  MQTTPersistence_remove true true type qos id s = remove_keys (stems_of type) id 0 s.
Proof.
  unfold MQTTPersistence_remove, stems_of. cbn [negb].
  destruct (decide (_ ∨ _)) as [[->| ->]|Hn]; [done|done|].
  rewrite !bool_decide_eq_false_2 by tauto. done.
Qed.

Lemma message_keys_ok type id :
  0 ≤ id < 65536 → (is_sent_type type → id < 10000) →
  Forall (λ stem, ∃ k, message_key stem id = Some k) (stems_of type).
Proof.
  intros Hid Hs. unfold stems_of.
  destruct (decide _) as [Ht|Ht]; repeat constructor; eexists.
  all: first [apply (key_in_fits _ _ _ 4); [specialize (Hs Ht); lia|lia|reflexivity]
             |apply (key_in_fits _ _ _ 5); [lia|lia|reflexivity]].
Qed.

(** The removal of an acknowledged message deletes the records of its
    direction under its identifier, in both formats, and no other: they are all
    gone if the return code is zero.  For a message sent this is so for the
    identifiers below 10000: from there on the key of the MQTT 5 PUBREL,
    [sc5-] and five digits, does not fit the nine bytes allocated for it. *)
Theorem remove_records type qos id s :
  store_ok s → 0 ≤ id < 65536 →
  let res := MQTTPersistence_remove true true type qos id s in
  let ks := (λ stem, stem ++ dec id) <$> stems_of type in
  (is_sent_type type → 10000 ≤ id → res = None) ∧
  ((is_sent_type type → id < 10000) →
   ∃ rc s', res = Some (rc, s') ∧ contents s' ⊆ contents s ∧
     (∀ k, k ∉ ks → contents s' !! k = contents s !! k) ∧
     (rc = 0 → ∀ k, k ∈ ks → contents s' !! k = None)).
Proof.
  intros Hok Hid res ks. unfold res. rewrite remove_unfold. split.
  - intros Ht Hge. unfold stems_of. rewrite decide_True by exact Ht. unfold SENT_STEMS. cbn [remove_keys].
    unfold message_key. rewrite (key_in_fits _ PERSISTENCE_V5_PUBLISH_SENT id 5) by (lia || reflexivity).
    cbn [mbind option_bind]. destruct (premove _ s) as [rc1 s1].
    by rewrite (key_in_overflows _ PERSISTENCE_V5_PUBREL id 4) by (lia || done).
  - intros Hs. destruct (remove_keys_ok (stems_of type) id 0 s) as (rc & s' & E & _ & _ & H1 & H2 & H3);
      [done|done|lia|apply stems_of_all|by apply message_keys_ok|]. by exists rc, s'.
Qed.
End Remove.

Lemma remove_records_witness :
  MQTTPersistence_remove true true PERSISTENCE_PUBLISH_SENT 2 65535 (∅ : mem_store) = None ∧
  ∃ rc s', MQTTPersistence_remove true true PERSISTENCE_PUBLISH_SENT 2 7
             ({[ bs "s-7" := [1]; bs "s-8" := [2] ]} : mem_store) = Some (rc, s') ∧
    s' !! bs "s-8" = Some [2].
Proof.
  split.
  - apply (remove_records PERSISTENCE_PUBLISH_SENT 2 65535 (∅ : mem_store)); [done|lia|by left|lia].
  - destruct (remove_records PERSISTENCE_PUBLISH_SENT 2 7 ({[ bs "s-7" := [1]; bs "s-8" := [2] ]} : mem_store))
      as [_ H]; [done|lia|].
    destruct (H ltac:(lia)) as (rc & s' & E & _ & Hne & _). exists rc, s'. split; [exact E|].
    etrans; [apply Hne|vm_compute; reflexivity]. apply (bool_decide_eq_true_1 _). vm_compute. reflexivity.
Defined.

(** ** Records and packets *)

Lemma length_loop_encode k : ∀ fuel n post mult rl fl,
  (k ≤ fuel)%nat → (0 < k)%nat → 0 ≤ n < 128 ^ Z.of_nat k → 0 ≤ rl → 0 < mult →
  mult * 128 ^ Z.of_nat k < 2 ^ 31 → rl + n * mult < 2 ^ 31 →
  length_loop (encode_loop fuel n ++ post) mult rl fl =
    Some (post, fl + len (encode_loop fuel n), rl + n * mult).
Proof.
  induction k as [|k IH]; intros fuel n post mult rl fl Hf Hk Hn Hrl Hm Hmb Hb; [lia|].
  destruct fuel as [|fuel]; [lia|]. cbn [encode_loop].
  rewrite Nat2Z.inj_succ, Z.pow_succ_r in Hn, Hmb by lia.
  assert (Hpk : 1 ≤ 128 ^ Z.of_nat k) by (pose proof (Z.pow_pos_nonneg 128 (Z.of_nat k)); lia).
  assert (Hdm : n = 128 * (n / 128) + n mod 128) by (apply Z.div_mod; lia).
  assert (Hd : 0 ≤ n mod 128 < 128) by (apply Z.mod_pos_bound; lia).
  assert (Hsum : n mod 128 * mult + n / 128 * (mult * 128) = n * mult) by (rewrite Hdm at 3; ring).
  assert (H0 : 0 ≤ n / 128) by (apply Z.div_pos; lia).
  assert (0 ≤ n mod 128 * mult ∧ 0 ≤ n / 128 * (mult * 128)) by (split; apply Z.mul_nonneg_nonneg; lia).
  assert (mult * 128 * 1 ≤ mult * (128 * 128 ^ Z.of_nat k)) by nia.
  destruct (Z.ltb_spec 0 (n / 128)) as [Hq|Hq].
  - destruct (digit_more (n mod 128) Hd) as (_ & Hland & Hbit). cbn [app length_loop].
    rewrite Hland, Hbit, !(proj2 (Z.leb_gt _ _)) by lia. cbn [orb].
    assert (Hk' : (0 < k)%nat) by (destruct k; [change (128 ^ Z.of_nat 0) with 1 in *; lia|lia]).
    rewrite IH; [|lia|lia| |lia|lia|rewrite <-Z.mul_assoc; lia|lia].
    + cbn [length]. do 2 f_equal; [f_equal|]; lia.
    + split; [lia|]. apply Z.div_lt_upper_bound; lia.
  - destruct (digit_last (n mod 128) Hd) as (Hland & Hbit). cbn [app length_loop].
    assert (n / 128 = 0) as Hz by lia. rewrite Hz in *.
    rewrite Hland, Hbit, !(proj2 (Z.leb_gt _ _)) by lia. cbn [orb length]. apply (f_equal Some), pair_eq. split; [apply pair_eq; split; [done|]|]; lia.
Qed.

(** A record that is a header and a body is read as that packet. *)
Lemma restorePacket_body v hb body f :
  CONNECT ≤ h_type (header_of_byte hb) ≤ DISCONNECT →
  new_packets (h_type (header_of_byte hb)) = Some f → len body < 2 ^ 28 →
  MQTTPersistence_restorePacket v (hb :: MQTTPacket_encode (len body) ++ body) = f v hb body.
Proof.
  intros Ht Hf Hl. unfold MQTTPersistence_restorePacket, MQTTPacket_encode.
  rewrite (length_loop_encode 4) by (simpl; lia). cbn [mbind option_bind].
  rewrite (proj2 (Z.eqb_eq _ _)).
  - rewrite !(proj2 (Z.leb_le _ _)) by lia. cbn [andb]. by rewrite Hf.
  - cbn [length]. rewrite length_app. lia.
Qed.

Lemma send_publish_body pack dup q r :
  cstring_ok (pb_topic pack) → pb_payloadlen pack = len (pb_payload pack) →
  MQTTPacket_send_publish pack dup q r =
    let body := publish_body (pb_MQTTVersion pack) (pb_topic pack) q (pb_msgId pack) (pb_properties pack) (pb_payload pack) in
    header_byte (mkHeader PUBLISH dup q r) :: MQTTPacket_encode (len body) ++ body.
Proof.
  intros Hc Hpl. unfold MQTTPacket_send_publish, MQTTPacket_sends, fixed_header, publish_buffer, publish_body, writeUTF.
  cbn [snd]. rewrite Hpl, Nat2Z.id, firstn_all, (cstr_ok _ Hc). unfold MQTTVERSION_5.
  destruct (0 <? q), (5 <=? pb_MQTTVersion pack); cbn [orb concat app]; by rewrite ?app_nil_r, <-?app_assoc.
Qed.

(** ** The journal *)

Inductive entry :=
  | Sent (p : Publish) (dup q r : Z)
  | Rel (id : Z)
  | Received (p : Publish) (dup r : Z).

Section Journal.
(** The version of the client. *)
Context (v : Z).

Definition sent_key (id : Z) : list Z := v_stem v PERSISTENCE_V5_PUBLISH_SENT PERSISTENCE_PUBLISH_SENT ++ dec id.
Definition rel_key (id : Z) : list Z := v_stem v PERSISTENCE_V5_PUBREL PERSISTENCE_PUBREL ++ dec id.
Definition received_key (id : Z) : list Z :=
  v_stem v PERSISTENCE_V5_PUBLISH_RECEIVED PERSISTENCE_PUBLISH_RECEIVED ++ dec id.

Definition entry_key (e : entry) : list Z :=
  match e with
  | Sent p _ _ _ => sent_key (pb_msgId p)
  | Rel id => rel_key id
  | Received p _ _ => received_key (pb_msgId p)
  end.

Definition entry_bytes (e : entry) : list Z :=
  match e with
  | Sent p dup q r => MQTTPacket_send_publish p dup q r
  | Rel id => MQTTPacket_send_ack PUBREL id 0
  | Received p dup r => MQTTPacket_send_publish p dup 2 r
  end.

(** A message the client can send: its record is read again. *)
Record message_ok (p : Publish) (dup q r : Z) : Prop := {
  mo_version : pb_MQTTVersion p = v;
  mo_header : header_ok (mkHeader PUBLISH dup q r);
  mo_topic : cstring_ok (pb_topic p) ∧ short_bytes (pb_topic p);
  mo_id : is_u16 (pb_msgId p);
  mo_props : MQTTVERSION_5 ≤ v → props_sendable (pb_properties p);
  mo_payload : pb_payloadlen p = len (pb_payload p);
  mo_len : len (publish_body v (pb_topic p) q (pb_msgId p) (pb_properties p) (pb_payload p)) < 2 ^ 28
}.

(** The identifiers of an MQTT 5 client stop where the key array does. *)
Definition entry_ok (e : entry) : Prop :=
  match e with
  | Sent p dup q r => message_ok p dup q r ∧ (q = 1 ∨ q = 2) ∧ (MQTTVERSION_5 ≤ v → pb_msgId p < 10000)
  | Rel id => is_u16 id
  | Received p dup r => message_ok p dup 2 r
  end.

Definition data_version : Z := if MQTTVERSION_5 <=? v then MQTTVERSION_5 else MQTTVERSION_3_1_1.

Lemma data_version_5 : (MQTTVERSION_5 <=? data_version) = (MQTTVERSION_5 <=? v).
Proof. unfold data_version. by destruct (MQTTVERSION_5 <=? v). Qed.

Lemma restore_publish p dup q r :
  message_ok p dup q r → 0 < q →
  MQTTPersistence_restorePacket data_version (MQTTPacket_send_publish p dup q r) =
    Some (Some (PPublish (mkPublish (mkHeader PUBLISH dup q r) (pb_topic p) (len (pb_topic p)) (pb_msgId p)
      (pb_payload p) (len (pb_payload p)) data_version
      (if MQTTVERSION_5 <=? v then pb_properties p else MQTTProperties_initializer)))).
Proof.
  intros [Hv Hh [Hc Hs] Hid Hps Hpl Hl] Hq. rewrite send_publish_body by done. cbn zeta. rewrite Hv.
  set (h := mkHeader PUBLISH dup q r) in *.
  rewrite (restorePacket_body _ _ _ (as_packet PPublish MQTTPacket_publish)).
  - assert (Hb : publish_body v (pb_topic p) q (pb_msgId p) (pb_properties p) (pb_payload p) =
      publish_body data_version (pb_topic p) (h_qos h) (pb_msgId p) (pb_properties p) (pb_payload p)).
    { unfold publish_body. by rewrite data_version_5. }
    rewrite Hb. unfold as_packet. rewrite publish_reader_ok; try done.
    + rewrite data_version_5. cbn [h_qos h]. rewrite (proj2 (Z.ltb_lt 0 q)) by done. done.
    + intros Hd. apply Hps. unfold data_version in Hd. destruct (Z.leb_spec MQTTVERSION_5 v); [done|].
      unfold MQTTVERSION_5, MQTTVERSION_3_1_1 in *. lia.
    + revert Hl. unfold publish_body. rewrite !length_app. lia.
  - rewrite header_byte_of by done. cbn. unfold CONNECT, DISCONNECT, PUBLISH. lia.
  - by rewrite header_byte_of by done.
  - done.
Qed.

Lemma restore_pubrel id :
  is_u16 id → ∃ a, MQTTPersistence_restorePacket data_version (MQTTPacket_send_ack PUBREL id 0) = Some (Some (PAck a)) ∧
    ack_msgId a = Some id.
Proof.
  intros Hid. unfold MQTTPacket_send_ack, MQTTPacket_send, fixed_header.
  change (PUBREL =? PUBREL) with true. cbn [app].
  rewrite (restorePacket_body _ _ _ (as_packet PAck MQTTPacket_ack)) by done.
  rewrite writeInt_u16 by done. unfold as_packet, MQTTPacket_ack, run_parser, ack_reader.
  set (h := header_of_byte _).
  assert (Hh : h = mkHeader PUBREL 0 1 0) by (vm_compute; reflexivity). rewrite Hh.
  unfold data_version. destruct (MQTTVERSION_5 <=? v).
  all: eexists; split; [reflexivity|].
  all: cbn [ack_msgId]; f_equal; symmetry; by apply Z.div_mod.
Qed.

(** ** Keys of the journal *)

Lemma entry_key_id e : entry_ok e → ∃ stem id, entry_key e = stem ++ dec id ∧ 0 ≤ id < 65536 ∧
  stem = match e with
         | Sent _ _ _ _ => v_stem v PERSISTENCE_V5_PUBLISH_SENT PERSISTENCE_PUBLISH_SENT
         | Rel _ => v_stem v PERSISTENCE_V5_PUBREL PERSISTENCE_PUBREL
         | Received _ _ _ => v_stem v PERSISTENCE_V5_PUBLISH_RECEIVED PERSISTENCE_PUBLISH_RECEIVED
         end.
Proof.
  destruct e; intros H; do 2 eexists; (split; [reflexivity|]); (split; [|reflexivity]).
  - destruct H as [H _]. exact (mo_id _ _ _ _ H).
  - exact H.
  - exact (mo_id _ _ _ _ H).
Qed.

Lemma entry_key_not_other e : other_key (entry_key e) = false.
Proof.
  destruct e; cbn [entry_key]; unfold sent_key, rel_key, received_key, v_stem; by destruct (_ <=? _).
Qed.

Lemma entry_record_version e : record_version (entry_key e) =
  (data_version, match e with
                 | Sent p _ _ _ => if MQTTVERSION_5 <=? v then PERSISTENCE_PUBLISH_SENT else sent_key (pb_msgId p)
                 | Rel id => if MQTTVERSION_5 <=? v then PERSISTENCE_PUBREL else rel_key id
                 | Received p _ _ => if MQTTVERSION_5 <=? v then PERSISTENCE_PUBLISH_RECEIVED else received_key (pb_msgId p)
                 end).
Proof.
  destruct e; cbn [entry_key]; unfold sent_key, rel_key, received_key, v_stem, data_version; by destruct (_ <=? _).
Qed.

Lemma sent_rel_ne id1 id2 : 0 ≤ id1 < 65536 → 0 ≤ id2 < 65536 → sent_key id1 ≠ rel_key id2.
Proof.
  intros H1 H2 E. apply stem_key_inj in E as [E _]; [|stem|stem|lia|lia].
  revert E. unfold v_stem. by destruct (_ <=? _).
Qed.

Lemma received_rel_ne id1 id2 : 0 ≤ id1 < 65536 → 0 ≤ id2 < 65536 → received_key id1 ≠ rel_key id2.
Proof.
  intros H1 H2 E. apply stem_key_inj in E as [E _]; [|stem|stem|lia|lia].
  revert E. unfold v_stem. by destruct (_ <=? _).
Qed.

Lemma entry_key_good e : entry_ok e → good_key (entry_key e).
Proof.
  intros Hok. assert (Hid : ∃ id, 0 ≤ id ∧ (entry_key e = sent_key id ∨ entry_key e = rel_key id ∨ entry_key e = received_key id)).
  { destruct e as [p ? ? ?|id|p ? ?]; cbn in *.
    - exists (pb_msgId p). split; [apply (mo_id _ _ _ _ (proj1 Hok))|auto].
    - exists id. split; [apply Hok|auto].
    - exists (pb_msgId p). split; [apply (mo_id _ _ _ _ Hok)|auto]. }
  destruct Hid as (id & Hid & [-> |[-> | ->]]); good.
Qed.

(** ** What a restart should find *)

(** A message with its publication in place of the address. *)
Definition view (pubs : gmap positive Publications) (m : Messages) : Messages * option Publications :=
  (mkMessage (qos m) (retain m) (msgid m) (m_MQTTVersion m) (m_properties m) None (lastTouch m) (nextMessageType m),
   publish m ≫= λ i, pubs !! i).

Definition restored_props (p : Publish) : MQTTProperties :=
  if MQTTVERSION_5 <=? v then pb_properties p else MQTTProperties_initializer.
Definition restored_publication (p : Publish) : Publications :=
  mkPublications (pb_topic p) (len (pb_topic p)) (pb_payload p) (len (pb_payload p)) 1.
(** For MQTT 5 the message was delivered when it was received. *)
Definition blanked_publication (p : Publish) : Publications :=
  mkPublications [] (len (pb_topic p)) [] (len (pb_payload p)) 1.

Definition sent_view (J : gmap (list Z) entry) (e : entry) : option (Messages * option Publications) :=
  match e with
  | Sent p dup q r =>
      Some (mkMessage q r (pb_msgId p) v (restored_props p) None 0
              (if decide (is_Some (J !! rel_key (pb_msgId p))) then PUBCOMP else if q =? 2 then PUBREC else 0),
            Some (restored_publication p))
  | _ => None
  end.

Definition received_view (now : Z) (e : entry) : option (Messages * option Publications) :=
  match e with
  | Received p dup r =>
      Some (mkMessage 2 r (pb_msgId p) v (restored_props p) None now PUBREL,
            Some (if MQTTVERSION_5 <=? v then blanked_publication p else restored_publication p))
  | _ => None
  end.

(** A PUBREL without the message it belongs to. *)
Definition orphan (J : gmap (list Z) entry) (k : list Z) : bool :=
  match J !! k with
  | Some (Rel id) => bool_decide (J !! sent_key id = None)
  | _ => false
  end.

End Journal.

(** ** Restoring the journal *)

Definition by_id (a b : Messages) : Prop := msgid a ≤ msgid b.

Lemma insertInOrder_perm m l : MQTTPersistence_insertInOrder m l ≡ₚ m :: l.
Proof.
  induction l as [|x l IH]; [done|]. cbn [MQTTPersistence_insertInOrder]. destruct (_ <? _); [done|].
  rewrite IH. apply Permutation_swap.
Qed.

Lemma insertInOrder_sorted m l : StronglySorted by_id l → StronglySorted by_id (MQTTPersistence_insertInOrder m l).
Proof.
  induction 1 as [|x l Hl IH Hx]; cbn [MQTTPersistence_insertInOrder]; [by repeat constructor|].
  destruct (Z.ltb_spec (msgid m) (msgid x)) as [Hlt|Hge].
  - constructor; [by constructor|]. constructor; [unfold by_id; lia|].
    eapply Forall_impl; [exact Hx|]. unfold by_id. intros y Hy. lia.
  - constructor; [done|]. rewrite insertInOrder_perm. constructor; [exact Hge|exact Hx].
Qed.

Lemma view_fresh pubs i pub m :
  is_Some (publish m ≫= λ j, pubs !! j) → pubs !! i = None → view (<[i := pub]> pubs) m = view pubs m.
Proof.
  unfold view. intros [x Hx] Hi. f_equal. destruct (publish m) as [j|]; [|done]. cbn [mbind option_bind] in *.
  rewrite lookup_insert_ne; [done|]. intros ->. congruence.
Qed.

Lemma views_fresh pubs i pub l :
  Forall (λ m, is_Some (publish m ≫= λ j, pubs !! j)) l → pubs !! i = None →
  view (<[i := pub]> pubs) <$> l = view pubs <$> l.
Proof.
  intros Hl Hi. apply list_fmap_ext. intros n m Hm. apply view_fresh; [|done].
  exact (Forall_lookup_1 _ _ _ _ Hl Hm).
Qed.

Lemma owned_fresh (pubs : gmap positive Publications) i pub l :
  Forall (λ m, is_Some (publish m ≫= λ j, pubs !! j)) l →
  Forall (λ m, is_Some (publish m ≫= λ j, <[i := pub]> pubs !! j)) l.
Proof.
  intros H. eapply Forall_impl; [exact H|]. intros m [x Hx]. destruct (publish m) as [j|]; [|done].
  cbn [mbind option_bind] in *. destruct (decide (i = j)) as [->|]; [rewrite lookup_insert_eq|rewrite lookup_insert_ne by done]; eauto.
Qed.

Lemma fresh_pubs (pubs : gmap positive Publications) : pubs !! fresh (dom pubs) = None.
Proof. apply not_elem_of_dom, is_fresh. Qed.

Section Restore.
Context {S T : Type} `{!Store S, !StoreLaws S, !Transport T}.
Context (afterRead : option (list Z → Z * list Z)) (now v : Z).
Abbreviation st_client st := (fst (fst st)).
Abbreviation st_shared st := (snd (fst st)).
Abbreviation st_pubs st := (publications (snd (fst st))).

(** The store holds the journal, and besides only records of the other kinds;
    [afterRead] undoes what was done to the data before they were written. *)
Definition stored (J : gmap (list Z) entry) (s : S) : Prop :=
  store_ok s ∧
  (∀ k, is_Some (contents s !! k) → other_key k = true ∨ is_Some (J !! k)) ∧
  (∀ k e, J !! k = Some e → k = entry_key v e ∧ entry_ok v e ∧
     ∃ d, contents s !! k = Some d ∧ after_read afterRead (0, d) = (0, entry_bytes e)).

Lemma stored_key J s k e : stored J s → J !! k = Some e → k = entry_key v e ∧ entry_ok v e.
Proof. intros (_ & _ & H) Hk. by destruct (H k e Hk) as (? & ? & _). Qed.

(** The presence of a record of the journal, as the store answers it. *)
Lemma stored_contains J s e : stored J s →
  is_Some (contents s !! entry_key v e) ↔ is_Some (J !! entry_key v e).
Proof.
  intros (_ & H1 & H2). split; intros H.
  - destruct (H1 _ H) as [Ho|Ho]; [|done]. by rewrite entry_key_not_other in Ho.
  - destruct H as [e' He]. destruct (H2 _ _ He) as (_ & _ & d & -> & _). by exists d.
Qed.

Record restoring (J : gmap (list Z) entry) (s0 : S) (pubs0 : gmap positive Publications) (seen : list (list Z))
    (st : rstate (S := S) (T := T)) : Prop := {
  ri_sorted : StronglySorted by_id (outboundMsgs (st_client st));
  ri_out : view (st_pubs st) <$> outboundMsgs (st_client st) ≡ₚ omap (λ k, J !! k ≫= sent_view v J) seen;
  ri_in : view (st_pubs st) <$> inboundMsgs (st_client st) = omap (λ k, J !! k ≫= received_view v now) seen;
  ri_owned : Forall (λ m, is_Some (publish m ≫= λ i, st_pubs st !! i))
               (outboundMsgs (st_client st) ++ inboundMsgs (st_client st));
  ri_pubs : pubs0 ⊆ st_pubs st;
  ri_ok : store_ok (snd st);
  ri_store : ∀ k, contents (snd st) !! k =
    if bool_decide (k ∈ seen) && orphan v J k then None else contents s0 !! k
}.

(** A key that adds nothing. *)
Lemma restoring_skip J s0 pubs0 seen k st :
  restoring J s0 pubs0 seen st → (∀ e, J !! k = Some e → sent_view v J e = None ∧ received_view v now e = None) →
  orphan v J k = false → restoring J s0 pubs0 (seen ++ [k]) st.
Proof.
  intros [H1 H2 H3 H4 H5 Hok H6] Hk Ho.
  assert (Hs : omap (λ k, J !! k ≫= sent_view v J) [k] = []).
  { cbn. destruct (J !! k) as [e|] eqn:E; [|done]. cbn. by rewrite (proj1 (Hk e eq_refl)). }
  assert (Hr : omap (λ k, J !! k ≫= received_view v now) [k] = []).
  { cbn. destruct (J !! k) as [e|] eqn:E; [|done]. cbn. by rewrite (proj2 (Hk e eq_refl)). }
  split; [done| | |done|done|done|].
  - by rewrite omap_app, Hs, app_nil_r.
  - by rewrite omap_app, Hr, app_nil_r.
  - intros k'. rewrite H6. destruct (decide (k' = k)) as [->|Hne].
    + by rewrite Ho, !andb_false_r.
    + replace (bool_decide (k' ∈ seen ++ [k])) with (bool_decide (k' ∈ seen)); [done|].
      apply bool_decide_ext. set_solver.
Qed.

(** The publication and the message of a restored PUBLISH. *)
Lemma restore_sent_eq (p : Publish) (rel : bool) (c : Clients) (sh : shared (T := T)) :
  let i := fresh (dom (publications sh)) in
  let m := mkMessage (h_qos (pb_header p)) (h_retain (pb_header p)) (pb_msgId p) v
             (if 5 <=? v then pb_properties p else MQTTProperties_initializer) (Some i) 0
             (if rel then PUBCOMP else if h_qos (pb_header p) =? 2 then PUBREC else 0) in
  restore_sent (T := T) now v p rel (c, sh) =
    Some ((), (with_outbound c (MQTTPersistence_insertInOrder m (outboundMsgs c)),
      mkShared (<[i := mkPublications (pb_topic p) (pb_topiclen p) (pb_payload p) (pb_payloadlen p) 1]> (publications sh))
        (pending_writes sh) (msgs_sent sh) (msgs_received sh) (net sh)), []).
Proof. reflexivity. Qed.

Lemma restore_received_eq (p : Publish) (c : Clients) (sh : shared (T := T)) :
  let i := fresh (dom (publications sh)) in
  let m := mkMessage (h_qos (pb_header p)) (h_retain (pb_header p)) (pb_msgId p) v
             (if 5 <=? v then pb_properties p else MQTTProperties_initializer) (Some i) now PUBREL in
  restore_received (T := T) now v p (c, sh) =
    Some ((), (with_inbound c (inboundMsgs c ++ [m]),
      mkShared (<[i := if MQTTVERSION_5 <=? v then mkPublications [] (pb_topiclen p) [] (pb_payloadlen p) 1
                       else mkPublications (pb_topic p) (pb_topiclen p) (pb_payload p) (pb_payloadlen p) 1]> (publications sh))
        (pending_writes sh) (msgs_sent sh) (msgs_received sh) (net sh)), []).
Proof.
  intros i m. unfold restore_received, create_message, mbind, emitting_bind. cbn.
  do 3 f_equal. f_equal. destruct (MQTTVERSION_5 <=? v); [|done].
  unfold blank_publication. cbn. by rewrite alter_insert_eq.
Qed.
(** One record of each kind. *)
Lemma version_passes : (data_version v =? MQTTVERSION_5) && (v <? MQTTVERSION_5) = false.
Proof. unfold data_version. destruct (Z.leb_spec MQTTVERSION_5 v); [|done]. by rewrite (proj2 (Z.ltb_ge _ _)). Qed.

Lemma rel_message_key id :
  0 ≤ id < 65536 → (MQTTVERSION_5 ≤ v → id < 10000) →
  message_key (v_stem v PERSISTENCE_V5_PUBREL PERSISTENCE_PUBREL) id = Some (rel_key v id).
Proof.
  intros Hid Hv. unfold message_key, rel_key, v_stem. destruct (Z.leb_spec MQTTVERSION_5 v) as [H|H].
  - specialize (Hv H). apply (key_in_fits _ _ _ 4); [lia|lia|reflexivity].
  - apply (key_in_fits _ _ _ 5); [lia|lia|reflexivity].
Qed.

Lemma sent_message_key id :
  0 ≤ id < 65536 →
  message_key (v_stem v PERSISTENCE_V5_PUBLISH_SENT PERSISTENCE_PUBLISH_SENT) id = Some (sent_key v id).
Proof.
  intros Hid. unfold message_key, sent_key, v_stem.
  destruct (MQTTVERSION_5 <=? v); apply (key_in_fits _ _ _ 5); (lia || reflexivity).
Qed.

Lemma rel_key_inj id1 id2 : 0 ≤ id1 < 65536 → 0 ≤ id2 < 65536 → rel_key v id1 = rel_key v id2 → id1 = id2.
Proof. intros H1 H2 E. by apply stem_key_inj in E as [_ ->]; [|stem|stem|lia|lia]. Qed.

Lemma not_orphan_sent J s id e : stored J s → 0 ≤ id < 65536 → J !! sent_key v id = Some e → orphan v J (rel_key v id) = false.
Proof.
  intros HJ Hid He. unfold orphan. destruct (J !! rel_key v id) as [[| id' |]|] eqn:E; try done.
  destruct (stored_key _ _ _ _ HJ E) as [Hk Hok]. apply rel_key_inj in Hk as <-; [|done|exact Hok].
  apply bool_decide_eq_false. by rewrite He.
Qed.

Lemma not_orphan_key J k : (∀ id, J !! k ≠ Some (Rel id)) → orphan v J k = false.
Proof. intros H. unfold orphan. destruct (J !! k) as [[| id |]|] eqn:E; try done. by destruct (H id). Qed.

(** A message whose publication is new joins the sequences; nothing is removed. *)
Lemma restoring_store_same J s0 pubs0 seen k st :
  restoring J s0 pubs0 seen st → (∀ id, J !! k ≠ Some (Rel id)) →
  ∀ k', contents (snd st) !! k' = if bool_decide (k' ∈ seen ++ [k]) && orphan v J k' then None else contents s0 !! k'.
Proof.
  intros Hr Hk k'. rewrite (ri_store _ _ _ _ _ Hr). destruct (decide (k' = k)) as [->|Hne].
  - by rewrite not_orphan_key, !andb_false_r.
  - replace (bool_decide (k' ∈ seen ++ [k])) with (bool_decide (k' ∈ seen)); [done|].
    apply bool_decide_ext. set_solver.
Qed.

Lemma restore_record_sent J s0 pubs0 seen st k p dup q r :
  stored J s0 → J !! k = Some (Sent p dup q r) → restoring J s0 pubs0 seen st →
  ∃ st', restore_record now v k (entry_bytes (Sent p dup q r)) st = Some (false, 0, st') ∧
    restoring J s0 pubs0 (seen ++ [k]) st'.
Proof.
  intros HJ Hk Hr. destruct (stored_key _ _ _ _ HJ Hk) as (Hke & Hm & Hq & Hid5).
  pose proof (mo_id _ _ _ _ _ Hm) as Hid. unfold is_u16 in Hid.
  unfold restore_record. rewrite (f_equal record_version Hke), entry_record_version, version_passes. cbn [entry_bytes].
  rewrite restore_publish by (done || lia). cbn [mbind option_bind].
  assert (Hc : let cur := if MQTTVERSION_5 <=? v then PERSISTENCE_PUBLISH_SENT else sent_key v (pb_msgId p) in
    starts_with PERSISTENCE_PUBLISH_RECEIVED cur = false ∧ starts_with PERSISTENCE_PUBLISH_SENT cur = true).
  { unfold sent_key, v_stem. by destruct (MQTTVERSION_5 <=? v). }
  destruct Hc as [-> ->]. cbn [pb_msgId]. rewrite rel_message_key by done. cbn [mbind option_bind].
  destruct st as [[c sh] s]. cbn [fst snd]. rewrite restore_sent_eq. cbn [mbind option_bind].
  eexists. split; [reflexivity|].
  assert (Hrel : (pcontainskey (rel_key v (pb_msgId p)) s =? 0) = bool_decide (is_Some (J !! rel_key v (pb_msgId p)))).
  { apply eq_true_iff_eq. rewrite Z.eqb_eq, bool_decide_eq_true, contains_rc by (exact (ri_ok _ _ _ _ _ Hr) || good).
    pose proof (ri_store _ _ _ _ _ Hr (rel_key v (pb_msgId p))) as Hs. cbn [snd] in Hs.
    rewrite Hs, (not_orphan_sent J s0 _ (Sent p dup q r)), andb_false_r by (done || by rewrite <-Hk, Hke). by apply (stored_contains J s0 (Rel (pb_msgId p))). }
  pose proof (restoring_store_same J s0 pubs0 seen k (c, sh, s) Hr ltac:(rewrite Hk; done)) as Hstore.
  destruct Hr as [H1 H2 H3 H4 H5 Hsok H6]. cbn [fst snd] in *.
  set (i := fresh _). assert (Hi : publications sh !! i = None) by apply fresh_pubs.
  apply Forall_app in H4 as [H4a H4b].
  assert (Hom : omap (λ k, J !! k ≫= sent_view v J) [k] = [(mkMessage q r (pb_msgId p) v (restored_props v p) None 0
              (if decide (is_Some (J !! rel_key v (pb_msgId p))) then PUBCOMP else if q =? 2 then PUBREC else 0),
            Some (restored_publication p))]).
  { cbn. rewrite Hk. done. }
  split; cbn [fst snd publications with_outbound outboundMsgs inboundMsgs].
  - by apply insertInOrder_sorted.
  - rewrite insertInOrder_perm, fmap_cons, views_fresh by done. rewrite H2, omap_app, Hom, Permutation_app_comm.
    unfold view at 1. cbn. rewrite lookup_insert_eq, Hrel. cbn [app]. apply Permutation_refl'. f_equal.
    unfold restored_props, MQTTVERSION_5. by destruct (5 <=? v), (decide _), (bool_decide_reflect (is_Some (J !! rel_key v (pb_msgId p)))).
  - rewrite views_fresh by done. rewrite H3, omap_app. cbn. rewrite Hk. cbn. by rewrite app_nil_r.
  - apply Forall_app. split; [|by apply owned_fresh]. rewrite insertInOrder_perm. constructor; [|by apply owned_fresh].
    cbn. by rewrite lookup_insert_eq.
  - etrans; [exact H5|by apply insert_subseteq].
  - exact Hsok.
  - exact Hstore.
Qed.

Lemma restore_record_received J s0 pubs0 seen st k p dup r :
  stored J s0 → J !! k = Some (Received p dup r) → restoring J s0 pubs0 seen st →
  ∃ st', restore_record now v k (entry_bytes (Received p dup r)) st = Some (false, 0, st') ∧
    restoring J s0 pubs0 (seen ++ [k]) st'.
Proof.
  intros HJ Hk Hr. destruct (stored_key _ _ _ _ HJ Hk) as (Hke & Hm).
  unfold restore_record. rewrite (f_equal record_version Hke), entry_record_version, version_passes. cbn [entry_bytes].
  rewrite restore_publish by done. cbn [mbind option_bind].
  assert (Hc : starts_with PERSISTENCE_PUBLISH_RECEIVED
    (if MQTTVERSION_5 <=? v then PERSISTENCE_PUBLISH_RECEIVED else received_key v (pb_msgId p)) = true).
  { unfold received_key, v_stem. by destruct (MQTTVERSION_5 <=? v). }
  rewrite Hc. destruct st as [[c sh] s]. cbn [fst snd]. rewrite restore_received_eq. cbn [mbind option_bind].
  eexists. split; [reflexivity|].
  pose proof (restoring_store_same J s0 pubs0 seen k (c, sh, s) Hr ltac:(rewrite Hk; done)) as Hstore.
  destruct Hr as [H1 H2 H3 H4 H5 Hsok H6]. cbn [fst snd] in *.
  set (i := fresh _). assert (Hi : publications sh !! i = None) by apply fresh_pubs.
  apply Forall_app in H4 as [H4a H4b].
  split; cbn [fst snd publications with_inbound outboundMsgs inboundMsgs].
  - exact H1.
  - rewrite views_fresh by done. rewrite H2, omap_app. cbn. rewrite Hk. cbn. by rewrite app_nil_r.
  - rewrite fmap_app, views_fresh by done. rewrite H3, omap_app. f_equal. cbn. rewrite Hk. cbn.
    unfold view. cbn. rewrite lookup_insert_eq. unfold restored_props, MQTTVERSION_5. by destruct (5 <=? v).
  - rewrite !Forall_app. split_and!; [by apply owned_fresh|by apply owned_fresh|].
    repeat constructor. cbn. by rewrite lookup_insert_eq.
  - etrans; [exact H5|by apply insert_subseteq].
  - exact Hsok.
  - exact Hstore.
Qed.

Lemma restore_record_rel J s0 pubs0 seen st k id :
  stored J s0 → J !! k = Some (Rel id) → restoring J s0 pubs0 seen st →
  ∃ rc st', restore_record now v k (entry_bytes (Rel id)) st = Some (false, rc, st') ∧
    (rc = 0 → restoring J s0 pubs0 (seen ++ [k]) st').
Proof.
  intros HJ Hk Hr. destruct (stored_key _ _ _ _ HJ Hk) as (Hke & Hid). cbn [entry_ok] in Hid.
  unfold restore_record. rewrite (f_equal record_version Hke), entry_record_version, version_passes. cbn [entry_bytes].
  destruct (restore_pubrel v id Hid) as (a & -> & Ha). cbn [mbind option_bind].
  assert (Hc : let cur := if MQTTVERSION_5 <=? v then PERSISTENCE_PUBREL else rel_key v id in
    starts_with PERSISTENCE_PUBLISH_RECEIVED cur = false ∧ starts_with PERSISTENCE_PUBLISH_SENT cur = false ∧
    starts_with PERSISTENCE_PUBREL cur = true).
  { unfold rel_key, v_stem. by destruct (MQTTVERSION_5 <=? v). }
  destruct Hc as (-> & -> & ->). rewrite Ha. cbn [mbind option_bind].
  rewrite sent_message_key by exact Hid. cbn [mbind option_bind].
  assert (Hcon : (pcontainskey (sent_key v id) (snd st) =? 0) = negb (orphan v J k)).
  { unfold orphan. rewrite Hk. apply eq_true_iff_eq. rewrite Z.eqb_eq, negb_true_iff, bool_decide_eq_false, contains_rc by (exact (ri_ok _ _ _ _ _ Hr) || good).
    rewrite (ri_store _ _ _ _ _ Hr), not_eq_None_Some.
    assert (Ho : orphan v J (sent_key v id) = false).
    { apply not_orphan_key. intros id' E. destruct (stored_key _ _ _ _ HJ E) as [Hk' Hok].
      exact (sent_rel_ne v id id' Hid Hok Hk'). }
    rewrite Ho, andb_false_r. split.
    - intros [d Hd]. destruct HJ as (_ & HJ & _). destruct (HJ (sent_key v id)) as [Hoth|Hin]; [by exists d| |done].
      exfalso. revert Hoth. unfold sent_key, v_stem. by destruct (MQTTVERSION_5 <=? v).
    - intros [e He]. destruct HJ as (_ & _ & HJ). destruct (HJ _ _ He) as (_ & _ & d & -> & _). by exists d. }
  rewrite Hcon. destruct (orphan v J k) eqn:Ho; cbn [negb].
  - assert (Hgk : good_key k) by (rewrite Hke; cbn [entry_key]; good).
    pose proof (remove_rc k (snd st) (ri_ok _ _ _ _ _ Hr) Hgk) as Hrem. destruct (premove k (snd st)) as [rc s'].
    destruct Hrem as [Hok' Hrem].
    exists rc, (fst st, s'). split; [done|]. intros ->.
    destruct Hrem as [[_ Hs']|[Hbad _]]; [|by unfold MQTTCLIENT_PERSISTENCE_ERROR in Hbad].
    destruct Hr as [H1 H2 H3 H4 H5 Hsok H6]. split; try done.
    + rewrite omap_app. cbn. rewrite Hk. cbn. by rewrite app_nil_r.
    + rewrite omap_app. cbn. rewrite Hk. cbn. by rewrite app_nil_r.
    + intros k'. cbn [snd]. rewrite Hs'. destruct (decide (k' = k)) as [->|Hne].
      * rewrite lookup_delete_eq, Ho, bool_decide_eq_true_2 by set_solver. done.
      * rewrite lookup_delete_ne, H6 by done.
        replace (bool_decide (k' ∈ seen ++ [k])) with (bool_decide (k' ∈ seen)); [done|].
        apply bool_decide_ext. set_solver.
  - exists 0, st. split; [done|]. intros _. apply restoring_skip; [done| |done].
    intros e E. rewrite Hk in E. by injection E as <-.
Qed.

Lemma restore_loop_ok J s0 pubs0 ks seen st :
  stored J s0 → NoDup (seen ++ ks) → (∀ k, k ∈ ks → is_Some (contents s0 !! k)) → restoring J s0 pubs0 seen st →
  ∃ rc st', restore_loop afterRead now v ks st = Some (false, rc, st') ∧
    (rc = 0 → restoring J s0 pubs0 (seen ++ ks) st').
Proof.
  intros HJ. revert seen st. induction ks as [|k ks IH]; intros seen st Hnd Hks Hr.
  { exists 0, st. by rewrite app_nil_r. }
  cbn [restore_loop].
  assert (IHk : ∀ st', restoring J s0 pubs0 (seen ++ [k]) st' →
    ∃ rc st'', restore_loop afterRead now v ks st' = Some (false, rc, st'') ∧
      (rc = 0 → restoring J s0 pubs0 (seen ++ k :: ks) st'')).
  { intros st' Hr'. replace (seen ++ k :: ks) with ((seen ++ [k]) ++ ks) by (by rewrite <-app_assoc).
    apply IH; [by rewrite <-app_assoc| |done]. intros k' Hk'. apply Hks. by right. }
  assert (Hin : is_Some (contents s0 !! k)) by (apply Hks; left).
  assert (Hns : k ∉ seen).
  { apply NoDup_app in Hnd as (_ & Hd & _). intros Hin'. apply (Hd k Hin'). left. }
  destruct (J !! k) as [e|] eqn:HJk.
  - destruct (stored_key _ _ _ _ HJ HJk) as [Hke Hok]. rewrite Hke, entry_key_not_other, <-Hke.
    destruct (pget k (snd st)) as [rc d] eqn:Hget.
    destruct (Z.eqb_spec rc 0) as [->|Hrc].
    + apply get_rc in Hget; [|exact (ri_ok _ _ _ _ _ Hr)|rewrite Hke; by apply entry_key_good].
      rewrite (ri_store _ _ _ _ _ Hr), bool_decide_eq_false_2 in Hget by done. cbn [andb] in Hget.
      destruct (proj2 (proj2 HJ) _ _ HJk) as (_ & _ & d' & Hd' & Haf). assert (d' = d) as -> by congruence.
      rewrite Haf. cbn [Z.eqb].
      assert (Hstep : ∃ rc st', restore_record now v k (entry_bytes e) st = Some (false, rc, st') ∧
        (rc = 0 → restoring J s0 pubs0 (seen ++ [k]) st')).
      { destruct e as [p dup q r|id|p dup r].
        - destruct (restore_record_sent J s0 pubs0 seen st k p dup q r) as (st' & ? & ?); eauto.
        - by apply restore_record_rel.
        - destruct (restore_record_received J s0 pubs0 seen st k p dup r) as (st' & ? & ?); eauto. }
      destruct Hstep as (rc & st' & -> & Hst'). cbn [mbind option_bind orb].
      destruct (Z.eqb_spec rc 0) as [->|Hrc]; cbn [negb]; [by apply IHk, Hst'|].
      by exists rc, st'.
    + unfold after_read. rewrite (proj2 (Z.eqb_neq rc 0)) by done. rewrite (proj2 (Z.eqb_neq rc 0)) by done.
      by exists rc, st.
  - destruct (proj1 (proj2 HJ) _ Hin) as [->|[e He]]; [|congruence].
    apply IHk, restoring_skip; [done|congruence|]. apply not_orphan_key. intros id E. congruence.
Qed.

(** The order of the keys does not matter. *)
Lemma omap_keys {B : Type} (J : gmap (list Z) entry) (f : entry → option B) ks :
  NoDup ks → (∀ k, is_Some (J !! k) → k ∈ ks) →
  omap (λ k, J !! k ≫= f) ks ≡ₚ omap f (map_to_list J).*2.
Proof.
  intros Hnd Hks.
  assert (Hf : omap (λ k, J !! k ≫= f) ks = omap (λ k, J !! k ≫= f) (filter (λ k, is_Some (J !! k)) ks)).
  { clear Hnd Hks. induction ks as [|k ks IH]; [done|]. rewrite filter_cons.
    destruct (decide (is_Some (J !! k))) as [Hs|Hs]; cbn [omap list_omap].
    - destruct (J !! k ≫= f); [by f_equal|done].
    - apply eq_None_not_Some in Hs. by rewrite Hs. }
  assert (Hp : filter (λ k, is_Some (J !! k)) ks ≡ₚ (map_to_list J).*1).
  { apply NoDup_Permutation; [by apply NoDup_filter|apply NoDup_fst_map_to_list|]. intros k.
    rewrite list_elem_of_filter, list_elem_of_fmap. split.
    - intros [[e He] _]. exists (k, e). split; [done|by apply elem_of_map_to_list].
    - intros ([k' e] & -> & He%elem_of_map_to_list). cbn [fst]. split; [by exists e|apply Hks; by exists e]. }
  rewrite Hf, Hp.
  assert (Hl : Forall (λ ke, J !! ke.1 = Some ke.2) (map_to_list J)).
  { apply Forall_forall. intros [k e] He. by apply elem_of_map_to_list in He. }
  apply Permutation_refl'. clear Hf Hp Hnd Hks. induction Hl as [|[k e] l He Hl IH]; [done|]. cbn [fst snd] in *.
  rewrite !fmap_cons. cbn [omap list_omap fst snd]. rewrite He. cbn [mbind option_bind]. by rewrite IH.
Qed.

Lemma wrapMsgID_rotation l : ∃ k, MQTTPersistence_wrapMsgID l = drop k l ++ take k l.
Proof.
  destruct l as [|m l]; [by exists 0%nat|]. unfold MQTTPersistence_wrapMsgID.
  destruct (last (m :: l)) as [x|]; [|exists 0%nat; by rewrite drop_0, app_nil_r].
  destruct (wrap_loop _ _ _ _ _) as [k|]; [by exists k|exists 0%nat; by rewrite drop_0, app_nil_r].
Qed.

(** C11: A restart rebuilds the messages in flight from the store, into empty lists
    of messages.  Whatever the order in which the store lists the records: one
    outbound message per record of a message sent, waiting for PUBCOMP if its
    PUBREL was stored, else as it was when it was sent and due at once; one
    inbound message waiting for PUBREL per record of a message received; each with
    its identifier, quality of service, retain flag, properties, topic and payload
    (an MQTT 5 message that was received keeps neither).  The outbound messages
    are in the order of their identifiers up to a rotation.  The records are kept,
    but for the PUBRELs without a message.  Nothing is said if the store reports
    an error.  The records are those of a client of the version that restores
    them, and can be read again ([stored]): the identifiers of the messages sent
    with MQTT 5 are below 10000 (longer ones do not fit the array of the key), the
    four-byte properties below 2^31 (the others are written wrong), topics have no
    NUL and less than 2^16 bytes, and the bodies less than 2^28 bytes. *)
Theorem restorePackets_recovers J s c (sh : shared (T := T)) :
  stored J s → inboundMsgs c = [] → outboundMsgs c = [] →
  ∃ rc c' (sh' : shared (T := T)) s',
    MQTTPersistence_restorePackets afterRead now v true ((c, sh), s) = Some (rc, ((c', sh'), s')) ∧
    (rc = 0 →
      view (publications sh') <$> outboundMsgs c' ≡ₚ omap (sent_view v J) (map_to_list J).*2 ∧
      view (publications sh') <$> inboundMsgs c' ≡ₚ omap (received_view v now) (map_to_list J).*2 ∧
      (∃ l k, StronglySorted by_id l ∧ outboundMsgs c' = drop k l ++ take k l) ∧
      publications sh ⊆ publications sh' ∧
      ∀ k, contents s' !! k = if orphan v J k then None else contents s !! k).
Proof.
  intros HJ Hin Hout. unfold MQTTPersistence_restorePackets. cbn [negb snd].
  destruct (pkeys s) as [rc ks] eqn:Hkeys. destruct (Z.eqb_spec rc 0) as [->|Hrc]; cbn [negb].
  2: { eexists rc, _, _, s. split; [reflexivity|]. done. }
  apply keys_rc in Hkeys as [Hnd Hks]; [|apply HJ].
  destruct (restore_loop_ok J s (publications sh) ks [] ((c, sh), s)) as (rc & [[c1 sh1] s1] & -> & Hr);
    [done|done|by intros k; apply Hks| |].
  { split; cbn [fst snd]; rewrite ?Hin, ?Hout; try done; try constructor. apply HJ. }
  cbn [mbind option_bind]. eexists rc, _, _, s1. split; [reflexivity|]. intros ->. cbn [fst snd].
  destruct (Hr eq_refl) as [H1 H2 H3 H4 H5 _ H6]. cbn [app fst snd] in *.
  assert (HJk : ∀ k, is_Some (J !! k) → k ∈ ks).
  { intros k [e He]. apply Hks. destruct (proj2 (proj2 HJ) _ _ He) as (_ & _ & d & -> & _). by exists d. }
  unfold wrap_client. cbn [with_outbound outboundMsgs inboundMsgs].
  destruct (wrapMsgID_rotation (outboundMsgs c1)) as [k ->].
  split_and!; [| |by exists (outboundMsgs c1), k|done|].
  - rewrite Permutation_app_comm, take_drop, H2. by apply omap_keys.
  - rewrite H3. by apply omap_keys.
  - intros k'. rewrite H6. unfold orphan. destruct (J !! k') as [[| id |]|] eqn:E; rewrite ?andb_false_r; try done.
    rewrite bool_decide_eq_true_2 by (apply HJk; by exists (Rel id)). done.
Qed.

End Restore.

(** ** The journal through the run of a client *)

Section Run.
Context {S : Type} `{!Store S, !StoreLaws S}.
Context (beforeWrite : option (list (list Z) → Z * list (list Z))) (afterRead : option (list Z → Z * list Z)).
Context (v : Z).

(** The callbacks of the application undo each other. *)
Definition callbacks_inverse : Prop :=
  ∀ bufs bufs', before_write beforeWrite bufs = (0, bufs') → after_read afterRead (0, concat bufs') = (0, concat bufs).

(** What the packet layer does for each entry. *)
Definition persist_entry (e : entry) (s : S) : option (Z * S) :=
  match e with
  | Sent p dup q r =>
      persist_sends beforeWrite true true (mkHeader PUBLISH dup q r)
        [writeInt (s32 (len (pb_topic p))); pb_topic p; snd (publish_buffer p q); pb_payload p] v s
  | Rel id => persist_send beforeWrite true true (mkHeader PUBREL 0 1 0) (writeInt id) v s
  | Received p dup r =>
      persist_received beforeWrite true true (header_byte (mkHeader PUBLISH dup 2 r))
        (publish_body v (pb_topic p) 2 (pb_msgId p) (pb_properties p) (pb_payload p)) (pb_msgId p) v s
  end.

Lemma putPacket_ok stem buf0 buffers htype id scr s key :
  packet_stem htype scr v = Some stem → message_key stem id = Some key → callbacks_inverse →
  store_ok s → good_key key →
  ∃ rc s', MQTTPersistence_putPacket beforeWrite true true buf0 buffers htype id scr v s = Some (rc, s') ∧
    (rc = 0 → store_ok s' ∧ ∃ d, contents s' = <[key := d]> (contents s) ∧
       after_read afterRead (0, d) = (0, concat (buf0 :: buffers))).
Proof.
  intros Hst Hk Hcb Hok Hg. unfold MQTTPersistence_putPacket. cbn [negb]. rewrite Hst. cbn [mbind option_bind].
  rewrite Hk. cbn [mbind option_bind].
  destruct (before_write beforeWrite (buf0 :: buffers)) as [rc bufs] eqn:Hb.
  destruct (Z.eqb_spec rc 0) as [->|Hrc]; [|by exists rc, s].
  pose proof (put_rc key bufs s Hok Hg) as Hp. destruct (pput key bufs s) as [rc s']. destruct Hp as [Hok' Hp].
  exists rc, s'. split; [done|]. intros ->. split; [done|]. exists (concat bufs). split; [|by apply Hcb].
  destruct Hp as [[_ ?]|[Hbad _]]; [done|]. by unfold MQTTCLIENT_PERSISTENCE_ERROR in Hbad.
Qed.

Lemma readInt_written id post : is_u16 id → readInt (writeInt id ++ post) 0 = Some (id, 2).
Proof. intros H. exact (int_codec id [] post 2 H ltac:(simpl; lia)). Qed.

Lemma received_message_key id :
  0 ≤ id < 65536 →
  message_key (v_stem v PERSISTENCE_V5_PUBLISH_RECEIVED PERSISTENCE_PUBLISH_RECEIVED) id = Some (received_key v id).
Proof.
  intros Hid. unfold message_key, received_key, v_stem.
  destruct (MQTTVERSION_5 <=? v); apply (key_in_fits _ _ _ 5); (lia || reflexivity).
Qed.

(** Each entry of a sendable message is written under its key; a PUBREL of MQTT 5
    needs an identifier that fits. *)
Lemma persist_entry_ok e s :
  entry_ok v e → (∀ id, e = Rel id → MQTTVERSION_5 ≤ v → id < 10000) → callbacks_inverse → store_ok s →
  ∃ rc s', persist_entry e s = Some (rc, s') ∧
    (rc = 0 → store_ok s' ∧ ∃ d, contents s' = <[entry_key v e := d]> (contents s) ∧ after_read afterRead (0, d) = (0, entry_bytes e)).
Proof.
  intros Hok Hrel Hcb Hs0. pose proof (entry_key_good v e Hok) as Hg. destruct e as [p dup q r|id|p dup r].
  - destruct Hok as (Hm & Hq & _). destruct Hm as [Hv Hh [Hc Hs] Hid Hps Hpl Hl]. unfold is_u16 in Hid.
    cbn [persist_entry entry_key entry_bytes]. unfold persist_sends. cbn [h_type h_qos].
    change (PUBLISH =? PUBLISH) with true. rewrite (proj2 (Z.eqb_neq q 0)) by lia. cbn [andb negb].
    change ([_; _; snd (publish_buffer p q); _] !! 2%nat) with (Some (snd (publish_buffer p q))).
    cbn [mbind option_bind].
    assert (Hri : readInt (snd (publish_buffer p q)) 0 = Some (pb_msgId p, 2)).
    { unfold publish_buffer. cbn [snd]. rewrite (proj2 (Z.ltb_lt 0 q)) by lia. by apply readInt_written. }
    rewrite Hri. cbn [mbind option_bind].
    set (bufs := [_; _; _; _]).
    destruct (putPacket_ok _ (fixed_header (mkHeader PUBLISH dup q r) (len (concat bufs))) bufs PUBLISH (pb_msgId p) 0 s _
      eq_refl (sent_message_key v _ Hid) Hcb Hs0 Hg) as (rc & s' & E & Hd). exists rc, s'. split; [exact E|].
    intros ->. destruct (Hd eq_refl) as (Hs1 & d & Hc' & Ha). split; [exact Hs1|]. exists d. split; [exact Hc'|]. rewrite Ha. do 2 f_equal.
    unfold MQTTPacket_send_publish. rewrite Hpl, Nat2Z.id, firstn_all, (cstr_ok _ Hc), (proj2 (Z.ltb_lt 0 q)) by lia.
    cbn [orb]. unfold MQTTPacket_sends. done.
  - cbn [persist_entry entry_key entry_bytes]. unfold persist_send. cbn [h_type].
    change (PUBREL =? PUBREL) with true. cbn [entry_ok] in Hok. 
    pose proof (readInt_written id [] Hok) as Hri. rewrite app_nil_r in Hri. rewrite Hri. cbn [mbind option_bind].
    destruct (putPacket_ok _ (fixed_header (mkHeader PUBREL 0 1 0) (len (writeInt id))) [writeInt id] PUBREL id 0 s _
      eq_refl (rel_message_key v _ Hok (Hrel id eq_refl)) Hcb Hs0 Hg) as (rc & s' & E & Hd). exists rc, s'. split; [exact E|].
    intros ->. destruct (Hd eq_refl) as (Hs1 & d & Hc' & Ha). split; [exact Hs1|]. exists d. split; [exact Hc'|]. rewrite Ha.
    cbn [concat]. by rewrite app_nil_r.
  - cbn [entry_ok] in Hok. destruct Hok as [Hv Hh [Hc Hs] Hid Hps Hpl Hl]. unfold is_u16 in Hid.
    cbn [persist_entry entry_key entry_bytes]. unfold persist_received. rewrite header_byte_of by done. cbn [h_type h_qos].
    change (PUBLISH =? PUBLISH) with true. change (2 =? 2) with true. cbn [andb].
    set (body := publish_body _ _ _ _ _ _).
    destruct (putPacket_ok _ (header_byte (mkHeader PUBLISH dup 2 r) :: MQTTPacket_encode (len body)) [body] PUBLISH (pb_msgId p) 1 s _
      eq_refl (received_message_key _ Hid) Hcb Hs0 Hg) as (rc & s' & E & Hd). exists rc, s'. split; [exact E|].
    intros ->. destruct (Hd eq_refl) as (Hs1 & d & Hc' & Ha). split; [exact Hs1|]. exists d. split; [exact Hc'|]. rewrite Ha. do 2 f_equal.
    rewrite send_publish_body by done. cbn [concat app]. by rewrite app_nil_r, Hv.
Qed.
Lemma after_stored_put J s s' e d :
  stored afterRead v J s → entry_ok v e → store_ok s' → contents s' = <[entry_key v e := d]> (contents s) →
  after_read afterRead (0, d) = (0, entry_bytes e) → stored afterRead v (<[entry_key v e := e]> J) s'.
Proof.
  intros (_ & H1 & H2) Hok Hs' Hc Ha. split; [done|]. split.
  - intros k. rewrite Hc. destruct (decide (entry_key v e = k)) as [->|Hne].
    + rewrite !lookup_insert_eq. right. by eexists.
    + rewrite !lookup_insert_ne by done. apply H1.
  - intros k e'. rewrite Hc. destruct (decide (entry_key v e = k)) as [<-|Hne].
    + rewrite !lookup_insert_eq. intros [= <-]. split_and!; [done|done|]. by exists d.
    + rewrite !lookup_insert_ne by done. apply H2.
Qed.

(** A removed set of keys, which covers the keys of the journal under [id] of
    the direction and no others of the journal. *)
Lemma after_stored_remove J J' s s' (ks : list (list Z)) :
  stored afterRead v J s → store_ok s' → (∀ k, J' !! k = if bool_decide (k ∈ ks) then None else J !! k) →
  contents s' ⊆ contents s → (∀ k, k ∉ ks → contents s' !! k = contents s !! k) →
  (∀ k, k ∈ ks → contents s' !! k = None) → stored afterRead v J' s'.
Proof.
  intros (_ & H1 & H2) Hs' HJ' Hsub Hne Hin. split; [done|]. split.
  - intros k Hk. rewrite HJ'. case_bool_decide as Hks; [by rewrite Hin in Hk; destruct Hk|].
    rewrite Hne in Hk by done. by apply H1.
  - intros k e. rewrite HJ'. case_bool_decide as Hks; [done|]. rewrite Hne by done. apply H2.
Qed.

Lemma remove_keys_fit stems id rc s r :
  remove_keys stems id rc s = Some r → Forall (λ stem, ∃ k, message_key stem id = Some k) stems.
Proof.
  revert rc s. induction stems as [|st l IH]; intros rc s H; [constructor|].
  cbn [remove_keys] in H. destruct (message_key st id) as [k|] eqn:E; [|done]. cbn [mbind option_bind] in H.
  destruct (premove k s) as [rc1 s1]. constructor; [by exists k|]. by eapply IH.
Qed.

(** The keys removed, among those of the journal. *)
Lemma entry_key_stem_eq J s k stem id :
  stored afterRead v J s → is_Some (J !! k) → stem ∈ ALL_STEMS → 0 ≤ id < 65536 → k = stem ++ dec id →
  k = sent_key v id ∧ stem = v_stem v PERSISTENCE_V5_PUBLISH_SENT PERSISTENCE_PUBLISH_SENT ∨
  k = rel_key v id ∧ stem = v_stem v PERSISTENCE_V5_PUBREL PERSISTENCE_PUBREL ∨
  k = received_key v id ∧ stem = v_stem v PERSISTENCE_V5_PUBLISH_RECEIVED PERSISTENCE_PUBLISH_RECEIVED.
Proof.
  intros HJ [e He] Hstem Hid Hk. destruct (stored_key _ _ _ _ _ _ HJ He) as [Hke Hok].
  destruct (entry_key_id v e Hok) as (st' & id' & Hk' & Hid' & Hst').
  assert (Hst : is_stem st').
  { rewrite Hst'. destruct e; stem. }
  assert (E : stem = st' ∧ id = id').
  { apply stem_key_inj; [by apply all_stems|done|lia|lia|]. by rewrite <-Hk, Hke. }
  destruct E as [-> ->]. rewrite Hk, Hst'. destruct e; auto.
Qed.

Lemma acked_keys J s k id : stored afterRead v J s → 0 ≤ id < 65536 → is_Some (J !! k) →
  k ∈ ((λ stem, stem ++ dec id) <$> SENT_STEMS) ↔ k = sent_key v id ∨ k = rel_key v id.
Proof.
  intros HJ Hid HJk. rewrite list_elem_of_fmap. split.
  - intros (stem & Hk & Hst).
    assert (Hall : stem ∈ ALL_STEMS).
    { revert Hst. assert (Forall (λ x, x ∈ ALL_STEMS) SENT_STEMS) as HF by (apply (bool_decide_eq_true_1 _); vm_compute; reflexivity).
      rewrite Forall_forall in HF. apply HF. }
    destruct (entry_key_stem_eq J s k stem id HJ HJk Hall Hid Hk) as [[? _]|[[? _]|[_ ->]]]; [by left|by right|].
    exfalso. revert Hst. apply (bool_decide_eq_false_1 _). unfold v_stem. by destruct (MQTTVERSION_5 <=? v); vm_compute.
  - unfold sent_key, rel_key, v_stem.
    intros [-> | ->]; eexists; (split; [reflexivity|]); apply (bool_decide_eq_true_1 _); by destruct (MQTTVERSION_5 <=? v); vm_compute.
Qed.

Lemma released_keys J s k id : stored afterRead v J s → 0 ≤ id < 65536 → is_Some (J !! k) →
  k ∈ ((λ stem, stem ++ dec id) <$> RECEIVED_STEMS) ↔ k = received_key v id.
Proof.
  intros HJ Hid HJk. rewrite list_elem_of_fmap. split.
  - intros (stem & Hk & Hst).
    assert (Hall : stem ∈ ALL_STEMS).
    { revert Hst. assert (Forall (λ x, x ∈ ALL_STEMS) RECEIVED_STEMS) as HF by (apply (bool_decide_eq_true_1 _); vm_compute; reflexivity).
      rewrite Forall_forall in HF. apply HF. }
    destruct (entry_key_stem_eq J s k stem id HJ HJk Hall Hid Hk) as [[_ ->]|[[_ ->]|[? _]]]; [| |done].
    all: exfalso; revert Hst; apply (bool_decide_eq_false_1 _); unfold v_stem; by destruct (MQTTVERSION_5 <=? v); vm_compute.
  - unfold received_key, v_stem.
    intros ->; eexists; (split; [reflexivity|]); apply (bool_decide_eq_true_1 _); by destruct (MQTTVERSION_5 <=? v); vm_compute.
Qed.

Definition sent_type : list Z := v_stem v PERSISTENCE_V5_PUBLISH_SENT PERSISTENCE_PUBLISH_SENT.
Definition received_type : list Z := v_stem v PERSISTENCE_V5_PUBLISH_RECEIVED PERSISTENCE_PUBLISH_RECEIVED.

(** The run of a client, as the store sees it: an entry is written before the
    packet is sent or after it is received; the message is acknowledged
    (PUBACK, PUBCOMP) or released (PUBREL). *)
Inductive jstep : gmap (list Z) entry * S → gmap (list Z) entry * S → Prop :=
  | j_put e J s s' :
      entry_ok v e → (∀ id, e = Rel id → MQTTVERSION_5 ≤ v → id < 10000) →
      persist_entry e s = Some (0, s') → jstep (J, s) (<[entry_key v e := e]> J, s')
  | j_acked id qos J s s' :
      0 ≤ id < 65536 → MQTTPersistence_remove true true sent_type qos id s = Some (0, s') →
      jstep (J, s) (delete (sent_key v id) (delete (rel_key v id) J), s')
  | j_released id qos J s s' :
      0 ≤ id < 65536 → MQTTPersistence_remove true true received_type qos id s = Some (0, s') →
      jstep (J, s) (delete (received_key v id) J, s').

Lemma jstep_stored J s J' s' :
  callbacks_inverse → jstep (J, s) (J', s') → stored afterRead v J s → stored afterRead v J' s'.
Proof.
  intros Hcb Hstep HJ. inversion Hstep as [e ? ? ? Hok Hrel Hp|id q ? ? ? Hid Hrm|id q ? ? ? Hid Hrm]; subst.
  - destruct (persist_entry_ok e s Hok Hrel Hcb (proj1 HJ)) as (rc & s'' & E & Hd). rewrite Hp in E. injection E as <- <-.
    destruct (Hd eq_refl) as (Hs1 & d & Hc & Ha). by eapply after_stored_put.
  - rewrite remove_unfold in Hrm. assert (Hs : stems_of sent_type = SENT_STEMS).
    { unfold sent_type, v_stem. by destruct (MQTTVERSION_5 <=? v). }
    rewrite Hs in Hrm. pose proof (stems_of_all sent_type) as Hsub0. rewrite Hs in Hsub0.
    pose proof (remove_keys_fit _ _ _ _ _ Hrm) as Hkeys.
    destruct (remove_keys_ok SENT_STEMS id 0 s ltac:(done) (proj1 HJ) ltac:(lia) Hsub0 Hkeys) as (rc & s'' & E & _ & Hs1 & H1 & H2 & H3).
    rewrite Hrm in E. injection E as <- <-.
    eapply after_stored_remove; [exact HJ|exact Hs1| |exact H2|exact H1|by apply H3].
    intros k. destruct (decide (is_Some (J !! k))) as [HJk|HJk].
    + pose proof (acked_keys J s k id HJ Hid HJk) as Hiff. case_bool_decide as Hk.
      * apply Hiff in Hk as [-> | ->]; [by rewrite lookup_delete_eq|].
        destruct (decide (sent_key v id = rel_key v id)) as [->|]; [by rewrite lookup_delete_eq|].
        by rewrite lookup_delete_ne, lookup_delete_eq.
      * rewrite !lookup_delete_ne; [done| |]; intros <-; apply Hk, Hiff; auto.
    + apply eq_None_not_Some in HJk. rewrite HJk.
      replace (if bool_decide _ then None else None) with (@None entry) by (by case_bool_decide).
      apply lookup_delete_None. right. apply lookup_delete_None. by right.
  - rewrite remove_unfold in Hrm. assert (Hs : stems_of received_type = RECEIVED_STEMS).
    { unfold received_type, v_stem. by destruct (MQTTVERSION_5 <=? v). }
    rewrite Hs in Hrm. pose proof (stems_of_all received_type) as Hsub0. rewrite Hs in Hsub0.
    pose proof (remove_keys_fit _ _ _ _ _ Hrm) as Hkeys.
    destruct (remove_keys_ok RECEIVED_STEMS id 0 s ltac:(done) (proj1 HJ) ltac:(lia) Hsub0 Hkeys) as (rc & s'' & E & _ & Hs1 & H1 & H2 & H3).
    rewrite Hrm in E. injection E as <- <-.
    eapply after_stored_remove; [exact HJ|exact Hs1| |exact H2|exact H1|by apply H3].
    intros k. destruct (decide (is_Some (J !! k))) as [HJk|HJk].
    + pose proof (released_keys J s k id HJ Hid HJk) as Hiff. case_bool_decide as Hk.
      * apply Hiff in Hk as ->. by rewrite lookup_delete_eq.
      * rewrite lookup_delete_ne; [done|]. intros <-. by apply Hk, Hiff.
    + apply eq_None_not_Some in HJk. rewrite HJk.
      replace (if bool_decide _ then None else None) with (@None entry) by (by case_bool_decide).
      apply lookup_delete_None. by right.
Qed.

(** C12: From a store without messages in flight, over any run of writes,
    acknowledgements and releases that the store answers with success, the
    store holds exactly the records of the messages still in flight, as the
    packets that were sent or received, and the other kinds of record; so
    every such state is one that a restart recovers.  The runs are those of
    records that can be read again ([entry_ok]: with MQTT 5 the identifiers of
    what is sent, PUBRELs included, are below 10000; four-byte properties below
    2^31; bodies below 2^28 bytes) by one client of one version, and the
    application's afterRead undoes its beforeWrite. *)
Theorem journal_run s0 J s :
  callbacks_inverse → store_ok s0 → (∀ k, is_Some (contents s0 !! k) → other_key k = true) →
  rtc jstep (∅, s0) (J, s) → stored afterRead v J s.
Proof.
  intros Hcb Hs0 H0 Hrun.
  assert (Hgen : ∀ a b, rtc jstep a b → stored afterRead v a.1 a.2 → stored afterRead v b.1 b.2).
  { induction 1 as [|[J1 s1] [J2 s2] b Hstep _ IH]; [done|]. intros Ha. by apply IH, (jstep_stored J1 s1). }
  apply (Hgen _ _ Hrun). split; [done|]. split; cbn [fst snd]; [intros k Hk; left; by apply H0|]. intros k e. by rewrite lookup_empty.
Qed.

End Run.

(** ** Instances *)

Definition sample_message (id q : Z) : Publish :=
  mkPublish (mkHeader PUBLISH 0 q 0) (bs "hall/1") 6 id [1; 2; 3; 255] 4 4 MQTTProperties_initializer.

Lemma sample_message_ok id q : 0 ≤ id < 65536 → q = 1 ∨ q = 2 → message_ok 4 (sample_message id q) 0 q 0.
Proof.
  intros Hid Hq.
  assert (Hc : cstring_ok (bs "hall/1")) by (apply (bool_decide_eq_true_1 _); vm_compute; reflexivity).
  split; try done.
  - unfold header_ok, PUBLISH. cbn. lia.
  - unfold publish_body. rewrite !length_app. destruct Hq as [-> | ->]; cbn; lia.
Qed.

Definition sample_sent : entry := Sent (sample_message 65535 2) 0 2 0.
Definition sample_received : entry := Received (sample_message 3 2) 0 0.

Lemma sample_sent_ok : entry_ok 4 sample_sent.
Proof. split_and!; [apply sample_message_ok; lia|lia|done]. Qed.
Lemma sample_received_ok : entry_ok 4 sample_received.
Proof. apply sample_message_ok; lia. Qed.

Lemma no_callbacks : callbacks_inverse None None.
Proof. by intros bufs bufs' [= <-]. Qed.

Lemma stored_none (v : Z) : stored None v ∅ (∅ : mem_store).
Proof.
  split; [done|]. split; [intros k Hk|intros k e Hk].
  - unfold contents in Hk. cbn in Hk. unfold id in Hk. rewrite lookup_empty in Hk. by destruct Hk.
  - by rewrite lookup_empty in Hk.
Qed.

Lemma stored_next (v : Z) (J : gmap (list Z) entry) (s : mem_store) (e : entry) :
  stored None v J s → entry_ok v e → stored None v (<[entry_key v e := e]> J) (<[entry_key v e := entry_bytes e]> s : mem_store).
Proof. intros HJ Hok. by apply (after_stored_put None v J s _ e (entry_bytes e)). Qed.

(** A transport that always takes the packet. *)
Definition unit_transport : Transport () := {| noPendingWrites _ _ := true; send_packet t _ _ := (0, t) |}.

Definition new_client : Clients := mkClient 5 true true false 0 0 0 0 60 20 [] [].

Lemma restorePackets_recovers_witness :
  let J := <[entry_key 4 sample_received := sample_received]> (<[entry_key 4 sample_sent := sample_sent]> ∅) in
  let s : mem_store := <[entry_key 4 sample_received := entry_bytes sample_received]>
                         (<[entry_key 4 sample_sent := entry_bytes sample_sent]> ∅) in
  stored None 4 J s ∧
  ∃ rc c' (sh' : shared (T := ())) s',
    MQTTPersistence_restorePackets None 1000 4 true ((new_client, mkShared ∅ [] 0 0 ()), s) = Some (rc, ((c', sh'), s')) ∧
    (rc = 0 → view (publications sh') <$> inboundMsgs c' ≡ₚ omap (received_view 4 1000) (map_to_list J).*2).
Proof.
  intros J s.
  assert (HJ : stored None 4 J s).
  { apply stored_next; [|apply sample_received_ok]. apply stored_next; [|apply sample_sent_ok]. apply stored_none. }
  split; [exact HJ|].
  destruct (restorePackets_recovers (T := ()) None 1000 4 J s new_client (mkShared ∅ [] 0 0 ()) HJ eq_refl eq_refl)
    as (rc & c' & sh' & s' & E & H).
  exists rc, c', sh', s'. split; [exact E|]. intros Hrc. apply (H Hrc).
Defined.

Lemma journal_run_witness :
  ∃ s : mem_store, persist_entry None 4 sample_sent (∅ : mem_store) = Some (0, s) ∧
    stored None 4 (<[entry_key 4 sample_sent := sample_sent]> ∅) s.
Proof.
  destruct (persist_entry None 4 sample_sent (∅ : mem_store)) as [[rc s]|] eqn:E; [|exfalso; revert E; vm_compute; discriminate].
  assert (rc = 0) as -> by (revert E; vm_compute; by intros [= <- _]).
  exists s. split; [reflexivity|].
  apply (journal_run None None 4 (∅ : mem_store)); [exact no_callbacks|exact I| |].
  - intros k Hk. unfold contents in Hk. cbn in Hk. unfold id in Hk. rewrite lookup_empty in Hk. by destruct Hk.
  - eapply rtc_l; [|apply rtc_refl]. apply j_put; [exact sample_sent_ok|done|exact E].
Defined.

End PersistenceSpec.
