(* ===== verification/PersistenceQueue.v ===== *)
(** * Identifiers after a restart, and the queue of messages

    The rotation of the restored messages at the largest gap of identifiers; the
    records of the queued messages: what is written, that it is read back, and
    that an MQTT 5 client without a write callback never writes any. *)
From Stdlib Require Import Sorting.Sorted.
From S2P Require Import Prelude Libc PacketCodec Props Packets SocketIO Protocol Persistence PersistenceSpec.

Module PersistenceQueue.
Import Libc Codecs Properties Packets Protocol Persistence PersistenceSpec.

(** ** Rotation at the largest gap *)

(** The way from [a] to [b] on the circle of the identifiers 1 to 65535. *)
Definition ring_gap (a b : Z) : Z := if a <? b then b - a else MAX_MSG_ID - a + b.

Definition ids_before (a b : Messages) : Prop := msgid a < msgid b.

(** The step of the identifiers into position [j] of the messages after [prev]. *)
Definition step_at (ids : list Z) (j : nat) : Z := ids !!! S j - ids !!! j.

(** The loop finds the first largest step, if one is larger than [gap]. *)
Lemma wrap_loop_spec l : ∀ i prev gap w,
  let ids := prev :: (msgid <$> l) in
  let r := wrap_loop i prev gap w l in
  (r = w ∧ ∀ j, (j < length l)%nat → step_at ids j ≤ gap) ∨
  (∃ k, r = Some (i + k)%nat ∧ (k < length l)%nat ∧ gap < step_at ids k ∧
     ∀ j, (j < length l)%nat → step_at ids j ≤ step_at ids k).
Proof.
  induction l as [|m l IH]; intros i prev gap w ids r; [left; split; [done|]; cbn [length]; lia|].
  unfold r, ids. cbn [wrap_loop]. rewrite fmap_cons.
  assert (H0 : step_at (prev :: msgid m :: (msgid <$> l)) 0 = msgid m - prev) by done.
  assert (HS : ∀ j, step_at (prev :: msgid m :: (msgid <$> l)) (S j) = step_at (msgid m :: (msgid <$> l)) j) by done.
  destruct (Z.ltb_spec gap (msgid m - prev)) as [Hlt|Hge].
  - right. destruct (IH (S i) (msgid m) (msgid m - prev) (Some i)) as [[-> Hj]|(k & -> & Hk & Hgk & Hj)].
    + exists 0%nat. split_and!; [f_equal; lia|cbn [length]; lia|lia|]. intros [|j] Hjl; [lia|].
      rewrite HS, H0. apply Hj. cbn [length] in Hjl. lia.
    + exists (S k). rewrite !HS. split_and!; [f_equal; lia|cbn [length]; lia|lia|]. intros [|j] Hjl; [lia|].
      rewrite HS. apply Hj. cbn [length] in Hjl. lia.
  - destruct (IH (S i) (msgid m) gap w) as [[-> Hj]|(k & -> & Hk & Hgk & Hj)].
    + left. split; [done|]. intros [|j] Hjl; [lia|]. rewrite HS. apply Hj. cbn [length] in Hjl. lia.
    + right. exists (S k). rewrite !HS. split_and!; [f_equal; lia|cbn [length]; lia|lia|]. intros [|j] Hjl; [lia|].
      rewrite HS. apply Hj. cbn [length] in Hjl. lia.
Qed.

Lemma sorted_ids_lt l i j x y :
  StronglySorted ids_before l → l !! i = Some x → l !! j = Some y → (i < j)%nat → msgid x < msgid y.
Proof.
  intros H. revert i j. induction H as [|m l Hl IH Hm]; intros [|i] [|j] Hi Hj Hij; try (done || lia).
  - injection Hi as <-. exact (Forall_lookup_1 _ _ _ _ Hm Hj).
  - apply (IH i j); [done|done|lia].
Qed.

Lemma step_at_lookup l j x y : l !! j = Some x → l !! S j = Some y → step_at (msgid <$> l) j = msgid y - msgid x.
Proof.
  intros Hx Hy. unfold step_at. rewrite !list_lookup_total_alt, !list_lookup_fmap, Hx, Hy. done.
Qed.

Lemma lookup_rotate {A : Type} (L : list A) K i : (K ≤ length L)%nat →
  (drop K L ++ take K L) !! i =
    if decide (i < length L - K)%nat then L !! (K + i)%nat
    else if decide (i - (length L - K) < K)%nat then L !! (i - (length L - K))%nat else None.
Proof.
  intros HK. pose proof (length_drop L K) as Hd.
  destruct (decide (i < length L - K)%nat); [rewrite lookup_app_l, lookup_drop by lia; done|].
  rewrite lookup_app_r, Hd by lia. destruct (decide _); [by rewrite lookup_take_lt|by rewrite lookup_take_ge by lia].
Qed.

(** After a restart the outbound messages start after the largest gap of
    their identifiers on the circle: the order is the sorted one rotated so that
    no two neighbours are further apart than the last is from the first.  This
    is the order in which they were sent when the identifiers wrapped around. *)
Theorem wrapMsgID_largest_gap l :
  StronglySorted ids_before l → Forall (λ m, 1 ≤ msgid m ≤ MAX_MSG_ID) l →
  let l' := MQTTPersistence_wrapMsgID l in
  (∃ k, l' = drop k l ++ take k l) ∧
  ∀ j x y first last_, l' !! j = Some x → l' !! S j = Some y → head l' = Some first → last l' = Some last_ →
    ring_gap (msgid x) (msgid y) ≤ ring_gap (msgid last_) (msgid first).
Proof.
  intros Hs Hids l'. split; [apply wrapMsgID_rotation|]. unfold l', MQTTPersistence_wrapMsgID.
  destruct l as [|f l]; [done|]. destruct (last (f :: l)) as [z|] eqn:Hz; [|by apply last_None in Hz].
  set (L := f :: l) in *. set (g := MAX_MSG_ID - msgid z + msgid f).
  assert (HzL : L !! length l = Some z) by (rewrite last_lookup in Hz; exact Hz).
  assert (Hlt : ∀ i j x y, L !! i = Some x → L !! j = Some y → (i < j)%nat → msgid x < msgid y)
    by (intros; by eapply sorted_ids_lt).
  assert (Hgap : ∀ i x y, L !! i = Some x → L !! S i = Some y → ring_gap (msgid x) (msgid y) = step_at (msgid <$> L) i).
  { intros i x y Hx Hy. rewrite (step_at_lookup _ _ _ _ Hx Hy). unfold ring_gap.
    pose proof (Hlt i (S i) x y Hx Hy ltac:(lia)). rewrite (proj2 (Z.ltb_lt _ _)); lia. }
  assert (Hzf : l ≠ [] → ring_gap (msgid z) (msgid f) = g).
  { intros Hl. unfold ring_gap, g. rewrite (proj2 (Z.ltb_ge _ _)); [done|].
    enough (msgid f < msgid z) by lia. apply (Hlt 0%nat (length l)); [done|done|]. destruct l; [done|cbn [length]; lia]. }
  pose proof (wrap_loop_spec l 1 (msgid f) g None) as Hw. cbv zeta in Hw.
  change (msgid f :: (msgid <$> l)) with (msgid <$> L) in Hw.
  destruct Hw as [[-> Hj]|(k & -> & Hk & Hgk & Hj)]; intros j x y first last_ Hx Hy Hf Hl.
  - assert (Some first = Some f) as [= ->] by (rewrite <-Hf; done).
    assert (Some last_ = Some z) as [= ->] by (rewrite <-Hl, <-Hz; done).
    assert (Hjl : (S j < length L)%nat) by (apply lookup_lt_Some in Hy; done). cbn [length L] in Hjl.
    rewrite Hzf, (Hgap j) by (done || destruct l; done || (cbn [length] in Hjl; lia)). apply Hj. lia.
  - set (K := (1 + k)%nat) in *.
    destruct (lookup_lt_is_Some_2 L k) as [a Ha]; [cbn [length L]; lia|].
    destruct (lookup_lt_is_Some_2 L K) as [b Hb]; [unfold K; cbn [length L]; lia|].
    assert (Hfb : first = b).
    { rewrite head_lookup, lookup_app_l, lookup_drop in Hf by (rewrite length_drop; unfold K; cbn [length L]; lia).
      replace (K + 0)%nat with K in Hf by lia. congruence. }
    assert (Hla : last_ = a).
    { rewrite last_app in Hl. destruct (last (take K L)) as [c|] eqn:Ht; [|apply last_None in Ht; done].
      rewrite last_lookup, length_take in Ht. replace (Init.Nat.pred (K `min` length L)) with k in Ht by (unfold K; cbn [length L]; lia).
      rewrite lookup_take_lt in Ht by (unfold K; lia). congruence. }
    subst first last_. rewrite (Hgap k a b Ha Hb).
    rewrite lookup_rotate in Hx, Hy by (unfold K; cbn [length L]; lia).
    assert (HKL : (K < length L)%nat) by (unfold K; cbn [length L]; lia).
    destruct (decide (S j < length L - K)%nat) as [H1|H1].
    + rewrite decide_True in Hx by lia. rewrite Nat.add_succ_r in Hy. rewrite (Hgap _ x y Hx Hy). apply Hj. cbn [length L] in H1. lia.
    + destruct (decide (j < length L - K)%nat) as [H2|H2].
      * replace (S j - (length L - K))%nat with 0%nat in Hy by lia. rewrite decide_True in Hy by (unfold K; lia).
        injection Hy as <-. replace (K + j)%nat with (length l) in Hx by (cbn [length L] in *; lia).
        assert (x = z) as -> by congruence. rewrite Hzf by (destruct l; [cbn [length] in Hk; lia|done]). lia.
      * destruct (decide (S j - _ < K)%nat) as [H3|H3]; [|done]. rewrite decide_True in Hx by lia.
        replace (S j - (length L - K))%nat with (S (j - (length L - K))) in Hy by lia.
        rewrite (Hgap _ x y Hx Hy). apply Hj. unfold K in *. cbn [length L] in *. lia.
Qed.

Lemma wrapMsgID_largest_gap_witness :
  let m id := mkMessage 1 0 id 4 MQTTProperties_initializer None 0 0 in
  let l := [m 1; m 2; m 65534; m 65535] in
  StronglySorted ids_before l ∧ MQTTPersistence_wrapMsgID l = [m 65534; m 65535; m 1; m 2] ∧
  ∃ k, MQTTPersistence_wrapMsgID l = drop k l ++ take k l.
Proof.
  intros m l.
  assert (Hs : StronglySorted ids_before l) by (repeat constructor; unfold ids_before; cbn; lia).
  split; [exact Hs|]. split; [reflexivity|].
  apply (wrapMsgID_largest_gap l Hs). apply (bool_decide_eq_true_1 _). vm_compute. reflexivity.
Defined.

(** ** The record of a queued message *)

Definition is_s32 (x : Z) : Prop := - 2 ^ 31 ≤ x < 2 ^ 31.

Lemma int_bytes_value x : is_s32 x →
  s32 (u8 x + u8 (x ≫ 8) * 2 ^ 8 + u8 (x ≫ 16) * 2 ^ 16 + u8 (x ≫ 24) * 2 ^ 24) = x.
Proof.
  intros Hx. unfold is_s32 in Hx. rewrite !Z.shiftr_div_pow2 by lia. unfold u8, s32.
  Z.to_euclidean_division_equations. lia.
Qed.

#[export] Instance read_int_codec : Codec int_bytes (λ _, read_int) is_s32.
Proof.
  intros x pre post e Hx _. unfold read_int, int_bytes. cbn [app].
  rewrite peek_app, peek_app2, peek_app3, peek_app4. rewrite int_bytes_value by done. done.
Qed.

Lemma read_string_at t pre post : cstring_ok t →
  read_string (pre ++ (t ++ [0]) ++ post) (len pre) = Some (t, len pre + len (t ++ [0])).
Proof.
  intros Ht. unfold read_string. rewrite Nat2Z.id, drop_app_length, <-app_assoc. cbn [app].
  rewrite (cstr_app_nul t) by done. rewrite (proj2 (Z.ltb_lt _ _)) by lens.
  apply (f_equal Some), pair_eq. split; [done|lens].
Qed.

Lemma read_payload_at d pre post :
  read_payload (len d) (pre ++ d ++ post) (len pre) = Some (d, len pre + len d).
Proof. unfold read_payload. rewrite (proj2 (Z.leb_le _ _)) by lia. apply read_bytes_at. Qed.

(** An entry the client can queue and read again. *)
Record qentry_ok (v : Z) (qe : MQTTPersistence_qEntry) : Prop := {
  qo_len : payloadlen (q_msg qe) = len (payload (q_msg qe));
  qo_ints : is_s32 (payloadlen (q_msg qe)) ∧ is_s32 (m_qos (q_msg qe)) ∧ is_s32 (m_retained (q_msg qe)) ∧
    is_s32 (m_dup (q_msg qe)) ∧ is_s32 (m_msgid (q_msg qe)) ∧ is_s32 (topicLen qe);
  qo_topic : cstring_ok (topicName qe);
  qo_props : MQTTVERSION_5 ≤ v → props_sendable (entry_props qe)
}.

(** What a restart makes of the entry. *)
Definition restored_entry (v : Z) (qe : MQTTPersistence_qEntry) : MQTTPersistence_qEntry :=
  let m := q_msg qe in
  mkQEntry (mkPMessage 1 (payloadlen m) (payload m) (m_qos m) (m_retained m) (m_dup m) (m_msgid m)
              (if MQTTVERSION_5 <=? v then entry_props qe else MQTTProperties_initializer))
    (topicName qe) (topicLen qe) 0.

Definition record_of (v : Z) (qe : MQTTPersistence_qEntry) : list Z :=
  let m := q_msg qe in
  int_bytes (payloadlen m) ++ payload m ++ int_bytes (m_qos m) ++ int_bytes (m_retained m) ++ int_bytes (m_dup m)
  ++ int_bytes (m_msgid m) ++ (topicName qe ++ [0]) ++ int_bytes (topicLen qe)
  ++ (if MQTTVERSION_5 <=? v then write_props (entry_props qe) else []).

Lemma entry_bufs_ok v qe : qentry_ok v qe → ∃ bufs, entry_bufs qe = Some bufs ∧
  concat (bufs ++ (if MQTTVERSION_5 <=? v then [write_props (entry_props qe)] else [])) = record_of v qe.
Proof.
  intros [Hl _ Ht _]. unfold entry_bufs. rewrite Hl, !(proj2 (Z.leb_le _ _)) by lia. cbn [andb]. eexists. split; [reflexivity|].
  rewrite Nat2Z.id, firstn_all, cstr_ok by done. unfold record_of. rewrite Hl.
  destruct (MQTTVERSION_5 <=? v); cbn [app concat]; by rewrite ?app_nil_r, <-?app_assoc.
Qed.

Lemma props_buf_ok ps : props_sendable ps → ∃ rc, props_buf ps = Some (rc, [write_props ps]) ∧ 1 ≤ rc.
Proof.
  intros [Hok Hlt]. unfold props_buf, write_props. rewrite (write_ok ps Hok). cbn [mbind option_bind].
  pose proof (write_properties_len ps (conj Hok Hlt)) as Hlen. unfold write_properties, write_props in Hlen.
  rewrite (write_ok ps Hok) in Hlen. rewrite Hlen, Z.eqb_refl. eexists. split; [reflexivity|].
  destruct Hok as [_ -> _ _]. lia.
Qed.

Lemma bind_at {A B : Type} (m : reader A) (k : A → reader B) buf pre w post a :
  buf = pre ++ w ++ post → m (pre ++ w ++ post) (len pre) = Some (a, len pre + len w) →
  (m ≫= k) buf (len pre) = k a buf (len (pre ++ w)).
Proof. intros -> H. unfold mbind, reader_bind. rewrite H. f_equal. lens. Qed.

Lemma entry_reader_ok v qe : qentry_ok v qe →
  MQTTPersistence_restoreQueueEntry (record_of v qe) (if MQTTVERSION_5 <=? v then MQTTVERSION_5 else MQTTVERSION_3_1_1) =
    Some (restored_entry v qe).
Proof.
  intros [Hl (H1 & H2 & H3 & H4 & H5 & H6) Ht Hps]. unfold MQTTPersistence_restoreQueueEntry.
  set (m := q_msg qe) in *. set (data := record_of v qe).
  set (pr := if MQTTVERSION_5 <=? v then write_props (entry_props qe) else []).
  assert (Hd : data = [] ++ int_bytes (payloadlen m) ++ payload m ++ int_bytes (m_qos m) ++ int_bytes (m_retained m)
    ++ int_bytes (m_dup m) ++ int_bytes (m_msgid m) ++ (topicName qe ++ [0]) ++ int_bytes (topicLen qe) ++ pr) by done.
  clearbody data. unfold entry_reader. change 0 with (len (@nil Z)) at 1.
  rewrite (bind_at _ _ _ _ _ _ _ Hd (read_int_codec _ _ _ _ H1 (Z.le_refl _))).
  rewrite app_assoc in Hd. rewrite Hl. rewrite (bind_at _ _ _ _ _ _ _ Hd (read_payload_at _ _ _)).
  rewrite app_assoc in Hd. rewrite (bind_at _ _ _ _ _ _ _ Hd (read_int_codec _ _ _ _ H2 (Z.le_refl _))).
  rewrite app_assoc in Hd. rewrite (bind_at _ _ _ _ _ _ _ Hd (read_int_codec _ _ _ _ H3 (Z.le_refl _))).
  rewrite app_assoc in Hd. rewrite (bind_at _ _ _ _ _ _ _ Hd (read_int_codec _ _ _ _ H4 (Z.le_refl _))).
  rewrite app_assoc in Hd. rewrite (bind_at _ _ _ _ _ _ _ Hd (read_int_codec _ _ _ _ H5 (Z.le_refl _))).
  rewrite app_assoc in Hd. rewrite (bind_at _ _ _ _ _ _ _ Hd (read_string_at _ _ _ Ht)).
  rewrite app_assoc in Hd. rewrite (bind_at _ _ _ _ _ _ _ Hd (read_int_codec _ _ _ _ H6 (Z.le_refl _))).
  unfold restored_entry. fold m. rewrite Hl.
  destruct (Z.leb_spec MQTTVERSION_5 v) as [Hv|Hv]; [|done].
  change (MQTTVERSION_5 <=? MQTTVERSION_5) with true. cbv iota.
  match goal with |- context [len (?p ++ int_bytes (topicLen qe))] => set (pre := p ++ int_bytes (topicLen qe)) end.
  assert (Hd' : data = pre ++ pr). { rewrite Hd. unfold pre. by rewrite <-!app_assoc, Hl. }
  clearbody pre. clear Hd. rename Hd' into Hd. unfold pr in Hd.
  destruct (Hps Hv) as [Hok Hlt]. unfold write_props in Hd. rewrite (write_ok _ Hok) in Hd.
  unfold mbind, reader_bind. rewrite Hd. pose proof (read_ok (entry_props qe) pre [] (len (pre ++ MQTTPacket_encode (length_ (entry_props qe)) ++ props_bytes (array (entry_props qe)))) Hok Hlt) as Hr.
  rewrite app_nil_r in Hr. rewrite Hr by lens. done.
Qed.

(** ** The queue in the store *)

Lemma key_seqno_dec v n : 0 ≤ n < 2 ^ 31 → key_seqno (queue_stem v ++ dec n) = Some n.
Proof.
  intros Hn. unfold key_seqno, queue_stem.
  assert (Hv : u32 (atoi (dec n)) = n) by (rewrite atoi_dec by done; apply u32_small; unfold is_u32; lia).
  change PERSISTENCE_V5_QUEUE_KEY with [113; 53; 45]. change PERSISTENCE_QUEUE_KEY with [113; 45].
  destruct (MQTTVERSION_5 <=? v); cbn -[atoi dec u32]; by rewrite drop_0, Hv.
Qed.

Lemma queue_key_good v n : 0 ≤ n → good_key (queue_stem v ++ dec n).
Proof.
  intros Hn. unfold queue_stem. destruct (_ <=? _); (apply key_good; [apply (bool_decide_eq_true_1 _); vm_compute; reflexivity|done]).
Qed.

Section QueueRun.
Context {S : Type} `{!Store S, !StoreLaws S}.
Context (beforeWrite : option (list (list Z) → Z * list (list Z))) (afterRead : option (list Z → Z * list Z)).
Context (v : Z).

(** An MQTT 5 client without a write callback never stores a queued message:
    the number of bytes of its properties, which is positive, is taken for an
    error.  Any other client offers the record to the store under the key of the
    next sequence number, as the return code of the callback allows. *)
Theorem persistQueueEntry_spec qe n s :
  qentry_ok v qe → 0 ≤ n < PERSISTENCE_SEQNO_LIMIT →
  let res := MQTTPersistence_persistQueueEntry beforeWrite v true qe n s in
  (MQTTVERSION_5 ≤ v → beforeWrite = None →
     ∃ rc, 0 < rc ∧ res = Some (rc, next_seqno n, with_seqno qe (next_seqno n), s)) ∧
  (v < MQTTVERSION_5 ∨ beforeWrite ≠ None →
     ∃ rc s' bufs, res = Some (rc, next_seqno n, with_seqno qe (next_seqno n), s') ∧ concat bufs = record_of v qe ∧
       (rc, s') = (let '(rc, bufs') := before_write beforeWrite bufs in
                   if rc =? 0 then pput (queue_stem v ++ dec (next_seqno n)) bufs' s else (rc, s))).
Proof.
  intros Hok Hn res. unfold res, MQTTPersistence_persistQueueEntry.
  destruct (entry_bufs_ok v qe Hok) as (bufs & -> & Hcat). cbn [mbind option_bind negb].
  rewrite andb_false_r.
  assert (Hkey : queue_key v (next_seqno n) = Some (queue_stem v ++ dec (next_seqno n))).
  { unfold PERSISTENCE_SEQNO_LIMIT in Hn. apply (key_in_fits _ _ _ 6).
    - unfold next_seqno, PERSISTENCE_SEQNO_LIMIT. rewrite u32_small by (unfold is_u32; lia). case_leb.
    - lia.
    - unfold queue_stem. by destruct (MQTTVERSION_5 <=? v). }
  destruct (Z.leb_spec MQTTVERSION_5 v) as [Hv|Hv].
  - destruct (props_buf_ok (entry_props qe)) as (rc & -> & Hrc); [by apply (qo_props v qe Hok)|].
    cbn [mbind option_bind]. rewrite Hkey. cbn [mbind option_bind]. split.
    + intros _ ->. exists rc. split; [lia|]. by rewrite (proj2 (Z.eqb_neq rc 0)) by lia.
    + intros [?|Hb]; [lia|]. destruct beforeWrite as [f|] eqn:Ef; [|done]. unfold before_write.
      destruct (f _) as [rc' bufs'] eqn:E.
      destruct (if rc' =? 0 then _ else _) as [rc'' s'] eqn:E'.
      eexists rc'', s', _. split; [reflexivity|]. split; [exact Hcat|]. by rewrite E, E'.
  - cbn [mbind option_bind]. rewrite Hkey. cbn [mbind option_bind]. split; [lia|]. intros _.
    unfold before_write. destruct beforeWrite as [f|] eqn:Ef.
    + destruct (f _) as [rc' bufs'] eqn:E. destruct (if rc' =? 0 then _ else _) as [rc'' s'] eqn:E'.
      eexists rc'', s', _. split; [reflexivity|]. split; [exact Hcat|]. by rewrite E, E'.
    + cbn [Z.eqb]. destruct (pput _ _ s) as [rc'' s'] eqn:E'.
      eexists rc'', s', _. split; [reflexivity|]. split; [exact Hcat|]. by rewrite E'.
Qed.

(** What the store should hold: the entries by sequence number. *)
Definition queue_stored (Q : gmap Z MQTTPersistence_qEntry) (s : S) : Prop :=
  store_ok s ∧
  (∀ k, is_Some (contents s !! k) → is_queue_key k = false ∨ ∃ n, is_Some (Q !! n) ∧ k = queue_stem v ++ dec n) ∧
  (∀ n qe, Q !! n = Some qe → 0 ≤ n < PERSISTENCE_SEQNO_LIMIT ∧ qentry_ok v qe ∧
     ∃ d, contents s !! (queue_stem v ++ dec n) = Some d ∧ after_read afterRead (0, d) = (0, record_of v qe)).

Definition by_seqno (a b : MQTTPersistence_qEntry) : Prop := seqno a ≤ seqno b.

Lemma insertInSeqOrder_perm qe l : MQTTPersistence_insertInSeqOrder qe l ≡ₚ qe :: l.
Proof.
  induction l as [|x l IH]; [done|]. cbn [MQTTPersistence_insertInSeqOrder]. destruct (_ <? _); [done|].
  rewrite IH. apply Permutation_swap.
Qed.

Lemma insertInSeqOrder_sorted qe l : StronglySorted by_seqno l → StronglySorted by_seqno (MQTTPersistence_insertInSeqOrder qe l).
Proof.
  induction 1 as [|x l Hl IH Hx]; cbn [MQTTPersistence_insertInSeqOrder]; [by repeat constructor|].
  destruct (Z.ltb_spec (seqno qe) (seqno x)) as [Hlt|Hge].
  - constructor; [by constructor|]. constructor; [unfold by_seqno; lia|].
    eapply Forall_impl; [exact Hx|]. unfold by_seqno. intros y Hy. lia.
  - constructor; [done|]. rewrite insertInSeqOrder_perm. constructor; [exact Hge|exact Hx].
Qed.

(** The entry a key of the queue stands for. *)
Definition key_entry (Q : gmap Z MQTTPersistence_qEntry) (k : list Z) : option MQTTPersistence_qEntry :=
  if is_queue_key k then n ← key_seqno k; qe ← Q !! n; Some (with_seqno (restored_entry v qe) n) else None.

Lemma queue_key_is n : is_queue_key (queue_stem v ++ dec n) = true ∧
  starts_with PERSISTENCE_V5_QUEUE_KEY (queue_stem v ++ dec n) = (MQTTVERSION_5 <=? v).
Proof. unfold is_queue_key, queue_stem. by destruct (MQTTVERSION_5 <=? v). Qed.

Lemma restore_queue_loop_ok Q s ks : queue_stored Q s → (∀ k, k ∈ ks → is_Some (contents s !! k)) →
  ∀ l m, StronglySorted by_seqno l → 0 ≤ m →
  ∃ rc l' m', restore_queue_loop afterRead ks (l, m) s = Some (rc, (l', m')) ∧
    (rc = 0 → StronglySorted by_seqno l' ∧ l' ≡ₚ l ++ omap (key_entry Q) ks ∧
       m' = foldr Z.max m (seqno <$> omap (key_entry Q) ks)).
Proof.
  intros HQ. induction ks as [|k ks IH]; intros Hks l m Hl Hm.
  { exists 0, l, m. split_and!; [done|]. intros _. by rewrite app_nil_r. }
  assert (Hks' : ∀ k', k' ∈ ks → is_Some (contents s !! k')) by (intros; apply Hks; by right).
  cbn [restore_queue_loop]. destruct (is_queue_key k) eqn:Hq; cbn [negb].
  2: { destruct (IH Hks' l m Hl Hm) as (rc & l' & m' & E & H). exists rc, l', m'. split; [exact E|]. cbn [omap list_omap].
    assert (Hke : key_entry Q k = None) by (unfold key_entry; by rewrite Hq). by rewrite Hke. }
  destruct (proj1 (proj2 HQ) k (Hks k ltac:(left))) as [?|(n & [qe Hn] & ->)]; [congruence|].
  destruct (proj2 (proj2 HQ) n qe Hn) as (Hnr & Hok & d & Hd & Haf).
  destruct (pget (queue_stem v ++ dec n) s) as [rc d'] eqn:Hget.
  destruct (Z.eqb_spec rc 0) as [->|Hrc].
  2: { unfold after_read. rewrite (proj2 (Z.eqb_neq rc 0)), (proj2 (Z.eqb_neq rc 0)) by done. by exists rc, l, m. }
  apply get_rc in Hget; [|apply HQ|apply queue_key_good; lia]. assert (d' = d) as -> by congruence. rewrite Haf. cbn [Z.eqb].
  unfold restore_entry. rewrite (proj2 (queue_key_is n)), entry_reader_ok by done. cbn [mbind option_bind].
  rewrite key_seqno_dec by (unfold PERSISTENCE_SEQNO_LIMIT in Hnr; lia). cbn [mbind option_bind fst snd].
  set (e := with_seqno (restored_entry v qe) n).
  destruct (IH Hks' (MQTTPersistence_insertInSeqOrder e l) (Z.max m n) (insertInSeqOrder_sorted e l Hl) ltac:(lia))
    as (rc & l' & m' & E & H). exists rc, l', m'. split; [exact E|]. intros Hrc. destruct (H Hrc) as (H1 & H2 & H3).
  assert (He : key_entry Q (queue_stem v ++ dec n) = Some e).
  { unfold key_entry. rewrite Hq, key_seqno_dec by (unfold PERSISTENCE_SEQNO_LIMIT in Hnr; lia). cbn [mbind option_bind]. by rewrite Hn. }
  cbn [omap list_omap]. rewrite He, fmap_cons. split_and!; [done| |].
  - rewrite H2, insertInSeqOrder_perm. by rewrite <-Permutation_middle.
  - cbn [foldr seqno e with_seqno]. rewrite H3. clear.
    induction (seqno <$> omap (key_entry Q) ks) as [|x xs IH]; cbn [foldr]; lia.
Qed.
Definition queue_keys (Q : gmap Z MQTTPersistence_qEntry) : list (list Z) :=
  (λ n, queue_stem v ++ dec n) <$> (map_to_list Q).*1.
Definition queue_entries (Q : gmap Z MQTTPersistence_qEntry) : list MQTTPersistence_qEntry :=
  (λ '(n, qe), with_seqno (restored_entry v qe) n) <$> map_to_list Q.

Lemma queue_keys_NoDup Q s : queue_stored Q s → NoDup (queue_keys Q).
Proof.
  intros (_ & _ & HQ). unfold queue_keys.
  assert (Hr : Forall (λ n, 0 ≤ n < 10 ^ 20) (map_to_list Q).*1).
  { apply Forall_forall. intros n ([n' qe] & -> & Hin%elem_of_map_to_list)%list_elem_of_fmap.
    destruct (HQ _ _ Hin) as [Hn _]. unfold PERSISTENCE_SEQNO_LIMIT in Hn. cbn [fst]. lia. }
  pose proof (NoDup_fst_map_to_list Q) as Hnd. revert Hr Hnd. generalize (map_to_list Q).*1. clear.
  induction l as [|n l IH]; intros Hr Hnd; [constructor|]. rewrite fmap_cons.
  apply Forall_cons in Hr as [Hn Hr]. apply NoDup_cons in Hnd as [Hni Hnd]. apply NoDup_cons. split; [|by apply IH].
  intros (m & E & Hm)%list_elem_of_fmap. apply app_inv_head in E.
  apply dec_inj in E as ->; [done|done|]. rewrite Forall_forall in Hr. by apply Hr.
Qed.

Lemma key_entries_perm Q s ks : queue_stored Q s → NoDup ks → (∀ k, k ∈ ks ↔ is_Some (contents s !! k)) →
  omap (key_entry Q) ks ≡ₚ queue_entries Q.
Proof.
  intros HQ Hnd Hks.
  assert (Hf : omap (key_entry Q) ks = omap (key_entry Q) (filter (λ k, is_queue_key k = true) ks)).
  { clear Hnd Hks. induction ks as [|k ks IH]; [done|]. rewrite filter_cons. cbn [omap list_omap].
    destruct (decide (is_queue_key k = true)) as [Hs|Hs]; cbn [omap list_omap].
    - destruct (key_entry Q k); [by f_equal|done].
    - assert (Hn : key_entry Q k = None) by (unfold key_entry; by destruct (is_queue_key k)). by rewrite Hn. }
  assert (Hp : filter (λ k, is_queue_key k = true) ks ≡ₚ queue_keys Q).
  { apply NoDup_Permutation; [by apply NoDup_filter|by eapply queue_keys_NoDup|]. intros k.
    rewrite list_elem_of_filter, Hks. unfold queue_keys. rewrite list_elem_of_fmap. split.
    - intros [Hq Hk]. destruct (proj1 (proj2 HQ) k Hk) as [?|(n & [qe Hn] & ->)]; [congruence|].
      exists n. split; [done|]. apply list_elem_of_fmap. exists (n, qe). split; [done|by apply elem_of_map_to_list].
    - intros (n & -> & ([n' qe] & -> & Hin%elem_of_map_to_list)%list_elem_of_fmap). cbn [fst].
      split; [apply queue_key_is|]. destruct (proj2 (proj2 HQ) _ _ Hin) as (_ & _ & d & -> & _). by exists d. }
  rewrite Hf, Hp. unfold queue_keys, queue_entries.
  assert (Hl : Forall (λ ne, Q !! ne.1 = Some ne.2 ∧ 0 ≤ ne.1 < 2 ^ 31) (map_to_list Q)).
  { apply Forall_forall. intros [n qe] He%elem_of_map_to_list. cbn [fst snd]. split; [done|].
    destruct (proj2 (proj2 HQ) _ _ He) as [Hn _]. unfold PERSISTENCE_SEQNO_LIMIT in Hn. lia. }
  apply Permutation_refl'. clear Hf Hp Hnd Hks. induction Hl as [|[n qe] l [He Hn] Hl IH]; [done|]. cbn [fst snd] in *.
  rewrite !fmap_cons. cbn [omap list_omap fst]. unfold key_entry at 1.
  rewrite (proj1 (queue_key_is n)), key_seqno_dec by done. cbn [mbind option_bind]. rewrite He. cbn [mbind option_bind].
  by rewrite IH.
Qed.

(** A restart finds the queued messages in the order of their sequence
    numbers, whatever the order in which the store lists them, each as it was
    queued; the next sequence number follows the largest one restored. *)
Theorem restoreMessageQueue_recovers Q s :
  queue_stored Q s →
  ∃ rc l m, MQTTPersistence_restoreMessageQueue afterRead true ([], 0) s = Some (rc, (l, m)) ∧
    (rc = 0 → StronglySorted by_seqno l ∧ l ≡ₚ queue_entries Q ∧
       (∀ qe, qe ∈ l → seqno qe ≤ m) ∧ (m = 0 ∨ ∃ qe, qe ∈ l ∧ seqno qe = m)).
Proof.
  intros HQ. unfold MQTTPersistence_restoreMessageQueue. cbn [negb].
  destruct (pkeys s) as [rc ks] eqn:Hkeys. destruct (Z.eqb_spec rc 0) as [->|Hrc]; cbn [negb]; [|by exists rc, [], 0].
  apply keys_rc in Hkeys as [Hnd Hks]; [|apply HQ].
  destruct (restore_queue_loop_ok Q s ks HQ ltac:(intros k; apply Hks) [] 0) as (rc & l & m & E & H); [constructor|lia|].
  exists rc, l, m. split; [exact E|]. intros Hrc. destruct (H Hrc) as (H1 & H2 & H3). cbn [app] in H2.
  split; [done|]. split; [rewrite H2; by eapply key_entries_perm|].
  assert (Hmax : ∀ xs, (∀ x, x ∈ xs → x ≤ foldr Z.max 0 xs) ∧ (foldr Z.max 0 xs = 0 ∨ foldr Z.max 0 xs ∈ xs)).
  { induction xs as [|x xs [IH1 IH2]]; cbn [foldr]; [split; [by intros x Hx%elem_of_nil|by left]|]. split.
    - intros y [->|Hy]%elem_of_cons; [lia|]. specialize (IH1 y Hy). lia.
    - destruct (Z.max_spec x (foldr Z.max 0 xs)) as [[_ ->]|[_ ->]]; [|right; left].
      destruct IH2 as [?|?]; [by left|right; by right]. }
  destruct (Hmax (seqno <$> omap (key_entry Q) ks)) as [Hm1 Hm2]. rewrite <-H3 in Hm1, Hm2. split.
  - intros qe Hin. apply Hm1, list_elem_of_fmap. exists qe. split; [done|by rewrite <-H2].
  - destruct Hm2 as [?|(qe & -> & Hin)%list_elem_of_fmap]; [by left|right]. exists qe. split; [by rewrite H2|done].
Qed.
End QueueRun.

Definition sample_qentry : MQTTPersistence_qEntry :=
  mkQEntry (mkPMessage 1 2 [7; 8] 1 0 0 5 sample_props) (bs "hall/1") 0 0.

Lemma sample_qentry_ok v : qentry_ok v sample_qentry.
Proof.
  split; try done.
  - apply (bool_decide_eq_true_1 _). vm_compute. reflexivity.
  - intros _. split; [apply sample_props_ok|done].
Qed.

Lemma persistQueueEntry_spec_witness :
  qentry_ok 5 sample_qentry ∧
  ∃ rc, 0 < rc ∧ MQTTPersistence_persistQueueEntry None 5 true sample_qentry 999999 (∅ : mem_store) =
    Some (rc, 0, with_seqno sample_qentry 0, ∅).
Proof.
  split; [apply sample_qentry_ok|].
  exact (proj1 (persistQueueEntry_spec None 5 sample_qentry 999999 (∅ : mem_store) (sample_qentry_ok 5) ltac:(done))
           (Z.le_refl 5) eq_refl).
Defined.

Lemma restoreMessageQueue_recovers_witness :
  let Q : gmap Z MQTTPersistence_qEntry := {[ 12 := sample_qentry ]} in
  let s : mem_store := {[ queue_stem 4 ++ dec 12 := record_of 4 sample_qentry ]} in
  queue_stored None 4 Q s ∧
  ∃ rc l m, MQTTPersistence_restoreMessageQueue None true ([], 0) s = Some (rc, (l, m)).
Proof.
  intros Q s.
  assert (HQ : queue_stored None 4 Q s).
  { split; [exact I|]. split; unfold contents; cbn; unfold id, s, Q.
    - intros k [d [<- _]%lookup_singleton_Some]. right. exists 12. split; [by rewrite lookup_singleton_eq|done].
    - intros n qe [<- <-]%lookup_singleton_Some. split; [done|]. split; [apply sample_qentry_ok|].
      exists (record_of 4 sample_qentry). split; vm_compute; reflexivity. }
  split; [exact HQ|]. destruct (restoreMessageQueue_recovers None 4 Q s HQ) as (rc & l & m & E & _). by exists rc, l, m.
Defined.

End PersistenceQueue.
