(* ===== verification/PersistenceDefault.v ===== *)
(** * The file system store (paho.mqtt.c/src/MQTTPersistenceDefault.c, Unix)

    One directory per client, one file per record.  The system calls are a
    parameter, with what the code relies on as laws; the store is shown to keep
    the contract that the persistence needs, except for [pstclear]. *)
From S2P Require Import Prelude Libc Props Persistence PersistenceSpec.

Module PersistenceDefault.
Import Libc Properties Persistence PersistenceSpec.

(** ** The file system

    Paths are strings without their terminator; the paths of one file are one
    string.  A call answers [errno], [None] for success. *)

Definition ENOENT := 2.
Definition EEXIST := 17.
Definition ENOTEMPTY := 39.

Class FileSystem (F : Type) := {
  mkdir : list Z → F → option Z * F;
  rmdir : list Z → F → option Z * F;
  unlink : list Z → F → option Z * F;
  (** [fopen(p, "wb")]: whether the file is open, and then empty. *)
  fopen_wb : list Z → F → bool * F;
  (** [fwrite] at the end of the file: the bytes written. *)
  fwrite : list Z → list Z → F → Z * F;
  (** [fclose] writes what the stream has kept; the code does not look at its answer. *)
  fclose : list Z → F → F;
  (** [fopen(p, "rb")], then the length found by [ftell] and the bytes of [fread]. *)
  fread_all : list Z → F → option (Z * list Z);
  (** The names that [readdir] gives, [None] if [opendir] fails. *)
  readdir : list Z → F → option (list (list Z));
  (** [None] if [lstat] fails, else whether the file is a regular one. *)
  lstat : list Z → F → option bool
}.

Definition in_dir (dir name : list Z) : list Z := dir ++ [47] ++ name.

(** The regular files by path, and how the calls change them. *)
Class FileSystemLaws (F : Type) `{!FileSystem F} := {
  files : F → gmap (list Z) (list Z);
  mkdir_files p f : files (snd (mkdir p f)) = files f;
  rmdir_files p f : files (snd (rmdir p f)) = files f;
  unlink_files p f : let '(e, f') := unlink p f in
    (e = None ∧ files f' = delete p (files f)) ∨
    (∃ n, e = Some n ∧ files f' = files f ∧ (n = ENOENT → files f !! p = None));
  fopen_files p f : let '(ok, f') := fopen_wb p f in
    files f' = if ok : bool then <[p := []]> (files f) else files f;
  fwrite_files p d f : let '(n, f') := fwrite p d f in
    0 ≤ n ≤ len d ∧ files f' = <[p := default [] (files f !! p) ++ take (Z.to_nat n) d]> (files f);
  (** The bytes counted by [fwrite] are still there once the file is closed: a device
      that is found full only then is left out (see [lost_at_close]). *)
  fclose_files p f : files (fclose p f) = files f;
  fread_files p f l d : fread_all p f = Some (l, d) →
    ∃ c, files f !! p = Some c ∧ l = len c ∧ d = take (length d) c;
  readdir_files dir f names : readdir dir f = Some names →
    NoDup names ∧ Forall (λ name, 47 ∉ name) names ∧
    ∀ name, 47 ∉ name → is_Some (files f !! in_dir dir name) → name ∈ names;
  (** The directory of a file can be opened. *)
  readdir_opens dir f name : is_Some (files f !! in_dir dir name) → is_Some (readdir dir f);
  lstat_files p f : lstat p f = Some true ↔ is_Some (files f !! p)
}.

(** ** The directory of a client *)

Definition is_sep (c : Z) : bool := (c =? 92) || (c =? 47).

(** The tokens of [strtok_r(s, "\\/", ...)]; [cur] is the token being read. *)
Fixpoint tokens (cur s : list Z) : list (list Z) :=
  let emit := match cur with [] => [] | _ => [cur] end in
  match s with
  | [] => emit
  | c :: s' => if is_sep c then emit ++ tokens [] s' else tokens (cur ++ [c]) s'
  end.

(** [:] is not allowed in the names of Windows directories. *)
Definition dir_uri (serverURI : list Z) : list Z := (λ c, if c =? 58 then 45 else c) <$> serverURI.
Definition client_dir (dataDir clientID serverURI : list Z) : list Z :=
  dataDir ++ [47] ++ clientID ++ [45] ++ dir_uri serverURI.

Definition MESSAGE_FILENAME_EXTENSION := bs ".msg".
Definition record_path (clientDir key : list Z) : list Z := in_dir clientDir (key ++ MESSAGE_FILENAME_EXTENSION).
(** A file name up to the first occurrence of the extension. *)
Definition strip_extension (name : list Z) : list Z :=
  match strstr name MESSAGE_FILENAME_EXTENSION with Some (k, _) => k | None => name end.

Section Store.
Context {F : Type} `{!FileSystem F}.

Definition pstmkdir (pPathname : list Z) (f : F) : Z * F :=
  let '(e, f') := mkdir pPathname f in
  (match e with Some n => if n =? EEXIST then 0 else MQTTCLIENT_PERSISTENCE_ERROR | None => 0 end, f').

Fixpoint make_dirs (pCrtDirName : list Z) (toks : list (list Z)) (rc : Z) (f : F) : Z * F :=
  match toks with
  | [] => (rc, f)
  | pToken :: toks' =>
      if rc =? 0 then
        let pCrtDirName := pCrtDirName ++ [47] ++ pToken in
        let '(rc, f') := pstmkdir pCrtDirName f in
        make_dirs pCrtDirName toks' rc f'
      else (rc, f)
  end.

(** The return code and the handle; [None] would be a copy from the NULL token. *)
Definition pstopen (clientID serverURI dataDir : list Z) (f : F) : option (Z * list Z * F) :=
  let clientDir := client_dir dataDir clientID serverURI in
  let '(prefix, rest) :=
    match clientDir with c :: s => if is_sep c then ([c], s) else ([], clientDir) | [] => ([], []) end in
  match tokens [] rest with
  | [] => None
  | pToken :: toks =>
      let '(rc, f') := pstmkdir (prefix ++ pToken) f in
      let '(rc, f'') := make_dirs (prefix ++ pToken) toks rc f' in
      Some (rc, clientDir, f'')
  end.

Definition pstremove (handle : option (list Z)) (key : list Z) (f : F) : Z * F :=
  match handle with
  | None => (MQTTCLIENT_PERSISTENCE_ERROR, f)
  | Some clientDir =>
      let '(e, f') := unlink (record_path clientDir key) f in
      (match e with Some n => if n =? ENOENT then 0 else MQTTCLIENT_PERSISTENCE_ERROR | None => 0 end, f')
  end.

(** [bytesTotal], [bytesWritten]. *)
Fixpoint write_buffers (file : list Z) (buffers : list (list Z)) (total written : Z) (f : F) : Z * Z * F :=
  match buffers with
  | [] => (total, written, f)
  | b :: buffers' =>
      let '(n, f') := fwrite file b f in
      write_buffers file buffers' (total + len b) (written + n) f'
  end.

Definition pstput (handle : option (list Z)) (key : list Z) (buffers : list (list Z)) (f : F) : Z * F :=
  match handle with
  | None => (MQTTCLIENT_PERSISTENCE_ERROR, f)
  | Some clientDir =>
      let file := record_path clientDir key in
      let '(ok, f) := fopen_wb file f in
      let '(rc, total, written, f) :=
        if ok : bool then let '(total, written, f) := write_buffers file buffers 0 0 f in (0, total, written, fclose file f)
        else (MQTTCLIENT_PERSISTENCE_ERROR, 0, 0, f) in
      if written =? total then (rc, f) else (MQTTCLIENT_PERSISTENCE_ERROR, snd (pstremove handle key f))
  end.

Definition pstget (handle : option (list Z)) (key : list Z) (f : F) : Z * list Z :=
  match handle with
  | None => (MQTTCLIENT_PERSISTENCE_ERROR, [])
  | Some clientDir =>
      match fread_all (record_path clientDir key) f with
      | None => (MQTTCLIENT_PERSISTENCE_ERROR, [])
      | Some (fileLen, buf) => (if len buf =? fileLen then 0 else MQTTCLIENT_PERSISTENCE_ERROR, buf)
      end
  end.

(** The handle is freed. *)
Definition pstclose (handle : option (list Z)) (f : F) : Z * F :=
  match handle with
  | None => (MQTTCLIENT_PERSISTENCE_ERROR, f)
  | Some clientDir =>
      let '(e, f') := rmdir clientDir f in
      (match e with
       | Some n => if (n =? ENOENT) || (n =? ENOTEMPTY) then 0 else MQTTCLIENT_PERSISTENCE_ERROR
       | None => 0
       end, f')
  end.

(** The result of [lstat] is not tested: its structure is then what it was; the
    names of the directory can be looked up, so it is taken as not regular. *)
Definition is_regular (p : list Z) (f : F) : bool := match lstat p f with Some b => b | None => false end.

Fixpoint containskey_loop (dirname key : list Z) (names : list (list Z)) (f : F) : Z :=
  match names with
  | [] => MQTTCLIENT_PERSISTENCE_ERROR
  | name :: names' =>
      if is_regular (in_dir dirname name) f && bool_decide (strip_extension name = key) then 0
      else containskey_loop dirname key names' f
  end.

Definition containskeyUnix (dirname key : list Z) (f : F) : Z :=
  match readdir dirname f with
  | None => MQTTCLIENT_PERSISTENCE_ERROR
  | Some names => containskey_loop dirname key names f
  end.

Definition pstcontainskey (handle : option (list Z)) (key : list Z) (f : F) : Z :=
  match handle with None => MQTTCLIENT_PERSISTENCE_ERROR | Some clientDir => containskeyUnix clientDir key f end.

(** The names are not put in the directory: [lstat] and [remove] take them in
    the working directory. *)
Fixpoint clear_loop (names : list (list Z)) (f : F) : Z * F :=
  match names with
  | [] => (0, f)
  | name :: names' =>
      if is_regular name f then
        let '(e, f') := unlink name f in
        match e with
        | Some n => if n =? ENOENT then clear_loop names' f' else (MQTTCLIENT_PERSISTENCE_ERROR, f')
        | None => clear_loop names' f'
        end
      else clear_loop names' f
  end.

Definition clearUnix (dirname : list Z) (f : F) : Z * F :=
  match readdir dirname f with
  | None => (MQTTCLIENT_PERSISTENCE_ERROR, f)
  | Some names => clear_loop names f
  end.

Definition pstclear (handle : option (list Z)) (f : F) : Z * F :=
  match handle with None => (MQTTCLIENT_PERSISTENCE_ERROR, f) | Some clientDir => clearUnix clientDir f end.

Definition keysUnix (dirname : list Z) (f : F) : Z * list (list Z) :=
  match readdir dirname f with
  | None => (MQTTCLIENT_PERSISTENCE_ERROR, [])
  | Some names =>
      (0, strip_extension <$> filter (λ name, is_regular (in_dir dirname name) f = true) names)
  end.

Definition pstkeys (handle : option (list Z)) (f : F) : Z * list (list Z) :=
  match handle with None => (MQTTCLIENT_PERSISTENCE_ERROR, []) | Some clientDir => keysUnix clientDir f end.
End Store.

(** ** The store of a client *)

Record pst (F : Type) := mkPst { p_context : list Z; p_handle : option (list Z); p_fs : F }.
Arguments mkPst {F} _ _ _.
Arguments p_context {F} _.
Arguments p_handle {F} _.
Arguments p_fs {F} _.

Definition with_fs {F} (s : pst F) (f : F) : pst F := mkPst (p_context s) (p_handle s) f.

Section Instance_.
Context {F : Type} `{!FileSystem F}.

#[export] Instance pst_ops : Store (pst F) := {
  popen clientID serverURI s :=
    match pstopen clientID serverURI (p_context s) (p_fs s) with
    | Some (rc, clientDir, f) => (rc, mkPst (p_context s) (Some clientDir) f)
    | None => (MQTTCLIENT_PERSISTENCE_ERROR, s)
    end;
  pclose s := let '(rc, f) := pstclose (p_handle s) (p_fs s) in (rc, mkPst (p_context s) None f);
  pput key bufs s := let '(rc, f) := pstput (p_handle s) key bufs (p_fs s) in (rc, with_fs s f);
  pget key s := pstget (p_handle s) key (p_fs s);
  premove key s := let '(rc, f) := pstremove (p_handle s) key (p_fs s) in (rc, with_fs s f);
  pkeys s := pstkeys (p_handle s) (p_fs s);
  pclear s := let '(rc, f) := pstclear (p_handle s) (p_fs s) in (rc, with_fs s f);
  pcontainskey key s := pstcontainskey (p_handle s) key (p_fs s)
}.
End Instance_.

(** ** Paths and keys *)

Lemma in_dir_inj dir n1 n2 : in_dir dir n1 = in_dir dir n2 → n1 = n2.
Proof. unfold in_dir. intros E. apply app_inv_head in E. by injection E. Qed.

Lemma record_path_inj dir k1 k2 : record_path dir k1 = record_path dir k2 → k1 = k2.
Proof. intros E. apply in_dir_inj in E. by apply app_inv_tail in E. Qed.

Lemma strip_good k : 46 ∉ k → strip_extension (k ++ MESSAGE_FILENAME_EXTENSION) = k.
Proof.
  intros Hk. unfold strip_extension.
  assert (E : strstr (k ++ MESSAGE_FILENAME_EXTENSION) MESSAGE_FILENAME_EXTENSION = Some (k, MESSAGE_FILENAME_EXTENSION)).
  { induction k as [|c k IH]; [reflexivity|]. apply not_elem_of_cons in Hk as [Hc Hk]. cbn [app strstr].
    change MESSAGE_FILENAME_EXTENSION with (46 :: [109; 115; 103]) at 1. cbn [starts_with].
    rewrite (proj2 (Z.eqb_neq 46 c)) by done. cbn [andb]. by rewrite IH. }
  by rewrite E.
Qed.

Lemma good_name k : good_key k → 47 ∉ k ++ MESSAGE_FILENAME_EXTENSION.
Proof.
  intros [_ Hk]. rewrite elem_of_app. intros [?|Hin]; [done|]. revert Hin. apply (bool_decide_eq_false_1 _). vm_compute. reflexivity.
Qed.

(** [pstopen] has a first token: the dash before the address is in one. *)
Lemma tokens_cons cur s c : c ∈ s → is_sep c = false → tokens cur s ≠ [].
Proof.
  revert cur. induction s as [|a s IH]; intros cur Hin Hc; [by apply elem_of_nil in Hin|]. cbn [tokens].
  apply elem_of_cons in Hin as [<-|Hin].
  - rewrite Hc. assert (H : ∀ l cur, cur ≠ [] → tokens cur l ≠ []).
    { clear. induction l as [|a l IH]; intros cur Hcur; cbn [tokens]; [by destruct cur|].
      destruct (is_sep a); [by destruct cur|]. apply IH. by destruct cur. }
    apply H. by destruct cur.
  - destruct (is_sep a); [|by apply IH]. intros E. apply app_nil in E as [_ E]. revert E. by apply IH.
Qed.

Lemma pstopen_total {F} `{!FileSystem F} clientID serverURI dataDir (f : F) :
  is_Some (pstopen clientID serverURI dataDir f).
Proof.
  unfold pstopen. set (cd := client_dir _ _ _).
  assert (Hin : 45 ∈ cd) by (unfold cd, client_dir; rewrite !elem_of_app; set_solver).
  assert (Hr : ∀ rest, 45 ∈ rest → tokens [] rest ≠ []) by (intros; by eapply tokens_cons).
  destruct cd as [|c s] eqn:E; [by apply elem_of_nil in Hin|].
  destruct (is_sep c) eqn:Hc.
  - apply elem_of_cons in Hin as [<-|Hin]; [done|]. specialize (Hr s Hin). destruct (tokens [] s) as [|t ts]; [done|].
    destruct (pstmkdir _ f) as [rc f']. destruct (make_dirs _ ts rc f') as [rc' f'']. by eexists.
  - specialize (Hr (c :: s) Hin). destruct (tokens [] (c :: s)) as [|t ts]; [done|].
    destruct (pstmkdir _ f) as [rc f']. destruct (make_dirs _ ts rc f') as [rc' f'']. by eexists.
Qed.

(** ** The contract of the store *)

Section Laws.
Context {F : Type} `{!FileSystem F, !FileSystemLaws F}.

(** The key of a path of the directory, if it is the path of a record. *)
Definition key_of_path (dir p : list Z) : option (list Z) :=
  let k := take (length p - length dir - 5) (drop (S (length dir)) p) in
  if decide (p = record_path dir k) then Some k else None.

Lemma key_of_record dir k : key_of_path dir (record_path dir k) = Some k.
Proof.
  unfold key_of_path. assert (E : take (length (record_path dir k) - length dir - 5) (drop (S (length dir)) (record_path dir k)) = k).
  { unfold record_path, in_dir. rewrite !length_app. cbn [length].
    replace (dir ++ [47] ++ k ++ MESSAGE_FILENAME_EXTENSION) with ((dir ++ [47]) ++ k ++ MESSAGE_FILENAME_EXTENSION) by (by rewrite <-app_assoc).
    replace (S (length dir)) with (length (dir ++ [47])) by (rewrite length_app; cbn [length]; lia).
    rewrite drop_app_length. change (length MESSAGE_FILENAME_EXTENSION) with 4%nat.
    replace (length dir + (1 + (length k + 4)) - length dir - 5)%nat with (length k) by lia. apply take_app_length. }
  rewrite E. by rewrite decide_True.
Qed.

Lemma key_of_path_Some dir p k : key_of_path dir p = Some k → p = record_path dir k.
Proof. unfold key_of_path. case_decide as H; [|done]. intros [= <-]. exact H. Qed.

Definition dir_contents (dir : list Z) (m : gmap (list Z) (list Z)) : gmap (list Z) (list Z) :=
  set_to_map (λ k, (k, default [] (m !! record_path dir k)))
    (list_to_set (C := gset (list Z)) (omap (key_of_path dir) (map_to_list m).*1)).

Lemma dir_contents_lookup dir m k : dir_contents dir m !! k = m !! record_path dir k.
Proof.
  apply option_eq. intros d. unfold dir_contents. rewrite lookup_set_to_map by done. split.
  - intros (k' & Hk' & [= -> <-]). apply elem_of_list_to_set, list_elem_of_omap in Hk' as (p & Hp & Hk).
    apply key_of_path_Some in Hk as ->. apply list_elem_of_fmap in Hp as ([p' d'] & -> & Hin%elem_of_map_to_list).
    cbn [fst]. by rewrite Hin.
  - intros Hd. exists k. rewrite Hd. split; [|done]. apply elem_of_list_to_set, list_elem_of_omap.
    exists (record_path dir k). split; [|apply key_of_record]. apply list_elem_of_fmap.
    exists (record_path dir k, d). split; [done|by apply elem_of_map_to_list].
Qed.

Definition pst_contents (s : pst F) : gmap (list Z) (list Z) :=
  match p_handle s with None => ∅ | Some dir => dir_contents dir (files (p_fs s)) end.

(** Only records are in the directory of the client. *)
Definition dir_ok (dir : list Z) (m : gmap (list Z) (list Z)) : Prop :=
  ∀ name, is_Some (m !! in_dir dir name) → ∃ k, good_key k ∧ name = k ++ MESSAGE_FILENAME_EXTENSION.
Definition pst_ok (s : pst F) : Prop :=
  match p_handle s with None => True | Some dir => dir_ok dir (files (p_fs s)) end.

Lemma dir_ok_insert dir m k d : dir_ok dir m → good_key k → dir_ok dir (<[record_path dir k := d]> m).
Proof.
  intros Hok Hk name. destruct (decide (record_path dir k = in_dir dir name)) as [E|Hne].
  - intros _. exists k. split; [done|]. symmetry. by apply in_dir_inj in E.
  - rewrite lookup_insert_ne by done. apply Hok.
Qed.

Lemma dir_ok_delete dir m p : dir_ok dir m → dir_ok dir (delete p m).
Proof.
  intros Hok name [x Hx]. apply Hok. apply lookup_delete_Some in Hx as [_ Hx]. by exists x.
Qed.

Lemma dir_contents_insert dir m k d :
  dir_contents dir (<[record_path dir k := d]> m) = <[k := d]> (dir_contents dir m).
Proof.
  apply map_eq. intros k'. rewrite dir_contents_lookup. destruct (decide (k = k')) as [->|Hne].
  - by rewrite !lookup_insert_eq.
  - rewrite !lookup_insert_ne; [by rewrite dir_contents_lookup|done|]. intros E. by apply record_path_inj in E.
Qed.

Lemma dir_contents_delete dir m k :
  dir_contents dir (delete (record_path dir k) m) = delete k (dir_contents dir m).
Proof.
  apply map_eq. intros k'. rewrite dir_contents_lookup. destruct (decide (k = k')) as [->|Hne].
  - by rewrite !lookup_delete_eq.
  - rewrite !lookup_delete_ne; [by rewrite dir_contents_lookup|done|]. intros E. by apply record_path_inj in E.
Qed.

(** The buffers written, whole or not. *)
Lemma write_buffers_files file bufs total written f c : files f !! file = Some c →
  let '(total', written', f') := write_buffers file bufs total written f in
  ∃ d, files f' = <[file := c ++ d]> (files f) ∧ written' - written ≤ total' - total ∧
    (written' - written = total' - total → d = concat bufs).
Proof.
  revert total written f c. induction bufs as [|b bufs IH]; intros total written f c Hc; cbn [write_buffers].
  { exists []. rewrite app_nil_r. split; [by rewrite insert_id|]. split; [lia|done]. }
  pose proof (fwrite_files file b f) as Hw. destruct (fwrite file b f) as [n f1]. destruct Hw as [Hn Hf].
  rewrite Hc in Hf. cbn [default] in Hf.
  assert (Hc1 : files f1 !! file = Some (c ++ take (Z.to_nat n) b)) by (rewrite Hf; apply lookup_insert_eq).
  specialize (IH (total + len b) (written + n) f1 _ Hc1).
  destruct (write_buffers file bufs _ _ f1) as [[total' written'] f']. destruct IH as (d & Hf' & Hle & Heq).
  exists (take (Z.to_nat n) b ++ d). split; [|split; [lia|]].
  - rewrite Hf', Hf, insert_insert_eq, app_assoc. done.
  - intros E. cbn [concat]. rewrite (take_ge b) by lia. rewrite Heq by lia. done.
Qed.

Lemma pstremove_laws dir key f : dir_ok dir (files f) →
  let '(rc, f') := pstremove (Some dir) key f in
  dir_ok dir (files f') ∧
  ((rc = 0 ∧ dir_contents dir (files f') = delete key (dir_contents dir (files f))) ∨
   (rc = MQTTCLIENT_PERSISTENCE_ERROR ∧ dir_contents dir (files f') = dir_contents dir (files f))).
Proof.
  intros Hok. unfold pstremove. pose proof (unlink_files (record_path dir key) f) as H.
  destruct (unlink _ f) as [e f']. destruct H as [[-> Hf]|(n & -> & Hf & Hn)].
  - rewrite Hf. split; [by apply dir_ok_delete|]. left. split; [done|apply dir_contents_delete].
  - rewrite Hf. split; [done|]. destruct (Z.eqb_spec n ENOENT) as [E|E]; [left|by right].
    split; [done|]. symmetry. apply delete_id. rewrite dir_contents_lookup. by apply Hn.
Qed.

Lemma pstput_laws dir key bufs f : dir_ok dir (files f) → good_key key →
  let '(rc, f') := pstput (Some dir) key bufs f in
  dir_ok dir (files f') ∧
  ((rc = 0 ∧ dir_contents dir (files f') = <[key := concat bufs]> (dir_contents dir (files f))) ∨
   (rc = MQTTCLIENT_PERSISTENCE_ERROR ∧
    ∀ k', k' ≠ key → dir_contents dir (files f') !! k' = dir_contents dir (files f) !! k')).
Proof.
  intros Hok Hk. unfold pstput. set (file := record_path dir key).
  pose proof (fopen_files file f) as Ho. destruct (fopen_wb file f) as [ok f1]. destruct ok; cbn iota.
  2: { cbn. rewrite Ho. split; [done|]. right. done. }
  assert (Hc1 : files f1 !! file = Some []) by (rewrite Ho; apply lookup_insert_eq).
  pose proof (write_buffers_files file bufs 0 0 f1 [] Hc1) as Hw.
  destruct (write_buffers file bufs 0 0 f1) as [[total written] f2]. destruct Hw as (d & Hf2 & _ & Heq).
  rewrite Ho, insert_insert_eq in Hf2. cbn [app] in Hf2. rewrite <-(fclose_files file f2) in Hf2. set (f4 := fclose file f2) in *.
  destruct (Z.eqb_spec written total) as [E|E].
  - rewrite Hf2. split; [by apply dir_ok_insert|]. left. split; [done|]. unfold file. rewrite dir_contents_insert, Heq by lia. done.
  - assert (Hok2 : dir_ok dir (files f4)) by (rewrite Hf2; by apply dir_ok_insert).
    pose proof (pstremove_laws dir key f4 Hok2) as Hr. destruct (pstremove (Some dir) key f4) as [rc f3]. cbn [snd].
    destruct Hr as [Hok3 Hr]. split; [done|]. right. split; [done|]. intros k' Hne.
    assert (H2 : dir_contents dir (files f4) !! k' = dir_contents dir (files f) !! k').
    { rewrite Hf2. unfold file. rewrite dir_contents_insert. by rewrite lookup_insert_ne. }
    destruct Hr as [[_ ->]|[_ ->]]; [|done]. by rewrite lookup_delete_ne.
Qed.

Lemma is_regular_files p f : is_regular p f = true ↔ is_Some (files f !! p).
Proof.
  unfold is_regular. rewrite <-lstat_files. destruct (lstat p f) as [[|]|]; (split; [done|]); intros H; congruence.
Qed.

Lemma containskey_laws dir key f : dir_ok dir (files f) → good_key key →
  pstcontainskey (Some dir) key f = 0 ↔ is_Some (dir_contents dir (files f) !! key).
Proof.
  intros Hok Hk. cbn [pstcontainskey]. unfold containskeyUnix. rewrite dir_contents_lookup.
  destruct (readdir dir f) as [names|] eqn:Hr.
  2: { split; [done|]. intros Hs. apply readdir_opens in Hs as [? ?]. congruence. }
  apply readdir_files in Hr as (_ & _ & Hin).
  assert (H : containskey_loop dir key names f = 0 ↔ key ++ MESSAGE_FILENAME_EXTENSION ∈ names ∧ is_Some (files f !! record_path dir key)).
  { clear Hin. induction names as [|name names IH]; cbn [containskey_loop].
    - split; [done|]. intros [H _]. by apply elem_of_nil in H.
    - destruct (is_regular (in_dir dir name) f && bool_decide (strip_extension name = key)) eqn:E.
      + apply andb_true_iff in E as [E1%is_regular_files E2%bool_decide_eq_true]. split; [intros _|done].
        destruct (Hok _ E1) as (k & Hgk & ->). rewrite strip_good in E2 by apply Hgk. subst k. split; [left|done].
      + rewrite IH, elem_of_cons. split; [tauto|]. intros [[<-|?] Hs]; [|done]. exfalso.
        apply andb_false_iff in E as [E|E].
        * apply not_true_iff_false in E. apply E, is_regular_files, Hs.
        * apply bool_decide_eq_false in E. by rewrite strip_good in E by apply Hk. }
  rewrite H. split; [tauto|]. intros Hs. split; [|done]. apply Hin; [by apply good_name|done].
Qed.

Lemma keys_laws dir f l : dir_ok dir (files f) → pstkeys (Some dir) f = (0, l) →
  NoDup l ∧ ∀ k, k ∈ l ↔ is_Some (dir_contents dir (files f) !! k).
Proof.
  intros Hok. cbn [pstkeys]. unfold keysUnix. destruct (readdir dir f) as [names|] eqn:Hr; [|done]. intros [= <-].
  apply readdir_files in Hr as (Hnd & _ & Hin).
  assert (Hreg : Forall (λ name, ∃ k, good_key k ∧ name = k ++ MESSAGE_FILENAME_EXTENSION)
                   (filter (λ name, is_regular (in_dir dir name) f = true) names)).
  { apply Forall_forall. intros name [Hs%is_regular_files _]%list_elem_of_filter. by apply Hok. }
  split.
  - assert (Hnd' := NoDup_filter (λ name, is_regular (in_dir dir name) f = true) names Hnd). revert Hreg Hnd'.
    generalize (filter (λ name, is_regular (in_dir dir name) f = true) names). clear.
    induction l as [|n l IH]; intros Hreg Hnd; [constructor|]. rewrite fmap_cons.
    apply Forall_cons in Hreg as [(k & Hk & ->) Hreg]. apply NoDup_cons in Hnd as [Hni Hnd]. apply NoDup_cons.
    split; [|by apply IH]. intros (n' & E & Hn')%list_elem_of_fmap.
    rewrite Forall_forall in Hreg. destruct (Hreg _ Hn') as (k' & Hk' & ->).
    rewrite !strip_good in E by (apply Hk || apply Hk'). by subst.
  - intros k. rewrite list_elem_of_fmap, dir_contents_lookup. split.
    + intros (name & -> & [Hs%is_regular_files Hn]%list_elem_of_filter). destruct (Hok _ Hs) as (k & Hgk & ->).
      by rewrite strip_good by apply Hgk.
    + intros Hs. destruct (Hok _ Hs) as (k' & Hgk & E). apply app_inv_tail in E as <-.
      exists (k ++ MESSAGE_FILENAME_EXTENSION). split; [by rewrite strip_good by apply Hgk|].
      apply list_elem_of_filter. split; [by apply is_regular_files|]. apply Hin; [by apply good_name|done].
Qed.
#[export] Program Instance pst_laws : StoreLaws (pst F) := { contents := pst_contents; store_ok := pst_ok }.
Next Obligation.
  intros k bufs [c [dir|] f] Hok Hk; unfold pst_contents, pst_ok in *; cbn in *.
  - pose proof (pstput_laws dir k bufs f Hok Hk) as H. unfold pstput in H. cbn in H.
    destruct (fopen_wb _ f) as [ok f1]. destruct (if ok then _ else _) as [[[rc total] written] f2].
    destruct (written =? total); exact H.
  - split; [done|]. right. done.
Qed.
Next Obligation.
  intros k [c [dir|] f] d Hok Hk; unfold pst_contents; cbn; [|done].
  destruct (fread_all _ f) as [[l buf]|] eqn:E; [|done]. apply fread_files in E as (x & Hx & -> & Hb).
  destruct (Z.eqb_spec (len buf) (len x)) as [El|El]; [|done]. intros [= <-].
  rewrite dir_contents_lookup, Hx, Hb. f_equal. symmetry. apply take_ge. lia.
Qed.
Next Obligation.
  intros k [c [dir|] f] Hok Hk; unfold pst_contents, pst_ok in *; cbn in *.
  - pose proof (pstremove_laws dir k f Hok) as H. unfold pstremove in H.
    destruct (unlink _ f) as [e f']. exact H.
  - split; [done|]. right. done.
Qed.
Next Obligation.
  intros [c [dir|] f] l Hok; unfold pst_contents; cbn; [|done]. by apply keys_laws.
Qed.
Next Obligation.
  intros k [c [dir|] f] Hok Hk; unfold pst_contents; cbn.
  - by apply containskey_laws.
  - rewrite lookup_empty. split; [done|by intros [? ?]].
Qed.
End Laws.

(** ** Refinement of a map *)

Inductive store_op := OPut (k : list Z) (bufs : list (list Z)) | ORemove (k : list Z).
Definition op_key (o : store_op) : list Z := match o with OPut k _ => k | ORemove k => k end.

Definition run_op {S} `{!Store S} (o : store_op) (s : S) : Z * S :=
  match o with OPut k bufs => pput k bufs s | ORemove k => premove k s end.
(** The state after a sequence of operations, if they all answer success. *)
Fixpoint run_ops {S} `{!Store S} (os : list store_op) (s : S) : option S :=
  match os with
  | [] => Some s
  | o :: os' => let '(rc, s') := run_op o s in if rc =? 0 then run_ops os' s' else None
  end.
Definition map_op (m : mem_store) (o : store_op) : mem_store :=
  match o with OPut k bufs => <[k := concat bufs]> m | ORemove k => delete k m end.

(** C25: The file system store is a map of its keys: after any operations on good
    keys that answer success, from a directory that holds only records, it has
    the contents of a map after the same operations; what it reads, finds and
    lists is what is in the map.  The calls of the system do what the laws of
    [FileSystemLaws] say; in particular closing a file loses nothing of what was
    written to it (the code does not test this, see the findings). *)
Theorem pst_refines_map {F} `{!FileSystem F, !FileSystemLaws F} os (s s' : pst F) :
  store_ok s → Forall (λ o, good_key (op_key o)) os → run_ops os s = Some s' →
  let m := foldl map_op (contents s) os in
  contents s' = m ∧
  (∀ k d, good_key k → pget k s' = (0, d) → m !! k = Some d) ∧
  (∀ k, good_key k → pcontainskey k s' = 0 ↔ is_Some (m !! k)) ∧
  (∀ l, pkeys s' = (0, l) → NoDup l ∧ ∀ k, k ∈ l ↔ is_Some (m !! k)).
Proof.
  intros Hok Hos Hrun.
  assert (H : store_ok s' ∧ contents s' = foldl map_op (contents s) os).
  { revert s Hok Hrun. induction Hos as [|o os Ho Hos IH]; intros s Hok Hrun; cbn [run_ops foldl] in *.
    - injection Hrun as <-. done.
    - assert (Hs : ∀ rc s1, run_op o s = (rc, s1) → rc = 0 → store_ok s1 ∧ contents s1 = map_op (contents s) o).
      { intros rc s1 E ->. unfold run_op in E. destruct o as [k bufs|k]; cbn [op_key map_op] in *.
        - pose proof (put_rc k bufs s Hok Ho) as Hp. rewrite E in Hp. destruct Hp as [? [[_ ?]|[Hbad _]]]; [done|].
          by unfold MQTTCLIENT_PERSISTENCE_ERROR in Hbad.
        - pose proof (remove_rc k s Hok Ho) as Hp. rewrite E in Hp. destruct Hp as [? [[_ ?]|[Hbad _]]]; [done|].
          by unfold MQTTCLIENT_PERSISTENCE_ERROR in Hbad. }
      destruct (run_op o s) as [rc s1] eqn:E. destruct (Z.eqb_spec rc 0) as [->|]; [|done].
      destruct (Hs 0 s1 eq_refl eq_refl) as [Hok1 <-]. by apply IH. }
  destruct H as [Hok' Hc]. rewrite <-Hc. split_and!; [done| | |].
  - intros k d. by apply get_rc.
  - intros k. by apply contains_rc.
  - intros l. by apply keys_rc.
Qed.

(** Clearing the store clears nothing in it: the records are all there after
    [pstclear], also when it answers success, since the files are named without
    their directory; a file of the working directory with the name of a record
    is removed instead. *)
Theorem pstclear_keeps {F} `{!FileSystem F, !FileSystemLaws F} dir (f : F) :
  let '(rc, f') := pstclear (Some dir) f in
  dir_contents dir (files f') = dir_contents dir (files f) ∧
  (rc = 0 → ∀ names name, readdir dir f = Some names → name ∈ names → files f' !! name = None).
Proof.
  cbn [pstclear]. unfold clearUnix. destruct (readdir dir f) as [names|] eqn:Hr; [|done].
  apply readdir_files in Hr as (_ & Hs & _).
  assert (H : let '(rc, f') := clear_loop names f in
    files f' ⊆ files f ∧ (∀ p, 47 ∈ p → files f' !! p = files f !! p) ∧
    (rc = 0 → ∀ name, name ∈ names → files f' !! name = None)).
  { revert f. induction Hs as [|name names Hn Hs IH]; intros f; cbn [clear_loop].
    { split_and!; [done|done|]. intros _ name Hin. by apply elem_of_nil in Hin. }
    assert (Hstep : ∀ f1 n, files f1 ⊆ files f → (∀ p, 47 ∈ p → files f1 !! p = files f !! p) → files f1 !! name = None →
      (n = 0 → let '(rc, f') := clear_loop names f1 in
       files f' ⊆ files f ∧ (∀ p, 47 ∈ p → files f' !! p = files f !! p) ∧
       (rc = 0 → ∀ name', name' ∈ name :: names → files f' !! name' = None))).
    { intros f1 n Hsub Hp Hnone _. specialize (IH f1). destruct (clear_loop names f1) as [rc f']. destruct IH as (H1 & H2 & H3).
      split_and!; [by etrans|intros p Hin; by rewrite H2, Hp|]. intros Hrc name' [->|Hin]%elem_of_cons; [|by apply H3].
      by eapply lookup_weaken_None. }
    destruct (is_regular name f) eqn:Hreg.
    - pose proof (unlink_files name f) as Hu. destruct (unlink name f) as [e f1]. destruct Hu as [[-> Hf]|(n & -> & Hf & Hno)].
      + apply (Hstep f1 0); [rewrite Hf; apply delete_subseteq| |by rewrite Hf, lookup_delete_eq|done].
        intros p Hin. rewrite Hf, lookup_delete_ne; [done|]. by intros ->.
      + destruct (Z.eqb_spec n ENOENT) as [->|Hne].
        * apply (Hstep f1 0); [by rewrite Hf|by rewrite Hf|rewrite Hf; by apply Hno|done].
        * rewrite Hf. split_and!; [done|done|]. done.
    - apply (Hstep f 0); [done|done| |done]. apply eq_None_not_Some. rewrite <-is_regular_files. by rewrite Hreg. }
  destruct (clear_loop names f) as [rc f']. destruct H as (_ & Hp & Hgone). split.
  - apply map_eq. intros k. rewrite !dir_contents_lookup. apply Hp. unfold record_path, in_dir. set_solver.
  - intros Hrc names' name [= <-]. by apply Hgone.
Qed.

(** ** A file system in memory *)

(** [Some d] is a regular file, [None] a directory. *)
Abbreviation mem_fs := (gmap (list Z) (option (list Z))).

(** The name of an entry of a directory. *)
Definition entry_name (dir p : list Z) : option (list Z) :=
  let name := drop (S (length dir)) p in
  if decide (p = in_dir dir name ∧ 47 ∉ name) then Some name else None.
Definition dir_names (dir : list Z) (m : mem_fs) : list (list Z) := omap (entry_name dir) (map_to_list m).*1.

#[export] Instance mem_fs_ops : FileSystem mem_fs := {
  mkdir p m := if decide (is_Some (m !! p)) then (Some EEXIST, m) else (None, <[p := None]> m);
  rmdir p m := if decide (m !! p = Some None) then (None, delete p m) else (Some ENOENT, m);
  unlink p m := match m !! p with Some (Some _) => (None, delete p m) | Some None => (Some 21, m) | None => (Some ENOENT, m) end;
  fopen_wb p m := match m !! p with Some None => (false, m) | _ => (true, <[p := Some []]> m) end;
  fwrite p d m := (len d, <[p := Some (default [] (m !! p ≫= id) ++ d)]> m);
  fclose _ m := m;
  fread_all p m := match m !! p with Some (Some d) => Some (len d, d) | _ => None end;
  readdir dir m := Some (bs "." :: bs ".." :: filter (λ n, n ≠ bs "." ∧ n ≠ bs "..") (dir_names dir m));
  lstat p m := match m !! p with Some (Some _) => Some true | Some None => Some false | None => None end
}.

Definition mem_files (m : mem_fs) : gmap (list Z) (list Z) := omap id m.

Lemma mem_files_lookup m p : mem_files m !! p = m !! p ≫= id.
Proof. unfold mem_files. by rewrite lookup_omap. Qed.

Lemma mem_files_insert m p x : mem_files (<[p := Some x]> m) = <[p := x]> (mem_files m).
Proof.
  apply map_eq. intros q. rewrite mem_files_lookup. destruct (decide (p = q)) as [->|].
  - by rewrite !lookup_insert_eq.
  - by rewrite !lookup_insert_ne, mem_files_lookup.
Qed.

Lemma entry_name_Some dir p n : entry_name dir p = Some n → p = in_dir dir n ∧ 47 ∉ n.
Proof. unfold entry_name. case_decide as H; [|done]. intros [= <-]. exact H. Qed.

Lemma entry_name_in_dir dir n : 47 ∉ n → entry_name dir (in_dir dir n) = Some n.
Proof.
  intros Hn. unfold entry_name. assert (E : drop (S (length dir)) (in_dir dir n) = n).
  { unfold in_dir. rewrite app_assoc. replace (S (length dir)) with (length (dir ++ [47])) by (rewrite length_app; cbn [length]; lia).
    apply drop_app_length. }
  rewrite E. by rewrite decide_True.
Qed.

Lemma dir_names_ok dir m : NoDup (dir_names dir m) ∧ ∀ n, n ∈ dir_names dir m ↔ 47 ∉ n ∧ is_Some (m !! in_dir dir n).
Proof.
  unfold dir_names. split.
  - pose proof (NoDup_fst_map_to_list m) as Hnd. revert Hnd. generalize (map_to_list m).*1. intros l Hnd.
    induction Hnd as [|p l Hp Hnd IH]; [constructor|]. cbn [omap list_omap].
    destruct (entry_name dir p) as [n|] eqn:E; [|done]. apply entry_name_Some in E as [-> Hn]. apply NoDup_cons. split; [|done].
    intros (p & Hin & E)%list_elem_of_omap. apply entry_name_Some in E as [-> _]. done.
  - intros n. rewrite list_elem_of_omap. split.
    + intros (p & Hin & E). apply entry_name_Some in E as [-> Hn]. split; [done|].
      apply list_elem_of_fmap in Hin as ([p' x] & Ep & Hin%elem_of_map_to_list). cbn [fst] in Ep. rewrite Ep. by exists x.
    + intros [Hn [x Hx]]. exists (in_dir dir n). split; [|by apply entry_name_in_dir]. apply list_elem_of_fmap.
      exists (in_dir dir n, x). split; [done|by apply elem_of_map_to_list].
Qed.

#[export] Program Instance mem_fs_laws : FileSystemLaws mem_fs := { files := mem_files }.
Next Obligation.
  intros p m. cbn. case_decide as H; [done|]. cbn [snd]. apply eq_None_not_Some in H.
  apply map_eq. intros q. rewrite !mem_files_lookup. destruct (decide (p = q)) as [->|]; [by rewrite lookup_insert_eq, H|by rewrite lookup_insert_ne].
Qed.
Next Obligation.
  intros p m. cbn. case_decide as H; [|done]. cbn [snd]. apply map_eq. intros q. rewrite !mem_files_lookup.
  destruct (decide (p = q)) as [->|]; [by rewrite lookup_delete_eq, H|by rewrite lookup_delete_ne].
Qed.
Next Obligation.
  intros p m. cbn. destruct (m !! p) as [[d|]|] eqn:E.
  - left. split; [done|]. apply map_eq. intros q. rewrite mem_files_lookup.
    destruct (decide (p = q)) as [->|]; [by rewrite !lookup_delete_eq|by rewrite !lookup_delete_ne, mem_files_lookup].
  - right. exists 21. done.
  - right. exists ENOENT. split_and!; [done|done|]. intros _. by rewrite mem_files_lookup, E.
Qed.
Next Obligation.
  intros p m. cbn. destruct (m !! p) as [[d|]|] eqn:E; [|done|]; apply mem_files_insert.
Qed.
Next Obligation.
  intros p d m. cbn. split; [lia|]. rewrite mem_files_insert, mem_files_lookup, Nat2Z.id, take_ge by lia. done.
Qed.
Next Obligation. done. Qed.
Next Obligation.
  intros p m l d. cbn. destruct (m !! p) as [[x|]|] eqn:E; [|done|done]. intros [= <- <-].
  exists x. rewrite mem_files_lookup, E, firstn_all. done.
Qed.
Next Obligation.
  intros dir m names. cbn. intros [= <-]. destruct (dir_names_ok dir m) as [Hnd Hin]. split_and!.
  - apply NoDup_cons. split; [|apply NoDup_cons; split; [|by apply NoDup_filter]].
    + rewrite elem_of_cons, list_elem_of_filter. intros [E|[[? _] _]]; [|done]. revert E. vm_compute. discriminate.
    + rewrite list_elem_of_filter. by intros [[_ ?] _].
  - repeat (apply Forall_cons; split; [apply (bool_decide_eq_true_1 _); vm_compute; reflexivity|]).
    apply Forall_forall. intros n [_ Hn]%list_elem_of_filter. by apply Hin in Hn as [? _].
  - intros n Hn [d Hd]. rewrite mem_files_lookup in Hd. rewrite !elem_of_cons, list_elem_of_filter.
    destruct (decide (n = bs ".")); [by left|]. destruct (decide (n = bs "..")); [by right; left|]. right. right.
    split; [done|]. apply Hin. split; [done|]. destruct (m !! in_dir dir n); [by eexists|done].
Qed.
Next Obligation. intros dir m n _. cbn. by eexists. Qed.
Next Obligation.
  intros p m. cbn. rewrite mem_files_lookup. destruct (m !! p) as [[d|]|] eqn:E; cbn [mbind option_bind id].
  - split; [by eexists|done].
  - split; [done|by intros [? ?]].
  - split; [done|by intros [? ?]].
Qed.

(** A store of directories only has no record. *)
Lemma directories_ok (s : pst mem_fs) : map_Forall (λ _ x, x = None) (p_fs s) → store_ok s.
Proof.
  intros H. cbn. unfold pst_ok. destruct (p_handle s) as [dir|]; [|done]. intros name [d Hd]. cbn in Hd.
  rewrite mem_files_lookup in Hd. destruct (p_fs s !! in_dir dir name) as [x|] eqn:E; [|done].
  rewrite (H _ _ E) in Hd. done.
Qed.

Definition sample_dir : pst mem_fs := snd (popen (bs "bridge") (bs "host:1883") (mkPst (bs "./data") None ∅)).

(** The directories are made one inside the other. *)
Example popen_creates : p_handle sample_dir = Some (bs "./data/bridge-host-1883") ∧
  p_fs sample_dir !! bs "./data/bridge-host-1883" = Some None ∧ p_fs sample_dir !! bs "./data" = Some None.
Proof. vm_compute. done. Qed.

Lemma pst_refines_map_witness :
  ∃ s', run_ops [OPut (bs "s-9") [[1; 2]; [3]]; OPut (bs "sc-9") [[4]]; ORemove (bs "sc-9")] sample_dir = Some s' ∧
    contents s' = foldl map_op (contents sample_dir) [OPut (bs "s-9") [[1; 2]; [3]]; OPut (bs "sc-9") [[4]]; ORemove (bs "sc-9")].
Proof.
  destruct (run_ops [OPut (bs "s-9") [[1; 2]; [3]]; OPut (bs "sc-9") [[4]]; ORemove (bs "sc-9")] sample_dir) as [s'|] eqn:E;
    [|exfalso; revert E; vm_compute; discriminate].
  exists s'. split; [reflexivity|].
  refine (proj1 (pst_refines_map _ sample_dir s' _ _ E)).
  - apply directories_ok. apply (bool_decide_eq_true_1 _). vm_compute. reflexivity.
  - apply (bool_decide_eq_true_1 _). vm_compute. reflexivity.
Defined.

(** A device that is found full when the file is closed: the record is lost, and
    [pstput], which does not look at the answer of [fclose], answers success. *)
Definition full_at_close : FileSystem mem_fs := {|
  mkdir := mkdir; rmdir := rmdir; unlink := unlink; fopen_wb := fopen_wb; fwrite := fwrite;
  fclose := λ p m, <[p := Some []]> m;
  fread_all := fread_all; readdir := readdir; lstat := lstat
|}.
Example lost_at_close :
  let '(rc, m) := @pstput mem_fs full_at_close (Some (bs "d")) (bs "s-9") [[1; 2]; [3]] ∅ in
  rc = 0 ∧ m !! bs "d/s-9.msg" = Some (Some []).
Proof. vm_compute. done. Qed.

End PersistenceDefault.
