(* ===== verification/Base64.v ===== *)
(** * Base64 (paho.mqtt.c/src/Base64.c, the build without OpenSSL)

    Encoding and decoding with an output limit, the length functions; the
    encoder is the one of RFC 4648 and the decoder is its inverse. *)
From S2P Require Import Prelude.

Module Base64.

(** ** The tables *)

Definition NV := 64.

Definition BASE64_DECODE_TABLE : list Z :=
  replicate 43 NV ++ [62] ++ replicate 3 NV ++ [63]
  ++ seqZ 52 10 ++ replicate 7 NV
  ++ seqZ 0 26 ++ replicate 6 NV
  ++ seqZ 26 26 ++ replicate 133 NV.

Definition BASE64_ENCODE_TABLE : list Z :=
  bs "ABCDEFGHIJKLMNOPQRSTUVWXYZabcdefghijklmnopqrstuvwxyz0123456789+/=".

(** The index is the [char], which is negative for bytes from 128 on. *)
Definition decode_char (c : Z) : option Z := peek BASE64_DECODE_TABLE (s8 c).
Definition encode_char (i : Z) : option Z := peek BASE64_ENCODE_TABLE i.

(** ** Decoding

    The bytes committed to [out]; a byte written and not counted is overwritten
    by the terminator, because the loop then ends with room left. *)
Fixpoint decode_loop (inp : list Z) (room : Z) : option (list Z) :=
  match inp with
  | a :: b :: c :: d :: inp' =>
      if 0 <? room then
        c0 ← decode_char a; c1 ← decode_char b; c2 ← decode_char c; c3 ← decode_char d;
        let o0 := u8 (c0 ≪ 2) .| ((c1 .& Z.lnot 0xF) ≫ 4) in
        if 1 <? room then
          if c2 <? NV then
            let o1 := u8 ((c1 .& 0xF) ≪ 4) .| ((c2 .& Z.lnot 0x3) ≫ 2) in
            if 2 <? room then
              if c3 <? NV then
                rest ← decode_loop inp' (room - 3);
                Some (o0 :: o1 :: (u8 ((c2 .& 0x3) ≪ 6) .| c3) :: rest)
              else Some [o0; o1]
            else Some [o0; o1]
          else Some [o0]
        else Some [o0]
      else Some []
  | _ => Some []
  end.

(** The result, and the bytes written to [out], the terminator included. *)
Definition Base64_decode (out_len : Z) (inp : list Z) : option (Z * list Z) :=
  out ← decode_loop inp out_len;
  Some (len out, out ++ (if len out <? out_len then [0] else [])).

(** ** Encoding *)

Definition group (c0 c1 c2 c3 : Z) : option (list Z) :=
  a ← encode_char c0; b ← encode_char c1; c ← encode_char c2; d ← encode_char c3;
  Some [a; b; c; d].

Definition first_char (i : Z) : Z := (i .& Z.lnot 0x3) ≫ 2.
Definition second_char (i j : Z) : Z := ((i .& 0x3) ≪ 4) .| ((j .& Z.lnot 0xF) ≫ 4).
Definition third_char (j k : Z) : Z := ((j .& 0xF) ≪ 2) .| ((k .& Z.lnot 0x3F) ≫ 6).
Definition fourth_char (k : Z) : Z := k .& 0x3F.

(** [out_count] and the bytes written: a group that does not fit is counted and
    not written. *)
Fixpoint encode_loop (inp : list Z) (out_count out_len : Z) : option (Z * list Z) :=
  match inp with
  | [] => Some (out_count, [])
  | i :: inp1 =>
      if out_count <? out_len then
        let put g k := if out_count + 4 <=? out_len
                       then '(n, rest) ← k; g ← g; Some (n, g ++ rest) else k in
        match inp1 with
        | [] => put (group (first_char i) ((i .& 0x3) ≪ 4) 64 64) (Some (out_count + 4, []))
        | [j] => put (group (first_char i) (second_char i j) ((j .& 0xF) ≪ 2) 64)
                   (Some (out_count + 4, []))
        | j :: k :: inp' =>
            put (group (first_char i) (second_char i j) (third_char j k) (fourth_char k))
              (encode_loop inp' (out_count + 4) out_len)
        end
      else Some (out_count, [])
  end.

Definition Base64_encode (out_len : Z) (inp : list Z) : option (Z * list Z) :=
  '(out_count, out) ← encode_loop inp 0 out_len;
  Some (if out_count <=? out_len
        then (out_count, out ++ (if out_count <? out_len then [0] else []))
        else (0, out)).

(** ** Lengths ([b64_size_t] is an unsigned 32-bit integer) *)

Definition is_pad (inp : list Z) (back : Z) : Z :=
  match peek inp (len inp - back) with Some c => if c =? 61 then 1 else 0 | None => 0 end.

Definition Base64_decodeLength (inp : list Z) : Z :=
  let pad := (if 1 <? len inp then is_pad inp 2 else 0) + (if 0 <? len inp then is_pad inp 1 else 0) in
  u32 (len inp / 4 * 3 - pad).

Definition Base64_encodeLength (in_len : Z) : Z := u32 (u32 (4 * in_len) / 3 + 3) .& Z.lnot 0x3.

(** ** Specification (RFC 4648, section 4)

    The input is a sequence of bits, most significant first; it is cut in groups
    of six, the last one completed with zeros, and the text is completed to a
    multiple of four characters with '='. *)

Definition byte_bits (b : Z) : list bool := (λ i, Z.testbit b i) <$> [7; 6; 5; 4; 3; 2; 1; 0].
Definition bits_value (l : list bool) : Z := foldl (λ acc (b : bool), 2 * acc + (if b then 1 else 0)) 0 l.

Definition alphabet (v : Z) : Z :=
  if v <? 26 then 65 + v else if v <? 52 then 97 + (v - 26) else if v <? 62 then 48 + (v - 52)
  else if v =? 62 then 43 else 47.

Fixpoint sextets (l : list bool) : list Z :=
  match l with
  | a :: b :: c :: d :: e :: f :: l' => bits_value [a; b; c; d; e; f] :: sextets l'
  | [] => []
  | _ => [bits_value (take 6 (l ++ replicate 5 false))]
  end.

Definition rfc4648 (data : list Z) : list Z :=
  let text := alphabet <$> sextets (data ≫= byte_bits) in
  text ++ replicate (Z.to_nat ((- len text) mod 4)) 61.

(** ** Lemmas *)

(** Inputs are taken three bytes at a time. *)
Lemma three_ind (P : list Z → Prop) : P [] → (∀ a, P [a]) → (∀ a b, P [a; b]) →
  (∀ a b c l, P l → P (a :: b :: c :: l)) → ∀ l, P l.
Proof.
  intros H0 H1 H2 H3 l. enough (P l ∧ (∀ a, P (a :: l)) ∧ (∀ a b, P (a :: b :: l))) by tauto.
  induction l as [|x l (IH0 & IH1 & IH2)]; [auto|]. split; [auto|]. split; [auto|]. intros a b. by apply H3.
Qed.

(** A property of two bounded numbers, evaluated on all of them. *)
Lemma pair_forallb n m (P : Z → Z → bool) :
  forallb (λ a, forallb (P a) (seqZ 0 m)) (seqZ 0 n) = true →
  ∀ a b, 0 ≤ a < n → 0 ≤ b < m → P a b = true.
Proof. intros H a b Ha Hb. exact (seqZ_forallb _ _ (seqZ_forallb _ _ H a Ha) b Hb). Qed.

(** A property of a byte, evaluated on all of them. *)
Ltac by_bytes P b Hb := apply Z.eqb_eq; refine (byte_forallb P _ b Hb); vm_compute; reflexivity.
Ltac div_lia := unfold is_byte in *; Z.to_euclidean_division_equations; lia.
Ltac by_pairs n m P a b :=
  apply Z.eqb_eq; refine (pair_forallb n m P _ a b _ _); [vm_compute; reflexivity|div_lia|div_lia].

(** The two characters that come from two bytes, as sums of two parts. *)
Lemma second_split a b : is_byte a → is_byte b →
  second_char a b = 16 * (a mod 4) + b / 16 ∧ 0 ≤ a mod 4 < 4 ∧ 0 ≤ b / 16 < 16.
Proof.
  intros Ha Hb. split; [|split; div_lia]. unfold second_char.
  replace ((a .& 3) ≪ 4) with (16 * (a mod 4)) by by_bytes (λ a, 16 * (a mod 4) =? (a .& 3) ≪ 4) a Ha.
  replace ((b .& Z.lnot 15) ≫ 4) with (b / 16) by by_bytes (λ b, b / 16 =? (b .& Z.lnot 15) ≫ 4) b Hb.
  by_pairs 4 16 (λ x y, (16 * x) .| y =? 16 * x + y) (a mod 4) (b / 16).
Qed.

Lemma third_split b c : is_byte b → is_byte c →
  third_char b c = 4 * (b mod 16) + c / 64 ∧ 0 ≤ b mod 16 < 16 ∧ 0 ≤ c / 64 < 4.
Proof.
  intros Hb Hc. split; [|split; div_lia]. unfold third_char.
  replace ((b .& 15) ≪ 2) with (4 * (b mod 16)) by by_bytes (λ a, 4 * (a mod 16) =? (a .& 15) ≪ 2) b Hb.
  replace ((c .& Z.lnot 63) ≫ 6) with (c / 64) by by_bytes (λ b, b / 64 =? (b .& Z.lnot 63) ≫ 6) c Hc.
  by_pairs 16 4 (λ x y, (4 * x) .| y =? 4 * x + y) (b mod 16) (c / 64).
Qed.

Lemma first_value a : is_byte a →
  first_char a = bits_value [Z.testbit a 7; Z.testbit a 6; Z.testbit a 5; Z.testbit a 4; Z.testbit a 3; Z.testbit a 2].
Proof.
  intros Ha. by_bytes (λ a, first_char a =? bits_value [Z.testbit a 7; Z.testbit a 6; Z.testbit a 5;
    Z.testbit a 4; Z.testbit a 3; Z.testbit a 2]) a Ha.
Qed.

Lemma second_value a b : is_byte a → is_byte b →
  second_char a b = bits_value [Z.testbit a 1; Z.testbit a 0; Z.testbit b 7; Z.testbit b 6; Z.testbit b 5; Z.testbit b 4].
Proof.
  intros Ha Hb. rewrite (proj1 (second_split a b Ha Hb)).
  transitivity (16 * bits_value [Z.testbit a 1; Z.testbit a 0] +
    bits_value [Z.testbit b 7; Z.testbit b 6; Z.testbit b 5; Z.testbit b 4]).
  - f_equal; [f_equal; by_bytes (λ a, a mod 4 =? bits_value [Z.testbit a 1; Z.testbit a 0]) a Ha|].
    by_bytes (λ b, b / 16 =? bits_value [Z.testbit b 7; Z.testbit b 6; Z.testbit b 5; Z.testbit b 4]) b Hb.
  - unfold bits_value. cbn [foldl]. lia.
Qed.

Lemma third_value b c : is_byte b → is_byte c →
  third_char b c = bits_value [Z.testbit b 3; Z.testbit b 2; Z.testbit b 1; Z.testbit b 0; Z.testbit c 7; Z.testbit c 6].
Proof.
  intros Hb Hc. rewrite (proj1 (third_split b c Hb Hc)).
  transitivity (4 * bits_value [Z.testbit b 3; Z.testbit b 2; Z.testbit b 1; Z.testbit b 0] +
    bits_value [Z.testbit c 7; Z.testbit c 6]).
  - f_equal; [f_equal; by_bytes (λ b, b mod 16 =? bits_value [Z.testbit b 3; Z.testbit b 2; Z.testbit b 1; Z.testbit b 0]) b Hb|].
    by_bytes (λ c, c / 64 =? bits_value [Z.testbit c 7; Z.testbit c 6]) c Hc.
  - unfold bits_value. cbn [foldl]. lia.
Qed.

Lemma fourth_value c : is_byte c →
  fourth_char c = bits_value [Z.testbit c 5; Z.testbit c 4; Z.testbit c 3; Z.testbit c 2; Z.testbit c 1; Z.testbit c 0].
Proof.
  intros Hc. by_bytes (λ c, fourth_char c =? bits_value [Z.testbit c 5; Z.testbit c 4; Z.testbit c 3;
    Z.testbit c 2; Z.testbit c 1; Z.testbit c 0]) c Hc.
Qed.

Definition is_sextet (v : Z) : Prop := 0 ≤ v < 64.

Lemma bits_sextet a b c d e f : is_sextet (bits_value [a; b; c; d; e; f]).
Proof. destruct a, b, c, d, e, f; split; vm_compute; congruence. Qed.

Lemma encode_char_alphabet v : is_sextet v → encode_char v = Some (alphabet v).
Proof.
  intros Hv. assert (H : (match encode_char v with Some c => c =? alphabet v | None => false end) = true).
  { refine (seqZ_forallb (λ v, match encode_char v with Some c => c =? alphabet v | None => false end) 64 _ v Hv).
    vm_compute. reflexivity. }
  destruct (encode_char v) as [c|]; [|done]. apply Z.eqb_eq in H. by subst.
Qed.

Lemma decode_char_alphabet v : is_sextet v → decode_char (alphabet v) = Some v.
Proof.
  intros Hv. assert (H : (match decode_char (alphabet v) with Some c => c =? v | None => false end) = true).
  { refine (seqZ_forallb (λ v, match decode_char (alphabet v) with Some c => c =? v | None => false end) 64 _ v Hv).
    vm_compute. reflexivity. }
  destruct (decode_char (alphabet v)) as [c|]; [|done]. apply Z.eqb_eq in H. by subst.
Qed.

Lemma sextets3 a b c l : is_byte a → is_byte b → is_byte c →
  sextets ((a :: b :: c :: l) ≫= byte_bits)
    = first_char a :: second_char a b :: third_char b c :: fourth_char c :: sextets (l ≫= byte_bits).
Proof. intros Ha Hb Hc. rewrite first_value, second_value, third_value, fourth_value by done. reflexivity. Qed.

Lemma zero_byte : is_byte 0.
Proof. by split. Qed.

Lemma second_char_0 a : second_char a 0 = (a .& 3) ≪ 4.
Proof. unfold second_char. by rewrite Z.lor_0_r. Qed.
Lemma third_char_0 b : third_char b 0 = (b .& 15) ≪ 2.
Proof. unfold third_char. by rewrite Z.lor_0_r. Qed.

Lemma sextets1 a : is_byte a → sextets ([a] ≫= byte_bits) = [first_char a; second_char a 0].
Proof. intros Ha. rewrite first_value, second_value by (done || apply zero_byte). reflexivity. Qed.
Lemma sextets2 a b : is_byte a → is_byte b →
  sextets ([a; b] ≫= byte_bits) = [first_char a; second_char a b; third_char b 0].
Proof.
  intros Ha Hb. rewrite first_value, second_value, third_value by (done || apply zero_byte). reflexivity.
Qed.

Lemma chars_sextets a b c : is_byte a → is_byte b → is_byte c →
  is_sextet (first_char a) ∧ is_sextet (second_char a b) ∧ is_sextet (third_char b c) ∧ is_sextet (fourth_char c).
Proof.
  intros Ha Hb Hc. rewrite first_value, second_value, third_value, fourth_value by done.
  split; [|split; [|split]]; apply bits_sextet.
Qed.

Lemma group3 a b c : is_byte a → is_byte b → is_byte c →
  group (first_char a) (second_char a b) (third_char b c) (fourth_char c)
    = Some (alphabet <$> [first_char a; second_char a b; third_char b c; fourth_char c]).
Proof.
  intros Ha Hb Hc. destruct (chars_sextets a b c Ha Hb Hc) as (H1 & H2 & H3 & H4).
  unfold group. by rewrite !encode_char_alphabet.
Qed.
Lemma group2 a b : is_byte a → is_byte b →
  group (first_char a) (second_char a b) ((b .& 15) ≪ 2) 64
    = Some ((alphabet <$> [first_char a; second_char a b; third_char b 0]) ++ [61]).
Proof.
  intros Ha Hb. destruct (chars_sextets a b 0 Ha Hb zero_byte) as (H1 & H2 & H3 & _).
  rewrite <-third_char_0. unfold group.
  by rewrite (encode_char_alphabet _ H1), (encode_char_alphabet _ H2), (encode_char_alphabet _ H3).
Qed.
Lemma group1 a : is_byte a →
  group (first_char a) ((a .& 3) ≪ 4) 64 64 = Some ((alphabet <$> [first_char a; second_char a 0]) ++ [61; 61]).
Proof.
  intros Ha. destruct (chars_sextets a 0 0 Ha zero_byte zero_byte) as (H1 & H2 & _ & _).
  rewrite <-second_char_0. unfold group.
  by rewrite (encode_char_alphabet _ H1), (encode_char_alphabet _ H2).
Qed.

Lemma rfc4648_1 a : is_byte a → rfc4648 [a] = (alphabet <$> [first_char a; second_char a 0]) ++ [61; 61].
Proof. intros Ha. unfold rfc4648. rewrite sextets1 by done. reflexivity. Qed.
Lemma rfc4648_2 a b : is_byte a → is_byte b →
  rfc4648 [a; b] = (alphabet <$> [first_char a; second_char a b; third_char b 0]) ++ [61].
Proof. intros Ha Hb. unfold rfc4648. rewrite sextets2 by done. reflexivity. Qed.
Lemma rfc4648_3 a b c l : is_byte a → is_byte b → is_byte c →
  rfc4648 (a :: b :: c :: l)
    = (alphabet <$> [first_char a; second_char a b; third_char b c; fourth_char c]) ++ rfc4648 l.
Proof.
  intros Ha Hb Hc. unfold rfc4648. rewrite sextets3 by done. cbn [fmap list_fmap app length].
  do 4 f_equal. f_equal. f_equal. rewrite !Nat2Z.inj_succ. f_equal.
  replace (- Z.succ (Z.succ (Z.succ (Z.succ (len (alphabet <$> sextets (l ≫= byte_bits)))))))
    with (- len (alphabet <$> sextets (l ≫= byte_bits)) + (-1) * 4) by lia.
  apply Z.mod_add. lia.
Qed.

Lemma rfc4648_len data : bytes_ok data → len (rfc4648 data) = (len data + 2) / 3 * 4.
Proof.
  induction data as [|a|a b|a b c l IH] using three_ind; intros Hd; [done| | |].
  - apply Forall_cons in Hd as [Ha _]. by rewrite rfc4648_1.
  - apply Forall_cons in Hd as [Ha [Hb _]%Forall_cons]. by rewrite rfc4648_2.
  - apply Forall_cons in Hd as [Ha [Hb [Hc Hl]%Forall_cons]%Forall_cons].
    rewrite rfc4648_3 by done. cbn [fmap list_fmap app length]. specialize (IH Hl). lens.
    replace (Z.succ (Z.succ (Z.succ (len l))) + 2) with (len l + 2 + 1 * 3) by lia.
    rewrite Z.div_add by lia. lia.
Qed.

Lemma encode_loop_ok data out_len : ∀ n, bytes_ok data → n + len (rfc4648 data) ≤ out_len →
  encode_loop data n out_len = Some (n + len (rfc4648 data), rfc4648 data).
Proof.
  induction data as [|a|a b|a b c l IH] using three_ind; intros n Hd Hlen.
  - cbn. by rewrite Z.add_0_r.
  - apply Forall_cons in Hd as [Ha _]. rewrite rfc4648_1 in * by done. cbn [encode_loop]. cbn [length app fmap list_fmap] in *.
    rewrite (proj2 (Z.ltb_lt n out_len)), (proj2 (Z.leb_le _ _)) by lia. by rewrite group1.
  - apply Forall_cons in Hd as [Ha [Hb _]%Forall_cons]. rewrite rfc4648_2 in * by done.
    cbn [encode_loop]. cbn [length app fmap list_fmap] in *.
    rewrite (proj2 (Z.ltb_lt n out_len)), (proj2 (Z.leb_le _ _)) by lia. by rewrite group2.
  - apply Forall_cons in Hd as [Ha [Hb [Hc Hl]%Forall_cons]%Forall_cons].
    rewrite rfc4648_3 in * by done. cbn [encode_loop]. cbn [length app fmap list_fmap] in *.
    rewrite (proj2 (Z.ltb_lt n out_len)), (proj2 (Z.leb_le (n + 4) _)) by lia.
    rewrite (IH (n + 4)), group3 by (done || lia). cbn [mbind option_bind]. f_equal. f_equal. lia.
Qed.

(** The decoder on the characters of three, two and one bytes. *)
Lemma decode_bytes a b c : is_byte a → is_byte b → is_byte c →
  u8 (first_char a ≪ 2) .| ((second_char a b .& Z.lnot 15) ≫ 4) = a ∧
  u8 ((second_char a b .& 15) ≪ 4) .| ((third_char b c .& Z.lnot 3) ≫ 2) = b ∧
  u8 ((third_char b c .& 3) ≪ 6) .| fourth_char c = c.
Proof.
  intros Ha Hb Hc.
  destruct (second_split a b Ha Hb) as (-> & Ha' & Hb'), (third_split b c Hb Hc) as (-> & Hb'' & Hc').
  replace (u8 (first_char a ≪ 2)) with (4 * (a / 4)) by by_bytes (λ a, 4 * (a / 4) =? u8 (first_char a ≪ 2)) a Ha.
  replace (fourth_char c) with (c mod 64) by by_bytes (λ c, c mod 64 =? fourth_char c) c Hc.
  replace ((16 * (a mod 4) + b / 16) .& Z.lnot 15) with (16 * (a mod 4))
    by by_pairs 4 16 (λ x y, 16 * x =? (16 * x + y) .& Z.lnot 15) (a mod 4) (b / 16).
  replace ((16 * (a mod 4) + b / 16) .& 15) with (b / 16)
    by by_pairs 4 16 (λ x y, y =? (16 * x + y) .& 15) (a mod 4) (b / 16).
  replace ((4 * (b mod 16) + c / 64) .& Z.lnot 3) with (4 * (b mod 16))
    by by_pairs 16 4 (λ x y, 4 * x =? (4 * x + y) .& Z.lnot 3) (b mod 16) (c / 64).
  replace ((4 * (b mod 16) + c / 64) .& 3) with (c / 64)
    by by_pairs 16 4 (λ x y, y =? (4 * x + y) .& 3) (b mod 16) (c / 64).
  split; [|split].
  - by_bytes (λ a, (4 * (a / 4)) .| ((16 * (a mod 4)) ≫ 4) =? a) a Ha.
  - by_bytes (λ b, u8 ((b / 16) ≪ 4) .| ((4 * (b mod 16)) ≫ 2) =? b) b Hb.
  - by_bytes (λ c, u8 ((c / 64) ≪ 6) .| (c mod 64) =? c) c Hc.
Qed.

Lemma decode_pad : decode_char 61 = Some NV.
Proof. reflexivity. Qed.

Lemma decode_loop_ok data : ∀ room, bytes_ok data → len data ≤ room →
  decode_loop (rfc4648 data) room = Some data.
Proof.
  induction data as [|a|a b|a b c l IH] using three_ind; intros room Hd Hroom; [done| | |].
  - apply Forall_cons in Hd as [Ha _]. destruct (chars_sextets a 0 0 Ha zero_byte zero_byte) as (H1 & H2 & _ & _).
    destruct (decode_bytes a 0 0 Ha zero_byte zero_byte) as (E1 & _).
    rewrite rfc4648_1 by done. cbn [decode_loop fmap list_fmap app].
    cbn [length] in Hroom. rewrite (proj2 (Z.ltb_lt 0 room)) by lia.
    rewrite !decode_char_alphabet, decode_pad by done. cbn [mbind option_bind].
    rewrite E1. change (NV <? NV) with false. by destruct (1 <? room).
  - apply Forall_cons in Hd as [Ha [Hb _]%Forall_cons].
    destruct (chars_sextets a b 0 Ha Hb zero_byte) as (H1 & H2 & H3 & _).
    destruct (decode_bytes a b 0 Ha Hb zero_byte) as (E1 & E2 & _).
    rewrite rfc4648_2 by done. cbn [decode_loop fmap list_fmap app].
    cbn [length] in Hroom. rewrite (proj2 (Z.ltb_lt 0 room)), (proj2 (Z.ltb_lt 1 room)) by lia.
    rewrite !decode_char_alphabet, decode_pad by done. cbn [mbind option_bind].
    rewrite E1, E2. rewrite (proj2 (Z.ltb_lt (third_char b 0) NV)) by apply H3.
    change (NV <? NV) with false. by destruct (2 <? room).
  - apply Forall_cons in Hd as [Ha [Hb [Hc Hl]%Forall_cons]%Forall_cons].
    destruct (chars_sextets a b c Ha Hb Hc) as (H1 & H2 & H3 & H4).
    destruct (decode_bytes a b c Ha Hb Hc) as (E1 & E2 & E3).
    rewrite rfc4648_3 by done. cbn [decode_loop fmap list_fmap app].
    cbn [length] in Hroom. rewrite (proj2 (Z.ltb_lt 0 room)), (proj2 (Z.ltb_lt 1 room)), (proj2 (Z.ltb_lt 2 room)) by lia.
    rewrite !decode_char_alphabet by done. cbn [mbind option_bind].
    rewrite E1, E2, E3. rewrite (proj2 (Z.ltb_lt (third_char b c) NV)), (proj2 (Z.ltb_lt (fourth_char c) NV))
      by (apply H3 || apply H4).
    by rewrite IH by (done || lia).
Qed.

Lemma encodeLength_ok n : 0 ≤ n < 2 ^ 30 → Base64_encodeLength n = (n + 2) / 3 * 4.
Proof.
  intros Hn. unfold Base64_encodeLength. rewrite (u32_small (4 * n)) by (unfold is_u32; lia).
  rewrite u32_small by (unfold is_u32; Z.to_euclidean_division_equations; lia).
  change (Z.lnot 3) with (Z.lnot (Z.ones 2)). rewrite <-Z.ldiff_land, Z.ldiff_ones_r by lia.
  rewrite Z.shiftr_div_pow2, Z.shiftl_mul_pow2 by lia. change (2 ^ 2) with 4.
  Z.to_euclidean_division_equations. lia.
Qed.

(** An output that is too short: whole groups only. *)
Definition whole (n : Z) : Z := n / 4 * 4.
Definition short_count (out_len : Z) : Z := if out_len mod 4 =? 0 then out_len else whole out_len + 4.

Lemma encode_loop_full data n out_len : out_len < n → encode_loop data n out_len = Some (n, []).
Proof. intros H. destruct data as [|i l]; cbn [encode_loop]; [done|]. by rewrite (proj2 (Z.ltb_ge _ _)) by lia. Qed.

Lemma short_last n out_len : 0 ≤ n ≤ out_len → n mod 4 = 0 → out_len < n + 4 →
  whole (out_len - n) = 0 ∧ short_count out_len = if n <? out_len then n + 4 else n.
Proof.
  unfold short_count, whole. intros H1 H2 H3.
  assert (Hq : out_len / 4 = n / 4) by (Z.to_euclidean_division_equations; lia).
  destruct (Z.ltb_spec n out_len), (Z.eqb_spec (out_len mod 4) 0); Z.to_euclidean_division_equations; lia.
Qed.

Lemma short_next n out_len : 0 ≤ n → n + 4 ≤ out_len →
  Z.to_nat (whole (out_len - n)) = (4 + Z.to_nat (whole (out_len - (n + 4))))%nat.
Proof. unfold whole. intros. Z.to_euclidean_division_equations. lia. Qed.

(** One group of the loop. *)
Lemma put_short n out_len (g : option (list Z)) (k : option (Z * list Z)) chars rest : 0 ≤ n < out_len → n mod 4 = 0 →
  g = Some chars → length chars = 4%nat →
  (out_len < n + 4 → k = Some (n + 4, [])) →
  (n + 4 ≤ out_len → k = Some (short_count out_len, take (Z.to_nat (whole (out_len - (n + 4)))) rest)) →
  (if n + 4 <=? out_len then '(n, rest) ← k; g ← g; Some (n, g ++ rest) else k)
    = Some (short_count out_len, take (Z.to_nat (whole (out_len - n))) (chars ++ rest)).
Proof.
  intros H1 H2 -> Hc H4 H5. destruct (Z.leb_spec (n + 4) out_len) as [Hle|Hgt].
  - rewrite H5 by done. cbn [mbind option_bind]. do 2 f_equal.
    rewrite (short_next n), <-Hc by lia. by rewrite take_app_add.
  - rewrite H4 by done. destruct (short_last n out_len) as [-> ->]; [lia|done|lia|].
    by rewrite (proj2 (Z.ltb_lt _ _)) by lia.
Qed.

Lemma stop_short n out_len (l : list Z) : 0 ≤ n ≤ out_len → n mod 4 = 0 → (n <? out_len) = false →
  Some (n, @nil Z) = Some (short_count out_len, take (Z.to_nat (whole (out_len - n))) l).
Proof.
  intros H1 H2 H3. destruct (short_last n out_len) as [-> ->]; [lia|done|apply Z.ltb_ge in H3; lia|].
  by rewrite H3.
Qed.

Lemma encode_loop_short data out_len : ∀ n, bytes_ok data → 0 ≤ n ≤ out_len → n mod 4 = 0 →
  out_len < n + len (rfc4648 data) →
  encode_loop data n out_len = Some (short_count out_len, take (Z.to_nat (whole (out_len - n))) (rfc4648 data)).
Proof.
  induction data as [|a|a b|a b c l IH] using three_ind; intros n Hd Hn Hm Hlen.
  - change (rfc4648 []) with (@nil Z) in Hlen. cbn [length] in Hlen. lia.
  - apply Forall_cons in Hd as [Ha _]. rewrite rfc4648_1 in * by done. cbn [encode_loop].
    destruct (n <? out_len) eqn:Hlt; [|by apply stop_short]. apply Z.ltb_lt in Hlt.
    rewrite <-(app_nil_r (_ ++ [61; 61])).
    apply put_short; [lia|done|by apply group1|done|done|].
    cbn [length app fmap list_fmap] in Hlen. lia.
  - apply Forall_cons in Hd as [Ha [Hb _]%Forall_cons]. rewrite rfc4648_2 in * by done. cbn [encode_loop].
    destruct (n <? out_len) eqn:Hlt; [|by apply stop_short]. apply Z.ltb_lt in Hlt.
    rewrite <-(app_nil_r (_ ++ [61])).
    apply put_short; [lia|done|by apply group2|done|done|].
    cbn [length app fmap list_fmap] in Hlen. lia.
  - apply Forall_cons in Hd as [Ha [Hb [Hc Hl]%Forall_cons]%Forall_cons].
    rewrite rfc4648_3 in * by done. cbn [encode_loop].
    destruct (n <? out_len) eqn:Hlt; [|by apply stop_short]. apply Z.ltb_lt in Hlt.
    apply put_short; [lia|done|by apply group3|done|by apply encode_loop_full|].
    intros Hle. apply IH; [done|lia|Z.to_euclidean_division_equations; lia|].
    rewrite length_app in Hlen. cbn [length fmap list_fmap] in Hlen. lia.
Qed.

(** The length before padding, from the last two characters. *)
Lemma alphabet_not_pad v : is_sextet v → (alphabet v =? 61) = false.
Proof.
  intros Hv. apply negb_true_iff.
  refine (seqZ_forallb (λ v, negb (alphabet v =? 61)) 64 _ v Hv). vm_compute. reflexivity.
Qed.

Lemma is_pad_app l1 l2 back : 0 < back ≤ len l2 → is_pad (l1 ++ l2) back = is_pad l2 back.
Proof.
  intros H. unfold is_pad, peek. rewrite length_app, !decide_True by lia.
  rewrite lookup_app_r by lia.
  by replace (Z.to_nat (Z.of_nat (length l1 + length l2) - back) - length l1)%nat
    with (Z.to_nat (len l2 - back)) by lia.
Qed.

Lemma pads_group a b c d :
  (if 1 <? len [a; b; c; d] then is_pad [a; b; c; d] 2 else 0)
    + (if 0 <? len [a; b; c; d] then is_pad [a; b; c; d] 1 else 0)
  = (if c =? 61 then 1 else 0) + (if d =? 61 then 1 else 0).
Proof. done. Qed.

Lemma decodeLength_rfc data : bytes_ok data → len data < 2 ^ 30 →
  Base64_decodeLength (rfc4648 data) = len data.
Proof.
  intros Hd Hlen. pose proof (rfc4648_len data Hd) as Hl.
  assert (Hpad : (if 1 <? len (rfc4648 data) then is_pad (rfc4648 data) 2 else 0)
     + (if 0 <? len (rfc4648 data) then is_pad (rfc4648 data) 1 else 0)
     = (len data + 2) / 3 * 3 - len data).
  { clear Hl Hlen. induction data as [|a|a b|a b c l IH] using three_ind; [done| | |].
    - apply Forall_cons in Hd as [Ha _]. rewrite rfc4648_1 by done. done.
    - apply Forall_cons in Hd as [Ha [Hb _]%Forall_cons].
      destruct (chars_sextets a b 0 Ha Hb zero_byte) as (_ & _ & H3 & _).
      rewrite rfc4648_2 by done. cbn [fmap list_fmap app]. by rewrite pads_group, alphabet_not_pad.
    - apply Forall_cons in Hd as [Ha [Hb [Hc Hd]%Forall_cons]%Forall_cons]. specialize (IH Hd).
      pose proof (rfc4648_len l Hd) as Hl. rewrite rfc4648_3 by done.
      replace (len (a :: b :: c :: l) + 2) with (len l + 2 + 1 * 3) by (cbn [length]; lia).
      rewrite Z.div_add by lia. cbn [length]. rewrite length_app. cbn [length fmap list_fmap].
      destruct l as [|x l].
      + destruct (chars_sextets a b c Ha Hb Hc) as (_ & _ & H3 & H4).
        cbn [fmap list_fmap app]. change (rfc4648 []) with (@nil Z).
        pose proof (pads_group (alphabet (first_char a)) (alphabet (second_char a b))
          (alphabet (third_char b c)) (alphabet (fourth_char c))) as Hp.
        by rewrite !alphabet_not_pad in Hp.
      + assert (4 ≤ len (rfc4648 (x :: l))).
        { rewrite Hl. cbn [length]. Z.to_euclidean_division_equations. lia. }
        rewrite !is_pad_app by lia. rewrite !(proj2 (Z.ltb_lt _ _)) in * by lia. lia. }
  unfold Base64_decodeLength. rewrite Hpad, Hl.
  rewrite Z.div_mul, u32_small by (unfold is_u32; Z.to_euclidean_division_equations; lia). lia.
Qed.

(** ** Properties *)

(** The encoder is the one of RFC 4648: with enough room it writes that text,
    followed by a terminator only if there is room for one, and answers its
    length, which is the one [Base64_encodeLength] computes; with less room it
    writes the whole groups that fit and never past the limit, and answers 0,
    except when the limit is a multiple of four: the truncated text is then
    answered as if it were whole. *)
Theorem Base64_encode_rfc data out_len : bytes_ok data → 0 ≤ out_len → len data < 2 ^ 30 →
  let text := rfc4648 data in
  Base64_encodeLength (len data) = len text ∧
  Base64_encode out_len data =
    (if len text <=? out_len
     then Some (len text, text ++ (if len text <? out_len then [0] else []))
     else Some (if out_len mod 4 =? 0 then out_len else 0, take (Z.to_nat (out_len / 4 * 4)) text)).
Proof.
  intros Hd Ho Hlen text. pose proof (rfc4648_len data Hd) as Hl. fold text in Hl.
  split; [rewrite encodeLength_ok, Hl by lia; done|].
  unfold Base64_encode. destruct (Z.leb_spec (len text) out_len) as [Hfit|Hshort].
  - rewrite encode_loop_ok by done. fold text. cbn [mbind option_bind]. rewrite Z.add_0_l.
    by rewrite (proj2 (Z.leb_le _ _)).
  - rewrite encode_loop_short by (done || lia). fold text. cbn [mbind option_bind]. rewrite Z.sub_0_r.
    unfold short_count, whole. destruct (Z.eqb_spec (out_len mod 4) 0) as [H0|H0].
    + rewrite Z.leb_refl, Z.ltb_irrefl, app_nil_r. done.
    + rewrite (proj2 (Z.leb_gt _ _)) by (Z.to_euclidean_division_equations; lia). done.
Qed.

(** The caller that asks for the length first gets the text, not terminated. *)
Lemma encode_exact data : bytes_ok data → len data < 2 ^ 30 →
  Base64_encode (Base64_encodeLength (len data)) data = Some (len (rfc4648 data), rfc4648 data).
Proof.
  intros Hd Hlen. unfold Base64_encode. rewrite encodeLength_ok, <-rfc4648_len by (done || lia).
  rewrite encode_loop_ok by (done || lia). cbn [mbind option_bind]. rewrite Z.add_0_l.
  by rewrite Z.leb_refl, Z.ltb_irrefl, app_nil_r.
Qed.

(** Round trip: decoding the text of any bytes, with room for them, gives
    the bytes back, terminated if there is room, without an index outside of
    the table; [Base64_decodeLength] of the text is their number. *)
Theorem Base64_roundtrip data out_len : bytes_ok data → len data ≤ out_len → len data < 2 ^ 30 →
  ∃ text, Base64_encode (Base64_encodeLength (len data)) data = Some (len text, text) ∧
    Base64_decodeLength text = len data ∧
    Base64_decode out_len text = Some (len data, data ++ (if len data <? out_len then [0] else [])).
Proof.
  intros Hd Ho Hlen. exists (rfc4648 data). split; [|split].
  - by apply encode_exact.
  - by apply decodeLength_rfc.
  - unfold Base64_decode. by rewrite decode_loop_ok.
Qed.

Lemma Base64_encode_rfc_witness :
  Base64_encode 16 (bs "paho wit") = Some (12, bs "cGFobyB3aXQ=" ++ [0]) ∧
  Base64_encodeLength 8 = len (rfc4648 (bs "paho wit")).
Proof.
  destruct (Base64_encode_rfc (bs "paho wit") 16) as [H1 H2].
  - repeat constructor; vm_compute; congruence.
  - lia.
  - cbn. lia.
  - split; [rewrite H2; vm_compute; reflexivity|exact H1].
Defined.

Lemma Base64_roundtrip_witness :
  ∃ text, Base64_encode 12 (bs "paho wit") = Some (len text, text) ∧ Base64_decodeLength text = 8 ∧
    Base64_decode 8 text = Some (8, bs "paho wit").
Proof.
  destruct (Base64_roundtrip (bs "paho wit") 8) as (text & H1 & H2 & H3).
  - repeat constructor; vm_compute; congruence.
  - cbn. lia.
  - cbn. lia.
  - exists text. split; [exact H1|]. split; [exact H2|exact H3].
Defined.

(** The vectors of the test of the source. *)
Example test_data :
  (λ s, snd <$> Base64_encode 512 (bs s)) <$> ["p"; "pa"; "pah"; "paho w"]%string
    = (λ s, Some (bs s ++ [0])) <$> ["cA=="; "cGE="; "cGFo"; "cGFobyB3"]%string.
Proof. vm_compute. reflexivity. Qed.

(** A byte above 127 in the text is a negative index. *)
Example decode_negative_index : Base64_decode 8 [0x80; 65; 65; 65] = None.
Proof. reflexivity. Qed.

End Base64.
