(* ===== verification/Sha1.v ===== *)
(** * SHA-1 (paho.mqtt.c/src/SHA1.c, the build without OpenSSL, little-endian)

    The incremental digest: whatever the pieces in which the message is given, it
    is the SHA-1 of FIPS 180-4, for messages below 2^29 bytes. *)
From S2P Require Import Prelude.

Module Sha1.

(** ** Words *)

Definition ROTATE_LEFT32 (a n : Z) : Z := u32 (a ≪ n) .| (a ≫ (32 - n)).

Definition be_word (b0 b1 b2 b3 : Z) : Z := b0 * 2 ^ 24 + b1 * 2 ^ 16 + b2 * 2 ^ 8 + b3.
Definition be_bytes (x : Z) : list Z := [u8 (x ≫ 24); u8 (x ≫ 16); u8 (x ≫ 8); u8 x].
Definition le_bytes (x : Z) : list Z := [u8 x; u8 (x ≫ 8); u8 (x ≫ 16); u8 (x ≫ 24)].

(** The words of a sequence of bytes, most significant byte first. *)
Fixpoint be_words (l : list Z) : list Z :=
  match l with
  | b0 :: b1 :: b2 :: b3 :: l' => be_word b0 b1 b2 b3 :: be_words l'
  | _ => []
  end.

(** ** The context

    [buffer] is also the array [w] of sixteen words, in the order of the host. *)
Record SHA_CTX := mkCtx { h : list Z; buffer : list Z; size : Z; total : Z }.

Definition SHA1_INITIAL : list Z := [0x67452301; 0xEFCDAB89; 0x98BADCFE; 0x10325476; 0xC3D2E1F0].

(** The context given is not initialized: its buffer has any contents. *)
Definition SHA1_Init (buf : list Z) : SHA_CTX := mkCtx SHA1_INITIAL buf 0 0.

(** The registers [blks] and the words [w] after the step [i]. *)
Definition round_step (st : (list Z * list Z)) (i : nat) : list Z * list Z :=
  let '(blks, w) := st in
  let at_ k := w !!! (k `mod` 16)%nat in
  let b k := blks !!! k in
  let w :=
    if (16 <=? i)%nat
    then <[(i `mod` 16)%nat := ROTATE_LEFT32 (at_ (i + 13)%nat .^ at_ (i + 8)%nat .^ at_ (i + 2)%nat .^ at_ i) 1]> w
    else w in
  let wi := w !!! (i `mod` 16)%nat in
  let tmp :=
    if (i <? 20)%nat then
      ROTATE_LEFT32 (b 0%nat) 5 + ((b 1%nat .& b 2%nat) .| (u32 (Z.lnot (b 1%nat)) .& b 3%nat)) + b 4%nat + wi + 0x5A827999
    else if (i <? 40)%nat then
      ROTATE_LEFT32 (b 0%nat) 5 + (b 1%nat .^ b 2%nat .^ b 3%nat) + b 4%nat + wi + 0x6ED9EBA1
    else if (i <? 60)%nat then
      ROTATE_LEFT32 (b 0%nat) 5 + ((b 1%nat .& b 2%nat) .| (b 1%nat .& b 3%nat) .| (b 2%nat .& b 3%nat)) + b 4%nat + wi + 0x8F1BBCDC
    else
      ROTATE_LEFT32 (b 0%nat) 5 + (b 1%nat .^ b 2%nat .^ b 3%nat) + b 4%nat + wi + 0xCA62C1D6 in
  ([u32 (s32 tmp); b 0%nat; ROTATE_LEFT32 (b 1%nat) 30; b 2%nat; b 3%nat], w).

Definition SHA1_ProcessBlock (ctx : SHA_CTX) : SHA_CTX :=
  let w := be_words (buffer ctx) in
  let '(blks, w) := foldl round_step (h ctx, w) (seq 0 80) in
  mkCtx (zip_with (λ a b, u32 (a + b)) (h ctx) blks) (w ≫= le_bytes) (size ctx) (total ctx).

(** [memcpy] of [d] into the buffer at [off]. *)
Definition copy_at (off : nat) (d buf : list Z) : list Z := take off buf ++ d ++ drop (off + length d) buf.

(** Each turn takes at least one byte. *)
Fixpoint update_loop (fuel : nat) (ctx : SHA_CTX) (data : list Z) : SHA_CTX :=
  match fuel, data with
  | S fuel', _ :: _ =>
      let n := u32 (64 - size ctx) in
      let n := if len data <? n then len data else n in
      let ctx := mkCtx (h ctx) (copy_at (Z.to_nat (size ctx)) (take (Z.to_nat n) data) (buffer ctx))
                   (u32 (size ctx + n)) (u32 (total ctx + n)) in
      let ctx := if size ctx =? 64
                 then let c := SHA1_ProcessBlock ctx in mkCtx (h c) (buffer c) 0 (total c) else ctx in
      update_loop fuel' ctx (drop (Z.to_nat n) data)
  | _, _ => ctx
  end.
Definition SHA1_Update (ctx : SHA_CTX) (data : list Z) : SHA_CTX := update_loop (length data) ctx data.

Definition pad : list Z := 0x80 :: replicate 63 0.

(** The product [ctx->total * 8] is unsigned and 32 bits wide. *)
Definition SHA1_Final (ctx : SHA_CTX) : Z * list Z :=
  let total := u32 (total ctx * 8) in
  let pad_amount := if size ctx <? 56 then 56 - size ctx else 64 + 56 - size ctx in
  let ctx := SHA1_Update ctx (take (Z.to_nat pad_amount) pad) in
  let ctx := mkCtx (h ctx) (copy_at 56 (be_bytes (u32 (total ≫ 32)) ++ be_bytes (u32 total)) (buffer ctx))
               (size ctx) (Sha1.total ctx) in
  let ctx := SHA1_ProcessBlock ctx in
  (1, h ctx ≫= be_bytes).

(** ** Specification (FIPS 180-4, section 6.1) *)

Definition ROTL (n x : Z) : Z := u32 (x ≪ n) .| (x ≫ (32 - n)).
Definition Ch (x y z : Z) : Z := (x .& y) .^ (u32 (Z.lnot x) .& z).
Definition Parity (x y z : Z) : Z := x .^ y .^ z.
Definition Maj (x y z : Z) : Z := (x .& y) .^ (x .& z) .^ (y .& z).
Definition f_t (t : nat) : Z → Z → Z → Z :=
  if (t <? 20)%nat then Ch else if (t <? 40)%nat then Parity else if (t <? 60)%nat then Maj else Parity.
Definition K_t (t : nat) : Z :=
  if (t <? 20)%nat then 0x5A827999 else if (t <? 40)%nat then 0x6ED9EBA1
  else if (t <? 60)%nat then 0x8F1BBCDC else 0xCA62C1D6.

(** The message schedule: the sixteen words of the block, and sixty-four more. *)
Fixpoint schedule (n : nat) (M : list Z) : list Z :=
  match n with
  | O => M
  | S n' =>
      let W := schedule n' M in
      let t := length W in
      W ++ [ROTL 1 (W !!! (t - 3)%nat .^ W !!! (t - 8)%nat .^ W !!! (t - 14)%nat .^ W !!! (t - 16)%nat)]
  end.

Definition fips_step (W : list Z) (v : Z * Z * Z * Z * Z) (t : nat) : Z * Z * Z * Z * Z :=
  let '(a, b, c, d, e) := v in
  (u32 (ROTL 5 a + f_t t b c d + e + K_t t + W !!! t), a, ROTL 30 b, c, d).

Definition to_list (v : Z * Z * Z * Z * Z) : list Z := let '(a, b, c, d, e) := v in [a; b; c; d; e].
Definition of_list (l : list Z) : Z * Z * Z * Z * Z :=
  (l !!! 0%nat, l !!! 1%nat, l !!! 2%nat, l !!! 3%nat, l !!! 4%nat).

Definition fips_block (H block : list Z) : list Z :=
  let W := schedule 64 (be_words block) in
  zip_with (λ x y, u32 (x + y)) H (to_list (foldl (fips_step W) (of_list H) (seq 0 80))).

Fixpoint fips_blocks (n : nat) (H l : list Z) : list Z :=
  match n with
  | O => H
  | S n' => fips_blocks n' (fips_block H (take 64 l)) (drop 64 l)
  end.

(** The bit '1', zeros up to 448 modulo 512 bits, the length in 64 bits. *)
Definition fips_padding (n bits : Z) : list Z :=
  0x80 :: replicate (Z.to_nat ((55 - n) mod 64)) 0 ++ be_bytes (bits ≫ 32) ++ be_bytes bits.

Definition sha1_bits (bits : Z) (msg : list Z) : list Z :=
  let l := msg ++ fips_padding (len msg) bits in
  fips_blocks (length l / 64) SHA1_INITIAL l ≫= be_bytes.
Definition sha1 (msg : list Z) : list Z := sha1_bits (8 * len msg) msg.

(** The test vectors of the source. *)
Example sha1_empty : sha1 [] =
  [0xda;0x39;0xa3;0xee;0x5e;0x6b;0x4b;0x0d;0x32;0x55;0xbf;0xef;0x95;0x60;0x18;0x90;0xaf;0xd8;0x07;0x09].
Proof. vm_compute. reflexivity. Qed.
Example SHA1_this_string :
  SHA1_Final (SHA1_Update (SHA1_Init (replicate 64 7)) (bs "this string")) =
  (1, [0xfd;0xa4;0xe7;0x4b;0xc7;0x48;0x9a;0x18;0xb1;0x46;0xab;0xdf;0x23;0x34;0x6d;0x16;0x66;0x63;0xda;0xb8]).
Proof. vm_compute. reflexivity. Qed.

(** ** Words are 32 bits wide *)

Lemma u32_land x : u32 x = x .& Z.ones 32.
Proof. unfold u32. by rewrite Z.land_ones by lia. Qed.

Lemma is_u32_land x : is_u32 x ↔ x .& Z.ones 32 = x.
Proof.
  rewrite <-u32_land. split; [apply u32_small|]. intros <-. unfold is_u32, u32. apply Z.mod_pos_bound. lia.
Qed.

Lemma u32_is x : is_u32 (u32 x).
Proof. unfold is_u32, u32. apply Z.mod_pos_bound. lia. Qed.

Lemma lor_u32 x y : is_u32 x → is_u32 y → is_u32 (x .| y).
Proof. rewrite !is_u32_land. intros Hx Hy. by rewrite Z.land_lor_distr_l, Hx, Hy. Qed.

Lemma ROTL_u32 n x : 0 ≤ 32 - n → is_u32 x → is_u32 (ROTL n x).
Proof.
  intros Hn Hx. apply lor_u32; [apply u32_is|]. unfold is_u32 in *. rewrite Z.shiftr_div_pow2 by lia.
  split; [apply Z.div_pos; lia|]. apply Z.le_lt_trans with x; [|lia].
  apply Z.div_le_upper_bound; [lia|]. nia.
Qed.

Lemma u32_s32 x : u32 (s32 x) = u32 x.
Proof. unfold u32, s32. rewrite Zminus_mod_idemp_l. f_equal. lia. Qed.

Lemma Ch_lor x y z : (x .& y) .| (u32 (Z.lnot x) .& z) = Ch x y z.
Proof.
  unfold Ch. rewrite u32_land. apply Z.bits_inj'. intros i Hi.
  rewrite ?Z.lor_spec, ?Z.lxor_spec, ?Z.land_spec, ?Z.lnot_spec by done.
  by destruct (Z.testbit x i), (Z.testbit y i), (Z.testbit z i), (Z.testbit (Z.ones 32) i).
Qed.

Lemma Maj_lor x y z : (x .& y) .| (x .& z) .| (y .& z) = Maj x y z.
Proof.
  unfold Maj. apply Z.bits_inj'. intros i Hi. rewrite ?Z.lor_spec, ?Z.lxor_spec, ?Z.land_spec.
  by destruct (Z.testbit x i), (Z.testbit y i), (Z.testbit z i).
Qed.

(** ** The message schedule *)

Lemma length_schedule n M : length (schedule n M) = (length M + n)%nat.
Proof. induction n as [|n IH]; cbn [schedule]; [lia|]. rewrite length_app, IH. cbn [length]. lia. Qed.

Lemma schedule_prefix n m M j :
  (n ≤ m)%nat → (j < length M + n)%nat → schedule m M !!! j = schedule n M !!! j.
Proof.
  intros Hle Hj. induction Hle as [|m Hle IH]; [done|]. cbn [schedule].
  rewrite lookup_total_app_l by (rewrite length_schedule; lia). done.
Qed.

Lemma schedule_step n M t :
  length M = 16%nat → (16 ≤ t < 16 + n)%nat →
  let W := schedule n M in
  W !!! t = ROTL 1 (W !!! (t - 3)%nat .^ W !!! (t - 8)%nat .^ W !!! (t - 14)%nat .^ W !!! (t - 16)%nat).
Proof.
  intros HM Ht W. subst W.
  assert (Hp : ∀ j, (j < t)%nat → schedule n M !!! j = schedule (t - 16) M !!! j)
    by (intros j Hj; apply schedule_prefix; lia).
  rewrite (Hp (t - 3)%nat), (Hp (t - 8)%nat), (Hp (t - 14)%nat), (Hp (t - 16)%nat) by lia.
  rewrite (schedule_prefix (S (t - 16)) n) by lia. cbn [schedule].
  rewrite lookup_total_app_r by (rewrite length_schedule; lia).
  rewrite length_schedule, HM. replace (t - (16 + (t - 16)))%nat with 0%nat by lia.
  cbn [lookup_total list_lookup_total]. by replace (16 + (t - 16))%nat with t by lia.
Qed.

(** ** One block *)

Definition u32s (v : Z * Z * Z * Z * Z) : Prop := Forall is_u32 (to_list v).

(** The sixteen words in turn hold the last sixteen of the schedule. *)
Definition window (W w : list Z) (n : nat) : Prop :=
  length w = 16%nat ∧
  ∀ j, (n `max` 16 - 16 ≤ j < n `max` 16)%nat → w !!! (j `mod` 16)%nat = W !!! j.

Lemma window_start M n : length M = 16%nat → window (schedule n M) M 0.
Proof.
  intros HM. split; [done|]. intros j Hj. rewrite Nat.mod_small by lia.
  symmetry. apply (schedule_prefix 0); lia.
Qed.

Lemma window_step M w t :
  length M = 16%nat → (t < 80)%nat →
  let W := schedule 64 M in
  window W w t →
  let w' := if (16 <=? t)%nat
    then <[(t `mod` 16)%nat := ROTATE_LEFT32 (w !!! ((t + 13) `mod` 16)%nat .^ w !!! ((t + 8) `mod` 16)%nat
                               .^ w !!! ((t + 2) `mod` 16)%nat .^ w !!! (t `mod` 16)%nat) 1]> w
    else w in
  window W w' (S t) ∧ w' !!! (t `mod` 16)%nat = W !!! t.
Proof.
  intros HM Ht W [Hl Hw] w'.
  assert (Hnew : w' !!! (t `mod` 16)%nat = W !!! t).
  { unfold w'. destruct (Nat.leb_spec 16 t) as [H16|H16].
    - assert (t `mod` 16 < 16)%nat by (apply Nat.mod_upper_bound; lia).
      rewrite list_lookup_total_insert_eq by lia. unfold W. rewrite (schedule_step 64 M t HM) by lia.
      fold W. change (ROTATE_LEFT32 ?x 1) with (ROTL 1 x). f_equal.
      assert (Hback : ∀ k, (1 ≤ k ≤ 16)%nat → w !!! ((t + (16 - k)) `mod` 16)%nat = W !!! (t - k)%nat).
      { intros k Hk. rewrite <-(Hw (t - k)%nat) by lia. f_equal.
        replace (t + (16 - k))%nat with ((t - k) + 1 * 16)%nat by lia. apply Nat.Div0.mod_add. }
      pose proof (Hback 3%nat ltac:(lia)) as E1. pose proof (Hback 8%nat ltac:(lia)) as E2.
      pose proof (Hback 14%nat ltac:(lia)) as E3. pose proof (Hback 16%nat ltac:(lia)) as E4.
      cbn [Nat.sub] in E1, E2, E3. rewrite Nat.sub_diag, Nat.add_0_r in E4. by rewrite E1, E2, E3, E4.
    - apply Hw. lia. }
  split; [|done]. split.
  - unfold w'. destruct (16 <=? t)%nat; [by rewrite length_insert|done].
  - intros j Hj. destruct (decide (j = t)) as [->|Hne]; [done|]. unfold w'.
    destruct (Nat.leb_spec 16 t) as [H16|H16]; [|apply Hw; lia].
    rewrite list_lookup_total_insert_ne; [apply Hw; lia|].
    intros Heq. pose proof (Nat.Div0.div_mod t 16). pose proof (Nat.Div0.div_mod j 16).
    lia.
Qed.

Lemma round_step_fips M w v t :
  length M = 16%nat → (t < 80)%nat → window (schedule 64 M) w t →
  let '(b', w') := round_step (to_list v, w) t in
  b' = to_list (fips_step (schedule 64 M) v t) ∧ window (schedule 64 M) w' (S t).
Proof.
  intros HM Ht Hw. destruct v as [[[[a b] c] d] e].
  destruct (window_step M w t HM Ht Hw) as [Hw' Hnew].
  unfold round_step. cbv zeta. rewrite Hnew. split; [|exact Hw'].
  cbn [to_list fips_step lookup_total list_lookup_total].
  rewrite u32_s32. f_equal. unfold f_t, K_t. f_equal.
  change (ROTATE_LEFT32 a 5) with (ROTL 5 a).
  destruct (t <? 20)%nat, (t <? 40)%nat, (t <? 60)%nat; rewrite ?Ch_lor, ?Maj_lor; unfold Parity; lia.
Qed.

Lemma rounds_fips M v n :
  length M = 16%nat → (n ≤ 80)%nat →
  let '(b', w') := foldl round_step (to_list v, M) (seq 0 n) in
  b' = to_list (foldl (fips_step (schedule 64 M)) v (seq 0 n)) ∧ window (schedule 64 M) w' n.
Proof.
  intros HM. induction n as [|n IH]; intros Hn; [split; [done|by apply window_start]|].
  rewrite seq_S, !foldl_app. cbn [foldl Nat.add]. specialize (IH ltac:(lia)).
  destruct (foldl round_step _ _) as [b' w'] eqn:E. destruct IH as [-> Hw].
  by apply round_step_fips.
Qed.

Lemma length_be_words l n : length l = (4 * n)%nat → length (be_words l) = n.
Proof.
  revert l. induction n as [|n IH]; intros [|b0 [|b1 [|b2 [|b3 l]]]]; cbn [length be_words]; try lia.
  intros. by rewrite IH by lia.
Qed.

Lemma length_le_words w : length (w ≫= le_bytes) = (4 * length w)%nat.
Proof. induction w as [|x w IH]; [done|]. rewrite bind_cons, length_app, IH. cbn [length le_bytes]. lia. Qed.

Lemma length_to_list v : length (to_list v) = 5%nat.
Proof. by destruct v as [[[[? ?] ?] ?] ?]. Qed.

Lemma to_list_of_list l : length l = 5%nat → to_list (of_list l) = l.
Proof. intros H. destruct l as [|? [|? [|? [|? [|? [|? ?]]]]]]; cbn [length] in H; try lia. done. Qed.

Lemma ProcessBlock_fips ctx :
  length (buffer ctx) = 64%nat → length (h ctx) = 5%nat →
  let ctx' := SHA1_ProcessBlock ctx in
  h ctx' = fips_block (h ctx) (buffer ctx) ∧ length (buffer ctx') = 64%nat ∧
  size ctx' = size ctx ∧ total ctx' = total ctx.
Proof.
  intros Hb Hh. unfold SHA1_ProcessBlock, fips_block.
  assert (HM : length (be_words (buffer ctx)) = 16%nat) by (apply length_be_words; lia).
  pose proof (rounds_fips _ (of_list (h ctx)) 80 HM ltac:(lia)) as H. rewrite to_list_of_list in H by done.
  destruct (foldl round_step _ _) as [b w]. destruct H as [-> [Hw _]].
  cbn [h buffer size total]. rewrite length_le_words, Hw. cbv zeta. clear HM.
  generalize (foldl (fips_step (schedule 64 (be_words (buffer ctx)))) (of_list (h ctx)) (seq 0 80)).
  intros v. repeat split.
Qed.

Lemma length_fips_block H b : length H = 5%nat → length (fips_block H b) = 5%nat.
Proof. intros. unfold fips_block. rewrite length_zip_with, length_to_list. lia. Qed.

Lemma length_fips_blocks n H l : length H = 5%nat → length (fips_blocks n H l) = 5%nat.
Proof.
  revert H l. induction n as [|n IH]; intros H l HH; [done|]. by apply IH, length_fips_block.
Qed.

Lemma fips_blocks_snoc n H l b :
  length l = (64 * n)%nat → length b = 64%nat →
  fips_blocks (S n) H (l ++ b) = fips_block (fips_blocks n H l) b.
Proof.
  revert H l. induction n as [|n IH]; intros H l Hl Hb.
  - apply length_zero_iff_nil in Hl as ->. cbn [fips_blocks app]. by rewrite take_ge by lia.
  - change (fips_blocks (S (S n)) H (l ++ b))
      with (fips_blocks (S n) (fips_block H (take 64 (l ++ b))) (drop 64 (l ++ b))).
    rewrite take_app_le, drop_app_le by lia. rewrite IH by (rewrite ?length_drop; lia). done.
Qed.

#[local] Opaque SHA1_ProcessBlock fips_block.

(** ** The context after a message *)

(** Whole blocks are in the hash value, the rest is at the front of the buffer. *)
Definition repr (ctx : SHA_CTX) (msg : list Z) : Prop :=
  ∃ n full rest,
    msg = full ++ rest ∧ length full = (64 * n)%nat ∧ (length rest < 64)%nat ∧
    h ctx = fips_blocks n SHA1_INITIAL full ∧
    size ctx = len rest ∧ take (length rest) (buffer ctx) = rest ∧
    length (buffer ctx) = 64%nat ∧ total ctx = u32 (len msg).

Lemma repr_init buf : length buf = 64%nat → repr (SHA1_Init buf) [].
Proof. intros. exists 0%nat, [], []. split_and!; try done. cbn [length]. lia. Qed.

Lemma take_copy_at off d buf :
  (off + length d ≤ length buf)%nat → take (off + length d) (copy_at off d buf) = take off buf ++ d.
Proof.
  intros. unfold copy_at. rewrite app_assoc, take_app_length'; [done|].
  rewrite length_app, length_take. lia.
Qed.

Lemma length_copy_at off d buf :
  (off + length d ≤ length buf)%nat → length (copy_at off d buf) = length buf.
Proof. intros. unfold copy_at. rewrite !length_app, length_take, length_drop. lia. Qed.

Lemma u32_add_l a b : u32 (u32 a + b) = u32 (a + b).
Proof. unfold u32. by rewrite Zplus_mod_idemp_l. Qed.

Lemma repr_block c' n msg :
  length msg = (64 * S n)%nat → h c' = fips_blocks (S n) SHA1_INITIAL msg →
  length (buffer c') = 64%nat → total c' = u32 (len msg) →
  repr (mkCtx (h c') (buffer c') 0 (total c')) msg.
Proof.
  intros Hf Hh Hb Ht. exists (S n), msg, []. rewrite app_nil_r. split_and!; try done. cbn [length]. lia.
Qed.

(** The piece of a turn that fills, or does not fill, the block. *)
Lemma repr_step ctx msg d :
  repr ctx msg → size ctx + len d ≤ 64 →
  let c := mkCtx (h ctx) (copy_at (Z.to_nat (size ctx)) d (buffer ctx)) (u32 (size ctx + len d))
             (u32 (total ctx + len d)) in
  repr (if size c =? 64 then let c' := SHA1_ProcessBlock c in mkCtx (h c') (buffer c') 0 (total c') else c)
    (msg ++ d).
Proof.
  intros (n & full & rest & -> & Hf & Hr & Hh & Hs & Hbuf & Hlb & Ht) Hle c.
  assert (Hsz : u32 (size ctx + len d) = len (rest ++ d)).
  { rewrite length_app, u32_small; [lia|]. unfold is_u32. lia. }
  assert (Hbuf' : take (length (rest ++ d)) (buffer c) = rest ++ d).
  { unfold c. cbn [buffer]. rewrite Hs, Nat2Z.id, length_app, take_copy_at by lia. by rewrite Hbuf. }
  assert (Hlb' : length (buffer c) = 64%nat).
  { unfold c. cbn [buffer]. rewrite length_copy_at; [done|]. lia. }
  assert (Htot : total c = u32 (len ((full ++ rest) ++ d))).
  { unfold c. cbn [total]. rewrite Ht, u32_add_l. f_equal. lens. }
  assert (Hsc : size c = len (rest ++ d)) by exact Hsz.
  assert (Hhc : h c = fips_blocks n SHA1_INITIAL full) by exact Hh.
  clearbody c. destruct (Z.eqb_spec (size c) 64) as [H64|H64].
  - rewrite take_ge in Hbuf' by lia.
    destruct (ProcessBlock_fips c Hlb') as (P1 & P2 & _ & P4).
    { rewrite Hhc. by apply length_fips_blocks. }
    revert P1 P2 P4. generalize (SHA1_ProcessBlock c). intros c' P1 P2 P4.
    apply (repr_block c' n); [rewrite !length_app in *; lia| |exact P2|by rewrite P4].
    rewrite P1, Hhc, Hbuf', <-app_assoc. symmetry. apply fips_blocks_snoc; [done|lia].
  - exists n, full, (rest ++ d). rewrite app_assoc.
    split_and!; [reflexivity|exact Hf| |exact Hhc|exact Hsc|exact Hbuf'|exact Hlb'|exact Htot].
    rewrite length_app in *. lia.
Qed.

Lemma update_loop_repr fuel ctx msg data :
  repr ctx msg → (length data ≤ fuel)%nat → repr (update_loop fuel ctx data) (msg ++ data).
Proof.
  revert ctx msg data. induction fuel as [|fuel IH]; intros ctx msg data Hrep Hf.
  { destruct data; cbn [length] in Hf; [|lia]. by rewrite app_nil_r. }
  destruct data as [|x data]; [by rewrite app_nil_r|]. set (dd := x :: data) in *.
  assert (Hsz : 0 ≤ size ctx < 64) by (destruct Hrep as (? & ? & ? & ? & ? & ? & ? & ? & ?); lia).
  assert (Hdd : (0 < length dd)%nat) by (cbn [length dd]; lia).
  change (update_loop (S fuel) ctx dd) with
    (let n := if len dd <? u32 (64 - size ctx) then len dd else u32 (64 - size ctx) in
     let c := mkCtx (h ctx) (copy_at (Z.to_nat (size ctx)) (take (Z.to_nat n) dd) (buffer ctx))
                (u32 (size ctx + n)) (u32 (total ctx + n)) in
     update_loop fuel (if size c =? 64 then let c' := SHA1_ProcessBlock c in mkCtx (h c') (buffer c') 0 (total c') else c)
       (drop (Z.to_nat n) dd)).
  rewrite (u32_small (64 - size ctx)) by (unfold is_u32; lia).
  set (n := if len dd <? _ then _ else _). cbn zeta.
  assert (Hn : 0 < n ≤ len dd ∧ n ≤ 64 - size ctx) by (unfold n; case_leb).
  assert (Hln : len (take (Z.to_nat n) dd) = n) by (rewrite length_take; lia).
  replace (msg ++ dd) with ((msg ++ take (Z.to_nat n) dd) ++ drop (Z.to_nat n) dd)
    by (by rewrite <-app_assoc, take_drop).
  apply IH; [|rewrite length_drop; lia].
  pose proof (repr_step ctx msg (take (Z.to_nat n) dd) Hrep) as H. rewrite Hln in H. apply H. lia.
Qed.

Lemma Update_repr ctx msg data : repr ctx msg → repr (SHA1_Update ctx data) (msg ++ data).
Proof. intros H. by apply update_loop_repr. Qed.

Lemma Updates_repr ctx msg chunks :
  repr ctx msg → repr (foldl SHA1_Update ctx chunks) (msg ++ concat chunks).
Proof.
  revert ctx msg. induction chunks as [|d chunks IH]; intros ctx msg H; cbn [foldl concat].
  - by rewrite app_nil_r.
  - rewrite app_assoc. by apply IH, Update_repr.
Qed.

(** ** The end of the message *)

Lemma take_pad p : (1 ≤ p ≤ 64)%nat → take p pad = 0x80 :: replicate (p - 1) 0.
Proof.
  intros Hp. unfold pad. destruct p as [|p]; [lia|]. cbn [take]. rewrite take_replicate.
  do 2 f_equal. lia.
Qed.

Lemma Final_repr ctx msg :
  repr ctx msg → SHA1_Final ctx = (1, sha1_bits (u32 (8 * len msg)) msg).
Proof.
  intros Hrep. pose proof Hrep as (n & full & rest & Hmsg & Hf & Hr & _ & Hs & _ & _ & Ht).
  unfold SHA1_Final. set (p := Z.to_nat (if size ctx <? 56 then _ else _)).
  assert (Hp : (1 ≤ p ≤ 64)%nat) by (unfold p; case_leb).
  assert (Hpad : (p - 1)%nat = Z.to_nat ((55 - len msg) mod 64)).
  { rewrite Hmsg, length_app, Hf. replace (55 - Z.of_nat (64 * n + length rest)) with (55 - len rest + (- Z.of_nat n) * 64) by lia.
    rewrite Z.mod_add by lia. unfold p. rewrite Hs. clear Hs Hp.
    destruct (Z.ltb_spec (len rest) 56).
    - rewrite Z.mod_small; lia.
    - replace (55 - len rest) with (119 - len rest + (-1) * 64) by lia. rewrite Z.mod_add, Z.mod_small; lia. }
  pose proof (Update_repr ctx msg (take p pad) Hrep) as H2.
  assert (Htot : u32 (total ctx * 8) = u32 (8 * len msg)).
  { rewrite Ht. unfold u32. rewrite Zmult_mod_idemp_l. f_equal. lia. }
  rewrite Htot. set (bits := u32 (8 * len msg)).
  assert (Hbits : is_u32 bits) by apply u32_is.
  replace (u32 (bits ≫ 32)) with (bits ≫ 32); last first.
  { symmetry. apply u32_small. unfold is_u32 in *. rewrite Z.shiftr_div_pow2 by lia. rewrite Z.div_small; lia. }
  rewrite (u32_small bits) by done.
  destruct H2 as (n2 & full2 & rest2 & Hmsg2 & Hf2 & Hr2 & Hh2 & Hs2 & Hb2 & Hlb2 & _).
  rewrite take_pad in * by done.
  assert (Hr56 : length rest2 = 56%nat).
  { apply (f_equal length) in Hmsg2. rewrite !length_app in Hmsg2. cbn [length] in Hmsg2.
    rewrite length_replicate, Hmsg, length_app, Hf, Hf2 in Hmsg2. unfold p in Hmsg2. rewrite Hs in Hmsg2.
    destruct (Z.ltb_spec (len rest) 56); lia. }
  set (ctx2 := SHA1_Update ctx _) in *. set (tail := be_bytes (bits ≫ 32) ++ be_bytes bits).
  assert (Htl : length tail = 8%nat) by done.
  assert (Hcp : copy_at 56 tail (buffer ctx2) = rest2 ++ tail).
  { unfold copy_at. rewrite Htl, (drop_ge (buffer ctx2)) by lia. rewrite app_nil_r, <-Hr56, Hb2. done. }
  rewrite Hcp. f_equal. unfold sha1_bits, fips_padding. rewrite <-Hpad. fold tail. f_equal.
  replace (msg ++ 128 :: replicate (p - 1) 0 ++ tail) with (full2 ++ rest2 ++ tail); last first.
  { rewrite app_assoc, <-Hmsg2, <-app_assoc. done. }
  destruct (ProcessBlock_fips (mkCtx (h ctx2) (rest2 ++ tail) (size ctx2) (total ctx2))) as (P1 & _).
  { cbn [buffer]. rewrite length_app. lia. }
  { cbn [h]. rewrite Hh2. by apply length_fips_blocks. }
  rewrite P1. cbn [h buffer]. rewrite Hh2.
  replace (length (full2 ++ rest2 ++ tail) `div` 64)%nat with (S n2).
  { rewrite fips_blocks_snoc; [done|done|]. rewrite length_app. lia. }
  rewrite !length_app, Hf2, Hr56, Htl. rewrite (Nat.mul_comm 64). by rewrite <-Nat.mul_succ_l, Nat.div_mul.
Qed.

(** ** Correctness *)

(** C23: The incremental digest is the SHA-1 of FIPS 180-4 of the message, however
    the message is cut into pieces and whatever the context held before, for
    messages below 2^29 bytes.  Beyond, the 64-bit length field of the padding
    holds the bit length modulo 2^32, so the result is another digest. *)
Theorem SHA1_correct buf chunks :
  length buf = 64%nat →
  let msg := concat chunks in
  let res := SHA1_Final (foldl SHA1_Update (SHA1_Init buf) chunks) in
  res = (1, sha1_bits (u32 (8 * len msg)) msg) ∧
  (len msg < 2 ^ 29 → res = (1, sha1 msg)).
Proof.
  intros Hb msg res.
  assert (H : res = (1, sha1_bits (u32 (8 * len msg)) msg)).
  { apply Final_repr. by apply (Updates_repr _ []), repr_init. }
  split; [done|]. intros Hl. rewrite H. unfold sha1. by rewrite u32_small by (unfold is_u32; lia).
Qed.

Lemma SHA1_correct_witness :
  length (replicate 64 7) = 64%nat ∧
  SHA1_Final (foldl SHA1_Update (SHA1_Init (replicate 64 7)) [bs "this "; bs "string"]) = (1, sha1 (bs "this string")).
Proof.
  split; [reflexivity|]. refine (proj2 (SHA1_correct (replicate 64 7) [bs "this "; bs "string"] _) _); vm_compute; reflexivity.
Defined.

End Sha1.
