(* ===== verification/WebSocketFrame.v ===== *)
(** * Sending web-socket frames (paho.mqtt.c/src/WebSocket.c)

    The frames built around the buffers of a packet, their masking and its
    removal, compared with the framing of RFC 6455. *)
From S2P Require Import Prelude SocketIO.

Module WebSocketFrame.
Import SocketRead SocketWrite.

(** ** Constants of WebSocket.h *)

Definition WebSocket_OP_CONTINUE := 0x0.
Definition WebSocket_OP_TEXT := 0x1.
Definition WebSocket_OP_BINARY := 0x2.
Definition WebSocket_OP_CLOSE := 0x8.
Definition WebSocket_OP_PING := 0x9.
Definition WebSocket_OP_PONG := 0xA.
Definition WebSocket_CLOSE_NORMAL := 1000.
Definition WebSocket_CLOSE_GOING_AWAY := 1001.
Definition WebSocket_CLOSE_TLS_FAIL := 1015.

(** ** Building a frame *)

Definition WebSocket_calculateFrameHeaderSize (websocket : bool) (mask_data data_len : Z) : Z :=
  if websocket then
    (if data_len <? 126 then 2 else if data_len <? 65536 then 4 else if data_len <? 0xFFFFFFFFFFFFFFFF then 10 else 0)
    + (if (mask_data .& 0x1) =? 0 then 0 else 4)
  else 0.

(** [b ^= mask[idx % 4]] over a buffer, from index [idx] on. *)
Fixpoint mask_bytes (mask : list Z) (idx : Z) (b : list Z) : list Z :=
  match b with
  | [] => []
  | x :: b' => (x .^ (mask !!! Z.to_nat (idx mod 4))) :: mask_bytes mask (idx + 1) b'
  end.

(** The loop over the buffers of the packet, left when the mask is an old one at
    a buffer taken for the topic or the payload. *)
Fixpoint mask_buffers (new_mask : bool) (count i : Z) (mask : list Z) (idx : Z) (bufs : list (list Z)) : list (list Z) :=
  match bufs with
  | [] => []
  | b :: bufs' =>
      if negb new_mask && ((i =? 2) || (i =? count - 1)) then bufs
      else mask_bytes mask idx b :: mask_buffers new_mask count (i + 1) mask (idx + len b) bufs'
  end.

Definition htobe16 (x : Z) : list Z := [u8 (x ≫ 8); u8 x].
Definition htobe64 (x : Z) : list Z :=
  [u8 (x ≫ 56); u8 (x ≫ 48); u8 (x ≫ 40); u8 (x ≫ 32); u8 (x ≫ 24); u8 (x ≫ 16); u8 (x ≫ 8); u8 x].

(** The first byte, the mask bit and the length; [None] for a length that does
    not fit, after which the writes are before the buffer. *)
Definition frame_start (opcode mask_data data_len : Z) : option (list Z) :=
  let b1 := u8 ((mask_data .& 0x1) ≪ 7) in
  if data_len <? 126 then Some [u8 (1 ≪ 7) .| (opcode .& 0x0F); b1 .| (data_len .& 0x7F)]
  else if data_len <? 65536 then
    Some ([u8 (1 ≪ 7) .| (opcode .& 0x0F); b1 .| (126 .& 0x7F)] ++ htobe16 data_len)
  else if data_len <? 0xFFFFFFFFFFFFFFFF then
    Some ([u8 (1 ≪ 7) .| (opcode .& 0x0F); b1 .| (127 .& 0x7F)] ++ htobe64 data_len)
  else None.

(** A buffer of [n] bytes of which the first ones are written. *)
Definition write_header (n : Z) (header rest : list Z) : option (list Z) :=
  let buf := replicate (Z.to_nat n) 0 ++ rest in
  if len header <=? len buf then Some (write_at 0 header buf) else None.

(** [wsbuf0], the buffers and the mask after the call; [rnd] are the results of
    [rand()], and the allocation succeeds.  [buf0] is [None] for NULL. *)
Definition WebSocket_buildFrame (websocket : bool) (opcode mask_data : Z) (buf0 : option (list Z)) (bufs : list (list Z))
    (mask rnd : list Z) : option (list Z * list (list Z) * list Z) :=
  if negb websocket then Some ([], bufs, mask)
  else
    let data_len := u64 (len (default [] buf0) + len (concat bufs)) in
    let ws_header_size := WebSocket_calculateFrameHeaderSize websocket mask_data data_len in
    let new_mask := negb (mask_data =? 0) && (mask !!! 0%nat =? 0) in
    let mask := if new_mask then (λ r, r mod 255) <$> rnd else mask in
    start ← frame_start opcode mask_data data_len;
    if mask_data =? 0 then
      wsbuf0 ← write_header ws_header_size start (default [] buf0);
      Some (wsbuf0, bufs, mask)
    else
      wsbuf0 ← write_header ws_header_size (start ++ mask) (default [] buf0);
      let n := Z.to_nat ws_header_size in
      let masked := mask_bytes mask 0 (drop n wsbuf0) in
      Some (take n wsbuf0 ++ masked, mask_buffers new_mask (len bufs) 0 mask (len masked) bufs, mask).

Fixpoint unmask_loop (mask : list Z) (idx : Z) (bufs : list (list Z)) : list (list Z) :=
  match bufs with
  | [] => []
  | b :: bufs' => mask_bytes mask idx b :: unmask_loop mask (idx + len b) bufs'
  end.

(** The buffers and the mask. *)
Definition WebSocket_unmaskData (idx : Z) (bufs : list (list Z)) (mask : list Z) : list (list Z) * list Z :=
  (unmask_loop mask idx bufs, [0; 0; 0; 0]).

(** ** Writing a packet

    [result] is what [writev] meets.  The answer is the return code, the
    buffers, the mask and the state of the writes. *)
Definition WebSocket_putdatas (websocket : bool) (result : writev_result) (socket : Z) (buf0 : list Z)
    (bufs : list iobuf) (mask rnd : list Z) (s : wstate) : option (Z * list iobuf * list Z * wstate) :=
  if websocket then
    '(wsbuf0, buffers, mask) ← WebSocket_buildFrame websocket WebSocket_OP_BINARY 1 (Some buf0) (iov_base <$> bufs) mask rnd;
    let bufs' := zip_with mkBuf buffers (frees <$> bufs) in
    let '(rc, s') := Socket_putdatas result socket wsbuf0 bufs' s in
    if negb (rc =? TCPSOCKET_INTERRUPTED) then
      let '(buffers, mask) := WebSocket_unmaskData (len buf0) buffers mask in
      Some (rc, zip_with mkBuf buffers (frees <$> bufs), mask, s')
    else Some (rc, bufs', mask, s')
  else
    let '(rc, s') := Socket_putdatas result socket buf0 bufs s in Some (rc, bufs, mask, s').

(** ** Specification (RFC 6455, section 5) *)

Record frame := mkFrame { fin : bool; rsv : Z; opcode : Z; masking_key : option (list Z); payload : list Z }.

Definition be_value (l : list Z) : Z := foldl (λ a b, 256 * a + b) 0 l.

(** The first [n] bytes and the rest. *)
Definition split_bytes (n : Z) (l : list Z) : option (list Z * list Z) :=
  if n <=? len l then Some (take (Z.to_nat n) l, drop (Z.to_nat n) l) else None.

(** Octet [i] of the payload is combined with octet [i] modulo 4 of the key. *)
Definition transform (key : list Z) (l : list Z) : list Z := imap (λ i b, b .^ key !!! (i mod 4)%nat) l.

Definition rfc6455_frame (l : list Z) : option (frame * list Z) :=
  '(b, l) ← split_bytes 2 l;
  let b0 := b !!! 0%nat in let b1 := b !!! 1%nat in
  '(n, l) ← (if b1 mod 128 <? 126 then Some (b1 mod 128, l)
             else '(e, l) ← split_bytes (if b1 mod 128 =? 126 then 2 else 8) l; Some (be_value e, l));
  '(key, l) ← (if 128 <=? b1 then '(k, l) ← split_bytes 4 l; Some (Some k, l) else Some (None, l));
  '(data, l) ← split_bytes n l;
  Some (mkFrame (128 <=? b0) (b0 / 16 mod 8) (b0 mod 16) key
          (match key with Some k => transform k data | None => data end), l).

(** ** Lemmas: masking *)

Lemma mask_bytes_app m i a b : mask_bytes m i (a ++ b) = mask_bytes m i a ++ mask_bytes m (i + len a) b.
Proof.
  revert i. induction a as [|x a IH]; intros i; cbn [mask_bytes app length].
  - f_equal. lia.
  - rewrite IH. do 3 f_equal. lia.
Qed.

Lemma mask_bytes_length m i b : length (mask_bytes m i b) = length b.
Proof. revert i. induction b as [|x b IH]; intros i; cbn [mask_bytes length]; [done|]. by rewrite IH. Qed.

Lemma mask_bytes_involutive m i b : mask_bytes m i (mask_bytes m i b) = b.
Proof.
  revert i. induction b as [|x b IH]; intros i; cbn [mask_bytes]; [done|]. rewrite IH. f_equal.
  by rewrite Z.lxor_assoc, Z.lxor_nilpotent, Z.lxor_0_r.
Qed.

Lemma mask_bytes_imap key (l : list Z) (n : nat) : mask_bytes key (Z.of_nat n) l = imap (λ i b, b .^ key !!! ((n + i) mod 4)%nat) l.
Proof.
  revert n. induction l as [|x l IH]; intros n; cbn [mask_bytes]; [done|]. rewrite imap_cons. f_equal.
  - do 2 f_equal. rewrite Nat.add_0_r. change 4 with (Z.of_nat 4). by rewrite <-Nat2Z.inj_mod, Nat2Z.id.
  - replace (Z.of_nat n + 1) with (Z.of_nat (S n)) by lia. rewrite IH. apply imap_ext. intros i y _. cbn.
    by rewrite Nat.add_succ_r.
Qed.

Lemma mask_bytes_transform key l : mask_bytes key 0 l = transform key l.
Proof. exact (mask_bytes_imap key l 0). Qed.

Lemma mask_buffers_new count m bufs : ∀ i idx,
  concat (mask_buffers true count i m idx bufs) = mask_bytes m idx (concat bufs) ∧
  unmask_loop m idx (mask_buffers true count i m idx bufs) = bufs ∧
  length (mask_buffers true count i m idx bufs) = length bufs.
Proof.
  induction bufs as [|b bufs IH]; intros i idx; cbn [mask_buffers concat unmask_loop negb andb length]; [done|].
  destruct (IH (i + 1) (idx + len b)) as (H1 & H2 & H3). rewrite H1, mask_bytes_app, mask_bytes_involutive.
  rewrite mask_bytes_length, H2, H3. done.
Qed.

(** ** Lemmas: the header *)

Lemma be_value_snoc l x : be_value l = x ≫ 8 → be_value (l ++ [u8 x]) = x.
Proof.
  unfold be_value, u8. rewrite foldl_app. cbn [foldl]. intros ->. rewrite Z.shiftr_div_pow2 by lia.
  change (2 ^ 8) with 256. pose proof (Z.div_mod x 256). lia.
Qed.

Lemma htobe16_value x : 0 ≤ x < 65536 → be_value (htobe16 x) = x.
Proof.
  intros Hx. apply (be_value_snoc [u8 (x ≫ 8)]). cbn [be_value foldl]. unfold be_value, u8. cbn [foldl].
  rewrite Z.shiftr_div_pow2 by lia. change (2 ^ 8) with 256. rewrite Z.mod_small; [lia|]. Z.to_euclidean_division_equations; lia.
Qed.

Lemma htobe64_value x : 0 ≤ x < 2 ^ 64 → be_value (htobe64 x) = x.
Proof.
  intros Hx. unfold htobe64.
  assert (H56 : be_value [u8 (x ≫ 56)] = x ≫ 56).
  { unfold be_value, u8. cbn [foldl]. rewrite Z.shiftr_div_pow2 by lia.
    rewrite Z.mod_small; [lia|]. Z.to_euclidean_division_equations; lia. }
  assert (Hs : ∀ n, 0 ≤ n → (x ≫ n) ≫ 8 = x ≫ (n + 8)) by (intros; rewrite Z.shiftr_shiftr by lia; f_equal; lia).
  apply (be_value_snoc [_; _; _; _; _; _; _]).
  apply (be_value_snoc [_; _; _; _; _; _]). rewrite Hs by lia.
  apply (be_value_snoc [_; _; _; _; _]). rewrite Hs by lia.
  apply (be_value_snoc [_; _; _; _]). rewrite Hs by lia.
  apply (be_value_snoc [_; _; _]). rewrite Hs by lia.
  apply (be_value_snoc [_; _]). rewrite Hs by lia.
  apply (be_value_snoc [_]). by rewrite Hs by lia.
Qed.

Lemma split_bytes_app n a b : len a = n → split_bytes n (a ++ b) = Some (a, b).
Proof.
  intros <-. unfold split_bytes. rewrite Nat2Z.id, length_app, take_app_length, drop_app_length.
  by rewrite (proj2 (Z.leb_le _ _)) by lia.
Qed.

Lemma first_byte opcode : 0 ≤ opcode < 16 → u8 (1 ≪ 7) .| (opcode .& 0x0F) = 128 + opcode.
Proof.
  intros Ho. apply Z.eqb_eq.
  refine (seqZ_forallb (λ o, u8 (1 ≪ 7) .| (o .& 0x0F) =? 128 + o) 16 _ opcode Ho). vm_compute. reflexivity.
Qed.

Lemma second_byte n : 0 ≤ n < 126 → u8 ((1 .& 0x1) ≪ 7) .| (n .& 0x7F) = 128 + n.
Proof.
  intros Hn. apply Z.eqb_eq.
  refine (seqZ_forallb (λ o, u8 ((1 .& 0x1) ≪ 7) .| (o .& 0x7F) =? 128 + o) 126 _ n Hn). vm_compute. reflexivity.
Qed.

(** The length field that follows the two first bytes. *)
Lemma parse_start opcode len7 ext n key data rest :
  0 ≤ opcode < 16 → 0 ≤ len7 < 128 → length key = 4%nat → len data = n →
  (if len7 <? 126 then ext = [] ∧ len7 = n else len ext = (if len7 =? 126 then 2 else 8) ∧ be_value ext = n) →
  rfc6455_frame ([128 + opcode; 128 + len7] ++ ext ++ key ++ data ++ rest)
    = Some (mkFrame true 0 opcode (Some key) (transform key data), rest).
Proof.
  intros Ho Hl Hk Hn Hext. unfold rfc6455_frame. rewrite (split_bytes_app 2) by done. cbn [mbind option_bind].
  change ([128 + opcode; 128 + len7] !!! 0%nat) with (128 + opcode).
  change ([128 + opcode; 128 + len7] !!! 1%nat) with (128 + len7).
  replace ((128 + len7) mod 128) with len7 by (Z.to_euclidean_division_equations; lia).
  assert (E : (if len7 <? 126 then Some (len7, ext ++ key ++ data ++ rest)
    else '(e, l) ← split_bytes (if len7 =? 126 then 2 else 8) (ext ++ key ++ data ++ rest); Some (be_value e, l))
    = Some (n, key ++ data ++ rest)).
  { destruct (len7 <? 126); destruct Hext as [Hx Hv]; [by rewrite Hx, Hv|].
    rewrite split_bytes_app by done. cbn [mbind option_bind]. by rewrite Hv. }
  rewrite E. cbn [mbind option_bind]. rewrite (proj2 (Z.leb_le 128 (128 + len7))) by lia.
  rewrite split_bytes_app by lia. cbn [mbind option_bind]. rewrite split_bytes_app by done. cbn [mbind option_bind].
  rewrite (proj2 (Z.leb_le 128 (128 + opcode))) by lia. do 3 f_equal; Z.to_euclidean_division_equations; lia.
Qed.

Lemma frame_start_ok opcode n : 0 ≤ opcode < 16 → 0 ≤ n < 2 ^ 63 →
  ∃ start, frame_start opcode 1 n = Some start ∧
    len start + 4 = WebSocket_calculateFrameHeaderSize true 1 n ∧
    ∀ key data rest, length key = 4%nat → len data = n →
      rfc6455_frame (start ++ key ++ data ++ rest) = Some (mkFrame true 0 opcode (Some key) (transform key data), rest).
Proof.
  intros Ho Hn. unfold frame_start, WebSocket_calculateFrameHeaderSize. rewrite !first_byte by done.
  change (1 .& 0x1 =? 0) with false. cbn iota.
  destruct (Z.ltb_spec n 126); [|destruct (Z.ltb_spec n 65536); [|rewrite (proj2 (Z.ltb_lt n 0xFFFFFFFFFFFFFFFF)) by lia]];
    (eexists; split; [reflexivity|]; split; [done|]); intros key data rest Hk Hd.
  - rewrite second_byte by lia. apply (parse_start opcode n [] n); try done; [lia|].
    by rewrite (proj2 (Z.ltb_lt _ _)) by lia.
  - rewrite <-app_assoc. apply (parse_start opcode 126 (htobe16 n) n); try done. split; [done|].
    apply htobe16_value. lia.
  - rewrite <-app_assoc. apply (parse_start opcode 127 (htobe64 n) n); try done. split; [done|].
    apply htobe64_value. lia.
Qed.

Lemma write_header_ok n header rest : len header = n → write_header n header rest = Some (header ++ rest).
Proof.
  intros Hn. unfold write_header. rewrite length_app, length_replicate.
  rewrite (proj2 (Z.leb_le _ _)) by lia. unfold write_at.
  change (Z.to_nat 0) with 0%nat. rewrite take_0. cbn [app Nat.add].
  by rewrite (drop_app_length' _ _ (length header)) by (rewrite length_replicate; lia).
Qed.

(** A frame without an old mask: what it is on the wire, and how the buffers are
    found again. *)
Lemma buildFrame_ok opcode buf0 bufs mask rnd : 0 ≤ opcode < 16 → mask !!! 0%nat = 0 → length rnd = 4%nat →
  len (default [] buf0) + len (concat bufs) < 2 ^ 63 →
  ∃ wsbuf0 bufs' key, WebSocket_buildFrame true opcode 1 buf0 bufs mask rnd = Some (wsbuf0, bufs', key) ∧
    (∀ rest, rfc6455_frame (wsbuf0 ++ concat bufs' ++ rest)
      = Some (mkFrame true 0 opcode (Some key) (default [] buf0 ++ concat bufs), rest)) ∧
    WebSocket_unmaskData (len (default [] buf0)) bufs' key = (bufs, [0; 0; 0; 0]) ∧ length bufs' = length bufs ∧
    wsbuf0 ≠ [].
Proof.
  intros Ho Hm Hr Hlen. unfold WebSocket_buildFrame. cbn [negb]. set (b0 := default [] buf0) in *.
  replace (u64 (len b0 + len (concat bufs))) with (len (b0 ++ concat bufs))
    by (unfold u64; rewrite length_app, Nat2Z.inj_add, Z.mod_small; lia).
  destruct (frame_start_ok opcode (len (b0 ++ concat bufs)) Ho) as (start & -> & Hs & Hp);
    [rewrite length_app, Nat2Z.inj_add; lia|].
  rewrite Hm. change (negb (1 =? 0) && (0 =? 0)) with true. cbn [mbind option_bind]. change (1 =? 0) with false. cbn iota.
  set (key := (λ r, r mod 255) <$> rnd). assert (Hk : length key = 4%nat) by (unfold key; by rewrite length_fmap).
  rewrite write_header_ok by (rewrite length_app, Nat2Z.inj_add; lia). cbn [mbind option_bind].
  assert (Hsz : length (start ++ key) = Z.to_nat (WebSocket_calculateFrameHeaderSize true 1 (len (b0 ++ concat bufs))))
    by (rewrite length_app; lia).
  rewrite <-Hsz, take_app_length, drop_app_length, mask_bytes_length.
  destruct (mask_buffers_new (len bufs) key bufs 0 (len b0)) as (Hc & Hu & Hl).
  eexists _, _, key. split; [done|]. split; [|split; [|split]].
  - intros rest. rewrite Hc, <-!app_assoc. rewrite (app_assoc _ _ rest).
    change (len b0) with (0 + len b0). rewrite <-mask_bytes_app. rewrite Hp; [|done|].
    + by rewrite <-mask_bytes_transform, mask_bytes_involutive.
    + by rewrite mask_bytes_length.
  - unfold WebSocket_unmaskData. by rewrite Hu.
  - done.
  - intros E. apply (f_equal length) in E. rewrite !length_app in E. cbn in E. lia.
Qed.

Lemma zip_iov_bytes (bufs' : list (list Z)) (fs : list bool) : length bufs' = length fs →
  iov_bytes (zip_with mkBuf bufs' fs) = concat bufs'.
Proof.
  revert fs. induction bufs' as [|b bufs' IH]; intros [|f fs] Hl; try done. cbn [zip_with concat].
  rewrite iov_bytes_cons, IH; [done|]. by injection Hl.
Qed.

Lemma zip_iov (bufs : list iobuf) : zip_with mkBuf (iov_base <$> bufs) (frees <$> bufs) = bufs.
Proof. induction bufs as [|[b f] bufs IH]; [done|]. rewrite !fmap_cons. cbn [zip_with iov_base frees]. by rewrite IH. Qed.

Definition room_ok (r : writev_result) : Prop := match r with WRoom n => 0 ≤ n | WError _ => True end.

(** ** Property *)

(** C22: A packet given to [WebSocket_putdatas] on an upgraded connection goes out as
    one frame of RFC 6455, final, binary, masked, whose payload is the packet.
    When it is written at once, or cannot be written, the caller finds its
    buffers as they were, without mask; when it is interrupted, the pending
    write holds the frame, a strict prefix of it is sent, and the key that the
    caller keeps takes the mask off its buffers.  The caller keeps no mask from
    before (one that does, as a PUBLISH sent again after an interrupted write, gets
    a frame that does not hold its packet, see the findings), no write is pending
    on the socket, the packet has less than 2^63 bytes, and the system
    writes a number of bytes or answers an error. *)
Theorem putdatas_frames result sock buf0 bufs mask rnd s :
  mask !!! 0%nat = 0 → length rnd = 4%nat → len buf0 + len (iov_bytes bufs) < 2 ^ 63 →
  sock ∉ write_pending s → room_ok result →
  ∃ rc bufs' mask' s' W key,
    WebSocket_putdatas true result sock buf0 bufs mask rnd s = Some (rc, bufs', mask', s') ∧
    rfc6455_frame W = Some (mkFrame true 0 WebSocket_OP_BINARY (Some key) (buf0 ++ iov_bytes bufs), []) ∧
    ((rc = TCPSOCKET_COMPLETE ∧ s' = mkW (writes s) (write_pending s) (add_sent sock W (sent s)) ∧
      bufs' = bufs ∧ mask' = [0; 0; 0; 0]) ∨
     (rc = SOCKET_ERROR ∧ s' = s ∧ bufs' = bufs ∧ mask' = [0; 0; 0; 0]) ∨
     (rc = TCPSOCKET_INTERRUPTED ∧ ∃ n iovecs, 0 ≤ n < len W ∧ iov_bytes iovecs = W ∧
      s' = mkW (writes s ++ [mkPending sock (len W) n iovecs]) (write_pending s ++ [sock])
             (match result with WRoom _ => add_sent sock (take (Z.to_nat n) W) (sent s) | WError _ => sent s end) ∧
      mask' = key ∧ frees <$> bufs' = frees <$> bufs ∧
      WebSocket_unmaskData (len buf0) (iov_base <$> bufs') key = (iov_base <$> bufs, [0; 0; 0; 0]))).
Proof.
  intros Hm Hr Hlen Hnp Hok.
  destruct (buildFrame_ok WebSocket_OP_BINARY (Some buf0) (iov_base <$> bufs) mask rnd) as
    (wsbuf0 & buffers & key & Hb & Hp & Hu & Hl & Hne); [done|done|done|done|].
  change (default [] (Some buf0)) with buf0 in *.
  rewrite length_fmap in Hl. set (F := frees <$> bufs). assert (HF : length buffers = length F) by (unfold F; by rewrite length_fmap).
  pose proof (zip_iov_bytes buffers F HF) as Hz. set (W := wsbuf0 ++ concat buffers).
  unfold WebSocket_putdatas. rewrite Hb. cbn [mbind option_bind]. unfold Socket_putdatas, Socket_noPendingWrites.
  fold F. rewrite bool_decide_eq_true_2 by done. cbn [negb]. rewrite iov_bytes_cons, Hz. cbn [iov_base]. fold W.
  assert (HW : rfc6455_frame W = Some (mkFrame true 0 WebSocket_OP_BINARY (Some key) (buf0 ++ iov_bytes bufs), []))
    by (unfold W; rewrite <-(app_nil_r (concat buffers)); apply Hp).
  assert (HWp : 0 < len W) by (unfold W; rewrite length_app; destruct wsbuf0; [done|cbn; lia]).
  assert (Hzb : zip_with mkBuf (iov_base <$> bufs) F = bufs) by apply zip_iov.
  assert (Hbase : iov_base <$> zip_with mkBuf buffers F = buffers) by (apply fmap_zip_with_l; [done|lia]).
  assert (Hfr : frees <$> zip_with mkBuf buffers F = F) by (apply fmap_zip_with_r; [done|lia]).
  unfold Socket_writev. rewrite iov_bytes_cons, Hz. cbn [iov_base]. fold W.
  destruct result as [n|e]; [|destruct (e =? EAGAIN)]; cbn [room_ok] in Hok.
  - set (t := take (Z.to_nat n) W). rewrite (proj2 (Z.eqb_neq (len t) SOCKET_ERROR)) by (unfold SOCKET_ERROR; lia).
    destruct (Z.eqb_spec (len t) (len W)) as [He|He].
    + assert (Ht : t = W) by (unfold t in *; rewrite length_take in He; apply take_ge; lia). rewrite Ht.
      change (negb (TCPSOCKET_COMPLETE =? TCPSOCKET_INTERRUPTED)) with true. cbn iota. rewrite Hu.
      eexists _, _, _, _, W, key. split; [by rewrite Hzb|]. split; [done|]. by left.
    + change (negb (TCPSOCKET_INTERRUPTED =? TCPSOCKET_INTERRUPTED)) with false. cbn iota.
      eexists _, _, _, _, W, key. split; [done|]. split; [done|]. right; right. split; [done|].
      exists (len t), (mkBuf wsbuf0 true :: zip_with mkBuf buffers F).
      split; [unfold t in *; rewrite length_take in *; lia|]. split; [by rewrite iov_bytes_cons, Hz|].
      rewrite Nat2Z.id. assert (Ht : take (length t) W = t) by (symmetry; apply (take_prefix W W []); by rewrite app_nil_r).
      rewrite Ht, Hbase, Hfr. by rewrite Hu.
  - change (TCPSOCKET_INTERRUPTED =? SOCKET_ERROR) with false. cbn iota. rewrite (proj2 (Z.eqb_neq 0 (len W))) by lia.
    change (negb (TCPSOCKET_INTERRUPTED =? TCPSOCKET_INTERRUPTED)) with false. cbn iota.
    eexists _, _, _, _, W, key. split; [done|]. split; [done|]. right; right. split; [done|].
    exists 0, (mkBuf wsbuf0 true :: zip_with mkBuf buffers F). split; [lia|]. split; [by rewrite iov_bytes_cons, Hz|].
    by rewrite Hbase, Hfr, Hu.
  - change (SOCKET_ERROR =? SOCKET_ERROR) with true. cbn iota.
    change (SOCKET_ERROR =? TCPSOCKET_INTERRUPTED) with false. cbn [negb]. rewrite Hu.
    eexists _, _, _, _, W, key. split; [by rewrite Hzb|]. split; [done|]. right; left. done.
Qed.

Lemma putdatas_frames_witness :
  ∃ rc bufs' mask' s' W key,
    WebSocket_putdatas true (WRoom 9) 4 [0x30; 3] [mkBuf [0; 1] true; mkBuf [97] false] [0; 0; 0; 0] [7; 258; 3; 9] idle_w
      = Some (rc, bufs', mask', s') ∧
    rfc6455_frame W = Some (mkFrame true 0 WebSocket_OP_BINARY (Some key) [0x30; 3; 0; 1; 97], []).
Proof.
  destruct (putdatas_frames (WRoom 9) 4 [0x30; 3] [mkBuf [0; 1] true; mkBuf [97] false] [0; 0; 0; 0] [7; 258; 3; 9] idle_w)
    as (rc & bufs' & mask' & s' & W & key & H1 & H2 & _); [done|done|done|cbn; set_solver|done|].
  exists rc, bufs', mask', s', W, key. exact (conj H1 H2).
Defined.

(** A PUBLISH sent again after an interrupted write keeps its mask: the buffers
    taken for those that are masked already are the identifier and the payload,
    so the topic loses its mask and the frame does not hold the packet. *)
Example old_mask_frame :
  (let key := [1; 2; 3; 4] in
  let topic := mask_bytes key 4 (bs "ab") in let data := mask_bytes key 8 [9] in
  '(wsbuf0, bufs', _) ← WebSocket_buildFrame true WebSocket_OP_BINARY 1 (Some [0x32; 7]) [[0; 2]; topic; [0; 5]; data] key [];
  '(f, _) ← rfc6455_frame (wsbuf0 ++ concat bufs');
  Some (payload f)) = Some ([0x32; 7; 0; 2] ++ mask_bytes [1; 2; 3; 4] 4 (bs "ab") ++ [3; 1; 9]).
Proof. vm_compute. reflexivity. Qed.

End WebSocketFrame.
