(* ===== verification/WebSocketRead.v ===== *)
(** * Receiving web-socket frames (paho.mqtt.c/src/WebSocket.c)

    The buffer of raw bytes over the socket layer, the frames received, the
    bytes that the packet factory takes from them.  The module keeps one buffer
    and one queue of frames for all connections; the model is that of a process
    with one web-socket connection. *)
From S2P Require Import Prelude PacketCodec Packets SocketIO WebSocketFrame.

Module WebSocketRead.
Import Codecs Packets SocketRead WebSocketFrame.

(** ** Data *)

(** [struct ws_frame] and the data that follows it; [len] is the length of the data. *)
Record ws_frame := mkWsFrame { ws_data : list Z; pos : Z }.

(** The variables of the module, of the connection, and the frames that were
    given to the socket layer by [WebSocket_pong] and [WebSocket_close].  In
    [in_frames], [None] is a frame that was freed. *)
Record ws_state := mkWs {
  raw : state;
  frame_buffer : option (list Z);
  frame_buffer_len : Z;
  frame_buffer_index : Z;
  frame_buffer_data_len : Z;
  in_frames : list (option ws_frame);
  websocket : bool;
  rands : list Z;
  control : list (list Z)
}.

(** Statements; [None] is an access out of bounds or to freed memory. *)
Definition ws (A : Type) : Type := ws_state → option (A * ws_state).
#[export] Instance ws_ret : MRet ws := λ A a s, Some (a, s).
#[export] Instance ws_bind : MBind ws := λ A B k m s,
  match m s with Some (a, s') => k a s' | None => None end.
Definition ws_get : ws ws_state := λ s, Some (s, s).
Definition ws_fault {A} : ws A := λ s, None.

Definition on_raw {A} (m : io A) : ws A := λ s,
  match m (raw s) with
  | Some (a, r) => Some (a, mkWs r (frame_buffer s) (frame_buffer_len s) (frame_buffer_index s) (frame_buffer_data_len s)
                              (in_frames s) (websocket s) (rands s) (control s))
  | None => None
  end.
Definition set_buffer (b : option (list Z)) (blen index data_len : Z) : ws () := λ s,
  Some ((), mkWs (raw s) b blen index data_len (in_frames s) (websocket s) (rands s) (control s)).
Definition set_frames (l : list (option ws_frame)) : ws () := λ s,
  Some ((), mkWs (raw s) (frame_buffer s) (frame_buffer_len s) (frame_buffer_index s) (frame_buffer_data_len s)
              l (websocket s) (rands s) (control s)).
(** A frame of control, with the four results of [rand()] for its mask. *)
Definition send_control (f : list Z) (closing : bool) : ws () := λ s,
  Some ((), mkWs (raw s) (frame_buffer s) (frame_buffer_len s) (frame_buffer_index s) (frame_buffer_data_len s)
              (in_frames s) (websocket s && negb closing) (drop 4 (rands s)) (control s ++ [f])).

(** ** The raw bytes *)

Definition WebSocket_rewindData : ws () :=
  s ← ws_get; set_buffer (frame_buffer s) (frame_buffer_len s) 0 (frame_buffer_data_len s).

(** The bytes at [frame_buffer + index]. *)
Definition buffered (s : ws_state) (n : Z) : list Z :=
  take (Z.to_nat n) (drop (Z.to_nat (frame_buffer_index s)) (default [] (frame_buffer s))).

(** [frame_buffer_index += n]; the bytes that were there. *)
Definition advance (n : Z) : ws (list Z) :=
  s ← ws_get;
  set_buffer (frame_buffer s) (frame_buffer_len s) (frame_buffer_index s + n) (frame_buffer_data_len s);;
  mret (buffered s n).

(** The append of [d] to the buffer; [realloc] keeps the bytes. *)
Definition append_data (d : list Z) : ws () :=
  s ← ws_get;
  match frame_buffer s with
  | None => set_buffer (Some d) (len d) 0 (len d)
  | Some b =>
      let dl := frame_buffer_data_len s in
      if dl + len d <? frame_buffer_len s
      then set_buffer (Some (write_at dl d b)) (frame_buffer_len s) (frame_buffer_index s) (dl + len d)
      else set_buffer (Some (write_at dl d (take (Z.to_nat dl) b))) (dl + len d) (frame_buffer_index s) (dl + len d)
  end.

(** [WebSocket_getRawSocketData]: the pointer returned ([None] for NULL) as the
    bytes it gives to, [*actual_len] and [*rc], which is [rc0] on entry. *)
Definition WebSocket_getRawSocketData (socket bytes rc0 : Z) : ws (option (list Z) * Z * Z) :=
  s ← ws_get;
  let available := frame_buffer_data_len s - frame_buffer_index s in
  if (0 <? bytes) && (bytes <=? available) then d ← advance bytes; mret (Some d, bytes, rc0)
  else
    let want := if 0 <? bytes then bytes - available else bytes in
    '(rc, rv, actual_len) ← on_raw (Socket_getdata_rc socket want);
    let rc := default rc0 rc in
    let rv := take (Z.to_nat actual_len) <$> rv in
    if rc =? 0 then mret (rv, actual_len, SOCKET_ERROR)
    else if want =? 0 then set_buffer None 0 0 0;; mret (rv, actual_len, rc)
    else
      match rv with
      | Some b =>
          if actual_len =? 0 then mret (rv, actual_len, rc)
          else
            append_data b;;
            on_raw (SocketBuffer_complete socket);;
            s ← ws_get;
            let available := frame_buffer_data_len s - frame_buffer_index s in
            let n := if bytes <=? available then bytes else available in
            d ← advance n;
            mret (Some d, n, rc)
      | None => mret (None, actual_len, rc)
      end.

(** ** Frames of control *)

(** The buffers of [nulbufs] are none; the result of the write is not looked at. *)
Definition WebSocket_pong (app_data : list Z) : ws () :=
  s ← ws_get;
  if websocket s then
    match WebSocket_buildFrame true WebSocket_OP_PONG 1 None [app_data] [0; 0; 0; 0] (take 4 (rands s)) with
    | Some (wsbuf0, bufs, _) => send_control (wsbuf0 ++ concat bufs) false
    | None => ws_fault
    end
  else mret ().

Definition WebSocket_close (status_code : Z) (reason : option (list Z)) : ws () :=
  s ← ws_get;
  if websocket s then
    let status_code := if (status_code <? WebSocket_CLOSE_NORMAL) || (WebSocket_CLOSE_TLS_FAIL <? status_code)
                       then WebSocket_CLOSE_GOING_AWAY else status_code in
    match reason with
    | Some r => ws_fault  (* the terminator is written after the end of the buffer *)
    | None =>
        match WebSocket_buildFrame true WebSocket_OP_CLOSE 1 (Some (htobe16 status_code)) [] [0; 0; 0; 0] (take 4 (rands s)) with
        | Some (wsbuf0, _, _) => send_control wsbuf0 true
        | None => ws_fault
        end
    end
  else mret ().

(** ** Receiving a frame *)

(** [goto exit] with a return code, or the value of the block. *)
Definition wx (A : Type) : Type := ws (Z + A).
#[export] Instance wx_ret : MRet wx := λ A a, mret (M := ws) (inr a).
#[export] Instance wx_bind : MBind wx := λ A B k m,
  mbind (M := ws) (λ r, match r with inl rc => mret (M := ws) (inl rc) | inr a => k a end) m.
Definition exit {A} (rc : Z) : wx A := mret (M := ws) (inl rc).
Definition lift {A} (m : ws A) : wx A := mbind (M := ws) (λ a, mret (M := ws) (inr a)) m.

(** A read of [n] bytes of the frame: [rc] of the socket layer, the bytes. *)
Definition read_raw (socket n rcs rc_null : Z) : wx (Z * list Z) :=
  '(b, len, rcs) ← lift (WebSocket_getRawSocketData socket n rcs);
  if rcs =? SOCKET_ERROR then exit rcs
  else match b with
       | None => exit rc_null
       | Some b => if len <? n then exit TCPSOCKET_INTERRUPTED else mret (rcs, b)
       end.

(** [be16toh] and [be64toh] of the bytes read. *)
Definition betoh (b : list Z) : Z := foldl (λ a x, a * 256 + x) 0 b.

(** A turn of the inner loop: the frame, extended; whether it was the last one. *)
Definition frame_turn (socket garbage opcode : Z) (res : option ws_frame) : wx (bool * Z * ws_frame) :=
  '(rcs, b) ← read_raw socket 2 garbage TCPSOCKET_INTERRUPTED;
  let b0 := b !!! 0%nat in let b1 := b !!! 1%nat in
  let is_final := (b0 .& 0xFF) ≫ 7 in
  let tmp_opcode := b0 .& 0x0F in
  let opcode := if tmp_opcode =? 0 then opcode else tmp_opcode in
  if (opcode <? WebSocket_OP_CONTINUE) || (WebSocket_OP_PONG <? opcode)
     || ((WebSocket_OP_BINARY <? opcode) && (opcode <? WebSocket_OP_CLOSE)) then exit SOCKET_ERROR
  else
    let has_mask := (b1 .& 0xFF) ≫ 7 in
    let payload_len := b1 .& 0x7F in
    '(rcs, payload_len) ←
      (if payload_len =? 126 then '(rcs, b) ← read_raw socket 2 rcs SOCKET_ERROR; mret (rcs, betoh b)
       else if payload_len =? 127 then '(rcs, b) ← read_raw socket 8 rcs SOCKET_ERROR; mret (rcs, betoh b)
       else mret (rcs, payload_len));
    rcs ← (if has_mask =? 0 then mret rcs
           else '(rcs, _) ← read_raw socket 4 rcs SOCKET_ERROR; mret rcs);
    '(rcs, b) ← read_raw socket payload_len rcs SOCKET_ERROR;
    (* the key was copied to a variable of the block above *)
    let b := if has_mask =? 0 then b else mask_bytes [0; 0; 0; 0] 0 b in
    let res := match res with Some r => mkWsFrame (ws_data r ++ b) (pos r) | None => mkWsFrame b 0 end in
    s ← lift ws_get;
    lift (match in_frames s with _ :: l => set_frames (Some res :: l) | [] => mret () end);;
    '(_, _, rcs) ← lift (WebSocket_getRawSocketData socket 0 rcs);
    if rcs =? SOCKET_ERROR then exit rcs else mret (negb (is_final =? 0), opcode, res).

(** [free(res)]: the head of the queue, if any, is the same frame. *)
Definition free_res : ws () :=
  s ← ws_get; match in_frames s with _ :: l => set_frames (None :: l) | [] => mret () end.

(** The two loops, by turns of the inner one. *)
Fixpoint receive_loop (fuel : nat) (socket garbage opcode : Z) (res : option ws_frame) : wx ws_frame :=
  match fuel with
  | O => lift ws_fault
  | S fuel' =>
      '(is_final, opcode, r) ← frame_turn socket garbage opcode res;
      if negb is_final then receive_loop fuel' socket garbage opcode (Some r)
      else if (opcode =? WebSocket_OP_PING) || (opcode =? WebSocket_OP_PONG) then
        lift (if opcode =? WebSocket_OP_PING then WebSocket_pong (ws_data r) else mret ());;
        lift free_res;;
        receive_loop fuel' socket garbage opcode None
      else if opcode =? WebSocket_OP_CLOSE then
        lift free_res;;
        lift (WebSocket_close WebSocket_CLOSE_GOING_AWAY None);;
        exit SOCKET_ERROR
      else mret r
  end.

(** [garbage] is the value of the variable [rcs] before its first assignment.
    The return code and [*actual_len]. *)
Definition WebSocket_receiveFrame (fuel : nat) (socket garbage : Z) : ws (Z * Z) :=
  s ← ws_get;
  match in_frames s with
  | None :: _ => ws_fault
  | _ =>
      r ← receive_loop fuel socket garbage WebSocket_OP_BINARY (mjoin (head (in_frames s)));
      match r with
      | inl rc => (if rc =? TCPSOCKET_INTERRUPTED then WebSocket_rewindData else mret ());; mret (rc, 0)
      | inr res =>
          s ← ws_get;
          (match in_frames s with [] => set_frames [Some res] | _ => mret () end);;
          mret (TCPSOCKET_COMPLETE, len (ws_data res) - pos res)
      end
  end.

(** ** Reading from a frame *)

(** The byte is [None] when the call does not write it. *)
Definition WebSocket_getch (fuel : nat) (socket garbage : Z) : ws (Z * option Z) :=
  s ← ws_get;
  if negb (websocket s) then '(rc, c) ← on_raw (Socket_getch socket); mret (rc, Some c)
  else
    rc ← (match in_frames s with
          | None :: _ => ws_fault
          | Some f :: _ => if len (ws_data f) =? pos f then ('(rc, _) ← WebSocket_receiveFrame fuel socket garbage; mret rc)
                           else mret TCPSOCKET_COMPLETE
          | [] => ('(rc, _) ← WebSocket_receiveFrame fuel socket garbage; mret rc)
          end);
    if negb (rc =? TCPSOCKET_COMPLETE) then mret (rc, None)
    else
      s ← ws_get;
      match in_frames s with
      | Some f :: l =>
          if pos f <? len (ws_data f) then
            match peek (ws_data f) (pos f) with
            | Some c => set_frames (Some (mkWsFrame (ws_data f) (pos f + 1)) :: l);; mret (TCPSOCKET_COMPLETE, Some c)
            | None => ws_fault
            end
          else mret (rc, None)
      | _ => ws_fault
      end.

Definition WebSocket_framePos : ws Z :=
  s ← ws_get;
  match in_frames s with Some f :: _ => mret (pos f) | None :: _ => ws_fault | [] => mret 0 end.

Definition WebSocket_framePosSeekTo (p : Z) : ws () :=
  s ← ws_get;
  match in_frames s with
  | Some f :: l => set_frames (Some (mkWsFrame (ws_data f) p) :: l)
  | None :: _ => ws_fault
  | [] => mret ()
  end.

(** The bytes from [pos] on. *)
Definition unread (f : ws_frame) : list Z := drop (Z.to_nat (pos f)) (ws_data f).

(** The loop that receives until [bytes] can be read: the frame and whether it
    holds them. *)
Fixpoint more_loop (turns fuel : nat) (socket garbage bytes : Z) (f : ws_frame) : ws (bool * ws_frame) :=
  if bytes <=? len (ws_data f) - pos f then mret (true, f)
  else
    match turns with
    | O => ws_fault
    | S turns' =>
        '(rc, _) ← WebSocket_receiveFrame fuel socket garbage;
        if negb (rc =? TCPSOCKET_COMPLETE) then mret (false, f)
        else
          s ← ws_get;
          match in_frames s with
          | Some f :: _ => more_loop turns' fuel socket garbage bytes f
          | _ => ws_fault
          end
    end.

(** The pointer, as the bytes it gives to, and [*actual_len]; a frame detached
    from the queue stays allocated until the next one is. *)
Definition WebSocket_getdata (turns fuel : nat) (socket garbage bytes : Z) : ws (option (list Z) * Z) :=
  s ← ws_get;
  if negb (websocket s) then on_raw (Socket_getdata socket bytes)
  else if bytes =? 0 then
    match in_frames s with
    | Some f :: l => if pos f =? len (ws_data f) then set_frames l;; mret (Some [], 0) else mret (None, 0)
    | None :: _ => ws_fault
    | [] => mret (None, 0)
    end
  else
    (match in_frames s with [] => WebSocket_receiveFrame fuel socket garbage;; mret () | _ => mret () end);;
    s ← ws_get;
    match in_frames s with
    | [] => mret (None, 0)
    | None :: _ => ws_fault
    | Some f :: _ =>
        '(enough, f) ← more_loop turns fuel socket garbage bytes f;
        let actual_len := len (ws_data f) - pos f in
        if negb enough then mret (Some (unread f), actual_len)
        else
          s ← ws_get;
          set_frames (if bytes <? actual_len then Some (mkWsFrame (ws_data f) (pos f + bytes)) :: tl (in_frames s)
                      else tl (in_frames s));;
          mret (Some (unread f), actual_len)
    end.

(** ** The packet factory on such a connection (MQTTPacket.c)

    [header0] is the static variable that holds the first byte. *)
Fixpoint decode_ws (left fuel : nat) (socket garbage multiplier value : Z) : ws (Z * Z) :=
  match left with
  | O => mret (SOCKET_ERROR, value)
  | S left' =>
      '(rc, c) ← WebSocket_getch fuel socket garbage;
      if negb (rc =? TCPSOCKET_COMPLETE) then mret (rc, value)
      else
        match c with
        | None => ws_fault
        | Some c =>
            let value := value + (c .& 127) * multiplier in
            if (c .& 128) =? 0 then mret (rc, value) else decode_ws left' fuel socket garbage (multiplier * 128) value
        end
  end.

Definition Factory_ws (turns fuel : nat) (socket garbage header0 : Z) : ws factory_result :=
  headerWsFramePos ← WebSocket_framePos;
  let interrupted rc : ws factory_result :=
    (if rc =? TCPSOCKET_INTERRUPTED then WebSocket_framePosSeekTo headerWsFramePos else mret ());; mret (FError rc) in
  '(rc, c) ← WebSocket_getch fuel socket garbage;
  if negb (rc =? TCPSOCKET_COMPLETE) then interrupted rc
  else
    let header := default header0 c in
    '(rc, remaining_length) ← decode_ws MAX_NO_OF_REMAINING_LENGTH_BYTES fuel socket garbage 1 0;
    if negb (rc =? TCPSOCKET_COMPLETE) then interrupted rc
    else
      '(data, actual_len) ← WebSocket_getdata turns fuel socket garbage remaining_length;
      match data with
      | None => if remaining_length =? 0 then mret (FPacket header []) else mret (FError SOCKET_ERROR)
      | Some data =>
          if actual_len <? remaining_length then interrupted TCPSOCKET_INTERRUPTED
          else mret (FPacket header (take (Z.to_nat remaining_length) data))
      end.

(** ** Lemmas: raw bytes from a quiet socket *)

(** Nothing of the socket is kept aside by the socket layer. *)
Definition quiet (socket : Z) (r : state) : Prop := reading socket 0 r 0 [] [].

Lemma reading_total socket t t' r : reading socket t r 0 [] [] → reading socket t' r 0 [] [].
Proof.
  assert (H : ∀ q, queue_ok t q 0 [] [] → queue_ok t' q 0 [] []) by (intros q []; by split).
  intros [H1 H2 H3 H4]. split; [done|done|done|]. destruct (find_queue socket (queues r)) as [q|].
  - destruct H4 as [H4 H5]. auto.
  - destruct H4 as (H4 & H5 & [H6|[H6 H7]]); auto 8.
Qed.

Lemma complete_quiet socket t r D : reading socket t r 0 [] D →
  ∃ b r', SocketBuffer_complete socket r = Some (b, r') ∧ quiet socket r' ∧ input r' = input r.
Proof.
  intros Hr. destruct (complete_ok _ _ _ _ _ _ Hr) as (r' & H1 & H2 & H3 & _).
  exists (q_buf (current_queue socket r)), r'. split; [done|]. split; [by apply idle_reading|done].
Qed.

(** Replacing the queue in use by another one without data. *)
Lemma set_quiet_queue socket t r q' : reading socket t r 0 [] [] →
  queue_ok t q' 0 [] [] → q_socket q' = q_socket (current_queue socket r) →
  let r' := match find_queue socket (queues r) with
            | Some _ => mkState (update_queue socket q' (queues r)) (def_queue r) (input r)
            | None => mkState (queues r) q' (input r)
            end in
  reading socket t r' 0 [] [] ∧ current_queue socket r' = q' ∧ input r' = input r.
Proof.
  intros [Hnd Hk HR Hq] Hok Hsock r'. unfold r', current_queue in *.
  destruct (find_queue socket (queues r)) as [q|] eqn:Hf.
  - assert (Hs : q_socket q' = socket) by (apply find_queue_socket in Hf as [? _]; congruence).
    destruct (update_queue_ok socket q' (queues r) (ex_intro _ q Hf) Hs) as (Hf' & _ & Hss).
    cbn [queues def_queue input]. rewrite Hf'. split; [|done].
    split; cbn [queues def_queue]; [by rewrite Hss|done|done|]. rewrite Hf'. destruct Hq. done.
  - cbn [queues def_queue input]. rewrite Hf. split; [|done]. split; cbn [queues def_queue]; [done|done|done|].
    rewrite Hf. split; [done|]. split; [done|]. destruct Hq as (_ & _ & [[_ [Hz _]]|[Hs _]]).
    + left. split; [done|]. split; [congruence|]. destruct Hok. by split.
    + right. split; [congruence|done].
Qed.

Lemma current_quiet socket t r : reading socket t r 0 [] [] → queue_ok t (current_queue socket r) 0 [] [].
Proof.
  intros [_ _ _ Hq]. unfold current_queue. destruct (find_queue socket (queues r)); [apply Hq|].
  destruct Hq as (_ & _ & [[_ Hf]|[_ Hok]]); [by apply free_queue_any|done].
Qed.

(** [n] bytes asked of a quiet socket: those that have arrived, none if it would
    block; a call that gives fewer than asked has met the end of what is there. *)
Definition stopped (r r' : state) : Prop :=
  (length (input r') < length (input r))%nat ∨ bytes_of (input r') = [].

Definition rest_events (left : list Z) (ev : list recv_event) : list recv_event :=
  match left with [] => ev | _ => Chunk left :: ev end.

Lemma getdata_quiet socket n r : 0 < socket → 0 < n → quiet socket r → alive (input r) →
  ∃ rc buf d r' D, Socket_getdata_rc socket n r = Some ((Some rc, Some buf, len d), r') ∧
    take (length d) buf = d ∧ len d ≤ n ∧ bytes_of (input r) = d ++ bytes_of (input r') ∧
    alive (input r') ∧ (length (input r') ≤ length (input r))%nat ∧ 0 < rc ∧
    reading socket n r' 0 [] D ∧ (d = [] → D = []) ∧ (len d < n → stopped r r') ∧
    (∀ c ev, input r = Chunk c :: ev →
       d = take (Z.to_nat n) c ∧ input r' = rest_events (drop (Z.to_nat n) c) ev).
Proof.
  intros Hs Hn Hq Ha. apply (reading_total _ _ n) in Hq. unfold Socket_getdata_rc.
  rewrite (proj2 (Z.eqb_neq n 0)) by lia.
  pose proof (current_quiet _ _ _ Hq) as Hok. set (q := current_queue socket r) in *.
  destruct (grow_buf_ok _ _ _ _ _ Hok) as (Hok1 & Htot & Hsk); [lia|].
  destruct (set_quiet_queue socket n r (grow_buf q n) Hq Hok1 Hsk) as (Hq1 & Hc1 & Hi1).
  set (r1 := match find_queue socket (queues r) with Some _ => _ | None => _ end) in *.
  assert (Hrun : SocketBuffer_getQueuedData socket n r = Some (0, r1)).
  { unfold SocketBuffer_getQueuedData, mbind, io_bind, get, set_queues, set_def, mret, io_ret, r1.
    unfold q, current_queue in *. destruct (find_queue socket (queues r)) as [q'|]; [|done].
    by rewrite (qo_datalen _ _ _ _ _ Hok). }
  unfold mbind, io_bind. rewrite Hrun. rewrite <-Hi1 in Ha. rewrite Z.sub_0_r.
  destruct (recv_many n r1 Ha Hn) as [(d & ev & Hrecv & Hd & Hdl & Hbytes & Ha' & Hl & Hl')|(ev & Hrecv & Hbytes & Ha' & Hl)];
    rewrite Hrecv; set (r2 := mkState _ _ ev);
    assert (Hq2 : reading socket n r2 0 [] []) by (by apply reading_input);
    assert (Hc2 : current_queue socket r2 = current_queue socket r1) by done.
  - destruct d as [|x d]; [done|]. set (dd := x :: d) in *.
    set (q1 := current_queue socket r1) in *. rewrite Hc1 in Hc2. rewrite <-Hc1 in Htot, Hok1. fold q1 in Htot, Hok1.
    pose proof (qo_buflen _ _ _ _ _ Hok1) as Hbl.
    destruct (write_at_take 0 dd (q_buf q1)) as [Htake Hwl]; [lia|lia|]. cbn [Z.to_nat Nat.add] in Htake. rewrite take_0 in Htake.
    set (q2 := mkQueue (q_socket q1) (q_index q1) (q_headerlen q1) (q_fixed_header q1) (q_buflen q1)
      (q_datalen q1) (write_at 0 dd (q_buf q1))).
    assert (Hok2 : queue_ok n q2 0 [] []) by (destruct Hok1; split; cbn [q2 q_index q_headerlen q_fixed_header q_datalen q_buf q_buflen]; try done; lia).
    destruct (set_quiet_queue socket n r2 q2 Hq2 Hok2) as (Hq3 & Hc3 & Hi3); [by rewrite Hc2, <-Hc1|].
    set (r3 := match find_queue socket (queues r2) with Some _ => _ | None => _ end) in *.
    assert (Hst : store_data socket 0 dd r2 = Some (write_at 0 dd (q_buf q1), r3)).
    { unfold store_data, mbind, io_bind, get, set_queues, set_def, mret, io_ret, r3.
      assert (Hcur : current_queue socket r2 = q1) by (by rewrite Hc2, <-Hc1).
      unfold current_queue in Hcur. unfold q2.
      destruct (find_queue socket (queues r2)) as [q'|]; rewrite Hcur; rewrite (proj2 (Z.leb_le _ _)) by lia; done. }
    rewrite Hst. rewrite Z.add_0_l. cbn [app] in Htake.
    assert (HB : bytes_of (input r) = dd ++ bytes_of ev) by (by rewrite <-Hi1, Hbytes).
    assert (Hshape : ∀ c ev', input r = Chunk c :: ev' →
       dd = take (Z.to_nat n) c ∧ ev = rest_events (drop (Z.to_nat n) c) ev').
    { intros c ev' Hc. unfold recv in Hrecv. rewrite Hi1, Hc in Hrecv. injection Hrecv as <- <-. done. }
    destruct (Z.eqb_spec (len dd) n) as [He|Hne].
    + destruct (complete_quiet _ _ _ _ Hq3) as (b & r4 & Hrun4 & Hq4 & Hi4). rewrite Hrun4.
      assert (Hi : input r4 = ev) by (by rewrite Hi4, Hi3).
      eexists _, _, dd, r4, []. split; [reflexivity|]. rewrite Hi. split; [done|]. split; [done|]. split; [done|].
      split; [done|]. rewrite <-Hi1. split; [done|]. split; [cbn [dd length]; lia|].
      split; [by eapply reading_total|]. split; [done|]. split; [lia|]. rewrite Hi1. exact Hshape.
    + destruct (interrupted_ok socket n r3 0 [] [] dd Hs Hq3) as (r4 & Hrun4 & Hr4 & Hi4 & _);
        [by rewrite Hc3|intros _; rewrite Hc3; cbn [q2 q_buflen]; lia|]. rewrite Hrun4.
      assert (Hi : input r4 = ev) by (by rewrite Hi4, Hi3).
      eexists _, _, dd, r4, dd. split; [reflexivity|]. rewrite Hi. split; [done|]. split; [done|]. split; [done|].
      split; [done|]. unfold stopped. rewrite <-Hi1, Hi. split; [done|]. split; [cbn [dd length]; lia|].
      split; [done|]. split; [done|]. split; [|rewrite Hi1; exact Hshape]. intros Hlt. left. by apply Hl'.
  - change (negb (EAGAIN =? EAGAIN)) with false. cbn iota.
    unfold queue_buf, mbind, io_bind, get, mret, io_ret. rewrite (proj2 (Z.eqb_neq 0 n)) by lia.
    destruct (interrupted_ok socket n r2 0 [] [] [] Hs Hq2 eq_refl) as (r4 & Hrun4 & Hr4 & Hi4 & _); [done|].
    change 0 with (len (@nil Z)) at 1. rewrite Hrun4.
    eexists _, _, [], r4, []. split; [reflexivity|]. unfold stopped. rewrite Hi4. cbn [r2 input]. rewrite <-Hi1.
    split; [done|]. split; [cbn; lia|]. split; [done|]. split; [done|].
    split; [destruct Hl as [?|[_ ->]]; [lia|cbn; lia]|]. split; [done|]. split; [done|].
    split; [done|]. split; [intros _; destruct Hl as [?|[_ ->]]; [by left|by right]|].
    rewrite Hi1. intros c ev' Hc. exfalso. unfold recv in Hrecv. rewrite Hi1, Hc in Hrecv. done.
Qed.

(** ** Lemmas: the buffer of raw bytes *)

(** The buffer holds [B], read up to [i]; the socket is quiet. *)
Record buffering (socket : Z) (s : ws_state) (B : list Z) (i : Z) : Prop := {
  bf_raw : quiet socket (raw s);
  bf_alive : alive (input (raw s));
  bf_buf : frame_buffer s = match B with [] => None | _ => Some B end;
  bf_len : frame_buffer_len s = len B;
  bf_data : frame_buffer_data_len s = len B;
  bf_index : frame_buffer_index s = i;
  bf_range : 0 ≤ i ≤ len B
}.

(** What the raw reads leave alone, and the input they consume. *)
Definition same_frames (s s' : ws_state) : Prop :=
  in_frames s' = in_frames s ∧ websocket s' = websocket s ∧ rands s' = rands s ∧ control s' = control s.
Definition less_input (s s' : ws_state) : Prop := (length (input (raw s')) ≤ length (input (raw s)))%nat.

Lemma buffered_take s B i n : frame_buffer s = match B with [] => None | _ => Some B end → frame_buffer_index s = i →
  buffered s n = take (Z.to_nat n) (drop (Z.to_nat i) B).
Proof. intros Hb <-. unfold buffered. rewrite Hb. by destruct B. Qed.

Lemma append_data_ok s B i d : frame_buffer s = match B with [] => None | _ => Some B end →
  frame_buffer_len s = len B → frame_buffer_data_len s = len B → frame_buffer_index s = i → 0 ≤ i ≤ len B →
  ∃ s', append_data d s = Some ((), s') ∧ same_frames s s' ∧ raw s' = raw s ∧
    frame_buffer s' = Some (B ++ d) ∧ frame_buffer_len s' = len (B ++ d) ∧
    frame_buffer_data_len s' = len (B ++ d) ∧ frame_buffer_index s' = i.
Proof.
  intros Hb Hl Hdl Hi Hrg. unfold append_data, mbind, ws_bind, ws_get, set_buffer. rewrite Hb. destruct B as [|x B].
  - eexists. split; [done|]. split; [done|]. split; [done|]. cbn. cbn in Hrg.
    split; [done|]. split; [done|]. split; [done|]. lia.
  - rewrite Hdl, Hl, (proj2 (Z.ltb_ge _ _)), Nat2Z.id, take_ge by lia.
    eexists. split; [reflexivity|]. split; [done|]. split; [done|].
    cbn [frame_buffer frame_buffer_len frame_buffer_data_len frame_buffer_index].
    unfold write_at. rewrite Nat2Z.id, take_ge, drop_ge, app_nil_r by lia. rewrite length_app, Nat2Z.inj_add. done.
Qed.

(** A raw read of [n] bytes at [i]: the bytes of the stream there, or fewer and
    the end of what has arrived; never more of the socket than is missing. *)
Lemma getRaw_ok socket s B i n rc0 : 0 < socket → 0 < n → buffering socket s B i →
  ∃ b m rc s' B' i', WebSocket_getRawSocketData socket n rc0 s = Some ((Some b, m, rc), s') ∧
    buffering socket s' B' i' ∧ same_frames s s' ∧ less_input s s' ∧
    B' ++ bytes_of (input (raw s')) = B ++ bytes_of (input (raw s)) ∧
    len B' ≤ Z.max (len B) (i + n) ∧ (B' = B ∧ rc = rc0 ∨ 0 < rc) ∧
    ((m = n ∧ i' = i + n ∧ b = take (Z.to_nat n) (drop (Z.to_nat i) B')) ∨
     (m < n ∧ len B' < i + n ∧ stopped (raw s) (raw s') ∧ 0 < rc)) ∧
    (∀ c ev, input (raw s) = Chunk c :: ev → c ≠ [] → len B - i < n →
       let want := Z.to_nat (n - (len B - i)) in
       B' = B ++ take want c ∧ input (raw s') = rest_events (drop want c) ev ∧
       b = take (Z.to_nat n) (drop (Z.to_nat i) B') ∧ m = len b ∧ i' = i + m).
Proof.
  intros Hs Hn Hbf. pose proof Hbf as [Hr Ha Hb Hl Hdl Hi Hrg]. unfold WebSocket_getRawSocketData.
  cbv zeta. unfold mbind at 1, ws_bind at 1, ws_get at 1. rewrite Hdl, Hi.
  rewrite (proj2 (Z.ltb_lt 0 n)) by lia. cbn [andb]. destruct (Z.leb_spec n (len B - i)) as [Hle|Hgt].
  - unfold advance, mbind, ws_bind, ws_get, set_buffer, mret, ws_ret.
    eexists _, n, rc0, _, B, (i + n). split; [by rewrite (buffered_take s B i)|].
    split; [split; cbn; try done; lia|]. split; [done|]. split; [unfold less_input; done|]. split; [done|]. split; [lia|].
    split; [by left|]. split; [by left|]. lia.
  - set (want := n - (len B - i)). assert (Hw : 0 < want) by (unfold want; lia).
    destruct (getdata_quiet socket want (raw s) Hs Hw Hr Ha) as
      (rc & buf & d & r' & D & Hget & Htake & Hdl' & Hbytes & Ha' & Hlen & Hrc & Hrd & HD & Hstop & Hshape).
    unfold mbind at 1, ws_bind at 1, on_raw at 1. rewrite Hget. cbn [default fmap option_fmap option_map].
    unfold id. rewrite (proj2 (Z.eqb_neq rc 0)), (proj2 (Z.eqb_neq want 0)) by lia. rewrite Nat2Z.id, Htake.
    set (s1 := mkWs r' _ _ _ _ _ _ _ _).
    destruct (Z.eqb_spec (len d) 0) as [Hd0|Hd0].
    + assert (d = []) as -> by (destruct d; [done|cbn in Hd0; lia]). rewrite (HD eq_refl) in Hrd.
      unfold mret, ws_ret. eexists _, _, rc, s1, B, i. split; [reflexivity|].
      split; [split; cbn; try done; by eapply reading_total|]. split; [done|]. split; [done|].
      cbn [s1 raw input]. rewrite Hbytes. split; [done|]. split; [lia|]. split; [right; lia|].
      cbn [length] in *. split; [right; split; [lia|split; [unfold want in *; lia|split; [apply Hstop; lia|lia]]]|].
      intros c ev Hc Hne. exfalso. destruct (Hshape c ev Hc) as [Hd _]. destruct c; [done|].
      destruct (Z.to_nat want) eqn:?; [lia|done].
    + assert (Happ := append_data_ok s1 B i d Hb Hl Hdl Hi Hrg).
      destruct Happ as (s2 & Happ & Hsame & Hraw2 & Hb2 & Hl2 & Hd2 & Hi2).
      destruct (complete_quiet socket want r' D Hrd) as (bb & r3 & Hc & Hq3 & Hi3).
      unfold mbind at 1, ws_bind at 1. rewrite Happ. unfold mbind at 1, ws_bind at 1, on_raw at 1. rewrite Hraw2.
      cbn [s1 raw]. rewrite Hc. unfold mbind at 1, ws_bind at 1, ws_get at 1.
      cbn [frame_buffer_data_len frame_buffer_index]. rewrite Hd2, Hi2.
      set (s3 := mkWs r3 _ _ _ _ _ _ _ _). set (m := if n <=? len (B ++ d) - i then n else len (B ++ d) - i).
      unfold mbind at 1, ws_bind at 1, advance, mbind at 1, ws_bind at 1, ws_get at 1, set_buffer, mbind, ws_bind, mret, ws_ret.
      destruct Hsame as (Hf & Hw' & Hra & Hco). destruct d as [|x d]; [done|]. set (dd := x :: d) in *.
      assert (HBd : match B ++ dd with [] => None | _ => Some (B ++ dd) end = Some (B ++ dd)) by (by destruct B).
      eexists _, m, rc, _, (B ++ dd), (i + m). split; [reflexivity|]. split; [|split; [|split; [|split; [|split; [|split; [|split]]]]]].
      * split; cbn [raw s3 frame_buffer frame_buffer_len frame_buffer_data_len frame_buffer_index]; try done.
        -- by rewrite Hi3.
        -- by rewrite HBd.
        -- unfold m. destruct (Z.leb_spec n (len (B ++ dd) - i)); lens.
      * unfold same_frames. cbn [s3 in_frames websocket rands control]. by rewrite Hf, Hw', Hra, Hco.
      * unfold less_input. cbn [s3 raw]. by rewrite Hi3.
      * cbn [s3 raw]. by rewrite Hi3, Hbytes, <-app_assoc.
      * rewrite length_app, Nat2Z.inj_add. unfold want in *. lia.
      * right. lia.
      * unfold m. destruct (Z.leb_spec n (len (B ++ dd) - i)) as [Hle|Hlt].
        -- left. split; [done|]. split; [done|]. by rewrite (buffered_take s3 (B ++ dd) i) by (cbn [s3 frame_buffer frame_buffer_index]; congruence).
        -- right. split; [done|]. rewrite length_app, Nat2Z.inj_add in *. split; [lia|]. split; [|lia].
           unfold stopped in *. cbn [s3 raw]. rewrite Hi3. apply Hstop. unfold want. lia.
      * intros c ev Hc' Hne Hlt. destruct (Hshape c ev Hc') as [Hd' Hin]. fold want. cbn [s3 raw]. rewrite Hi3.
        split; [by rewrite <-Hd'|]. split; [done|]. rewrite (buffered_take s3 (B ++ dd) i) by (cbn [s3 frame_buffer frame_buffer_index]; congruence).
        assert (Hm : take (Z.to_nat m) (drop (Z.to_nat i) (B ++ dd)) = take (Z.to_nat n) (drop (Z.to_nat i) (B ++ dd)) ∧
          m = len (take (Z.to_nat m) (drop (Z.to_nat i) (B ++ dd)))).
        { assert (Hll : len (B ++ dd) = len B + len dd) by lens. unfold m. destruct (Z.leb_spec n (len (B ++ dd) - i)) as [Hle|Hlt'].
          - split; [done|]. rewrite length_take, length_drop. lia.
          - rewrite !take_ge by (rewrite length_drop; lia). split; [done|]. rewrite length_drop. lia. }
        destruct Hm as [Hm1 Hm2]. by rewrite <-Hm1.
Qed.

(** The call that ends a frame. *)
Lemma getRaw_zero socket s B i rc0 : buffering socket s B i → rc0 ≠ 0 →
  ∃ s', WebSocket_getRawSocketData socket 0 rc0 s = Some ((Some [], 0, rc0), s') ∧
    buffering socket s' [] 0 ∧ same_frames s s' ∧ input (raw s') = input (raw s).
Proof.
  intros [Hr Ha Hb Hl Hdl Hi Hrg] Hrc. unfold WebSocket_getRawSocketData, Socket_getdata_rc.
  unfold mbind at 1, ws_bind at 1, ws_get at 1. change (0 <? 0) with false. cbn [andb]. cbv zeta.
  change (0 =? 0) with true. cbn iota.
  destruct (complete_quiet socket 0 (raw s) [] Hr) as (b & r' & Hc & Hq & Hin).
  unfold mbind at 1, ws_bind at 1, on_raw, mbind at 1, io_bind. rewrite Hc. unfold mret at 1, io_ret.
  cbn [default fmap option_fmap option_map]. unfold id. rewrite (proj2 (Z.eqb_neq rc0 0)) by done.
  unfold mbind, ws_bind, set_buffer, mret, ws_ret. eexists. split; [reflexivity|]. cbn [raw in_frames].
  split; [|done]. split; cbn [raw frame_buffer frame_buffer_len frame_buffer_data_len frame_buffer_index]; try done.
  by rewrite Hin.
Qed.

(** ** Lemmas: the reads of one frame *)

Lemma wx_bind_inr {A B : Type} (m : wx A) (k : A → wx B) s a s' : m s = Some (inr a, s') → (m ≫= k) s = k a s'.
Proof. intros H. unfold mbind, wx_bind, mbind, ws_bind. by rewrite H. Qed.
Lemma wx_bind_inl {A B : Type} (m : wx A) (k : A → wx B) s rc s' : m s = Some (inl rc, s') → (m ≫= k) s = Some (inl rc, s').
Proof. intros H. unfold mbind, wx_bind, mbind, ws_bind. by rewrite H. Qed.
Lemma lift_ok {A : Type} (m : ws A) s a s' : m s = Some (a, s') → lift m s = Some (inr a, s').
Proof. intros H. unfold lift, mbind, ws_bind. by rewrite H. Qed.

Lemma same_frames_trans s s' s'' : same_frames s s' → same_frames s' s'' → same_frames s s''.
Proof. intros (? & ? & ? & ?) (? & ? & ? & ?). repeat split; congruence. Qed.

Section Frame.
Context (socket : Z) (W rest B0 : list Z) (s0 : ws_state).
Hypothesis socket_pos : 0 < socket.
Hypothesis missing : len B0 < len W.

(** The frame [W] is read up to [i]; when the call began, [B0] had arrived. *)
Record at_point (s : ws_state) (i rcs : Z) : Prop := {
  ap_buf : ∃ B, buffering socket s B i ∧ B ++ bytes_of (input (raw s)) = W ++ rest ∧ len B ≤ len W ∧ (B = B0 ∨ 0 < rcs);
  ap_same : same_frames s0 s;
  ap_less : less_input s0 s;
  ap_rcs : rcs ≠ SOCKET_ERROR
}.

(** The call stops in the frame. *)
Definition short (s : ws_state) : Prop :=
  ∃ B i, buffering socket s B i ∧ B ++ bytes_of (input (raw s)) = W ++ rest ∧ len B < len W ∧
    same_frames s0 s ∧ less_input s0 s ∧ stopped (raw s0) (raw s).

Lemma prefix_take (B T : list Z) : B ++ T = W ++ rest → len B ≤ len W → ∃ W', W = B ++ W'.
Proof.
  intros HE Hl. exists (drop (length B) W). rewrite <-(take_drop (length B) W) at 1. f_equal.
  apply (f_equal (take (length B))) in HE. rewrite take_app_length, take_app_le in HE by lia. done.
Qed.

Lemma read_raw_ok s i n rcs rc_null : at_point s i rcs → 0 < n → i + n ≤ len W →
  (∃ rcs' s', read_raw socket n rcs rc_null s = Some (inr (rcs', take (Z.to_nat n) (drop (Z.to_nat i) W)), s') ∧
     at_point s' (i + n) rcs') ∨
  (∃ s', read_raw socket n rcs rc_null s = Some (inl TCPSOCKET_INTERRUPTED, s') ∧ short s').
Proof.
  intros [(B & Hbf & HV & HB & HB0) Hsame Hless Hrcs] Hn Hi.
  destruct (getRaw_ok socket s B i n rcs socket_pos Hn Hbf) as
    (b & m & rc & s' & B' & i' & Hget & Hbf' & Hsame' & Hless' & HV' & HB' & Hrc & Hcase & _).
  unfold read_raw. rewrite (wx_bind_inr _ _ _ _ _ (lift_ok _ _ _ _ Hget)).
  assert (Hrc' : rc ≠ SOCKET_ERROR) by (destruct Hrc as [[_ ->]|?]; [done|unfold SOCKET_ERROR; lia]).
  rewrite (proj2 (Z.eqb_neq rc SOCKET_ERROR)) by done.
  destruct (prefix_take B' (bytes_of (input (raw s')))) as [W' HW']; [by rewrite HV', HV|lia|].
  assert (Hl' : less_input s0 s') by (unfold less_input in *; lia).
  assert (Hs' : same_frames s0 s') by (by eapply same_frames_trans).
  destruct Hcase as [(-> & -> & ->)|(Hm & Hlen & Hstop & Hpos)].
  - left. rewrite (proj2 (Z.ltb_ge n n)) by lia. pose proof (bf_range _ _ _ _ Hbf'). pose proof (bf_range _ _ _ _ Hbf).
    eexists _, _. split.
    { unfold mret, wx_ret. do 4 f_equal. rewrite HW'. rewrite drop_app_le by lia. rewrite take_app_le; [done|].
      rewrite length_drop. lia. }
    split; [|done|done|done]. exists B'. split; [done|]. split; [by rewrite HV', HV|]. split; [lia|].
    destruct Hrc as [[-> ->]|?]; [done|by right].
  - right. rewrite (proj2 (Z.ltb_lt m n)) by lia. eexists. split; [reflexivity|]. exists B', i'.
    split; [done|]. split; [by rewrite HV', HV|]. split; [lia|]. split; [done|]. split; [done|].
    unfold stopped, less_input in *. destruct Hstop; [left; lia|by right].
Qed.

(** The whole frame was read: the call that ends it. *)
Lemma read_end s rcs : at_point s (len W) rcs →
  ∃ s', WebSocket_getRawSocketData socket 0 rcs s = Some ((Some [], 0, rcs), s') ∧ 0 < rcs ∧
    buffering socket s' [] 0 ∧ bytes_of (input (raw s')) = rest ∧ same_frames s0 s' ∧ less_input s0 s'.
Proof.
  intros [(B & Hbf & HV & HB & HB0) Hsame Hless Hrcs].
  assert (Hpos : 0 < rcs) by (destruct HB0 as [->|?]; [pose proof (bf_range _ _ _ _ Hbf); lia|done]).
  destruct (getRaw_zero socket s B (len W) rcs Hbf) as (s' & H1 & H2 & H3 & H4); [lia|].
  exists s'. split; [done|]. split; [done|]. split; [done|]. unfold less_input. rewrite H4. split; [|split; [|done]].
  - apply app_inj_1 in HV as [_ ?]; [done|]. pose proof (bf_range _ _ _ _ Hbf). lia.
  - by eapply same_frames_trans.
Qed.

End Frame.

(** ** Lemmas: the structure of an unmasked frame *)

Lemma betoh_value b : betoh b = be_value b.
Proof. unfold betoh, be_value. generalize 0. induction b as [|x b IH]; intros a; cbn [foldl]; [done|]. rewrite IH. f_equal. lia. Qed.

Lemma be_value_nonneg b : bytes_ok b → 0 ≤ be_value b.
Proof.
  unfold be_value. assert (H : ∀ a, 0 ≤ a → bytes_ok b → 0 ≤ foldl (λ a b, 256 * a + b) a b); [|by apply H].
  induction b as [|x b IH]; intros a Ha Hb; cbn [foldl]; [done|]. apply Forall_cons in Hb as [Hx Hb].
  apply IH; [unfold is_byte in Hx; lia|done].
Qed.

Lemma split_bytes_inv n l a b : split_bytes n l = Some (a, b) → 0 ≤ n → l = a ++ b ∧ len a = n.
Proof.
  unfold split_bytes. destruct (Z.leb_spec n (len l)); [|done]. intros [= <- <-] Hn.
  split; [by rewrite take_drop|]. rewrite length_take. lia.
Qed.

Lemma frame_inv W f rest : rfc6455_frame W = Some (f, rest) → masking_key f = None → bytes_ok W →
  ∃ b0 b1 ext, W = [b0; b1] ++ ext ++ payload f ++ rest ∧ is_byte b0 ∧ 0 ≤ b1 < 128 ∧
    fin f = (128 <=? b0) ∧ opcode f = b0 mod 16 ∧
    (if b1 <? 126 then ext = [] ∧ len (payload f) = b1
     else len ext = (if b1 =? 126 then 2 else 8) ∧ be_value ext = len (payload f)).
Proof.
  unfold rfc6455_frame. intros Hp Hk Hok.
  destruct (split_bytes 2 W) as [[b l]|] eqn:E1; [|done]. cbn [mbind option_bind] in Hp.
  apply split_bytes_inv in E1 as [-> Hb]; [|lia].
  destruct b as [|b0 [|b1 [|]]]; [cbn in Hb; lia|cbn in Hb; lia| |cbn in Hb; lia].
  change ([b0; b1] !!! 0%nat) with b0 in Hp. change ([b0; b1] !!! 1%nat) with b1 in Hp.
  apply Forall_app in Hok as [Hbs Hok]. apply Forall_cons in Hbs as [Hb0 [Hb1 _]%Forall_cons].
  destruct (if b1 mod 128 <? 126 then _ else _) as [[n l1]|] eqn:E2; [|done]. cbn [mbind option_bind] in Hp.
  destruct (Z.leb_spec 128 b1) as [Hm|Hm].
  { destruct (split_bytes 4 l1) as [[k l2]|]; [|done]. cbn [mbind option_bind] in Hp.
    destruct (split_bytes n l2) as [[d l3]|]; [|done]. cbn [mbind option_bind] in Hp. injection Hp as <- <-. done. }
  cbn [mbind option_bind] in Hp. unfold is_byte in Hb1.
  replace (b1 mod 128) with b1 in E2 by (symmetry; apply Z.mod_small; lia).
  destruct (split_bytes n l1) as [[d l3]|] eqn:E3; [|done]. cbn [mbind option_bind] in Hp. injection Hp as <- <-.
  cbn [payload fin opcode]. destruct (Z.ltb_spec b1 126).
  - injection E2 as <- <-. apply split_bytes_inv in E3 as [-> Hd]; [|lia]. exists b0, b1, [].
    rewrite (proj2 (Z.ltb_lt b1 126)) by lia. unfold is_byte in *. repeat split; try done; lia.
  - destruct (split_bytes _ l) as [[e l']|] eqn:E4; [|done]. cbn [mbind option_bind] in E2. injection E2 as <- <-.
    apply split_bytes_inv in E4 as [-> He]; [|destruct (b1 =? 126); lia]. apply Forall_app in Hok as [He' Hok].
    apply split_bytes_inv in E3 as [-> Hd]; [|by apply be_value_nonneg]. exists b0, b1, e.
    rewrite (proj2 (Z.ltb_ge b1 126)) by lia. unfold is_byte in *. repeat split; try done; lia.
Qed.

(** ** Lemmas: a turn of the loop *)

Definition extend (res : option ws_frame) (b : list Z) : ws_frame :=
  match res with Some r => mkWsFrame (ws_data r ++ b) (pos r) | None => mkWsFrame b 0 end.
Definition refresh (r : ws_frame) (l : list (option ws_frame)) : list (option ws_frame) :=
  match l with _ :: l' => Some r :: l' | [] => [] end.

Lemma mask_zero i b : mask_bytes [0; 0; 0; 0] i b = b.
Proof.
  revert i. induction b as [|x b IH]; intros i; cbn [mask_bytes]; [done|]. rewrite IH. f_equal.
  pose proof (Z.mod_pos_bound i 4 ltac:(lia)) as H. assert (E : [0; 0; 0; 0] !!! Z.to_nat (i mod 4) = 0).
  { destruct (decide (i mod 4 = 0)) as [->|]; [done|]. destruct (decide (i mod 4 = 1)) as [->|]; [done|].
    destruct (decide (i mod 4 = 2)) as [->|]; [done|]. by replace (i mod 4) with 3 by lia. }
  rewrite E. apply Z.lxor_0_r.
Qed.

Lemma first_bits b : is_byte b → ((b .& 0xFF) ≫ 7) = (if 128 <=? b then 1 else 0) ∧ b .& 0x0F = b mod 16 ∧ b .& 0x7F = b mod 128.
Proof.
  intros Hb. pose proof (byte_forallb (λ b, (((b .& 0xFF) ≫ 7) =? (if 128 <=? b then 1 else 0)) && (b .& 0x0F =? b mod 16)
    && (b .& 0x7F =? b mod 128)) ltac:(vm_compute; reflexivity) b Hb) as H. cbn beta in H.
  rewrite !andb_true_iff, !Z.eqb_eq in H. tauto.
Qed.

Definition valid_opcode (o : Z) : bool :=
  negb ((o <? WebSocket_OP_CONTINUE) || (WebSocket_OP_PONG <? o) || ((WebSocket_OP_BINARY <? o) && (o <? WebSocket_OP_CLOSE))).

(** The frame was read: its data are left in the state of the call. *)
Definition frame_read (socket : Z) (rest : list Z) (s0 s : ws_state) : Prop :=
  ∃ B i, buffering socket s B i ∧ bytes_of (input (raw s)) = rest ∧ same_frames s0 s ∧ less_input s0 s.

Lemma at_end socket W rest B0 s0 s rcs : len B0 < len W → at_point socket W rest B0 s0 s (len W) rcs →
  0 < rcs ∧ frame_read socket rest s0 s.
Proof.
  intros HB0 [(B & Hbf & HV & HB & Hor) Hsame Hless Hrcs]. pose proof (bf_range _ _ _ _ Hbf).
  split; [destruct Hor as [->|?]; [lia|done]|]. exists B, (len W). split; [done|].
  apply app_inj_1 in HV as [_ ?]; [done|lia].
Qed.

Section Turn.
Context (socket garbage : Z) (W rest B0 : list Z) (s0 : ws_state).
Hypothesis socket_pos : 0 < socket.
Hypothesis missing : len B0 < len W.
Hypothesis garbage_ok : garbage ≠ SOCKET_ERROR.
Hypothesis start : buffering socket s0 B0 0.
Hypothesis stream : B0 ++ bytes_of (input (raw s0)) = W ++ rest.

Lemma start_point : at_point socket W rest B0 s0 s0 0 garbage.
Proof. split; [|done|by unfold less_input|done]. exists B0. split; [done|]. split; [done|]. split; [lia|by left]. Qed.

(** The payload, which may be empty. *)
Lemma read_payload s data i rcs : drop (Z.to_nat i) W = data → 0 ≤ i ≤ len W → at_point socket W rest B0 s0 s i rcs →
  (∃ rcs' s', read_raw socket (len data) rcs SOCKET_ERROR s = Some (inr (rcs', data), s') ∧ 0 < rcs' ∧
     frame_read socket rest s0 s') ∨
  (∃ s', read_raw socket (len data) rcs SOCKET_ERROR s = Some (inl TCPSOCKET_INTERRUPTED, s') ∧ short socket W rest s0 s').
Proof.
  intros Hd Hi Hp. assert (Hl : len data = len W - i) by (rewrite <-Hd, length_drop; lia).
  destruct (decide (data = [])) as [->|Hne].
  - left. cbn [length] in *. assert (i = len W) as -> by lia. destruct (at_end _ _ _ _ _ _ _ missing Hp) as [Hr Hf].
    destruct Hf as (B & i' & Hbf & Hrest & Hsame & Hless).
    destruct (getRaw_zero socket s B i' rcs Hbf) as (s' & H1 & H2 & H3 & H4); [lia|].
    exists rcs, s'. unfold read_raw. change (Z.of_nat 0) with 0. rewrite (wx_bind_inr _ _ _ _ _ (lift_ok _ _ _ _ H1)).
    rewrite (proj2 (Z.eqb_neq rcs SOCKET_ERROR)) by (unfold SOCKET_ERROR; lia). split; [reflexivity|]. split; [done|].
    exists [], 0. split; [done|]. unfold less_input in *. rewrite H4. split; [done|]. split; [by eapply same_frames_trans|done].
  - assert (0 < len data) by (destruct data; [done|cbn; lia]).
    destruct (read_raw_ok socket W rest B0 s0 socket_pos s i (len data) rcs SOCKET_ERROR Hp)
      as [(rcs' & s' & H1 & H2)|(s' & H1 & H2)]; [lia|lia| |right; by exists s'].
    left. exists rcs', s'. rewrite Hd, take_ge in H1 by lia. split; [done|].
    replace (i + len data) with (len W) in H2 by lia. by apply (at_end _ _ _ _ _ _ _ missing H2).
Qed.

Lemma frame_turn_ok f opcode0 res : bytes_ok W → rfc6455_frame W = Some (f, []) → masking_key f = None →
  let op := if opcode f =? 0 then opcode0 else opcode f in
  valid_opcode op = true →
  (∃ s', frame_turn socket garbage opcode0 res s0 = Some (inr (fin f, op, extend res (payload f)), s') ∧
     buffering socket s' [] 0 ∧ bytes_of (input (raw s')) = rest ∧ less_input s0 s' ∧
     in_frames s' = refresh (extend res (payload f)) (in_frames s0) ∧ websocket s' = websocket s0 ∧
     rands s' = rands s0 ∧ control s' = control s0) ∨
  (∃ s', frame_turn socket garbage opcode0 res s0 = Some (inl TCPSOCKET_INTERRUPTED, s') ∧ short socket W rest s0 s').
Proof.
  intros Hok Hp Hk op Hop.
  destruct (frame_inv W f [] Hp Hk Hok) as (b0 & b1 & ext & HW & Hb0 & Hb1 & Hfin & Hopc & Hext).
  rewrite app_nil_r in HW. assert (HlW : len W = 2 + len ext + len (payload f)) by (rewrite HW; lens).
  destruct (first_bits b0 Hb0) as (E1 & E2 & _). destruct (first_bits b1) as (E3 & _ & E4); [unfold is_byte; lia|].
  rewrite (proj2 (Z.leb_gt 128 b1)) in E3 by lia. replace (b1 mod 128) with b1 in E4 by (symmetry; apply Z.mod_small; lia).
  unfold frame_turn.
  destruct (read_raw_ok socket W rest B0 s0 socket_pos s0 0 2 garbage TCPSOCKET_INTERRUPTED start_point)
    as [(rcs1 & s1 & H1 & Hp1)|(s1 & H1 & H2)]; [lia|lia| |right; exists s1; split; [|done]; by rewrite (wx_bind_inl _ _ _ _ _ H1)].
  rewrite (wx_bind_inr _ _ _ _ _ H1). clear H1.
  replace (take (Z.to_nat 2) (drop (Z.to_nat 0) W)) with [b0; b1] by (by rewrite HW).
  change ([b0; b1] !!! 0%nat) with b0. change ([b0; b1] !!! 1%nat) with b1. cbv zeta. rewrite E2, <-Hopc. fold op.
  unfold valid_opcode in Hop. apply negb_true_iff in Hop. rewrite Hop, E3, E4, E1. clear Hop.
  assert (Hstep : (∃ rcs2 s2, (if b1 =? 126 then '(rcs, b) ← read_raw socket 2 rcs1 SOCKET_ERROR; mret (rcs, betoh b)
       else if b1 =? 127 then '(rcs, b) ← read_raw socket 8 rcs1 SOCKET_ERROR; mret (rcs, betoh b)
       else mret (M := wx) (rcs1, b1)) s1 = Some (inr (rcs2, len (payload f)), s2) ∧ at_point socket W rest B0 s0 s2 (2 + len ext) rcs2) ∨
    (∃ s2, (if b1 =? 126 then '(rcs, b) ← read_raw socket 2 rcs1 SOCKET_ERROR; mret (rcs, betoh b)
       else if b1 =? 127 then '(rcs, b) ← read_raw socket 8 rcs1 SOCKET_ERROR; mret (rcs, betoh b)
       else mret (M := wx) (rcs1, b1)) s1 = Some (inl TCPSOCKET_INTERRUPTED, s2) ∧ short socket W rest s0 s2)).
  { destruct (Z.ltb_spec b1 126) as [Hlt|Hge].
    - destruct Hext as [-> Hlen]. rewrite (proj2 (Z.eqb_neq b1 126)), (proj2 (Z.eqb_neq b1 127)) by lia.
      left. exists rcs1, s1. rewrite Hlen. split; [done|]. cbn [length]. done.
    - destruct Hext as [Hlen Hval].
      assert (Hr : ∀ n, n = len ext → 0 < n → 
        (∃ rcs2 s2, (('(rcs, b) ← read_raw socket n rcs1 SOCKET_ERROR; mret (rcs, betoh b)) : wx (Z * Z)) s1
           = Some (inr (rcs2, len (payload f)), s2) ∧ at_point socket W rest B0 s0 s2 (2 + len ext) rcs2) ∨
        (∃ s2, (('(rcs, b) ← read_raw socket n rcs1 SOCKET_ERROR; mret (rcs, betoh b)) : wx (Z * Z)) s1
           = Some (inl TCPSOCKET_INTERRUPTED, s2) ∧ short socket W rest s0 s2)).
      { intros n -> Hn. destruct (read_raw_ok socket W rest B0 s0 socket_pos s1 2 (len ext) rcs1 SOCKET_ERROR Hp1)
          as [(rcs2 & s2 & H2 & Hp2)|(s2 & H2 & Hs2)]; [lia|lia| |].
        - left. exists rcs2, s2. rewrite (wx_bind_inr _ _ _ _ _ H2). split; [|done].
          unfold mret, wx_ret. do 4 f_equal. rewrite HW. change (drop (Z.to_nat 2) ([b0; b1] ++ ext ++ payload f)) with (ext ++ payload f).
          rewrite Nat2Z.id, take_app_length, betoh_value, Hval. done.
        - right. exists s2. by rewrite (wx_bind_inl _ _ _ _ _ H2). }
      destruct (Z.eqb_spec b1 126); [apply Hr; lia|]. rewrite (proj2 (Z.eqb_eq b1 127)) by lia. apply Hr; lia. }
  destruct Hstep as [(rcs2 & s2 & H2 & Hp2)|(s2 & H2 & Hs2)];
    [rewrite (wx_bind_inr _ _ _ _ _ H2); clear H2|right; exists s2; split; [|exact Hs2]; rewrite (wx_bind_inl _ _ _ _ _ H2); reflexivity].
  change (0 =? 0) with true. cbn iota.
  rewrite (wx_bind_inr (mret rcs2) _ s2 rcs2 s2) by done.
  destruct (read_payload s2 (payload f) (2 + len ext) rcs2) as [(rcs3 & s3 & H3 & Hr3 & Hf3)|(s3 & H3 & Hs3)];
    [|lia|done| |right; exists s3; split; [|done]; by rewrite (wx_bind_inl _ _ _ _ _ H3)].
  { rewrite HW. change ([b0; b1] ++ ext ++ payload f) with (b0 :: b1 :: ext ++ payload f).
    replace (Z.to_nat (2 + len ext)) with (S (S (length ext))) by lia. cbn [drop]. by rewrite drop_app_length. }
  rewrite (wx_bind_inr _ _ _ _ _ H3). clear H3. destruct Hf3 as (B & i & Hbf3 & Hrest3 & (Hf & Hw & Hra & Hco) & Hless3).
  rewrite (wx_bind_inr (lift ws_get) _ s3 s3 s3) by done. fold (extend res (payload f)).
  assert (Hset : ∃ s4, (match in_frames s3 with _ :: l => set_frames (Some (extend res (payload f)) :: l) | [] => mret () end) s3 = Some ((), s4) ∧
    raw s4 = raw s3 ∧ buffering socket s4 B i ∧ in_frames s4 = refresh (extend res (payload f)) (in_frames s0) ∧
    websocket s4 = websocket s3 ∧ rands s4 = rands s3 ∧ control s4 = control s3).
  { rewrite <-Hf. destruct (in_frames s3) as [|x l] eqn:El; [exists s3|eexists]; (split; [done|]).
    - by rewrite El.
    - split; [done|]. split; [|done]. destruct Hbf3. by split. }
  destruct Hset as (s4 & H4 & Hraw4 & Hbf4 & Hf4 & Hw4 & Hra4 & Hco4).
  rewrite (wx_bind_inr _ _ _ _ _ (lift_ok _ _ _ _ H4)).
  destruct (getRaw_zero socket s4 B i rcs3 Hbf4) as (s5 & H5 & Hbf5 & (Hf5 & Hw5 & Hra5 & Hco5) & Hin5); [lia|].
  rewrite (wx_bind_inr _ _ _ _ _ (lift_ok _ _ _ _ H5)).
  rewrite (proj2 (Z.eqb_neq rcs3 SOCKET_ERROR)) by (unfold SOCKET_ERROR; lia). left. exists s5. split.
  { unfold mret, wx_ret. do 4 f_equal. rewrite Hfin. by destruct (128 <=? b0). }
  split; [done|]. unfold less_input in *. rewrite Hin5, Hraw4. split; [done|]. split; [done|].
  split; [congruence|]. split; [congruence|]. split; congruence.
Qed.

End Turn.

(** ** Lemmas: the messages of a server *)

(** A final frame, as servers send them: not masked. *)
Record server_frame (W : list Z) (f : frame) : Prop := {
  sf_bytes : bytes_ok W;
  sf_frame : rfc6455_frame W = Some (f, []);
  sf_unmasked : masking_key f = None;
  sf_final : fin f = true;
  sf_short : len (payload f) < 2 ^ 31
}.

(** A data frame, after any number of PING and PONG frames: the frames, the
    payloads of the PINGs and the data. *)
Inductive server_message : list (list Z) → list (list Z) → list Z → Prop :=
| message_data W f : server_frame W f → opcode f = WebSocket_OP_TEXT ∨ opcode f = WebSocket_OP_BINARY →
    server_message [W] [] (payload f)
| message_ping W f Ws pings p : server_frame W f → opcode f = WebSocket_OP_PING → server_message Ws pings p →
    server_message (W :: Ws) (payload f :: pings) p
| message_pong W f Ws pings p : server_frame W f → opcode f = WebSocket_OP_PONG → server_message Ws pings p →
    server_message (W :: Ws) pings p.

Lemma message_first W Ws pings p : server_message (W :: Ws) pings p → 0 < len W.
Proof.
  assert (H : ∀ f, server_frame W f → 0 < len W).
  { intros f Hf. destruct (frame_inv W f [] (sf_frame _ _ Hf) (sf_unmasked _ _ Hf) (sf_bytes _ _ Hf)) as (? & ? & ? & -> & _).
    cbn [app length]. lia. }
  inversion 1; eauto.
Qed.

Lemma message_cons Ws pings p : server_message Ws pings p → ∃ W Ws', Ws = W :: Ws'.
Proof. inversion 1; eauto. Qed.

(** The PONGs sent between two states answer the PINGs. *)
Definition is_pong (ping c : list Z) : Prop :=
  ∃ key, rfc6455_frame c = Some (mkFrame true 0 WebSocket_OP_PONG (Some key) ping, []).
Definition answered (s s' : ws_state) (pings : list (list Z)) : Prop :=
  rands s' = drop (4 * length pings) (rands s) ∧ ∃ cs, control s' = control s ++ cs ∧ Forall2 is_pong pings cs.

Lemma answered_nil s : answered s s [].
Proof. split; [done|]. exists []. by rewrite app_nil_r. Qed.
Lemma answered_trans s1 s2 s3 l l' : answered s1 s2 l → answered s2 s3 l' → answered s1 s3 (l ++ l').
Proof.
  intros [H1 (cs & H2 & H3)] [H4 (cs' & H5 & H6)]. split.
  - rewrite H4, H1, drop_drop, length_app. f_equal. lia.
  - exists (cs ++ cs'). split; [by rewrite H5, H2, app_assoc|]. by apply Forall2_app.
Qed.

Lemma pong_ok d s : websocket s = true → (4 ≤ length (rands s))%nat → len d < 2 ^ 31 →
  ∃ s', WebSocket_pong d s = Some ((), s') ∧ answered s s' [d] ∧ raw s' = raw s ∧
    frame_buffer s' = frame_buffer s ∧ frame_buffer_len s' = frame_buffer_len s ∧
    frame_buffer_data_len s' = frame_buffer_data_len s ∧ frame_buffer_index s' = frame_buffer_index s ∧
    in_frames s' = in_frames s ∧ websocket s' = true.
Proof.
  intros Hw Hr Hd. unfold WebSocket_pong, mbind, ws_bind, ws_get. rewrite Hw.
  destruct (buildFrame_ok WebSocket_OP_PONG None [d] [0; 0; 0; 0] (take 4 (rands s))) as (w & bufs' & key & Hb & Hp & _);
    [done|done|rewrite length_take; lia|cbn; rewrite app_nil_r; lia|]. rewrite Hb. unfold send_control.
  eexists. split; [reflexivity|]. cbn. rewrite Hw. split; [|done]. split; [done|]. cbn.
  eexists [_]. split; [done|]. constructor; [|done]. exists key. rewrite <-(app_nil_r (concat bufs')), Hp.
  cbn. by rewrite app_nil_r.
Qed.

Lemma stopped_trans s s' s'' : less_input s s' → stopped (raw s') (raw s'') → stopped (raw s) (raw s'').
Proof. unfold less_input, stopped. intros ? [?|?]; [left; lia|by right]. Qed.

(** The frames not read yet when a call stops. *)
Definition waiting (socket : Z) (Ws : list (list Z)) (rest : list Z) (s : ws_state) : Prop :=
  ∃ B i, buffering socket s B i ∧ B ++ bytes_of (input (raw s)) = concat Ws ++ rest ∧ len B < len (hd [] Ws).

Definition queued (q : option ws_frame) : list (option ws_frame) := match q with Some f => [Some f] | None => [] end.

Section Loop.
Context (socket garbage : Z).
Hypothesis socket_pos : 0 < socket.
Hypothesis garbage_ok : garbage ≠ SOCKET_ERROR.

(** A turn on a frame that is not the last one of the message. *)
Definition loop_outcome (fuel : nat) (op : Z) (q : option ws_frame) (Ws pings : list (list Z)) (p rest : list Z) (s : ws_state) : Prop :=
  (∃ s', receive_loop fuel socket garbage op q s = Some (inr (extend q p), s') ∧ buffering socket s' [] 0 ∧
     bytes_of (input (raw s')) = rest ∧ in_frames s' = refresh (extend q p) (in_frames s) ∧ answered s s' pings ∧
     less_input s s' ∧ websocket s' = true) ∨
  (∃ s' Ws' done_ pings', receive_loop fuel socket garbage op q s = Some (inl TCPSOCKET_INTERRUPTED, s') ∧
     waiting socket Ws' rest s' ∧ server_message Ws' pings' p ∧ pings = done_ ++ pings' ∧ answered s s' done_ ∧
     in_frames s' = in_frames s ∧ stopped (raw s) (raw s') ∧ websocket s' = true ∧ (length Ws' ≤ length Ws)%nat).

Lemma short_waiting W Ws rest s s' : short socket W (concat Ws ++ rest) s s' → waiting socket (W :: Ws) rest s'.
Proof. intros (B & i & H1 & H2 & H3 & _). exists B, i. cbn [concat hd]. rewrite <-app_assoc. done. Qed.

Lemma same_answered s s' : same_frames s s' → answered s s' [].
Proof. intros (_ & _ & H3 & H4). split; [done|]. exists []. by rewrite app_nil_r. Qed.

Lemma control_turn fuel op W f Ws pings p rest s B (l : list (list Z)) :
  server_frame W f → opcode f = WebSocket_OP_PING ∧ l = [payload f] ∨ opcode f = WebSocket_OP_PONG ∧ l = [] →
  server_message Ws pings p →
  buffering socket s B 0 → B ++ bytes_of (input (raw s)) = W ++ concat Ws ++ rest → len B < len W →
  in_frames s = [] → websocket s = true → (4 * length (l ++ pings) ≤ length (rands s))%nat →
  (∀ s' op', buffering socket s' [] 0 → bytes_of (input (raw s')) = concat Ws ++ rest → in_frames s' = [] →
     websocket s' = true → (4 * length pings ≤ length (rands s'))%nat → loop_outcome fuel op' None Ws pings p rest s') →
  loop_outcome (S fuel) op None (W :: Ws) (l ++ pings) p rest s.
Proof.
  intros Hf Hop Hm Hbf HV HB Hq Hw Hr IH. pose proof Hf as [Hbs Hfr Hun Hfin Hsh].
  assert (Hopv : (if opcode f =? 0 then op else opcode f) = opcode f ∧ valid_opcode (opcode f) = true)
    by (destruct Hop as [[-> _]|[-> _]]; done). destruct Hopv as [Hope Hopv].
  unfold loop_outcome. cbn [receive_loop].
  destruct (frame_turn_ok socket garbage W (concat Ws ++ rest) B s socket_pos HB garbage_ok Hbf HV f op None Hbs Hfr Hun)
    as [(s1 & H1 & Hbf1 & Hin1 & Hl1 & Hf1 & Hw1 & Hra1 & Hco1)|(s1 & H1 & Hs1)]; [by rewrite Hope| |].
  - rewrite (wx_bind_inr _ _ _ _ _ H1). clear H1. rewrite Hope, Hfin. cbn [negb]. rewrite Hq in Hf1. cbn [refresh extend ws_data] in *.
    assert (Hbranch : (opcode f =? WebSocket_OP_PING) || (opcode f =? WebSocket_OP_PONG) = true)
      by (destruct Hop as [[-> _]|[-> _]]; done). rewrite Hbranch. clear Hbranch.
    assert (Hpong : ∃ s2, (if opcode f =? WebSocket_OP_PING then WebSocket_pong (payload f) else mret ()) s1 = Some ((), s2) ∧
      answered s1 s2 l ∧ raw s2 = raw s1 ∧ buffering socket s2 [] 0 ∧ in_frames s2 = in_frames s1 ∧ websocket s2 = true).
    { destruct Hop as [[-> ->]|[-> ->]].
      - destruct (pong_ok (payload f) s1) as (s2 & ? & ? & Hraw & ? & ? & ? & ? & ? & ?); [congruence| |done|].
        { rewrite Hra1. rewrite length_app in Hr. cbn [length] in Hr. lia. }
        exists s2. split; [done|]. split; [done|]. split; [done|]. split; [|done]. destruct Hbf1. split; congruence.
      - exists s1. split; [done|]. split; [apply answered_nil|]. split; [done|]. split; [done|]. split; [done|congruence]. }
    destruct Hpong as (s2 & H2 & Ha2 & Hraw2 & Hbf2 & Hf2 & Hw2). rewrite (wx_bind_inr _ _ _ _ _ (lift_ok _ _ _ _ H2)).
    assert (Hfree : free_res s2 = Some ((), s2)) by (unfold free_res, mbind, ws_bind, ws_get; by rewrite Hf2, Hf1).
    rewrite (wx_bind_inr _ _ _ _ _ (lift_ok _ _ _ _ Hfree)).
    assert (Ha : answered s s2 l).
    { apply (answered_trans s s1 s2 [] l); [|done]. split; [done|]. exists []. by rewrite app_nil_r. }
    assert (Hl2 : less_input s s2) by (unfold less_input in *; by rewrite Hraw2).
    destruct (IH s2 (opcode f)) as [(s3 & H3 & Hbf3 & Hin3 & Hf3 & Ha3 & Hl3 & Hw3)|
      (s3 & Ws' & d & pings' & H3 & Hwt & Hm' & Hpp & Ha3 & Hf3 & Hst & Hw3 & Hlen)]; [done|by rewrite Hraw2|congruence|done| | |].
    { destruct Ha as [-> _]. rewrite length_drop. rewrite length_app in Hr. lia. }
    + left. exists s3. split; [done|]. split; [done|]. split; [done|]. split; [by rewrite Hf3, Hf2, Hf1, Hq|].
      split; [by eapply answered_trans|]. split; [unfold less_input in *; lia|done].
    + right. exists s3, Ws', (l ++ d), pings'. split; [done|]. split; [done|]. split; [done|]. split; [by rewrite Hpp, app_assoc|].
      split; [by eapply answered_trans|]. split; [congruence|]. split; [by eapply stopped_trans|]. split; [done|]. cbn [length]. lia.
  - right. exists s1, (W :: Ws), [], (l ++ pings). rewrite (wx_bind_inl _ _ _ _ _ H1). split; [done|].
    split; [by eapply short_waiting|]. split.
    { destruct Hop as [[Ho ->]|[Ho ->]]; [by apply message_ping|by eapply message_pong]. }
    destruct Hs1 as (? & ? & _ & _ & _ & Hsame & _ & Hst). pose proof Hsame as (Hi & Hww & _).
    split; [done|]. split; [by apply same_answered|]. split; [done|]. split; [done|]. split; [congruence|done].
Qed.

Lemma loop_ok Ws pings p rest : server_message Ws pings p → ∀ fuel op q s B,
  (length Ws ≤ fuel)%nat → buffering socket s B 0 → B ++ bytes_of (input (raw s)) = concat Ws ++ rest →
  len B < len (hd [] Ws) → in_frames s = queued q → q = None ∨ length Ws = 1%nat → websocket s = true →
  (4 * length pings ≤ length (rands s))%nat → loop_outcome fuel op q Ws pings p rest s.
Proof.
  induction 1 as [W f Hf Hop|W f Ws pings p Hf Hop Hm IH|W f Ws pings p Hf Hop Hm IH];
    intros [|fuel] op q s B Hfu Hbf HV HB Hq Hq1 Hw Hr; cbn [length] in Hfu; try lia; cbn [concat hd] in *; rewrite <-app_assoc in HV.
  - pose proof Hf as [Hbs Hfr Hun Hfin Hsh]. unfold loop_outcome. cbn [receive_loop].
    assert (Hopv : (if opcode f =? 0 then op else opcode f) = opcode f ∧ valid_opcode (opcode f) = true)
      by (destruct Hop as [->| ->]; done). destruct Hopv as [Hope Hopv].
    destruct (frame_turn_ok socket garbage W rest B s socket_pos HB garbage_ok Hbf HV f op q Hbs Hfr Hun)
      as [(s1 & H1 & Hbf1 & Hin1 & Hl1 & Hf1 & Hw1 & Hra1 & Hco1)|(s1 & H1 & Hs1)]; [by rewrite Hope| |].
    + left. exists s1. rewrite (wx_bind_inr _ _ _ _ _ H1). rewrite Hope, Hfin. cbn [negb].
      split; [by destruct Hop as [->| ->]|]. split; [done|]. split; [done|]. split; [done|]. split.
      { split; [done|]. exists []. by rewrite app_nil_r. }
      split; [done|congruence].
    + right. exists s1, [W], [], []. rewrite (wx_bind_inl _ _ _ _ _ H1). split; [done|].
      split; [exact (short_waiting W [] rest s s1 Hs1)|]. split; [by apply message_data|]. split; [done|].
      destruct Hs1 as (? & ? & _ & _ & _ & Hsame & _ & Hst). pose proof Hsame as (Hi & Hww & _).
      split; [by apply same_answered|]. split; [done|]. split; [done|]. split; [congruence|done].
  - assert (q = None) as -> by (destruct Hq1 as [?|Hl]; [done|destruct (message_cons _ _ _ Hm) as (? & ? & ->); done]).
    apply (control_turn fuel op W f Ws pings p rest s B [payload f]); try done; [by left|].
    intros s' op' H1 H2 H3 H4 H5. apply (IH fuel op' None s' []); try done; [lia| |by left].
    destruct (message_cons _ _ _ Hm) as (W' & Ws' & ->). by apply message_first in Hm.
  - assert (q = None) as -> by (destruct Hq1 as [?|Hl]; [done|destruct (message_cons _ _ _ Hm) as (? & ? & ->); done]).
    apply (control_turn fuel op W f Ws pings p rest s B []); try done; [by right|].
    intros s' op' H1 H2 H3 H4 H5. apply (IH fuel op' None s' []); try done; [lia| |by left].
    destruct (message_cons _ _ _ Hm) as (W' & Ws' & ->). by apply message_first in Hm.
Qed.

(** One call: the message, or a stop from which the next call goes on. *)
Definition ready (Ws : list (list Z)) (rest : list Z) (s : ws_state) : Prop :=
  ∃ B, buffering socket s B 0 ∧ B ++ bytes_of (input (raw s)) = concat Ws ++ rest ∧ len B < len (hd [] Ws).

Lemma receiveFrame_ok Ws pings p rest fuel q s : server_message Ws pings p → (length Ws ≤ fuel)%nat → ready Ws rest s →
  in_frames s = queued q → q = None ∨ length Ws = 1%nat → websocket s = true → (4 * length pings ≤ length (rands s))%nat →
  (∃ s', WebSocket_receiveFrame fuel socket garbage s
       = Some ((TCPSOCKET_COMPLETE, len (ws_data (extend q p)) - pos (extend q p)), s') ∧
     buffering socket s' [] 0 ∧ bytes_of (input (raw s')) = rest ∧ in_frames s' = [Some (extend q p)] ∧
     answered s s' pings ∧ websocket s' = true) ∨
  (∃ s' Ws' done_ pings', WebSocket_receiveFrame fuel socket garbage s = Some ((TCPSOCKET_INTERRUPTED, 0), s') ∧
     ready Ws' rest s' ∧ server_message Ws' pings' p ∧ pings = done_ ++ pings' ∧ answered s s' done_ ∧
     in_frames s' = in_frames s ∧ stopped (raw s) (raw s') ∧ websocket s' = true ∧ (length Ws' ≤ length Ws)%nat).
Proof.
  intros Hm Hfu (B & Hbf & HV & HB) Hq Hq1 Hw Hr.
  pose proof (loop_ok Ws pings p rest Hm fuel WebSocket_OP_BINARY q s B Hfu Hbf HV HB Hq Hq1 Hw Hr) as Hloop.
  assert (Hrun : WebSocket_receiveFrame fuel socket garbage s
    = match receive_loop fuel socket garbage WebSocket_OP_BINARY q s with
      | Some (inl rc, s') => ((if rc =? TCPSOCKET_INTERRUPTED then WebSocket_rewindData else mret ());; mret (rc, 0)) s'
      | Some (inr res, s') =>
          ((match in_frames s' with [] => set_frames [Some res] | _ => mret () end);;
           mret (TCPSOCKET_COMPLETE, len (ws_data res) - pos res)) s'
      | None => None
      end).
  { unfold WebSocket_receiveFrame, mbind at 1, ws_bind at 1, ws_get at 1. rewrite Hq.
    destruct q; cbn [queued head mjoin option_join]; unfold mbind at 1, ws_bind at 1;
      (destruct (receive_loop fuel socket garbage WebSocket_OP_BINARY _ s) as [[[rc|res] s']|]; done). }
  rewrite Hrun. clear Hrun.
  destruct Hloop as [(s1 & H1 & Hbf1 & Hin1 & Hf1 & Ha1 & Hl1 & Hw1)|
    (s1 & Ws' & d & pings' & H1 & (B' & i & Hbf1 & HV1 & HB1) & Hm' & Hpp & Ha1 & Hf1 & Hst & Hw1 & Hlen)]; rewrite H1.
  - left. unfold mbind, ws_bind, ws_get, mret, ws_ret. rewrite Hf1, Hq. destruct q as [f|]; cbn [queued refresh].
    + eexists. split; [reflexivity|]. rewrite Hf1, Hq. done.
    + unfold set_frames. eexists. split; [reflexivity|]. cbn [raw in_frames websocket]. split; [destruct Hbf1; by split|]. done.
  - right. change (TCPSOCKET_INTERRUPTED =? TCPSOCKET_INTERRUPTED) with true. cbn iota.
    unfold mbind, ws_bind, WebSocket_rewindData, mbind, ws_bind, ws_get, set_buffer, mret, ws_ret.
    eexists _, Ws', d, pings'. split; [reflexivity|]. cbn [raw in_frames websocket]. split; [|done].
    exists B'. split; [|done]. destruct Hbf1. split; cbn; try done; lia.
Qed.

(** The calls made while the message is not complete. *)
Fixpoint receive_ws (calls fuel : nat) : ws (Z * Z) :=
  match calls with
  | O => ws_fault
  | S calls' =>
      '(rc, n) ← WebSocket_receiveFrame fuel socket garbage;
      if rc =? TCPSOCKET_INTERRUPTED then receive_ws calls' fuel else mret (rc, n)
  end.

Lemma receive_ws_ok calls : ∀ Ws pings p rest fuel q s, server_message Ws pings p → (length Ws ≤ fuel)%nat →
  (length (input (raw s)) < calls)%nat → ready Ws rest s →
  in_frames s = queued q → q = None ∨ length Ws = 1%nat → websocket s = true → (4 * length pings ≤ length (rands s))%nat →
  ∃ s', receive_ws calls fuel s = Some ((TCPSOCKET_COMPLETE, len (ws_data (extend q p)) - pos (extend q p)), s') ∧
    buffering socket s' [] 0 ∧ bytes_of (input (raw s')) = rest ∧ in_frames s' = [Some (extend q p)] ∧
    answered s s' pings ∧ websocket s' = true.
Proof.
  induction calls as [|calls IH]; intros Ws pings p rest fuel q s Hm Hfu Hc Hrd Hq Hq1 Hw Hr; [lia|]. cbn [receive_ws].
  unfold mbind, ws_bind. destruct (receiveFrame_ok Ws pings p rest fuel q s Hm Hfu Hrd Hq Hq1 Hw Hr) as
    [(s1 & -> & H)|(s1 & Ws' & d & pings' & -> & Hrd1 & Hm1 & Hpp & Ha1 & Hf1 & Hst & Hw1 & Hlen)]; [by exists s1|].
  change (TCPSOCKET_INTERRUPTED =? TCPSOCKET_INTERRUPTED) with true. cbn iota.
  assert (Hin : (length (input (raw s1)) < length (input (raw s)))%nat).
  { destruct Hst as [?|Hnil]; [done|]. destruct Hrd1 as (B & Hbf & HV & HB). rewrite Hnil, app_nil_r in HV.
    destruct (message_cons _ _ _ Hm1) as (W' & Ws'' & ->). cbn [hd] in HB. rewrite HV in HB. cbn [concat] in HB.
    rewrite !length_app in HB. lia. }
  destruct (IH Ws' pings' p rest fuel q s1 Hm1) as (s2 & H2 & Hbf2 & Hin2 & Hf2 & Ha2 & Hw2);
    [lia|lia|done|congruence| |done| |].
  - destruct Hq1 as [?|Hl]; [by left|]. right. destruct (message_cons _ _ _ Hm1) as (? & ? & ->). cbn [length] in *. lia.
  - destruct Ha1 as [-> _]. rewrite length_drop. rewrite Hpp, length_app in Hr. lia.
  - exists s2. split; [done|]. split; [done|]. split; [done|]. split; [done|]. split; [|done].
    rewrite Hpp. by eapply answered_trans.
Qed.

End Loop.

(** ** Property *)

(** Nothing of the connection is buffered. *)
Record ws_idle (socket : Z) (s : ws_state) : Prop := {
  wi_raw : idle socket (raw s);
  wi_buffer : frame_buffer s = None ∧ frame_buffer_len s = 0 ∧ frame_buffer_index s = 0 ∧ frame_buffer_data_len s = 0;
  wi_websocket : websocket s = true
}.

(** C21: However the bytes of a message are cut and delayed, the calls of
    [WebSocket_receiveFrame] that a receive loop makes end, at most one more than
    there are events of the socket, with the payload of the message behind what
    was in the queue; they take exactly its bytes from the socket, and every PING
    met before it was answered, in order, by one PONG with its payload, whatever
    the value of the variable that is read before it is set, except the error
    code.  A message is a final, unmasked text or binary frame of less than 2^31
    bytes after any PINGs and PONGs; if a frame is queued already there are none
    of these before it (the case of a PING behind a queued frame uses the frame
    after it is freed, see the findings).  The connection is upgraded and between
    two frames, its socket does not fail, there are numbers for the keys of the
    PONGs, and the fuel is at least the number of frames. *)
Theorem receive_message socket garbage fuel Ws pings p rest q s :
  0 < socket → garbage ≠ SOCKET_ERROR → server_message Ws pings p → (length Ws ≤ fuel)%nat →
  ws_idle socket s → alive (input (raw s)) → bytes_of (input (raw s)) = concat Ws ++ rest →
  in_frames s = queued q → q = None ∨ length Ws = 1%nat → (4 * length pings ≤ length (rands s))%nat →
  ∃ s', receive_ws socket garbage (S (length (input (raw s)))) fuel s
      = Some ((TCPSOCKET_COMPLETE, len (ws_data (extend q p)) - pos (extend q p)), s') ∧
    in_frames s' = [Some (extend q p)] ∧ bytes_of (input (raw s')) = rest ∧
    (∃ cs, control s' = control s ++ cs ∧ Forall2 is_pong pings cs) ∧
    frame_buffer s' = None ∧ websocket s' = true.
Proof.
  intros Hs Hg Hm Hfu [Hraw (Hb & Hl & Hi & Hd) Hw] Ha Hin Hq Hq1 Hr.
  assert (Hrd : ready socket Ws rest s).
  { exists []. split; [split; try done; by apply idle_reading|]. split; [done|].
    destruct (message_cons _ _ _ Hm) as (W' & Ws' & ->). by apply message_first in Hm. }
  destruct (receive_ws_ok socket garbage Hs Hg (S (length (input (raw s)))) Ws pings p rest fuel q s Hm Hfu) as
    (s' & H1 & Hbf & H2 & H3 & [_ H4] & H5); [lia|done|done|done|done|done|].
  exists s'. split; [done|]. split; [done|]. split; [done|]. split; [done|]. split; [|done].
  exact (bf_buf _ _ _ _ Hbf).
Qed.

Definition new_ws (ev : list recv_event) : ws_state :=
  mkWs (mkState [] SocketBuffer_newDefQ ev) None 0 0 0 [] true [1; 2; 3; 4] [].
Definition sample_events : list recv_event :=
  [Chunk [0x89; 1]; RError EAGAIN; Chunk [65; 0x82]; Chunk [2; 7]; RError EAGAIN; Chunk [8; 0x82]].

Lemma receive_message_witness :
  server_message [[0x89; 1; 65]; [0x82; 2; 7; 8]] [[65]] [7; 8] ∧
  ∃ s', receive_ws 4 11 7 2 (new_ws sample_events) = Some ((TCPSOCKET_COMPLETE, 2), s') ∧
    in_frames s' = [Some (mkWsFrame [7; 8] 0)] ∧ bytes_of (input (raw s')) = [0x82].
Proof.
  assert (Hok : ∀ l, forallb (λ b, (0 <=? b) && (b <? 256)) l = true → bytes_ok l).
  { intros l H. apply Forall_forall. intros x Hx. rewrite forallb_forall in H. apply list_elem_of_In, H in Hx.
    unfold is_byte. lia. }
  assert (Hm : server_message [[0x89; 1; 65]; [0x82; 2; 7; 8]] [[65]] [7; 8]).
  { apply (message_ping _ (mkFrame true 0 9 None [65])); [|done|].
    - split; [by apply Hok|done|done|done|done].
    - apply (message_data _ (mkFrame true 0 2 None [7; 8])); [|by right]. split; [by apply Hok|done|done|done|done]. }
  split; [exact Hm|].
  destruct (receive_message 4 11 2 _ _ _ [0x82] None (new_ws sample_events) ltac:(lia) ltac:(done) Hm) as
    (s' & H1 & H2 & H3 & _); [cbn; lia| | |reflexivity|reflexivity|by left|cbn; lia|].
  - split; [|done|done]. split; [constructor|]. split; [done|]. apply newDefQ_free.
  - repeat constructor; try done; apply Hok; reflexivity.
  - exists s'. exact (conj H1 (conj H2 H3)).
Defined.

End WebSocketRead.
