(* ===== verification/WebSocketHandshake.v ===== *)
(** * The opening handshake of web sockets (paho.mqtt.c/src/WebSocket.c)

    The request, the answer of the server and its check, the connection through
    a proxy. *)
From S2P Require Import Prelude Libc SocketIO Base64 Sha1 Connect WebSocketFrame WebSocketRead.

Module WebSocketHandshake.
Import Libc SocketRead Base64 Sha1 Connect WebSocketFrame WebSocketRead.

(** ** Strings *)

Definition tolower (c : Z) : Z := if (65 <=? c) && (c <=? 90) then c + 32 else c.

(** [strncasecmp(buf, str, strlen(str)) == 0] with as many bytes in [buf]. *)
Definition same_nocase (buf str : list Z) : bool :=
  bool_decide (tolower <$> take (length str) buf = tolower <$> str).

Fixpoint casefind_loop (buf str : list Z) : option nat :=
  if (length str <=? length buf)%nat then
    if same_nocase buf str then Some O
    else match buf with [] => None | _ :: buf' => S <$> casefind_loop buf' str end
  else None.

(** The offset of the string found in the [len] bytes of [buf]. *)
Definition WebSocket_strcasefind (buf str : list Z) : option nat :=
  match buf with [] => None | _ => casefind_loop buf str end.

Fixpoint memchr (l : list Z) (c : Z) : option nat :=
  match l with [] => None | x :: l' => if x =? c then Some O else S <$> memchr l' c end.

(** [strncmp(a, b, n) == 0]; [None] reads after the end of one of them. *)
Fixpoint strncmp_eq (n : Z) (a b : list Z) : option bool :=
  if n =? 0 then Some true
  else match a, b with
       | x :: a', y :: b' => if x =? y then if x =? 0 then Some true else strncmp_eq (n - 1) a' b' else Some false
       | _, _ => None
       end.

(** ** The request *)

(** The sixteen results of [rand()]. *)
Definition uuid_generate (rnd : list Z) : list Z :=
  let out := (λ r, u8 (r mod 255)) <$> rnd in
  let out := <[6%nat := ((out !!! 6%nat) .& 0x0f) .| 0x40]> out in
  <[8%nat := ((out !!! 8%nat) .& 0x3F) .| 0x80]> out.

Definition hex2 (b : Z) : list Z :=
  let d x := if x <? 10 then 48 + x else 87 + x in [d (b / 16); d (b mod 16)].

Fixpoint unparse_loop (i : nat) (uu : list Z) : list Z :=
  match uu with
  | [] => []
  | b :: uu' => (if (i =? 4)%nat || (i =? 6)%nat || (i =? 8)%nat || (i =? 10)%nat then [45] else []) ++ hex2 b ++ unparse_loop (S i) uu'
  end.
Definition uuid_unparse (uu : list Z) : list Z := unparse_loop 0 uu.

Definition CRLF := [13; 10].

(** The lines of the headers of the user. *)
Definition header_lines (headers : list (list Z * list Z)) : list Z :=
  headers ≫= λ h, fst h ++ bs ": " ++ snd h ++ CRLF.
Definition headers_buf_len (headers : list (list Z * list Z)) : Z :=
  foldr (λ h n, len (fst h) + len (snd h) + 4 + n) 1 headers.

Definition upgrade_request (topic host : list Z) (port : Z) (key headers : list Z) : list Z :=
  bs "GET " ++ topic ++ bs " HTTP/1.1" ++ CRLF ++
  bs "Host: " ++ host ++ bs ":" ++ dec port ++ CRLF ++
  bs "Upgrade: websocket" ++ CRLF ++
  bs "Connection: Upgrade" ++ CRLF ++
  bs "Origin: http://" ++ host ++ bs ":" ++ dec port ++ CRLF ++
  bs "Sec-WebSocket-Key: " ++ key ++ CRLF ++
  bs "Sec-WebSocket-Version: 13" ++ CRLF ++
  bs "Sec-WebSocket-Protocol: mqtt" ++ CRLF ++
  headers ++ CRLF.

(** The return code, the key of the connection and the bytes given to
    [Socket_putdatas], of which the terminator is one; allocations succeed. *)
Definition WebSocket_connect (uri : list Z) (httpHeaders : option (list (list Z * list Z))) (rnd : list Z)
    : option (Z * list Z * list Z) :=
  '(_, websocket_key) ← Base64_encode 25 (uuid_generate rnd);
  '(hostname_len, port, topic) ← MQTTProtocol_addressPort uri true WS_DEFAULT_PORT;
  let topic := match topic with Some i => drop i uri | None => bs "/mqtt" end in
  let headers := match httpHeaders with Some h => header_lines h | None => [] end in
  let buf := upgrade_request topic (take hostname_len uri) port (cstr websocket_key) headers in
  Some (1, cstr websocket_key, buf ++ [0]).

(** ** The answer of the server *)

Definition ws_guid : list Z := bs "258EAFA5-E914-47DA-95CA-C5AB0DC85B11".

(** The accept value expected for a key, with its terminator. *)
Definition expected_accept (websocket_key : list Z) : option (list Z) :=
  let ws_key := take 61 (websocket_key ++ ws_guid) in
  let sha_hash := snd (SHA1_Final (SHA1_Update (SHA1_Init (replicate 64 0)) ws_key)) in
  snd <$> Base64_encode 62 sha_hash.

(** The searches for the end of a line have a limit that is after the end of the
    data: [None] when there is no end of line. *)
Definition connection_upgraded (b : list Z) : option bool :=
  match WebSocket_strcasefind b (bs "Connection") with
  | None => Some false
  | Some p =>
      eol ← memchr (drop p b) 10;
      Some (if WebSocket_strcasefind (take eol (drop p b)) (bs "Upgrade") is Some _ then true else false)
  end.

(** The colon and the spaces before the value are passed. *)
Fixpoint skip_colons (p : list Z) (hash_len : Z) : option (list Z * Z) :=
  match p with
  | [] => None
  | c :: p' => if (c =? 58) || (c =? 32) then skip_colons p' (u64 (hash_len - 1)) else Some (p, hash_len)
  end.

Definition accept_matches (b ws_key : list Z) : option bool :=
  match WebSocket_strcasefind b (bs "sec-websocket-accept") with
  | None => Some false
  | Some p =>
      eol ← memchr (drop p b) 10;
      match memchr (take eol (drop p b)) 58 with
      | None => Some false
      | Some colon =>
          '(p, hash_len) ← skip_colons (drop (p + colon) b) (Z.of_nat eol - Z.of_nat colon - 1);
          strncmp_eq hash_len p ws_key
      end
  end.

Definition check_answer (b ws_key : list Z) : option bool :=
  connected ← connection_upgraded b;
  if connected : bool then accept_matches b ws_key else Some false.

Definition set_websocket : ws () := λ s,
  Some ((), mkWs (raw s) (frame_buffer s) (frame_buffer_len s) (frame_buffer_index s) (frame_buffer_data_len s)
              (in_frames s) true (rands s) (control s)).

Definition of_option {A} (o : option A) : ws A := match o with Some a => mret a | None => ws_fault end.

(** The return code and the key that the connection keeps. *)
Definition WebSocket_upgrade (socket : Z) (websocket_key : option (list Z)) : ws (Z * option (list Z)) :=
  match websocket_key with
  | None => mret (SOCKET_ERROR, None)
  | Some key =>
      ws_key ← of_option (expected_accept key);
      '(read_buf, rcv, rc) ← WebSocket_getRawSocketData socket 12 TCPSOCKET_INTERRUPTED;
      if rc =? SOCKET_ERROR then mret (rc, Some key)
      else
        match read_buf with
        | None => mret (rc, Some key)
        | Some b =>
            if rcv <? 12 then mret (rc, Some key)
            else if starts_with (bs "HTTP/1.1") b && negb (starts_with (bs "101") (drop 9 b)) then mret (SOCKET_ERROR, Some key)
            else if negb (starts_with (bs "HTTP/1.1 101") b) then mret (rc, Some key)
            else
              '(read_buf, rcv, rc) ← WebSocket_getRawSocketData socket 1024 rc;
              if rc =? SOCKET_ERROR then mret (rc, Some key)
              else
                let b := default [] read_buf in
                if (4 <? rcv) && negb (bool_decide (drop (length b - 4) b = CRLF ++ CRLF)) then mret (SOCKET_ERROR, Some key)
                else
                  ok ← of_option (check_answer b ws_key);
                  (if ok : bool then set_websocket else mret ());;
                  '(_, _, rc) ← WebSocket_getRawSocketData socket 0 (if ok : bool then 1 else SOCKET_ERROR);
                  mret (rc, None)
        end
  end.

(** ** A proxy *)

Definition proxy_request (host : list Z) (port : Z) (auth : option (list Z)) : list Z :=
  bs "CONNECT " ++ host ++ bs ":" ++ dec port ++ bs " HTTP/1.1" ++ CRLF ++
  bs "Host: " ++ host ++ CRLF ++
  match auth with Some a => bs "Proxy-authorization: Basic " ++ a ++ CRLF | None => [] end ++ CRLF.

(** The wait for the status line; a turn without data looks at the clock:
    [late] says whether the ten seconds are over, which they are in the end. *)
Fixpoint proxy_wait (socket : Z) (late : list bool) (rc : Z) : io Z :=
  '(rc', buf, actual_len) ← Socket_getdata_rc socket 12;
  let rc := default rc rc' in
  if negb (actual_len =? 0) then
    let b := default [] buf in
    mret (if negb (starts_with (bs "HTTP/1.0 200") b) && negb (starts_with (bs "HTTP/1.1 200") b) then SOCKET_ERROR else rc)
  else
    match late with
    | [] | true :: _ => mret SOCKET_ERROR
    | false :: late' => proxy_wait socket late' rc
    end.

(** The bytes that follow are read one by one and dropped. *)
Fixpoint proxy_flush (turns : nat) (socket : Z) : io () :=
  match turns with
  | O => io_fault
  | S turns' =>
      '(_, _, actual_len) ← Socket_getdata_rc socket 1;
      if actual_len =? 0 then mret () else proxy_flush turns' socket
  end.

(** The bytes given to [Socket_putdatas] and the return code. *)
Definition WebSocket_proxy_connect (turns : nat) (socket : Z) (hostname : list Z) (http_proxy_auth : option (list Z)) (late : list bool)
    : io (list Z * Z) :=
  match MQTTProtocol_addressPort hostname false WS_DEFAULT_PORT with
  | None => io_fault
  | Some (hostname_len, port, _) =>
      rc ← proxy_wait socket late 0;
      proxy_flush turns socket;;
      mret (proxy_request (take hostname_len hostname) port http_proxy_auth ++ [0], rc)
  end.

(** ** Lemmas: strings *)

Lemma casefind_app pre suf str i : casefind_loop pre str = Some i → casefind_loop (pre ++ suf) str = Some i.
Proof.
  assert (Hs : ∀ pre : list Z, (length str ≤ length pre)%nat → same_nocase (pre ++ suf) str = same_nocase pre str).
  { intros l Hl. unfold same_nocase. by rewrite take_app_le. }
  revert i. induction pre as [|c pre IH]; intros i H.
  - cbn [casefind_loop length] in H. destruct str as [|x str]; [|done]. cbn in H. injection H as <-. by destruct suf.
  - cbn [app casefind_loop] in *. destruct (Nat.leb_spec (length str) (length (c :: pre))) as [Hl|]; [|done].
    rewrite (proj2 (Nat.leb_le _ _)) by (cbn [length] in *; rewrite length_app; lia).
    rewrite (Hs (c :: pre) Hl : same_nocase (c :: pre ++ suf) str = _). destruct (same_nocase (c :: pre) str); [done|].
    destruct (casefind_loop pre str) as [j|]; [|done]. cbn in H. injection H as <-. by rewrite (IH j eq_refl).
Qed.

Lemma strcasefind_app pre suf str i : WebSocket_strcasefind pre str = Some i → WebSocket_strcasefind (pre ++ suf) str = Some i.
Proof.
  unfold WebSocket_strcasefind. destruct pre as [|c pre]; [done|]. intros H. by apply (casefind_app (c :: pre) suf) in H.
Qed.

Lemma memchr_app a c t : c ∉ a → memchr (a ++ c :: t) c = Some (length a).
Proof.
  induction a as [|x a IH]; intros Hc; cbn [app memchr length]; [by rewrite Z.eqb_refl|].
  apply not_elem_of_cons in Hc as [Hx Hc]. rewrite (proj2 (Z.eqb_neq x c)) by done. by rewrite IH.
Qed.

Lemma strncmp_prefix text accept t u : 0 ∉ text → 0 ∉ accept →
  strncmp_eq (len accept) (accept ++ t) (text ++ 0 :: u) = Some (bool_decide (accept `prefix_of` text)).
Proof.
  revert text. induction accept as [|a accept IH]; intros text Ht Ha.
  - rewrite bool_decide_eq_true_2 by apply prefix_nil. by destruct t, text.
  - apply not_elem_of_cons in Ha as [Ha0 Ha]. cbn [length app].
    assert (E : ∀ y b', strncmp_eq (Z.of_nat (S (length accept))) (a :: accept ++ t) (y :: b')
      = if a =? y then if a =? 0 then Some true else strncmp_eq (len accept) (accept ++ t) b' else Some false).
    { intros y b'. cbn [strncmp_eq]. rewrite (proj2 (Z.eqb_neq (Z.of_nat (S (length accept))) 0)) by lia.
      by replace (Z.of_nat (S (length accept)) - 1) with (len accept) by lia. }
    destruct text as [|x text]; cbn [app]; rewrite E.
    + rewrite (proj2 (Z.eqb_neq a 0)) by congruence. rewrite bool_decide_eq_false_2; [done|]. by intros ?%prefix_nil_inv.
    + apply not_elem_of_cons in Ht as [Hx Ht]. rewrite (proj2 (Z.eqb_neq a 0)) by congruence.
      destruct (Z.eqb_spec a x) as [->|Hne].
      * rewrite IH by done. f_equal. apply bool_decide_ext. split; [apply prefix_cons|apply prefix_cons_inv_2].
      * rewrite bool_decide_eq_false_2; [done|]. by intros ?%prefix_cons_inv_1.
Qed.

(** ** Lemmas: the expected value *)

Lemma sha1_bytes bits msg : bytes_ok (sha1_bits bits msg).
Proof.
  unfold sha1_bits. apply Forall_bind, Forall_true. intros x. unfold be_bytes.
  repeat constructor; unfold u8, is_byte; apply Z.mod_pos_bound; lia.
Qed.

Lemma sha1_length bits msg : length (sha1_bits bits msg) = 20%nat.
Proof.
  unfold sha1_bits. set (l := msg ++ _). set (n := (length l / 64)%nat). clearbody l n.
  assert (H : ∀ H0, length H0 = 5%nat → length (fips_blocks n H0 l) = 5%nat).
  { revert l. induction n as [|n IH]; intros l H0 Hl; cbn [fips_blocks]; [done|]. apply IH. unfold fips_block.
    rewrite length_zip_with. destruct (foldl _ _ _) as [[[[a b] c] d] e]. cbn. lia. }
  specialize (H SHA1_INITIAL eq_refl). destruct (fips_blocks n SHA1_INITIAL l) as [|a [|b [|c [|d [|e [|]]]]]]; done.
Qed.

Lemma sextets_ok l : Forall is_sextet (sextets l).
Proof.
  induction l as [l IH] using (induction_ltof1 _ (@length bool)). unfold ltof in IH.
  destruct l as [|a [|b [|c [|d [|e [|f l]]]]]]; cbn [sextets]; repeat constructor; try apply bits_sextet.
  all: try (cbn [take app replicate]; eapply bits_sextet). apply IH. cbn. lia.
Qed.

Lemma rfc4648_text data c : c < 43 → c ∉ rfc4648 data.
Proof.
  unfold rfc4648. intros Hc. rewrite elem_of_app. intros [(v & Hv & Hin)%list_elem_of_fmap|Hin].
  - pose proof (sextets_ok (data ≫= byte_bits)) as H. rewrite Forall_forall in H. specialize (H v Hin). unfold is_sextet in H.
    unfold alphabet in Hv. repeat case_match; lia.
  - apply elem_of_replicate in Hin. lia.
Qed.

Lemma accept_text_ne key : rfc4648 (sha1 key) ≠ [].
Proof.
  pose proof (rfc4648_len (sha1 key) (sha1_bytes _ _)) as H. unfold sha1 at 2 in H. rewrite sha1_length in H. intros E. by rewrite E in H.
Qed.

Lemma expected_accept_ok key : bytes_ok key → length key = 24%nat →
  expected_accept key = Some (rfc4648 (sha1 (key ++ ws_guid)) ++ [0]).
Proof.
  intros Hk Hl. unfold expected_accept. rewrite take_ge by (rewrite length_app, Hl; cbn; lia).
  set (k := key ++ ws_guid).
  pose proof (Updates_repr _ [] [k] (repr_init (replicate 64 0) eq_refl)) as Hrep. cbn [foldl concat app] in Hrep.
  rewrite app_nil_r in Hrep. rewrite (Final_repr _ _ Hrep). cbn [snd].
  assert (Hlen : len k = 60) by (unfold k; rewrite length_app, Hl; reflexivity).
  rewrite u32_small by (unfold is_u32; lia). fold (sha1 k).
  pose proof (sha1_bytes (8 * len k) k) as Hb. pose proof (sha1_length (8 * len k) k) as Hn. fold (sha1 k) in Hb, Hn.
  pose proof (rfc4648_len (sha1 k) Hb) as Ht. rewrite Hn in Ht. change ((Z.of_nat 20 + 2) / 3 * 4) with 28 in Ht.
  unfold Base64_encode. rewrite encode_loop_ok by (done || lia). cbn [mbind option_bind fmap option_fmap option_map].
  rewrite Z.add_0_l, Ht. done.
Qed.

(** ** The answers that are accepted *)

(** [str] is at offset [i] of [l], in any case of letters, and nowhere before. *)
Definition occurs (str l : list Z) (i : nat) : Prop :=
  tolower <$> take (length str) (drop i l) = tolower <$> str.
Definition first_at (str l : list Z) (i : nat) : Prop := occurs str l i ∧ ∀ j, (j < i)%nat → ¬ occurs str l j.
(** The first place with the name of a header, to the end of its line. *)
Definition header (name R line : list Z) : Prop :=
  ∃ i rest, first_at name R i ∧ drop i R = line ++ 10 :: rest ∧ 10 ∉ line.

(** The line of Connection mentions Upgrade. *)
Definition says_upgraded (R : list Z) : Prop :=
  ∃ line i, header (bs "Connection") R line ∧ occurs (bs "Upgrade") line i.
(** The value of Sec-WebSocket-Accept, after colons and spaces and without the last
    character of its line, is a prefix of the text. *)
Definition accepts_prefix (R text : list Z) : Prop :=
  ∃ name skipped v x, header (bs "sec-websocket-accept") R (name ++ 58 :: skipped ++ v ++ [x]) ∧ 58 ∉ name ∧
    Forall (λ c, c = 58 ∨ c = 32) skipped ∧ (∀ c, head (v ++ [x]) = Some c → c ≠ 58 ∧ c ≠ 32) ∧ v `prefix_of` text.

(** ** Lemmas: the check of the answer *)

Lemma occurs_nocase str l i : occurs str l i ↔ same_nocase (drop i l) str = true.
Proof. unfold occurs, same_nocase. by rewrite bool_decide_eq_true. Qed.
Lemma occurs_length str l i : occurs str l i → (length str ≤ length (drop i l))%nat.
Proof. intros H%(f_equal length). rewrite !length_fmap, length_take in H. lia. Qed.

Lemma first_at_S str c l i : ¬ occurs str (c :: l) 0 → first_at str (c :: l) (S i) ↔ first_at str l i.
Proof.
  intros H0. split; intros [H1 H2]; (split; [done|]).
  - intros j Hj. exact (H2 (S j) ltac:(lia)).
  - intros [|j] Hj; [done|]. exact (H2 j ltac:(lia)).
Qed.

Lemma casefind_first str l : str ≠ [] → match casefind_loop l str with
  | Some i => first_at str l i | None => ∀ i, ¬ occurs str l i end.
Proof.
  intros Hs. assert (Hlen : ∀ l, (length l < length str)%nat → ∀ i, ¬ occurs str l i).
  { intros k Hk i Hi%occurs_length. rewrite length_drop in Hi. lia. }
  induction l as [|c l IH]; cbn [casefind_loop].
  - destruct (Nat.leb_spec (length str) (length (@nil Z))) as [H|H]; [destruct str; [done|cbn in H; lia]|by apply Hlen].
  - destruct (Nat.leb_spec (length str) (length (c :: l))) as [_|H]; [|by apply Hlen].
    destruct (same_nocase (c :: l) str) eqn:E.
    + split; [by apply occurs_nocase|intros j Hj; lia].
    + assert (H0 : ¬ occurs str (c :: l) 0) by (rewrite occurs_nocase, drop_0; congruence).
      destruct (casefind_loop l str) as [i|]; cbn [fmap option_fmap option_map].
      * by apply first_at_S.
      * intros [|i]; [done|]. exact (IH i).
Qed.

Lemma strcasefind_first str l : str ≠ [] → match WebSocket_strcasefind l str with
  | Some i => first_at str l i | None => ∀ i, ¬ occurs str l i end.
Proof.
  intros Hs. pose proof (casefind_first str l Hs) as H. destruct l as [|c l]; [|done].
  intros i Hi%occurs_length. rewrite drop_nil in Hi. destruct str; [done|cbn in Hi; lia].
Qed.

Lemma first_at_unique str l i j : first_at str l i → first_at str l j → i = j.
Proof.
  intros [H1 H2] [H3 H4]. destruct (Nat.lt_trichotomy i j) as [H|[H|H]]; [by edestruct H4|done|by edestruct H2].
Qed.

Lemma memchr_in l c : c ∈ l → ∃ a t, memchr l c = Some (length a) ∧ l = a ++ c :: t ∧ c ∉ a.
Proof.
  intros Hc. apply list_elem_of_split_l in Hc as (a & t & -> & Ha). exists a, t. by rewrite memchr_app.
Qed.

Lemma split_unique (c : Z) a t a' t' : a ++ c :: t = a' ++ c :: t' → c ∉ a → c ∉ a' → a = a' ∧ t = t'.
Proof.
  intros E Ha Ha'. pose proof (memchr_app a c t Ha) as M. rewrite E, memchr_app in M by done. injection M as M.
  apply app_inj_1 in E as [-> E]; [|done]. by injection E.
Qed.

Lemma memchr_none l c : c ∉ l → memchr l c = None.
Proof.
  induction l as [|x l IH]; intros Hc; [done|]. apply not_elem_of_cons in Hc as [Hx Hc]. cbn [memchr].
  rewrite (proj2 (Z.eqb_neq x c)) by done. by rewrite IH.
Qed.

(** The line of a header in an answer that ends with an end of line. *)
Lemma header_line (name R : list Z) i : last R = Some 10 → name ≠ [] → first_at name R i →
  ∃ line rest, drop i R = line ++ 10 :: rest ∧ 10 ∉ line ∧ memchr (drop i R) 10 = Some (length line) ∧
    ∀ line', header name R line' ↔ line' = line.
Proof.
  intros Hl Hn Hi. assert (Hin : 10 ∈ drop i R).
  { destruct Hi as [Hi _]. apply occurs_length in Hi. apply last_Some in Hl as [R0 ->]. rewrite length_drop, length_app in Hi.
    rewrite drop_app_le; [apply elem_of_app; right; by left|]. destruct name; [done|]. cbn in Hi. lia. }
  destruct (memchr_in _ _ Hin) as (line & rest & Hm & E & Hline). exists line, rest. split; [done|]. split; [done|]. split; [done|].
  intros line'. split; [|intros ->; by exists i, rest].
  intros (j & rest' & Hj & E' & Hline'). rewrite (first_at_unique _ _ _ _ Hj Hi), E in E'.
  by destruct (split_unique _ _ _ _ _ E' Hline Hline').
Qed.

Lemma connection_spec R : last R = Some 10 → ∃ b : bool, connection_upgraded R = Some b ∧ (b = true ↔ says_upgraded R).
Proof.
  intros Hl. unfold connection_upgraded. pose proof (strcasefind_first (bs "Connection") R ltac:(done)) as H.
  destruct (WebSocket_strcasefind R (bs "Connection")) as [i|].
  2:{ exists false. split; [done|]. split; [discriminate|]. intros (line & j & (k & rest & [Hk _] & _) & _). by apply H in Hk. }
  destruct (header_line (bs "Connection") R i Hl ltac:(done) H) as (line & rest & E & _ & Hm & Hh). rewrite Hm. cbn [mbind option_bind].
  rewrite E, take_app_length. pose proof (strcasefind_first (bs "Upgrade") line ltac:(done)) as Hu.
  destruct (WebSocket_strcasefind line (bs "Upgrade")) as [j|]; eexists; (split; [done|]).
  - split; [|done]. intros _. exists line, j. split; [by apply Hh|apply Hu].
  - split; [discriminate|]. intros (line' & j & ->%Hh & Hj). by apply Hu in Hj.
Qed.

Definition skipped_char (c : Z) : Prop := c = 58 ∨ c = 32.
Definition starts_value (v : list Z) : Prop := ∀ c, head v = Some c → c ≠ 58 ∧ c ≠ 32.
Lemma skip_colons_ok sk q n : Forall skipped_char sk → q ≠ [] → starts_value q →
  skip_colons (sk ++ q) n = Some (q, match sk with [] => n | _ => u64 (n - len sk) end).
Proof.
  intros Hsk Hq Hv. revert n. induction Hsk as [|c sk Hc Hsk IH]; intros n; cbn [app skip_colons].
  - destruct q as [|x q]; [done|]. destruct (Hv x eq_refl). cbn [skip_colons].
    by rewrite (proj2 (Z.eqb_neq x 58)), (proj2 (Z.eqb_neq x 32)) by done.
  - replace ((c =? 58) || (c =? 32)) with true by (destruct Hc as [-> | ->]; done).
    rewrite IH. f_equal. f_equal. unfold u64. destruct sk; cbn [length]; [done|].
    rewrite Zminus_mod_idemp_l. f_equal. lia.
Qed.

(** The characters skipped at the head of a value. *)
Lemma skipped_split l : ∃ sk v, l = sk ++ v ∧ Forall skipped_char sk ∧ starts_value v.
Proof.
  induction l as [|c l (sk & v & -> & Hsk & Hv)]; [by exists [], []|].
  destruct (decide (c = 58)) as [->|H1]; [exists (58 :: sk), v; split; [done|]; split; [constructor; [by left|done]|done]|].
  destruct (decide (c = 32)) as [->|H2]; [exists (32 :: sk), v; split; [done|]; split; [constructor; [by right|done]|done]|].
  exists [], (c :: sk ++ v). split; [done|]. split; [done|]. by intros ? [= <-].
Qed.

Lemma skipped_unique sk v sk' v' : sk ++ v = sk' ++ v' → Forall skipped_char sk → Forall skipped_char sk' →
  starts_value v → starts_value v' → sk = sk' ∧ v = v'.
Proof.
  intros E Hsk. revert sk' E. induction Hsk as [|c sk Hc Hsk IH]; intros [|c' sk'] E Hsk' Hv Hv'; cbn [app] in E.
  - done.
  - subst v. apply Forall_cons in Hsk' as [[-> | ->] _]; destruct (Hv _ eq_refl); done.
  - subst v'. destruct Hc as [-> | ->]; destruct (Hv' _ eq_refl); done.
  - injection E as -> E. apply Forall_cons in Hsk' as [_ Hsk']. by destruct (IH sk' E Hsk' Hv Hv') as [-> ->].
Qed.

Lemma strncmp_other n x p text u : n ≠ 0 → head text ≠ Some x → text ≠ [] → strncmp_eq n (x :: p) (text ++ u) = Some false.
Proof.
  intros Hn Hx Ht. destruct text as [|t text]; [done|]. cbn [app head] in *.
  assert (E : strncmp_eq n (x :: p) (t :: text ++ u) = if n =? 0 then Some true else if x =? t then if x =? 0 then Some true
    else strncmp_eq (n - 1) p (text ++ u) else Some false) by (destruct n; reflexivity). rewrite E.
  rewrite (proj2 (Z.eqb_neq n 0)), (proj2 (Z.eqb_neq x t)) by congruence. done.
Qed.

(** The value of the line is unique. *)
Lemma accepts_inv R text n sk v : 58 ∉ n → Forall skipped_char sk → starts_value v →
  (∀ line, header (bs "sec-websocket-accept") R line ↔ line = n ++ 58 :: sk ++ v) →
  accepts_prefix R text ↔ ∃ w x, v = w ++ [x] ∧ w `prefix_of` text.
Proof.
  intros Hn Hsk Hv Hh. split.
  - intros (n' & sk' & w & x & E%Hh & Hn' & Hsk' & Hv' & Hp). apply split_unique in E as [_ E]; [|done|done].
    destruct (skipped_unique _ _ _ _ E Hsk' Hsk Hv' Hv) as [_ <-]. by exists w, x.
  - intros (w & x & -> & Hp). exists n, sk, w, x. split; [by apply Hh|]. done.
Qed.

Lemma accept_spec R text : last R = Some 10 → 0 ∉ R → (length R ≤ 1024)%nat → text ≠ [] → 0 ∉ text → 10 ∉ text →
  ∃ b : bool, accept_matches R (text ++ [0]) = Some b ∧ (b = true ↔ accepts_prefix R text).
Proof.
  intros Hl H0 Hlen Ht Ht0 Ht10. unfold accept_matches.
  pose proof (strcasefind_first (bs "sec-websocket-accept") R ltac:(done)) as H.
  destruct (WebSocket_strcasefind R (bs "sec-websocket-accept")) as [i|].
  2:{ exists false. split; [done|]. split; [discriminate|]. intros (? & ? & ? & ? & (k & rest & [Hk _] & _) & _). by apply H in Hk. }
  destruct (header_line (bs "sec-websocket-accept") R i Hl ltac:(done) H) as (line & rest & E & H10 & Hm & Hh). rewrite Hm. cbn [mbind option_bind].
  rewrite E, take_app_length. destruct (decide (58 ∈ line)) as [Hc|Hc].
  2:{ rewrite memchr_none by done. exists false. split; [done|]. split; [discriminate|].
      intros (n & sk & v & x & <-%Hh & _). destruct Hc. apply elem_of_app. right. left. }
  destruct (memchr_in _ _ Hc) as (n & tl & Hmc & -> & Hn). rewrite Hmc, <-drop_drop, E, <-app_assoc, drop_app_length. cbn [app].
  destruct (skipped_split tl) as (sk & v & -> & Hsk & Hv). setoid_rewrite (accepts_inv R text n sk v Hn Hsk Hv Hh).
  assert (Hll : len (n ++ 58 :: sk ++ v) ≤ 1024).
  { apply (f_equal length) in E. rewrite length_app, length_drop in E. lia. }
  assert (Hskc : Forall skipped_char (58 :: sk)) by (constructor; [by left|done]).
  assert (Hlens : len (n ++ 58 :: sk ++ v) - len n - 1 - len (58 :: sk) = len v - 1)
    by (rewrite length_app; cbn [length]; rewrite length_app; lia).
  rewrite <-app_assoc. change (58 :: sk ++ v ++ 10 :: rest) with ((58 :: sk) ++ v ++ 10 :: rest).
  rewrite skip_colons_ok; [|done|by destruct v|destruct v; [by intros ? [= <-]|exact Hv]]. cbn [mbind option_bind]. rewrite Hlens.
  destruct v as [|x w _] using rev_ind.
  - exists false. split; [|split; [discriminate|]; intros (w & x & E0 & _); by destruct w].
    cbn [app]. apply strncmp_other; [done| |done]. intros Hh10. apply Ht10. destruct text; [done|]. injection Hh10 as ->. left.
  - assert (Hw : 0 ∉ w). { intros Hin. apply H0. rewrite <-(take_drop i R), E. set_solver. }
    rewrite length_app in *. cbn [length] in *. rewrite <-app_assoc.
    replace (u64 _) with (len w).
    2:{ unfold u64. rewrite Z.mod_small; rewrite ?length_app in *; cbn [length] in *; rewrite ?length_app in *; cbn [length] in *; lia. }
    rewrite strncmp_prefix by done. eexists. split; [done|]. rewrite bool_decide_eq_true. split; [by exists w, x|].
    by intros (w' & x' & [-> _]%app_inj_tail & Hp).
Qed.

Lemma check_answer_spec R text : last R = Some 10 → 0 ∉ R → (length R ≤ 1024)%nat → text ≠ [] → 0 ∉ text → 10 ∉ text →
  ∃ b : bool, check_answer R (text ++ [0]) = Some b ∧ (b = true ↔ says_upgraded R ∧ accepts_prefix R text).
Proof.
  intros Hl H0 Hlen Ht Ht0 Ht10. unfold check_answer. destruct (connection_spec R Hl) as (b & -> & Hb). cbn [mbind option_bind].
  destruct (accept_spec R text Hl H0 Hlen Ht Ht0 Ht10) as (c & Hc & Hcb).
  destruct b; [exists c; split; [done|]|exists false; split; [done|]]; naive_solver.
Qed.

(** ** Property *)

(** C24: The answer of a server decides the upgrade by two of its headers.  For every
    answer that arrives at once, says 101 in HTTP/1.1, has no NUL, and whose
    rest, of at most 1024 bytes, ends with an empty line: the connection is
    upgraded exactly when the first place with the name Connection has Upgrade in
    its line, in any case, and the value at the first Sec-WebSocket-Accept, after
    colons and spaces and without the last character of its line, is a prefix of
    the one of RFC 6455, the Base64 of the SHA-1 of the key and the identifier of
    the protocol: the right value is accepted, a wrong one refused, but a
    shortened one, the empty one included, is accepted too.  The answer is
    consumed and the key, of 24 bytes as WebSocket_connect makes it, is released.
    The connection is not upgraded before and nothing else was received. *)
Theorem upgrade_decides socket key R s :
  0 < socket → length key = 24%nat → bytes_ok key →
  bytes_ok R → 0 ∉ R → (length R ≤ 1024)%nat → CRLF ++ CRLF `suffix_of` R →
  idle socket (raw s) → frame_buffer s = None → frame_buffer_len s = 0 → frame_buffer_index s = 0 →
  frame_buffer_data_len s = 0 → websocket s = false → input (raw s) = [Chunk (bs "HTTP/1.1 101" ++ R)] →
  ∃ (ok : bool) s', WebSocket_upgrade socket (Some key) s = Some ((if ok then 1 else SOCKET_ERROR, None), s') ∧
    (ok = true ↔ says_upgraded R ∧ accepts_prefix R (rfc4648 (sha1 (key ++ ws_guid)))) ∧
    websocket s' = ok ∧ bytes_of (input (raw s')) = [] ∧ frame_buffer s' = None.
Proof.
  intros Hs Hkl Hk HRb HR0 HRlen [R0 HRend] Hidle Hb Hbl Hbi Hbd Hw Hin.
  set (A := bs "HTTP/1.1 101" ++ R) in *.
  assert (HA : take 12 A = bs "HTTP/1.1 101" ∧ drop 12 A = R) by done. destruct HA as [HA1 HA2].
  assert (HRne : R ≠ []) by (rewrite HRend; by destruct R0).
  assert (Hbytes : bytes_ok A) by (apply Forall_app; split; [apply (bool_decide_eq_true_1 _); vm_compute; reflexivity|done]).
  destruct (check_answer_spec R (rfc4648 (sha1 (key ++ ws_guid)))) as (ok & Hcheck & Hok);
    [by rewrite HRend, app_assoc, last_app|done|done|apply accept_text_ne|by apply rfc4648_text..|].
  assert (Hbf : buffering socket s [] 0).
  { split; try done; [by apply idle_reading|]. rewrite Hin. constructor; [|done]. done. }
  unfold WebSocket_upgrade. rewrite expected_accept_ok by done. cbn [of_option].
  destruct (getRaw_ok socket s [] 0 12 TCPSOCKET_INTERRUPTED Hs eq_refl Hbf) as
    (b & m & rc & s1 & B1 & i1 & Hg1 & Hbf1 & Hsame1 & _ & _ & _ & Hrc1 & _ & Hsh1).
  destruct (Hsh1 A [] Hin) as (HB1 & Hin1 & Hb1 & Hm1 & Hi1); [done|done|]. cbn [length] in *.
  change (Z.to_nat (12 - (Z.of_nat 0 - 0))) with 12%nat in *. rewrite HA1 in HB1. rewrite HA2 in Hin1.
  replace (rest_events R []) with [Chunk R] in Hin1 by (by destruct R). cbn [app] in HB1.
  assert (Hrc1' : 0 < rc) by (destruct Hrc1 as [[Hc _]|?]; [by rewrite HB1 in Hc|done]). rewrite HB1 in Hb1.
  change (take (Z.to_nat 12) (drop (Z.to_nat 0) (bs "HTTP/1.1 101"))) with (bs "HTTP/1.1 101") in Hb1.
  rewrite Hb1 in Hm1. change (len (bs "HTTP/1.1 101")) with 12 in Hm1. subst b m. rewrite HB1, Hi1 in Hbf1. cbn [Z.add] in Hbf1.
  unfold mbind at 1, ws_bind at 1, mret at 1, ws_ret at 1. unfold mbind at 1, ws_bind at 1. rewrite Hg1.
  rewrite (proj2 (Z.eqb_neq rc SOCKET_ERROR)) by (unfold SOCKET_ERROR; lia). change (12 <? 12) with false. cbn iota.
  change (starts_with (bs "HTTP/1.1") (bs "HTTP/1.1 101") && negb (starts_with (bs "101") (drop 9 (bs "HTTP/1.1 101")))) with false.
  change (negb (starts_with (bs "HTTP/1.1 101") (bs "HTTP/1.1 101"))) with false. cbn iota.
  destruct (getRaw_ok socket s1 (bs "HTTP/1.1 101") 12 1024 rc Hs eq_refl Hbf1) as
    (b2 & m2 & rc2 & s2 & B2 & i2 & Hg2 & Hbf2 & Hsame2 & _ & _ & _ & Hrc2 & _ & Hsh2).
  destruct (Hsh2 R [] Hin1) as (HB2 & Hin2 & Hb2 & Hm2 & Hi2); [done|done|].
  change (Z.to_nat (1024 - (len (bs "HTTP/1.1 101") - 12))) with 1024%nat in *.
  rewrite take_ge in HB2 by done. rewrite drop_ge in Hin2 by done. cbn [rest_events] in Hin2.
  assert (Hb2' : b2 = R).
  { rewrite Hb2, HB2. change (drop (Z.to_nat 12) (bs "HTTP/1.1 101" ++ R)) with R. apply take_ge. lia. }
  clear Hb2. subst b2. rewrite Hm2 in Hg2.
  unfold mbind at 1, ws_bind at 1. rewrite Hg2.
  rewrite (proj2 (Z.eqb_neq rc2 SOCKET_ERROR)) by (unfold SOCKET_ERROR; destruct Hrc2 as [[_ ->]|?]; lia).
  change (default [] (Some R)) with R. cbv zeta. assert (Hend : drop (length R - 4) R = CRLF ++ CRLF).
  { rewrite HRend. apply drop_app_length'. rewrite length_app. cbn. lia. }
  rewrite Hend, bool_decide_eq_true_2, andb_false_r by done.
  rewrite Hcheck. cbn [of_option]. unfold mbind at 1, ws_bind at 1, mret at 1, ws_ret at 1.
  assert (Hset : ∃ s3, (if ok then set_websocket else mret ()) s2 = Some ((), s3) ∧ websocket s3 = ok ∧
    buffering socket s3 B2 i2 ∧ raw s3 = raw s2).
  { destruct Hsame1 as (_ & Hw1 & _), Hsame2 as (_ & Hw2 & _). destruct ok; [eexists|exists s2]; (split; [reflexivity|]).
    - split; [done|]. split; [|done]. destruct Hbf2. by split.
    - split; [congruence|done]. }
  destruct Hset as (s3 & H3 & Hw3 & Hbf3 & Hraw3). unfold mbind at 1, ws_bind at 1. rewrite H3.
  destruct (getRaw_zero socket s3 B2 i2 (if ok then 1 else SOCKET_ERROR) Hbf3) as (s4 & H4 & Hbf4 & (_ & Hw4 & _) & Hin4);
    [by destruct ok|]. unfold mbind at 1, ws_bind at 1. rewrite H4.
  exists ok, s4. split; [done|]. split; [exact Hok|]. split; [congruence|]. split; [by rewrite Hin4, Hraw3, Hin2|]. exact (bf_buf _ _ _ _ Hbf4).
Qed.

(** The example of RFC 6455, section 1.3, answered in lower case and with the headers
    in another order. *)
Definition rfc6455_key : list Z := bs "dGhlIHNhbXBsZSBub25jZQ==".
Definition answer_rest (accept : list Z) : list Z :=
  bs " Switching Protocols" ++ CRLF ++ bs "sec-websocket-accept: " ++ accept ++ CRLF ++ bs "connection: upgrade" ++ CRLF ++
  bs "upgrade: websocket" ++ CRLF ++ CRLF.
Definition upgraded_by (R : list Z) : Prop :=
  ∃ s', WebSocket_upgrade 4 (Some rfc6455_key) (mkWs (mkState [] SocketBuffer_newDefQ [Chunk (bs "HTTP/1.1 101" ++ R)]) None 0 0 0 [] false [] [])
    = Some ((1, None), s') ∧ websocket s' = true.

Lemma upgrade_decides_witness :
  let R := answer_rest (bs "s3pPLMBiTxaQ9kYGzzhZRbK+xOo=") in
  (says_upgraded R ∧ accepts_prefix R (rfc4648 (sha1 (rfc6455_key ++ ws_guid)))) ∧ upgraded_by R.
Proof.
  intros R.
  assert (Hb : bytes_ok R) by (apply (bool_decide_eq_true_1 _); vm_compute; reflexivity).
  assert (H0 : 0 ∉ R) by (apply (bool_decide_eq_true_1 _); vm_compute; reflexivity).
  assert (Hn : (length R ≤ 1024)%nat) by (apply (bool_decide_eq_true_1 _); vm_compute; reflexivity).
  assert (He : CRLF ++ CRLF `suffix_of` R) by (exists (take (length R - 4) R); vm_compute; reflexivity).
  assert (Ha : says_upgraded R ∧ accepts_prefix R (rfc4648 (sha1 (rfc6455_key ++ ws_guid)))).
  { destruct (check_answer_spec R (rfc4648 (sha1 (rfc6455_key ++ ws_guid)))) as (b & E & Hok);
      [reflexivity|done|done|apply accept_text_ne|by apply rfc4648_text..|]. apply Hok.
    assert (Ec : check_answer R (rfc4648 (sha1 (rfc6455_key ++ ws_guid)) ++ [0]) = Some true) by (vm_compute; reflexivity). congruence. }
  split; [exact Ha|].
  destruct (upgrade_decides 4 rfc6455_key R (mkWs (mkState [] SocketBuffer_newDefQ [Chunk (bs "HTTP/1.1 101" ++ R)]) None 0 0 0 [] false [] []))
    as (ok & s' & H1 & H2 & H3 & _); [lia|reflexivity|apply (bool_decide_eq_true_1 _); vm_compute; reflexivity|exact Hb|exact H0|exact Hn|exact He| |done|done|done|done|done|done|].
  - split; [constructor|]. split; [done|]. apply newDefQ_free.
  - apply H2 in Ha as ->. exists s'. exact (conj H1 H3).
Defined.

(** An answer that is not read whole, or that is not of HTTP 1.1, gives neither an
    error nor [TCPSOCKET_INTERRUPTED], but a number of bytes. *)
Definition upgrade_rc (answer : list Z) : option (Z * bool) :=
  '((rc, _), s) ← WebSocket_upgrade 4 (Some (bs "dGhlIHNhbXBsZSBub25jZQ=="))
    (mkWs (mkState [] SocketBuffer_newDefQ [Chunk answer]) None 0 0 0 [] false [] []);
  Some (rc, websocket s).
Example upgrade_wrong : upgrade_rc (bs "HTTP/1.1 101" ++ answer_rest (bs "x3pPLMBiTxaQ9kYGzzhZRbK+xOo=")) = Some (SOCKET_ERROR, false).
Proof. vm_compute. reflexivity. Qed.
Example upgrade_empty : upgrade_rc (bs "HTTP/1.1 101" ++ answer_rest []) = Some (1, true).
Proof. vm_compute. reflexivity. Qed.
Example upgrade_partial : upgrade_rc (bs "HTTP/") = Some (5, false).
Proof. vm_compute. reflexivity. Qed.
Example upgrade_other : upgrade_rc (bs "HTTP/1.0 403 Forbidden") = Some (12, false).
Proof. vm_compute. reflexivity. Qed.

End WebSocketHandshake.
