(* ===== verification/AsyncCommands.v ===== *)
(** * Commands of the asynchronous client and their persistence
    (paho.mqtt.c/src/MQTTAsync.c)

    The commands the application queues, the records of the store they are kept
    in until they are sent, and what a restart makes of these records: each
    command is read twice, first without the data of a PUBLISH, then in full
    when it is about to be sent. *)
From Stdlib Require Import Sorting.Sorted.
From stdpp Require Import sorting.
From S2P Require Import Prelude Libc PacketCodec Props Packets SocketIO Protocol Persistence PersistenceSpec PersistenceQueue.

Module AsyncCommands.
Import Libc Codecs Properties Packets Protocol Persistence PersistenceSpec PersistenceQueue.

(** ** Data *)

(** [MQTTSubscribe_options] as it lies in memory: the eyecatcher, the version of
    the structure, three members of one byte and one byte of padding. *)
Definition SUBOPTS_SIZE := 12.
Definition MQTTSubscribe_options_initializer : list Z := bs "MQSO" ++ int_bytes 0 ++ [0; 0; 0; 0].
Definition subopts_of (raw : list Z) : option MQTTSubscribe_options :=
  match raw with
  | [_; _; _; _; _; _; _; _; nl; rap; rh; _] => Some (mkSubOpts nl rap rh)
  | _ => None
  end.

(** The union of the details, with its discriminant [type].  Pointers that are
    NULL are [None]; arrays that are NULL are empty. *)
Inductive command_details :=
  | DConnect (currentURI MQTTVersion : Z)
  | DSubscribe (topics : list (list Z)) (qoss : list Z) (opts : list Z) (optlist : list (list Z))
  | DUnsubscribe (topics : list (list Z))
  | DPublish (destinationName : option (list Z)) (payloadlen : Z) (payload : option (list Z)) (qos retained : Z)
  | DDisconnect (internal : bool) (timeout reasonCode : Z).

Record MQTTAsync_command := mkCommand {
  onSuccess : option Z;
  onFailure : option Z;
  onSuccess5 : option Z;
  onFailure5 : option Z;
  token : Z;
  context : Z;
  start_time : Z;
  cmd_properties : MQTTProperties;
  details : command_details
}.

Definition type_of_details (d : command_details) : Z :=
  match d with
  | DConnect _ _ => CONNECT
  | DSubscribe _ _ _ _ => SUBSCRIBE
  | DUnsubscribe _ => UNSUBSCRIBE
  | DPublish _ _ _ _ _ => PUBLISH
  | DDisconnect _ _ _ => DISCONNECT
  end.
Definition type (c : MQTTAsync_command) : Z := type_of_details (details c).

(** A queued command: its address, and the handle of its client. *)
Record MQTTAsync_queuedCommand := mkQueued {
  addr : positive;
  command : MQTTAsync_command;
  client : positive;
  cmd_seqno : Z;
  not_restored : bool;
  key : option (list Z)
}.

(** What [memset] leaves, with the members set first. *)
Definition blank_command (tok : Z) (d : command_details) : MQTTAsync_command :=
  mkCommand None None None None tok 0 0 MQTTProperties_initializer d.
Definition with_token (c : MQTTAsync_command) (tok : Z) : MQTTAsync_command :=
  mkCommand (onSuccess c) (onFailure c) (onSuccess5 c) (onFailure5 c) tok (context c) (start_time c)
    (cmd_properties c) (details c).
Definition with_details (c : MQTTAsync_command) (d : command_details) : MQTTAsync_command :=
  mkCommand (onSuccess c) (onFailure c) (onSuccess5 c) (onFailure5 c) (token c) (context c) (start_time c)
    (cmd_properties c) d.
Definition with_props (c : MQTTAsync_command) (ps : MQTTProperties) : MQTTAsync_command :=
  mkCommand (onSuccess c) (onFailure c) (onSuccess5 c) (onFailure5 c) (token c) (context c) (start_time c)
    ps (details c).
Definition with_start (c : MQTTAsync_command) (t : Z) : MQTTAsync_command :=
  mkCommand (onSuccess c) (onFailure c) (onSuccess5 c) (onFailure5 c) (token c) (context c) t
    (cmd_properties c) (details c).
Definition with_command (q : MQTTAsync_queuedCommand) (c : MQTTAsync_command) : MQTTAsync_queuedCommand :=
  mkQueued (addr q) c (client q) (cmd_seqno q) (not_restored q) (key q).

(** ** Writing and removing a command *)

Definition command_stem (MQTTVersion : Z) : list Z :=
  if MQTTVERSION_5 <=? MQTTVersion then PERSISTENCE_V5_COMMAND_KEY else PERSISTENCE_COMMAND_KEY.
Definition command_key (stem : list Z) (n : Z) : option (list Z) := key_in (PERSISTENCE_MAX_KEY_LENGTH + 1) stem n.

(** The two buffers of each topic of a SUBSCRIBE, the [i]-th being the first. *)
Fixpoint sub_bufs (MQTTVersion count : Z) (qoss opts : list Z) (optlist : list (list Z)) (i : nat)
    (topics : list (list Z)) : option (list (list Z)) :=
  match topics with
  | [] => Some []
  | t :: topics' =>
      e ← (if MQTTVersion <? MQTTVERSION_5 then int_bytes <$> qoss !! i
           else if count =? 1 then Some opts else optlist !! i);
      rest ← sub_bufs MQTTVersion count qoss opts optlist (S i) topics';
      Some ((cstr t ++ [0]) :: e :: rest)
  end.

(** The switch of [MQTTAsync_persistCommand]: [Some None] is [process = 0], a
    command that is not kept. *)
Definition command_bufs (MQTTVersion : Z) (c : MQTTAsync_command) : option (option (list (list Z))) :=
  match details c with
  | DSubscribe topics qoss opts optlist =>
      bufs ← sub_bufs MQTTVersion (len topics) qoss opts optlist 0 topics;
      Some (Some (int_bytes SUBSCRIBE :: int_bytes (token c) :: int_bytes (len topics) :: bufs))
  | DUnsubscribe topics =>
      Some (Some (int_bytes UNSUBSCRIBE :: int_bytes (token c) :: int_bytes (len topics)
                  :: ((λ t, cstr t ++ [0]) <$> topics)))
  | DPublish destinationName payloadlen payload qos retained =>
      name ← destinationName;
      let data := default [] payload in
      if (0 <=? payloadlen) && (payloadlen <=? len data) then
        Some (Some [int_bytes PUBLISH; int_bytes (token c); cstr name ++ [0]; int_bytes payloadlen;
                    take (Z.to_nat payloadlen) data; int_bytes qos; int_bytes retained])
      else None
  | _ => Some None
  end.

Section Persist.
Context {S : Type} `{!Store S}.
Context (beforeWrite : option (list (list Z) → Z * list (list Z))).
Context (afterRead : option (list Z → Z * list Z)).
(** [c->MQTTVersion]. *)
Context (version : Z).

Definition MQTTAsync_unpersistCommand (n : Z) (s : S) : option (Z * S) :=
  k ← command_key (command_stem version) n;
  Some (premove k s).

(** The return code, [qcmd->seqno], [aclient->command_seqno] and the store.  The
    return code of the callback is lost. *)
Definition MQTTAsync_persistCommand (mem mem_props : bool) (c : MQTTAsync_command) (seqno command_seqno : Z) (s : S)
    : option (Z * Z * Z * S) :=
  b ← command_bufs version c;
  match b with
  | None =>
      let n := next_seqno command_seqno in
      k ← command_key PERSISTENCE_COMMAND_KEY n;
      Some (0, seqno, n, s)
  | Some bufs =>
      if negb mem then Some (PAHO_MEMORY_ERROR, seqno, command_seqno, s)
      else
        let n := next_seqno command_seqno in
        let v5 := MQTTVERSION_5 <=? version in
        if v5 && negb mem_props then Some (PAHO_MEMORY_ERROR, seqno, n, s)
        else
          more ← (if v5 then snd <$> props_buf (cmd_properties c) else Some []);
          k ← command_key (command_stem version) n;
          let '(_, bufs) := before_write beforeWrite (bufs ++ more) in
          let '(rc, s') := pput k bufs s in
          Some (rc, n, n, s')
  end.
End Persist.

(** ** Reading a command *)

(** The loop over the topics of a SUBSCRIBE. *)
Fixpoint sub_reader (MQTTVersion : Z) (n : nat) : reader (list (list Z * (Z + list Z))) :=
  match n with
  | O => mret []
  | S n' =>
      t ← read_string;
      e ← (if MQTTVersion <? MQTTVERSION_5 then q ← read_int; mret (inl q)
           else o ← read_bytes SUBOPTS_SIZE; mret (inr o));
      rest ← sub_reader MQTTVersion n';
      mret ((t, e) :: rest)
  end.

Definition read_qoss (l : list (list Z * (Z + list Z))) : list Z :=
  omap (λ '(_, e), match e with inl q => Some q | inr _ => None end) l.
Definition read_opts (l : list (list Z * (Z + list Z))) : list (list Z) :=
  omap (λ '(_, e), match e with inl _ => None | inr o => Some o end) l.

(** One option goes into [opts], several into [optlist]. *)
Definition read_subscribe (MQTTVersion : Z) : reader command_details :=
  count ← read_int;
  l ← sub_reader MQTTVersion (Z.to_nat count);
  mret (DSubscribe (l.*1) (read_qoss l)
          (if count =? 1 then concat (read_opts l) else [])
          (if count =? 1 then [] else read_opts l)).

Fixpoint unsub_reader (n : nat) : reader (list (list Z)) :=
  match n with
  | O => mret []
  | S n' => t ← read_string; rest ← unsub_reader n'; mret (t :: rest)
  end.

Definition read_unsubscribe : reader command_details :=
  count ← read_int;
  topics ← unsub_reader (Z.to_nat count);
  mret (DUnsubscribe topics).

(** The data are kept in the second reading only. *)
Definition read_publish (full : bool) : reader command_details :=
  name ← read_string;
  plen ← read_int;
  data ← read_payload plen;
  qos ← read_int;
  retained ← read_int;
  mret (DPublish (if full then Some name else None) plen (if full then Some data else None) qos retained).

(** [qcommand] is NULL in the first reading ([not_restored = 1]), the command
    found in the second ([not_restored = 0]); the result is NULL for an unknown
    type, for properties that cannot be read, or when memory is exhausted. *)
Definition restore_reader (buflen MQTTVersion : Z) (mem : bool) (qcommand : option MQTTAsync_command)
    : reader (option MQTTAsync_command) :=
  ty ← read_int;
  tok ← read_int;
  match qcommand with
  | None =>
      if ty =? SUBSCRIBE then d ← read_subscribe MQTTVersion; mret (Some (blank_command tok d))
      else if ty =? UNSUBSCRIBE then d ← read_unsubscribe; mret (Some (blank_command tok d))
      else if ty =? PUBLISH then d ← read_publish false; mret (Some (blank_command tok d))
      else mret None
  | Some c =>
      r ← (if ty =? SUBSCRIBE then
             match details c with DSubscribe _ _ _ _ => mret (Some (with_token c tok)) | _ => fault end
           else if ty =? UNSUBSCRIBE then
             match details c with DUnsubscribe _ => mret (Some (with_token c tok)) | _ => fault end
           else if ty =? PUBLISH then
             if mem then d ← read_publish true; mret (Some (with_details (with_token c tok) d)) else mret None
           else mret None);
      match r with
      | Some c' =>
          if MQTTVERSION_5 <=? MQTTVersion then
            '(rc, ps) ← MQTTProperties_read (cmd_properties c') buflen;
            mret (if rc =? 1 then Some (with_props c' ps) else None)
          else mret (Some c')
      | None => mret None
      end
  end.

Definition MQTTAsync_restoreCommand (mem : bool) (buffer : list Z) (MQTTVersion : Z)
    (qcommand : option MQTTAsync_command) : option (option MQTTAsync_command) :=
  match qcommand, mem with
  | None, false => Some None
  | _, _ => fst <$> restore_reader (len buffer) MQTTVersion mem qcommand buffer 0
  end.

(** ** Order of the restored commands

    The list of the commands of all clients, with the sentinel of the restore, an
    element whose content is not initialised; an element is named by the address
    of its content. *)

Definition slot : Type := positive * option MQTTAsync_queuedCommand.
Definition slot_of (q : MQTTAsync_queuedCommand) : slot := (addr q, Some q).

Record keyloc := mkKeyloc { k_seqno : Z; k_elem : positive }.

(** An entry of [keyloc_array]; [None] when it was not written. *)
Definition keyloc_at (arr : list (option keyloc)) (i : Z) : option keyloc :=
  if 0 <=? i then mjoin (arr !! Z.to_nat i) else None.

(** The binary search: [low] at the end; [Z.to_nat array_size] turns are enough
    ([insertInOrder_append] gives the turns that are made). *)
Fixpoint search_loop (fuel : nat) (arr : list (option keyloc)) (seqno low high divide_index : Z) : option Z :=
  if high - low <=? 1 then Some low
  else match fuel with
       | O => None
       | S fuel' =>
           k ← keyloc_at arr divide_index;
           let '(low, high) := if seqno <? k_seqno k then (low, divide_index) else (divide_index, high) in
           search_loop fuel' arr seqno low high (Z.quot (high - low) 2 + low)
       end.

(** [ListInsert] before the element that follows [a], or at the end. *)
Fixpoint insert_after (a : positive) (x : slot) (l : list slot) : option (list slot) :=
  match l with
  | [] => None
  | y :: l' => if decide (y.1 = a) then Some (y :: x :: l') else l'' ← insert_after a x l'; Some (y :: l'')
  end.

(** [memmove] of the entries after [low], and the new entry. *)
Definition keyloc_insert (arr : list (option keyloc)) (low array_size : Z) (k : keyloc) : list (option keyloc) :=
  let i := Z.to_nat (low + 1) in
  if low + 1 <? array_size
  then take i arr ++ Some k :: take (Z.to_nat array_size - i) (drop i arr) ++ drop (S (Z.to_nat array_size)) arr
  else <[i := Some k]> arr.

Definition MQTTAsync_insertInOrder (l : list slot) (content : MQTTAsync_queuedCommand)
    (arr : list (option keyloc)) (array_size : Z) : option (list slot * list (option keyloc)) :=
  let seqno := s32 (cmd_seqno content) in
  low ← (if 0 <? array_size then
           k ← keyloc_at arr (array_size - 1);
           if k_seqno k <? seqno then Some (array_size - 1)
           else search_loop (Z.to_nat array_size) arr seqno 0 (array_size - 1) (Z.quot array_size 2)
         else Some 0);
  k ← keyloc_at arr low;
  l' ← insert_after (k_elem k) (slot_of content) l;
  if array_size <? len arr
  then Some (l', keyloc_insert arr low array_size (mkKeyloc seqno (addr content)))
  else None.

(** [atoi(strchr(key, '-') + 1)]. *)
Definition key_number (k : list Z) : option Z := '(_, rest) ← strchr k 45; Some (atoi (drop 1 rest)).

(** [qsort] by [cmpkeys]: the keys with their numbers, sorted by the numbers (the
    C library's is a merge sort). *)
Definition number_le (a b : Z * list Z) : Prop := a.1 ≤ b.1.
#[export] Instance number_le_dec a b : Decision (number_le a b) := decide (a.1 ≤ b.1).
#[export] Instance number_le_trans : Transitive number_le.
Proof. intros a b c. unfold number_le. lia. Qed.
#[export] Instance number_le_total : Total number_le.
Proof. intros a b. unfold number_le. lia. Qed.
Definition sort_keys (keys : list (list Z)) : option (list (list Z)) :=
  l ← mapM (λ k, n ← key_number k; Some (n, k)) keys;
  Some ((merge_sort number_le l).*2).

Definition is_command_key (k : list Z) : bool :=
  starts_with PERSISTENCE_COMMAND_KEY k || starts_with PERSISTENCE_V5_COMMAND_KEY k.
Definition key_version (k : list Z) : Z :=
  if starts_with PERSISTENCE_V5_COMMAND_KEY k then MQTTVERSION_5 else MQTTVERSION_3_1_1.

(** A new address, different from those of the list. *)
Definition new_addr (l : list slot) : positive := fresh (list_to_set (C := gset positive) l.*1).

(** ** Restoring the commands of a client *)

Section Restore.
Context {S : Type} `{!Store S}.
Context (afterRead : option (list Z → Z * list Z)).
Context (mem : bool).
(** The handle of the client. *)
Context (m : positive).

(** What the loop works on: the list, [keyloc_array], [client->command_seqno] and
    [client->noBufferedMessages]. *)
Record restoring := mkRestoring {
  r_list : list slot;
  r_arr : list (option keyloc);
  r_seqno : Z;
  r_buffered : Z
}.

(** One record whose data were read. *)
Definition restore_one (i : Z) (k buffer : list Z) (st : restoring) : option restoring :=
  r ← MQTTAsync_restoreCommand mem buffer (key_version k) None;
  c ← r;
  n ← key_number k;
  let cmd := mkQueued (new_addr (r_list st)) c m (u32 n) true (Some k) in
  '(l, arr) ← MQTTAsync_insertInOrder (r_list st) cmd (r_arr st) (i + 1);
  Some (mkRestoring l arr (Z.max (r_seqno st) (u32 n))
          (if type c =? PUBLISH then r_buffered st + 1 else r_buffered st)).

Fixpoint restore_commands_loop (i : Z) (keys : list (list Z)) (st : restoring) (s : S) : option (Z * restoring) :=
  match keys with
  | [] => Some (0, st)
  | k :: keys' =>
      if negb (is_command_key k) then restore_commands_loop (i + 1) keys' st s
      else
        let '(rc, buffer) := after_read afterRead (pget k s) in
        if rc =? 0 then st' ← restore_one i k buffer st; restore_commands_loop (i + 1) keys' st' s
        else Some (rc, st)
  end.

(** The return code, the list, [command_seqno] and [noBufferedMessages].  The
    sentinel is appended to the list of all clients, and the head of the list is
    removed at the end. *)
Definition MQTTAsync_restoreCommands (persistent : bool) (commands : list slot) (seqno buffered : Z) (s : S)
    : option (Z * list slot * Z * Z) :=
  if negb persistent then Some (0, commands, seqno, buffered)
  else
    let '(rc, keys) := pkeys s in
    if negb (rc =? 0) || bool_decide (keys = []) then Some (rc, commands, seqno, buffered)
    else
      keys ← sort_keys keys;
      if negb mem then Some (PAHO_MEMORY_ERROR, commands, seqno, buffered)
      else
        let a := new_addr commands in
        '(rc, st) ← restore_commands_loop 0 keys
                      (mkRestoring (commands ++ [(a, None)])
                         (Some (mkKeyloc (-1) a) :: replicate (length keys) None) seqno buffered) s;
        Some (rc, tail (r_list st), r_seqno st, r_buffered st).

(** ** Removing records *)

(** The common loop of the two functions that remove the records with given
    prefixes. *)
Fixpoint unpersist_loop (stems : list (list Z)) (keys : list (list Z)) (s : S) : Z * S :=
  match keys with
  | [] => (0, s)
  | k :: keys' =>
      if existsb (λ stem, starts_with stem k) stems then
        let '(rc, s') := premove k s in
        if rc =? 0 then unpersist_loop stems keys' s' else (rc, s')
      else unpersist_loop stems keys' s
  end.

Definition unpersist_stems (stems : list (list Z)) (persistent : bool) (s : S) : Z * S :=
  if negb persistent then (0, s)
  else let '(rc, keys) := pkeys s in if negb (rc =? 0) then (rc, s) else unpersist_loop stems keys s.

Definition COMMAND_AND_QUEUE_STEMS :=
  [PERSISTENCE_COMMAND_KEY; PERSISTENCE_V5_COMMAND_KEY; PERSISTENCE_QUEUE_KEY; PERSISTENCE_V5_QUEUE_KEY].
Definition INFLIGHT_STEMS :=
  [PERSISTENCE_PUBLISH_SENT; PERSISTENCE_V5_PUBLISH_SENT; PERSISTENCE_PUBREL; PERSISTENCE_V5_PUBREL;
   PERSISTENCE_PUBLISH_RECEIVED; PERSISTENCE_V5_PUBLISH_RECEIVED].

Definition MQTTAsync_unpersistCommandsAndMessages : bool → S → Z * S := unpersist_stems COMMAND_AND_QUEUE_STEMS.
Definition MQTTAsync_unpersistInflightMessages : bool → S → Z * S := unpersist_stems INFLIGHT_STEMS.
End Restore.

(** ** The record of a command *)

(** The entries of a SUBSCRIBE: the QoS, or the bytes of the options. *)
Definition sub_values (v : Z) (count : Z) (qoss opts : list Z) (optlist : list (list Z)) : list (Z + list Z) :=
  if v <? MQTTVERSION_5 then inl <$> qoss else inr <$> (if count =? 1 then [opts] else optlist).
Definition value_bytes (e : Z + list Z) : list Z := match e with inl q => int_bytes q | inr o => o end.
Definition value_ok (v : Z) (e : Z + list Z) : Prop :=
  match e with inl q => v < MQTTVERSION_5 ∧ is_s32 q | inr o => MQTTVERSION_5 ≤ v ∧ len o = SUBOPTS_SIZE end.

(** A command the application can queue for a client of version [v]. *)
Definition details_ok (v : Z) (d : command_details) : Prop :=
  match d with
  | DSubscribe topics qoss opts optlist =>
      Forall cstring_ok topics ∧ len topics < 2 ^ 31 ∧
      Forall (value_ok v) (sub_values v (len topics) qoss opts optlist) ∧
      length (sub_values v (len topics) qoss opts optlist) = length topics
  | DUnsubscribe topics => Forall cstring_ok topics ∧ len topics < 2 ^ 31
  | DPublish name plen data qos retained =>
      (∃ t, name = Some t ∧ cstring_ok t) ∧ (∃ b, data = Some b ∧ plen = len b) ∧
      is_s32 plen ∧ is_s32 qos ∧ is_s32 retained
  | _ => False
  end.

Record command_ok (v : Z) (c : MQTTAsync_command) : Prop := {
  co_token : is_s32 (token c);
  co_details : details_ok v (details c);
  co_props : MQTTVERSION_5 ≤ v → props_sendable (cmd_properties c)
}.

Definition sub_bytes (topics : list (list Z)) (vals : list (Z + list Z)) : list Z :=
  concat (zip_with (λ t e, (t ++ [0]) ++ value_bytes e) topics vals).

Definition details_bytes (v : Z) (d : command_details) : list Z :=
  match d with
  | DSubscribe topics qoss opts optlist =>
      int_bytes (len topics) ++ sub_bytes topics (sub_values v (len topics) qoss opts optlist)
  | DUnsubscribe topics => int_bytes (len topics) ++ concat ((λ t, t ++ [0]) <$> topics)
  | DPublish name plen data qos retained =>
      (default [] name ++ [0]) ++ int_bytes plen ++ default [] data ++ int_bytes qos ++ int_bytes retained
  | _ => []
  end.

Definition command_record (v : Z) (c : MQTTAsync_command) : list Z :=
  int_bytes (type c) ++ int_bytes (token c) ++ details_bytes v (details c)
  ++ (if MQTTVERSION_5 <=? v then write_props (cmd_properties c) else []).

(** What the first reading makes of a record of a client of version [v]. *)
Definition first_details (v : Z) (d : command_details) : command_details :=
  match d with
  | DPublish _ plen _ qos retained => DPublish None plen None qos retained
  | DSubscribe topics qoss opts optlist =>
      if v <? MQTTVERSION_5 then DSubscribe topics qoss [] []
      else DSubscribe topics [] (if len topics =? 1 then opts else []) (if len topics =? 1 then [] else optlist)
  | d => d
  end.
Definition first_command (v : Z) (c : MQTTAsync_command) : MQTTAsync_command :=
  blank_command (token c) (first_details v (details c)).

Lemma sub_bufs_ok v count qoss opts optlist topics : ∀ i vals,
  Forall cstring_ok topics → length vals = length topics →
  (∀ j, (j < length topics)%nat → value_bytes <$> vals !! j =
     if v <? MQTTVERSION_5 then int_bytes <$> qoss !! (i + j)%nat
     else if count =? 1 then Some opts else optlist !! (i + j)%nat) →
  ∃ bufs, sub_bufs v count qoss opts optlist i topics = Some bufs ∧ concat bufs = sub_bytes topics vals.
Proof.
  induction topics as [|t topics IH]; intros i [|e vals] Ht Hl Hv; try done; [by exists []|].
  apply Forall_cons in Ht as [Ht Hts]. cbn [sub_bufs].
  pose proof (Hv 0%nat ltac:(cbn; lia)) as H0. rewrite Nat.add_0_r in H0. cbn [lookup list_lookup] in H0.
  rewrite <-H0. change (value_bytes <$> Some e) with (Some (value_bytes e)). cbn [mbind option_bind].
  destruct (IH (S i) vals Hts ltac:(cbn in Hl; lia)) as (bufs & -> & Hc).
  { intros j Hj. rewrite Nat.add_succ_comm. apply (Hv (S j)). cbn. lia. }
  cbn [mbind option_bind]. eexists. split; [done|]. cbn [concat]. rewrite Hc, cstr_ok by done.
  unfold sub_bytes. cbn [zip_with concat]. by rewrite <-!app_assoc.
Qed.

Lemma command_bufs_ok v c : details_ok v (details c) →
  ∃ bufs, command_bufs v c = Some (Some bufs) ∧
    concat bufs = int_bytes (type c) ++ int_bytes (token c) ++ details_bytes v (details c).
Proof.
  unfold command_bufs, type. intros Hok. destruct (details c) as [|topics qoss opts optlist|topics|name plen data q r|] eqn:Ed;
    cbn [details_ok] in Hok; [done| | | |done].
  - destruct Hok as (Ht & Hn & Hvals & Hl).
    destruct (sub_bufs_ok v (len topics) qoss opts optlist topics 0 _ Ht Hl) as (bufs & -> & Hc).
    { intros j Hj. unfold sub_values in *. cbn [Nat.add]. destruct (v <? MQTTVERSION_5).
      - rewrite list_lookup_fmap. by destruct (qoss !! j).
      - rewrite list_lookup_fmap. destruct (Z.eqb_spec (len topics) 1).
        + assert (j = 0)%nat as -> by lia. done.
        + by destruct (optlist !! j). }
    cbn [mbind option_bind]. eexists. split; [done|]. cbn [concat details_bytes type_of_details]. by rewrite Hc.
  - eexists. split; [done|]. cbn [concat details_bytes type_of_details]. do 3 f_equal.
    destruct Hok as [Hok _]. f_equal. apply list_fmap_ext. intros i t Hi. f_equal. apply cstr_ok.
    exact (Forall_lookup_1 _ _ _ _ Hok Hi).
  - destruct Hok as ((t & -> & Ht) & (b & -> & ->) & Hp & Hq & Hr). cbn [mbind option_bind default from_option id].
    rewrite !(proj2 (Z.leb_le _ _)) by lia. cbn [andb]. eexists. split; [done|].
    cbn [concat details_bytes type_of_details default from_option id]. unfold id.
    rewrite Nat2Z.id, firstn_all, cstr_ok, app_nil_r by done. by rewrite <-!app_assoc.
Qed.

(** ** Reading it again *)

(** A reader that consumes exactly the bytes [w], wherever they are. *)
Definition reads {A : Type} (m : reader A) (w : list Z) (a : A) : Prop :=
  ∀ pre post, m (pre ++ w ++ post) (len pre) = Some (a, len pre + len w).

Lemma reads_bind {A B : Type} (m : reader A) (k : A → reader B) w1 w2 a b :
  reads m w1 a → reads (k a) w2 b → reads (m ≫= k) (w1 ++ w2) b.
Proof.
  intros H1 H2 pre post. unfold mbind, reader_bind. rewrite <-app_assoc, H1.
  pose proof (H2 (pre ++ w1) post) as H. rewrite <-app_assoc in H.
  replace (len pre + len w1) with (len (pre ++ w1)) by lens. rewrite H. f_equal. f_equal. lens.
Qed.

Lemma reads_ret {A : Type} (a : A) : reads (mret a) [] a.
Proof. intros pre post. unfold mret, reader_ret. f_equal. f_equal. lens. Qed.

Lemma reads_map {A B : Type} (m : reader A) (f : A → B) w a : reads m w a → reads (x ← m; mret (f x)) w (f a).
Proof. intros H. rewrite <-(app_nil_r w). eapply reads_bind; [exact H|apply reads_ret]. Qed.

Lemma reads_int x : is_s32 x → reads read_int (int_bytes x) x.
Proof. intros Hx pre post. exact (read_int_codec x pre post _ Hx (Z.le_refl _)). Qed.

Lemma reads_string t : cstring_ok t → reads read_string (t ++ [0]) t.
Proof. intros Ht pre post. by apply read_string_at. Qed.

Lemma reads_payload d : reads (read_payload (len d)) d d.
Proof. intros pre post. apply read_payload_at. Qed.

Lemma reads_subopts d : len d = SUBOPTS_SIZE → reads (read_bytes SUBOPTS_SIZE) d d.
Proof. intros <- pre post. apply read_bytes_at. Qed.

Lemma reads_topics v topics : ∀ vals, Forall cstring_ok topics → length vals = length topics →
  Forall (value_ok v) vals → reads (sub_reader v (length topics)) (sub_bytes topics vals) (zip topics vals).
Proof.
  induction topics as [|t topics IH]; intros [|e vals] Ht Hl Hv; try done; [apply (reads_ret [])|].
  apply Forall_cons in Ht as [Ht Hts]. apply Forall_cons in Hv as [He Hv]. cbn [length sub_reader].
  unfold sub_bytes. cbn [zip_with concat]. rewrite <-app_assoc.
  eapply reads_bind; [by apply reads_string|]. eapply (reads_bind _ _ _ _ e).
  - destruct e as [q|o]; cbn [value_ok value_bytes] in *; destruct He as [Hver He].
    + rewrite (proj2 (Z.ltb_lt _ _)) by lia. by apply reads_map, reads_int.
    + rewrite (proj2 (Z.ltb_ge _ _)) by lia. by apply reads_map, reads_subopts.
  - apply reads_map, IH; [done|cbn in Hl; lia|done].
Qed.

Lemma reads_unsub topics : Forall cstring_ok topics →
  reads (unsub_reader (length topics)) (concat ((λ t, t ++ [0]) <$> topics)) topics.
Proof.
  induction 1 as [|t topics Ht Hts IH]; [apply (reads_ret [])|]. cbn [length unsub_reader]. rewrite fmap_cons. cbn [concat].
  eapply reads_bind; [by apply reads_string|]. by apply reads_map.
Qed.

Lemma omap_zip_inl (topics : list (list Z)) qoss : length qoss = length topics →
  read_qoss (zip topics (inl <$> qoss)) = qoss ∧ read_opts (zip topics (inl <$> qoss)) = [].
Proof.
  unfold read_qoss, read_opts. revert topics. induction qoss as [|q qoss IH]; intros [|t topics] Hl; try done.
  rewrite fmap_cons. cbn [zip zip_with omap list_omap]. destruct (IH topics ltac:(cbn in Hl; lia)) as [-> ->]. done.
Qed.
Lemma omap_zip_inr (topics : list (list Z)) os : length os = length topics →
  read_qoss (zip topics (inr <$> os)) = [] ∧ read_opts (zip topics (inr <$> os)) = os.
Proof.
  unfold read_qoss, read_opts. revert topics. induction os as [|q os IH]; intros [|t topics] Hl; try done.
  rewrite fmap_cons. cbn [zip zip_with omap list_omap]. destruct (IH topics ltac:(cbn in Hl; lia)) as [-> ->]. done.
Qed.

Lemma reads_subscribe v topics qoss opts optlist : details_ok v (DSubscribe topics qoss opts optlist) →
  reads (read_subscribe v) (details_bytes v (DSubscribe topics qoss opts optlist))
    (first_details v (DSubscribe topics qoss opts optlist)).
Proof.
  intros (Ht & Hn & Hv & Hl). unfold read_subscribe. cbn [details_bytes first_details].
  eapply reads_bind; [apply reads_int; unfold is_s32; lia|]. rewrite Nat2Z.id.
  assert (Hz : (zip topics (sub_values v (len topics) qoss opts optlist)).*1 = topics) by (apply fst_zip; lia).
  pose proof (reads_map _ (λ l : list (list Z * (Z + list Z)), DSubscribe l.*1 (read_qoss l)
          (if len topics =? 1 then concat (read_opts l) else []) (if len topics =? 1 then [] else read_opts l)) _ _
          (reads_topics v topics _ Ht Hl Hv)) as H. cbn beta in H. rewrite Hz in H.
  unfold sub_values in *. destruct (v <? MQTTVERSION_5).
  - rewrite length_fmap in Hl. destruct (omap_zip_inl topics qoss Hl) as [E1 E2]. rewrite E1, E2 in H.
    by destruct (len topics =? 1).
  - rewrite length_fmap in Hl. destruct (omap_zip_inr topics _ Hl) as [E1 E2]. rewrite E1, E2 in H.
    destruct (len topics =? 1); [|done]. cbn [concat] in H. by rewrite app_nil_r in H.
Qed.

Lemma reads_publish v full name plen data q r : details_ok v (DPublish name plen data q r) →
  reads (read_publish full) (details_bytes v (DPublish name plen data q r))
    (DPublish (if full then name else None) plen (if full then data else None) q r).
Proof.
  intros ((t & -> & Ht) & (b & -> & ->) & Hp & Hq & Hr). unfold read_publish.
  cbn [details_bytes default from_option id]. unfold id.
  eapply reads_bind; [by apply reads_string|]. eapply reads_bind; [by apply reads_int|].
  eapply reads_bind; [apply reads_payload|]. eapply reads_bind; [by apply reads_int|].
  rewrite <-(app_nil_r (int_bytes r)). eapply reads_bind; [by apply reads_int|].
  destruct full; apply reads_ret.
Qed.

(** The version is only compared with 5. *)
Lemma data_version_lt v : (data_version v <? MQTTVERSION_5) = (v <? MQTTVERSION_5).
Proof. unfold data_version. destruct (Z.leb_spec MQTTVERSION_5 v); case_leb; done. Qed.

Lemma sub_values_ver v n qoss opts optlist :
  sub_values (data_version v) n qoss opts optlist = sub_values v n qoss opts optlist.
Proof. unfold sub_values. by rewrite data_version_lt. Qed.

Lemma details_ver v d : details_ok v d →
  details_ok (data_version v) d ∧ details_bytes (data_version v) d = details_bytes v d ∧
  first_details (data_version v) d = first_details v d.
Proof.
  destruct d; cbn [details_ok details_bytes first_details]; try done. rewrite !sub_values_ver, data_version_lt.
  intros (H1 & H2 & H3 & H4). split; [|done]. split; [done|]. split; [done|]. split; [|done].
  eapply Forall_impl; [exact H3|]. intros [q|o]; cbn [value_ok]; intros [Hv Ho]; (split; [|done]);
    unfold data_version; case_leb; unfold MQTTVERSION_5, MQTTVERSION_3_1_1 in *; lia.
Qed.

(** What the second reading makes of it. *)
Definition full_command (v : Z) (c : MQTTAsync_command) : MQTTAsync_command :=
  with_props (blank_command (token c) (if type c =? PUBLISH then details c else first_details v (details c)))
    (if MQTTVERSION_5 <=? v then cmd_properties c else MQTTProperties_initializer).

Lemma type_s32 c : is_s32 (type c).
Proof. unfold type. destruct (details c); done. Qed.

Lemma record_head v c : command_record v c =
  [] ++ int_bytes (type c) ++ int_bytes (token c) ++ details_bytes v (details c)
     ++ (if MQTTVERSION_5 <=? v then write_props (cmd_properties c) else []).
Proof. done. Qed.

(** The type and the token, which every reading begins with. *)
Lemma head_ok {B : Type} v c (k : Z → Z → reader B) : is_s32 (token c) →
  (ty ← read_int; tok ← read_int; k ty tok) (command_record v c) 0 =
    k (type c) (token c) (command_record v c) (len (int_bytes (type c) ++ int_bytes (token c))).
Proof.
  intros Ht. change 0 with (len (@nil Z)) at 1.
  rewrite (bind_at _ _ _ [] _ _ _ (record_head v c) (reads_int _ (type_s32 c) _ _)).
  rewrite (bind_at _ _ _ (int_bytes (type c)) _ _ _ (record_head v c) (reads_int _ Ht _ _)). done.
Qed.

Lemma record_body v c : command_record v c =
  (int_bytes (type c) ++ int_bytes (token c)) ++ details_bytes v (details c)
     ++ (if MQTTVERSION_5 <=? v then write_props (cmd_properties c) else []).
Proof. by rewrite record_head, <-app_assoc. Qed.

Lemma first_reading v c : command_ok v c →
  MQTTAsync_restoreCommand true (command_record v c) (data_version v) None = Some (Some (first_command v c)).
Proof.
  intros [Ht Hd _]. unfold MQTTAsync_restoreCommand, restore_reader. rewrite head_ok by done.
  destruct (details_ver v _ Hd) as (Hd' & Hb & Hf). pose proof (record_body v c) as E.
  unfold type in *. destruct (details c) as [|topics qoss opts optlist|topics|name plen data q r|] eqn:Ed; try done; cbn [type_of_details Z.eqb Pos.eqb].
  - pose proof (reads_map _ (λ d, Some (blank_command (token c) d)) _ _ (reads_subscribe _ _ _ _ _ Hd')) as H.
    rewrite Hb, Hf in H. rewrite E, H. unfold first_command. by rewrite Ed.
  - assert (H : reads (d ← read_unsubscribe; mret (Some (blank_command (token c) d))) (details_bytes v (DUnsubscribe topics))
        (Some (blank_command (token c) (DUnsubscribe topics)))).
    { destruct Hd as [Hts Hn]. apply (reads_map _ (λ d, Some (blank_command (token c) d))). unfold read_unsubscribe. cbn [details_bytes].
      eapply reads_bind; [apply reads_int; unfold is_s32; lia|]. rewrite Nat2Z.id.
      apply (reads_map _ DUnsubscribe), reads_unsub, Hts. }
    rewrite E, H. unfold first_command. by rewrite Ed.
  - pose proof (reads_map _ (λ d, Some (blank_command (token c) d)) _ _ (reads_publish v false _ _ _ _ _ Hd)) as H.
    rewrite E, H. unfold first_command. by rewrite Ed.
Qed.

Lemma props_read v c pos : command_ok v c → MQTTVERSION_5 ≤ v →
  pos = len ((int_bytes (type c) ++ int_bytes (token c)) ++ details_bytes v (details c)) →
  ∃ pos', MQTTProperties_read MQTTProperties_initializer (len (command_record v c)) (command_record v c) pos =
    Some ((1, cmd_properties c), pos').
Proof.
  intros [_ _ Hp] Hv ->. destruct (Hp Hv) as [Hok Hlt]. eexists.
  assert (E : command_record v c = ((int_bytes (type c) ++ int_bytes (token c)) ++ details_bytes v (details c))
    ++ (MQTTPacket_encode (length_ (cmd_properties c)) ++ props_bytes (array (cmd_properties c))) ++ []).
  { rewrite record_body, (proj2 (Z.leb_le _ _)), app_nil_r by done. unfold write_props. by rewrite (write_ok _ Hok), <-!app_assoc. }
  rewrite E at 2. apply read_ok; [done|done|]. rewrite E. lens.
Qed.

(** The end of the second reading, the cursor being after the details. *)
Lemma second_end v c c0 : command_ok v c → cmd_properties c0 = MQTTProperties_initializer →
  ∃ pos', (if MQTTVERSION_5 <=? data_version v then
     '(rc, ps) ← MQTTProperties_read (cmd_properties c0) (len (command_record v c));
     mret (if rc =? 1 then Some (with_props c0 ps) else None)
   else mret (Some c0)) (command_record v c)
     (len ((int_bytes (type c) ++ int_bytes (token c)) ++ details_bytes v (details c))) =
   Some (Some (with_props c0 (if MQTTVERSION_5 <=? v then cmd_properties c else MQTTProperties_initializer)), pos').
Proof.
  intros Hok Hc0. rewrite data_version_5, Hc0. destruct (Z.leb_spec MQTTVERSION_5 v) as [Hv|Hv].
  - destruct (props_read v c _ Hok Hv eq_refl) as [pos' E]. unfold mbind, reader_bind. rewrite E. cbn [Z.eqb Pos.eqb].
    by exists pos'.
  - eexists. rewrite <-Hc0. unfold mret, reader_ret. by destruct c0.
Qed.

(** The second reading of a PUBLISH, whatever was known of the command. *)
Lemma publish_reading v c c0 : command_ok v c → type c = PUBLISH → cmd_properties c0 = MQTTProperties_initializer →
  MQTTAsync_restoreCommand true (command_record v c) (data_version v) (Some c0) =
    Some (Some (with_props (with_details (with_token c0 (token c)) (details c))
      (if MQTTVERSION_5 <=? v then cmd_properties c else MQTTProperties_initializer))).
Proof.
  intros Hok Hp Hc0. destruct (Hok) as [Ht Hd _]. unfold MQTTAsync_restoreCommand, restore_reader. rewrite head_ok by done.
  pose proof (record_body v c) as E. rewrite Hp in E |- *. cbn [Z.eqb Pos.eqb SUBSCRIBE UNSUBSCRIBE PUBLISH].
  pose proof Hp as Hp'. unfold type in Hp. destruct (details c) as [| | |name plen data q r|] eqn:Ed; try done.
  pose proof (reads_map _ (λ d, Some (with_details (with_token c0 (token c)) d)) _ _ (reads_publish v true _ _ _ _ _ Hd)) as H.
  erewrite bind_at; [|exact E|apply H].
  destruct (second_end v c (with_details (with_token c0 (token c)) (DPublish name plen data q r)) Hok Hc0) as [pos' H2].
  rewrite Hp', Ed in H2. rewrite H2. done.
Qed.

Lemma second_reading v c : command_ok v c → type c = PUBLISH ∨ v < MQTTVERSION_5 →
  MQTTAsync_restoreCommand true (command_record v c) (data_version v) (Some (first_command v c)) =
    Some (Some (full_command v c)).
Proof.
  intros Hok Hkind. destruct (Z.eq_dec (type c) PUBLISH) as [Hp|Hp].
  { rewrite publish_reading by done. unfold full_command. by rewrite Hp. }
  destruct Hkind as [Hk|Hv]; [done|].
  destruct (Hok) as [Ht Hd _]. unfold MQTTAsync_restoreCommand, restore_reader. rewrite head_ok by done.
  unfold full_command. destruct (details c) as [|topics qoss opts optlist|topics|name plen data q r|] eqn:Ed; try done;
    unfold type in *; rewrite Ed in *; cbn [type_of_details Z.eqb Pos.eqb SUBSCRIBE UNSUBSCRIBE PUBLISH] in *; [| |done].
  all: rewrite !data_version_5, !(proj2 (Z.leb_gt _ _)) by done;
    unfold first_command; rewrite Ed; cbn [first_details]; by try destruct (v <? MQTTVERSION_5).
Qed.

(** For MQTT 5 the properties of a SUBSCRIBE or UNSUBSCRIBE are read from the
    number of its topics. *)
Definition stray_props : MQTTProperties := mkProps [mkProp 0 VUninit] 10 1 true.

Lemma second_reading_v5 v c : command_ok v c → MQTTVERSION_5 ≤ v →
  (∃ t opts, details c = DSubscribe [t] [] opts []) ∨ (∃ t, details c = DUnsubscribe [t]) →
  MQTTAsync_restoreCommand true (command_record v c) (data_version v) (Some (first_command v c)) =
    Some (Some (with_props (first_command v c) stray_props)).
Proof.
  intros Hok Hv Hkind. destruct (Hok) as [Ht Hd _]. unfold MQTTAsync_restoreCommand, restore_reader. rewrite head_ok by done.
  rewrite !data_version_5, !(proj2 (Z.leb_le _ _)) by done.
  assert (E : ∃ rest, command_record v c = int_bytes (type c) ++ int_bytes (token c) ++ [1; 0; 0; 0] ++ rest).
  { destruct Hkind as [(t & opts & Ed)|(t & Ed)]; unfold command_record; rewrite Ed; cbn [details_bytes];
      change (int_bytes (len [t])) with [1; 0; 0; 0]; rewrite <-app_assoc; by eexists. }
  destruct E as [rest ->].
  assert (Hr : MQTTProperties_read MQTTProperties_initializer
     (len (int_bytes (type c) ++ int_bytes (token c) ++ [1; 0; 0; 0] ++ rest))
     (int_bytes (type c) ++ int_bytes (token c) ++ [1; 0; 0; 0] ++ rest)
     (len (int_bytes (type c) ++ int_bytes (token c))) = Some ((1, stray_props), 10)).
  { unfold MQTTProperties_read, tell, mbind, reader_bind. rewrite (proj2 (Z.ltb_lt _ _)) by (unfold int_bytes; lens).
    reflexivity. }
  assert (Hc : cmd_properties (first_command v c) = MQTTProperties_initializer) by done.
  destruct Hkind as [(t & opts & Ed)|(t & Ed)]; unfold type in *; unfold first_command in *; rewrite Ed in *;
    cbn [type_of_details Z.eqb Pos.eqb SUBSCRIBE UNSUBSCRIBE first_details] in *.
  - destruct (v <? MQTTVERSION_5); cbn [details blank_command with_token cmd_properties];
      unfold mbind, reader_bind, mret, reader_ret in *; cbn [with_token cmd_properties blank_command details]; rewrite Hr; reflexivity.
  - unfold mbind, reader_bind, mret, reader_ret in *; cbn [with_token cmd_properties blank_command details]; rewrite Hr; reflexivity.
Qed.

(** ** Keys *)

Lemma key_version_stem v n : key_version (command_stem v ++ dec n) = data_version v.
Proof. unfold key_version, command_stem, data_version. by destruct (MQTTVERSION_5 <=? v). Qed.

Lemma is_command_key_stem v n : is_command_key (command_stem v ++ dec n) = true.
Proof. unfold is_command_key, command_stem. by destruct (MQTTVERSION_5 <=? v). Qed.

Lemma key_number_stem v n : 0 ≤ n < 2 ^ 31 → key_number (command_stem v ++ dec n) = Some n.
Proof.
  intros Hn. unfold key_number, command_stem.
  change PERSISTENCE_V5_COMMAND_KEY with [99; 53; 45]. change PERSISTENCE_COMMAND_KEY with [99; 45].
  destruct (MQTTVERSION_5 <=? v); cbn -[atoi dec]; by rewrite drop_0, atoi_dec.
Qed.

Lemma command_key_good v n : 0 ≤ n → good_key (command_stem v ++ dec n).
Proof.
  intros Hn. unfold command_stem. destruct (_ <=? _); (apply key_good; [apply (bool_decide_eq_true_1 _); vm_compute; reflexivity|done]).
Qed.

Lemma next_seqno_range n : 0 ≤ n < PERSISTENCE_SEQNO_LIMIT → 0 ≤ next_seqno n < PERSISTENCE_SEQNO_LIMIT.
Proof. unfold next_seqno, PERSISTENCE_SEQNO_LIMIT. intros Hn. rewrite u32_small by (unfold is_u32; lia). case_leb. Qed.

Lemma command_key_fits v n : 0 ≤ n < PERSISTENCE_SEQNO_LIMIT → command_key (command_stem v) n = Some (command_stem v ++ dec n).
Proof.
  intros Hn. unfold PERSISTENCE_SEQNO_LIMIT in Hn. apply (key_in_fits _ _ _ 6); [lia|lia|].
  unfold command_stem. by destruct (MQTTVERSION_5 <=? v).
Qed.

Section RoundTrip.
Context {S : Type} `{!Store S, !StoreLaws S}.

(** What [MQTTAsync_persistCommand] offers to the store. *)
Lemma persistCommand_ok beforeWrite v c seqno n (s : S) : command_ok v c → 0 ≤ n < PERSISTENCE_SEQNO_LIMIT →
  ∃ bufs, concat bufs = command_record v c ∧
    MQTTAsync_persistCommand beforeWrite v true true c seqno n s =
      (let '(_, bufs) := before_write beforeWrite bufs in
       let '(rc, s') := pput (command_stem v ++ dec (next_seqno n)) bufs s in
       Some (rc, next_seqno n, next_seqno n, s')).
Proof.
  intros [_ Hd Hp] Hn. unfold MQTTAsync_persistCommand. destruct (command_bufs_ok v c Hd) as (bufs & -> & Hc).
  cbn [mbind option_bind negb]. rewrite andb_false_r, command_key_fits by by apply next_seqno_range.
  destruct (Z.leb_spec MQTTVERSION_5 v) as [Hv|Hv].
  - destruct (props_buf_ok (cmd_properties c) (Hp Hv)) as (rc & -> & _).
    change (snd <$> Some (rc, [write_props (cmd_properties c)])) with (Some [write_props (cmd_properties c)]).
    cbn [mbind option_bind]. eexists. split; [|reflexivity]. rewrite concat_app, Hc. cbn [concat].
    rewrite app_nil_r. unfold command_record. rewrite (proj2 (Z.leb_le _ _)) by done. by rewrite <-!app_assoc.
  - cbn [mbind option_bind]. eexists. split; [|reflexivity]. rewrite app_nil_r, Hc.
    unfold command_record. rewrite (proj2 (Z.leb_gt _ _)) by done. by rewrite app_nil_r.
Qed.

(** A command given to the store by [MQTTAsync_persistCommand] is read again
    under the key of the next sequence number: the first reading of
    [MQTTAsync_restoreCommand] gives the command without the topic and payload
    of a PUBLISH (and, for MQTT 5, without the QoS of a SUBSCRIBE, which are not
    kept), the second one everything that is needed to send it, properties
    included, if it is a PUBLISH or the client is not an MQTT 5 client. *)
Theorem command_roundtrip v c seqno n (s : S) :
  store_ok s → command_ok v c → 0 ≤ n < PERSISTENCE_SEQNO_LIMIT →
  let k := command_stem v ++ dec (next_seqno n) in
  ∃ rc s', MQTTAsync_persistCommand None v true true c seqno n s = Some (rc, next_seqno n, next_seqno n, s') ∧
    (rc = 0 → ∀ d, pget k s' = (0, d) →
       MQTTAsync_restoreCommand true d (key_version k) None = Some (Some (first_command v c)) ∧
       (type c = PUBLISH ∨ v < MQTTVERSION_5 →
        MQTTAsync_restoreCommand true d (key_version k) (Some (first_command v c)) = Some (Some (full_command v c)))).
Proof.
  intros Hs Hc Hn k. destruct (persistCommand_ok None v c seqno n s Hc Hn) as (bufs & Hb & E).
  rewrite E. cbn [before_write]. fold k. pose proof (next_seqno_range n Hn) as Hr.
  pose proof (put_rc k bufs s Hs (command_key_good v _ (proj1 Hr))) as Hput.
  destruct (pput k bufs s) as [rc s']. destruct Hput as [Hs' Hput]. exists rc, s'. split; [done|]. intros -> d Hd.
  destruct Hput as [[_ Hput]|[? _]]; [|done].
  apply get_rc in Hd; [|done|apply command_key_good; lia]. rewrite Hput, lookup_insert_eq in Hd. injection Hd as <-.
  unfold k. rewrite Hb, key_version_stem. split; [by apply first_reading|]. intros. by apply second_reading.
Qed.
End RoundTrip.

(** ** The order of the restored commands *)

Lemma insert_after_last a o x l : a ∉ l.*1 → insert_after a x (l ++ [(a, o)]) = Some (l ++ [(a, o); x]).
Proof.
  induction l as [|y l IH]; intros Ha; cbn [app insert_after fst].
  - by rewrite decide_True.
  - rewrite fmap_cons in Ha. apply not_elem_of_cons in Ha as [Hy Ha]. rewrite decide_False by done. by rewrite IH.
Qed.

(** A command whose number is larger than the last one goes to the end of the
    list, without a search. *)
Lemma insertInOrder_append l a o q arr n last :
  a ∉ l.*1 → 0 ≤ n → n + 1 < len arr → keyloc_at arr n = Some (mkKeyloc last a) → last < s32 (cmd_seqno q) →
  MQTTAsync_insertInOrder (l ++ [(a, o)]) q arr (n + 1) =
    Some ((l ++ [(a, o)]) ++ [slot_of q], <[Z.to_nat (n + 1) := Some (mkKeyloc (s32 (cmd_seqno q)) (addr q))]> arr).
Proof.
  intros Ha Hn Hl Hk Hlt. unfold MQTTAsync_insertInOrder. cbv zeta. rewrite (proj2 (Z.ltb_lt 0 _)) by lia.
  replace (n + 1 - 1) with n by lia. rewrite Hk. cbn [mbind option_bind k_seqno].
  rewrite (proj2 (Z.ltb_lt last _)) by done. cbn [mbind option_bind]. rewrite Hk. cbn [mbind option_bind k_elem].
  rewrite insert_after_last by done. cbn [mbind option_bind]. rewrite (proj2 (Z.ltb_lt _ _)) by lia.
  unfold keyloc_insert. rewrite (proj2 (Z.ltb_ge _ _)) by lia. by rewrite <-app_assoc.
Qed.

Lemma new_addr_fresh l : new_addr l ∉ l.*1.
Proof. unfold new_addr. pose proof (is_fresh (list_to_set (C := gset positive) l.*1)) as H. by rewrite elem_of_list_to_set in H. Qed.

Lemma keyloc_at_lookup arr i : 0 ≤ i → keyloc_at arr i = mjoin (arr !! Z.to_nat i).
Proof. intros Hi. unfold keyloc_at. by rewrite (proj2 (Z.leb_le _ _)). Qed.

Lemma mapM_numbers keys ns : Forall2 (λ k n, key_number k = Some n) keys ns →
  mapM (λ k, n ← key_number k; Some (n, k)) keys = Some (zip ns keys).
Proof. induction 1 as [|k n keys ns Hk _ IH]; [done|]. cbn [mapM]. rewrite Hk. cbn [mbind option_bind]. rewrite IH. done. Qed.

Definition number_order (a b : list Z) : Prop :=
  ∃ n n', key_number a = Some n ∧ key_number b = Some n' ∧ n ≤ n'.

Lemma numbers_sorted l : StronglySorted number_le l → Forall (λ x, key_number x.2 = Some x.1) l →
  StronglySorted number_order l.*2.
Proof.
  induction 1 as [|x l Hl IH Hx]; intros Hn; [constructor|]. apply Forall_cons in Hn as [Hn Hnl]. rewrite fmap_cons.
  constructor; [by apply IH|]. apply Forall_fmap. rewrite Forall_forall in Hx, Hnl |- *.
  intros y Hy. exists x.1, y.1. split; [done|]. split; [by apply Hnl|by apply Hx].
Qed.

(** [sort_keys] orders the keys by their numbers. *)
Lemma sort_keys_ok keys : Forall (λ k, is_Some (key_number k)) keys →
  ∃ ks, sort_keys keys = Some ks ∧ ks ≡ₚ keys ∧ StronglySorted number_order ks.
Proof.
  intros Hk. assert (Hns : ∃ ns, Forall2 (λ k n, key_number k = Some n) keys ns).
  { induction Hk as [|k keys [n Hn] _ [ns IH]]; [by exists []|]. exists (n :: ns). by constructor. }
  destruct Hns as [ns Hns]. unfold sort_keys. rewrite (mapM_numbers keys ns) by done. cbn [mbind option_bind].
  pose proof (merge_sort_Permutation number_le (zip ns keys)) as Hp.
  exists (merge_sort number_le (zip ns keys)).*2. split; [done|]. split.
  - rewrite Hp, snd_zip; [done|]. apply Forall2_length in Hns. lia.
  - assert (Hs : StronglySorted number_le (merge_sort number_le (zip ns keys))).
    { apply (StronglySorted_merge_sort number_le). }
    assert (Hn : Forall (λ x, key_number x.2 = Some x.1) (merge_sort number_le (zip ns keys))).
    { rewrite Hp. clear -Hns. induction Hns; [constructor|]. cbn [zip zip_with]. by constructor. }
    by apply numbers_sorted.
Qed.

(** ** Restoring the commands of a client *)

Section RestoreRun.
Context {S : Type} `{!Store S, !StoreLaws S}.
Context (afterRead : option (list Z → Z * list Z)).
Context (v : Z) (m : positive).

Definition key_of (n : Z) : list Z := command_stem v ++ dec n.

(** What the store holds for the commands [Q], by sequence number; it may hold
    records of other kinds. *)
Definition commands_stored (Q : gmap Z MQTTAsync_command) (s : S) : Prop :=
  store_ok s ∧
  (∀ k, is_Some (contents s !! k) → is_Some (key_number k) ∧
     (is_command_key k = true → ∃ n, is_Some (Q !! n) ∧ k = key_of n)) ∧
  (∀ n c, Q !! n = Some c → 0 ≤ n < PERSISTENCE_SEQNO_LIMIT ∧ command_ok v c ∧
     ∃ d, contents s !! key_of n = Some d ∧ after_read afterRead (0, d) = (0, command_record v c)).

(** The command found for the record of [n]. *)
Definition restored_from (Q : gmap Z MQTTAsync_command) (n : Z) (q : MQTTAsync_queuedCommand) : Prop :=
  ∃ c, Q !! n = Some c ∧ q = mkQueued (addr q) (first_command v c) m n true (Some (key_of n)).

(** The state before the [i]-th key: the last element of the list is the one in
    the [i]-th entry of [keyloc_array]. *)
Record inv (i : Z) (st : restoring) (last : Z) : Prop := {
  inv_list : ∃ l a o, r_list st = l ++ [(a, o)] ∧ a ∉ l.*1 ∧ keyloc_at (r_arr st) i = Some (mkKeyloc last a);
  inv_index : 0 ≤ i
}.

Lemma restore_one_ok Q s i st last n c :
  commands_stored Q s → Q !! n = Some c → inv i st last → last < n → i + 1 < len (r_arr st) →
  ∃ st' q, restore_one true m i (key_of n) (command_record v c) st = Some st' ∧ inv (i + 1) st' n ∧
    restored_from Q n q ∧ r_list st' = r_list st ++ [slot_of q] ∧
    r_arr st' = <[Z.to_nat (i + 1) := Some (mkKeyloc n (addr q))]> (r_arr st) ∧
    r_seqno st' = Z.max (r_seqno st) n ∧
    r_buffered st' = r_buffered st + (if type c =? PUBLISH then 1 else 0).
Proof.
  intros HQ Hn [(l & a & o & El & Ha & Hk) Hi] Hlt Hlen.
  destruct (proj2 (proj2 HQ) n c Hn) as (Hnr & Hok & _). unfold PERSISTENCE_SEQNO_LIMIT in Hnr.
  unfold restore_one, key_of. rewrite key_version_stem, first_reading by done. cbn [mbind option_bind].
  rewrite key_number_stem by lia. cbn [mbind option_bind].
  rewrite (u32_small n) by (unfold is_u32; lia).
  set (q := mkQueued (new_addr (r_list st)) (first_command v c) m n true (Some (command_stem v ++ dec n))).
  assert (Hq : s32 (cmd_seqno q) = n) by (apply s32_small; cbn; lia).
  rewrite El, (insertInOrder_append l a o q (r_arr st) i last) by (try done; lia). rewrite <-El. cbn [mbind option_bind].
  assert (Ht : type (first_command v c) = type c).
  { unfold type, first_command. cbn [details blank_command]. destruct (details c); cbn; try done. by destruct (v <? MQTTVERSION_5). }
  rewrite Ht. eexists _, q. split; [reflexivity|]. cbn [r_list r_arr r_seqno r_buffered]. rewrite Hq.
  assert (Hkl : keyloc_at (<[Z.to_nat (i + 1) := Some (mkKeyloc n (addr q))]> (r_arr st)) (i + 1) = Some (mkKeyloc n (addr q))).
  { rewrite keyloc_at_lookup, list_lookup_insert_eq by lia. done. }
  split; [|split].
  - split; cbn [r_list r_arr]; [|lia]. exists (r_list st), (addr q), (Some q). split; [done|]. split; [apply new_addr_fresh|done].
  - exists c. done.
  - split_and!; [done|done|done|]. destruct (_ =? _); lia.
Qed.

Lemma stored_get Q s n c rc d : commands_stored Q s → Q !! n = Some c →
  after_read afterRead (pget (key_of n) s) = (rc, d) → rc = 0 → pget (key_of n) s = (0, snd (pget (key_of n) s)) →
  d = command_record v c.
Proof.
  intros HQ Hn E -> E'. destruct (proj2 (proj2 HQ) n c Hn) as (Hnr & Hok & d' & Hd' & Haf).
  rewrite E' in E. apply get_rc in E'; [|apply HQ|apply command_key_good; lia]. congruence.
Qed.

(** Reading the record of a stored command succeeds with that record, or fails. *)
Lemma stored_read Q s n c : commands_stored Q s → Q !! n = Some c →
  ∃ rc d, after_read afterRead (pget (key_of n) s) = (rc, d) ∧ (rc = 0 → d = command_record v c).
Proof.
  intros HQ Hn. destruct (pget (key_of n) s) as [rc d] eqn:Hget. destruct (Z.eqb_spec rc 0) as [->|Hrc].
  - destruct (proj2 (proj2 HQ) n c Hn) as (Hnr & Hok & d' & Hd' & Haf).
    apply get_rc in Hget; [|apply HQ|apply command_key_good; lia]. assert (d = d') as -> by congruence.
    rewrite Haf. by exists 0, (command_record v c).
  - exists rc, d. split; [|done]. unfold after_read. by rewrite (proj2 (Z.eqb_neq rc 0)).
Qed.

(** What the restored commands do to the two counters. *)
Definition seqno_after (seqno : Z) (qs : list MQTTAsync_queuedCommand) : Z := foldl Z.max seqno (cmd_seqno <$> qs).
Definition publishes (qs : list MQTTAsync_queuedCommand) : Z :=
  len (filter (λ q, type (command q) = PUBLISH) qs).

Lemma restore_loop_sorted Q s ns : commands_stored Q s → Forall (λ n, is_Some (Q !! n)) ns →
  ∀ i st last, StronglySorted Z.lt (last :: ns) → inv i st last → i + len ns < len (r_arr st) →
  ∃ rc st', restore_commands_loop afterRead true m i (key_of <$> ns) st s = Some (rc, st') ∧
    (rc = 0 → ∃ qs, Forall2 (restored_from Q) ns qs ∧ r_list st' = r_list st ++ (slot_of <$> qs) ∧
       r_seqno st' = seqno_after (r_seqno st) qs ∧ r_buffered st' = r_buffered st + publishes qs).
Proof.
  intros HQ. induction ns as [|n ns IH]; intros Hns i st last Hs Hinv Hlen.
  { exists 0, st. split; [done|]. intros _. exists []. split_and!; [constructor|by rewrite app_nil_r|done|].
    unfold publishes. rewrite filter_nil. cbn [length]. lia. }
  apply Forall_cons in Hns as [[c Hn] Hns]. rewrite fmap_cons. cbn [restore_commands_loop].
  unfold key_of at 1. rewrite is_command_key_stem. cbn [negb].
  destruct (stored_read Q s n c HQ Hn) as (rc & d & Er & Hd). rewrite Er.
  destruct (Z.eqb_spec rc 0) as [->|Hrc]; [|by exists rc, st]. rewrite (Hd eq_refl).
  apply StronglySorted_inv in Hs as [Hs Hlast]. apply Forall_cons in Hlast as [Hlt _].
  destruct (restore_one_ok Q s i st last n c HQ Hn Hinv Hlt ltac:(cbn [length] in Hlen; lia))
    as (st' & q & E & Hinv' & Hq & El & Ea & Eseq & Eb). rewrite E. cbn [mbind option_bind].
  destruct (IH Hns (i + 1) st' n Hs Hinv') as (rc & st'' & E' & H).
  { rewrite Ea, length_insert. cbn [length] in Hlen. lia. }
  exists rc, st''. split; [exact E'|]. intros Hrc. destruct (H Hrc) as (qs & Hqs & El' & Eseq' & Eb').
  assert (Ht : type (command q) = type c).
  { destruct Hq as (c' & Hc' & Eq). rewrite Hn in Hc'. injection Hc' as <-. apply (f_equal command) in Eq. rewrite Eq. cbn [command].
    unfold type, first_command. cbn [details blank_command]. destruct (details c); cbn; try done. by destruct (v <? MQTTVERSION_5). }
  exists (q :: qs). split_and!; [by constructor| | |].
  - rewrite El', El, fmap_cons, <-app_assoc. done.
  - rewrite Eseq', Eseq. unfold seqno_after. rewrite fmap_cons. cbn [foldl]. destruct Hq as (? & _ & Eq). apply (f_equal cmd_seqno) in Eq. by rewrite Eq.
  - rewrite Eb', Eb. unfold publishes. rewrite filter_cons, Ht.
    destruct (Z.eqb_spec (type c) PUBLISH); [rewrite decide_True by done; cbn [length]|rewrite decide_False by done]; lia.
Qed.

Lemma key_of_inj n n' : 0 ≤ n < PERSISTENCE_SEQNO_LIMIT → 0 ≤ n' < PERSISTENCE_SEQNO_LIMIT → key_of n = key_of n' → n = n'.
Proof. unfold PERSISTENCE_SEQNO_LIMIT. intros Hn Hn' E%app_inv_head. apply dec_inj in E; lia. Qed.

Lemma stored_range Q s n : commands_stored Q s → is_Some (Q !! n) → 0 ≤ n < PERSISTENCE_SEQNO_LIMIT.
Proof. intros HQ [c Hc]. by destruct (proj2 (proj2 HQ) n c Hc). Qed.

(** Sorted keys that are all keys of commands: their numbers. *)
Lemma command_numbers Q s ks : commands_stored Q s → StronglySorted number_order ks → NoDup ks →
  (∀ k, k ∈ ks → ∃ n, is_Some (Q !! n) ∧ k = key_of n) →
  ∃ ns, ks = key_of <$> ns ∧ StronglySorted Z.lt ns ∧ Forall (λ n, is_Some (Q !! n)) ns.
Proof.
  intros HQ Hs Hnd Hk. induction Hs as [|k ks Hs IH Hle]; [by exists []; repeat constructor|].
  apply NoDup_cons in Hnd as [Hni Hnd].
  destruct (IH Hnd ltac:(intros; apply Hk; by right)) as (ns & -> & Hs' & Hns).
  destruct (Hk k ltac:(left)) as (n & Hn & ->). exists (n :: ns). split; [done|]. split; [|by constructor].
  constructor; [done|]. apply Forall_forall. intros n' Hn'. pose proof (proj1 (Forall_forall _ _) Hle) as Hle'. pose proof (proj1 (Forall_forall _ _) Hns) as Hns'.
  assert (Hin : key_of n' ∈ key_of <$> ns) by (apply list_elem_of_fmap; by exists n').
  destruct (Hle' _ Hin) as (a & b & Ha & Hb & Hab). pose proof (stored_range Q s n HQ Hn). pose proof (stored_range Q s n' HQ (Hns' _ Hn')).
  unfold PERSISTENCE_SEQNO_LIMIT in *. unfold key_of in Ha, Hb. rewrite key_number_stem in Ha, Hb by lia.
  assert (n ≠ n') by (intros ->; done). simplify_eq. lia.
Qed.

Lemma command_numbers_perm Q s ns : commands_stored Q s → StronglySorted Z.lt ns →
  Forall (λ n, is_Some (Q !! n)) ns → (∀ n, is_Some (Q !! n) → key_of n ∈ key_of <$> ns) → ns ≡ₚ (map_to_list Q).*1.
Proof.
  intros HQ Hs Hns Hall. apply NoDup_Permutation.
  - clear -Hs. induction Hs as [|n ns Hs IH Hlt]; constructor; [|done]. rewrite Forall_forall in Hlt. intros Hin. specialize (Hlt _ Hin). lia.
  - apply NoDup_fst_map_to_list.
  - rewrite Forall_forall in Hns. intros n. rewrite list_elem_of_fmap. split.
    + intros Hn. destruct (Hns _ Hn) as [c Hc]. exists (n, c). split; [done|by apply elem_of_map_to_list].
    + intros ([n' c] & -> & Hc%elem_of_map_to_list). cbn [fst].
      destruct (proj1 (list_elem_of_fmap _ _ _) (Hall n' ltac:(by exists c))) as (n & E & Hin).
      apply key_of_inj in E as ->; [done|by apply (stored_range Q s); [|exists c]|apply (stored_range Q s); [done|by apply Hns]].
Qed.

Lemma inv_start commands seqno buffered n : 
  inv 0 (mkRestoring (commands ++ [(new_addr commands, None)]) (Some (mkKeyloc (-1) (new_addr commands)) :: replicate n None) seqno buffered) (-1).
Proof. split; [|lia]. exists commands, (new_addr commands), None. split; [done|]. split; [apply new_addr_fresh|done]. Qed.

Lemma stored_numbers Q s keys : commands_stored Q s → (∀ k, k ∈ keys ↔ is_Some (contents s !! k)) →
  Forall (λ k, is_Some (key_number k)) keys.
Proof. intros HQ Hk. apply Forall_forall. intros k Hin%Hk. by apply (proj1 (proj2 HQ)). Qed.

Lemma restoreCommands_ok Q s commands seqno buffered :
  commands_stored Q s → Q ≠ ∅ → (∀ k, is_Some (contents s !! k) → is_command_key k = true) →
  ∃ rc l n b, MQTTAsync_restoreCommands afterRead true m true commands seqno buffered s = Some (rc, l, n, b) ∧
    (rc = 0 → ∃ qs, l = tail (commands ++ (new_addr commands, None) :: (slot_of <$> qs)) ∧
       StronglySorted Z.lt (cmd_seqno <$> qs) ∧ cmd_seqno <$> qs ≡ₚ (map_to_list Q).*1 ∧
       Forall (λ q, restored_from Q (cmd_seqno q) q) qs ∧
       n = seqno_after seqno qs ∧ b = buffered + publishes qs).
Proof.
  intros HQ Hne Hall. unfold MQTTAsync_restoreCommands. cbn [negb].
  destruct (pkeys s) as [rc keys] eqn:Hkeys. destruct (Z.eqb_spec rc 0) as [->|Hrc]; cbn [negb orb]; [|by exists rc, commands, seqno, buffered].
  apply keys_rc in Hkeys as [Hnd Hks]; [|apply HQ]. rewrite bool_decide_eq_false_2.
  2: { intros ->. destruct (map_choose Q Hne) as (n & c & Hn). destruct (proj2 (proj2 HQ) n c Hn) as (_ & _ & d & Hd & _).
    exact (not_elem_of_nil (key_of n) (proj2 (Hks _) ltac:(by exists d))). }
  destruct (sort_keys_ok keys (stored_numbers Q s keys HQ Hks)) as (ks & -> & Hp & Hsort). cbn [mbind option_bind].
  destruct (command_numbers Q s ks HQ Hsort) as (ns & -> & Hlt & Hns).
  { by rewrite Hp. } { intros k Hk. rewrite Hp, Hks in Hk. apply (proj1 (proj2 HQ) k Hk), Hall, Hk. }
  assert (Hpos : Forall (Z.lt (-1)) ns).
  { eapply Forall_impl; [exact Hns|]. cbn beta. intros n Hn. pose proof (stored_range Q s n HQ Hn). lia. }
  destruct (restore_loop_sorted Q s ns HQ Hns 0 _ (-1) (SSorted_cons _ Hlt Hpos) (inv_start commands seqno buffered (length (key_of <$> ns))))
    as (rc & st & E & H).
  { cbn [r_arr length]. rewrite length_replicate, length_fmap. lia. }
  rewrite E. cbn [mbind option_bind]. eexists rc, _, _, _. split; [reflexivity|]. intros Hrc.
  destruct (H Hrc) as (qs & Hqs & El & Eseq & Eb). exists qs.
  assert (Hq : cmd_seqno <$> qs = ns).
  { clear -Hqs. induction Hqs as [|n q ns qs (c & _ & E) _ IH]; [done|]. rewrite fmap_cons, IH. by apply (f_equal cmd_seqno) in E as ->. }
  rewrite Hq. split; [by rewrite El; cbn [r_list]; rewrite <-app_assoc|]. split; [done|]. split; [|split; [|done]].
  - apply (command_numbers_perm Q s); [done..|]. intros n [c Hn]. rewrite Hp, Hks.
    destruct (proj2 (proj2 HQ) n c Hn) as (_ & _ & d & Hd & _). by exists d.
  - clear -Hqs. induction Hqs as [|n q ns qs Hq _ IH]; constructor; [|done]. destruct Hq as (c & Hc & E).
    pose proof (f_equal cmd_seqno E) as En. cbn [cmd_seqno] in En. rewrite En. by exists c.
Qed.

(** When all the records of the store are commands, a restart queues them in
    the order of their sequence numbers, whatever the order in which the store
    lists them, each as it is read for the first time, and counts the PUBLISH
    commands; the next sequence number follows the largest one.  They come after
    the commands already queued by other clients, the first of which is removed
    from the list in place of the sentinel. *)
Theorem restoreCommands_order Q s commands seqno buffered :
  commands_stored Q s → Q ≠ ∅ → (∀ k, is_Some (contents s !! k) → is_command_key k = true) →
  ∃ rc l n b, MQTTAsync_restoreCommands afterRead true m true commands seqno buffered s = Some (rc, l, n, b) ∧
    (rc = 0 → ∃ qs, l = tail (commands ++ (new_addr commands, None) :: (slot_of <$> qs)) ∧
       StronglySorted Z.lt (cmd_seqno <$> qs) ∧ cmd_seqno <$> qs ≡ₚ (map_to_list Q).*1 ∧
       Forall (λ q, restored_from Q (cmd_seqno q) q) qs ∧
       n = seqno_after seqno qs ∧ b = buffered + publishes qs).
Proof. apply restoreCommands_ok. Qed.

Lemma key_number_of Q s n : commands_stored Q s → is_Some (Q !! n) → key_number (key_of n) = Some n.
Proof. intros HQ Hn. pose proof (stored_range Q s n HQ Hn). unfold PERSISTENCE_SEQNO_LIMIT in *. apply key_number_stem. lia. Qed.

(** From an entry of [keyloc_array] that was not written, no command can be
    inserted. *)
Lemma insertInOrder_unwritten l q arr i : 0 ≤ i → keyloc_at arr i = None → MQTTAsync_insertInOrder l q arr (i + 1) = None.
Proof.
  intros Hi Hk. unfold MQTTAsync_insertInOrder. cbv zeta. rewrite (proj2 (Z.ltb_lt 0 _)) by lia.
  replace (i + 1 - 1) with i by lia. by rewrite Hk.
Qed.

Lemma restore_loop_stuck keys s : ∀ i st st', 0 ≤ i → (∀ j, i ≤ j → keyloc_at (r_arr st) j = None) →
  (∃ y, y ∈ keys ∧ is_command_key y = true) → restore_commands_loop afterRead true m i keys st s ≠ Some (0, st').
Proof.
  induction keys as [|k keys IH]; intros i st st' Hi Hun (y & Hy & Hcy); [by apply elem_of_nil in Hy|].
  cbn [restore_commands_loop]. destruct (is_command_key k) eqn:Hck; cbn [negb].
  - destruct (after_read afterRead (pget k s)) as [rc d]. destruct (Z.eqb_spec rc 0) as [->|Hrc]; [|congruence].
    assert (Hone : restore_one true m i k d st = None); [|by rewrite Hone].
    unfold restore_one. destruct (MQTTAsync_restoreCommand _ _ _ _) as [[c|]|]; [|done|done]. cbn [mbind option_bind].
    destruct (key_number k) as [n|]; [|done]. cbn [mbind option_bind].
    by rewrite insertInOrder_unwritten by (by try apply Hun).
  - apply IH; [lia|intros j Hj; apply Hun; lia|]. exists y. split; [|done].
    apply elem_of_cons in Hy as [->|Hy]; [congruence|done].
Qed.

Lemma restore_loop_uninitialised Q s x y l1 l2 : commands_stored Q s → is_command_key x = false →
  y ∈ l2 → is_command_key y = true → ∀ i st last st',
  StronglySorted number_order (l1 ++ x :: l2) → NoDup (l1 ++ x :: l2) →
  (∀ k, k ∈ l1 → is_Some (contents s !! k)) → (∀ k j, k ∈ l1 → is_command_key k = true → key_number k = Some j → last < j) →
  inv i st last → i + len l1 < len (r_arr st) → (∀ j, i < j → keyloc_at (r_arr st) j = None) →
  restore_commands_loop afterRead true m i (l1 ++ x :: l2) st s ≠ Some (0, st').
Proof.
  intros HQ Hx Hy Hcy. induction l1 as [|k l1 IH]; intros i st last st' Hs Hnd Hin Hlt Hinv Hlen Hun;
    cbn [app restore_commands_loop].
  { rewrite Hx. cbn [negb]. pose proof (inv_index _ _ _ Hinv). apply restore_loop_stuck; [lia|intros j Hj; apply Hun; lia|by exists y]. }
  cbn [app] in Hs, Hnd. apply StronglySorted_inv in Hs as [Hs Hle]. apply NoDup_cons in Hnd as [Hni Hnd].
  assert (Hin' : ∀ k', k' ∈ l1 → is_Some (contents s !! k')) by (intros; apply Hin; by right).
  destruct (is_command_key k) eqn:Hck; cbn [negb].
  2: { pose proof (inv_index _ _ _ Hinv). apply restore_loop_stuck; [lia|intros j Hj; apply Hun; lia|].
    exists y. split; [|done]. apply elem_of_app. right. by right. }
  destruct (proj2 (proj1 (proj2 HQ) k (Hin k ltac:(left))) Hck) as (n & [c Hn] & ->).
  destruct (stored_read Q s n c HQ Hn) as (rc & d & Er & Hd). rewrite Er.
  destruct (Z.eqb_spec rc 0) as [->|Hrc]; [|congruence]. rewrite (Hd eq_refl).
  destruct (restore_one_ok Q s i st last n c HQ Hn Hinv (Hlt _ n ltac:(left) Hck (key_number_of Q s n HQ ltac:(by exists c))) ltac:(cbn [length] in Hlen; lia))
    as (st1 & q & E & Hinv' & _ & _ & Ea & _). rewrite E. cbn [mbind option_bind].
  pose proof (inv_index _ _ _ Hinv). apply (IH (i + 1) st1 n); [done..| |done| |].
  - intros k j Hk Hc Hj. pose proof (proj1 (Forall_forall _ _) Hle) as Hle'.
    destruct (Hle' k) as (a & b & Ha & Hb & Hab); [apply elem_of_app; by left|].
    destruct (proj2 (proj1 (proj2 HQ) _ (Hin' _ Hk)) Hc) as (n2 & Hn2 & ->).
    rewrite (key_number_of Q s) in Ha, Hb, Hj by (try done; by exists c).
    assert (a = n) as -> by congruence. assert (b = n2) as -> by congruence. assert (j = n2) as -> by congruence.
    enough (n ≠ n2) by lia. intros ->. apply Hni, elem_of_app. by left.
  - rewrite Ea, length_insert. cbn [length] in Hlen. lia.
  - intros j Hj. rewrite Ea. rewrite keyloc_at_lookup, list_lookup_insert_ne by lia. rewrite <-keyloc_at_lookup by lia. apply Hun. lia.
Qed.

Lemma sorted_split (x y : list Z) l : StronglySorted number_order l → x ∈ l → y ∈ l → x ≠ y → ¬ number_order y x →
  ∃ l1 l2, l = l1 ++ x :: l2 ∧ y ∈ l2.
Proof.
  induction 1 as [|k l Hl IH Hk]; intros Hx Hy Hne Hno; [by apply elem_of_nil in Hx|].
  apply elem_of_cons in Hx as [->|Hx]; apply elem_of_cons in Hy as [->|Hy]; [done|by exists [], l| |].
  - rewrite Forall_forall in Hk. by destruct Hno; apply Hk.
  - destruct (IH Hx Hy Hne Hno) as (l1 & l2 & -> & Hin). by exists (k :: l1), l2.
Qed.

(** The restore of the commands never succeeds when the store also holds a
    record of another kind, say a message in flight, whose number is smaller than
    that of a command: the insertion of the command reads an entry of
    [keyloc_array] that was not written. *)
Theorem restoreCommands_uninitialised Q s commands seqno buffered x j n :
  commands_stored Q s → is_Some (contents s !! x) → is_command_key x = false → key_number x = Some j →
  is_Some (Q !! n) → j < n →
  ∀ l seqno' buffered',
    MQTTAsync_restoreCommands afterRead true m true commands seqno buffered s ≠ Some (0, l, seqno', buffered').
Proof.
  intros HQ Hx Hxc Hj Hn Hlt l seqno' buffered'. unfold MQTTAsync_restoreCommands. cbn [negb].
  destruct (pkeys s) as [rc keys] eqn:Hkeys. destruct (Z.eqb_spec rc 0) as [->|Hrc]; cbn [negb orb]; [|congruence].
  apply keys_rc in Hkeys as [Hnd Hks]; [|apply HQ].
  assert (Hyk : key_of n ∈ keys).
  { apply Hks. destruct Hn as [c Hn]. destruct (proj2 (proj2 HQ) n c Hn) as (_ & _ & d & Hd & _). by exists d. }
  rewrite bool_decide_eq_false_2 by (intros ->; by apply elem_of_nil in Hyk).
  destruct (sort_keys_ok keys (stored_numbers Q s keys HQ Hks)) as (ks & -> & Hp & Hsort). cbn [mbind option_bind].
  destruct (sorted_split x (key_of n) ks Hsort) as (l1 & l2 & -> & Hy).
  { rewrite Hp. by apply Hks. } { by rewrite Hp. } { intros ->. unfold key_of in Hxc. by rewrite is_command_key_stem in Hxc. }
  { intros (a & b & Ha & Hb & Hab). rewrite (key_number_of Q s) in Ha by done. simplify_eq. lia. }
  assert (Hin : ∀ k, k ∈ l1 → is_Some (contents s !! k)).
  { intros k Hk. apply Hks. rewrite <-Hp. apply elem_of_app. by left. }
  intros E. destruct (restore_commands_loop _ _ _ _ _ _ _) as [[rc st]|] eqn:El; [|done]. cbn [mbind option_bind] in E.
  simplify_eq. revert El. eapply (restore_loop_uninitialised Q s x (key_of n) l1 l2) with (last := -1); try done.
  - apply is_command_key_stem.
  - by rewrite Hp.
  - intros k i Hk Hc Hi. destruct (proj2 (proj1 (proj2 HQ) _ (Hin _ Hk)) Hc) as (n2 & Hn2 & ->).
    rewrite (key_number_of Q s) in Hi by done. pose proof (stored_range Q s n2 HQ Hn2). assert (i = n2) as -> by congruence. lia.
  - apply inv_start.
  - cbn [r_arr length]. rewrite length_replicate, length_app. cbn [length]. lia.
  - intros i Hi. rewrite keyloc_at_lookup by lia. cbn [r_arr]. destruct (Z.to_nat i) as [|i'] eqn:Ei; [lia|]. cbn [lookup list_lookup].
    destruct (replicate _ _ !! i') as [o|] eqn:Eo; [|done]. by apply lookup_replicate in Eo as [-> _].
Qed.
End RestoreRun.

(** ** Removing records *)

Section Unpersist.
Context {S : Type} `{!Store S, !StoreLaws S}.
Context (stems : list (list Z)).

Definition of_stems (k : list Z) : bool := existsb (λ stem, starts_with stem k) stems.

Lemma unpersist_loop_ok keys : ∀ (s : S) rc s', store_ok s → Forall good_key keys →
  unpersist_loop stems keys s = (rc, s') →
  store_ok s' ∧ (∀ k, of_stems k = false → contents s' !! k = contents s !! k) ∧
  (∀ k, contents s !! k = None → contents s' !! k = None) ∧
  (rc = 0 → ∀ k, k ∈ keys → of_stems k = true → contents s' !! k = None).
Proof.
  induction keys as [|k keys IH]; intros s rc s' Hs Hg E; cbn [unpersist_loop] in E.
  { injection E as <- <-. split_and!; [done..|]. intros _ k Hk. by apply elem_of_nil in Hk. }
  apply Forall_cons in Hg as [Hgk Hg]. fold (of_stems k) in E. destruct (of_stems k) eqn:Hk.
  - pose proof (remove_rc k s Hs Hgk) as Hr. destruct (premove k s) as [rc1 s1]. destruct Hr as [Hs1 Hr].
    destruct (Z.eqb_spec rc1 0) as [->|Hrc].
    + destruct Hr as [[_ Hr]|[? _]]; [|done].
      destruct (IH s1 rc s' Hs1 Hg E) as (H1 & H2 & H3 & H4). split_and!; [done| | |].
      * intros k' Hk'. rewrite H2, Hr by done. rewrite lookup_delete_ne; [done|]. intros ->. congruence.
      * intros k' Hk'. apply H3. rewrite Hr. by apply lookup_delete_None; right.
      * intros Hrc k' [->|Hin]%elem_of_cons Hk'; [|by apply H4]. apply H3. rewrite Hr. apply lookup_delete_eq.
    + injection E as <- <-. destruct Hr as [[-> _]|[_ Hr]]; [done|]. rewrite Hr. by split_and!.
  - destruct (IH s rc s' Hs Hg E) as (H1 & H2 & H3 & H4). split_and!; [done..|].
    intros Hrc k' [->|Hin]%elem_of_cons Hk'; [congruence|by apply H4].
Qed.

(** [MQTTAsync_unpersistCommandsAndMessages] and
    [MQTTAsync_unpersistInflightMessages] touch no other record than those with
    their prefixes, and when they succeed none of those is left. *)
Theorem unpersist_removes (s : S) rc s' :
  store_ok s → (∀ k, is_Some (contents s !! k) → good_key k) → unpersist_stems stems true s = (rc, s') →
  store_ok s' ∧ (∀ k, of_stems k = false → contents s' !! k = contents s !! k) ∧
  (rc = 0 → ∀ k, of_stems k = true → contents s' !! k = None).
Proof.
  intros Hs Hg E. unfold unpersist_stems in E. cbn [negb] in E. destruct (pkeys s) as [rc0 keys] eqn:Hkeys.
  destruct (Z.eqb_spec rc0 0) as [->|Hrc]; cbn [negb] in E; [|by injection E as <- <-].
  apply keys_rc in Hkeys as [_ Hks]; [|done].
  destruct (unpersist_loop_ok keys s rc s' Hs) as (H1 & H2 & H3 & H4); [|done|].
  { apply Forall_forall. intros k Hk%Hks. by apply Hg. }
  split_and!; [done..|]. intros Hrc k Hk. destruct (contents s !! k) as [d|] eqn:Hd; [|by apply H3].
  apply H4; [done| |done]. apply Hks. by exists d.
Qed.
End Unpersist.

(** ** Witnesses *)

Definition sample_publish_command : MQTTAsync_command :=
  mkCommand (Some 7) None None None 21 3 1000 sample_props (DPublish (Some (bs "hall/1")) 2 (Some [7; 8]) 1 0).
Definition sample_subscribe_command : MQTTAsync_command :=
  mkCommand None None None None 5 0 0 MQTTProperties_initializer
    (DSubscribe [bs "hall/1"; bs "hall/2"] [0; 2] [] []).

Lemma sample_commands_ok : command_ok 5 sample_publish_command ∧ command_ok 4 sample_publish_command ∧
  command_ok 4 sample_subscribe_command.
Proof.
  assert (Hb : ∀ b, b ∈ [bs "hall/1"; bs "hall/2"] → cstring_ok b).
  { apply (proj1 (Forall_forall (λ b, cstring_ok b) _)). apply (bool_decide_eq_true_1 _). vm_compute. reflexivity. }
  assert (Hp : props_sendable sample_props) by (split; [apply sample_props_ok|done]).
  assert (Hd : ∀ v, details_ok v (details sample_publish_command)).
  { intros v. cbn [details_ok details sample_publish_command].
    split; [exists (bs "hall/1"); split; [done|apply Hb; by left]|].
    split; [by exists [7; 8]|]. done. }
  split; [|split]; (split; [done| |done]).
  - apply Hd.
  - apply Hd.
  - cbn [details_ok details sample_subscribe_command]. split; [by apply Forall_forall|].
    split; [done|]. split; [|done]. unfold sub_values. change (4 <? MQTTVERSION_5) with true. cbv iota.
    rewrite !fmap_cons, fmap_nil. repeat constructor; cbn; unfold MQTTVERSION_5; lia.
Qed.

Lemma command_roundtrip_witness :
  command_ok 5 sample_publish_command ∧
  ∃ rc s', MQTTAsync_persistCommand None 5 true true sample_publish_command 0 999999 (∅ : mem_store) = Some (rc, 0, 0, s').
Proof.
  split; [apply sample_commands_ok|].
  destruct (command_roundtrip 5 sample_publish_command 0 999999 (∅ : mem_store) ltac:(exact I) (proj1 sample_commands_ok) ltac:(done)) as (rc & s' & E & _).
  by exists rc, s'.
Defined.

Definition sample_Q : gmap Z MQTTAsync_command := {[ 12 := sample_publish_command; 3 := sample_subscribe_command ]}.
Definition sample_commands_store : mem_store :=
  {[ key_of 4 12 := command_record 4 sample_publish_command; key_of 4 3 := command_record 4 sample_subscribe_command ]}.

Lemma sample_commands_stored s : s = sample_commands_store ∨ s = <[bs "s-1" := [50; 2; 0; 1]]> sample_commands_store →
  commands_stored None 4 sample_Q s.
Proof.
  intros Hs. split; [done|]. split; unfold contents; cbn; unfold id.
  - assert (H : ∀ k d, sample_commands_store !! k = Some d → k = key_of 4 12 ∨ k = key_of 4 3).
    { unfold sample_commands_store. intros k d [[<- _]|[_ [<- _]%lookup_singleton_Some]]%lookup_insert_Some; auto. }
    assert (Hk : ∀ k, k = key_of 4 12 ∨ k = key_of 4 3 → is_Some (key_number k) ∧
      (is_command_key k = true → ∃ n, is_Some (sample_Q !! n) ∧ k = key_of 4 n)).
    { intros k [-> | ->]; (split; [by eexists|intros _]); [exists 12|exists 3]; (split; [|done]); unfold sample_Q; by eexists. }
    intros k [d Hd]. destruct Hs as [-> | ->]; [by apply Hk, (H k d)|].
    apply lookup_insert_Some in Hd as [[<- _]|[_ Hd]]; [|by apply Hk, (H k d)].
    split; [by eexists|]. intros Hc. vm_compute in Hc. done.
  - intros n c Hn. destruct sample_commands_ok as (_ & Ho1 & Ho2). unfold sample_Q in Hn.
    assert (Hl : s !! key_of 4 12 = Some (command_record 4 sample_publish_command) ∧
                 s !! key_of 4 3 = Some (command_record 4 sample_subscribe_command)) by (destruct Hs as [-> | ->]; done).
    apply lookup_insert_Some in Hn as [[<- <-]|[_ [<- <-]%lookup_singleton_Some]]; (split; [done|]); (split; [done|]);
      (eexists; split; [apply Hl|done]).
Qed.

Lemma restoreCommands_order_witness :
  ∃ rc l n b, MQTTAsync_restoreCommands None true 1%positive true [] 0 0 sample_commands_store = Some (rc, l, n, b) ∧
    (rc = 0 → ∃ qs, cmd_seqno <$> qs ≡ₚ [12; 3] ∧ StronglySorted Z.lt (cmd_seqno <$> qs)).
Proof.
  destruct (restoreCommands_order None 4 1%positive sample_Q sample_commands_store [] 0 0
    (sample_commands_stored _ (or_introl eq_refl))) as (rc & l & n & b & E & H).
  - intros E. by apply (f_equal (lookup 12)) in E.
  - unfold contents. cbn. unfold id, sample_commands_store.
    intros k [d [[<- _]|[_ [<- _]%lookup_singleton_Some]]%lookup_insert_Some]; reflexivity.
  - exists rc, l, n, b. split; [exact E|]. intros Hrc. destruct (H Hrc) as (qs & _ & Hs & Hp & _). exists qs.
    split; [|exact Hs]. rewrite Hp. apply (bool_decide_eq_true_1 _). vm_compute. reflexivity.
Defined.

Lemma restoreCommands_uninitialised_witness :
  is_command_key (bs "s-1") = false ∧
  ∀ l n b, MQTTAsync_restoreCommands None true 1%positive true [] 0 0 (<[bs "s-1" := [50; 2; 0; 1]]> sample_commands_store)
    ≠ Some (0, l, n, b).
Proof.
  split; [vm_compute; reflexivity|].
  apply (restoreCommands_uninitialised None 4 1%positive sample_Q (<[bs "s-1" := [50; 2; 0; 1]]> sample_commands_store)
    [] 0 0 (bs "s-1") 1 3 (sample_commands_stored _ (or_intror eq_refl))); [| | |by eexists|done].
  - unfold contents. cbn. unfold id. rewrite lookup_insert_eq. by eexists.
  - vm_compute. reflexivity.
  - vm_compute. reflexivity.
Defined.

Lemma unpersist_removes_witness :
  store_ok sample_commands_store ∧
  ∀ rc s', unpersist_stems COMMAND_AND_QUEUE_STEMS true sample_commands_store = (rc, s') → store_ok s'.
Proof.
  split; [exact I|]. intros rc s' E.
  refine (proj1 (unpersist_removes COMMAND_AND_QUEUE_STEMS sample_commands_store rc s' ltac:(exact I) _ E)).
  intros k. change (contents sample_commands_store) with sample_commands_store. unfold sample_commands_store.
  intros [d [[<- _]|[_ [<- _]%lookup_singleton_Some]]%lookup_insert_Some]; unfold key_of; by apply command_key_good.
Defined.

End AsyncCommands.
