(* ===== verification/AsyncQueue.v ===== *)
(** * The command queue of the asynchronous client (paho.mqtt.c/src/MQTTAsync.c)

    The structure of a client, the list of commands that all the clients share,
    and the operations on it: adding a command, choosing the next one to send,
    taking it off the list, and choosing its message identifier.

    A function works on the structure of the client and on the list; the
    mutexes make each of them one step. *)
From S2P Require Import Prelude Libc PacketCodec Props Packets SocketIO Protocol ProtocolSpec ProtocolTimers Persistence Connect AsyncCommands.

Module AsyncQueue.
Import Libc Codecs Properties Packets Protocol ProtocolSpec Timers Persistence Connect AsyncCommands.

(** ** Data *)

(** [MQTTAsync_createOptions] without the eyecatcher. *)
Record MQTTAsync_createOptions := mkCreateOptions {
  co_struct_version : Z;
  sendWhileDisconnected : Z;
  maxBufferedMessages : Z;
  co_MQTTVersion : Z;
  allowDisconnectedSendAtAnyTime : Z;
  deleteOldestMessages : Z;
  restoreMessages : Z;
  persistQoS0 : Z
}.

(** The members of [Clients] (Clients.h) that only this layer uses. *)
Record link_state := mkLink {
  connect_state : Z;
  MQTTVersion : Z;
  cleansession : bool;
  cleanstart : bool;
  maxInflightMessages : Z;
  sessionExpiry : Z
}.

Record retry_state := mkRetry {
  shouldBeConnected : bool;
  automaticReconnect : bool;
  minRetryInterval : Z;
  maxRetryInterval : Z;
  currentInterval : Z;
  currentIntervalBase : Z;
  lastConnectionFailedTime : Z;
  retrying : bool;
  reconnectNow : bool
}.

(** The callbacks of a client, each with its context. *)
Record callbacks := mkCallbacks {
  cl : option (Z * Z);
  ma : option (Z * Z);
  dc : option (Z * Z);
  connected_cb : option (Z * Z);
  disconnected_cb : option (Z * Z);
  updateConnectOptions : option (Z * Z)
}.

Section State.
Context {S : Type}.

(** The buffered commands: their number, the last sequence number used, and the
    persistence handle if there is one. *)
Record buffer_state := mkBuffering { noBufferedMessages : Z; command_seqno : Z; phandle : option S }.

Record MQTTAsyncs := mkAsync {
  ac : Clients;
  link : link_state;
  buffering : buffer_state;
  createOptions : option MQTTAsync_createOptions;
  retry : retry_state;
  calls : callbacks;
  responses : list MQTTAsync_queuedCommand;
  connect : MQTTAsync_command;
  disconnect : MQTTAsync_command;
  pending_write : option positive;
  serverURI : list Z;
  serverURIs : list (list Z);
  websocket : bool;
  connectTimeout : Z;
  connectProps : option MQTTProperties;
  willProps : option MQTTProperties;
  messageQueue : queue_state
}.

Definition with_ac (m : MQTTAsyncs) (v : Clients) : MQTTAsyncs :=
  mkAsync v (link m) (buffering m) (createOptions m) (retry m) (calls m) (responses m) (connect m)
    (disconnect m) (pending_write m) (serverURI m) (serverURIs m) (websocket m) (connectTimeout m)
    (connectProps m) (willProps m) (messageQueue m).
Definition with_link (m : MQTTAsyncs) (v : link_state) : MQTTAsyncs :=
  mkAsync (ac m) v (buffering m) (createOptions m) (retry m) (calls m) (responses m) (connect m) (disconnect
    m) (pending_write m) (serverURI m) (serverURIs m) (websocket m) (connectTimeout m) (connectProps m)
    (willProps m) (messageQueue m).
Definition with_buffering (m : MQTTAsyncs) (v : buffer_state) : MQTTAsyncs :=
  mkAsync (ac m) (link m) v (createOptions m) (retry m) (calls m) (responses m) (connect m) (disconnect m)
    (pending_write m) (serverURI m) (serverURIs m) (websocket m) (connectTimeout m) (connectProps m)
    (willProps m) (messageQueue m).
Definition with_retry (m : MQTTAsyncs) (v : retry_state) : MQTTAsyncs :=
  mkAsync (ac m) (link m) (buffering m) (createOptions m) v (calls m) (responses m) (connect m) (disconnect
    m) (pending_write m) (serverURI m) (serverURIs m) (websocket m) (connectTimeout m) (connectProps m)
    (willProps m) (messageQueue m).
Definition with_calls (m : MQTTAsyncs) (v : callbacks) : MQTTAsyncs :=
  mkAsync (ac m) (link m) (buffering m) (createOptions m) (retry m) v (responses m) (connect m) (disconnect
    m) (pending_write m) (serverURI m) (serverURIs m) (websocket m) (connectTimeout m) (connectProps m)
    (willProps m) (messageQueue m).
Definition with_responses (m : MQTTAsyncs) (v : list MQTTAsync_queuedCommand) : MQTTAsyncs :=
  mkAsync (ac m) (link m) (buffering m) (createOptions m) (retry m) (calls m) v (connect m) (disconnect m)
    (pending_write m) (serverURI m) (serverURIs m) (websocket m) (connectTimeout m) (connectProps m)
    (willProps m) (messageQueue m).
Definition with_connect (m : MQTTAsyncs) (v : MQTTAsync_command) : MQTTAsyncs :=
  mkAsync (ac m) (link m) (buffering m) (createOptions m) (retry m) (calls m) (responses m) v (disconnect m)
    (pending_write m) (serverURI m) (serverURIs m) (websocket m) (connectTimeout m) (connectProps m)
    (willProps m) (messageQueue m).
Definition with_disconnect (m : MQTTAsyncs) (v : MQTTAsync_command) : MQTTAsyncs :=
  mkAsync (ac m) (link m) (buffering m) (createOptions m) (retry m) (calls m) (responses m) (connect m) v
    (pending_write m) (serverURI m) (serverURIs m) (websocket m) (connectTimeout m) (connectProps m)
    (willProps m) (messageQueue m).
Definition with_pending (m : MQTTAsyncs) (v : option positive) : MQTTAsyncs :=
  mkAsync (ac m) (link m) (buffering m) (createOptions m) (retry m) (calls m) (responses m) (connect m)
    (disconnect m) v (serverURI m) (serverURIs m) (websocket m) (connectTimeout m) (connectProps m)
    (willProps m) (messageQueue m).
Definition with_queue (m : MQTTAsyncs) (v : queue_state) : MQTTAsyncs :=
  mkAsync (ac m) (link m) (buffering m) (createOptions m) (retry m) (calls m) (responses m) (connect m)
    (disconnect m) (pending_write m) (serverURI m) (serverURIs m) (websocket m) (connectTimeout m)
    (connectProps m) (willProps m) v.

Definition add_buffered (m : MQTTAsyncs) (d : Z) : MQTTAsyncs :=
  let b := buffering m in
  with_buffering m (mkBuffering (noBufferedMessages b + d) (command_seqno b) (phandle b)).
Definition set_store (m : MQTTAsyncs) (seqno : Z) (s : S) : MQTTAsyncs :=
  with_buffering m (mkBuffering (noBufferedMessages (buffering m)) seqno (Some s)).
End State.
Arguments MQTTAsyncs : clear implicits.
Arguments buffer_state : clear implicits.

(** ** Adding a command *)

(** [clientCompareConnectCommand]: [ListFindItem] finds a CONNECT or DISCONNECT of
    the same client. *)
Definition clientCompareConnectCommand (a b : MQTTAsync_queuedCommand) : bool :=
  bool_decide (client a = client b) && (type (command a) =? type (command b))
  && ((type (command a) =? CONNECT) || (type (command a) =? DISCONNECT)).

(** [ListFindItem] looks at the [current] element of the list first. *)
Definition find_item (cur : option positive) (p : MQTTAsync_queuedCommand → bool) (l : list MQTTAsync_queuedCommand)
    : option MQTTAsync_queuedCommand :=
  match cur ≫= (λ a, List.find (λ q, bool_decide (addr q = a)) l) with
  | Some q => if p q then Some q else List.find p l
  | None => List.find p l
  end.

Fixpoint remove_addr (a : positive) (l : list MQTTAsync_queuedCommand) : list MQTTAsync_queuedCommand :=
  match l with
  | [] => []
  | q :: l' => if decide (addr q = a) then l' else q :: remove_addr a l'
  end.

(** CONNECT, and DISCONNECT that does not come from the application. *)
Definition goes_first (c : MQTTAsync_command) : bool :=
  match details c with DConnect _ _ => true | DDisconnect internal _ _ => internal | _ => false end.

(** The PUBLISH as it waits once the store has it: its data are freed. *)
Definition stripped (c : MQTTAsync_command) : MQTTAsync_command :=
  match details c with
  | DPublish _ plen _ qos retained =>
      with_props (with_details c (DPublish None plen None qos retained)) (MQTTProperties_free (cmd_properties c))
  | _ => c
  end.

Section Queue.
Context {S T : Type} `{!Store S, !Transport T}.
Context (beforeWrite : option (list (list Z) → Z * list (list Z))).
Context (afterRead : option (list Z → Z * list Z)).
(** Whether memory can be allocated, the time, and what [Thread_signal_cond]
    answers. *)
Context (mem : bool) (now signal : Z).
Abbreviation async := (MQTTAsyncs S).

(** A QoS 0 message that the options exempt from persistence. *)
Definition not_persisted (m : async) (c : MQTTAsync_command) : bool :=
  match details c, createOptions m with
  | DPublish _ _ _ qos _, Some o => (2 <=? co_struct_version o) && (persistQoS0 o =? 0) && (qos =? 0)
  | _, _ => false
  end.

Definition persist_added (q : MQTTAsync_queuedCommand) (m : async) : option (MQTTAsync_queuedCommand * async) :=
  match phandle (buffering m) with
  | None => Some (q, m)
  | Some s =>
      if not_persisted m (command q) then Some (q, m)
      else
        '(rc, seqno, n, s') ← MQTTAsync_persistCommand beforeWrite (MQTTVersion (link m)) mem mem (command q)
                                (cmd_seqno q) (command_seqno (buffering m)) s;
        let m' := set_store m n s' in
        if (type (command q) =? PUBLISH) && (rc =? 0) then
          k ← command_key (command_stem (MQTTVersion (link m))) seqno;
          Some (mkQueued (addr q) (stripped (command q)) (client q) seqno true (Some k), m')
        else Some (mkQueued (addr q) (command q) (client q) seqno (not_restored q) (key q), m')
  end.

Definition is_publish_of (a : positive) (q : MQTTAsync_queuedCommand) : bool :=
  bool_decide (client q = a) && (type (command q) =? PUBLISH).

(** The PUBLISH just appended: when the buffer is full the oldest one is deleted;
    its memory is read after it is freed if the client has a persistence, or if
    it is the command just appended. *)
Definition buffer_publish (q : MQTTAsync_queuedCommand) (m : async) (l : list MQTTAsync_queuedCommand)
    : option (async * list MQTTAsync_queuedCommand) :=
  let full := match createOptions m with
              | Some o => maxBufferedMessages o <=? noBufferedMessages (buffering m)
              | None => false
              end in
  if full then
    match List.find (is_publish_of (client q)) l with
    | None => Some (m, l)
    | Some first_publish =>
        if bool_decide (addr first_publish = addr q) || bool_decide (is_Some (phandle (buffering m))) then None
        else Some (m, remove_addr (addr first_publish) l)
    end
  else Some (add_buffered m 1, l).

(** [m] is the structure of [q]'s client. *)
Definition MQTTAsync_addCommand (cur : option positive) (q0 : MQTTAsync_queuedCommand) (m : async)
    (l : list MQTTAsync_queuedCommand) : option (Z * async * list MQTTAsync_queuedCommand) :=
  let c0 := command q0 in
  let c := if negb (type c0 =? CONNECT) || (connect_state (link m) =? NOT_IN_PROGRESS) then with_start c0 now else c0 in
  let q := with_command q0 c in
  if goes_first c then
    let same h := bool_decide (client h = client q) && (type (command h) =? type c) in
    match l with
    | h :: _ =>
        if same h then Some (signal, m, l)
        else
          let l' := match find_item cur (λ x, clientCompareConnectCommand x q) l with
                    | Some x => remove_addr (addr x) l
                    | None => l
                    end in
          Some (signal, m, q :: l')
    | [] => Some (signal, m, [q])
    end
  else
    '(q, m) ← persist_added q m;
    '(m, l) ← (if type c =? PUBLISH then buffer_publish q m (l ++ [q]) else Some (m, l ++ [q]));
    Some (signal, m, l).

(** ** The next command to process *)

Definition needs_id (c : MQTTAsync_command) : bool :=
  (type c =? PUBLISH) || (type c =? SUBSCRIBE) || (type c =? UNSUBSCRIBE).
Definition needs_ack (c : MQTTAsync_command) : bool :=
  match details c with
  | DPublish _ _ _ qos _ => 0 <? qos
  | DSubscribe _ _ _ _ | DUnsubscribe _ => true
  | _ => false
  end.

Definition command_ready (m : async) (t : T) (c : MQTTAsync_command) : bool :=
  if (type c =? CONNECT) || (type c =? DISCONNECT)
     || (connected (ac m) && (connect_state (link m) =? NOT_IN_PROGRESS) && noPendingWrites t (socket (ac m))) then
    if needs_id c && (MAX_MSG_ID - 1 <=? len (outboundMsgs (ac m))) then false
    else if needs_ack c && (maxInflightMessages (link m) <=? len (outboundMsgs (ac m))) then false
    else true
  else false.

(** The loop over the list, with the clients that are ignored; a client without
    structure is a dangling pointer. *)
Fixpoint next_loop (structs : gmap positive async) (t : T) (ignored : list positive) (l : list MQTTAsync_queuedCommand)
    : option (option MQTTAsync_queuedCommand) :=
  match l with
  | [] => Some None
  | q :: l' =>
      if bool_decide (client q ∈ ignored) then next_loop structs t ignored l'
      else
        m ← structs !! client q;
        if command_ready m t (command q) then Some (Some q) else next_loop structs t (ignored ++ [client q]) l'
  end.

(** The command taken is read from the store a second time, and its record
    removed; NULL after that reading is dereferenced. *)
Definition restore_taken (q : MQTTAsync_queuedCommand) (m : async) : option (MQTTAsync_queuedCommand * async) :=
  match phandle (buffering m) with
  | None => Some (q, m)
  | Some s =>
      q' ← (if not_restored q then
              k ← key q;
              let '(rc, buffer) := after_read afterRead (pget k s) in
              if rc =? 0 then
                r ← MQTTAsync_restoreCommand mem buffer (key_version k) (Some (command q));
                c ← r;
                Some (mkQueued (addr q) c (client q) (cmd_seqno q) false None)
              else Some q
            else Some q);
      '(_, s') ← MQTTAsync_unpersistCommand (MQTTVersion (link m)) (cmd_seqno q') s;
      Some (q', set_store m (command_seqno (buffering m)) s')
  end.

(** [MQTTAsync_processCommand] up to the point where the command is processed. *)
Definition take_command (structs : gmap positive async) (t : T) (l : list MQTTAsync_queuedCommand)
    : option (option MQTTAsync_queuedCommand * gmap positive async * list MQTTAsync_queuedCommand) :=
  r ← next_loop structs t [] l;
  match r with
  | None => Some (None, structs, l)
  | Some q =>
      m ← structs !! client q;
      let m := if type (command q) =? PUBLISH then add_buffered m (-1) else m in
      '(q', m) ← restore_taken q m;
      Some (Some q', <[client q := m]> structs, remove_addr (addr q) l)
  end.

(** ** Message identifiers *)

Definition taken_id (m : async) (l : list MQTTAsync_queuedCommand) (id : Z) : bool :=
  existsb (λ q, token (command q) =? id) l || existsb (λ x, msgid x =? id) (outboundMsgs (ac m))
  || existsb (λ q, token (command q) =? id) (responses m).

(** The [while] loop: [None] when the fuel is exhausted. *)
Fixpoint async_assign_loop (fuel : nat) (m : async) (l : list MQTTAsync_queuedCommand) (start_msgid id : Z) : option Z :=
  if taken_id m l id then
    match fuel with
    | O => None
    | Datatypes.S fuel' =>
        let id' := next_id id in
        if id' =? start_msgid then Some 0 else async_assign_loop fuel' m l start_msgid id'
    end
  else Some id.

Definition MQTTAsync_assignMsgId (m : async) (l : list MQTTAsync_queuedCommand) : option (Z * async) :=
  id ← async_assign_loop (Z.to_nat MAX_MSG_ID) m l (msgID (ac m)) (next_id (msgID (ac m)));
  Some (id, if id =? 0 then m else with_ac m (with_msgID (ac m) id)).

(** ** The removal of the commands of a client *)

Inductive callback :=
  | CSuccess (f ctx tok : Z)
  | CSuccess5 (f ctx tok : Z)
  | CFailure (f ctx tok code : Z)
  | CFailure5 (f ctx tok code : Z).

Definition MQTTASYNC_OPERATION_INCOMPLETE := -11.

(** The failure callback of a command, if it has one. *)
Definition fail_command (c : MQTTAsync_command) (tok code : Z) : list callback :=
  match onFailure c, onFailure5 c with
  | Some f, _ => [CFailure f (context c) tok code]
  | None, Some f => [CFailure5 f (context c) tok code]
  | None, None => []
  end.

Definition incomplete (q : MQTTAsync_queuedCommand) : list callback :=
  fail_command (command q) (token (command q)) MQTTASYNC_OPERATION_INCOMPLETE.

Definition MQTTAsync_freeResponses (m : async) : async * list callback :=
  (with_responses m [], responses m ≫= incomplete).

Fixpoint MQTTAsync_freeCommands (a : positive) (l : list MQTTAsync_queuedCommand)
    : list MQTTAsync_queuedCommand * list callback :=
  match l with
  | [] => ([], [])
  | q :: l' =>
      let '(rest, calls) := MQTTAsync_freeCommands a l' in
      if bool_decide (client q = a) then (rest, incomplete q ++ calls) else (q :: rest, calls)
  end.

(** ** Pending tokens *)

Definition of_client (a : positive) (q : MQTTAsync_queuedCommand) : Prop := client q = a.
#[export] Instance of_client_dec a q : Decision (of_client a q) := decide (client q = a).

(** The tokens without the final -1. *)
Definition MQTTAsync_getPendingTokens (a : positive) (m : async) (l : list MQTTAsync_queuedCommand) : list Z :=
  ((token ∘ command) <$> filter (of_client a) l) ++ (msgid <$> outboundMsgs (ac m)).

Definition MQTTAsync_isComplete (a : positive) (m : async) (l : list MQTTAsync_queuedCommand) (dt : Z) : bool :=
  negb (existsb (λ q, bool_decide (client q = a) && (token (command q) =? dt)) l)
  && negb (existsb (λ x, msgid x =? dt) (outboundMsgs (ac m))).
End Queue.

(** ** The queue of each client

    The list shared by the clients is one queue per client: the commands of a
    client in the order of the list. *)

Definition client_queue (a : positive) (l : list MQTTAsync_queuedCommand) : list MQTTAsync_queuedCommand :=
  filter (of_client a) l.

Lemma client_queue_app a l1 l2 : client_queue a (l1 ++ l2) = client_queue a l1 ++ client_queue a l2.
Proof. apply filter_app. Qed.

Lemma client_queue_cons a q l :
  client_queue a (q :: l) = (if decide (client q = a) then [q] else []) ++ client_queue a l.
Proof. unfold client_queue. rewrite filter_cons. unfold of_client. by destruct (decide (client q = a)). Qed.

(** Addresses are unique, so removing by address is removing one element. *)
Lemma remove_addr_split q l : NoDup (addr <$> l) → q ∈ l →
  ∃ l1 l2, l = l1 ++ q :: l2 ∧ remove_addr (addr q) l = l1 ++ l2.
Proof.
  intros Hnd Hin. induction l as [|x l IH]; [by apply elem_of_nil in Hin|].
  rewrite fmap_cons in Hnd. apply NoDup_cons in Hnd as [Hni Hnd]. cbn [remove_addr].
  destruct (decide (addr x = addr q)) as [E|E].
  - exists [], l. apply elem_of_cons in Hin as [->|Hin]; [done|]. exfalso. apply Hni. rewrite E. by apply list_elem_of_fmap_2.
  - apply elem_of_cons in Hin as [->|Hin]; [done|]. destruct (IH Hnd Hin) as (l1 & l2 & -> & ->). by exists (x :: l1), l2.
Qed.

Lemma remove_addr_queue a q l : NoDup (addr <$> l) → q ∈ l → client q ≠ a →
  client_queue a (remove_addr (addr q) l) = client_queue a l.
Proof.
  intros Hnd Hin Hne. destruct (remove_addr_split q l Hnd Hin) as (l1 & l2 & -> & ->).
  by rewrite !client_queue_app, client_queue_cons, decide_False.
Qed.

Lemma find_Some_split (p : MQTTAsync_queuedCommand → bool) l q : List.find p l = Some q →
  ∃ l1 l2, l = l1 ++ q :: l2 ∧ p q = true ∧ Forall (λ x, p x = false) l1.
Proof.
  induction l as [|x l IH]; [done|]. cbn [List.find]. destruct (p x) eqn:Hp.
  - intros [= <-]. by exists [], l.
  - intros H. destruct (IH H) as (l1 & l2 & -> & Hq & Hl). exists (x :: l1), l2. split; [done|]. split; [done|by constructor].
Qed.

Lemma find_item_in cur p l q : find_item cur p l = Some q → q ∈ l ∧ p q = true.
Proof.
  assert (Hf : ∀ q, List.find p l = Some q → q ∈ l ∧ p q = true).
  { intros q' Hq. destruct (find_Some_split p l q' Hq) as (l1 & l2 & -> & Hp & _). split; [|done]. apply elem_of_app. right. by left. }
  unfold find_item. destruct (cur ≫= _) as [x|] eqn:Ex; [|by apply Hf].
  destruct (p x) eqn:Hp; [|by apply Hf]. intros [= <-].
  destruct cur as [a|]; [|done]. cbn in Ex. destruct (find_Some_split _ _ _ Ex) as (l1 & l2 & -> & _).
  split; [|done]. apply elem_of_app. right. by left.
Qed.

Lemma remove_addr_id a l : a ∉ addr <$> l → remove_addr a l = l.
Proof.
  induction l as [|x l IH]; [done|]. rewrite fmap_cons. intros [Hx Hl]%not_elem_of_cons. cbn [remove_addr].
  rewrite decide_False by congruence. by rewrite IH.
Qed.

(** ** The choice of the next command *)

Section Choice.
Context {S T : Type} `{!Store S, !Transport T}.
Abbreviation async := (MQTTAsyncs S).

(** A client whose first command cannot be processed now. *)
Definition blocked (structs : gmap positive async) (t : T) (l : list MQTTAsync_queuedCommand) (a : positive) : Prop :=
  ∃ m h, structs !! a = Some m ∧ head (client_queue a l) = Some h ∧ command_ready m t (command h) = false.

Lemma next_loop_ok (structs : gmap positive async) (t : T) l : ∀ seen ignored,
  (∀ a, a ∈ ignored ↔ client_queue a seen ≠ []) → (∀ a, a ∈ ignored → blocked structs t (seen ++ l) a) →
  ∀ r, next_loop structs t ignored l = Some r →
  match r with
  | Some q => ∃ m l1 l2, l = l1 ++ q :: l2 ∧ structs !! client q = Some m ∧ command_ready m t (command q) = true ∧
      head (client_queue (client q) (seen ++ l)) = Some q ∧ ∀ x, x ∈ l1 → blocked structs t (seen ++ l) (client x)
  | None => ∀ x, x ∈ l → blocked structs t (seen ++ l) (client x)
  end.
Proof.
  induction l as [|q l IH]; intros seen ignored Hig Hbl r E; cbn [next_loop] in E.
  { injection E as <-. intros x Hx. by apply elem_of_nil in Hx. }
  assert (Hseen : ∀ ig' : list positive, (∀ a, a ∈ ig' ↔ a ∈ ignored ∨ a = client q) →
    (∀ a, a ∈ ig' ↔ client_queue a (seen ++ [q]) ≠ [])).
  { intros ig' H a. rewrite H, Hig, client_queue_app, client_queue_cons. change (client_queue a []) with (@nil MQTTAsync_queuedCommand).
    rewrite app_nil_r. destruct (decide (client q = a)) as [<-|Hne].
    - split; [|by right]. intros _. by destruct (client_queue (client q) seen).
    - rewrite app_nil_r. split; [intros [?|?]; [done|congruence]|by left]. }
  assert (Happ : seen ++ q :: l = (seen ++ [q]) ++ l) by by rewrite <-app_assoc.
  destruct (bool_decide (client q ∈ ignored)) eqn:Hq.
  - apply bool_decide_eq_true in Hq. specialize (Hbl (client q) Hq) as Hblq. rewrite Happ in Hbl, Hblq |- *.
    specialize (IH (seen ++ [q]) ignored).
    assert (Hig' : ∀ a, a ∈ ignored ↔ client_queue a (seen ++ [q]) ≠ []) by (apply Hseen; intros a; split; [by left|intros [?| ->]; done]).
    specialize (IH Hig' Hbl r E). destruct r as [q'|].
    + destruct IH as (m & l1 & l2 & -> & Hm & Hr & Hh & Hx). exists m, (q :: l1), l2. split_and!; [done..|].
      intros x [->|Hin]%elem_of_cons; [done|by apply Hx].
    + intros x [->|Hin]%elem_of_cons; [done|by apply IH].
  - apply bool_decide_eq_false in Hq. destruct (structs !! client q) as [m|] eqn:Hm; [|done]. cbn [mbind option_bind] in E.
    assert (Hhead : head (client_queue (client q) (seen ++ q :: l)) = Some q).
    { rewrite client_queue_app, client_queue_cons, decide_True by done.
      destruct (client_queue (client q) seen) as [|y ys] eqn:Ey; [done|]. exfalso. apply Hq, Hig. by rewrite Ey. }
    destruct (command_ready m t (command q)) eqn:Hr.
    + injection E as <-. exists m, [], l. split_and!; [done..|]. intros x Hx. by apply elem_of_nil in Hx.
    + assert (Hblq : blocked structs t (seen ++ q :: l) (client q)) by by exists m, q.
      rewrite Happ in Hbl, Hblq |- *. specialize (IH (seen ++ [q]) (ignored ++ [client q])).
      assert (Hin' : ∀ a, a ∈ ignored ++ [client q] ↔ a ∈ ignored ∨ a = client q) by (intros a; by rewrite elem_of_app, list_elem_of_singleton).
      specialize (IH (Hseen _ Hin')). assert (Hbl' : ∀ a, a ∈ ignored ++ [client q] → blocked structs t ((seen ++ [q]) ++ l) a).
      { intros a [Ha | ->]%Hin'; [by apply Hbl|done]. }
      specialize (IH Hbl' r E). destruct r as [q'|].
      * destruct IH as (m' & l1 & l2 & -> & Hm' & Hr' & Hh & Hx). exists m', (q :: l1), l2. split_and!; [done..|].
        intros x [->|Hin]%elem_of_cons; [done|by apply Hx].
      * intros x [->|Hin]%elem_of_cons; [done|by apply IH].
Qed.

Lemma next_loop_total (structs : gmap positive async) (t : T) l : (∀ q, q ∈ l → is_Some (structs !! client q)) →
  ∀ ignored, is_Some (next_loop structs t ignored l).
Proof.
  intros Hs. induction l as [|q l IH]; intros ignored; cbn [next_loop]; [by eexists|].
  assert (IH' := IH ltac:(intros; apply Hs; by right)). destruct (bool_decide _); [done|].
  destruct (Hs q ltac:(left)) as [m ->]. cbn [mbind option_bind]. destruct (command_ready _ _ _); [by eexists|done].
Qed.

Context (afterRead : option (list Z → Z * list Z)) (mem : bool).

Lemma restore_taken_id (q : MQTTAsync_queuedCommand) (m : async) q' m' : restore_taken afterRead mem q m = Some (q', m') →
  addr q' = addr q ∧ client q' = client q ∧ cmd_seqno q' = cmd_seqno q.
Proof.
  unfold restore_taken. destruct (phandle (buffering m)) as [s|]; [|by intros [= <- <-]].
  intros (q1 & E1 & E)%bind_Some. assert (H1 : addr q1 = addr q ∧ client q1 = client q ∧ cmd_seqno q1 = cmd_seqno q).
  { destruct (not_restored q); [|by injection E1 as <-]. apply bind_Some in E1 as (k & _ & E1).
    destruct (after_read afterRead (pget k s)) as [rc buffer]. destruct (rc =? 0); [|by injection E1 as <-].
    apply bind_Some in E1 as (r & _ & E1). apply bind_Some in E1 as (c & _ & E1). by injection E1 as <-. }
  destruct (MQTTAsync_unpersistCommand _ _ s) as [[rc s']|]; [|done]. cbn [mbind option_bind] in E. by injection E as <- <-.
Qed.

Lemma take_ok (structs : gmap positive async) (t : T) l o structs' l' :
  NoDup (addr <$> l) → take_command afterRead mem structs t l = Some (o, structs', l') →
  match o with
  | None => structs' = structs ∧ l' = l ∧ ∀ x, x ∈ l → blocked structs t l (client x)
  | Some q' => ∃ m m' q l1 l2, l = l1 ++ q :: l2 ∧ l' = l1 ++ l2 ∧ addr q' = addr q ∧ client q' = client q ∧
      structs !! client q = Some m ∧ command_ready m t (command q) = true ∧
      restore_taken afterRead mem q (if type (command q) =? PUBLISH then add_buffered m (-1) else m) = Some (q', m') ∧
      structs' = <[client q := m']> structs ∧
      client_queue (client q) l = q :: client_queue (client q) l' ∧
      (∀ b, b ≠ client q → client_queue b l' = client_queue b l) ∧
      (∀ x, x ∈ l1 → blocked structs t l (client x))
  end.
Proof.
  intros Hnd E. unfold take_command in E. destruct (next_loop structs t [] l) as [r|] eqn:Er; [|done]. cbn [mbind option_bind] in E.
  pose proof (next_loop_ok structs t l [] [] ltac:(intros a; split; [by intros ?%elem_of_nil|done]) ltac:(by intros a ?%elem_of_nil) r Er) as H.
  cbn [app] in H. destruct r as [q|]; [|by injection E as <- <- <-].
  destruct H as (m & l1 & l2 & -> & Hm & Hr & Hh & Hx). rewrite Hm in E. cbn [mbind option_bind] in E.
  apply bind_Some in E as ([q' m'] & Eq & E). injection E as <- <- <-. destruct (restore_taken_id _ _ _ _ Eq) as (Ha & Hc & _).
  assert (Hrem : remove_addr (addr q) (l1 ++ q :: l2) = l1 ++ l2).
  { clear -Hnd. induction l1 as [|x l1 IH]; cbn [app remove_addr]; [by rewrite decide_True|].
    cbn [app] in Hnd. rewrite fmap_cons in Hnd. apply NoDup_cons in Hnd as [Hni Hnd].
    rewrite decide_False; [by rewrite IH|]. intros Ex. apply Hni. rewrite Ex, fmap_app. apply elem_of_app. right. by left. }
  rewrite Hrem. exists m, m', q, l1, l2. split_and!; try done.
  - rewrite client_queue_app, client_queue_cons, decide_True in Hh |- * by done. rewrite client_queue_app.
    assert (Hn : client_queue (client q) l1 = []); [|by rewrite Hn].
    destruct (client_queue (client q) l1) as [|y ys] eqn:Ey; [done|]. exfalso. cbn in Hh. injection Hh as ->.
    rewrite fmap_app, NoDup_app in Hnd. destruct Hnd as (_ & Hd & _). apply (Hd (addr q)); [|by left].
    apply list_elem_of_fmap_2. assert (Hin : q ∈ client_queue (client q) l1) by (rewrite Ey; by left).
    unfold client_queue in Hin. by apply list_elem_of_filter in Hin as [_ Hin].
  - intros b Hb. by rewrite !client_queue_app, client_queue_cons, decide_False.
Qed.

(** C26: [MQTTAsync_processCommand] takes the first command of a client's queue:
    commands of one client are processed in the order of its queue, none is
    overtaken, whatever the other clients do.  It takes the first command of the
    list that can be processed: every command before it belongs to a client
    whose first command cannot be processed now, and when it takes none this
    holds of every command.  The queues of the other clients do not change. *)
Theorem processCommand_takes_first (structs : gmap positive async) (t : T) l o structs' l' :
  NoDup (addr <$> l) → take_command afterRead mem structs t l = Some (o, structs', l') →
  match o with
  | None => structs' = structs ∧ l' = l ∧ ∀ x, x ∈ l → blocked structs t l (client x)
  | Some q' => ∃ m m' q l1 l2, l = l1 ++ q :: l2 ∧ l' = l1 ++ l2 ∧ addr q' = addr q ∧ client q' = client q ∧
      structs !! client q = Some m ∧ command_ready m t (command q) = true ∧
      restore_taken afterRead mem q (if type (command q) =? PUBLISH then add_buffered m (-1) else m) = Some (q', m') ∧
      structs' = <[client q := m']> structs ∧
      client_queue (client q) l = q :: client_queue (client q) l' ∧
      (∀ b, b ≠ client q → client_queue b l' = client_queue b l) ∧
      (∀ x, x ∈ l1 → blocked structs t l (client x))
  end.
Proof. apply take_ok. Qed.
End Choice.

(** ** Adding a command *)

Section Adding.
Context {S T : Type} `{!Store S, !Transport T}.
Context (beforeWrite : option (list (list Z) → Z * list (list Z))) (mem : bool) (now signal : Z).
Abbreviation async := (MQTTAsyncs S).

Lemma type_stripped c : type (stripped c) = type c.
Proof. unfold stripped, type. destruct c as [? ? ? ? ? ? ? ? d]. by destruct d. Qed.

Lemma persist_added_id q (m : async) q' m' : persist_added beforeWrite mem q m = Some (q', m') →
  addr q' = addr q ∧ client q' = client q ∧ type (command q') = type (command q) ∧
  createOptions m' = createOptions m ∧ noBufferedMessages (buffering m') = noBufferedMessages (buffering m).
Proof.
  unfold persist_added. destruct (phandle (buffering m)) as [s|] eqn:Es; [|by intros [= <- <-]].
  destruct (not_persisted m (command q)); [by intros [= <- <-]|].
  intros ([[[rc seqno] n] s'] & _ & E)%bind_Some. cbn beta iota in E.
  destruct ((type (command q) =? PUBLISH) && (rc =? 0)).
  - apply bind_Some in E as (k & _ & E). injection E as <- <-. split_and!; try done. apply type_stripped.
  - by injection E as <- <-.
Qed.

Definition buffer_full (m : async) : Prop :=
  ∃ o, createOptions m = Some o ∧ maxBufferedMessages o ≤ noBufferedMessages (buffering m).

(** The PUBLISH that is deleted, or the count that goes up. *)
Lemma buffer_publish_ok q (m : async) l m' l' : addr q ∉ addr <$> l → NoDup (addr <$> l) →
  buffer_publish q m (l ++ [q]) = Some (m', l') →
  (¬ buffer_full m ∧ m' = add_buffered m 1 ∧ l' = l ++ [q]) ∨
  (buffer_full m ∧ m' = m ∧ (type (command q) = PUBLISH → ∃ x l1 l2, l = l1 ++ x :: l2 ∧ l' = l1 ++ l2 ++ [q] ∧
     is_publish_of (client q) x = true ∧ Forall (λ y, is_publish_of (client q) y = false) l1)).
Proof.
  intros Ha Hnd. unfold buffer_publish, buffer_full. destruct (createOptions m) as [o|]; [|intros [= <- <-]; left; split; [by intros (? & ? & _)|done]].
  destruct (Z.leb_spec (maxBufferedMessages o) (noBufferedMessages (buffering m))) as [Hf|Hf].
  2: { intros [= <- <-]. left. split; [|done]. intros (? & [= ->] & ?). lia. }
  intros E. right. split; [by exists o|]. destruct (List.find (is_publish_of (client q)) (l ++ [q])) as [x|] eqn:Ex.
  - destruct (_ || _) eqn:Ef; [done|]. injection E as <- <-. split; [done|]. intros _.
    apply orb_false_iff in Ef as [Ef _]. apply bool_decide_eq_false in Ef.
    destruct (find_Some_split _ _ _ Ex) as (l1 & l2 & El & Hp & Hl1).
    destruct l2 as [|z l2 _] using rev_ind.
    { apply app_inj_tail in El as [_ ->]. done. }
    rewrite app_comm_cons, app_assoc in El. apply app_inj_tail in El as [-> ->]. exists x, l1, l2. split_and!; [done| |done|done].
    clear -Hnd Ha Ef. assert (Hx : addr x ∉ addr <$> l1).
    { rewrite fmap_app, fmap_cons, NoDup_app in Hnd. destruct Hnd as (_ & Hd & _). intros Hin. apply (Hd _ Hin). by left. }
    clear Hnd Ha. induction l1 as [|y l1 IH]; cbn [app remove_addr]; [by rewrite decide_True|].
    rewrite fmap_cons in Hx. apply not_elem_of_cons in Hx as [Hy Hx]. rewrite decide_False by congruence. by rewrite IH.
  - injection E as <- <-. split; [done|]. intros Ht. exfalso.
    pose proof (find_none _ _ Ex q) as Hn. assert (Hin : In q (l ++ [q])) by (apply in_app_iff; right; by left).
    specialize (Hn Hin). unfold is_publish_of in Hn. rewrite bool_decide_true in Hn by done.
    by rewrite Ht in Hn.
Qed.

(** The command as it is queued. *)
Definition started (m : async) (c : MQTTAsync_command) : MQTTAsync_command :=
  if negb (type c =? CONNECT) || (connect_state (link m) =? NOT_IN_PROGRESS) then with_start c now else c.

Lemma started_same m c : goes_first (started m c) = goes_first c ∧ type (started m c) = type c.
Proof. unfold started. by destruct (_ || _). Qed.

Lemma addCommand_cases cur q0 (m : async) l rc m' l' :
  MQTTAsync_addCommand beforeWrite mem now signal cur q0 m l = Some (rc, m', l') →
  let q := with_command q0 (started m (command q0)) in
  rc = signal ∧
  ((goes_first (command q0) = true ∧ m' = m ∧
    ((l' = l ∧ ∃ h l2, l = h :: l2 ∧ client h = client q0 ∧ type (command h) = type (command q0)) ∨ l' = q :: l ∨
     ∃ x, x ∈ l ∧ client x = client q0 ∧ type (command x) = type (command q0) ∧ l' = q :: remove_addr (addr x) l)) ∨
   (goes_first (command q0) = false ∧ ∃ q1 m1, persist_added beforeWrite mem q m = Some (q1, m1) ∧
    ((type (command q0) = PUBLISH ∧ buffer_publish q1 m1 (l ++ [q1]) = Some (m', l')) ∨
     (type (command q0) ≠ PUBLISH ∧ m' = m1 ∧ l' = l ++ [q1])))).
Proof.
  intros E q. unfold MQTTAsync_addCommand in E. cbv zeta in E. fold (started m (command q0)) in E. fold q in E.
  destruct (started_same m (command q0)) as [Hg Ht]. rewrite Hg, Ht in E.
  destruct (goes_first (command q0)).
  - assert (Hcase : rc = signal ∧ m' = m ∧ ((l' = l ∧ ∃ h l2, l = h :: l2 ∧ client h = client q0 ∧ type (command h) = type (command q0)) ∨ l' = q :: l ∨
      ∃ x, x ∈ l ∧ client x = client q0 ∧ type (command x) = type (command q0) ∧ l' = q :: remove_addr (addr x) l)).
    { destruct l as [|h l]; [injection E as <- <- <-; auto|]. destruct (_ && _) eqn:Hs.
      - injection E as <- <- <-. split; [done|]. split; [done|]. left. split; [done|]. exists h, l.
        apply andb_true_iff in Hs as [Hs1%bool_decide_eq_true Hs2%Z.eqb_eq]. done.
      - destruct (find_item _ _ _) as [x|] eqn:Ex; injection E as <- <- <-; [|by auto]. split; [done|]. split; [done|].
        right. right. exists x. apply find_item_in in Ex as [Hin Hx]. split; [done|].
        unfold clientCompareConnectCommand in Hx. apply andb_true_iff in Hx as [Hx _]. apply andb_true_iff in Hx as [Hx1%bool_decide_eq_true Hx2%Z.eqb_eq].
        cbn in Hx1, Hx2. rewrite Hx2, Ht. done. }
    destruct Hcase as (-> & -> & Hcase). split; [done|]. by left.
  - apply bind_Some in E as ([q1 m1] & E1 & E). apply bind_Some in E as ([m2 l2] & E2 & E). injection E as <- <- <-.
    split; [done|]. right. split; [done|]. exists q1, m1. split; [done|].
    destruct (Z.eqb_spec (type (command q0)) PUBLISH); [by left|right]. by injection E2 as <- <-.
Qed.

(** What happens to the queue [old] of the command's client. *)
Inductive queued (c : MQTTAsync_command) (q : MQTTAsync_queuedCommand) (old : list MQTTAsync_queuedCommand)
    : list MQTTAsync_queuedCommand → Prop :=
  | ToTheFront : goes_first c = true → queued c q old (q :: old)
  | Replaces u x v : goes_first c = true → old = u ++ x :: v → type (command x) = type c → queued c q old (q :: u ++ v)
  | Ignored h v : goes_first c = true → old = h :: v → type (command h) = type c → queued c q old old
  | ToTheBack : goes_first c = false → queued c q old (old ++ [q])
  | DropsOldest u x v : goes_first c = false → type c = PUBLISH → old = u ++ x :: v → type (command x) = PUBLISH →
      Forall (λ y, type (command y) ≠ PUBLISH) u → queued c q old (u ++ v ++ [q]).

Lemma queue_not_publish a u : Forall (λ y, is_publish_of a y = false) u → Forall (λ y, type (command y) ≠ PUBLISH) (client_queue a u).
Proof.
  intros Hu. apply Forall_forall. intros y [Hy Hin]%list_elem_of_filter. rewrite Forall_forall in Hu.
  specialize (Hu y Hin). unfold is_publish_of in Hu. unfold of_client in Hy. rewrite bool_decide_true in Hu by done.
  by apply Z.eqb_neq in Hu.
Qed.

Lemma addCommand_ok cur q0 (m : async) l rc m' l' :
  NoDup (addr <$> l) → addr q0 ∉ addr <$> l →
  MQTTAsync_addCommand beforeWrite mem now signal cur q0 m l = Some (rc, m', l') →
  rc = signal ∧ NoDup (addr <$> l') ∧
  (∀ b, b ≠ client q0 → client_queue b l' = client_queue b l) ∧
  ∃ q, addr q = addr q0 ∧ client q = client q0 ∧ type (command q) = type (command q0) ∧
    queued (command q0) q (client_queue (client q0) l) (client_queue (client q0) l') ∧
    (client_queue (client q0) l' = client_queue (client q0) l ∨ q ∈ l').
Proof.
  intros Hnd Hfresh E. apply addCommand_cases in E. cbv zeta in E. set (q := with_command q0 (started m (command q0))) in E.
  assert (Hq : addr q = addr q0 ∧ client q = client q0) by done. destruct Hq as [Hqa Hqc].
  assert (Hqt : type (command q) = type (command q0)) by apply started_same.
  assert (Hfront : NoDup (addr <$> q :: l)) by (rewrite fmap_cons; by constructor).
  destruct E as (-> & [(Hgf & -> & Hcase)|(Hgf & q1 & m1 & E1 & Hcase)]).
  - destruct Hcase as [(-> & h & l2 & -> & Hh & Hht)|[-> |(x & Hin & Hxc & Hxt & ->)]].
    + split; [done|]. split; [done|]. split; [done|]. exists q. split_and!; [done|done|done| |by left].
      apply (Ignored _ _ _ h (client_queue (client q0) l2)); [done| |done]. by rewrite client_queue_cons, decide_True.
    + split; [done|]. split; [done|]. split; [intros b Hb; by rewrite client_queue_cons, decide_False|].
      exists q. split_and!; [done|done|done| |right; by left]. rewrite client_queue_cons, decide_True by done. by apply ToTheFront.
    + destruct (remove_addr_split x l Hnd Hin) as (l1 & l2 & -> & ->). split; [done|]. split.
      { rewrite fmap_cons, fmap_app. rewrite fmap_app, fmap_cons in Hnd, Hfresh. apply NoDup_cons. split.
        - intros Hi. apply Hfresh. rewrite elem_of_app, elem_of_cons in *. tauto.
        - rewrite NoDup_app, NoDup_cons in Hnd. rewrite NoDup_app. destruct Hnd as (H1 & H2 & _ & H3). split; [done|]. split; [|done].
          intros y Hy Hy'. apply (H2 y Hy). by right. }
      split; [intros b Hb; rewrite !client_queue_cons, !client_queue_app, client_queue_cons, !decide_False by congruence; done|].
      exists q. split_and!; [done|done|done| |right; by left].
      rewrite client_queue_cons, !client_queue_app, client_queue_cons, !decide_True by done.
      apply (Replaces _ _ _ (client_queue (client q0) l1) x (client_queue (client q0) l2)); [done|done|done].
  - apply persist_added_id in E1 as (Ha1 & Hc1 & Ht1 & _). rewrite Hqt in Ht1.
    assert (Hback : NoDup (addr <$> l ++ [q1])).
    { rewrite fmap_app, NoDup_app. split; [done|]. split; [|repeat constructor; by apply not_elem_of_nil].
      intros y Hy ->%list_elem_of_singleton. by rewrite Ha1, Hqa in Hy. }
    split; [done|].
    assert (Hcase' : l' = l ++ [q1] ∨ ∃ x u v, type (command q0) = PUBLISH ∧ l = u ++ x :: v ∧ l' = u ++ v ++ [q1] ∧
      is_publish_of (client q1) x = true ∧ Forall (λ y, is_publish_of (client q1) y = false) u).
    { destruct Hcase as [[Hp E2]|(_ & _ & ->)]; [|by left].
      apply buffer_publish_ok in E2 as [(_ & _ & ->)|(_ & _ & H)]; [by left|right| |done].
      - destruct H as (x & u & v & Hl & Hl2 & Hx & Hu); [by rewrite Ht1|]. by exists x, u, v.
      - by rewrite Ha1, Hqa. }
    clear Hcase. rename Hcase' into Hcase.
    rewrite Hc1, Hqc in Hcase. destruct Hcase as [-> |(x & u & v & Htp & -> & -> & Hx & Hu)].
    + split; [done|]. split.
      { intros b Hb. rewrite client_queue_app, client_queue_cons, decide_False by congruence. by rewrite app_nil_r. }
      exists q1. split_and!; [congruence|congruence|done| |right; apply elem_of_app; right; by left].
      rewrite client_queue_app, client_queue_cons, decide_True by congruence. by apply ToTheBack.
    + unfold is_publish_of in Hx. apply andb_true_iff in Hx as [Hx1%bool_decide_eq_true Hx2%Z.eqb_eq]. split.
      { rewrite <-app_assoc, <-app_comm_cons, fmap_app, fmap_cons, NoDup_app in Hback. rewrite fmap_app, NoDup_app.
        destruct Hback as (H1 & H2 & [_ H3]%NoDup_cons). split; [done|]. split; [|done]. intros y Hy Hy'. apply (H2 y Hy). by right. }
      split.
      { intros b Hb. rewrite !client_queue_app, !client_queue_cons, !decide_False by congruence. by rewrite app_nil_r. }
      exists q1. split_and!; [congruence|congruence|done| |right; rewrite !elem_of_app; right; right; by left].
      rewrite !client_queue_app, !client_queue_cons, !decide_True by congruence.
      apply (DropsOldest _ _ _ _ x); [done|done|done|done|by apply queue_not_publish].
Qed.

(** [MQTTAsync_addCommand] changes the queue of one client.  A CONNECT, or a
    DISCONNECT of the library, goes to the front: it replaces a command of the
    same type, and is ignored if there is one at the head of the list.  Anything
    else goes to the back, and a PUBLISH that finds the buffer full takes the
    place of the oldest PUBLISH of its client. *)
Theorem addCommand_queues cur q0 (m : async) l rc m' l' :
  NoDup (addr <$> l) → addr q0 ∉ addr <$> l →
  MQTTAsync_addCommand beforeWrite mem now signal cur q0 m l = Some (rc, m', l') →
  rc = signal ∧ NoDup (addr <$> l') ∧
  (∀ b, b ≠ client q0 → client_queue b l' = client_queue b l) ∧
  ∃ q, addr q = addr q0 ∧ client q = client q0 ∧ type (command q) = type (command q0) ∧
    queued (command q0) q (client_queue (client q0) l) (client_queue (client q0) l') ∧
    (client_queue (client q0) l' = client_queue (client q0) l ∨ q ∈ l').
Proof. apply addCommand_ok. Qed.
End Adding.

(** ** The number of buffered messages *)

Definition publish_count (a : positive) (l : list MQTTAsync_queuedCommand) : Z :=
  publishes (client_queue a l).

Lemma publishes_app l1 l2 : publishes (l1 ++ l2) = publishes l1 + publishes l2.
Proof. unfold publishes. rewrite filter_app. lens. Qed.

Lemma publishes_cons q l : publishes (q :: l) = (if type (command q) =? PUBLISH then 1 else 0) + publishes l.
Proof.
  unfold publishes. rewrite filter_cons. destruct (Z.eqb_spec (type (command q)) PUBLISH);
    [rewrite decide_True by done; cbn [length]|rewrite decide_False by done]; lia.
Qed.

Section Counting.
Context {S T : Type} `{!Store S, !Transport T}.
Context (beforeWrite : option (list (list Z) → Z * list (list Z))) (afterRead : option (list Z → Z * list Z)).
Context (mem : bool) (now signal : Z).
Abbreviation async := (MQTTAsyncs S).

(** Every client counts its PUBLISH commands in the list. *)
Definition counted (structs : gmap positive async) (l : list MQTTAsync_queuedCommand) : Prop :=
  ∀ a m, structs !! a = Some m → noBufferedMessages (buffering m) = publish_count a l.

Lemma goes_first_type c : goes_first c = true → type c ≠ PUBLISH.
Proof. unfold goes_first, type. by destruct (details c). Qed.

Lemma queued_publishes c q old new : type (command q) = type c → queued c q old new →
  publishes new = publishes old + (if type c =? PUBLISH then 1 else 0) ∨
  (type c = PUBLISH ∧ publishes new = publishes old).
Proof.
  intros Ht [Hg|u x v Hg -> Hx|h v Hg -> Hh|Hg|u x v Hg Hp -> Hx Hu].
  - left. rewrite publishes_cons, Ht. lia.
  - left. apply goes_first_type, Z.eqb_neq in Hg. rewrite publishes_cons, !publishes_app, publishes_cons, Ht, Hx, Hg. lia.
  - left. apply goes_first_type, Z.eqb_neq in Hg. rewrite Hg. lia.
  - left. rewrite publishes_app, publishes_cons, Ht. change (publishes []) with 0. lia.
  - right. split; [done|]. rewrite !publishes_app, !publishes_cons, Ht, Hp, Hx. change (publishes []) with 0. lia.
Qed.

(** The number kept by the client changes with its queue, up to the bound. *)
Lemma addCommand_count cur q0 (m : async) l rc m' l' :
  NoDup (addr <$> l) → addr q0 ∉ addr <$> l →
  MQTTAsync_addCommand beforeWrite mem now signal cur q0 m l = Some (rc, m', l') →
  createOptions m' = createOptions m ∧
  noBufferedMessages (buffering m') - noBufferedMessages (buffering m) = publish_count (client q0) l' - publish_count (client q0) l ∧
  (noBufferedMessages (buffering m') = noBufferedMessages (buffering m) ∨
   (¬ buffer_full m ∧ noBufferedMessages (buffering m') = noBufferedMessages (buffering m) + 1)).
Proof.
  intros Hnd Hfresh E. destruct (addCommand_ok _ _ _ _ cur q0 m l rc m' l' Hnd Hfresh E) as (_ & _ & _ & q & _ & _ & Ht & Hq & _).
  pose proof (queued_publishes _ _ _ _ Ht Hq) as Hcount. unfold publish_count.
  apply addCommand_cases in E. cbv zeta in E. destruct (started_same now m (command q0)) as [_ Htc].
  destruct E as (_ & [(Hgf & -> & _)|(Hgf & q1 & m1 & E1 & Hcase)]).
  - apply goes_first_type, Z.eqb_neq in Hgf. rewrite Hgf in Hcount. apply Z.eqb_neq in Hgf. split; [done|]. split; [|by left].
    destruct Hcount as [-> |[? _]]; [lia|done].
  - apply persist_added_id in E1 as (Ha1 & Hc1 & Ht1 & Ho1 & Hn1). destruct Hcase as [[Hp E2]|(Hp & -> & ->)].
    2: { split; [done|]. rewrite Hn1. split; [|by left]. destruct Hcount as [-> |[? _]]; [|done].
      rewrite (proj2 (Z.eqb_neq _ _)) by done. lia. }
    assert (Hfull : buffer_full m1 ↔ buffer_full m) by (unfold buffer_full; by rewrite Ho1, Hn1).
    assert (Hfresh1 : addr q1 ∉ addr <$> l) by by rewrite Ha1.
    apply buffer_publish_ok in E2; [|done|done]. rewrite Hfull in E2.
    destruct E2 as [(Hnf & -> & ->)|(Hf & -> & Hx)].
    + cbn. rewrite Hn1. split; [done|]. split; [|by right]. clear Hcount Hq.
      rewrite client_queue_app, client_queue_cons, decide_True by (by rewrite Hc1).
      change (client_queue (client q0) []) with (@nil MQTTAsync_queuedCommand). rewrite app_nil_r, publishes_app, publishes_cons, Ht1. cbn [with_command command]. rewrite Htc, Hp.
      change (publishes []) with 0. change (PUBLISH =? PUBLISH) with true. cbv iota. lia.
    + split; [done|]. rewrite Hn1. split; [|by left]. clear Hcount Hq.
      destruct Hx as (x & l1 & l3 & -> & -> & Hx & _); [by rewrite Ht1; cbn; rewrite Htc|].
      rewrite Hc1 in Hx. cbn [with_command client] in Hx. unfold is_publish_of in Hx.
      apply andb_true_iff in Hx as [Hx1%bool_decide_eq_true Hx2].
      rewrite !client_queue_app, !client_queue_cons, !decide_True by (by rewrite ?Hc1).
      rewrite !publishes_app, !publishes_cons, Ht1. cbn [with_command command]. rewrite Htc, Hp, Hx2.
      change (publishes []) with 0. change (PUBLISH =? PUBLISH) with true. cbv iota. change (publishes (client_queue _ [])) with 0. lia.
Qed.

Lemma restore_taken_count (q : MQTTAsync_queuedCommand) (m : async) q' m' : restore_taken afterRead mem q m = Some (q', m') →
  noBufferedMessages (buffering m') = noBufferedMessages (buffering m).
Proof.
  unfold restore_taken. destruct (phandle (buffering m)) as [s|]; [|by intros [= <- <-]].
  intros (q1 & _ & E)%bind_Some. destruct (MQTTAsync_unpersistCommand _ _ s) as [[rc s']|]; [|done]. cbn [mbind option_bind] in E. by injection E as <- <-.
Qed.

(** The number of buffered messages a client keeps is the number of its PUBLISH
    commands in the list: adding a command and taking one keep this so, and
    adding one never takes the number past the maximum of the create options (it
    stays where it is if the commands restored at the start were more). *)
Theorem buffered_messages (structs : gmap positive async) (t : T) l :
  NoDup (addr <$> l) → counted structs l →
  (∀ cur q0 m rc m' l', structs !! client q0 = Some m → addr q0 ∉ addr <$> l →
     MQTTAsync_addCommand beforeWrite mem now signal cur q0 m l = Some (rc, m', l') →
     counted (<[client q0 := m']> structs) l' ∧
     ∀ o, createOptions m = Some o →
       noBufferedMessages (buffering m') ≤ Z.max (noBufferedMessages (buffering m)) (maxBufferedMessages o)) ∧
  (∀ o structs' l', take_command afterRead mem structs t l = Some (o, structs', l') → counted structs' l').
Proof.
  intros Hnd Hc. split.
  - intros cur q0 m rc m' l' Hm Hfresh E.
    destruct (addCommand_ok _ _ _ _ cur q0 m l rc m' l' Hnd Hfresh E) as (_ & _ & Hother & _).
    destruct (addCommand_count cur q0 m l rc m' l' Hnd Hfresh E) as (Ho & Hcount & Hone). split.
    + intros b mb. destruct (decide (b = client q0)) as [->|Hb].
      * rewrite lookup_insert_eq. intros [= <-]. specialize (Hc _ _ Hm). lia.
      * rewrite lookup_insert_ne by done. intros Hmb. unfold publish_count. rewrite Hother by done. by apply Hc.
    + intros o Hopt. destruct Hone as [->|[Hnf ->]]; [lia|].
      destruct (Z.le_gt_cases (maxBufferedMessages o) (noBufferedMessages (buffering m))); [|lia].
      exfalso. apply Hnf. by exists o.
  - intros o structs' l' E. pose proof (take_ok afterRead mem structs t l o structs' l' Hnd E) as H.
    destruct o as [q'|]; [|by destruct H as (-> & -> & _)].
    destruct H as (m & m' & q & l1 & l2 & -> & -> & _ & _ & Hm & _ & Hr & -> & Hqueue & Hother & _).
    intros b mb Hmb. destruct (decide (b = client q)) as [->|Hb].
    + rewrite lookup_insert_eq in Hmb. injection Hmb as <-. apply restore_taken_count in Hr.
      specialize (Hc _ _ Hm). unfold publish_count in *. rewrite Hqueue, publishes_cons in Hc. rewrite Hr.
      destruct (type (command q) =? PUBLISH); cbn [buffering add_buffered with_buffering noBufferedMessages]; lia.
    + rewrite lookup_insert_ne in Hmb by done. specialize (Hc b mb Hmb). unfold publish_count in *. by rewrite (Hother b Hb).
Qed.
End Counting.

(** ** Message identifiers *)

Section Identifiers.
Context {S : Type}.
Abbreviation async := (MQTTAsyncs S).

(** The identifiers in use: by the commands of all clients, by the messages in
    flight and by the commands that wait for an answer. *)
Definition ids_in_use (m : async) (l : list MQTTAsync_queuedCommand) : list Z :=
  ((token ∘ command) <$> l) ++ (msgid <$> outboundMsgs (ac m)) ++ ((token ∘ command) <$> responses m).

Definition id_message (id : Z) : Messages := mkMessage 0 0 id 0 MQTTProperties_initializer None 0 0.

Lemma taken_id_find (m : async) l id :
  taken_id m l id = match find_msg id (id_message <$> ids_in_use m l) with Some _ => true | None => false end.
Proof.
  assert (H : ∀ ids, match find_msg id (id_message <$> ids) with Some _ => true | None => false end = existsb (λ i, i =? id) ids).
  { induction ids as [|i ids IH]; [done|]. rewrite fmap_cons. cbn [find_msg existsb msgid id_message]. by destruct (i =? id). }
  rewrite H. unfold taken_id, ids_in_use. rewrite !existsb_app.
  assert (Hm : ∀ (A : Type) (f : A → Z) xs, existsb (λ i, i =? id) (f <$> xs) = existsb (λ x, f x =? id) xs).
  { intros A f xs. induction xs as [|x xs IH]; [done|]. rewrite fmap_cons. cbn [existsb]. by rewrite IH. }
  rewrite !Hm. by rewrite orb_assoc.
Qed.

Lemma async_assign_loop_eq (m : async) l start : ∀ fuel id,
  async_assign_loop fuel m l start id = assign_loop fuel start id (id_message <$> ids_in_use m l).
Proof.
  induction fuel as [|fuel IH]; intros id; cbn [async_assign_loop assign_loop]; rewrite taken_id_find;
    destruct (find_msg id _); try done. by rewrite IH.
Qed.

(** [MQTTAsync_assignMsgId] ends and answers the first identifier after the
    last one used, cyclically in 1..65535, that no command of any client, no
    message in flight and no command waiting for its answer has, and records it;
    or 0, the client unchanged, when every identifier other than the last one is
    in use.  For a client that has not used any identifier, with all of them
    taken, the loop never ends. *)
Theorem async_assignMsgId_next (m : async) l : 0 ≤ msgID (ac m) ≤ MAX_MSG_ID →
  ((msgID (ac m) ≠ 0 ∨ ∃ id, 1 ≤ id ≤ MAX_MSG_ID ∧ id ∉ ids_in_use m l) →
   ∃ r m', MQTTAsync_assignMsgId m l = Some (r, m') ∧
    ((1 ≤ r ≤ MAX_MSG_ID ∧ r ∉ ids_in_use m l ∧ m' = with_ac m (with_msgID (ac m) r) ∧
      ∃ n, 1 ≤ n ∧ r = id_after (msgID (ac m)) n ∧ ∀ j, 1 ≤ j < n → id_after (msgID (ac m)) j ∈ ids_in_use m l) ∨
     (r = 0 ∧ m' = m ∧ ∀ id, 1 ≤ id ≤ MAX_MSG_ID → id ≠ msgID (ac m) → id ∈ ids_in_use m l))) ∧
  (msgID (ac m) = 0 → (∀ id, 1 ≤ id ≤ MAX_MSG_ID → id ∈ ids_in_use m l) →
   ∀ fuel, async_assign_loop fuel m l (msgID (ac m)) (next_id (msgID (ac m))) = None).
Proof.
  intros Hr. set (c := with_outbound (ac m) (id_message <$> ids_in_use m l)).
  assert (Hu : ∀ id, used c id ↔ id ∈ ids_in_use m l).
  { intros id. unfold used, c. cbn [outboundMsgs with_outbound]. rewrite <-list_fmap_compose.
    assert (E : msgid ∘ id_message <$> ids_in_use m l = ids_in_use m l); [|by rewrite E].
    transitivity (Datatypes.id <$> ids_in_use m l); [by apply list_fmap_ext|apply list_fmap_id]. }
  destruct (assignMsgId_ok c Hr) as [H1 H2]. split.
  - intros Hex. destruct H1 as (r & c' & E & H).
    { destruct Hex as [?|(id & Hid & Hn)]; [by left|right]. exists id. by rewrite Hu. }
    unfold MQTTProtocol_assignMsgId in E. unfold MQTTAsync_assignMsgId. rewrite async_assign_loop_eq.
    change (msgID c) with (msgID (ac m)) in *. change (outboundMsgs c) with (id_message <$> ids_in_use m l) in E.
    apply bind_Some in E as (id & E & Er). rewrite E. cbn [mbind option_bind]. injection Er as <- <-.
    eexists id, _. split; [done|]. destruct H as [(Hrange & Hn & _ & n & Hn1 & -> & Hj)|(-> & _ & Hall)].
    + left. rewrite Hu in Hn. split; [done|]. split; [done|]. split; [by rewrite (proj2 (Z.eqb_neq _ 0)) by lia|].
      exists n. split; [done|]. split; [done|]. intros j Hj'. apply Hu. by apply Hj.
    + right. split; [done|]. split; [done|]. intros id Hid Hne. apply Hu. by apply Hall.
  - intros H0 Hall fuel. rewrite async_assign_loop_eq. apply (H2 H0). intros id Hid. apply Hu. by apply Hall.
Qed.
End Identifiers.

(** ** Witnesses *)

Definition sample_options : MQTTAsync_createOptions := mkCreateOptions 2 1 2 5 0 1 1 1.
Definition no_command : MQTTAsync_command := blank_command 0 (DConnect 0 0).
Definition no_retry : retry_state := mkRetry true false 1 60 1 1 0 false false.
Definition sample_async {S : Type} (n : Z) (store : option S) : MQTTAsyncs S :=
  mkAsync (sample_client 3) (mkLink 0 5 false false 10 0) (mkBuffering n 0 store) (Some sample_options) no_retry
    (mkCallbacks None None None None None None) [] no_command no_command None (bs "broker:1883") [] false 30 None None ([], 0).
Definition publish_command (tok : Z) : MQTTAsync_command :=
  blank_command tok (DPublish (Some (bs "hall/1")) 1 (Some [49]) 1 0).
Definition queued_publish (a : positive) (tok : Z) : MQTTAsync_queuedCommand :=
  mkQueued a (publish_command tok) 1 0 false None.
Definition two_publishes : list MQTTAsync_queuedCommand := [queued_publish 1 11; queued_publish 2 12].
Definition sample_structs : gmap positive (MQTTAsyncs mem_store) := {[ 1%positive := sample_async 2 None ]}.

Lemma sample_counted : counted sample_structs two_publishes ∧ NoDup (addr <$> two_publishes).
Proof.
  split; [|apply (bool_decide_eq_true_1 _); vm_compute; reflexivity].
  unfold counted, sample_structs. intros a m [<- <-]%lookup_singleton_Some. reflexivity.
Qed.

Lemma processCommand_takes_first_witness :
  ∃ q' structs' l', take_command None true sample_structs sample_net two_publishes = Some (Some q', structs', l') ∧ addr q' = 1%positive.
Proof.
  destruct (take_command None true sample_structs sample_net two_publishes) as [[[o structs'] l']|] eqn:E; [|by vm_compute in E].
  pose proof (processCommand_takes_first None true sample_structs sample_net two_publishes o structs' l' (proj2 sample_counted) E) as H.
  vm_compute in E. injection E as <- <- <-. cbv iota in H. clear H. eexists _, _, _. split; reflexivity.
Defined.

(** The buffer is full: the oldest message makes room. *)
Lemma addCommand_queues_witness :
  ∃ m' l', MQTTAsync_addCommand None true 0 0 None (queued_publish 3 13) (sample_async (S := mem_store) 2 None) two_publishes = Some (0, m', l') ∧
    NoDup (addr <$> l').
Proof.
  destruct (MQTTAsync_addCommand None true 0 0 None (queued_publish 3 13) (sample_async (S := mem_store) 2 None) two_publishes)
    as [[[rc m'] l']|] eqn:E; [|by vm_compute in E].
  destruct (addCommand_queues None true 0 0 None (queued_publish 3 13) (sample_async (S := mem_store) 2 None) two_publishes rc m' l'
    (proj2 sample_counted) ltac:(apply (bool_decide_eq_true_1 _); vm_compute; reflexivity) E) as (-> & Hnd & _).
  by exists m', l'.
Defined.

Lemma buffered_messages_witness :
  counted sample_structs two_publishes ∧
  ∀ o structs' l', take_command None true sample_structs sample_net two_publishes = Some (o, structs', l') → counted structs' l'.
Proof.
  split; [apply sample_counted|].
  exact (proj2 (buffered_messages None None true 0 0 sample_structs sample_net two_publishes (proj2 sample_counted) (proj1 sample_counted))).
Defined.

Lemma async_assignMsgId_next_witness :
  0 ≤ msgID (ac (sample_async (S := mem_store) 0 None)) ≤ MAX_MSG_ID ∧
  ∃ r m', MQTTAsync_assignMsgId (sample_async (S := mem_store) 0 None) two_publishes = Some (r, m').
Proof.
  assert (H : 0 ≤ msgID (ac (sample_async (S := mem_store) 0 None)) ≤ MAX_MSG_ID) by (split; done).
  split; [exact H|].
  destruct (proj1 (async_assignMsgId_next (sample_async (S := mem_store) 0 None) two_publishes H)) as (r & m' & E & _).
  - right. exists 1. split; [done|]. apply (bool_decide_eq_true_1 _). vm_compute. reflexivity.
  - by exists r, m'.
Defined.

End AsyncQueue.
