(* ===== verification/AsyncConnect.v ===== *)
(** * Connecting again (paho.mqtt.c/src/MQTTAsync.c)

    Which server and which version of the protocol an attempt to connect uses,
    which one follows when it fails, and how long the client waits before it
    tries again on its own. *)
From S2P Require Import Prelude Libc PacketCodec Props Packets Protocol Persistence PersistenceQueue Connect AsyncCommands AsyncQueue.

Module AsyncConnect.
Import Libc Codecs Properties Packets Protocol Persistence PersistenceQueue Connect AsyncCommands AsyncQueue.

#[local] Ltac Zify.zify_post_hook ::= Z.to_euclidean_division_equations.

(** ** The time between two attempts *)

Definition to_int (x : Z) : option Z := if bool_decide (is_s32 x) then Some x else None.

Definition RAND_MAX := 2147483647.

(** The [do] loop: [rands] are the answers of [rand] to come, [None] when they
    are all beyond the buckets. *)
Fixpoint draw (limit : Z) (rands : list Z) : option (Z * list Z) :=
  match rands with
  | [] => None
  | r :: rands' => if limit <=? r then draw limit rands' else Some (r, rands')
  end.

(** The products with 1.2 and the quotients by 1.2 of integers of 32 bits are
    those of 6/5 once truncated: the error of the doubles is smaller than the
    distance to the next integer. *)
Definition max_sleep (base maxInterval : Z) : Z := Z.quot (6 * Z.min maxInterval base) 5.
Definition min_sleep (base minInterval : Z) : Z := Z.quot (5 * Z.max minInterval base) 6.

Definition MQTTAsync_randomJitter (base minInterval maxInterval : Z) (rands : list Z) : option (Z * list Z) :=
  hi ← to_int (max_sleep base maxInterval);
  let lo := min_sleep base minInterval in
  if hi <=? lo then Some (lo, rands)
  else
    range ← to_int (hi - lo + 1);
    let buckets := RAND_MAX / range in
    '(r, rands) ← draw (buckets * range) rands;
    Some (lo + r / buckets, rands).

Section Connecting.
Context {S : Type}.
Abbreviation async := (MQTTAsyncs S).

Definition with_intervals (m : async) (iv base failed : Z) (retrying reconnectNow : bool) : async :=
  let r := retry m in
  with_retry m (mkRetry (shouldBeConnected r) (automaticReconnect r) (minRetryInterval r) (maxRetryInterval r)
    iv base failed retrying reconnectNow).

Definition MQTTAsync_startConnectRetry (now : Z) (m : async) (rands : list Z) : option (async * list Z) :=
  let r := retry m in
  if automaticReconnect r && shouldBeConnected r then
    base ← (if retrying r then d ← to_int (currentIntervalBase r * 2); Some (Z.min d (maxRetryInterval r))
            else Some (minRetryInterval r));
    '(iv, rands) ← MQTTAsync_randomJitter base (minRetryInterval r) (maxRetryInterval r) rands;
    Some (with_intervals m iv base now true (reconnectNow r), rands)
  else Some (m, rands).

(** ** The server and the version of an attempt *)

(** The members of a CONNECT; those of another command are other data. *)
Definition conn_of (c : MQTTAsync_command) : option (Z * Z) :=
  match details c with DConnect currentURI version => Some (currentURI, version) | _ => None end.

Definition MQTTVERSION_DEFAULT := 0.
Definition MQTTVERSION_3_1 := 3.

Definition MQTTAsync_checkConn (conn : Z * Z) (m : async) : bool :=
  (conn.1 + 1 <? len (serverURIs m)) || ((conn.2 =? 4) && (MQTTVersion (link m) =? MQTTVERSION_DEFAULT)).

Definition URI_TCP := bs "tcp://".
Definition URI_WS := bs "ws://".

(** The address without its scheme, and whether it is for a web socket. *)
Definition strip_scheme (uri : list Z) (websocket : bool) : list Z * bool :=
  if starts_with URI_TCP uri then (drop (length URI_TCP) uri, websocket)
  else if starts_with URI_WS uri then (drop (length URI_WS) uri, true)
  else (uri, websocket).

(** [websocket] of the client is set by a ws:// address and never cleared. *)
Definition connect_uri (m : async) (currentURI : Z) : option (list Z * bool) :=
  if (0 <? len (serverURIs m)) && (currentURI <? len (serverURIs m)) then
    if currentURI <? 0 then None
    else uri ← serverURIs m !! Z.to_nat currentURI; Some (strip_scheme uri (websocket m))
  else Some (serverURI m, websocket m).

Definition attempt_version (m : async) (version : Z) : Z :=
  if MQTTVersion (link m) =? MQTTVERSION_DEFAULT then
    if version =? MQTTVERSION_DEFAULT then MQTTVERSION_3_1_1
    else if version =? MQTTVERSION_3_1_1 then MQTTVERSION_3_1
    else version
  else MQTTVersion (link m).

(** What the CONNECT is changed to for the attempt after one that failed. *)
Definition next_attempt (m : async) (conn : Z * Z) : Z * Z :=
  if MQTTVersion (link m) =? MQTTVERSION_DEFAULT then
    if conn.2 =? MQTTVERSION_3_1 then (conn.1 + 1, MQTTVERSION_DEFAULT) else conn
  else (conn.1 + 1, conn.2).

(** The attempts made for a CONNECT when all of them fail: the server (its
    position in [serverURIs], or any when there is none) and the version. *)
Fixpoint attempts (fuel : nat) (m : async) (conn : Z * Z) : option (list (Z * Z)) :=
  match fuel with
  | O => None
  | Datatypes.S fuel' =>
      let tried := (conn.1, attempt_version m conn.2) in
      if MQTTAsync_checkConn tried m then l ← attempts fuel' m (next_attempt m tried); Some (tried :: l)
      else Some [tried]
  end.

(** ** Asking for a connection again *)

(** The CONNECT to queue, if one has to be; [reconnectNow] wakes the loop of
    [MQTTAsync_checkTimeouts] otherwise. *)
Definition connect_again (m : async) : option MQTTAsync_command :=
  '(u, v) ← conn_of (connect m);
  Some (with_details (connect m) (DConnect u (if MQTTVersion (link m) =? MQTTVERSION_DEFAULT then 0 else v))).

(** After a success or a new start, [MQTTAsync_startConnectRetry] runs at each
    of these times. *)
Fixpoint failed_at (nows : list Z) (m : async) (rands : list Z) : option (async * list Z) :=
  match nows with
  | [] => Some (m, rands)
  | now :: nows' => '(m, rands) ← MQTTAsync_startConnectRetry now m rands; failed_at nows' m rands
  end.
End Connecting.

(** ** Jitter *)

Lemma to_int_ok x : is_s32 x → to_int x = Some x.
Proof. intros H. unfold to_int. by rewrite bool_decide_eq_true_2. Qed.

Lemma draw_ok limit rands : 2 ^ 30 ≤ limit → Forall (λ r, 0 ≤ r ≤ RAND_MAX) rands → (∃ r, r ∈ rands ∧ r < 2 ^ 30) →
  ∃ r rands', draw limit rands = Some (r, rands') ∧ 0 ≤ r < limit ∧ Forall (λ r, 0 ≤ r ≤ RAND_MAX) rands' ∧
    len (filter (λ r, r < 2 ^ 30) rands) ≤ len (filter (λ r, r < 2 ^ 30) rands') + 1.
Proof.
  intros Hl. induction 1 as [|r rands Hr Hrs IH]; intros (x & Hx & Hlt); [by apply elem_of_nil in Hx|]. cbn [draw].
  destruct (Z.leb_spec limit r).
  - apply elem_of_cons in Hx as [->|Hx]; [lia|]. destruct IH as (r' & rs & E & H1 & H2 & H3); [by exists x|].
    exists r', rs. rewrite filter_cons_False by lia. done.
  - exists r, rands. split_and!; [done|lia|lia|done|]. rewrite filter_cons. case_decide; cbn [length]; lia.
Qed.

Lemma buckets_limit range : 1 ≤ range ≤ 2 ^ 30 → 1 ≤ RAND_MAX / range ∧ 2 ^ 30 ≤ RAND_MAX / range * range.
Proof.
  intros Hr. unfold RAND_MAX. pose proof (Z.div_mod 2147483647 range ltac:(lia)) as E.
  pose proof (Z.mod_pos_bound 2147483647 range ltac:(lia)). split; [|nia].
  apply Z.div_le_lower_bound; lia.
Qed.

Lemma jitter_range base mn mx rands : 0 ≤ mn ≤ base → base ≤ mx → base < 2 ^ 30 →
  Forall (λ r, 0 ≤ r ≤ RAND_MAX) rands → (∃ r, r ∈ rands ∧ r < 2 ^ 30) →
  ∃ iv rands', MQTTAsync_randomJitter base mn mx rands = Some (iv, rands') ∧
    Z.quot (5 * base) 6 ≤ iv ≤ Z.quot (6 * base) 5 ∧ Forall (λ r, 0 ≤ r ≤ RAND_MAX) rands' ∧
    len (filter (λ r, r < 2 ^ 30) rands) ≤ len (filter (λ r, r < 2 ^ 30) rands') + 1.
Proof.
  intros Hmn Hmx Hb Hrs Hex. unfold MQTTAsync_randomJitter, max_sleep, min_sleep.
  rewrite Z.min_r, Z.max_r by lia. rewrite !Z.quot_div_nonneg by lia. rewrite to_int_ok by (unfold is_s32; lia). cbn [mbind option_bind].
  destruct (Z.leb_spec (6 * base / 5) (5 * base / 6)).
  { exists (5 * base / 6), rands. split_and!; [done|lia|lia|done|lia]. }
  rewrite to_int_ok by (unfold is_s32; lia). cbn [mbind option_bind].
  set (range := _ - _ + 1). destruct (buckets_limit range ltac:(lia)) as [Hk Hlim].
  destruct (draw_ok _ rands Hlim Hrs Hex) as (r & rs & -> & Hr & Hrs' & Hn). cbn [mbind option_bind].
  eexists _, rs. split_and!; [done|..|done|done].
  - pose proof (Z.div_pos r (RAND_MAX / range)). lia.
  - assert (r / (RAND_MAX / range) < range) by (apply Z.div_lt_upper_bound; lia). lia.
Qed.

(** The interval drawn is uniform: a number of [rand] below the limit gives the
    interval [iv] exactly when it lies in the bucket of [iv], and the buckets of
    the intervals from [min_sleep] to [max_sleep] all have the same size and fill
    the numbers below the limit. *)
Theorem jitter_uniform base mn mx r rands iv :
  0 ≤ mn → 0 ≤ mx → 0 ≤ base < 2 ^ 30 → mx < 2 ^ 30 → min_sleep base mn < max_sleep base mx →
  let range := max_sleep base mx - min_sleep base mn + 1 in
  let buckets := RAND_MAX / range in
  0 ≤ r < buckets * range →
  MQTTAsync_randomJitter base mn mx (r :: rands) = Some (iv, rands) ↔
  min_sleep base mn ≤ iv ≤ max_sleep base mx ∧
  (iv - min_sleep base mn) * buckets ≤ r < (iv - min_sleep base mn + 1) * buckets.
Proof.
  intros Hmn Hmx Hb Hmx' Hlt range buckets Hr. unfold MQTTAsync_randomJitter.
  assert (Hhi : 0 ≤ max_sleep base mx < 2 ^ 31 - 1) by (unfold max_sleep; rewrite Z.quot_div_nonneg; lia).
  assert (Hlo : 0 ≤ min_sleep base mn) by (unfold min_sleep; rewrite Z.quot_div_nonneg; lia).
  rewrite to_int_ok by (clear -Hhi; unfold is_s32; lia). cbn [mbind option_bind]. rewrite (proj2 (Z.leb_gt _ _)) by done.
  fold range. assert (Hrange : 1 ≤ range < 2 ^ 31) by (clear -Hlt Hhi Hlo; unfold range; lia).
  assert (Hr' : range = max_sleep base mx - min_sleep base mn + 1) by done. clearbody range. rewrite to_int_ok by (clear -Hrange; unfold is_s32; lia). cbn [mbind option_bind draw].
  fold buckets. rewrite (proj2 (Z.leb_gt _ _)) by (clear -Hr; lia). cbn [mbind option_bind].
  assert (Hk : 1 ≤ buckets) by (clear -Hrange; unfold buckets, RAND_MAX; apply Z.div_le_lower_bound; lia).
  clearbody buckets.
  pose proof (Z.div_mod r buckets ltac:(lia)) as E. pose proof (Z.mod_pos_bound r buckets ltac:(lia)) as Hm.
  pose proof (Z.div_pos r buckets ltac:(lia) ltac:(lia)).
  assert (r / buckets < range) by (apply Z.div_lt_upper_bound; lia).
  set (q := r / buckets) in *. clearbody q. set (t := r mod buckets) in *. clearbody t.
  set (lo := min_sleep base mn) in *. clearbody lo. set (hi := max_sleep base mx) in *. clearbody hi.
  assert (Hend : q ≤ hi - lo) by lia. clear -E Hm Hk Hend H. split.
  - intros [= <-]. replace (lo + q - lo) with q by lia. split_and!; [lia|lia|nia|nia].
  - intros [Hiv Hin]. do 2 f_equal. assert (q = iv - lo); [nia|lia].
Qed.

(** ** Back-off *)

Section Backoff.
Context {S : Type}.
Abbreviation async := (MQTTAsyncs S).

Lemma startConnectRetry_ok now (m : async) rands base : automaticReconnect (retry m) = true → shouldBeConnected (retry m) = true →
  0 ≤ minRetryInterval (retry m) ≤ maxRetryInterval (retry m) → maxRetryInterval (retry m) < 2 ^ 30 →
  base = (if retrying (retry m) then Z.min (2 * currentIntervalBase (retry m)) (maxRetryInterval (retry m))
          else minRetryInterval (retry m)) →
  (retrying (retry m) = true → minRetryInterval (retry m) ≤ currentIntervalBase (retry m) < 2 ^ 30) →
  Forall (λ r, 0 ≤ r ≤ RAND_MAX) rands → (∃ r, r ∈ rands ∧ r < 2 ^ 30) →
  ∃ iv rands', MQTTAsync_startConnectRetry now m rands =
      Some (with_intervals m iv base now true (reconnectNow (retry m)), rands') ∧
    Z.quot (5 * base) 6 ≤ iv ≤ Z.quot (6 * base) 5 ∧ Forall (λ r, 0 ≤ r ≤ RAND_MAX) rands' ∧
    len (filter (λ r, r < 2 ^ 30) rands) ≤ len (filter (λ r, r < 2 ^ 30) rands') + 1.
Proof.
  intros Ha Hs Hmm Hmx Hbase Hcur Hrs Hex. unfold MQTTAsync_startConnectRetry. rewrite Ha, Hs. cbn [andb].
  assert (Hb : minRetryInterval (retry m) ≤ base ≤ maxRetryInterval (retry m)).
  { rewrite Hbase. destruct (retrying (retry m)); [specialize (Hcur eq_refl)|]; lia. }
  assert (E : (if retrying (retry m) then d ← to_int (currentIntervalBase (retry m) * 2); Some (Z.min d (maxRetryInterval (retry m)))
               else Some (minRetryInterval (retry m))) = Some base).
  { rewrite Hbase. destruct (retrying (retry m)); [|done]. specialize (Hcur eq_refl).
    rewrite to_int_ok by (unfold is_s32; lia). cbn [mbind option_bind]. by rewrite Z.mul_comm. }
  rewrite E. cbn [mbind option_bind].
  destruct (jitter_range base (minRetryInterval (retry m)) (maxRetryInterval (retry m)) rands) as (iv & rs & -> & H1 & H2 & H3); [lia..|done|done|].
  cbn [mbind option_bind]. by exists iv, rs.
Qed.

Lemma failed_at_ok nows : ∀ (m : async) rands k, nows ≠ [] → automaticReconnect (retry m) = true → shouldBeConnected (retry m) = true →
  0 ≤ minRetryInterval (retry m) ≤ maxRetryInterval (retry m) → maxRetryInterval (retry m) < 2 ^ 30 →
  (if retrying (retry m) then currentIntervalBase (retry m) = Z.min (minRetryInterval (retry m) * 2 ^ k) (maxRetryInterval (retry m)) ∧ 0 ≤ k
   else k = -1) →
  Forall (λ r, 0 ≤ r ≤ RAND_MAX) rands → len nows ≤ len (filter (λ r, r < 2 ^ 30) rands) →
  let base := Z.min (minRetryInterval (retry m) * 2 ^ (k + len nows)) (maxRetryInterval (retry m)) in
  ∃ iv now rands', last nows = Some now ∧
    failed_at nows m rands = Some (with_intervals m iv base now true (reconnectNow (retry m)), rands') ∧
    Z.quot (5 * base) 6 ≤ iv ≤ Z.quot (6 * base) 5.
Proof.
  induction nows as [|now nows IH]; intros m rands k Hne Ha Hs Hmm Hmx Hk Hrs Hn; [done|]. clear Hne. cbn [failed_at length] in *.
  assert (Hpow : 0 ≤ k → 1 ≤ 2 ^ k) by (intros; pose proof (Z.pow_pos_nonneg 2 k); lia).
  set (base1 := Z.min (minRetryInterval (retry m) * 2 ^ (k + 1)) (maxRetryInterval (retry m))).
  destruct (startConnectRetry_ok now m rands base1) as (iv & rs & -> & Hiv & Hrs' & Hn'); try done.
  - unfold base1. destruct (retrying (retry m)); [|subst k; change (2 ^ (-1 + 1)) with 1; lia].
    destruct Hk as [-> Hk]. rewrite Z.pow_add_r by lia. change (2 ^ 1) with 2. lia.
  - intros Hr. rewrite Hr in Hk. destruct Hk as [-> Hk]. specialize (Hpow Hk). nia.
  - destruct (filter _ rands) as [|r rs'] eqn:E; [cbn [length] in Hn; lia|]. exists r.
    assert (Hr : r ∈ filter (λ r, r < 2 ^ 30) rands) by (rewrite E; left). apply list_elem_of_filter in Hr. naive_solver.
  - cbn [mbind option_bind]. destruct nows as [|now' nows'].
    + cbn [failed_at length last]. exists iv, now, rs. by replace (k + Z.of_nat 1) with (k + 1) by lia.
    + set (m1 := with_intervals _ _ _ _ _ _).
      destruct (IH m1 rs (k + 1) ltac:(done) Ha Hs Hmm Hmx) as (iv' & now1 & rs1 & H1 & H2 & H3); [|done|cbn [length] in *; lia|].
      { cbn. split; [done|]. destruct (retrying (retry m)); lia. }
      exists iv', now1, rs1. split; [done|]. cbn [retry m1 with_intervals with_retry minRetryInterval maxRetryInterval] in H2, H3.
      replace (k + 1 + len (now' :: nows')) with (k + Z.of_nat (Datatypes.S (length (now' :: nows')))) in * by (cbn [length]; lia). done.
Qed.

(** C36: The automatic reconnection backs off exponentially: of a client that
    reconnects automatically, should be connected and is not retrying yet, with
    0 <= min <= max < 2^30, after [n] failures in a row since the last connection
    the interval lies between 5/6 and 6/5 of min * 2^(n-1) seconds, or of the
    maximum once this is smaller (the comment says 20 per cent either way, see
    the findings); each drawing of the jitter ends at the latest with the first
    number of [rand] below 2^30, the lower half of its range, of which there are
    enough.  The other
    members of the client do not change. *)
Theorem reconnect_backs_off nows (m : async) rands :
  automaticReconnect (retry m) = true → shouldBeConnected (retry m) = true → retrying (retry m) = false →
  0 ≤ minRetryInterval (retry m) ≤ maxRetryInterval (retry m) → maxRetryInterval (retry m) < 2 ^ 30 →
  nows ≠ [] → Forall (λ r, 0 ≤ r ≤ RAND_MAX) rands → len nows ≤ len (filter (λ r, r < 2 ^ 30) rands) →
  let base := Z.min (minRetryInterval (retry m) * 2 ^ (len nows - 1)) (maxRetryInterval (retry m)) in
  ∃ iv now rands', last nows = Some now ∧
    failed_at nows m rands = Some (with_intervals m iv base now true (reconnectNow (retry m)), rands') ∧
    Z.quot (5 * base) 6 ≤ iv ≤ Z.quot (6 * base) 5.
Proof.
  intros Ha Hs Hr Hmm Hmx Hne Hrs Hn. replace (len nows - 1) with (-1 + len nows) by lia.
  apply failed_at_ok; try done. by rewrite Hr.
Qed.
End Backoff.

(** ** The attempts *)

Section Attempts.
Context {S : Type}.
Abbreviation async := (MQTTAsyncs S).

(** The versions tried with each server. *)
Definition versions (m : async) : list Z :=
  if MQTTVersion (link m) =? MQTTVERSION_DEFAULT then [MQTTVERSION_3_1_1; MQTTVERSION_3_1] else [MQTTVersion (link m)].
(** Without a list of servers the only one is [serverURI]. *)
Definition servers (m : async) : Z := Z.max 1 (len (serverURIs m)).

Lemma attempts_S fuel (m : async) conn : attempts (Datatypes.S fuel) m conn =
  let tried := (conn.1, attempt_version m conn.2) in
  if MQTTAsync_checkConn tried m then l ← attempts fuel m (next_attempt m tried); Some (tried :: l) else Some [tried].
Proof. done. Qed.

Lemma attempts_from (m : async) k : ∀ u v fuel, 0 ≤ u → u + Z.of_nat k = servers m → k ≠ O →
  (MQTTVersion (link m) = MQTTVERSION_DEFAULT → v = MQTTVERSION_DEFAULT) → (2 * k ≤ fuel)%nat →
  attempts fuel m (u, v) = Some (u' ← seqZ u (Z.of_nat k); (λ w, (u', w)) <$> versions m).
Proof.
  induction k as [|k IH]; intros u v fuel Hu Hk Hne Hv Hf; [done|]. clear Hne.
  destruct fuel as [|[|fuel]]; [lia..|]. rewrite seqZ_cons by lia.
  replace (Z.pred (Z.of_nat (Datatypes.S k))) with (Z.of_nat k) by lia. rewrite <-Z.add_1_r.
  assert (Hc : (u + 1 <? len (serverURIs m)) = negb (bool_decide (k = O))).
  { unfold servers in Hk. case_bool_decide as E; cbn [negb]; [apply Z.ltb_ge|apply Z.ltb_lt]; lia. }
  rewrite bind_cons. unfold versions in *.
  destruct (Z.eqb_spec (MQTTVersion (link m)) MQTTVERSION_DEFAULT) as [E|E].
  - rewrite (Hv E) in *. cbn [attempts fst snd]. unfold attempt_version, MQTTAsync_checkConn, next_attempt. cbn [fst snd].
    rewrite E, !Z.eqb_refl. cbn [andb orb]. rewrite orb_true_r. cbn [fst snd].
    change (MQTTVERSION_3_1_1 =? MQTTVERSION_3_1) with false. change (MQTTVERSION_3_1_1 =? MQTTVERSION_DEFAULT) with false.
    change (MQTTVERSION_3_1 =? 4) with false. cbn [fst snd andb]. rewrite orb_false_r, Hc. change (MQTTVERSION_3_1_1 =? MQTTVERSION_DEFAULT) with false. case_bool_decide as Ek; cbn [negb orb andb mbind option_bind fmap list_fmap app].
    + subst k. done.
    + rewrite (IH (u + 1) MQTTVERSION_DEFAULT fuel) by (done || lia). done.
  - rewrite attempts_S. unfold attempt_version, MQTTAsync_checkConn, next_attempt. cbn [fst snd].
    rewrite (proj2 (Z.eqb_neq _ _) E), Hc, andb_false_r, orb_false_r. case_bool_decide as Ek; cbn [negb].
    + by subst k.
    + rewrite (IH (u + 1) (MQTTVersion (link m)) (Datatypes.S fuel)) by (done || lia). done.
Qed.

(** C29: A connection that the application asks for, when every attempt fails, tries
    the servers of the list in their order, each with every version allowed (first
    3.1.1, then 3.1, unless one is set), once each, and then stops. *)
Theorem connect_attempts (m : async) fuel :
  (2 * Z.to_nat (servers m) ≤ fuel)%nat →
  attempts fuel m (0, 0) = Some (u ← seqZ 0 (servers m); (λ v, (u, v)) <$> versions m).
Proof.
  intros Hf. assert (1 ≤ servers m) by (unfold servers; lia).
  rewrite (attempts_from m (Z.to_nat (servers m)) 0 0) by (done || lia). by rewrite Z2Nat.id by lia.
Qed.
End Attempts.

(** ** Witnesses *)

Definition no_store : Type := unit.
Definition two_servers : MQTTAsyncs no_store :=
  with_retry (with_link (sample_async 0 None) (mkLink 0 0 true false 10 0))
    (mkRetry true true 1 60 0 0 0 false false).
Definition with_servers {S} (m : MQTTAsyncs S) (uris : list (list Z)) : MQTTAsyncs S :=
  mkAsync (ac m) (link m) (buffering m) (createOptions m) (retry m) (calls m) (responses m) (connect m)
    (disconnect m) (pending_write m) (serverURI m) uris (websocket m) (connectTimeout m) (connectProps m)
    (willProps m) (messageQueue m).

Lemma jitter_uniform_witness :
  min_sleep 10 1 < max_sleep 10 60 ∧
  (MQTTAsync_randomJitter 10 1 60 [429496729] = Some (9, []) ↔ (8 ≤ 9 ≤ 12) ∧ (9 - 8) * 429496729 ≤ 429496729 < (9 - 8 + 1) * 429496729).
Proof.
  split; [vm_compute; reflexivity|].
  exact (jitter_uniform 10 1 60 429496729 [] 9 ltac:(lia) ltac:(lia) ltac:(lia) ltac:(lia) ltac:(vm_compute; reflexivity)
    ltac:(vm_compute; split; [discriminate|reflexivity])).
Defined.

Lemma reconnect_backs_off_witness :
  retrying (retry two_servers) = false ∧
  ∃ iv now rands', last [100; 200; 300] = Some now ∧
    failed_at [100; 200; 300] two_servers [5; 6; 7] = Some (with_intervals two_servers iv 4 now true false, rands') ∧ 3 ≤ iv ≤ 4.
Proof.
  split; [reflexivity|].
  assert (H : Forall (λ r, 0 ≤ r ≤ RAND_MAX) [5; 6; 7]) by (apply (bool_decide_eq_true_1 _); vm_compute; reflexivity).
  exact (reconnect_backs_off [100; 200; 300] two_servers [5; 6; 7] eq_refl eq_refl eq_refl ltac:(cbn; lia) ltac:(cbn; lia) ltac:(done) H ltac:(vm_compute; discriminate)).
Defined.

Definition ws_then_tcp : MQTTAsyncs no_store := with_servers two_servers [bs "ws://a"; bs "tcp://b"].

Lemma connect_attempts_witness :
  (2 * Z.to_nat (servers ws_then_tcp) ≤ 4)%nat ∧ attempts 4 ws_then_tcp (0, 0) = Some [(0, 4); (0, 3); (1, 4); (1, 3)].
Proof. split; [vm_compute; lia|]. exact (connect_attempts ws_then_tcp 4 ltac:(vm_compute; lia)). Defined.
End AsyncConnect.
