(* ===== verification/AsyncProcess.v ===== *)
(** * What the two threads of the asynchronous client do (paho.mqtt.c/src/MQTTAsync.c)

    Processing the next command, closing and cleaning a session, the timeouts,
    the end of an interrupted write, and the answers of the server that end a
    command.  A function is a statement on the state of the process; the mutexes
    of the code make each of the outermost ones one step.  The callbacks of the
    application and the calls of modules that are modelled apart are events. *)
From S2P Require Import Prelude Libc PacketCodec Props Packets SocketIO Protocol ProtocolSpec Persistence Connect.
From S2P Require Import AsyncCommands AsyncQueue AsyncConnect SocketSelect.

Module AsyncProcess.
Import Codecs Properties Packets SocketRead Protocol Persistence Connect AsyncCommands AsyncQueue AsyncConnect.

(** ** Closing a socket, as the transport sees it *)

Class Closing (T : Type) := { close_socket : T → Z → T }.

#[export] Instance socket_closing : Closing ProtocolSpec.socket_net := {
  close_socket n sock :=
    let w := fst n in
    (SocketWrite.mkW (SocketWrite.SocketBuffer_writeComplete sock (SocketWrite.writes w))
       (SocketSelect.remove_sock sock (SocketWrite.write_pending w)) (SocketWrite.sent w), snd n)
}.

(** ** Data *)

(** What a callback is given besides its context and its token. *)
Inductive call_data :=
  | NoData
  | DataPub (destinationName : option (list Z)) (payload : option (list Z)) (payloadlen qos retained : Z)
  | DataSub (codes : list Z)
  | DataConnect (uri : list Z) (version sessionPresent : Z).

(** [AWait] and [AUnwait] are [Socket_addPendingWrite] and
    [Socket_clearPendingWrite]; the command a callback belongs to is
    given by its address, [None] for the CONNECT kept in the client. *)
Inductive aevent :=
  | ACall (who : option positive) (c : callback) (d : call_data)
  | ALost (f ctx : Z)
  | AConnected (f ctx : Z)
  | ADisconnected (f ctx rc : Z)
  | ADelivered (f ctx msgid : Z)
  | AUpdateOptions (f ctx : Z)
  | ANet (c : net_call)
  | AWait (sock : Z)
  | AUnwait (sock : Z)
  | AMessage (f ctx : Z) (topicName : list Z) (topicLen : Z) (msg : MQTTPersistence_message)
  | AWebSocket_close (sock : Z)
  | AProto (e : event).

(** [MQTTAsync_disconnectOptions] after its eyecatcher. *)
Record disconnectOptions := mkDisOptions {
  do_version : Z;
  do_timeout : Z;
  do_onSuccess : option Z; do_onFailure : option Z; do_onSuccess5 : option Z; do_onFailure5 : option Z;
  do_context : Z;
  do_properties : MQTTProperties;
  do_reasonCode : Z
}.
Definition MQTTAsync_disconnectOptions_initializer : disconnectOptions :=
  mkDisOptions 0 0 None None None None 0 MQTTProperties_initializer 0.

Definition MQTTASYNC_SUCCESS := 0.
Definition MQTTASYNC_FAILURE := -1.
Definition MQTTASYNC_PERSISTENCE_ERROR := -2.
Definition MQTTASYNC_DISCONNECTED := -3.
Definition MQTT_BAD_SUBSCRIBE := 128.
Definition RECEIVE_MAXIMUM := 33.

(** [last] of [MQTTAsync_checkTimeouts] and of [MQTTAsync_retry], and
    [retryLoopInterval]. *)
Record clock_state := mkClocks { last_check : Z; last_retry : Z; retryLoopInterval : Z }.

Section Process.
Context {S T : Type} `{!Store S, !Transport T, !Closing T}.
Context (beforeWrite : option (list (list Z) → Z * list (list Z))).
Context (afterRead : option (list Z → Z * list Z)).
Context (persistence_remove : bool → Z → Z → Z).
(** The cursor that [ListFindItem] finds in the list of commands. *)
Context (cursor : list MQTTAsync_queuedCommand → option positive).
(** The time, the answer of [Thread_signal_cond], the proxy of the environment,
    the answers of the calls made to connect, the socket they create, and the
    [topiclen] that [MQTTAsync_processCommand] does not set. *)
Context (taken : list Z → MQTTPersistence_message → bool).
Context (now signal : Z) (proxy_env : option (list Z)) (conn_answers : net_answers) (new_socket : Z) (uninit : Z).
Abbreviation async := (MQTTAsyncs S).

(** The clients with the order of the lists [handles] and [bstate->clients], the
    commands, what the clients share, the answers of [rand] to come, the name of
    the next allocation, and the static variables of the loops. *)
Record world := mkWorld {
  structs : gmap positive async;
  handles : list positive;
  commands : list MQTTAsync_queuedCommand;
  sh : shared (T := T);
  rands : list Z;
  next_alloc : positive;
  timers : clock_state
}.

Definition act : Type → Type := emitting world aevent.

Definition the_world : act world := λ w, Some (w, w, []).
Definition put_world (w : world) : act () := λ _, Some ((), w, []).
Definition get_client (a : positive) : act async := λ w, lift (structs w !! a) w.
Definition put_client (a : positive) (m : async) : act () := λ w,
  Some ((), mkWorld (<[a := m]> (structs w)) (handles w) (commands w) (sh w) (rands w) (next_alloc w) (timers w), []).
Definition put_commands (l : list MQTTAsync_queuedCommand) : act () := λ w,
  Some ((), mkWorld (structs w) (handles w) l (sh w) (rands w) (next_alloc w) (timers w), []).
Definition put_shared (s : shared (T := T)) : act () := λ w,
  Some ((), mkWorld (structs w) (handles w) (commands w) s (rands w) (next_alloc w) (timers w), []).
Definition put_rands (l : list Z) : act () := λ w,
  Some ((), mkWorld (structs w) (handles w) (commands w) (sh w) l (next_alloc w) (timers w), []).
Definition put_timers (t : clock_state) : act () := λ w,
  Some ((), mkWorld (structs w) (handles w) (commands w) (sh w) (rands w) (next_alloc w) t, []).
(** The number of the allocation, and not its address. *)
Definition malloc : act positive := λ w,
  Some (next_alloc w, mkWorld (structs w) (handles w) (commands w) (sh w) (rands w) (Pos.succ (next_alloc w)) (timers w), []).

(** An assignment to the structure of a client. *)
Definition update {A} (a : positive) (f : async → option (A * async)) : act A :=
  m ← get_client a; '(x, m) ← lift (f m); put_client a m;; mret x.
Definition on_struct (a : positive) (f : async → async) : act () := update a (λ m, Some ((), f m)).

(** A function of the protocol on a client of the process. *)
Definition on_protocol {A} (a : positive) (h : Protocol.proto (T := T) A) : act A :=
  m ← get_client a;
  w ← the_world;
  '(x, (c, s), ev) ← lift (h (ac m, sh w));
  put_client a (with_ac m c);; put_shared s;; emits (AProto <$> ev);; mret x.

(** [ListFindItem] of [handles] with [clientSockCompare]. *)
Definition find_socket (sock : Z) : act (option positive) :=
  w ← the_world;
  mret (List.find (λ a, match structs w !! a with Some m => socket (ac m) =? sock | None => false end) (handles w)).

(** ** Setters of the parts of a client *)

Definition set_state (m : async) (state : Z) : async :=
  let l := link m in
  with_link m (mkLink state (MQTTVersion l) (cleansession l) (cleanstart l) (maxInflightMessages l) (sessionExpiry l)).
Definition set_inflight (m : async) (n : Z) : async :=
  let l := link m in
  with_link m (mkLink (connect_state l) (MQTTVersion l) (cleansession l) (cleanstart l) n (sessionExpiry l)).
Definition set_websocket (m : async) (ws : bool) : async :=
  mkAsync (ac m) (link m) (buffering m) (createOptions m) (retry m) (calls m) (responses m) (connect m)
    (disconnect m) (pending_write m) (serverURI m) (serverURIs m) ws (connectTimeout m) (connectProps m)
    (willProps m) (messageQueue m).
Definition set_line (c : Clients) (sock : Z) (connected good ping : bool) : Clients :=
  mkClient sock connected good ping (lastSent c) (lastReceived c) (lastPing c) (msgID c) (keepAliveInterval c)
    (retryInterval c) (inboundMsgs c) (outboundMsgs c).
Definition set_wanted (m : async) (b : bool) : async :=
  let r := retry m in
  with_retry m (mkRetry b (automaticReconnect r) (minRetryInterval r) (maxRetryInterval r) (currentInterval r)
    (currentIntervalBase r) (lastConnectionFailedTime r) (retrying r) (reconnectNow r)).
Definition set_retrying (m : async) (b : bool) : async :=
  with_intervals m (currentInterval (retry m)) (currentIntervalBase (retry m)) (lastConnectionFailedTime (retry m)) b (reconnectNow (retry m)).
Definition set_reconnectNow (m : async) (b : bool) : async :=
  with_intervals m (currentInterval (retry m)) (currentIntervalBase (retry m)) (lastConnectionFailedTime (retry m)) (retrying (retry m)) b.

(** ** Callbacks of commands *)

Definition success (who : option positive) (c : MQTTAsync_command) (tok : Z) (d : call_data) : list aevent :=
  match onSuccess c, onSuccess5 c with
  | Some f, _ => [ACall who (CSuccess f (context c) tok) d]
  | None, Some f => [ACall who (CSuccess5 f (context c) tok) d]
  | None, None => []
  end.
Definition failure (who : option positive) (c : MQTTAsync_command) (tok code : Z) : list aevent :=
  (λ k, ACall who k NoData) <$> fail_command c tok code.
Definition pub_data (c : MQTTAsync_command) : call_data :=
  match details c with DPublish n len p q r => DataPub n p len q r | _ => NoData end.

(** ** Adding commands *)

Definition add_command (q : MQTTAsync_queuedCommand) : act Z :=
  m ← get_client (client q);
  w ← the_world;
  '(rc, m, l) ← lift (MQTTAsync_addCommand beforeWrite true now signal (cursor (commands w)) q m (commands w));
  put_client (client q) m;; put_commands l;; mret rc.

(** A command just allocated and cleared. *)
Definition add_new (a : positive) (c : MQTTAsync_command) : act Z :=
  x ← malloc; add_command (mkQueued x c a 0 false None).

(** [Some] options for a pointer that is not NULL. *)
Definition MQTTAsync_disconnect1 (a : positive) (options : option disconnectOptions) (internal : bool) : act Z :=
  (if internal then mret () else on_struct a (λ m, set_wanted m false));;
  m ← get_client a;
  if negb (connected (ac m)) then mret MQTTASYNC_DISCONNECTED
  else
    add_new a
      (match options with
       | None => blank_command 0 (DDisconnect internal 0 0)
       | Some o =>
           let v5 := (MQTTVERSION_5 <=? MQTTVersion (link m)) && (1 <=? do_version o) in
           mkCommand (do_onSuccess o) (do_onFailure o) (do_onSuccess5 o) (do_onFailure5 o) 0 (do_context o) 0
             (if v5 then do_properties o else MQTTProperties_initializer)
             (DDisconnect internal (do_timeout o) (if v5 then do_reasonCode o else 0))
       end).

Definition MQTTAsync_disconnect_internal (a : positive) (timeout : Z) : act Z :=
  MQTTAsync_disconnect1 a (Some (mkDisOptions 0 timeout None None None None 0 MQTTProperties_initializer 0)) true.

(** [MQTTAsync_startConnectRetry] on a client of the process. *)
Definition start_retry (a : positive) : act () :=
  w ← the_world;
  l ← update a (λ m, '(m, l) ← MQTTAsync_startConnectRetry now m (rands w); Some (l, m));
  put_rands l.

(** ** Closing a session *)

(** The QoS 0 publications whose write is over are released. *)
Fixpoint check_pending (t : T) (l : list (Z * positive)) (pubs : gmap positive Publications)
    : option (list (Z * positive) * gmap positive Publications) :=
  match l with
  | [] => Some ([], pubs)
  | (sock, p) :: l' =>
      if noPendingWrites t sock then pubs ← release_publication p pubs; check_pending t l' pubs
      else '(rest, pubs) ← check_pending t l' pubs; Some ((sock, p) :: rest, pubs)
  end.
Definition MQTTProtocol_checkPendingWrites : act () :=
  w ← the_world;
  let s := sh w in
  '(pending, pubs) ← lift (check_pending (net s) (Protocol.pending_writes s) (publications s));
  put_shared (mkShared pubs pending (msgs_sent s) (msgs_received s) (net s)).

(** Nothing is sent or closed without a socket. *)
Definition MQTTAsync_closeOnly (a : positive) (reason : Z) (props : option MQTTProperties) : act () :=
  m ← get_client a;
  let c := ac m in
  on_struct a (λ m, with_ac m (set_line (ac m) (socket (ac m)) (connected (ac m)) false false));;
  (if 0 <? socket c then
     MQTTProtocol_checkPendingWrites;;
     w ← the_world;
     (if connected c && noPendingWrites (net (sh w)) (socket c) then
        on_protocol a (Protocol.send now (OPacket (MQTTPacket_send_disconnect (MQTTVersion (link m)) reason props)));; mret ()
      else mret ());;
     emits [AWebSocket_close (socket c)];;
     w ← the_world;
     let s := sh w in
     put_shared (mkShared (publications s) (Protocol.pending_writes s) (msgs_sent s) (msgs_received s) (close_socket (net s) (socket c)))
   else mret ());;
  on_struct a (λ m, set_state (with_ac m (set_line (ac m) (if 0 <? socket c then 0 else socket c) false false false)) NOT_IN_PROGRESS).

(** The commands that wait for an answer fail. *)
Definition free_responses (a : positive) : act () :=
  l ← update a (λ m, Some (responses m, fst (MQTTAsync_freeResponses m)));
  emits (q ← l; (λ c, ACall (Some (addr q)) c NoData) <$> incomplete q).

Definition unpersist_inflight (m : async) : Z * async :=
  match phandle (buffering m) with
  | None => (0, m)
  | Some s =>
      let '(rc, s) := MQTTAsync_unpersistInflightMessages true s in
      (rc, set_store m (command_seqno (buffering m)) s)
  end.

Definition MQTTAsync_cleanSession (a : positive) : act Z :=
  rc ← update a (λ m, Some (unpersist_inflight m));
  m ← get_client a;
  w ← the_world;
  let s := sh w in
  '(c, pubs) ← lift (pubs ← MQTTProtocol_emptyMessageList (inboundMsgs (ac m)) (publications s);
                     pubs ← MQTTProtocol_emptyMessageList (outboundMsgs (ac m)) pubs;
                     Some (with_msgID (with_inbound (with_outbound (ac m) []) []) 0, pubs));
  on_struct a (λ m, with_ac m c);;
  put_shared (mkShared pubs (Protocol.pending_writes s) (msgs_sent s) (msgs_received s) (net s));;
  free_responses a;;
  mret rc.

Definition MQTTAsync_closeSession (a : positive) (reason : Z) (props : option MQTTProperties) : act () :=
  MQTTAsync_closeOnly a reason props;;
  m ← get_client a;
  if cleansession (link m) || ((MQTTVERSION_5 <=? MQTTVersion (link m)) && (sessionExpiry (link m) =? 0))
  then MQTTAsync_cleanSession a;; mret ()
  else mret ().

(** ** Disconnecting *)

Definition elapsed (start : Z) : Z := u64 (now - start).

(** The members of a DISCONNECT; [freed] tells that its properties have been
    freed with the command that the client's copy was made from. *)
Definition MQTTAsync_checkDisconnect (a : positive) (c : MQTTAsync_command) (freed : bool) : act () :=
  '(internal, timeout, reason) ← lift (A := bool * Z * Z) (match details c with DDisconnect i t r => Some (i, t, r) | _ => None end);
  m ← get_client a;
  if (len (outboundMsgs (ac m)) =? 0) || (u64 timeout <=? elapsed (start_time c)) then
    let was_connected := connected (ac m) in
    (if freed && (0 <? count (cmd_properties c)) then lift (A := unit) None else (mret () : act unit));;
    MQTTAsync_closeSession a reason (Some (cmd_properties c));;
    if (internal : bool) then
      m ← get_client a;
      emits (match cl (calls m) with
             | Some (f, ctx) => if was_connected then [ALost f ctx] else []
             | None => []
             end);;
      start_retry a
    else emits (success None c 0 NoData)
  else mret ().

(** ** The next attempt to connect, or the end of them *)

Definition nextOrClose (a : positive) (rc : Z) : act () :=
  m ← get_client a;
  conn ← lift (conn_of (connect m));
  if MQTTAsync_checkConn conn m then
    MQTTAsync_closeOnly a 0 None;;
    let '(u, v) := next_attempt m conn in
    add_new a (with_details (connect m) (DConnect u v));; mret ()
  else
    MQTTAsync_closeSession a 0 None;;
    m ← get_client a;
    emits (failure None (connect m) 0 rc);;
    start_retry a.

(** ** Processing a command *)

Definition process_connect (q : MQTTAsync_queuedCommand) : act (Z * MQTTAsync_queuedCommand) :=
  let a := client q in
  m ← get_client a;
  if negb (connect_state (link m) =? NOT_IN_PROGRESS) || connected (ac m) then mret (0, q)
  else
    '(u, v) ← lift (conn_of (command q));
    '(uri, ws) ← lift (connect_uri m u);
    let v := attempt_version m v in
    let q := with_command q (with_details (command q) (DConnect u v)) in
    '(rc, state, calls) ← lift (MQTTProtocol_connect proxy_env uri ws 100 (connect_state (link m)) conn_answers);
    let c := ac m in
    let made := existsb (λ k, match k with CSocket_new _ _ _ => true | _ => false end) calls in
    on_struct a (λ m, set_state (with_ac (set_websocket m ws)
      (set_line c (if made then new_socket else socket c) (connected c) true (ping_outstanding c))) state);;
    emits (ANet <$> calls);;
    let rc := if state =? NOT_IN_PROGRESS then SOCKET_ERROR else rc in
    (if rc =? EINPROGRESS then m ← get_client a; emits [AWait (socket (ac m))] else mret ());;
    mret (rc, q).

(** The options of the topics: NULL below version 5, one structure or a list. *)
Definition entry_opts (version : Z) (n : nat) (opts : list Z) (optlist : list (list Z)) : option (list (option MQTTSubscribe_options)) :=
  if version <? MQTTVERSION_5 then Some (replicate n None)
  else if (1 <? n)%nat then mapM (λ i, raw ← optlist !! i; o ← subopts_of raw; Some (Some o)) (seq 0 n)
  else mapM (λ _, o ← subopts_of opts; Some (Some o)) (seq 0 n).

Definition process_subscribe (q : MQTTAsync_queuedCommand) (topics : list (list Z)) (qoss opts : list Z) (optlist : list (list Z)) : act Z :=
  m ← get_client (client q);
  let v := MQTTVersion (link m) in
  qs ← lift (mapM (λ i, qoss !! i) (seq 0 (length topics)));
  os ← lift (entry_opts v (length topics) opts optlist);
  on_protocol (client q) (Protocol.send now (OPacket (MQTTProtocol_subscribe v (zip (zip topics qs) os)
    (if MQTTVERSION_5 <=? v then Some (cmd_properties (command q)) else None) (token (command q))))).

Definition process_unsubscribe (q : MQTTAsync_queuedCommand) (topics : list (list Z)) : act Z :=
  m ← get_client (client q);
  let v := MQTTVersion (link m) in
  on_protocol (client q) (Protocol.send now (OPacket (MQTTProtocol_unsubscribe v topics
    (if MQTTVERSION_5 <=? v then Some (cmd_properties (command q)) else None) (token (command q))))).

(** A NULL topic or payload is read. *)
Definition process_publish (q : MQTTAsync_queuedCommand) : act (Z * MQTTAsync_queuedCommand) :=
  let c := command q in
  '(name, plen, data, qos, retained) ← lift (match details c with
     | DPublish (Some n) plen (Some d) qos r => Some (n, plen, d, qos, r) | _ => None end);
  m ← get_client (client q);
  let v := MQTTVersion (link m) in
  let p := mkPublish (mkHeader PUBLISH 0 0 0) name uninit (token c) data plen v
             (if MQTTVERSION_5 <=? v then cmd_properties c else MQTTProperties_initializer) in
  rc ← on_protocol (client q) (MQTTProtocol_startPublish now p qos retained);
  if qos =? 0 then
    if rc =? TCPSOCKET_COMPLETE then emits (success (Some (addr q)) c (token c) (pub_data c));; mret (rc, q)
    else
      on_struct (client q) (λ m, with_pending m (Some (addr q)));;
      mret (rc, if rc =? SOCKET_ERROR then q
                else with_command q (with_details c (DPublish None plen (Some data) qos retained)))
  else mret (rc, with_command q (with_details c (DPublish None plen None qos retained))).

Definition process_disconnect (q : MQTTAsync_queuedCommand) : act () :=
  let a := client q in
  m ← get_client a;
  if negb (connect_state (link m) =? NOT_IN_PROGRESS) || connected (ac m) then
    (if negb (connect_state (link m) =? NOT_IN_PROGRESS) then
       on_struct a (λ m, set_state m DISCONNECTING);;
       emits (failure None (connect m) 0 MQTTASYNC_OPERATION_INCOMPLETE)
     else mret ());;
    MQTTAsync_checkDisconnect a (command q) false
  else mret ().

Definition is_qos0 (c : MQTTAsync_command) : bool :=
  match details c with DPublish _ _ _ q _ => q =? 0 | _ => false end.

Definition add_response (q : MQTTAsync_queuedCommand) : act () :=
  on_struct (client q) (λ m, with_responses m (responses m ++ [q])).

(** The command could not be sent. *)
Definition command_failed (q : MQTTAsync_queuedCommand) (rc : Z) : act () :=
  let a := client q in
  let c := command q in
  (if type c =? CONNECT then
     MQTTAsync_disconnect1 a (Some MQTTAsync_disconnectOptions_initializer) false;;
     on_struct a (λ m, set_wanted m true)
   else MQTTAsync_disconnect_internal a 0;; mret ());;
  m ← get_client a;
  let again := match conn_of c with Some conn => MQTTAsync_checkConn conn m | None => false end in
  if again then
    '(u, v) ← lift (next_attempt m <$> conn_of c);
    add_command (with_command q (with_details c (DConnect u v)));; mret ()
  else
    emits (failure (Some (addr q)) c 0 rc);;
    if type c =? CONNECT then on_struct a (λ m, with_connect m c);; start_retry a else mret ().

(** What becomes of the command: it is kept in the client, freed, or put with
    those that wait for an answer. *)
Definition command_done (q : MQTTAsync_queuedCommand) (rc : Z) : act () :=
  let c := command q in
  let error := (rc =? SOCKET_ERROR) || (rc =? MQTTASYNC_PERSISTENCE_ERROR) in
  if (type c =? CONNECT) && negb error then on_struct (client q) (λ m, with_connect m c)
  else if type c =? DISCONNECT then on_struct (client q) (λ m, with_disconnect m c)
  else if is_qos0 c && negb error then
    if rc =? TCPSOCKET_INTERRUPTED then add_response q else mret ()
  else if error then command_failed q rc
  else add_response q.

Definition process_taken (q : MQTTAsync_queuedCommand) : act () :=
  '(rc, q) ← match details (command q) with
     | DConnect _ _ => process_connect q
     | DSubscribe topics qoss opts optlist => rc ← process_subscribe q topics qoss opts optlist; mret (rc, q)
     | DUnsubscribe topics => rc ← process_unsubscribe q topics; mret (rc, q)
     | DPublish _ _ _ _ _ => process_publish q
     | DDisconnect _ _ _ => process_disconnect q;; mret (0, q)
     end;
  command_done q rc.

(** The next command is taken off the list. *)
Definition take_next : act (option MQTTAsync_queuedCommand) :=
  w ← the_world;
  '(o, ss, l) ← lift (take_command afterRead true (structs w) (net (sh w)) (commands w));
  put_world (mkWorld ss (handles w) l (sh w) (rands w) (next_alloc w) (timers w));;
  mret o.

(** The whole function: whether a command was processed. *)
Definition MQTTAsync_processCommand : act bool :=
  o ← take_next;
  match o with
  | None => mret false
  | Some q => process_taken q;; mret true
  end.

(** ** Timeouts *)

(** [MQTTProtocol_closeSession]. *)
Definition MQTTProtocol_closeSession (a : positive) : act () := MQTTAsync_disconnect_internal a 0;; mret ().

Definition reconnect_due (m : async) : option bool :=
  limit ← to_int (currentInterval (retry m) * 1000);
  Some (reconnectNow (retry m) || (u64 limit <? elapsed (lastConnectionFailedTime (retry m)))).

Definition check_reconnect (a : positive) : act () :=
  m ← get_client a;
  if automaticReconnect (retry m) && retrying (retry m) then
    due ← lift (reconnect_due m);
    if (due : bool) then
      x ← malloc;
      c ← lift (connect_again m);
      emits (match updateConnectOptions (calls m) with Some (f, ctx) => [AUpdateOptions f ctx] | None => [] end);;
      add_command (mkQueued x c a 0 false None);;
      on_struct a (λ m, set_reconnectNow m false)
    else mret ()
  else mret ().

(** The body of the loop. *)
Definition check_client (a : positive) : act () :=
  m ← get_client a;
  (if connect_state (link m) =? DISCONNECTING then MQTTAsync_checkDisconnect a (disconnect m) true else mret ());;
  m ← get_client a;
  limit ← lift (to_int (connectTimeout m * 1000));
  if negb (connect_state (link m) =? NOT_IN_PROGRESS) && (u64 limit <? elapsed (start_time (connect m)))
  then nextOrClose a MQTTASYNC_FAILURE
  else check_reconnect a.

Definition MQTTAsync_checkTimeouts : act () :=
  w ← the_world;
  let t := timers w in
  if now - last_check t <? 3000 then mret ()
  else
    put_timers (mkClocks now (last_retry t) (retryLoopInterval t));;
    each check_client (handles w).

(** [MQTTProtocol_keepalive] and [MQTTProtocol_retry] on one client: the session
    they close is a DISCONNECT queued for the client. *)
Definition close_asked (ev : list event) : list Z := omap (λ e, match e with EClose sock => Some sock | _ => None end) ev.

Definition keepalive_handle (a : positive) : act () :=
  m ← get_client a;
  w ← the_world;
  let s := sh w in
  let '(c, t, ev) := keepalive_client now (ac m) (net s) in
  on_struct a (λ m, with_ac m c);;
  put_shared (mkShared (publications s) (Protocol.pending_writes s) (msgs_sent s) (msgs_received s) t);;
  emits (AProto <$> ev);;
  each (λ _, MQTTProtocol_closeSession a) (close_asked ev).

Definition retry_handle (doRetry regardless : bool) (a : positive) : act () :=
  m ← get_client a;
  w ← the_world;
  let s := sh w in
  '(cs, t, ev) ← lift (MQTTProtocol_retry now doRetry regardless (publications s) [ac m] (net s));
  on_struct a (λ m, with_ac m (default (ac m) (head cs)));;
  put_shared (mkShared (publications s) (Protocol.pending_writes s) (msgs_sent s) (msgs_received s) t);;
  emits (AProto <$> ev);;
  each (λ _, MQTTProtocol_closeSession a) (close_asked ev).

Definition MQTTAsync_retry : act () :=
  w ← the_world;
  let t := timers w in
  let doRetry := retryLoopInterval t * 1000 <? now - last_retry t in
  (if doRetry then
     put_timers (mkClocks (last_check t) now (retryLoopInterval t));;
     each keepalive_handle (handles w)
   else mret ());;
  each (retry_handle doRetry false) (handles w).
(** ** The end of an interrupted write *)

Fixpoint replace_addr (q : MQTTAsync_queuedCommand) (l : list MQTTAsync_queuedCommand) : list MQTTAsync_queuedCommand :=
  match l with
  | [] => []
  | x :: l' => if decide (addr x = addr q) then q :: l' else x :: replace_addr q l'
  end.

(** The response [p] whose write is over: the callbacks of the command and the
    structure without it.  A command is named by the number of its allocation, and
    [place] gives the address that it has: the pointer [pending_write], which is
    compared by address, may be that of a command that was freed, and the one found
    another command that was allocated at its place.  It is kept when [rc] is neither of the two answers or
    the message is not of QoS 0; its payload is no longer its own. *)
Definition complete_response (place : positive → positive) (p : positive) (rc : Z) (m : async) : list aevent * async :=
  match List.find (λ q, bool_decide (place (addr q) = place p)) (responses m) with
  | None => ([], m)
  | Some q =>
      let c := command q in
      let removed := with_responses m (remove_addr (addr q) (responses m)) in
      match details c with
      | DPublish n plen data qos r =>
          if (rc =? 1) && (qos =? 0) then (success (Some (addr q)) c (token c) (pub_data c), removed)
          else if rc =? -1 then (failure (Some (addr q)) c (token c) rc, removed)
          else
            let c := with_details c (DPublish n plen (if qos =? 0 then None else data) qos r) in
            ([], with_responses m (replace_addr (with_command q c) (responses m)))
      | _ => ([], removed)
      end
  end.

Definition MQTTAsync_writeComplete (place : positive → positive) (sock rc : Z) : act () :=
  MQTTProtocol_checkPendingWrites;;
  o ← find_socket sock;
  match o with
  | None => mret ()
  | Some a =>
      on_struct a (λ m, with_ac m (with_lastSent (ac m) now));;
      m ← get_client a;
      match pending_write m with
      | None => mret ()
      | Some p =>
          ev ← update a (λ m, Some (complete_response place p rc m));
          emits ev;;
          on_struct a (λ m, with_pending m None)
      end
  end.

(** ** Packets that end a command *)

(** The first command that waits with this token. *)
Definition find_response (m : async) (tok : Z) : option MQTTAsync_queuedCommand :=
  List.find (λ q, token (command q) =? tok) (responses m).
Definition detach_response (a : positive) (tok : Z) : act (option MQTTAsync_queuedCommand) :=
  update a (λ m,
    match find_response m tok with
    | Some q => Some (Some q, with_responses m (remove_addr (addr q) (responses m)))
    | None => Some (None, m)
    end).

Definition codes_of (p : Suback) : list Z := default [] (sa_codes p).

(** The first code is read in MQTT 5 for the success, and when there is one. *)
Definition suback_calls (v : Z) (q : MQTTAsync_queuedCommand) (codes : list Z) : option (list aevent) :=
  let c := command q in
  if MQTTVERSION_5 <=? v then
    match codes, onFailure5 c, onSuccess5 c with
    | [code], f, s =>
        if MQTTREASONCODE_UNSPECIFIED_ERROR <=? code
        then Some (match f with Some f => [ACall (Some (addr q)) (CFailure5 f (context c) (token c) code) NoData] | None => [] end)
        else Some (match s with Some f => [ACall (Some (addr q)) (CSuccess5 f (context c) (token c)) (DataSub codes)] | None => [] end)
    | [], _, Some _ => None
    | _, _, Some f => Some [ACall (Some (addr q)) (CSuccess5 f (context c) (token c)) (DataSub codes)]
    | _, _, None => Some []
    end
  else
    match codes with
    | [code] =>
        if code =? MQTT_BAD_SUBSCRIBE
        then Some (match onFailure c with Some f => [ACall (Some (addr q)) (CFailure f (context c) (token c) code) NoData] | None => [] end)
        else Some (match onSuccess c with Some f => [ACall (Some (addr q)) (CSuccess f (context c) (token c)) (DataSub codes)] | None => [] end)
    | _ => Some (match onSuccess c with Some f => [ACall (Some (addr q)) (CSuccess f (context c) (token c)) (DataSub codes)] | None => [] end)
    end.

Definition receive_suback (a : positive) (p : Suback) : act Z :=
  m ← get_client a;
  o ← detach_response a (sa_msgId p);
  (match o with
   | Some q => ev ← lift (suback_calls (MQTTVersion (link m)) q (codes_of p)); emits ev
   | None => mret ()
   end);;
  on_protocol a (MQTTProtocol_handleSubacks p).

Definition unsuback_calls (q : MQTTAsync_queuedCommand) (codes : list Z) : option (list aevent) :=
  let c := command q in
  match onSuccess c, onSuccess5 c with
  | Some f, _ => Some [ACall (Some (addr q)) (CSuccess f (context c) (token c)) NoData]
  | None, Some f =>
      match codes with
      | [] => None
      | _ => Some [ACall (Some (addr q)) (CSuccess5 f (context c) (token c)) (DataSub codes)]
      end
  | None, None => Some []
  end.

Definition receive_unsuback (a : positive) (p : Suback) : act Z :=
  o ← detach_response a (sa_msgId p);
  (match o with
   | Some q => ev ← lift (unsuback_calls q (codes_of p)); emits ev
   | None => mret ()
   end);;
  on_protocol a (MQTTProtocol_handleUnsubacks p).

(** The answer to a PUBLISH; the type of a refusal is read from the packet after
    it has been freed. *)
Definition publish_calls (q : MQTTAsync_queuedCommand) (ackrc : Z) : option (list aevent) :=
  let c := command q in
  match onSuccess c, onSuccess5 c, onFailure5 c with
  | Some f, _, _ => Some [ACall (Some (addr q)) (CSuccess f (context c) (token c)) (pub_data c)]
  | None, s, f =>
      if ackrc <? MQTTREASONCODE_UNSPECIFIED_ERROR
      then Some (match s with Some f => [ACall (Some (addr q)) (CSuccess5 f (context c) (token c)) (pub_data c)] | None => [] end)
      else match f with Some _ => None | None => Some [] end
  end.

Definition receive_ack (a : positive) (p : Ack) (i : Ack → Z → ProtocolSpec.input) : act Z :=
  id ← lift (ack_msgId p);
  ackrc ← lift (if MQTTVERSION_5 <=? ack_MQTTVersion p then ack_rc p else Some 0);
  rc ← on_protocol a (ProtocolSpec.handle persistence_remove now (i p id));
  (if negb (h_type (ack_header p) =? PUBREC) || (MQTTREASONCODE_UNSPECIFIED_ERROR <=? ackrc) then
     m ← get_client a;
     emits (match dc (calls m) with Some (f, ctx) => [ADelivered f ctx id] | None => [] end);;
     o ← detach_response a id;
     match o with
     | Some q => ev ← lift (publish_calls q ackrc); emits ev
     | None => mret ()
     end
   else mret ());;
  mret rc.

(** ** The completion of a connection *)

(** [Messages.lastTouch] is cleared. *)
Definition untouched (x : Messages) : Messages :=
  mkMessage (qos x) (retain x) (msgid x) (m_MQTTVersion x) (m_properties x) (publish x) 0 (nextMessageType x).
Definition session_present (p : Connack) : bool := Z.testbit (cn_flags p) 0.

Definition MQTTAsync_completeConnection (a : positive) (p : Connack) : act Z :=
  m ← get_client a;
  if negb (connect_state (link m) =? WAIT_FOR_CONNACK) then mret MQTTASYNC_FAILURE
  else if negb (cn_rc p =? MQTTASYNC_SUCCESS) then mret (cn_rc p)
  else
    let c := ac m in
    on_struct a (λ m, set_state (set_retrying (with_ac m (set_line c (socket c) true true (ping_outstanding c))) false) NOT_IN_PROGRESS);;
    rc ← (if cleansession (link m) || cleanstart (link m)
             || ((MQTTVERSION_3_1_1 <=? MQTTVersion (link m)) && negb (session_present p))
          then MQTTAsync_cleanSession a else mret MQTTASYNC_SUCCESS);
    m ← get_client a;
    if 0 <? len (outboundMsgs (ac m)) then
      on_struct a (λ m, with_ac m (with_outbound (ac m) (untouched <$> outboundMsgs (ac m))));;
      w ← the_world;
      each (retry_handle true true) (handles w);;
      m ← get_client a;
      mret (if connected (ac m) then rc else MQTTASYNC_DISCONNECTED)
    else mret rc.

(** The address reported; only [onSuccess] checks the index. *)
Definition uri_at (m : async) (i : Z) : option (list Z) := if i <? 0 then None else serverURIs m !! Z.to_nat i.
Definition success_uri (m : async) (i : Z) : option (list Z) :=
  if (0 <? len (serverURIs m)) && (i <? len (serverURIs m)) then uri_at m i else Some (serverURI m).
Definition success_uri5 (m : async) (i : Z) : option (list Z) :=
  if 0 <? len (serverURIs m) then uri_at m i else Some (serverURI m).

(** The callbacks of a success are called once. *)
Definition forget_success (c : MQTTAsync_command) : MQTTAsync_command :=
  mkCommand None (onFailure c) (match onSuccess c with Some _ => onSuccess5 c | None => None end) (onFailure5 c)
    (token c) (context c) (start_time c) (cmd_properties c) (details c).

Definition connect_calls (m : async) (p : Connack) : option (list aevent) :=
  let c := connect m in
  let sp := Z.b2z (session_present p) in
  match onSuccess c, onSuccess5 c with
  | Some f, _ =>
      '(u, v) ← conn_of c; uri ← success_uri m u;
      Some [ACall None (CSuccess f (context c) 0) (DataConnect uri v sp)]
  | None, Some f =>
      '(u, v) ← conn_of c; uri ← success_uri5 m u;
      Some [ACall None (CSuccess5 f (context c) 0) (DataConnect uri v sp)]
  | None, None => Some []
  end.

(** The receive maximum of the server bounds that of the client. *)
Definition receive_maximum (m : async) (p : Connack) : option async :=
  if MQTTVERSION_5 <=? MQTTVersion (link m) then
    ps ← cn_properties p;
    if MQTTProperties_hasProperty ps RECEIVE_MAXIMUM =? 1 then
      n ← MQTTProperties_getNumericValue ps RECEIVE_MAXIMUM;
      Some (if n <? maxInflightMessages (link m) then set_inflight m n else m)
    else Some m
  else Some m.

Definition receive_connack (a : positive) (p : Connack) : act () :=
  rc ← MQTTAsync_completeConnection a p;
  if rc =? MQTTASYNC_SUCCESS then
    m ← get_client a;
    ev ← lift (connect_calls m p);
    emits ev;;
    on_struct a (λ m, with_connect m (forget_success (connect m)));;
    emits (match connected_cb (calls m) with Some (f, ctx) => [AConnected f ctx] | None => [] end);;
    update a (λ m, m ← receive_maximum m p; Some ((), m))
  else nextOrClose a rc.

(** ** Messages that wait for the application *)

Definition unpersist_entry (m : async) (qe : MQTTPersistence_qEntry) : option async :=
  match phandle (buffering m) with
  | None => Some m
  | Some s =>
      '(_, s) ← MQTTPersistence_unpersistQueueEntry (MQTTVersion (link m)) qe s;
      Some (set_store m (command_seqno (buffering m)) s)
  end.

(** The oldest message is given to the application; it stays when the answer is
    false. *)
Definition MQTTAsync_deliverMessage (a : positive) (f : Z * Z) (qe : MQTTPersistence_qEntry) (topicLen : Z) : act bool :=
  emits [AMessage f.1 f.2 (topicName qe) topicLen (q_msg qe)];; mret (taken (topicName qe) (q_msg qe)).

Definition deliver_queued (a : positive) : act () :=
  m ← get_client a;
  match (messageQueue m).1, ma (calls m) with
  | qe :: rest, Some f =>
      ok ← MQTTAsync_deliverMessage a f qe (if strlen (topicName qe) =? topicLen qe then 0 else topicLen qe);
      if (ok : bool) then
        update a (λ m, m ← unpersist_entry m qe; Some ((), with_queue m (rest, (messageQueue m).2)))
      else mret ()
  | _, _ => mret ()
  end.

(** The message of a PUBLISH is offered at once when none waits, and queued when
    it is not taken.  [mem] tells whether memory can be allocated for each part. *)
Definition message_of (p : Publish) : option MQTTPersistence_message :=
  ps ← (if MQTTVERSION_5 <=? pb_MQTTVersion p then MQTTProperties_copy true (pb_properties p)
        else Some MQTTProperties_initializer);
  let h := pb_header p in
  Some (mkPMessage 1 (pb_payloadlen p) (pb_payload p) (h_qos h) (h_retain h)
    (if h_qos h =? 2 then 0 else h_dup h) (pb_msgId p) ps).

Definition persist_entry (m : async) (qe : MQTTPersistence_qEntry) : option (MQTTPersistence_qEntry * Z * async) :=
  let n := (messageQueue m).2 in
  match phandle (buffering m) with
  | None => Some (qe, n, m)
  | Some s =>
      '(_, n, qe, s) ← MQTTPersistence_persistQueueEntry beforeWrite (MQTTVersion (link m)) true qe n s;
      Some (qe, n, set_store m (command_seqno (buffering m)) s)
  end.

Definition Protocol_processPublication (a : positive) (p : Publish) : act () :=
  msg ← lift (message_of p);
  m ← get_client a;
  let qe := mkQEntry msg (pb_topic p) (pb_topiclen p) 0 in
  ok ← (match (messageQueue m).1, ma (calls m) with
        | [], Some f => if connected (ac m) then MQTTAsync_deliverMessage a f qe (pb_topiclen p) else mret false
        | _, _ => mret false
        end);
  if (ok : bool) then mret ()
  else
    update a (λ m, '(qe, n, m) ← persist_entry m qe; Some ((), with_queue m ((messageQueue m).1 ++ [qe], n))).

(** ** The steps of a connection *)

(** What the calls answer: [getsockopt] or the error it tells, the proxy, the web
    socket, its upgrade, and the CONNECT. *)
Record connecting_answers := mkConnecting { c_error : Z; c_proxied : bool; c_proxy : Z; c_websocket : Z; c_upgrade : Z; c_send : Z }.
Definition SSL_FATAL := -3.

Definition connecting_uri (m : async) : option (list Z) :=
  if 0 <? len (serverURIs m) then '(u, _) ← conn_of (connect m); uri ← uri_at m u; Some (strip_scheme uri false).1
  else Some (serverURI m).

(** The code and the state at the label [exit], and the calls made. *)
Definition connecting_step (m : async) (uri : list Z) (x : connecting_answers) : Z * Z * list aevent :=
  let sock := socket (ac m) in
  let state := connect_state (link m) in
  if state =? TCP_IN_PROGRESS then
    if negb (c_error x =? 0) then (c_error x, state, [])
    else if websocket m then
      if c_proxied x && (c_proxy x =? SOCKET_ERROR)
      then (SOCKET_ERROR, PROXY_CONNECT_IN_PROGRESS, [AUnwait sock; ANet (CProxy_connect uri)])
      else (c_websocket x, WEBSOCKET_IN_PROGRESS,
            AUnwait sock :: (if c_proxied x then [ANet (CProxy_connect uri)] else []) ++ [ANet (CWebSocket_connect uri)])
    else (c_send x, WAIT_FOR_CONNACK, [AUnwait sock; ANet CSend_connect])
  else if state =? WEBSOCKET_IN_PROGRESS then
    if (c_upgrade x =? SOCKET_ERROR) || (c_upgrade x =? TCPSOCKET_INTERRUPTED) then (c_upgrade x, state, [])
    else (c_send x, WAIT_FOR_CONNACK, [ANet CSend_connect])
  else (-1, state, []).

Definition MQTTAsync_connecting (a : positive) (x : connecting_answers) : act Z :=
  m ← get_client a;
  uri ← lift (connecting_uri m);
  let '(rc, state, ev) := connecting_step m uri x in
  emits ev;;
  on_struct a (λ m, set_state m state);;
  (if (negb (rc =? 0) && negb (rc =? TCPSOCKET_INTERRUPTED) && negb (state =? SSL_IN_PROGRESS)
       && negb (state =? WEBSOCKET_IN_PROGRESS)) || (rc =? SSL_FATAL)
   then nextOrClose a MQTTASYNC_FAILURE else mret ());;
  mret rc.

(** ** What the receiving thread does with a socket *)

(** A packet that is handled here is freed: NULL is what remains of it. *)
Definition handle_packet (a : positive) (p : packet) (rc : Z) : act (option packet * Z) :=
  let proto i := rc ← on_protocol a (ProtocolSpec.handle persistence_remove now i); mret (None, rc) in
  match p with
  | PPublish p => proto (ProtocolSpec.InPublish p)
  | PAck k =>
      let t := h_type (ack_header k) in
      if t =? PUBACK then rc ← receive_ack a k ProtocolSpec.InPuback; mret (None, rc)
      else if t =? PUBREC then rc ← receive_ack a k ProtocolSpec.InPubrec; mret (None, rc)
      else if t =? PUBCOMP then rc ← receive_ack a k ProtocolSpec.InPubcomp; mret (None, rc)
      else if t =? PUBREL then id ← lift (ack_msgId k); proto (ProtocolSpec.InPubrel k id)
      else mret (Some p, rc)
  | PHeader h =>
      if h ≫ 4 =? PINGRESP then rc ← on_protocol a MQTTProtocol_handlePingresps; mret (None, rc) else mret (Some p, rc)
  | _ => mret (Some p, rc)
  end.

(** [received] is the answer of [MQTTPacket_Factory]. *)
Definition MQTTAsync_cycle (sock : Z) (received : option packet * Z) (x : connecting_answers) : act (option packet * Z) :=
  r ← (if 0 <? sock then
         o ← find_socket sock;
         match o with
         | None => mret (None, SOCKET_ERROR)
         | Some a =>
             m ← get_client a;
             let state := connect_state (link m) in
             '(pack, rc) ← (if (state =? TCP_IN_PROGRESS) || (state =? SSL_IN_PROGRESS) || (state =? WEBSOCKET_IN_PROGRESS)
                            then rc ← MQTTAsync_connecting a x; mret (None, rc)
                            else mret received);
             m ← get_client a;
             (if (connect_state (link m) =? WAIT_FOR_CONNACK) && (rc =? SOCKET_ERROR)
              then nextOrClose a MQTTASYNC_FAILURE else mret ());;
             match pack with
             | Some p => handle_packet a p rc
             | None => mret (None, rc)
             end
         end
       else mret (None, SOCKET_ERROR));
  MQTTAsync_retry;;
  mret r.

(** The body of the loop of [MQTTAsync_receiveThread]. *)
Definition MQTTAsync_received (sock : Z) (pack : option packet) (rc : Z) : act () :=
  if sock =? 0 then mret ()
  else
    o ← find_socket sock;
    match o with
    | None => mret ()
    | Some a =>
        m ← get_client a;
        if rc =? SOCKET_ERROR then
          (if connected (ac m) then MQTTAsync_disconnect_internal a 0;; mret () else mret ());;
          nextOrClose a rc
        else
          deliver_queued a;;
          match pack with
          | Some (PConnack p) => receive_connack a p
          | Some (PSuback p) => receive_suback a p;; mret ()
          | Some (PUnsuback p) => receive_unsuback a p;; mret ()
          | Some (PAck p) =>
              if h_type (ack_header p) =? DISCONNECT then
                emits (match disconnected_cb (calls m) with
                       | Some (f, ctx) => [ADisconnected f ctx (default 0 (ack_rc p))] | None => [] end)
              else mret ()
          | _ => mret ()
          end
    end.

(** ** The end of a client *)

Definition free_commands (a : positive) : act () :=
  w ← the_world;
  put_commands (fst (AsyncQueue.MQTTAsync_freeCommands a (commands w)));;
  emits (q ← filter (of_client a) (commands w); (λ c, ACall (Some (addr q)) c NoData) <$> incomplete q).

(** The persistence is closed and the structure freed; the threads are stopped
    after the last client. *)
Definition MQTTAsync_destroy (a : positive) : act () :=
  MQTTAsync_closeSession a 0 None;;
  free_responses a;;
  free_commands a;;
  m ← get_client a;
  w ← the_world;
  let s := sh w in
  '(_, pubs) ← lift (MQTTProtocol_freeClient (ac m) (publications s));
  put_shared (mkShared pubs (Protocol.pending_writes s) (msgs_sent s) (msgs_received s) (net s));;
  w ← the_world;
  put_world (mkWorld (delete a (structs w)) (filter (λ b, b ≠ a) (handles w)) (commands w) (sh w) (rands w)
               (next_alloc w) (timers w)).

End Process.
End AsyncProcess.
