(* ===== verification/AsyncApi.v ===== *)
(** * The calls of the application (paho.mqtt.c/src/MQTTAsync.c)

    Each call checks its arguments, in the order of the code, and queues a
    command or changes the structure of the client.  A handle is [None] for NULL. *)
From S2P Require Import Prelude Libc Utf8 PacketCodec Props Packets SocketIO Protocol ProtocolSpec Persistence Connect.
From S2P Require Import AsyncCommands AsyncQueue AsyncConnect AsyncProcess.

Module AsyncApi.
Import Utf8 Libc Codecs Properties Packets Protocol Persistence Connect AsyncCommands AsyncQueue AsyncConnect AsyncProcess.

Definition MQTTASYNC_BAD_UTF8_STRING := -5.
Definition MQTTASYNC_NULL_PARAMETER := -6.
Definition MQTTASYNC_BAD_STRUCTURE := -8.
Definition MQTTASYNC_BAD_QOS := -9.
Definition MQTTASYNC_NO_MORE_MSGIDS := -10.
Definition MQTTASYNC_MAX_BUFFERED_MESSAGES := -12.
Definition MQTTASYNC_SSL_NOT_SUPPORTED := -13.
Definition MQTTASYNC_BAD_PROTOCOL := -14.
Definition MQTTASYNC_BAD_MQTT_OPTION := -15.
Definition MQTTASYNC_WRONG_MQTT_VERSION := -16.
Definition MQTTASYNC_0_LEN_WILL_TOPIC := -17.

(** [MQTTAsync_responseOptions] after its eyecatcher; [token] is written by the
    calls. *)
Record responseOptions := mkResponse {
  ro_version : Z;
  ro_onSuccess : option Z; ro_onFailure : option Z; ro_onSuccess5 : option Z; ro_onFailure5 : option Z;
  ro_context : Z;
  ro_token : Z;
  ro_properties : MQTTProperties;
  subscribeOptions : list Z;
  subscribeOptionsCount : Z;
  subscribeOptionsList : list (list Z)
}.
Definition with_ro_token (r : responseOptions) (tok : Z) : responseOptions :=
  mkResponse (ro_version r) (ro_onSuccess r) (ro_onFailure r) (ro_onSuccess5 r) (ro_onFailure5 r) (ro_context r) tok
    (ro_properties r) (subscribeOptions r) (subscribeOptionsCount r) (subscribeOptionsList r).

(** The callbacks are those of the version of the client. *)
Definition response_options_ok (version : Z) (response : option responseOptions) : bool :=
  match response with
  | None => true
  | Some r =>
      if MQTTVERSION_5 <=? version
      then negb ((ro_version r =? 0) || bool_decide (is_Some (ro_onFailure r)) || bool_decide (is_Some (ro_onSuccess r)))
      else negb ((1 <=? ro_version r) && (bool_decide (is_Some (ro_onFailure5 r)) || bool_decide (is_Some (ro_onSuccess5 r))))
  end.

(** The command of a request, with what the options give it. *)
Definition requested (version tok : Z) (response : option responseOptions) (d : command_details) : option MQTTAsync_command :=
  match response with
  | None => Some (blank_command tok d)
  | Some r =>
      ps ← (if MQTTVERSION_5 <=? version then MQTTProperties_copy true (ro_properties r) else Some MQTTProperties_initializer);
      Some (mkCommand (ro_onSuccess r) (ro_onFailure r) (ro_onSuccess5 r) (ro_onFailure5 r) tok (ro_context r) 0 ps d)
  end.

Section Api.
Context {S T : Type} `{!Store S, !Transport T, !Closing T}.
Context (beforeWrite : option (list (list Z) → Z * list (list Z))).
Context (cursor : list MQTTAsync_queuedCommand → option positive).
Context (now signal : Z).
Abbreviation async := (MQTTAsyncs S).
Abbreviation act := (act (S := S) (T := T)).

(** ** Requests *)

(** The identifier assigned, 0 when there is none. *)
Definition assign_id (a : positive) : act Z :=
  w ← the_world;
  update a (λ m, MQTTAsync_assignMsgId m (commands w)).

(** The request is queued; the token is written in the options. *)
Definition queue_request (a : positive) (version tok : Z) (response : option responseOptions) (d : command_details)
    : act (Z * option responseOptions) :=
  c ← lift (requested version tok response d);
  rc ← add_new beforeWrite cursor now signal a c;
  mret (rc, (λ r, with_ro_token r tok) <$> response).

(** The checks of the topics, and of the QoS of each when there are any. *)
Definition topic_error (topic : option (list Z)) (qos : Z) : Z :=
  if UTF8_validateString topic =? 0 then MQTTASYNC_BAD_UTF8_STRING
  else if (qos <? 0) || (2 <? qos) then MQTTASYNC_BAD_QOS
  else MQTTASYNC_SUCCESS.
Fixpoint topics_error (l : list (option (list Z) * Z)) : Z :=
  match l with
  | [] => MQTTASYNC_SUCCESS
  | (topic, qos) :: l' =>
      let rc := topic_error topic qos in if rc =? MQTTASYNC_SUCCESS then topics_error l' else rc
  end.

(** The options of the topics of a SUBSCRIBE, [count] being their number; those
    of MQTT 5 read the response options. *)
Definition subscribe_options (version count : Z) (response : option responseOptions) : option (list Z * list (list Z)) :=
  match response with
  | Some r =>
      if MQTTVERSION_5 <=? version then
        if 1 <? count then
          if subscribeOptionsCount r =? 0
          then Some (subscribeOptions r, replicate (Z.to_nat count) MQTTSubscribe_options_initializer)
          else l ← mapM (λ i, subscribeOptionsList r !! i) (seq 0 (Z.to_nat count)); Some (subscribeOptions r, l)
        else Some (subscribeOptions r, [])
      else Some (replicate (Z.to_nat SUBOPTS_SIZE) 0, [])
  | None => Some (replicate (Z.to_nat SUBOPTS_SIZE) 0, [])
  end.

(** With MQTT 5 and several topics the options are read without a check for NULL. *)
Definition subscribe_count_ok (version count : Z) (response : option responseOptions) : option bool :=
  if (MQTTVERSION_5 <=? version) && (1 <? count) then
    match response with
    | None => None
    | Some r => Some ((count =? subscribeOptionsCount r) || (subscribeOptionsCount r =? 0))
    end
  else Some true.

Definition MQTTAsync_subscribeMany (h : option positive) (topics : list (option (list Z) * Z))
    (response : option responseOptions) : act (Z * option responseOptions) :=
  match h with
  | None => mret (MQTTASYNC_FAILURE, response)
  | Some a =>
      m ← get_client a;
      let version := MQTTVersion (link m) in
      let rc := topics_error topics in
      if negb (connected (ac m)) then mret (MQTTASYNC_DISCONNECTED, response)
      else if negb (rc =? MQTTASYNC_SUCCESS) then mret (rc, response)
      else
        msgid ← assign_id a;
        if msgid =? 0 then mret (MQTTASYNC_NO_MORE_MSGIDS, response)
        else
          ok ← lift (subscribe_count_ok version (len topics) response);
          if negb ok then mret (MQTTASYNC_BAD_MQTT_OPTION, response)
          else if negb (response_options_ok version response) then mret (MQTTASYNC_BAD_MQTT_OPTION, response)
          else
            '(opts, optlist) ← lift (subscribe_options version (len topics) response);
            queue_request a version msgid response (DSubscribe (default [] <$> topics.*1) (topics.*2) opts optlist)
  end.
Definition MQTTAsync_subscribe (h : option positive) (topic : option (list Z)) (qos : Z) (response : option responseOptions) :=
  MQTTAsync_subscribeMany h [(topic, qos)] response.

Definition MQTTAsync_unsubscribeMany (h : option positive) (topics : list (option (list Z)))
    (response : option responseOptions) : act (Z * option responseOptions) :=
  match h with
  | None => mret (MQTTASYNC_FAILURE, response)
  | Some a =>
      m ← get_client a;
      let version := MQTTVersion (link m) in
      let rc := topics_error ((λ t, (t, 0)) <$> topics) in
      if negb (connected (ac m)) then mret (MQTTASYNC_DISCONNECTED, response)
      else if negb (rc =? MQTTASYNC_SUCCESS) then mret (rc, response)
      else
        msgid ← assign_id a;
        if msgid =? 0 then mret (MQTTASYNC_NO_MORE_MSGIDS, response)
        else if negb (response_options_ok version response) then mret (MQTTASYNC_BAD_MQTT_OPTION, response)
        else queue_request a version msgid response (DUnsubscribe (default [] <$> topics))
  end.
Definition MQTTAsync_unsubscribe (h : option positive) (topic : option (list Z)) (response : option responseOptions) :=
  MQTTAsync_unsubscribeMany h [topic] response.

(** A message may be sent by a client that is not connected. *)
Definition may_send (m : async) : bool :=
  connected (ac m) ||
  match createOptions m with
  | None => false
  | Some o =>
      negb (sendWhileDisconnected o =? 0)
      && (shouldBeConnected (retry m) || ((2 <=? co_struct_version o) && negb (allowDisconnectedSendAtAnyTime o =? 0)))
  end.
Definition no_room (m : async) : bool :=
  match createOptions m with
  | None => false
  | Some o =>
      ((co_struct_version o <? 2) || (deleteOldestMessages o =? 0)) && (maxBufferedMessages o <=? noBufferedMessages (buffering m))
  end.

(** [payload] has at least [payloadlen] bytes; no memory can be had for a negative
    length. *)
Definition MQTTAsync_send (h : option positive) (destinationName : option (list Z)) (payloadlen : Z) (payload : list Z)
    (qos retained : Z) (response : option responseOptions) : act (Z * option responseOptions) :=
  match h with
  | None => mret (MQTTASYNC_FAILURE, response)
  | Some a =>
      m ← get_client a;
      let version := MQTTVersion (link m) in
      let rc := topic_error destinationName qos in
      if negb (may_send m) then mret (MQTTASYNC_DISCONNECTED, response)
      else if negb (rc =? MQTTASYNC_SUCCESS) then mret (rc, response)
      else
        msgid ← (if 0 <? qos then assign_id a else mret 0);
        m ← get_client a;
        if (0 <? qos) && (msgid =? 0) then mret (MQTTASYNC_NO_MORE_MSGIDS, response)
        else if no_room m then mret (MQTTASYNC_MAX_BUFFERED_MESSAGES, response)
        else if negb (response_options_ok version response) then mret (MQTTASYNC_BAD_MQTT_OPTION, response)
        else if payloadlen <? 0 then mret (PAHO_MEMORY_ERROR, (λ r, with_ro_token r msgid) <$> response)
        else
          data ← lift (if payloadlen <=? len payload then Some (take (Z.to_nat payloadlen) payload) else None);
          queue_request a version msgid response (DPublish destinationName payloadlen (Some data) qos retained)
  end.

(** [struct_id] and the members of an [MQTTAsync_message]. *)
Definition MQTTAsync_sendMessage (h : positive) (destinationName : option (list Z))
    (message : option (list Z * MQTTPersistence_message)) (response : option responseOptions)
    : act (Z * option responseOptions) :=
  match message with
  | None => mret (MQTTASYNC_NULL_PARAMETER, response)
  | Some (id, x) =>
      if negb (starts_with (bs "MQTM") id) || negb ((struct_version x =? 0) || (struct_version x =? 1))
      then mret (MQTTASYNC_BAD_STRUCTURE, response)
      else
        m ← get_client h;
        let response := if MQTTVERSION_5 <=? MQTTVersion (link m) then
          (λ r, mkResponse (ro_version r) (ro_onSuccess r) (ro_onFailure r) (ro_onSuccess5 r) (ro_onFailure5 r) (ro_context r)
                  (ro_token r) (properties x) (subscribeOptions r) (subscribeOptionsCount r) (subscribeOptionsList r)) <$> response
          else response in
        MQTTAsync_send (Some h) destinationName (payloadlen x) (payload x) (m_qos x) (m_retained x) response
  end.

(** [struct_id] and the options. *)
Definition MQTTAsync_disconnect (h : option positive) (options : option (list Z * disconnectOptions)) : act Z :=
  let bad := match options with
             | Some (id, o) => negb (starts_with (bs "MQTD") id) || (do_version o <? 0) || (1 <? do_version o)
             | None => false
             end in
  if bad then mret MQTTASYNC_BAD_STRUCTURE
  else match h with
       | None => mret MQTTASYNC_FAILURE
       | Some a => MQTTAsync_disconnect1 beforeWrite cursor now signal a (snd <$> options) false
       end.

Definition MQTTAsync_isConnected (h : option positive) : act Z :=
  match h with None => mret 0 | Some a => m ← get_client a; mret (Z.b2z (connected (ac m))) end.

(** ** Callbacks of a client *)

Definition set_calls (m : async) (f : callbacks → callbacks) : async := with_calls m (f (calls m)).
Definition with_ctx (f : option Z) (ctx : Z) : option (Z * Z) := (λ f, (f, ctx)) <$> f.

(** Nothing changes while a connection is being made. *)
Definition set_when_idle (h : option positive) (ok : bool) (f : callbacks → callbacks) : act Z :=
  match h with
  | Some a =>
      update a (λ m, if ok && (connect_state (link m) =? NOT_IN_PROGRESS)
                     then Some (MQTTASYNC_SUCCESS, set_calls m f) else Some (MQTTASYNC_FAILURE, m))
  | None => mret MQTTASYNC_FAILURE
  end.

Definition MQTTAsync_setCallbacks (h : option positive) (ctx : Z) (cl ma dc : option Z) : act Z :=
  set_when_idle h (bool_decide (is_Some ma))
    (λ k, mkCallbacks (with_ctx cl ctx) (with_ctx ma ctx) (with_ctx dc ctx) (connected_cb k) (disconnected_cb k) (updateConnectOptions k)).
Definition MQTTAsync_setConnectionLostCallback (h : option positive) (ctx : Z) (f : option Z) : act Z :=
  set_when_idle h true
    (λ k, mkCallbacks (with_ctx f ctx) (ma k) (dc k) (connected_cb k) (disconnected_cb k) (updateConnectOptions k)).
Definition MQTTAsync_setMessageArrivedCallback (h : option positive) (ctx : Z) (f : option Z) : act Z :=
  set_when_idle h (bool_decide (is_Some f))
    (λ k, mkCallbacks (cl k) (with_ctx f ctx) (dc k) (connected_cb k) (disconnected_cb k) (updateConnectOptions k)).
Definition MQTTAsync_setDeliveryCompleteCallback (h : option positive) (ctx : Z) (f : option Z) : act Z :=
  set_when_idle h true
    (λ k, mkCallbacks (cl k) (ma k) (with_ctx f ctx) (connected_cb k) (disconnected_cb k) (updateConnectOptions k)).
Definition MQTTAsync_setDisconnected (h : option positive) (ctx : Z) (f : option Z) : act Z :=
  set_when_idle h true
    (λ k, mkCallbacks (cl k) (ma k) (dc k) (connected_cb k) (with_ctx f ctx) (updateConnectOptions k)).
Definition MQTTAsync_setConnected (h : option positive) (ctx : Z) (f : option Z) : act Z :=
  set_when_idle h true
    (λ k, mkCallbacks (cl k) (ma k) (dc k) (with_ctx f ctx) (disconnected_cb k) (updateConnectOptions k)).
Definition MQTTAsync_setUpdateConnectOptions (h : option positive) (ctx : Z) (f : option Z) : act Z :=
  match h with
  | Some a =>
      on_struct a (λ m, set_calls m (λ k,
        mkCallbacks (cl k) (ma k) (dc k) (connected_cb k) (disconnected_cb k) (with_ctx f ctx)));;
      mret MQTTASYNC_SUCCESS
  | None => mret MQTTASYNC_FAILURE
  end.

(** ** Connecting *)

(** The members of the options that the checks and the client use; [struct_id] of
    each structure first. *)
Record willOptions := mkWillOptions { wo_id : list Z; wo_version : Z; wo_topicName : option (list Z); wo_qos : Z }.
Record connectOptions := mkConnectOptions {
  co_id : list Z; co_version : Z;
  co_keepAliveInterval : Z; co_cleansession : Z; co_maxInflight : Z;
  co_will : option willOptions;
  co_username : option (list Z); co_password : option (list Z);
  co_connectTimeout : Z; co_retryInterval : Z;
  co_ssl : option (list Z * Z);
  co_onSuccess : option Z; co_onFailure : option Z; co_context : Z;
  co_serverURIs : list (list Z);
  co_version_asked : Z;
  co_automaticReconnect : bool; co_minRetryInterval : Z; co_maxRetryInterval : Z;
  co_cleanstart : Z;
  co_connectProperties : option MQTTProperties; co_willProperties : option MQTTProperties;
  co_onSuccess5 : option Z; co_onFailure5 : option Z
}.

Definition will_error (w : willOptions) : Z :=
  if negb (starts_with (bs "MQTW") (wo_id w)) || negb ((wo_version w =? 0) || (wo_version w =? 1)) then MQTTASYNC_BAD_STRUCTURE
  else if (wo_qos w <? 0) || (2 <? wo_qos w) then MQTTASYNC_BAD_QOS
  else match wo_topicName w with
       | None => MQTTASYNC_NULL_PARAMETER
       | Some t => if len t =? 0 then MQTTASYNC_0_LEN_WILL_TOPIC else MQTTASYNC_SUCCESS
       end.
Definition ssl_error (o : connectOptions) : Z :=
  match co_ssl o with
  | Some (id, v) =>
      if negb (co_version o =? 0) && (negb (starts_with (bs "MQTS") id) || (v <? 0) || (5 <? v))
      then MQTTASYNC_BAD_STRUCTURE else MQTTASYNC_SUCCESS
  | None => MQTTASYNC_SUCCESS
  end.
Definition bad_string (s : option (list Z)) : bool :=
  match s with Some _ => UTF8_validateString s =? 0 | None => false end.

(** The checks made before anything changes, [version] being that of the client. *)
Definition connect_error (version : Z) (o : connectOptions) : Z :=
  let v5 := MQTTVERSION_5 <=? co_version_asked o in
  let will := match co_will o with Some w => will_error w | None => MQTTASYNC_SUCCESS end in
  if negb (starts_with (bs "MQTC") (co_id o)) || (co_version o <? 0) || (7 <? co_version o) then MQTTASYNC_BAD_STRUCTURE
  else if negb (will =? MQTTASYNC_SUCCESS) then will
  else if negb (ssl_error o =? MQTTASYNC_SUCCESS) then ssl_error o
  else if v5 && (version <? MQTTVERSION_5) then MQTTASYNC_WRONG_MQTT_VERSION
  else if bad_string (co_username o) || bad_string (co_password o) then MQTTASYNC_BAD_UTF8_STRING
  else if v5 && (co_version o <? 6) then MQTTASYNC_BAD_STRUCTURE
  else if v5 && negb (co_cleansession o =? 0) then MQTTASYNC_BAD_MQTT_OPTION
  else if negb v5 && (6 <=? co_version o)
          && (negb (co_cleanstart o =? 0) || bool_decide (is_Some (co_onFailure5 o)) || bool_decide (is_Some (co_onSuccess5 o))
              || bool_decide (is_Some (co_connectProperties o)) || bool_decide (is_Some (co_willProperties o)))
  then MQTTASYNC_BAD_MQTT_OPTION
  else MQTTASYNC_SUCCESS.

Definition setRetryLoopInterval (keepalive : Z) (t : clock_state) : clock_state :=
  let proposed := Z.quot keepalive 10 in
  let proposed := if proposed <? 1 then 1 else if 5 <? proposed then 5 else proposed in
  if proposed <? retryLoopInterval t then mkClocks (last_check t) (last_retry t) proposed else t.

(** The part of the structure that is set before the options of the transport are
    looked at. *)
Definition connect_first (o : connectOptions) (m : async) : async :=
  let k := connect m in
  let v6 := 6 <=? co_version o in
  let l := link m in
  let c := ac m in
  let r := retry m in
  let c := mkClient (socket c) (connected c) (good c) (ping_outstanding c) (lastSent c) (lastReceived c) (lastPing c) (msgID c)
             (co_keepAliveInterval o) (retryInterval c) (inboundMsgs c) (outboundMsgs c) in
  let l := mkLink (connect_state l) (if 3 <=? co_version o then co_version_asked o else MQTTVERSION_DEFAULT)
             (negb (co_cleansession o =? 0)) (cleanstart l) (co_maxInflight o) (sessionExpiry l) in
  let k := mkCommand (co_onSuccess o) (co_onFailure o) (if v6 then co_onSuccess5 o else onSuccess5 k)
             (if v6 then co_onFailure5 o else onFailure5 k) (token k) (co_context o) (start_time k) (cmd_properties k) (details k) in
  let r := if 4 <=? co_version o
           then mkRetry (shouldBeConnected r) (co_automaticReconnect o) (co_minRetryInterval o) (co_maxRetryInterval o)
                  (currentInterval r) (currentIntervalBase r) (lastConnectionFailedTime r) (retrying r) (reconnectNow r)
           else r in
  mkAsync c l (buffering m) (createOptions m) r (calls m) (responses m) k (disconnect m) (pending_write m) (serverURI m)
    (serverURIs m) (websocket m) (co_connectTimeout o) (connectProps m) (willProps m) (messageQueue m).

Definition SESSION_EXPIRY_INTERVAL := 17.
Definition copy_opt (ps : option MQTTProperties) : option (option MQTTProperties) :=
  match ps with None => Some None | Some ps => c ← MQTTProperties_copy true ps; Some (Some c) end.
Definition expiry_of (o : connectOptions) (old : Z) : option Z :=
  match co_connectProperties o with
  | Some ps =>
      if MQTTProperties_hasProperty ps SESSION_EXPIRY_INTERVAL =? 1
      then MQTTProperties_getNumericValue ps SESSION_EXPIRY_INTERVAL else Some old
  | None => Some old
  end.

(** The part that is set after. *)
Definition connect_second (o : connectOptions) (m : async) : option async :=
  let v6 := 6 <=? co_version o in
  let l := link m in
  let c := ac m in
  cprops ← (if v6 then copy_opt (co_connectProperties o) else Some None);
  wprops ← (if v6 then copy_opt (co_willProperties o) else Some None);
  expiry ← (if v6 then expiry_of o (sessionExpiry l) else Some (sessionExpiry l));
  let m := set_wanted m true in
  let c := mkClient (socket c) (connected c) (good c) (ping_outstanding c) (lastSent c) (lastReceived c) (lastPing c) (msgID c)
             (keepAliveInterval c) (co_retryInterval o) (inboundMsgs c) (outboundMsgs c) in
  let l := mkLink (connect_state l) (MQTTVersion l) (cleansession l) (if v6 then negb (co_cleanstart o =? 0) else cleanstart l)
             (maxInflightMessages l) expiry in
  Some (mkAsync c l (buffering m) (createOptions m) (retry m) (calls m) (responses m) (connect m) (disconnect m) (pending_write m)
          (serverURI m) (if 2 <=? co_version o then co_serverURIs o else []) (websocket m) (co_connectTimeout o) cprops wprops
          (messageQueue m)).

(** [options] is [None] for NULL. *)
Definition MQTTAsync_connect (a : positive) (options : option connectOptions) : act Z :=
  match options with
  | None => mret MQTTASYNC_NULL_PARAMETER
  | Some o =>
      m ← get_client a;
      let rc := connect_error (MQTTVersion (link m)) o in
      if negb (rc =? MQTTASYNC_SUCCESS) then mret rc
      else
        on_struct a (connect_first o);;
        w ← the_world;
        put_timers (setRetryLoopInterval (co_keepAliveInterval o) (timers w));;
        if negb (co_version o =? 0) && bool_decide (is_Some (co_ssl o)) then mret MQTTASYNC_SSL_NOT_SUPPORTED
        else
          update a (λ m, m ← connect_second o m; Some ((), m));;
          add_new beforeWrite cursor now signal a
            (mkCommand (co_onSuccess o) (co_onFailure o) (co_onSuccess5 o) (co_onFailure5 o) 0 (co_context o) 0
               MQTTProperties_initializer (DConnect 0 0))
  end.

(** [MQTTAsync_reconnect] of a client that reconnects by itself. *)
Definition reconnect_automatic (a : positive) : act Z :=
  update a (λ m,
    let r := retry m in
    if automaticReconnect r && shouldBeConnected r then
      Some (MQTTASYNC_SUCCESS,
        if retrying r then set_reconnectNow m true
        else with_intervals m (minRetryInterval r) (minRetryInterval r) (lastConnectionFailedTime r) true true)
    else Some (MQTTASYNC_FAILURE, m)).

(** ** Creating a client *)

(** The checks of [MQTTAsync_createWithOptions], with [struct_id] of the options. *)
Definition create_error (uri clientId : option (list Z)) (persistence_type : Z)
    (options : option (list Z * MQTTAsync_createOptions)) : Z :=
  match uri, clientId with
  | Some uri, Some id =>
      if UTF8_validateString clientId =? 0 then MQTTASYNC_BAD_UTF8_STRING
      else if (len id =? 0) && (persistence_type =? MQTTCLIENT_PERSISTENCE_DEFAULT) then MQTTASYNC_PERSISTENCE_ERROR
      else if bool_decide (is_Some (strstr uri (bs "://"))) && negb (starts_with URI_TCP uri) && negb (starts_with URI_WS uri)
      then MQTTASYNC_BAD_PROTOCOL
      else match options with
           | Some (id, o) =>
               if negb (starts_with (bs "MQCO") id) || (co_struct_version o <? 0) || (2 <? co_struct_version o)
               then MQTTASYNC_BAD_STRUCTURE else MQTTASYNC_SUCCESS
           | None => MQTTASYNC_SUCCESS
           end
  | _, _ => MQTTASYNC_NULL_PARAMETER
  end.

(** The structure as it is before what was stored is restored.  The two commands
    it keeps are zero; nothing above reads their type before they are set. *)
Definition new_client (uri : list Z) (options : option MQTTAsync_createOptions) : async :=
  let '(uri, ws) := strip_scheme uri false in
  let version := match options with
                 | Some o => if 0 <? co_struct_version o then co_MQTTVersion o else MQTTVERSION_DEFAULT
                 | None => MQTTVERSION_DEFAULT
                 end in
  mkAsync (mkClient 0 false false false 0 0 0 0 0 0 [] []) (mkLink NOT_IN_PROGRESS version false false 0 0)
    (mkBuffering 0 0 None) options (mkRetry false false 0 0 0 0 0 false false)
    (mkCallbacks None None None None None None) []
    (blank_command 0 (DConnect 0 0)) (blank_command 0 (DDisconnect false 0 0)) None uri [] ws 0 None None ([], 0).
End Api.
End AsyncApi.
