(* ===== verification/AsyncLedger.v ===== *)
(** * Commands are answered once (paho.mqtt.c/src/MQTTAsync.c)

    The commands of the application as a ledger: a command is in the list, or
    waits for its answer, or its callback has been called.  Every step of the
    asynchronous client keeps the account of each of them ([moves], [keeps]): no
    command is answered twice, and a request for subscriptions is answered. *)
From S2P Require Import Prelude Libc PacketCodec Props Packets SocketIO Protocol ProtocolSpec Persistence Connect.
From S2P Require Import AsyncCommands AsyncQueue AsyncConnect SocketSelect AsyncProcess AsyncApi.

Module AsyncLedger.
Import Libc Codecs Properties Packets SocketRead Protocol ProtocolSpec Persistence Connect AsyncCommands AsyncQueue AsyncConnect AsyncProcess AsyncApi.

(** ** Accounts *)

Section Account.
(** The command whose account is kept, by its address. *)
Context (x : positive).

Definition tok (q : MQTTAsync_queuedCommand) : nat := if decide (addr q = x) then 1 else 0.
Definition toks (l : list MQTTAsync_queuedCommand) : nat := list_sum (tok <$> l).
Definition toks_opt (o : option MQTTAsync_queuedCommand) : nat := from_option tok 0%nat o.

(** The callbacks of the command. *)
Definition answer (e : AsyncProcess.aevent) : nat :=
  match e with ACall (Some a) _ _ => if decide (a = x) then 1 else 0 | _ => 0 end.
Definition answers (ev : list AsyncProcess.aevent) : nat := list_sum (answer <$> ev).

Lemma toks_app l l' : toks (l ++ l') = (toks l + toks l')%nat.
Proof. unfold toks. by rewrite fmap_app, list_sum_app. Qed.
Lemma toks_cons q l : toks (q :: l) = (tok q + toks l)%nat.
Proof. done. Qed.
Lemma answers_app ev ev' : answers (ev ++ ev') = (answers ev + answers ev')%nat.
Proof. unfold answers. by rewrite fmap_app, list_sum_app. Qed.

Lemma tok_addr q q' : addr q = addr q' → tok q = tok q'.
Proof. unfold tok. by intros ->. Qed.

Lemma toks_remove a l : (toks (remove_addr a l) ≤ toks l)%nat.
Proof.
  induction l as [|q l IH]; [done|]. cbn [remove_addr]. rewrite toks_cons.
  destruct (decide (addr q = a)); rewrite ?toks_cons; lia.
Qed.

Lemma toks_remove_in q l : q ∈ l → (toks (remove_addr (addr q) l) + tok q = toks l)%nat.
Proof.
  induction l as [|y l IH]; intros Hin; [by apply elem_of_nil in Hin|]. cbn [remove_addr]. rewrite toks_cons.
  destruct (decide (addr y = addr q)) as [E|E]; [rewrite (tok_addr _ _ E); lia|].
  apply elem_of_cons in Hin as [->|Hin]; [done|]. rewrite toks_cons. specialize (IH Hin). lia.
Qed.

Lemma toks_replace q l : toks (replace_addr q l) = toks l.
Proof.
  induction l as [|y l IH]; [done|]. cbn [replace_addr].
  destruct (decide (addr y = addr q)) as [E|E]; rewrite !toks_cons; [|lia]. by rewrite (tok_addr _ _ E).
Qed.

Lemma toks_filter (P : MQTTAsync_queuedCommand → Prop) `{∀ q, Decision (P q)} l :
  (toks (filter P l) + toks (filter (λ q, ¬ P q) l) = toks l)%nat.
Proof.
  induction l as [|q l IH]; [done|]. rewrite !filter_cons, toks_cons.
  destruct (decide (P q)); destruct (decide (¬ P q)); try tauto; rewrite toks_cons; lia.
Qed.

(** ** Answers of a command *)

Lemma answers_none c tok d : answers (success None c tok d) = 0%nat.
Proof. unfold success. by destruct (onSuccess c), (onSuccess5 c). Qed.
Lemma answers_fail_none c tok code : answers (failure None c tok code) = 0%nat.
Proof. unfold failure, fail_command. by destruct (onFailure c), (onFailure5 c). Qed.
Lemma answers_call q c d : answers [ACall (Some (addr q)) c d] = tok q.
Proof. unfold answers, answer, tok. cbn. by rewrite Nat.add_0_r. Qed.
Lemma answers_success q c t d : (answers (success (Some (addr q)) c t d) ≤ tok q)%nat.
Proof. unfold success. destruct (onSuccess c), (onSuccess5 c); rewrite ?answers_call; cbn; lia. Qed.
Lemma answers_failure q c t code : (answers (failure (Some (addr q)) c t code) ≤ tok q)%nat.
Proof. unfold failure, fail_command. destruct (onFailure c), (onFailure5 c); rewrite ?fmap_cons, ?fmap_nil, ?answers_call; cbn; lia. Qed.
Lemma answers_incomplete l :
  (answers (l ≫= λ q, (λ c, ACall (Some (addr q)) c NoData) <$> incomplete q) ≤ toks l)%nat.
Proof.
  induction l as [|q l IH]; [done|]. cbn [mbind list_bind]. rewrite answers_app, toks_cons.
  pose proof (answers_failure q (command q) (token (command q)) MQTTASYNC_OPERATION_INCOMPLETE) as H.
  unfold failure in H. unfold incomplete at 1. cbn in *. lia.
Qed.
Lemma answers_proto ev : answers (AProto <$> ev) = 0%nat.
Proof. induction ev; [done|]. rewrite fmap_cons. done. Qed.
Lemma answers_net l : answers (ANet <$> l) = 0%nat.
Proof. induction l; [done|]. rewrite fmap_cons. done. Qed.

(** ** The account of a state, and what a function does to it *)

(** A request waits with a callback for a success and one for a failure, those of
    the version of the client that made it. *)
Context (owner : positive) (version : Z).
Definition answerable (q : MQTTAsync_queuedCommand) : Prop :=
  client q = owner ∧ (type (command q) = SUBSCRIBE ∨ type (command q) = UNSUBSCRIBE) ∧ not_restored q = false ∧
  if MQTTVERSION_5 <=? version
  then is_Some (onSuccess5 (command q)) ∧ is_Some (onFailure5 (command q))
  else is_Some (onSuccess (command q)) ∧ is_Some (onFailure (command q)).
Definition ok (q : MQTTAsync_queuedCommand) : Prop := addr q = x → answerable q.

Lemma ok_details q c : ok q → (type c = type (command q)) → (onSuccess c = onSuccess (command q)) →
  onFailure c = onFailure (command q) → onSuccess5 c = onSuccess5 (command q) → onFailure5 c = onFailure5 (command q) →
  ok (with_command q c).
Proof. unfold ok, answerable. cbn. by intros Hq -> -> -> -> ->. Qed.

(** A command of another type is not the request. *)
Lemma ok_other q : ok q → type (command q) ≠ SUBSCRIBE → type (command q) ≠ UNSUBSCRIBE → addr q ≠ x.
Proof. intros Hq H1 H2 E. destruct (Hq E) as (_ & [?|?] & _); done. Qed.
Lemma ok_details_other q : ok q →
  match details (command q) with DSubscribe _ _ _ _ | DUnsubscribe _ => False | _ => True end → addr q ≠ x.
Proof. intros Hq H. apply ok_other; [done|..]; unfold type; by destruct (details (command q)). Qed.
Lemma tok_other q : addr q ≠ x → tok q = 0%nat.
Proof. intros. unfold tok. by rewrite decide_False. Qed.

Lemma answers_failure_ok q t code : ok q → (tok q ≤ answers (failure (Some (addr q)) (command q) t code))%nat.
Proof.
  intros Hq. unfold tok. destruct (decide (addr q = x)) as [E|]; [|lia]. destruct (Hq E) as (_ & _ & _ & H).
  unfold failure, fail_command, answers, answer.
  destruct (onFailure (command q)), (onFailure5 (command q)); cbn; rewrite ?decide_True by done; try lia.
  destruct (_ <=? _), H as [? [? ?]]; done.
Qed.
Lemma answers_incomplete_ok l : (∀ q, q ∈ l → ok q) →
  (toks l ≤ answers (l ≫= λ q, (λ c, ACall (Some (addr q)) c NoData) <$> incomplete q))%nat.
Proof.
  induction l as [|q l IH]; intros Hl; [done|]. cbn [mbind list_bind]. rewrite answers_app, toks_cons.
  pose proof (answers_failure_ok q (token (command q)) MQTTASYNC_OPERATION_INCOMPLETE (Hl q ltac:(left))) as H.
  unfold failure in H. unfold incomplete at 1. specialize (IH (λ q' H', Hl q' ltac:(by right))).
  cbn in *. lia.
Qed.

Context {S T : Type} `{!Store S, !Transport T, !Closing T}.
Abbreviation async := (MQTTAsyncs S).
Abbreviation world := (world (S := S) (T := T)).
Abbreviation act := (act (S := S) (T := T)).

Definition waiting (structs : gmap positive async) : nat :=
  map_fold (λ _ (m : async) n, (toks (responses m) + n)%nat) 0%nat structs.
Definition weight (w : world) : nat := (toks (commands w) + waiting (structs w))%nat.
Definition fresh (w w' : world) : nat := if decide (next_alloc w ≤ x < next_alloc w')%positive then 1 else 0.

Lemma waiting_insert_new a m structs : structs !! a = None →
  waiting (<[a := m]> structs) = (toks (responses m) + waiting structs)%nat.
Proof. intros Ha. unfold waiting. rewrite map_fold_insert_L; [done| |done]. intros. lia. Qed.

Lemma waiting_delete a m structs : structs !! a = Some m →
  waiting structs = (toks (responses m) + waiting (delete a structs))%nat.
Proof. intros Ha. rewrite <-(insert_delete_id structs a m Ha) at 1. apply waiting_insert_new, lookup_delete_eq. Qed.

Lemma waiting_insert a m m' structs : structs !! a = Some m →
  (waiting (<[a := m']> structs) + toks (responses m) = waiting structs + toks (responses m'))%nat.
Proof.
  intros Ha. rewrite <-insert_delete_eq, waiting_insert_new by apply lookup_delete_eq.
  rewrite (waiting_delete a m structs Ha). lia.
Qed.

#[local] Arguments toks : simpl never.
#[local] Arguments answers : simpl never.
#[local] Arguments waiting : simpl never.

(** The request is in order wherever it is: its client exists and has the version
    of its callbacks, and no interrupted write ends with it. *)
Definition good (a : positive) (m : async) : Prop :=
  (a = owner → MQTTVersion (link m) = version) ∧ pending_write m ≠ Some x ∧
  ∀ q, q ∈ responses m → addr q = x → a = owner ∧ answerable q.
Definition listed (ss : gmap positive async) (l : list MQTTAsync_queuedCommand) : Prop :=
  ∀ q, q ∈ l → addr q = x → answerable q ∧ is_Some (ss !! owner).
Definition request (w : world) : Prop :=
  (x < next_alloc w)%positive ∧ listed (structs w) (commands w) ∧ ∀ a m, structs w !! a = Some m → good a m.

(** With [k] in hand, [f] leaves [k'] in hand and calls the command no more often
    than what was waiting and was in hand allows.  If [P], it calls the request no
    less often either, which stays in order, and what it returns satisfies [Q]. *)
Definition moves {A} (P : Prop) (k : nat) (f : act A) (k' : A → nat) (Q : A → Prop) : Prop :=
  ∀ w r w' ev, f w = Some (r, w', ev) →
    (next_alloc w ≤ next_alloc w')%positive ∧
    (weight w' + answers ev + k' r ≤ weight w + k + fresh w w')%nat ∧
    (P → request w → request w' ∧ (weight w + k ≤ weight w' + answers ev + k' r)%nat ∧ Q r).
Definition keeps {A} (f : act A) : Prop := moves True 0 f (λ _, 0%nat) (λ _, True).

Lemma fresh_trans w w1 w2 : (next_alloc w ≤ next_alloc w1)%positive → (next_alloc w1 ≤ next_alloc w2)%positive →
  (fresh w w1 + fresh w1 w2 = fresh w w2)%nat.
Proof. unfold fresh. intros. repeat case_decide; lia. Qed.

Lemma moves_bind {A B} P k (f : act A) k1 Q (g : A → act B) k2 Q2 :
  moves P k f k1 Q → (∀ r, moves (P ∧ Q r) (k1 r) (g r) k2 Q2) → moves P k (f ≫= g) k2 Q2.
Proof.
  intros Hf Hg w b w' ev H. unfold mbind, emitting_bind in H.
  destruct (f w) as [[[r w1] ev1]|] eqn:E1; [|done].
  destruct (g r w1) as [[[b' w2] ev2]|] eqn:E2; [|done]. injection H as -> -> <-.
  apply Hf in E1 as (Hn1 & H1 & Hr1). apply Hg in E2 as (Hn2 & H2 & Hr2).
  rewrite answers_app. pose proof (fresh_trans w w1 w' Hn1 Hn2). split; [lia|]. split; [lia|].
  intros HP Hw. destruct (Hr1 HP Hw) as (Hw1 & Hle1 & HQ). destruct (Hr2 (conj HP HQ) Hw1) as (Hw2 & Hle2 & HQ2).
  split; [done|]. split; [lia|done].
Qed.

Lemma moves_weaken {A} P k (f : act A) k' Q P' j j' Q' :
  (k ≤ j)%nat → (∀ r, j' r ≤ k' r)%nat → (P' → P ∧ (j ≤ k)%nat ∧ ∀ r, Q r → Q' r ∧ (k' r ≤ j' r)%nat) →
  moves P k f k' Q → moves P' j f j' Q'.
Proof.
  intros Hk Hk' HP H w r w' ev E. apply H in E as (? & ? & Hr). specialize (Hk' r). split; [done|]. split; [lia|].
  intros HP' Hw. destruct (HP HP') as (HPP & Hj & HQ). destruct (Hr HPP Hw) as (? & ? & [? ?]%HQ).
  split; [done|]. split; [lia|done].
Qed.

Lemma moves_keep {A} P (f : act A) k k' Q :
  keeps f → (∀ r, k' r ≤ k)%nat → (P → ∀ r, (k ≤ k' r)%nat ∧ Q r) → moves P k f k' Q.
Proof.
  intros Hf Hk HP w r w' ev E. apply Hf in E as (? & ? & Hr). specialize (Hk r). split; [done|]. split; [lia|].
  intros HPP Hw. destruct (Hr I Hw) as (? & ? & _). destruct (HP HPP r). split; [done|]. split; [lia|done].
Qed.

Lemma moves_bind_keep {A B} P k (f : act A) (g : A → act B) k2 Q :
  keeps f → (∀ r, moves P k (g r) k2 Q) → moves P k (f ≫= g) k2 Q.
Proof.
  intros Hf Hg. apply (moves_bind _ _ _ (λ _, k) (λ _, True)); [by apply moves_keep|].
  intros r. apply (moves_weaken P k _ k2 Q); [done..| |done]. by intros [? _].
Qed.

Lemma moves_if {A} (b : bool) P k (f g : act A) k' Q :
  moves (P ∧ b = true) k f k' Q → moves (P ∧ b = false) k g k' Q → moves P k (if b then f else g) k' Q.
Proof. destruct b; intros Hf Hg; [eapply moves_weaken, Hf|eapply moves_weaken, Hg]; done. Qed.

Lemma keeps_bind {A B} (f : act A) (g : A → act B) : keeps f → (∀ r, keeps (g r)) → keeps (f ≫= g).
Proof. apply moves_bind_keep. Qed.

(** ** The basic statements *)

(** A function that neither allocates nor calls anything. *)
Lemma moves_silent {A} P k (f : act A) k' Q : (∀ w r w' ev, f w = Some (r, w', ev) →
  ev = [] ∧ next_alloc w' = next_alloc w ∧ (weight w' + k' r ≤ weight w + k)%nat ∧
  (P → request w → request w' ∧ (weight w + k ≤ weight w' + k' r)%nat ∧ Q r)) → moves P k f k' Q.
Proof.
  intros H w r w' ev E. apply H in E as (-> & -> & ? & Hr). change (answers []) with 0%nat.
  split; [done|]. split; [lia|]. intros HP Hw. destruct (Hr HP Hw) as (? & ? & ?). split; [done|]. split; [lia|done].
Qed.
Lemma moves_ret {A} P k (r : A) k' (Q : A → Prop) : (k' r ≤ k)%nat → (P → (k ≤ k' r)%nat ∧ Q r) → moves P k (mret r) k' Q.
Proof. intros Hk HP. apply moves_silent. intros w r' w' ev [= <- <- <-]. split_and!; [done..|lia|]. intros [? ?]%HP ?. split; [done|]. split; [lia|done]. Qed.
Lemma moves_bind_lift {A B} P k (o : option A) (g : A → act B) k2 Q :
  (∀ r, o = Some r → moves P k (g r) k2 Q) → moves P k (lift o ≫= g) k2 Q.
Proof.
  intros H w b w' ev. unfold mbind, emitting_bind, lift. destruct o as [r|]; [|done]. intros E. apply (H r eq_refl w).
  destruct (g r w) as [[[b' w2] ev2]|]; [|done]. by injection E as -> -> <-.
Qed.

Lemma keeps_ret {A} (r : A) : keeps (mret r).
Proof. by apply moves_ret. Qed.
Lemma keeps_same {A} (f : act A) : (∀ w r w' ev, f w = Some (r, w', ev) →
  ev = [] ∧ next_alloc w' = next_alloc w ∧ commands w' = commands w ∧ structs w' = structs w) → keeps f.
Proof.
  intros H. apply moves_silent. intros w r w' ev E. apply H in E as (-> & Hn & Hc & Hs).
  unfold request, weight. rewrite Hn, Hc, Hs. split_and!; [done..|]. intros _ ?. done.
Qed.
Lemma keeps_lift {A} (o : option A) : keeps (lift o).
Proof. apply keeps_same. intros w r w' ev. unfold lift. destruct o; [|done]. by intros [= <- <- <-]. Qed.
Lemma keeps_the_world : keeps (the_world : act world).
Proof. apply keeps_same. by intros w r w' ev [= <- <- <-]. Qed.
Lemma keeps_get_client a : keeps (get_client a : act async).
Proof. intros w. apply keeps_lift. Qed.
Lemma moves_get_client a k : moves True k (get_client a : act async) (λ _, k) (good a).
Proof.
  apply moves_silent. intros w r w' ev. unfold get_client, lift. destruct (structs w !! a) as [m|] eqn:E; [|done].
  intros [= <- <- <-]. split_and!; [done..|]. intros _ Hw. split; [done|]. split; [done|]. by apply Hw.
Qed.
Lemma keeps_put_shared s : keeps (put_shared s : act ()).
Proof. apply keeps_same. by intros w r w' ev [= <- <- <-]. Qed.
Lemma keeps_put_rands l : keeps (put_rands l : act ()).
Proof. apply keeps_same. by intros w r w' ev [= <- <- <-]. Qed.
Lemma keeps_put_timers t : keeps (put_timers t : act ()).
Proof. apply keeps_same. by intros w r w' ev [= <- <- <-]. Qed.
Lemma keeps_find_socket sock : keeps (find_socket sock : act (option positive)).
Proof. unfold find_socket. apply keeps_bind; [apply keeps_the_world|]. intros w. apply keeps_ret. Qed.

Lemma moves_emits P k ev : (answers ev ≤ k)%nat → (P → k ≤ answers ev)%nat →
  moves P k (emits ev : act ()) (λ _, 0%nat) (λ _, True).
Proof.
  intros H HP w [] w' ev' [= <- <-]. split; [done|]. split; [unfold fresh; case_decide; lia|].
  intros HPP Hw. specialize (HP HPP). split; [done|]. split; [lia|done].
Qed.
Lemma keeps_emits ev : answers ev = 0%nat → keeps (emits ev : act ()).
Proof. intros H. by apply moves_emits; rewrite H. Qed.

(** An allocation gives the account of its address one command in hand; it does
    not give the address of the request. *)
Lemma moves_malloc : moves True 0 (malloc : act positive) (λ a, if decide (a = x) then 1%nat else 0%nat) (λ a, a ≠ x).
Proof.
  intros w r w' ev [= <- <- <-]. cbn. change (answers []) with 0%nat. split; [lia|]. split.
  - unfold fresh, weight. cbn. repeat case_decide; subst; lia.
  - intros _ (Hx & Hl & Hs). split; [split; [cbn; lia|done]|]. split; [unfold weight; cbn; lia|lia].
Qed.

(** An assignment may move what waits for an answer into the hand. *)
Lemma request_at a m m' w w' : request w → structs w !! a = Some m → structs w' = <[a := m']> (structs w) →
  next_alloc w' = next_alloc w → (listed (structs w) (commands w) → listed (structs w) (commands w')) → good a m' → request w'.
Proof.
  intros (Hx & Hl & Hs) Hm E En Hl' Hg. split; [by rewrite En|]. rewrite E. split.
  - intros q Hq Hx'. destruct (Hl' Hl q Hq Hx') as [Ha [mo Ho]]. split; [done|].
    rewrite lookup_insert_is_Some. destruct (decide (a = owner)); [by left|right; by eauto].
  - intros b mb. destruct (decide (b = a)) as [->|Hne]; [rewrite lookup_insert_eq; by intros [= <-]|].
    rewrite lookup_insert_ne by done. apply Hs.
Qed.
Lemma moves_update {A} P k a (f : async → option (A * async)) k' Q :
  (∀ m r m', f m = Some (r, m') → (toks (responses m') + k' r ≤ toks (responses m) + k)%nat ∧
     (P → good a m → good a m' ∧ (toks (responses m) + k ≤ toks (responses m') + k' r)%nat ∧ Q r)) →
  moves P k (update a f) k' Q.
Proof.
  intros Hf. apply moves_silent. intros w r w' ev H.
  unfold update, get_client, put_client, lift, mbind, emitting_bind, mret, emitting_ret in H.
  destruct (structs w !! a) as [m|] eqn:Em; [|done].
  destruct (f m) as [[r0 m']|] eqn:Ef; [|done]. cbn in H. injection H as <- <- <-. apply Hf in Ef as [Hle Hr].
  pose proof (waiting_insert a m m' (structs w) Em). split_and!; [done|done|unfold weight; cbn; lia|].
  intros HP Hw. destruct (Hr HP) as (Hg & Hge & HQ); [by apply Hw|]. split; [|split; [unfold weight; cbn; lia|done]].
  by eapply (request_at a m m' w).
Qed.
Definition same_account (m m' : async) : Prop :=
  responses m' = responses m ∧ MQTTVersion (link m') = MQTTVersion (link m) ∧ pending_write m' = pending_write m.
Lemma good_same a m m' : same_account m m' → good a m → good a m'.
Proof. unfold good. by intros (-> & -> & ->). Qed.
Lemma keeps_update {A} a (f : async → option (A * async)) :
  (∀ m r m', f m = Some (r, m') → same_account m m') → keeps (update a f).
Proof.
  intros Hf. apply moves_update. intros m r m' E. apply Hf in E. split; [destruct E as [-> _]; lia|].
  intros _ Hg. split; [by eapply good_same|]. destruct E as [-> _]. split; [lia|done].
Qed.
Lemma keeps_on_struct a (f : async → async) : (∀ m, same_account m (f m)) → keeps (on_struct a f).
Proof. intros Hf. apply keeps_update. intros m r m' [= <- <-]. apply Hf. Qed.

Lemma keeps_on_protocol {A} a (h : Protocol.proto (T := T) A) : keeps (on_protocol a h : act A).
Proof.
  intros w r w' ev H.
  unfold on_protocol, get_client, put_client, put_shared, emits, the_world, lift, mbind, emitting_bind, mret, emitting_ret in H.
  destruct (structs w !! a) as [m|] eqn:Em; [|done]. cbn in H.
  destruct (h (ac m, sh w)) as [[[r0 [c s]] ev0]|]; [|done]. cbn in H. injection H as <- <- <-.
  rewrite !app_nil_r, answers_proto. pose proof (waiting_insert a m (with_ac m c) (structs w) Em) as H. cbn in H.
  split; [done|]. split; [unfold weight; cbn; lia|]. intros _ Hw. split; [|split; [unfold weight; cbn; lia|done]].
  eapply (request_at a m (with_ac m c) w); [done..|]. apply (good_same a m); [done|]. by apply Hw.
Qed.

Lemma keeps_each {A} (f : A → act ()) l : (∀ y, keeps (f y)) → keeps (each f l).
Proof.
  intros Hf. induction l as [|y l IH]; [apply keeps_ret|]. cbn [each].
  apply keeps_bind; [apply Hf|]. intros []. apply IH.
Qed.

(** The account of a function built from functions that keep it: [account] splits
    it along its statements and its tests. *)
Hint Resolve keeps_ret keeps_lift keeps_the_world keeps_get_client keeps_put_shared keeps_put_rands keeps_put_timers
  keeps_find_socket keeps_on_protocol keeps_each : ledger.
Create HintDb ledger.
Hint Resolve answers_none answers_fail_none answers_proto answers_net : ledger.
Hint Extern 2 (keeps (emits _)) => apply keeps_emits : ledger.
Hint Extern 3 (answers _ = 0%nat) => solve [reflexivity | repeat case_match; reflexivity] : ledger.
Hint Extern 2 (keeps (on_struct _ _)) => apply keeps_on_struct; intros; repeat split; reflexivity : ledger.

Ltac account :=
  cbv beta zeta;
  lazymatch goal with
  | |- keeps ?f =>
      first [solve [eauto with ledger]
            |lazymatch f with
             | _ ≫= _ => apply keeps_bind; [account | intros ?; account]
             | match ?e with _ => _ end => destruct e; account
             end]
  | |- moves _ _ (_ ≫= _) _ _ => apply moves_bind_keep; [account | intros ?; account]
  | |- moves _ _ (match ?e with _ => _ end) _ _ => destruct e; account
  | |- moves _ _ _ _ _ => idtac
  end.

(** ** Adding commands *)

Context (beforeWrite : option (list (list Z) → Z * list (list Z))).
Context (afterRead : option (list Z → Z * list Z)).
Context (persistence_remove : bool → Z → Z → Z).
Context (cursor : list MQTTAsync_queuedCommand → option positive).
Context (taken : list Z → MQTTPersistence_message → bool).
Context (now signal : Z) (proxy_env : option (list Z)) (conn_answers : net_answers) (new_socket : Z) (uninit : Z).

Lemma persist_added_same q (m : async) q' m' : persist_added beforeWrite true q m = Some (q', m') →
  addr q' = addr q ∧ same_account m m' ∧ (ok q → ok q').
Proof.
  unfold persist_added. destruct (phandle (buffering m)); [|by intros [= <- <-]].
  destruct (not_persisted m (command q)); [by intros [= <- <-]|].
  destruct (MQTTAsync_persistCommand _ _ _ _ _ _ _ _) as [[[[rc n0] n1] s']|]; [|done]. cbn [mbind option_bind].
  destruct (_ && _) eqn:E; [|by intros [= <- <-]].
  destruct (command_key _ _); [|done]. cbn [mbind option_bind]. intros [= <- <-]. split_and!; [done..|].
  apply andb_true_iff in E as [E%Z.eqb_eq _]. intros Hq Hx. destruct (ok_other q Hq); by rewrite ?E.
Qed.

Lemma remove_other (l : list MQTTAsync_queuedCommand) y : y ∈ l → addr y ≠ x → toks (remove_addr (addr y) l) = toks l.
Proof. intros H E. pose proof (toks_remove_in y l H). rewrite (tok_other y E) in *. lia. Qed.
Lemma remove_sub a (l : list MQTTAsync_queuedCommand) q : q ∈ remove_addr a l → q ∈ l.
Proof.
  induction l as [|y l IH]; [done|]. cbn [remove_addr]. destruct (decide (addr y = a)); [by right|].
  intros [->|H]%elem_of_cons; [left|right; by apply IH].
Qed.

Lemma buffer_publish_toks q (m : async) l m' l' : buffer_publish q m l = Some (m', l') →
  (toks l' ≤ toks l)%nat ∧ same_account m m' ∧ (∀ y, y ∈ l' → y ∈ l) ∧ ((∀ y, y ∈ l → ok y) → toks l' = toks l).
Proof.
  unfold buffer_publish. destruct (match createOptions m with Some _ => _ | None => _ end).
  - destruct (List.find _ l) as [y|] eqn:E; [|by intros [= <- <-]].
    destruct (_ || _); [done|]. intros [= <- <-]. split; [apply toks_remove|]. split; [done|].
    split; [intros z; apply remove_sub|]. intros Hl. apply find_some in E as [Hy Hp]. apply list_elem_of_In in Hy.
    apply remove_other; [done|]. apply andb_true_iff in Hp as [_ Hp%Z.eqb_eq]. apply ok_other; [by apply Hl|by rewrite Hp..].
  - intros [= <- <-]. done.
Qed.

Lemma started_ok q (b : bool) : ok q → ok (with_command q (if b then with_start (command q) now else command q)).
Proof. intros Hq. by apply ok_details; [|destruct b..]. Qed.

(** What is queued is the command, in the place of others that are not the
    request. *)
Lemma addCommand_toks cur q (m : async) l rc m' l' :
  MQTTAsync_addCommand beforeWrite true now signal cur q m l = Some (rc, m', l') →
  (toks l' ≤ tok q + toks l)%nat ∧ same_account m m' ∧
  (ok q → (∀ y, y ∈ l → ok y) →
     toks l' = (tok q + toks l)%nat ∧ ∀ y, y ∈ l' → y ∈ l ∨ addr y = addr q ∧ ok y).
Proof.
  unfold MQTTAsync_addCommand.
  set (c := if _ || _ then _ else _). set (q1 := with_command q c).
  assert (Hq : tok q1 = tok q) by done.
  assert (Hq1 : ok q → ok q1) by apply started_ok. clearbody c.
  destruct (goes_first c) eqn:Hgo.
  - assert (Hne : ok q → addr q ≠ x).
    { intros Ho. apply (ok_details_other q1); [by apply Hq1|]. cbn. unfold goes_first in Hgo. by destruct (details c). }
    destruct l as [|h l].
    { intros [= <- <- <-]. rewrite toks_cons, Hq. split; [lia|]. split; [done|]. intros Ho Hl. split; [lia|].
      intros y [->|?]%elem_of_cons; [right; by auto|by left]. }
    destruct (_ && _).
    { intros [= <- <- <-]. split; [lia|]. split; [done|]. intros Ho Hl. rewrite (tok_other q) by auto. by auto. }
    intros [= <- <- <-]. rewrite toks_cons, Hq. destruct (find_item _ _ _) as [y|] eqn:E.
    + split; [apply Nat.add_le_mono_l, (toks_remove (addr y) (h :: l))|]. split; [done|]. intros Ho Hl.
      apply find_item_in in E as [Hy Hp]. split.
      * f_equal. apply (remove_other (h :: l) y); [done|]. apply ok_other; [by apply Hl|..];
          intros Ht; unfold clientCompareConnectCommand in Hp; rewrite Ht, !andb_false_r in Hp; done.
      * intros z [->|Hz]%elem_of_cons; [right; by auto|left]. by eapply remove_sub.
    + split; [lia|]. split; [done|]. intros Ho Hl. split; [done|]. intros z [->|Hz]%elem_of_cons; [right; by auto|by left].
  - destruct (persist_added beforeWrite true q1 m) as [[q2 m2]|] eqn:Ep; [|done]. cbn [mbind option_bind].
    apply persist_added_same in Ep as (Ha & Hr & Hq2). pose proof (tok_addr _ _ Ha) as Ht.
    assert (Hl : toks (l ++ [q2]) = (tok q + toks l)%nat) by (rewrite toks_app, toks_cons; change (toks []) with 0%nat; lia).
    assert (Hin : ok q → ∀ y, y ∈ l ++ [q2] → y ∈ l ∨ addr y = addr q ∧ ok y).
    { intros Ho y [?|Hy]%elem_of_app; [by left|right]. apply list_elem_of_singleton in Hy as ->. by auto. }
    destruct (type c =? PUBLISH).
    + destruct (buffer_publish _ _ _) as [[m3 l3]|] eqn:Eb; [|done]. cbn [mbind option_bind].
      apply buffer_publish_toks in Eb as (Hle & Hs & Hsub & Heq). intros [= <- <- <-]. split; [lia|].
      split; [unfold same_account in *; intuition congruence|]. intros Ho Hol. split; [|by auto].
      rewrite Heq; [done|]. intros y Hy. destruct (Hin Ho y Hy) as [?|[_ ?]]; by auto.
    + cbn [mbind option_bind]. intros [= <- <- <-]. split; [lia|]. split; [done|]. by auto.
Qed.

Lemma moves_add_command q :
  moves (ok q) (tok q) (add_command beforeWrite cursor now signal q : act Z) (λ _, 0%nat) (λ _, True).
Proof.
  apply moves_silent. intros w r w' ev H.
  unfold add_command, get_client, put_client, put_commands, the_world, lift, mbind, emitting_bind, mret, emitting_ret in H.
  destruct (structs w !! client q) as [m|] eqn:Em; [|done]. cbn in H.
  destruct (MQTTAsync_addCommand _ _ _ _ _ _ _ _) as [[[rc m'] l']|] eqn:Ea; [|done]. cbn in H.
  injection H as <- <- <-. apply addCommand_toks in Ea as (Hl & Hs & Hok).
  pose proof (waiting_insert _ m m' (structs w) Em) as Hw. pose proof Hs as (Hr & _). rewrite Hr in Hw.
  split_and!; [done|done|unfold weight; cbn; lia|]. intros Ho Hreq.
  destruct Hok as [Heq Hin]; [done|intros y Hy Hy'; by apply Hreq|]. split; [|split; [unfold weight; cbn; lia|done]].
  eapply (request_at (client q) m m' w); [done..| |].
  - intros Hli y Hy Hx. destruct (Hin y Hy) as [?|[E Hoy]]; [by apply Hli|]. split; [by apply Hoy|].
    destruct (Ho (eq_trans (eq_sym E) Hx)) as [<- _]. by rewrite Em.
  - apply (good_same _ m); [done|]. by apply Hreq.
Qed.

Lemma keeps_add_new a c : keeps (add_new beforeWrite cursor now signal a c : act Z).
Proof.
  unfold add_new. eapply moves_bind; [apply moves_malloc|]. intros y.
  by eapply moves_weaken, (moves_add_command (mkQueued y c a 0 false None)); [..|intros [_ ?]].
Qed.
Hint Resolve keeps_add_new : ledger.

(** ** Disconnecting, closing, retrying *)

Lemma keeps_disconnect1 a o i : keeps (MQTTAsync_disconnect1 beforeWrite cursor now signal a o i : act Z).
Proof. unfold MQTTAsync_disconnect1. account. Qed.
Hint Resolve keeps_disconnect1 : ledger.
Lemma keeps_disconnect_internal a t : keeps (MQTTAsync_disconnect_internal beforeWrite cursor now signal a t : act Z).
Proof. apply keeps_disconnect1. Qed.
Hint Resolve keeps_disconnect_internal : ledger.
Lemma keeps_closeSession_asked a : keeps (MQTTProtocol_closeSession beforeWrite cursor now signal a : act ()).
Proof. unfold MQTTProtocol_closeSession. account. Qed.
Hint Resolve keeps_closeSession_asked : ledger.

Lemma startConnectRetry_same (m : async) rands m' l : MQTTAsync_startConnectRetry now m rands = Some (m', l) →
  same_account m m'.
Proof.
  unfold MQTTAsync_startConnectRetry. destruct (_ && _); [|by intros [= <- <-]].
  destruct (if retrying (retry m) then _ else _); [|done]. cbn [mbind option_bind].
  destruct (MQTTAsync_randomJitter _ _ _ _) as [[iv r]|]; [|done]. cbn [mbind option_bind]. by intros [= <- <-].
Qed.
Lemma keeps_start_retry a : keeps (start_retry now a : act ()).
Proof.
  unfold start_retry. apply keeps_bind; [account|]. intros w.
  apply keeps_bind; [|intros l; account]. apply keeps_update. intros m r m' H.
  destruct (MQTTAsync_startConnectRetry now m (rands w)) as [[m1 l]|] eqn:E; [|done].
  cbn in H. injection H as <- <-. by apply startConnectRetry_same in E.
Qed.
Hint Resolve keeps_start_retry : ledger.

Lemma keeps_checkPendingWrites : keeps (MQTTProtocol_checkPendingWrites : act ()).
Proof. unfold MQTTProtocol_checkPendingWrites. account. Qed.
Hint Resolve keeps_checkPendingWrites : ledger.
Lemma keeps_closeOnly a reason ps : keeps (MQTTAsync_closeOnly now a reason ps : act ()).
Proof. unfold MQTTAsync_closeOnly. account. Qed.
Hint Resolve keeps_closeOnly : ledger.

Lemma keeps_free_responses a : keeps (free_responses a : act ()).
Proof.
  unfold free_responses. apply (moves_bind _ _ _ toks (λ l, ∀ q, q ∈ l → ok q)).
  - apply moves_update. intros m r m' [= <- <-]. cbn. change (toks []) with 0%nat. split; [lia|]. intros _ (Hv & Hp & Hr).
    split; [|split; [lia|intros q Hq Hx; by apply Hr]]. split; [done|]. split; [done|]. intros q Hq. by apply elem_of_nil in Hq.
  - intros l. apply moves_emits; [apply answers_incomplete|]. intros [_ Hl]. by apply answers_incomplete_ok.
Qed.
Hint Resolve keeps_free_responses : ledger.

Lemma unpersist_inflight_same (m : async) : same_account m (unpersist_inflight m).2.
Proof. unfold unpersist_inflight. destruct (phandle (buffering m)); [|done]. by destruct (MQTTAsync_unpersistInflightMessages _ _). Qed.
Lemma keeps_cleanSession a : keeps (MQTTAsync_cleanSession a : act Z).
Proof.
  unfold MQTTAsync_cleanSession. apply keeps_bind; [|intros rc; account].
  apply keeps_update. intros m r m' E. pose proof (unpersist_inflight_same m) as H. injection E as E. by rewrite E in H.
Qed.
Hint Resolve keeps_cleanSession : ledger.
Lemma keeps_closeSession a reason ps : keeps (MQTTAsync_closeSession now a reason ps : act ()).
Proof. unfold MQTTAsync_closeSession. account. Qed.
Hint Resolve keeps_closeSession : ledger.
Lemma keeps_checkDisconnect a c freed : keeps (MQTTAsync_checkDisconnect now a c freed : act ()).
Proof. unfold MQTTAsync_checkDisconnect. account. Qed.
Hint Resolve keeps_checkDisconnect : ledger.
Lemma keeps_nextOrClose a rc : keeps (nextOrClose beforeWrite cursor now signal a rc : act ()).
Proof. unfold nextOrClose. account. Qed.
Hint Resolve keeps_nextOrClose : ledger.

(** ** Processing *)

Lemma ok_of_other q : addr q ≠ x → ok q.
Proof. by unfold ok. Qed.

Lemma moves_process_connect q : moves (addr q ≠ x) (tok q)
  (process_connect proxy_env conn_answers new_socket q : act (Z * _)) (λ r, tok r.2) (λ r, addr r.2 ≠ x).
Proof. unfold process_connect. account; by apply moves_ret. Qed.
Lemma keeps_process_subscribe q t x1 y z : keeps (process_subscribe now q t x1 y z : act Z).
Proof. unfold process_subscribe. account. Qed.
Lemma keeps_process_unsubscribe q t : keeps (process_unsubscribe now q t : act Z).
Proof. unfold process_unsubscribe. account. Qed.
Lemma keeps_process_disconnect q : keeps (process_disconnect now q : act ()).
Proof. unfold process_disconnect. account. Qed.
Hint Resolve keeps_process_subscribe keeps_process_unsubscribe keeps_process_disconnect : ledger.

(** What remains in hand after a command is sent: a message of QoS 0 that is sent
    has been answered. *)
Definition in_hand (r : Z * MQTTAsync_queuedCommand) : nat :=
  if is_qos0 (command r.2) && (r.1 =? TCPSOCKET_COMPLETE) then 0 else tok r.2.

Lemma in_hand_le r : (in_hand r ≤ tok r.2)%nat.
Proof. unfold in_hand. destruct (_ && _); lia. Qed.

Lemma moves_process_publish q :
  moves (addr q ≠ x) (tok q) (process_publish now uninit q : act (Z * _)) in_hand (λ r, addr r.2 ≠ x).
Proof.
  assert (Hret : ∀ rc q' P, addr q' = addr q → (in_hand (rc, q') ≤ tok q)%nat →
            (P → addr q ≠ x) → moves P (tok q) (mret (rc, q')) in_hand (λ r, addr r.2 ≠ x)).
  { intros rc q' P Ha Hle HP. apply moves_ret; [done|]. intros Hx%HP. cbn. rewrite Ha, tok_other by done. split; [lia|done]. }
  unfold process_publish. apply moves_bind_lift. intros [[[[n plen] d] qos] r] Hd.
  apply moves_bind_keep; [apply keeps_get_client|]. intros m. apply moves_bind_keep; [apply keeps_on_protocol|]. intros rc.
  assert (Hq : ∀ n' d', details (command q) = DPublish n' plen d' qos r → is_qos0 (command q) = (qos =? 0)).
  { intros n' d' E. unfold is_qos0. by rewrite E. }
  destruct (details (command q)) as [| | |[n'|] plen' [d'|] qos' r'|] eqn:E; try done. injection Hd as -> -> -> -> ->.
  specialize (Hq _ _ eq_refl).
  destruct (qos =? 0) eqn:Eq; cbn [negb].
  - destruct (rc =? TCPSOCKET_COMPLETE) eqn:Ec.
    + apply (moves_bind _ _ _ (λ _, 0%nat) (λ _, True)); [apply moves_emits; [apply answers_success|]|].
      * intros Hx. rewrite tok_other by done. lia.
      * intros _. apply moves_ret; [unfold in_hand; cbn; by rewrite Hq, Ec|]. intros [Hx _]. split; [lia|done].
    + apply (moves_bind _ _ _ (λ _, tok q) (λ _, True)).
      * apply moves_update. intros m1 r1 m2 [= <- <-]. split; [done|]. intros Hx (Hv & _ & Hr).
        split; [|done]. split; [done|]. split; [|done]. cbn. by intros [= ?].
      * intros _. apply Hret; [by destruct (rc =? SOCKET_ERROR)| |by intros [? _]].
        etransitivity; [apply in_hand_le|]. cbn [snd]. by destruct (rc =? SOCKET_ERROR).
  - apply Hret; [done| |done]. by etransitivity; [apply in_hand_le|].
Qed.

(** What becomes of the command uses what is in hand. *)
Lemma moves_add_response q : moves (ok q) (tok q) (add_response q : act ()) (λ _, 0%nat) (λ _, True).
Proof.
  apply moves_update. intros m r m' [= <- <-]. cbn. rewrite toks_app, toks_cons. change (toks []) with 0%nat.
  split; [lia|]. intros Hq (Hv & Hp & Hr). split; [|split; [lia|done]]. split; [done|]. split; [done|].
  intros y [?|Hy]%elem_of_app Hx; [by apply Hr|]. apply list_elem_of_singleton in Hy as ->.
  split; [|by apply Hq]. by destruct (Hq Hx).
Qed.

Lemma moves_command_failed q rc :
  moves (ok q) (tok q) (command_failed beforeWrite cursor now signal q rc : act ()) (λ _, 0%nat) (λ _, True).
Proof.
  unfold command_failed. apply moves_bind_keep; [account|]. intros _.
  apply moves_bind_keep; [account|]. intros m.
  assert (Hc : ∀ u, conn_of (command q) = Some u → ok q → addr q ≠ x).
  { intros u E Hq. apply ok_details_other; [done|]. unfold conn_of in E. by destruct (details (command q)). }
  destruct (match conn_of _ with Some _ => _ | None => _ end).
  - apply moves_bind_lift. intros [u v] E. destruct (conn_of (command q)) as [cn|]; [|done]. specialize (Hc cn eq_refl).
    eapply moves_bind.
    + eapply moves_weaken, (moves_add_command (with_command q (with_details (command q) (DConnect u v)))); [done..|].
      intros Hq%Hc. split; [by apply ok_of_other|]. split; [done|]. by instantiate (1 := λ _, True).
    + intros r. cbn beta. by apply moves_ret.
  - apply (moves_bind _ _ _ (λ _, 0%nat) (λ _, True)).
    + apply moves_emits; [apply answers_failure|]. by apply answers_failure_ok.
    + intros _. apply moves_keep; [account|done..].
Qed.

Lemma moves_command_done q rc :
  moves (ok q) (in_hand (rc, q)) (command_done beforeWrite cursor now signal q rc : act ()) (λ _, 0%nat) (λ _, True).
Proof.
  unfold command_done.
  assert (Hle : (in_hand (rc, q) ≤ tok q)%nat) by apply in_hand_le.
  assert (Hgo : negb (is_qos0 (command q) && (rc =? TCPSOCKET_COMPLETE)) = true → in_hand (rc, q) = tok q).
  { unfold in_hand. cbn [fst snd]. by destruct (_ && _). }
  assert (Hkeep : ∀ f : act (), keeps f → (ok q → addr q ≠ x) → moves (ok q) (in_hand (rc, q)) f (λ _, 0%nat) (λ _, True)).
  { intros f Hf Hx. apply moves_keep; [done|lia|]. intros Hq%Hx _. rewrite (tok_other q Hq) in Hle. by split. }
  assert (Hother : ∀ t, (type (command q) =? t) = true → t ≠ SUBSCRIBE → t ≠ UNSUBSCRIBE → ok q → addr q ≠ x).
  { intros t Ht%Z.eqb_eq H1 H2 Hq. apply ok_other; [done|congruence..]. }
  assert (Hfull : ∀ f : act (), negb (is_qos0 (command q) && (rc =? TCPSOCKET_COMPLETE)) = true →
            moves (ok q) (tok q) f (λ _, 0%nat) (λ _, True) → moves (ok q) (in_hand (rc, q)) f (λ _, 0%nat) (λ _, True)).
  { intros f E Hf. by rewrite Hgo. }
  destruct (_ && negb _) eqn:Ec.
  { apply andb_true_iff in Ec as [Ec _]. apply Hkeep; [account|]. by eapply Hother. }
  destruct (type (command q) =? DISCONNECT) eqn:Ed; [apply Hkeep; [account|by eapply Hother]|].
  destruct (is_qos0 (command q) && negb _) eqn:Eq.
  - destruct (rc =? TCPSOCKET_INTERRUPTED) eqn:Ei.
    + apply Hfull, moves_add_response. apply Z.eqb_eq in Ei as ->. by rewrite andb_comm.
    + apply Hkeep; [account|]. intros Hq. apply ok_details_other; [done|]. apply andb_true_iff in Eq as [Eq _].
      unfold is_qos0 in Eq. by destruct (details (command q)).
  - destruct (_ || _) eqn:Ee.
    + apply Hfull, moves_command_failed.
      apply orb_true_iff in Ee as [E%Z.eqb_eq|E%Z.eqb_eq]; rewrite E; by rewrite andb_comm.
    + rewrite andb_true_r in Eq. apply Hfull, moves_add_response. by rewrite Eq.
Qed.

Lemma moves_process_taken q : moves (ok q) (tok q)
  (process_taken beforeWrite cursor now signal proxy_env conn_answers new_socket uninit q : act ()) (λ _, 0%nat) (λ _, True).
Proof.
  unfold process_taken. apply (moves_bind _ _ _ in_hand (λ r, ok r.2)).
  - assert (Hd := ok_details_other q).
    assert (Hreq : ∀ rc P, match details (command q) with DPublish _ _ _ _ _ => False | _ => True end → (P → ok q) →
              moves P (tok q) (mret (rc, q)) in_hand (λ r, ok r.2)).
    { intros rc P E HP. apply moves_ret; [apply in_hand_le|]. intros Hq%HP. split; [|done].
      unfold in_hand, is_qos0. cbn. by destruct (details (command q)). }
    destruct (details (command q)) eqn:E.
    + eapply moves_weaken, moves_process_connect; [done|apply in_hand_le|]. intros Hq. split; [by apply Hd|]. split; [done|].
      intros [rc q'] Hx. split; [by apply ok_of_other|]. cbn in *. rewrite tok_other by done. lia.
    + apply moves_bind_keep; [account|]. intros rc. by apply Hreq.
    + apply moves_bind_keep; [account|]. intros rc. by apply Hreq.
    + eapply moves_weaken, moves_process_publish; [done..|]. intros Hq. split; [by apply Hd|]. split; [done|].
      intros [rc q'] Hx. split; [by apply ok_of_other|done].
    + apply moves_bind_keep; [account|]. intros rc. by apply Hreq.
  - intros [rc q']. eapply moves_weaken, moves_command_done; [done..|]. by intros [_ ?].
Qed.

Lemma next_loop_in (structs : gmap positive async) (t : T) ign l q : next_loop structs t ign l = Some (Some q) → q ∈ l.
Proof.
  revert ign. induction l as [|y l IH]; intros ign; cbn [next_loop]; [done|].
  destruct (bool_decide _); [intros H; right; by eapply IH|].
  destruct (structs !! client y) as [m|]; [|done]. cbn [mbind option_bind].
  destruct (command_ready _ _ _); [intros [= ->]; left|]. intros H. right. by eapply IH.
Qed.

Lemma restore_taken_same q (m : async) q' m' : restore_taken afterRead true q m = Some (q', m') →
  addr q' = addr q ∧ same_account m m' ∧ (ok q → ok q').
Proof.
  unfold restore_taken. destruct (phandle (buffering m)) as [s|]; [|by intros [= <- <-]].
  destruct (if not_restored q then _ else _) as [q1|] eqn:E; [|done]. cbn [mbind option_bind].
  destruct (MQTTAsync_unpersistCommand _ _ _) as [[rc s']|]; [|done]. cbn [mbind option_bind]. intros [= <- <-].
  assert (Ho : addr q1 = addr q → ok q → ok q1).
  { intros Ha Hq Hx. destruct (Hq ltac:(congruence)) as (_ & _ & Hn & _). rewrite Hn in E. injection E as <-. by apply Hq. }
  cut (addr q1 = addr q); [intros Ha; split; [done|split; [done|by apply Ho]]|]. clear Ho. destruct (not_restored q); [|by injection E as <-].
  destruct (key q) as [k|]; [|done]. cbn [mbind option_bind] in E.
  destruct (after_read _ _) as [rc' buffer]. destruct (rc' =? 0); [|by injection E as <-].
  destruct (MQTTAsync_restoreCommand _ _ _ _) as [r|]; [|done]. cbn [mbind option_bind] in E.
  destruct r as [c|]; [|done]. cbn [mbind option_bind] in E. by injection E as <-.
Qed.

Lemma take_command_toks (structs : gmap positive async) (t : T) l o ss l' : take_command afterRead true structs t l = Some (o, ss, l') →
  (toks l' + toks_opt o = toks l)%nat ∧ (∀ y, y ∈ l' → y ∈ l) ∧
  (ss = structs ∨ ∃ a m m', structs !! a = Some m ∧ same_account m m' ∧ ss = <[a := m']> structs) ∧
  (∀ q', o = Some q' → (∀ y, y ∈ l → ok y) → ok q').
Proof.
  unfold take_command. destruct (next_loop structs t [] l) as [[q|]|] eqn:En; [| |done]; cbn [mbind option_bind].
  - destruct (structs !! client q) as [m|] eqn:Em; [|done]. cbn [mbind option_bind].
    destruct (restore_taken _ _ _ _) as [[q' m']|] eqn:Er; [|done]. cbn [mbind option_bind]. intros [= <- <- <-].
    apply restore_taken_same in Er as (Ha & Hs & Ho). apply next_loop_in in En. cbn [toks_opt from_option].
    rewrite (tok_addr _ _ Ha). split; [by apply toks_remove_in|]. split; [intros y; apply remove_sub|]. split.
    + right. exists (client q), m, m'. split; [done|]. split; [|done]. by destruct (type (command q) =? PUBLISH).
    + intros q1 [= <-] Hl. by apply Ho, Hl.
  - intros [= <- <- <-]. split; [cbn; lia|]. split; [done|]. split; [by left|done].
Qed.

Lemma moves_take_next : moves True 0 (take_next afterRead : act _) toks_opt (λ o, ∀ q, o = Some q → ok q).
Proof.
  apply moves_silent. intros w r w' ev H. unfold take_next, the_world, put_world, lift, mbind, emitting_bind, mret, emitting_ret in H.
  destruct (take_command _ _ _ _ _) as [[[o ss] l]|] eqn:Et; [|done]. cbn in H. injection H as <- <- <-.
  apply take_command_toks in Et as (Ht & Hsub & Hs & Ho).
  assert (waiting ss = waiting (structs w)) as Hwt.
  { destruct Hs as [->|(a & m & m' & Hm & (Hr & _) & ->)]; [done|]. pose proof (waiting_insert a m m' _ Hm). rewrite Hr in *. lia. }
  split_and!; [done|done|unfold weight; cbn; lia|].
  intros _ Hw. split; [|split; [unfold weight; cbn; lia|intros q Hq; apply (Ho q Hq); intros y Hy Hx; by apply Hw]].
  assert (Hl : listed (structs w) (commands w) → listed (structs w) l) by (intros Hl y Hy%Hsub; by apply Hl).
  destruct Hs as [->|(a & m & m' & Hm & Hsame & ->)].
  - destruct Hw as (? & Hli & ?). by split; [|split; [apply Hl|]].
  - eapply (request_at a m m' w); [done..|]. apply (good_same a m); [done|]. by apply Hw.
Qed.

Lemma keeps_processCommand :
  keeps (MQTTAsync_processCommand beforeWrite afterRead cursor now signal proxy_env conn_answers new_socket uninit : act bool).
Proof.
  unfold MQTTAsync_processCommand. eapply moves_bind; [apply moves_take_next|].
  intros [q|]; [|by apply moves_ret]. apply (moves_bind _ _ _ (λ _, 0%nat) (λ _, True)).
  - eapply moves_weaken, moves_process_taken; [done..|]. intros [_ Hq]. split; [by apply Hq|done].
  - intros _. by apply moves_ret.
Qed.

(** ** Timeouts, writes and answers *)

Lemma keeps_check_reconnect a : keeps (check_reconnect beforeWrite cursor now signal a : act ()).
Proof.
  unfold check_reconnect. apply keeps_bind; [account|]. intros m. destruct (_ && _); [|account].
  apply keeps_bind; [account|]. intros [|]; [|account].
  eapply moves_bind; [apply moves_malloc|]. intros y.
  apply moves_bind_keep; [account|]. intros c. apply moves_bind_keep; [account|]. intros _.
  apply (moves_bind _ _ _ (λ _, 0%nat) (λ _, True)); [|intros; apply moves_keep; [account|done..]].
  eapply moves_weaken, (moves_add_command (mkQueued y c a 0 false None)); [done..|].
  intros [_ Hy]. split; [by apply ok_of_other|done].
Qed.
Hint Resolve keeps_check_reconnect : ledger.
Lemma keeps_check_client a : keeps (check_client beforeWrite cursor now signal a : act ()).
Proof. unfold check_client. account. Qed.
Hint Resolve keeps_check_client : ledger.
Lemma keeps_checkTimeouts : keeps (MQTTAsync_checkTimeouts beforeWrite cursor now signal : act ()).
Proof. unfold MQTTAsync_checkTimeouts. account. Qed.

Lemma keeps_keepalive_handle a : keeps (keepalive_handle beforeWrite cursor now signal a : act ()).
Proof. unfold keepalive_handle. account. Qed.
Lemma keeps_retry_handle b c a : keeps (retry_handle beforeWrite cursor now signal b c a : act ()).
Proof. unfold retry_handle. account. Qed.
Hint Resolve keeps_keepalive_handle keeps_retry_handle : ledger.
Lemma keeps_retry : keeps (MQTTAsync_retry beforeWrite cursor now signal : act ()).
Proof. unfold MQTTAsync_retry. account. Qed.
Hint Resolve keeps_retry : ledger.

Lemma find_in (P : MQTTAsync_queuedCommand → bool) l q : List.find P l = Some q → q ∈ l.
Proof. intros H. apply find_some in H as [H _]. by apply list_elem_of_In. Qed.

Lemma replaced_in q l y : y ∈ replace_addr q l → y = q ∨ y ∈ l.
Proof.
  induction l as [|z l IH]; [by intros ?%elem_of_nil|]. cbn [replace_addr].
  destruct (decide (addr z = addr q)); intros [->|Hy]%elem_of_cons; [by left|by right; right|by right; left|].
  destruct (IH Hy) as [->|?]; [by left|by right; right].
Qed.

Lemma complete_response_toks place p rc (m : async) :
  (toks (responses (complete_response place p rc m).2) + answers (complete_response place p rc m).1 ≤ toks (responses m))%nat.
Proof.
  unfold complete_response. destruct (List.find _ _) as [q|] eqn:E; [|cbn; change (answers []) with 0%nat; lia].
  apply find_in, toks_remove_in in E.
  pose proof (λ t d, answers_success q (command q) t d) as Hs. pose proof (λ t k, answers_failure q (command q) t k) as Hf.
  destruct (details (command q)) as [| | |n plen d qos r|]; cbn [fst snd responses with_responses];
    try (change (answers []) with 0%nat; lia).
  destruct (_ && _); [cbn; specialize (Hs (token (command q)) (pub_data (command q))); lia|].
  destruct (rc =? -1); [cbn; specialize (Hf (token (command q)) rc); lia|].
  cbn. rewrite toks_replace. change (answers []) with 0%nat. lia.
Qed.

Lemma good_responses a m l : good a m → (∀ q, q ∈ l → addr q = x → q ∈ responses m) → good a (with_responses m l).
Proof. intros (Hv & Hp & Hr) Hl. split; [done|]. split; [done|]. intros q Hq Hx. by apply Hr; [apply Hl|]. Qed.

Lemma complete_response_other place a p rc (m : async) : place p ≠ place x → good a m →
  good a (complete_response place p rc m).2 ∧ toks (responses (complete_response place p rc m).2) = toks (responses m).
Proof.
  intros Hp Hg. unfold complete_response. destruct (List.find _ _) as [q|] eqn:E; [|done].
  apply find_some in E as [Hq E%bool_decide_eq_true]. apply list_elem_of_In in Hq.
  assert (Hne : addr q ≠ x) by congruence. clear E Hp. rename Hne into Hp.
  assert (Hrem : good a (with_responses m (remove_addr (addr q) (responses m))) ∧
                 toks (remove_addr (addr q) (responses m)) = toks (responses m)).
  { split; [|by apply remove_other]. apply good_responses; [done|]. intros y Hy _. by eapply remove_sub. }
  destruct (details (command q)) as [| | |n plen d qos r|]; try done.
  destruct (_ && _); [done|]. destruct (rc =? -1); [done|]. cbn. rewrite toks_replace. split; [|done].
  apply good_responses; [done|]. intros y Hy Hx. apply replaced_in in Hy as [->|?]; done.
Qed.

(** No other command is given the address of the request. *)
Definition own_place (place : positive → positive) : Prop := ∀ p, place p = place x → p = x.

Lemma moves_writeComplete place sock rc : moves (own_place place) 0 (MQTTAsync_writeComplete now place sock rc : act ()) (λ _, 0%nat) (λ _, True).
Proof.
  unfold MQTTAsync_writeComplete. apply moves_bind_keep; [account|]. intros _.
  apply moves_bind_keep; [account|]. intros [a|]; [|by apply moves_ret].
  apply moves_bind_keep; [account|]. intros _.
  apply (moves_bind _ _ _ (λ _, 0%nat) (good a)); [eapply moves_weaken, moves_get_client; done|]. intros m. cbv beta.
  destruct (pending_write m) as [p|] eqn:Ep; [|by apply moves_ret].
  apply (moves_bind _ _ _ answers (λ ev, answers ev = 0%nat)).
  - apply moves_update. intros m1 r m2 [= E]. pose proof (complete_response_toks place p rc m1) as H.
    pose proof (complete_response_other place a p rc m1) as Ho. rewrite E in H, Ho. cbn in H, Ho. split; [lia|].
    intros [Hown (_ & Hp & _)] Hg. rewrite Ep in Hp. destruct Ho as [Hg2 Ht]; [by intros ->%Hown|done|]. split; [done|]. lia.
  - intros ev. apply (moves_bind _ _ _ (λ _, 0%nat) (λ _, True)); [apply moves_emits; [lia|intros; lia]|]. intros _.
    apply moves_update. intros m1 r m2 [= <- <-]. split; [done|]. intros _ (Hv & _ & Hr). done.
Qed.

(** What is detached may be the request. *)
Definition of_owner (a : positive) (o : option MQTTAsync_queuedCommand) : Prop :=
  ∀ q, o = Some q → addr q = x → a = owner ∧ answerable q.
Lemma moves_detach_response a t : moves True 0 (detach_response a t : act _) toks_opt (of_owner a).
Proof.
  apply moves_update. intros m r m' E. unfold find_response in E.
  destruct (List.find _ _) as [q|] eqn:Ef; injection E as <- <-; cbn; [|by split; [lia|]].
  apply find_in in Ef. pose proof (toks_remove_in _ _ Ef) as Ht. split; [lia|]. intros _ Hg. split; [|split; [lia|]].
  - apply good_responses; [done|]. intros y Hy _. by eapply remove_sub.
  - intros y [= <-] Hx. by apply Hg.
Qed.

(** The calls made for an answer. *)
Ltac calls H Hc := repeat case_match; try discriminate H; injection H as <-; rewrite ?Hc; try done; change (answers []) with 0%nat; try lia.
Lemma suback_calls_le v q codes ev : suback_calls v q codes = Some ev → (answers ev ≤ tok q)%nat.
Proof. unfold suback_calls. intros H. pose proof (λ c d, answers_call q c d) as Hc. calls H Hc. Qed.
Lemma unsuback_calls_le q codes ev : unsuback_calls q codes = Some ev → (answers ev ≤ tok q)%nat.
Proof. unfold unsuback_calls. intros H. pose proof (λ c d, answers_call q c d) as Hc. calls H Hc. Qed.
Lemma publish_calls_le q rc ev : publish_calls q rc = Some ev → (answers ev ≤ tok q)%nat.
Proof. unfold publish_calls. intros H. pose proof (λ c d, answers_call q c d) as Hc. calls H Hc. Qed.

(** A request is called whatever answers it. *)
Lemma answerable_success q : answerable q → is_Some (onSuccess (command q)) ∨ is_Some (onSuccess5 (command q)).
Proof. intros (_ & _ & _ & H). destruct (_ <=? _); destruct H; auto. Qed.
Lemma suback_calls_ge q codes ev : answerable q → suback_calls version q codes = Some ev → (tok q ≤ answers ev)%nat.
Proof.
  intros (_ & _ & _ & Hq) H. unfold suback_calls in H. pose proof (λ c d, answers_call q c d) as Hc.
  destruct (MQTTVERSION_5 <=? version); destruct Hq as [[s Es] [f Ef]]; rewrite ?Es, ?Ef in H; calls H Hc.
Qed.
Lemma unsuback_calls_ge q codes ev : answerable q → unsuback_calls q codes = Some ev → (tok q ≤ answers ev)%nat.
Proof.
  intros Hq%answerable_success H. unfold unsuback_calls in H. pose proof (λ c d, answers_call q c d) as Hc.
  calls H Hc. destruct Hq as [[? ?]|[? ?]]; done.
Qed.
Lemma publish_calls_ge q rc ev : answerable q → publish_calls q rc = Some ev → (tok q ≤ answers ev)%nat.
Proof.
  intros (_ & _ & _ & Hq) H. unfold publish_calls in H. pose proof (λ c d, answers_call q c d) as Hc.
  destruct (MQTTVERSION_5 <=? version); destruct Hq as [[s Es] [f Ef]]; rewrite ?Es, ?Ef in H; calls H Hc.
Qed.

(** The answer to what was detached, if something was. *)
Lemma moves_answer P a (calls : MQTTAsync_queuedCommand → option (list AsyncProcess.aevent)) o :
  (∀ q ev, calls q = Some ev → (answers ev ≤ tok q)%nat) →
  (P → of_owner a o) → (∀ q ev, P → answerable q → a = owner → calls q = Some ev → (tok q ≤ answers ev)%nat) →
  moves P (toks_opt o) (match o with Some q => ev ← lift (calls q); emits ev | None => mret () end : act ()) (λ _, 0%nat) (λ _, True).
Proof.
  intros Hle Ho Hge. destruct o as [q|]; [|by apply moves_ret]. apply moves_bind_lift. intros ev E.
  apply moves_emits; [by apply Hle|]. intros HP. cbn. unfold tok at 1. destruct (decide (addr q = x)) as [Hx|]; [|lia].
  destruct (Ho HP q eq_refl Hx) as [Ha Hq]. pose proof (Hge q ev HP Hq Ha E) as H. unfold tok in H. by rewrite decide_True in H.
Qed.

Lemma keeps_receive_suback a p : keeps (receive_suback a p : act Z).
Proof.
  unfold receive_suback. eapply moves_bind; [apply moves_get_client|]. intros m.
  eapply moves_bind; [eapply moves_weaken, moves_detach_response; [done..|by intros [_ _]]|]. intros o. cbv beta.
  apply (moves_bind _ _ _ (λ _, 0%nat) (λ _, True)); [|intros; apply moves_keep; [account|done..]].
  apply (moves_answer _ a (λ q, suback_calls (MQTTVersion (link m)) q (codes_of p))).
  - intros q ev. apply suback_calls_le.
  - by intros [_ ?].
  - intros q ev [[_ (Hv & _)] _] Hq Ha. rewrite (Hv Ha). by apply suback_calls_ge.
Qed.
Lemma keeps_receive_unsuback a p : keeps (receive_unsuback a p : act Z).
Proof.
  unfold receive_unsuback. eapply moves_bind; [apply moves_detach_response|]. intros o. cbv beta.
  apply (moves_bind _ _ _ (λ _, 0%nat) (λ _, True)); [|intros; apply moves_keep; [account|done..]].
  apply (moves_answer _ a (λ q, unsuback_calls q (codes_of p))).
  - intros q ev. apply unsuback_calls_le.
  - by intros [_ ?].
  - intros q ev _ Hq _. by apply unsuback_calls_ge.
Qed.
Lemma keeps_receive_ack a p i : keeps (receive_ack persistence_remove now a p i : act Z).
Proof.
  unfold receive_ack. do 3 (apply keeps_bind; [account|]; intros ?). apply keeps_bind; [|intros; account].
  destruct (_ || _); [|account]. do 2 (apply keeps_bind; [account|]; intros ?).
  eapply moves_bind; [apply moves_detach_response|]. intros o. cbv beta.
  apply (moves_answer _ a (λ q, publish_calls q r0)).
  - intros q ev. apply publish_calls_le.
  - by intros [_ ?].
  - intros q ev _ Hq _. by apply publish_calls_ge.
Qed.
Hint Resolve keeps_receive_suback keeps_receive_unsuback keeps_receive_ack : ledger.

(** ** Connections, messages, the two threads *)

Lemma keeps_completeConnection a p : keeps (MQTTAsync_completeConnection beforeWrite cursor now signal a p : act Z).
Proof. unfold MQTTAsync_completeConnection. account. Qed.
Hint Resolve keeps_completeConnection : ledger.

Lemma connect_calls_none (m : async) p ev : connect_calls m p = Some ev → answers ev = 0%nat.
Proof.
  unfold connect_calls. destruct (onSuccess (connect m)) as [f|].
  - destruct (conn_of _) as [[u v]|]; [|done]. cbn [mbind option_bind]. destruct (success_uri m u); [|done]. by intros [= <-].
  - destruct (onSuccess5 (connect m)) as [f|]; [|by intros [= <-]].
    destruct (conn_of _) as [[u v]|]; [|done]. cbn [mbind option_bind]. destruct (success_uri5 m u); [|done]. by intros [= <-].
Qed.

Lemma keeps_receive_connack a p : keeps (receive_connack beforeWrite cursor now signal a p : act ()).
Proof.
  unfold receive_connack. apply keeps_bind; [account|]. intros rc. destruct (rc =? _); [|account].
  apply keeps_bind; [account|]. intros m. apply moves_bind_lift. intros ev E.
  apply keeps_bind; [apply keeps_emits; by eapply connect_calls_none|]. intros _.
  apply keeps_bind; [account|]. intros _. apply keeps_bind; [account|]. intros _.
  apply keeps_update. intros m1 r m2. unfold receive_maximum. 
  destruct (MQTTVERSION_5 <=? _); [|by intros [= <- <-]]. destruct (cn_properties p) as [ps|]; [|done]. cbn [mbind option_bind].
  destruct (_ =? 1); [|by intros [= <- <-]]. destruct (MQTTProperties_getNumericValue _ _); [|done]. cbn [mbind option_bind].
  intros [= <- <-]. by destruct (_ <? _).
Qed.
Hint Resolve keeps_receive_connack : ledger.

Lemma keeps_deliver_queued a : keeps (deliver_queued taken a : act ()).
Proof.
  unfold deliver_queued. apply keeps_bind; [account|]. intros m.
  destruct (messageQueue m).1 as [|qe rest]; [account|]. destruct (ma (calls m)) as [f|]; [|account].
  apply keeps_bind; [unfold MQTTAsync_deliverMessage; account|]. intros [|]; [|account].
  apply keeps_update. intros m1 r m2. unfold unpersist_entry.
  destruct (phandle (buffering m1)); [|by intros [= <- <-]].
  destruct (MQTTPersistence_unpersistQueueEntry _ _ _) as [[]|]; [|done]. cbn [mbind option_bind]. by intros [= <- <-].
Qed.
Hint Resolve keeps_deliver_queued : ledger.

Lemma keeps_processPublication a p : keeps (Protocol_processPublication beforeWrite taken a p : act ()).
Proof.
  unfold Protocol_processPublication. apply keeps_bind; [account|]. intros msg.
  apply keeps_bind; [account|]. intros m. apply keeps_bind; [unfold MQTTAsync_deliverMessage; account|].
  intros [|]; [account|]. apply keeps_update. intros m1 r m2. unfold persist_entry.
  destruct (phandle (buffering m1)); [|by intros [= <- <-]].
  destruct (MQTTPersistence_persistQueueEntry _ _ _ _ _ _) as [[[[]]]|]; [|done]. cbn [mbind option_bind]. by intros [= <- <-].
Qed.

Lemma connecting_step_none (m : async) uri y : answers (connecting_step m uri y).2 = 0%nat.
Proof. unfold connecting_step. repeat case_match; reflexivity. Qed.
Lemma keeps_connecting a y : keeps (MQTTAsync_connecting beforeWrite cursor now signal a y : act Z).
Proof.
  unfold MQTTAsync_connecting. do 2 (apply keeps_bind; [account|]; intros ?).
  pose proof (connecting_step_none r r0 y) as H. destruct (connecting_step r r0 y) as [[rc state] ev].
  apply keeps_bind; [by apply keeps_emits|]. intros _. account.
Qed.
Hint Resolve keeps_connecting : ledger.
Lemma keeps_handle_packet a p rc : keeps (handle_packet persistence_remove now a p rc : act (option packet * Z)).
Proof. unfold handle_packet. account. Qed.
Hint Resolve keeps_handle_packet : ledger.
Lemma keeps_cycle sock rcv y : keeps (MQTTAsync_cycle beforeWrite persistence_remove cursor now signal sock rcv y : act (option packet * Z)).
Proof. unfold MQTTAsync_cycle. account. Qed.
Lemma keeps_received sock pack rc : keeps (MQTTAsync_received beforeWrite cursor taken now signal sock pack rc : act ()).
Proof. unfold MQTTAsync_received. account. Qed.

Lemma freeCommands_toks a l :
  (toks (fst (AsyncQueue.MQTTAsync_freeCommands a l)) + toks (filter (of_client a) l) = toks l)%nat.
Proof.
  induction l as [|q l IH]; [done|]. cbn [AsyncQueue.MQTTAsync_freeCommands]. rewrite filter_cons.
  destruct (AsyncQueue.MQTTAsync_freeCommands a l) as [rest k] eqn:E. cbn [fst] in IH.
  destruct (decide (of_client a q)) as [D|D]; unfold of_client in D.
  - rewrite bool_decide_eq_true_2 by done. cbn [fst]. rewrite !toks_cons. lia.
  - rewrite bool_decide_eq_false_2 by done. cbn [fst]. rewrite !toks_cons. lia.
Qed.
Lemma freeCommands_in a l q : q ∈ fst (AsyncQueue.MQTTAsync_freeCommands a l) → q ∈ l ∧ client q ≠ a.
Proof.
  induction l as [|y l IH]; [by intros ?%elem_of_nil|]. cbn [AsyncQueue.MQTTAsync_freeCommands].
  destruct (AsyncQueue.MQTTAsync_freeCommands a l) as [rest k]. cbn [fst] in IH. case_bool_decide as D; cbn [fst].
  - intros [? ?]%IH. split; [by right|done].
  - intros [->|Hq]%elem_of_cons; [split; [left|done]|]. destruct (IH Hq). split; [by right|done].
Qed.
(** Nothing of the client waits, then nothing of it is listed. *)
Lemma keeps_free_commands a : keeps (free_commands a : act ()).
Proof.
  intros w r w' ev H. unfold free_commands, the_world, put_commands, emits, mbind, emitting_bind in H. cbn in H.
  injection H as <- <- <-.
  pose proof (freeCommands_toks a (commands w)) as Ht. pose proof (answers_incomplete (filter (of_client a) (commands w))) as H1.
  pose proof (answers_incomplete_ok (filter (of_client a) (commands w))) as H2. unfold mbind in H1, H2.
  split; [done|]. split; [unfold weight; cbn; lia|]. intros _ (Hx & Hl & Hs). split; [|split; [|done]].
  - split; [done|]. split; [|done]. intros q [Hq _]%freeCommands_in. by apply Hl.
  - unfold weight. cbn. destruct H2; [|lia..]. intros q [_ Hq]%list_elem_of_filter Hqx. by apply Hl.
Qed.
Hint Resolve keeps_free_commands : ledger.

Lemma waiting_deleted a (structs : gmap positive async) : (waiting (delete a structs) ≤ waiting structs)%nat.
Proof.
  destruct (structs !! a) as [m|] eqn:E; [|by rewrite delete_id]. rewrite (waiting_delete a m structs E). lia.
Qed.

(** What is left of [MQTTAsync_destroy] when nothing of the client waits. *)
Definition destroy_last (a : positive) : act () :=
  m ← get_client a;
  w ← the_world;
  let s := sh w in
  '(_, pubs) ← lift (MQTTProtocol_freeClient (ac m) (publications s));
  put_shared (mkShared pubs (Protocol.pending_writes s) (msgs_sent s) (msgs_received s) (net s));;
  w ← the_world;
  put_world (mkWorld (delete a (structs w)) (filter (λ b, b ≠ a) (handles w)) (commands w) (sh w) (rands w)
               (next_alloc w) (timers w)).

Lemma destroy_last_account a w w' r ev : destroy_last a w = Some (r, w', ev) →
  (∀ m, structs w !! a = Some m → responses m = []) → (∀ q, q ∈ commands w → client q ≠ a) →
  ev = [] ∧ next_alloc w' = next_alloc w ∧ weight w' = weight w ∧ (request w → request w').
Proof.
  unfold destroy_last, get_client, the_world, put_world, put_shared, lift, mbind, emitting_bind.
  destruct (structs w !! a) as [m|] eqn:Em; [|done]. cbn.
  destruct (MQTTProtocol_freeClient _ _) as [[u pubs]|]; [|done]. cbn. intros [= <- <- <-] Hm Hc.
  split; [done|]. split; [done|]. split.
  - unfold weight. cbn. rewrite (waiting_delete a m (structs w) Em), (Hm m eq_refl). done.
  - intros (Hx & Hl & Hs). split; [done|]. split.
    + intros q Hq Hqx. destruct (Hl q Hq Hqx) as [Ha Ho]. split; [done|]. cbn.
      rewrite lookup_delete_ne; [done|]. destruct Ha as [<- _]. intros E. by apply (Hc q Hq).
    + intros b mb. cbn. rewrite lookup_delete_Some. intros [_ Hb]. by apply Hs.
Qed.

Lemma keeps_release a : keeps (free_responses a;; free_commands a;; destroy_last a : act ()).
Proof.
  intros w r w' ev H. unfold mbind, emitting_bind in H.
  destruct (free_responses a w) as [[[u1 w1] ev1]|] eqn:E1; [|done].
  destruct (free_commands a w1) as [[[u2 w2] ev2]|] eqn:E2; [|done].
  destruct (destroy_last a w2) as [[[u3 w3] ev3]|] eqn:E3; [|done]. injection H as -> -> <-.
  assert (Hm : ∀ m, structs w1 !! a = Some m → responses m = []).
  { clear -E1. unfold free_responses, update, get_client, put_client, emits, lift, mbind, emitting_bind, mret, emitting_ret in E1.
    destruct (structs w !! a) as [m|]; [|done]. cbn in E1. injection E1 as <- <- <-. cbn.
    intros m'. rewrite lookup_insert_eq. by intros [= <-]. }
  assert (Hc : structs w2 = structs w1 ∧ commands w2 = fst (AsyncQueue.MQTTAsync_freeCommands a (commands w1))).
  { clear -E2. unfold free_commands, the_world, put_commands, emits, mbind, emitting_bind in E2. cbn in E2.
    by injection E2 as <- <- <-. }
  destruct Hc as [Hs2 Hc2]. apply keeps_free_responses in E1 as (Hn1 & H1 & Hr1).
  apply keeps_free_commands in E2 as (Hn2 & H2 & Hr2).
  apply destroy_last_account in E3 as (-> & Hn3 & H3 & Hr3);
    [|by rewrite Hs2|intros q; rewrite Hc2; by intros [_ ?]%freeCommands_in].
  pose proof (fresh_trans w w1 w2 Hn1 Hn2) as Hf. assert (Hf' : fresh w w' = fresh w w2) by (unfold fresh; by rewrite Hn3).
  rewrite !answers_app. change (answers []) with 0%nat. split; [lia|]. split; [lia|].
  intros _ Hw. destruct (Hr1 I Hw) as (Hw1 & ? & _). destruct (Hr2 I Hw1) as (Hw2 & ? & _). split; [by apply Hr3|].
  split; [lia|done].
Qed.

Lemma keeps_destroy a : keeps (MQTTAsync_destroy now a : act ()).
Proof. unfold MQTTAsync_destroy. apply keeps_bind; [account|]. intros _. apply keeps_release. Qed.

(** ** The calls of the application *)

Lemma keeps_assign_id a : keeps (assign_id a : act Z).
Proof.
  unfold assign_id. apply keeps_bind; [account|]. intros w. apply keeps_update. intros m r m'.
  unfold MQTTAsync_assignMsgId. destruct (async_assign_loop _ _ _ _ _) as [id|]; [|done]. cbn [mbind option_bind].
  intros [= <- <-]. by destruct (id =? 0).
Qed.
Hint Resolve keeps_assign_id : ledger.
Lemma keeps_queue_request a v t r d : keeps (queue_request beforeWrite cursor now signal a v t r d : act (Z * option responseOptions)).
Proof. unfold queue_request. account. Qed.
Hint Resolve keeps_queue_request : ledger.
Lemma keeps_subscribeMany h topics r : keeps (MQTTAsync_subscribeMany beforeWrite cursor now signal h topics r : act (Z * option responseOptions)).
Proof. unfold MQTTAsync_subscribeMany. account. Qed.
Lemma keeps_unsubscribeMany h topics r : keeps (MQTTAsync_unsubscribeMany beforeWrite cursor now signal h topics r : act (Z * option responseOptions)).
Proof. unfold MQTTAsync_unsubscribeMany. account. Qed.
Lemma keeps_send h n l p q r o : keeps (MQTTAsync_send beforeWrite cursor now signal h n l p q r o : act (Z * option responseOptions)).
Proof. unfold MQTTAsync_send. account. Qed.
Hint Resolve keeps_send : ledger.
Lemma keeps_sendMessage h n y o : keeps (MQTTAsync_sendMessage beforeWrite cursor now signal h n y o : act (Z * option responseOptions)).
Proof. unfold MQTTAsync_sendMessage. account. Qed.
Lemma keeps_disconnect h o : keeps (MQTTAsync_disconnect beforeWrite cursor now signal h o : act Z).
Proof. unfold MQTTAsync_disconnect. account. Qed.
Lemma connect_second_same o (m m' : async) : connect_second o m = Some m' → same_account m m'.
Proof.
  unfold connect_second. intros E.
  do 3 (match type of E with context [if 6 <=? ?v then ?a else ?b] => destruct (if 6 <=? v then a else b); [|done] end;
        cbn [mbind option_bind] in E). by injection E as <-.
Qed.

(** The version that the options ask for is the one of the callbacks. *)
Definition asks_version (a : positive) (o : option connectOptions) : Prop :=
  a = owner → from_option (λ o, (if 3 <=? co_version o then co_version_asked o else MQTTVERSION_DEFAULT) = version) True o.
Lemma moves_connect a o :
  moves (asks_version a o) 0 (MQTTAsync_connect beforeWrite cursor now signal a o : act Z) (λ _, 0%nat) (λ _, True).
Proof.
  unfold MQTTAsync_connect. destruct o as [o|]; [|by apply moves_ret]. apply moves_bind_keep; [account|]. intros m.
  destruct (negb _); [by apply moves_ret|]. apply (moves_bind _ _ _ (λ _, 0%nat) (λ _, True)).
  - apply moves_update. intros m1 r m2 [= <- <-]. split; [cbn; lia|]. intros Ha (_ & Hp & Hr). split; [|done]. by split.
  - intros _. apply moves_keep; [|done..].
    apply keeps_bind; [account|]. intros w. apply keeps_bind; [account|]. intros _.
    destruct (_ && _); [account|]. apply keeps_bind; [|intros; account]. apply keeps_update. intros m1 r1 m2 E.
    destruct (connect_second o m1) as [m3|] eqn:E3; [|done]. cbn in E. injection E as <- <-. by eapply connect_second_same.
Qed.
Lemma keeps_reconnect a : keeps (reconnect_automatic a : act Z).
Proof. apply keeps_update. intros m r m'. cbv beta zeta. destruct (_ && _); intros [= <- <-]; [|done]. by destruct (retrying (retry m)). Qed.
Lemma keeps_set_when_idle h ok f : keeps (set_when_idle h ok f : act Z).
Proof. destruct h as [a|]; [|apply keeps_ret]. apply keeps_update. intros m r m'. cbv beta. by destruct (_ && _); intros [= <- <-]. Qed.
Lemma keeps_setUpdate h ctx f : keeps (MQTTAsync_setUpdateConnectOptions h ctx f : act Z).
Proof. unfold MQTTAsync_setUpdateConnectOptions. account. Qed.

(** ** A command that starts its life *)

Lemma toks_none l : toks l = 0%nat → ∀ q, q ∈ l → addr q ≠ x.
Proof.
  induction l as [|y l IH]; [by intros _ q ?%elem_of_nil|]. rewrite toks_cons. intros H q [->|Hq]%elem_of_cons.
  - intros E. unfold tok in H. rewrite decide_True in H by done. lia.
  - apply IH; [lia|done].
Qed.
Lemma toks_some l : (1 ≤ toks l)%nat → ∃ q, q ∈ l ∧ addr q = x.
Proof.
  induction l as [|y l IH]; [intros H; change (toks []) with 0%nat in H; lia|]. rewrite toks_cons. intros H.
  destruct (decide (addr y = x)) as [E|E]; [exists y; split; [left|done]|].
  rewrite (tok_other y E) in H. destruct (IH H) as (q & Hq & Hx). exists q. split; [by right|done].
Qed.
Lemma waiting_none (ss : gmap positive async) a m : waiting ss = 0%nat → ss !! a = Some m → toks (responses m) = 0%nat.
Proof. intros H Hm. rewrite (waiting_delete a m ss Hm) in H. lia. Qed.
Lemma waiting_zero (ss : gmap positive async) : (∀ a m, ss !! a = Some m → toks (responses m) = 0%nat) → waiting ss = 0%nat.
Proof.
  induction ss as [|a m ss Ha IH] using map_ind; [done|]. intros H. rewrite waiting_insert_new by done.
  rewrite (H a m) by apply lookup_insert_eq. rewrite IH; [done|]. intros b mb Hb. apply (H b).
  rewrite lookup_insert_ne; [done|]. intros ->. congruence.
Qed.

(** No write waits for a command that does not exist yet. *)
Definition pending_known (w : world) : Prop :=
  ∀ a m p, structs w !! a = Some m → pending_write m = Some p → (p < next_alloc w)%positive.

Lemma add_new_request (w : world) a m c rc w' ev : add_new beforeWrite cursor now signal a c w = Some (rc, w', ev) →
  next_alloc w = x → a = owner → structs w !! a = Some m → MQTTVersion (link m) = version → weight w = 0%nat → pending_known w →
  answerable (mkQueued x c a 0 false None) → request w' ∧ weight w' = 1%nat ∧ ev = [].
Proof.
  intros E Hx Ha Hm Hv Hw Hp Hc. unfold add_new, malloc in E. unfold mbind at 1, emitting_bind at 1 in E. cbv beta iota in E. rewrite Hx in E.
  set (w0 := mkWorld _ _ _ _ _ _ _) in E.
  destruct (add_command _ _ _ _ _ w0) as [[[rc1 w1] ev1]|] eqn:E1; [|done]. injection E as -> -> <-.
  assert (Hev : ev1 = []).
  { clear -E1. unfold add_command, get_client, put_client, put_commands, the_world, lift, mbind, emitting_bind, mret, emitting_ret in E1.
    destruct (structs w0 !! _) as [m|]; [|done]. cbn in E1.
    destruct (MQTTAsync_addCommand _ _ _ _ _ _ _ _) as [[[rc2 m2] l2]|]; [|done]. cbn in E1. by injection E1 as <- <- <-. }
  assert (Hw0 : weight w0 = 0%nat) by done. subst ev1.
  destruct (moves_add_command _ _ _ _ _ E1) as (_ & Hle & Hr).
  assert (Htok : tok (mkQueued x c a 0 false None) = 1%nat) by (unfold tok; cbn; by rewrite decide_True).
  assert (Hf : fresh w0 w' = 0%nat) by (unfold fresh, w0; cbn; rewrite decide_False by lia; done).
  rewrite Htok, Hf, Hw0 in *. change (answers []) with 0%nat in *. destruct Hr as (Hreq & Hge & _); [by intros _| |].
  - unfold weight in Hw. split; [cbn; lia|]. split.
    + intros q Hq Hqx. destruct (toks_none (commands w)) with q; [lia|done..].
    + intros b mb Hb. split; [intros ->; subst a; cbn in Hb; congruence|]. split.
      * intros Hpx. specialize (Hp b mb x Hb Hpx). lia.
      * intros q Hq Hqx. destruct (toks_none (responses mb)) with q; [|done..]. eapply (waiting_none (structs w)); [lia|done].
  - split; [done|]. split; [lia|done].
Qed.
End Account.

(** ** Runs *)

Section Runs.
Context {S T : Type} `{!Store S, !Transport T, !Closing T}.
Abbreviation async := (MQTTAsyncs S).
Abbreviation world := (world (S := S) (T := T)).
Abbreviation act := (act (S := S) (T := T)).

(** What the application, the two threads and the sockets may do, each at any
    time and with any answers of the functions that are not modelled; [asks] are
    the connections that the application may ask for. *)
Context (asks : positive → option connectOptions → Prop).
(** The address of each allocation, which may be that of an older one. *)
Context (place : positive → positive).

Inductive operation : ∀ A : Type, act A → Prop :=
  | op_process bw ar cur now signal env conn sock uninit :
      operation bool (MQTTAsync_processCommand bw ar cur now signal env conn sock uninit)
  | op_timeouts bw cur now signal : operation () (MQTTAsync_checkTimeouts bw cur now signal)
  | op_written now sock rc : operation () (MQTTAsync_writeComplete now place sock rc)
  | op_cycle bw rm cur now signal sock rcv y :
      operation (option packet * Z) (MQTTAsync_cycle bw rm cur now signal sock rcv y)
  | op_received bw cur taken now signal sock pack rc :
      operation () (MQTTAsync_received bw cur taken now signal sock pack rc)
  | op_publication bw taken a p : operation () (Protocol_processPublication bw taken a p)
  | op_connect bw cur now signal a o : asks a o → operation Z (MQTTAsync_connect bw cur now signal a o)
  | op_reconnect a : operation Z (reconnect_automatic a)
  | op_subscribe bw cur now signal h topics r :
      operation (Z * option responseOptions) (MQTTAsync_subscribeMany bw cur now signal h topics r)
  | op_unsubscribe bw cur now signal h topics r :
      operation (Z * option responseOptions) (MQTTAsync_unsubscribeMany bw cur now signal h topics r)
  | op_send bw cur now signal h n l p q r o :
      operation (Z * option responseOptions) (MQTTAsync_send bw cur now signal h n l p q r o)
  | op_sendMessage bw cur now signal h n y o :
      operation (Z * option responseOptions) (MQTTAsync_sendMessage bw cur now signal h n y o)
  | op_disconnect bw cur now signal h o : operation Z (MQTTAsync_disconnect bw cur now signal h o)
  | op_callbacks h ok f : operation Z (set_when_idle h ok f)
  | op_update_options h ctx f : operation Z (MQTTAsync_setUpdateConnectOptions h ctx f)
  | op_destroy now a : operation () (MQTTAsync_destroy now a).

Inductive run : world → list AsyncProcess.aevent → world → Prop :=
  | run_nil w : run w [] w
  | run_cons A f r w w1 w2 ev ev' :
      operation A f → f w = Some (r, w1, ev) → run w1 ev' w2 → run w (ev ++ ev') w2.

(** The connections of the owner keep the version of the request. *)
Definition version_kept (owner : positive) (version : Z) : Prop := ∀ a o, asks a o → asks_version owner version a o.

Lemma operation_moves x owner version A (f : act A) : operation A f →
  moves x owner version (version_kept owner version ∧ own_place x place) 0 f (λ _, 0%nat) (λ _, True).
Proof.
  destruct 1; lazymatch goal with
    | H : asks _ _ |- _ => eapply moves_weaken, moves_connect; [done..|]; intros [HP _]; split; [by apply HP|done]
    | |- context [MQTTAsync_writeComplete] => eapply moves_weaken, moves_writeComplete; [done..|]; intros [_ HP]; split; [exact HP|done]
    | _ => apply moves_keep; [|done..]
    end.
  - apply keeps_processCommand.
  - apply keeps_checkTimeouts.
  - apply keeps_cycle.
  - apply keeps_received.
  - apply keeps_processPublication.
  - apply keeps_reconnect.
  - apply keeps_subscribeMany.
  - apply keeps_unsubscribeMany.
  - apply keeps_send.
  - apply keeps_sendMessage.
  - apply keeps_disconnect.
  - apply keeps_set_when_idle.
  - apply keeps_setUpdate.
  - apply keeps_destroy.
Qed.

(** A run does what one statement of the same account may do. *)
Lemma run_moves x owner version w ev w' : run w ev w' →
  (next_alloc w ≤ next_alloc w')%positive ∧ (weight x w' + answers x ev ≤ weight x w + fresh x w w')%nat ∧
  (version_kept owner version → own_place x place → request x owner version w →
   request x owner version w' ∧ (weight x w ≤ weight x w' + answers x ev)%nat).
Proof.
  induction 1 as [w|A f r w w1 w2 ev ev' Hop Hf _ (Hn & IH & Hr)].
  - split; [done|]. split; [cbn; lia|]. intros _ _ ?. split; [done|]. lia.
  - apply (operation_moves x owner version) in Hop. apply Hop in Hf as (Hn1 & H1 & Hr1). rewrite answers_app.
    pose proof (fresh_trans x w w1 w2 Hn1 Hn). split; [lia|]. split; [lia|]. intros HP Hp Hw.
    destruct (Hr1 (conj HP Hp) Hw) as (Hw1 & ? & _). destruct (Hr HP Hp Hw1). split; [done|lia].
Qed.

(** Every address is given to one command at most, and none that is still to be
    allocated. *)
Definition ledger_ok (w : world) : Prop :=
  ∀ x, (weight x w ≤ 1)%nat ∧ ((next_alloc w ≤ x)%positive → weight x w = 0%nat).

(** C4: From a state in which every command is in one place at most, however the calls
    of the application but the creation of a client, the steps of the sending and
    receiving threads and the ends of writes alternate, and whatever addresses the
    commands are given again, the callbacks of a PUBLISH, a
    SUBSCRIBE or an UNSUBSCRIBE are called at most once in all, such a command whose
    callback has been called is neither in the list of commands nor among those that
    wait for an answer, and one that has ended is not called back later.  (The
    callbacks of a CONNECT and of a DISCONNECT that are called from the copies of
    these commands that the client keeps are not counted.) *)
Theorem answered_at_most_once w ev w' : ledger_ok w → run w ev w' →
  ledger_ok w' ∧
  (∀ x, (weight x w' + answers x ev ≤ 1)%nat) ∧
  (∀ x, (x < next_alloc w)%positive → weight x w = 0%nat → weight x w' = 0%nat ∧ answers x ev = 0%nat).
Proof.
  intros Hok Hr.
  assert (H : ∀ x, (weight x w' + answers x ev ≤ weight x w + fresh x w w')%nat) by (intros x; apply (run_moves x x 0 _ _ _ Hr)).
  assert (Hn : (next_alloc w ≤ next_alloc w')%positive) by apply (run_moves 1 1 0 _ _ _ Hr).
  split; [|split].
  - intros x. specialize (H x). destruct (Hok x) as [H1 H0]. unfold fresh in H. destruct (decide _) as [[Hx1 Hx2]|Hx].
    + rewrite H0 in H by done. split; [lia|]. intros. lia.
    + split; [lia|]. intros Hx1. rewrite H0 in H by lia. lia.
  - intros x. specialize (H x). destruct (Hok x) as [H1 H0]. unfold fresh in H. destruct (decide _) as [[Hx1 Hx2]|Hx]; [|lia].
    rewrite H0 in H by done. lia.
  - intros x Hx Hw. specialize (H x). unfold fresh in H. destruct (decide _) as [[Hx1 Hx2]|_]; lia.
Qed.

(** ** The life of a request *)

(** The options have both callbacks of the version. *)
Definition both_callbacks (version : Z) (r : responseOptions) : Prop :=
  if MQTTVERSION_5 <=? version then is_Some (ro_onSuccess5 r) ∧ is_Some (ro_onFailure5 r)
  else is_Some (ro_onSuccess r) ∧ is_Some (ro_onFailure r).

Lemma assign_id_same a (w : world) id w1 ev : assign_id a w = Some (id, w1, ev) →
  ev = [] ∧ commands w1 = commands w ∧ next_alloc w1 = next_alloc w ∧
  ∃ m m', structs w !! a = Some m ∧ same_account m m' ∧ structs w1 = <[a := m']> (structs w).
Proof.
  unfold assign_id, the_world, update, get_client, put_client, lift, mbind, emitting_bind, mret, emitting_ret.
  destruct (structs w !! a) as [m|] eqn:Em; [|done]. unfold MQTTAsync_assignMsgId.
  destruct (async_assign_loop _ _ _ _ _) as [id1|]; [|done]. cbn. intros [= <- <- <-].
  split_and!; [done..|]. eexists m, _. split; [done|]. split; [|done]. by destruct (id1 =? 0).
Qed.

(** Once an identifier is assigned, the request that is queued begins its life. *)
Lemma queue_request_born bw cur now signal a version tok r d (w w1 w2 : world) m id ev ev1 res :
  assign_id a w = Some (id, w1, ev) → queue_request bw cur now signal a version tok (Some r) d w1 = Some (res, w2, ev1) →
  structs w !! a = Some m → MQTTVersion (link m) = version → ledger_ok w → pending_known w → both_callbacks version r →
  match d with DSubscribe _ _ _ _ | DUnsubscribe _ => True | _ => False end →
  request (next_alloc w) a version w2 ∧ weight (next_alloc w) w2 = 1%nat.
Proof.
  intros E E1 Hm Hv Hok Hp Hr Hd. apply assign_id_same in E as (_ & Hc & Hn & m0 & m' & Hm0 & Hs & Hss).
  assert (m0 = m) as -> by congruence. clear Hm0. unfold queue_request, lift, requested in E1.
  unfold mbind at 1, emitting_bind at 1 in E1. destruct (if MQTTVERSION_5 <=? version then _ else _) as [ps|]; [|done].
  cbn [mbind option_bind] in E1. unfold mbind, emitting_bind in E1.
  destruct (add_new _ _ _ _ _ _ w1) as [[[rc w3] ev3]|] eqn:E3; [|done]. injection E1 as <- <- <-.
  assert (Hweight : weight (next_alloc w) w1 = weight (next_alloc w) w).
  { unfold weight. rewrite Hc, Hss. pose proof (waiting_insert (next_alloc w) a m m' (structs w) Hm) as H.
    destruct Hs as [Hs _]. rewrite Hs in H. lia. }
  destruct (add_new_request (next_alloc w) a version _ _ _ _ w1 a m' _ rc w3 ev3 E3) as (? & ? & _); try done.
  - by rewrite Hss, lookup_insert_eq.
  - destruct Hs as (_ & -> & _). done.
  - rewrite Hweight. by apply Hok.
  - intros b mb p. rewrite Hss, Hn. destruct (decide (b = a)) as [->|Hne].
    + rewrite lookup_insert_eq. intros [= <-]. destruct Hs as (_ & _ & ->). by apply (Hp a m).
    + rewrite lookup_insert_ne by done. apply (Hp b mb).
  - split; [done|]. split; [by destruct d; try done; [left|right]|]. split; [done|]. unfold both_callbacks in Hr. cbn. done.
Qed.

(** The call queues a command or allocates nothing. *)
Lemma subscribe_born bw cur now signal a topics r (w : world) m res w1 ev :
  MQTTAsync_subscribeMany bw cur now signal (Some a) topics (Some r) w = Some (res, w1, ev) →
  structs w !! a = Some m → ledger_ok w → pending_known w → both_callbacks (MQTTVersion (link m)) r →
  (next_alloc w < next_alloc w1)%positive →
  request (next_alloc w) a (MQTTVersion (link m)) w1 ∧ weight (next_alloc w) w1 = 1%nat.
Proof.
  intros E Hm Hok Hp Hr Hn. unfold MQTTAsync_subscribeMany in E. unfold mbind at 1, emitting_bind at 1, get_client, lift at 1 in E.
  rewrite Hm in E. destruct (negb _); [injection E as <- <- <-; lia|]. destruct (negb _); [injection E as <- <- <-; lia|].
  unfold mbind at 1, emitting_bind at 1 in E. destruct (assign_id a w) as [[[id w2] ev2]|] eqn:E2; [|done].
  pose proof E2 as (_ & _ & Hn2 & _)%assign_id_same.
  destruct (id =? 0); [injection E as <- <- <-; lia|].
  unfold mbind at 1, emitting_bind at 1, lift at 1 in E. destruct (subscribe_count_ok _ _ _) as [ok|]; [|done].
  destruct (negb ok); [injection E as <- <- <-; lia|]. destruct (negb _); [injection E as <- <- <-; lia|].
  unfold mbind at 1, emitting_bind at 1, lift at 1 in E. destruct (subscribe_options _ _ _) as [[opts optlist]|]; [|done].
  destruct (queue_request _ _ _ _ _ _ _ _ _ w2) as [[[res3 w3] ev3]|] eqn:E3; [|done]. injection E as <- <- <-.
  by eapply queue_request_born.
Qed.
Lemma unsubscribe_born bw cur now signal a topics r (w : world) m res w1 ev :
  MQTTAsync_unsubscribeMany bw cur now signal (Some a) topics (Some r) w = Some (res, w1, ev) →
  structs w !! a = Some m → ledger_ok w → pending_known w → both_callbacks (MQTTVersion (link m)) r →
  (next_alloc w < next_alloc w1)%positive →
  request (next_alloc w) a (MQTTVersion (link m)) w1 ∧ weight (next_alloc w) w1 = 1%nat.
Proof.
  intros E Hm Hok Hp Hr Hn. unfold MQTTAsync_unsubscribeMany in E. unfold mbind at 1, emitting_bind at 1, get_client, lift at 1 in E.
  rewrite Hm in E. destruct (negb _); [injection E as <- <- <-; lia|]. destruct (negb _); [injection E as <- <- <-; lia|].
  unfold mbind at 1, emitting_bind at 1 in E. destruct (assign_id a w) as [[[id w2] ev2]|] eqn:E2; [|done].
  pose proof E2 as (_ & _ & Hn2 & _)%assign_id_same.
  destruct (id =? 0); [injection E as <- <- <-; lia|]. destruct (negb _); [injection E as <- <- <-; lia|].
  destruct (queue_request _ _ _ _ _ _ _ _ _ w2) as [[[res3 w3] ev3]|] eqn:E3; [|done]. injection E as <- <- <-.
  by eapply queue_request_born.
Qed.

(** Nothing of a client is left when it is destroyed. *)
Lemma request_gone x a version (w : world) : request x a version w → structs w !! a = None → weight x w = 0%nat.
Proof.
  intros (_ & Hl & Hs) Ha. unfold weight. assert (toks x (commands w) = 0%nat) as ->.
  { destruct (Nat.eq_0_gt_0_cases (toks x (commands w))) as [?|H]; [done|].
    apply toks_some in H as (q & Hq & Hx). destruct (Hl q Hq Hx) as [_ [m Hm]]. congruence. }
  apply waiting_zero. intros b m Hm. destruct (Nat.eq_0_gt_0_cases (toks x (responses m))) as [?|H]; [done|].
  apply toks_some in H as (q & Hq & Hx). destruct (Hs b m Hm) as (_ & _ & Hb). destruct (Hb q Hq Hx) as [-> _]. congruence.
Qed.

(** C3: A SUBSCRIBE or an UNSUBSCRIBE that is queued with both callbacks of the
    version of its client is never lost and never answered twice: over any run of
    the steps of the sending and receiving threads, of the calls of the application
    but the creation of a client, and of the ends of writes, in which the client does
    not connect with another version and no other command is ever given the address
    of this one, exactly one of the two holds, that the command still waits and that
    one of its callbacks has been called, once; after the client is destroyed, it
    has been.  (A client that is created restores its commands, which may remove the
    first one of the list; a write that ends is compared by address with a command
    that may have been freed: [written_at_the_place].) *)
Theorem requests_answered bw cur now signal a m r (w w1 w2 : world) res ev1 ev :
  ledger_ok w → pending_known w → structs w !! a = Some m → both_callbacks (MQTTVersion (link m)) r →
  (∃ topics, MQTTAsync_subscribeMany bw cur now signal (Some a) topics (Some r) w = Some (res, w1, ev1)) ∨
  (∃ topics, MQTTAsync_unsubscribeMany bw cur now signal (Some a) topics (Some r) w = Some (res, w1, ev1)) →
  (next_alloc w < next_alloc w1)%positive →
  version_kept a (MQTTVersion (link m)) → own_place (next_alloc w) place → run w1 ev w2 →
  (weight (next_alloc w) w2 + answers (next_alloc w) ev = 1)%nat ∧
  (structs w2 !! a = None → answers (next_alloc w) ev = 1%nat).
Proof.
  intros Hok Hp Hm Hr Hcall Hn Hv Hown Hrun.
  assert (request (next_alloc w) a (MQTTVersion (link m)) w1 ∧ weight (next_alloc w) w1 = 1%nat) as [Hreq H1].
  { destruct Hcall as [[t E]|[t E]]; [by eapply subscribe_born|by eapply unsubscribe_born]. }
  apply (run_moves (next_alloc w) a (MQTTVersion (link m))) in Hrun as (_ & Hle & H). destruct (H Hv Hown Hreq) as [Hreq2 Hge].
  assert (fresh (next_alloc w) w1 w2 = 0%nat) as Hf by (unfold fresh; rewrite decide_False by lia; done).
  assert (Heq : (weight (next_alloc w) w2 + answers (next_alloc w) ev = 1)%nat) by lia.
  split; [done|]. intros Hnone. apply request_gone in Hreq2; [lia|done].
Qed.
End Runs.

(** ** Witness: a subscription, from the request to its answer *)

Definition sample_link : world (S := mem_store) (T := socket_net) :=
  mkWorld {[ 1%positive := sample_async 0 None ]} [1%positive] [] sample_shared [] 10 (mkClocks 0 0 5).
Definition sample_response : responseOptions :=
  mkResponse 1 None None (Some 7) (Some 8) 0 0 MQTTProperties_initializer MQTTSubscribe_options_initializer 0 [].
Definition sample_suback : packet :=
  PSuback (mkSuback (mkHeader SUBACK 0 0 0) 1 5 (Some MQTTProperties_initializer) (Some [0])).

Lemma sample_link_ok : ledger_ok sample_link.
Proof. intros y. split; [apply Nat.le_0_1|]. reflexivity. Qed.

Lemma sample_run : ∃ ev w', run (λ _ _, True) (λ p, p) sample_link ev w' ∧ answers 10 ev = 1%nat ∧ weight 10 w' = 0%nat.
Proof.
  eexists _, _. split.
  - eapply run_cons; [apply (op_subscribe _ _ None (λ _, None) 1000 0 (Some 1%positive) [(Some (bs "hall/+"), 1)] (Some sample_response))
                     |vm_compute; reflexivity|].
    eapply run_cons; [apply (op_process _ _ None None (λ _, None) 1000 0 None (mkAnswers 0 0 0 0) 0 0)|vm_compute; reflexivity|].
    eapply run_cons; [apply (op_received _ _ None (λ _, None) (λ _ _, true) 1000 0 3 (Some sample_suback) 0)|vm_compute; reflexivity|].
    apply run_nil.
  - split; vm_compute; reflexivity.
Qed.

Lemma answered_at_most_once_witness :
  ledger_ok sample_link ∧
  ∃ ev w', run (λ _ _, True) (λ p, p) sample_link ev w' ∧ answers 10 ev = 1%nat ∧ ∀ y, (weight y w' + answers y ev ≤ 1)%nat.
Proof.
  split; [apply sample_link_ok|]. destruct sample_run as (ev & w' & Hr & Ha & _). exists ev, w'.
  split; [done|]. split; [done|]. intros y. exact (proj1 (proj2 (answered_at_most_once _ _ _ _ _ sample_link_ok Hr)) y).
Defined.

Lemma sample_link_pending : pending_known sample_link.
Proof.
  intros b m p. cbn. intros [-> <-]%lookup_singleton_Some. by cbn.
Qed.

(** The subscription is answered by its SUBACK, then the client is destroyed. *)
Definition sample_call := MQTTAsync_subscribeMany None (λ _, None) 1000 0 (Some 1%positive) [(Some (bs "hall/+"), 1)]
  (Some sample_response) sample_link.
Lemma sample_life : ∃ res w1 ev1 ev w2, sample_call = Some (res, w1, ev1) ∧ (10 < next_alloc w1)%positive ∧
  run (asks_version 1 5) (λ p, p) w1 ev w2 ∧ structs w2 !! 1%positive = None.
Proof.
  do 5 eexists. split; [vm_compute; reflexivity|]. split; [vm_compute; reflexivity|]. split.
  - eapply run_cons; [apply (op_process _ _ None None (λ _, None) 1000 0 None (mkAnswers 0 0 0 0) 0 0)|vm_compute; reflexivity|].
    eapply run_cons; [apply (op_received _ _ None (λ _, None) (λ _ _, true) 1000 0 3 (Some sample_suback) 0)|vm_compute; reflexivity|].
    eapply run_cons; [apply (op_destroy _ _ 1000 1)|vm_compute; reflexivity|]. apply run_nil.
  - vm_compute. reflexivity.
Qed.

Lemma requests_answered_witness :
  ∃ res w1 ev1 ev w2, sample_call = Some (res, w1, ev1) ∧ run (asks_version 1 5) (λ p, p) w1 ev w2 ∧
    structs w2 !! 1%positive = None ∧ answers 10 ev = 1%nat.
Proof.
  destruct sample_life as (res & w1 & ev1 & ev & w2 & Hc & Hn & Hr & Hd). exists res, w1, ev1, ev, w2.
  split; [done|]. split; [done|]. split; [done|].
  refine (proj2 (requests_answered (asks_version 1 5) (λ p, p) None (λ _, None) 1000 0 1 (sample_async 0 None) sample_response
    sample_link w1 w2 res ev1 ev sample_link_ok sample_link_pending eq_refl _ (or_introl (ex_intro _ _ Hc)) Hn _ _ Hr) Hd).
  - split; by eexists.
  - intros b o H. exact H.
  - intros p H. exact H.
Defined.

(** A PUBLISH whose write failed was freed, and a SUBSCRIBE was allocated at its place:
    the end of a write removes it, and neither of its callbacks is called. *)
Definition waits_at (p : positive) : MQTTAsyncs mem_store :=
  with_pending (with_responses (sample_async 0 None) [mkQueued 11 (mkCommand None None (Some 7) (Some 8) 3 0 0 MQTTProperties_initializer
    (DSubscribe [] [] [] [])) 1 0 false None]) (Some p).
Example written_at_the_place :
  complete_response (λ _, 1%positive) 10 1 (waits_at 10) = ([], with_responses (waits_at 10) []) ∧
  complete_response (λ p, p) 10 1 (waits_at 10) = ([], waits_at 10).
Proof. split; vm_compute; reflexivity. Qed.
End AsyncLedger.
