(* ===== verification/AsyncSpec.v ===== *)
(** * What the asynchronous client promises (paho.mqtt.c/src/MQTTAsync.c)

    Messages reach the application in their order; a DISCONNECT that has to wait
    is forgotten. *)
From S2P Require Import Prelude Libc PacketCodec Props Packets SocketIO Protocol ProtocolSpec Persistence Connect.
From S2P Require Import AsyncCommands AsyncQueue AsyncConnect SocketSelect AsyncProcess AsyncApi AsyncLedger.

Module AsyncSpec.
Import Libc Codecs Properties Packets SocketRead Protocol ProtocolSpec Persistence Connect AsyncCommands AsyncQueue AsyncConnect AsyncProcess AsyncApi.

Section Spec.
Context {S T : Type} `{!Store S, !Transport T, !Closing T}.
Abbreviation async := (MQTTAsyncs S).
Abbreviation world := (world (S := S) (T := T)).
Abbreviation act := (act (S := S) (T := T)).

(** ** What a function does to the structure of one client *)

Lemma update_at {A} a (f : async → option (A * async)) (w : world) m x m' :
  structs w !! a = Some m → f m = Some (x, m') →
  update a f w = Some (x, mkWorld (<[a := m']> (structs w)) (handles w) (commands w) (sh w) (rands w) (next_alloc w) (timers w), []).
Proof.
  intros Hm Hf. unfold update, get_client, put_client, lift, mbind, emitting_bind, mret, emitting_ret. rewrite Hm, Hf. done.
Qed.

Lemma get_client_at a (w : world) m : structs w !! a = Some m → get_client a w = Some (m, w, []).
Proof. intros Hm. unfold get_client, lift. by rewrite Hm. Qed.

Lemma bind_says {A B} (f : act A) (g : A → act B) w x w1 ev1 :
  f w = Some (x, w1, ev1) →
  (f ≫= g) w = match g x w1 with Some (b, w2, ev2) => Some (b, w2, ev1 ++ ev2) | None => None end.
Proof. intros E. unfold mbind, emitting_bind. by rewrite E. Qed.

(** A statement that says nothing. *)
Lemma bind_silent {A B} (f : act A) (g : A → act B) w x w1 :
  f w = Some (x, w1, []) → (f ≫= g) w = g x w1.
Proof. intros E. rewrite (bind_says _ _ _ _ _ _ E). by destruct (g x w1) as [[[b w2] ev2]|]. Qed.

(** ** The messages for the application *)

Definition message : Type := list Z * MQTTPersistence_message.
Definition entry_message (qe : MQTTPersistence_qEntry) : message := (topicName qe, q_msg qe).

(** The messages that wait in the queue of a client. *)
Definition inbox (a : positive) (w : world) : list message :=
  match structs w !! a with Some m => entry_message <$> (messageQueue m).1 | None => [] end.

(** The messages offered that the application took. *)
Definition accepted (taken : list Z → MQTTPersistence_message → bool) (ev : list AsyncProcess.aevent) : list message :=
  omap (λ e, match e with
             | AMessage _ _ n _ x => if taken n x then Some (n, x) else None
             | _ => None end) ev.
Definition offered (ev : list AsyncProcess.aevent) : list message :=
  omap (λ e, match e with AMessage _ _ n _ x => Some (n, x) | _ => None end) ev.

(** Arrivals and deliveries, in any order, with the messages that arrived and
    those that were taken. *)
Inductive traffic (a : positive) : world → list message → list message → world → Prop :=
  | traffic_nil w : traffic a w [] [] w
  | traffic_arrival bw taken p x w w1 w2 ev ins outs :
      Protocol_processPublication bw taken a p w = Some ((), w1, ev) → message_of p = Some x →
      traffic a w1 ins outs w2 → traffic a w ((pb_topic p, x) :: ins) (accepted taken ev ++ outs) w2
  | traffic_delivery taken w w1 w2 ev ins outs :
      deliver_queued taken a w = Some ((), w1, ev) →
      traffic a w1 ins outs w2 → traffic a w ins (accepted taken ev ++ outs) w2.

Lemma inbox_at a (w : world) m : structs w !! a = Some m → inbox a w = entry_message <$> (messageQueue m).1.
Proof. unfold inbox. by intros ->. Qed.

Lemma persist_entry_same bw (m : async) qe qe' n m' : persist_entry bw m qe = Some (qe', n, m') →
  entry_message qe' = entry_message qe ∧ messageQueue m' = messageQueue m.
Proof.
  unfold persist_entry. destruct (phandle (buffering m)) as [s|]; [|by intros [= <- <- <-]].
  destruct (MQTTPersistence_persistQueueEntry _ _ _ _ _ _) as [[[[rc n'] qe1] s']|] eqn:E; [|done].
  cbn [mbind option_bind]. intros [= <- <- <-]. split; [|done].
  unfold MQTTPersistence_persistQueueEntry in E. destruct (entry_bufs qe); [|done]. cbn [mbind option_bind] in E.
  destruct ((MQTTVERSION_5 <=? _) && _); [by injection E as <- <- <- <-|].
  destruct (if MQTTVERSION_5 <=? _ then _ else _) as [[? ?]|]; [|done]. cbn [mbind option_bind] in E.
  destruct (queue_key _ _); [|done]. cbn [mbind option_bind] in E.
  destruct (match bw with Some f => _ | None => _ end) as [? ?]. destruct (if _ =? 0 then _ else _) as [? ?].
  by injection E as <- <- <- <-.
Qed.

Lemma unpersist_entry_same (m : async) qe m' : unpersist_entry m qe = Some m' → messageQueue m' = messageQueue m.
Proof.
  unfold unpersist_entry. destruct (phandle (buffering m)); [|by intros [= <-]].
  destruct (MQTTPersistence_unpersistQueueEntry _ _ _) as [[]|]; [|done]. cbn [mbind option_bind]. by intros [= <-].
Qed.

(** The offer of a message. *)
Lemma offer_at taken a f qe n (w : world) :
  MQTTAsync_deliverMessage taken a f qe n w =
  Some (taken (topicName qe) (q_msg qe), w, [AMessage f.1 f.2 (topicName qe) n (q_msg qe)]).
Proof. done. Qed.

(** A message put at the end of the queue. *)
Lemma queued_at bw a qe (w : world) m w1 ev : structs w !! a = Some m →
  update a (λ m, '(qe, n, m) ← persist_entry bw m qe; Some ((), with_queue m ((messageQueue m).1 ++ [qe], n))) w = Some ((), w1, ev) →
  ev = [] ∧ inbox a w1 = inbox a w ++ [entry_message qe].
Proof.
  intros Hm H. destruct (persist_entry bw m qe) as [[[qe' n] m']|] eqn:E.
  - rewrite (update_at _ _ _ m () (with_queue m' ((messageQueue m').1 ++ [qe'], n)) Hm) in H by (by rewrite E).
    injection H as <- <-. split; [done|]. apply persist_entry_same in E as [Hq Hm'].
    unfold inbox. cbn. rewrite lookup_insert_eq, Hm. cbn. by rewrite Hm', fmap_app, <-Hq.
  - exfalso. unfold update, get_client, lift, mbind, emitting_bind in H. by rewrite Hm, E in H.
Qed.

Lemma arrival_order bw taken a p x (w : world) w1 ev :
  Protocol_processPublication bw taken a p w = Some ((), w1, ev) → message_of p = Some x →
  inbox a w ++ [(pb_topic p, x)] = accepted taken ev ++ inbox a w1.
Proof.
  intros H Hx. unfold Protocol_processPublication in H.
  rewrite (bind_silent _ _ w x w) in H by (unfold lift; by rewrite Hx).
  destruct (structs w !! a) as [m|] eqn:Hm; [|unfold get_client, lift, mbind, emitting_bind in H; by rewrite Hm in H].
  rewrite (bind_silent _ _ w m w) in H by (by apply get_client_at).
  set (qe := mkQEntry x (pb_topic p) (pb_topiclen p) 0) in H.
  assert (Hgo : ∀ ev0, accepted taken ev0 = [] →
    match update a (λ m0, '(qe, n, m) ← persist_entry bw m0 qe;
       Some ((), with_queue m ((messageQueue m).1 ++ [qe], n))) w with
    | Some (b, w2, ev2) => Some (b, w2, ev0 ++ ev2) | None => None end = Some ((), w1, ev) →
    inbox a w ++ [(pb_topic p, x)] = accepted taken ev ++ inbox a w1).
  { intros ev0 H0 E. destruct (update _ _ w) as [[[[] w2] ev2]|] eqn:E2; [|done]. injection E as <- <-.
    apply (queued_at _ _ _ _ m) in E2 as [-> Hi]; [|done]. rewrite app_nil_r, H0, Hi. done. }
  destruct (messageQueue m).1 as [|e l] eqn:Hq; [|apply (Hgo []); [done|]; by rewrite (bind_says _ _ w false w []) in H].
  destruct (ma (calls m)) as [f|] eqn:Hf; [|apply (Hgo []); [done|]; by rewrite (bind_says _ _ w false w []) in H].
  destruct (connected (ac m)); [|apply (Hgo []); [done|]; by rewrite (bind_says _ _ w false w []) in H].
  rewrite (bind_says _ _ _ _ _ _ (offer_at taken a f qe (pb_topiclen p) w)) in H.
  destruct (taken (topicName qe) (q_msg qe)) eqn:Ht.
  - injection H as <- <-. rewrite (inbox_at _ _ m Hm), Hq. cbn in *. by rewrite Ht.
  - apply (Hgo _) in H; [done|]. cbn in *. by rewrite Ht.
Qed.

Lemma delivery_order taken a (w : world) w1 ev : deliver_queued taken a w = Some ((), w1, ev) →
  inbox a w = accepted taken ev ++ inbox a w1.
Proof.
  intros H. unfold deliver_queued in H.
  destruct (structs w !! a) as [m|] eqn:Hm; [|unfold get_client, lift, mbind, emitting_bind in H; by rewrite Hm in H].
  rewrite (bind_silent _ _ w m w) in H by (by apply get_client_at).
  destruct (messageQueue m).1 as [|qe rest] eqn:Hq; [by injection H as <- <-|].
  destruct (ma (calls m)) as [f|] eqn:Hf; [|by injection H as <- <-].
  match type of H with context [MQTTAsync_deliverMessage _ _ _ _ ?n] => rewrite (bind_says _ _ _ _ _ _ (offer_at taken a f qe n w)) in H end.
  destruct (taken (topicName qe) (q_msg qe)) eqn:Ht.
  - destruct (unpersist_entry m qe) as [m'|] eqn:E.
    + erewrite (update_at _ _ _ m () _ Hm) in H by (rewrite E; reflexivity). injection H as <- <-.
      apply unpersist_entry_same in E. unfold inbox. cbn. rewrite lookup_insert_eq, Hm, Hq, Ht. done.
    + exfalso. unfold update, get_client, lift, mbind, emitting_bind in H. by rewrite Hm, E in H.
  - injection H as <- <-. cbn. by rewrite Ht.
Qed.

(** C7: The messages of a client reach the application in the order in which they
    arrive, each of them once: whatever the interleaving of the messages that
    come in and of the deliveries, what was taken is, in order, what waited
    followed by what arrived, less what still waits. *)
Theorem messages_in_order a (w : world) ins outs w' :
  traffic a w ins outs w' → inbox a w ++ ins = outs ++ inbox a w'.
Proof.
  induction 1 as [w|bw taken p x w w1 w2 ev ins outs E Hx _ IH|taken w w1 w2 ev ins outs E _ IH].
  - by rewrite app_nil_r.
  - apply (arrival_order _ _ _ _ _ _ _ _ E) in Hx. rewrite <-app_assoc, <-IH, app_assoc, <-Hx, <-app_assoc. done.
  - apply delivery_order in E. by rewrite E, <-!app_assoc, IH.
Qed.

(** ** A DISCONNECT that has to wait *)

(** The world with another structure for a client. *)
Definition at_client (a : positive) (m : async) (w : world) : world :=
  mkWorld (<[a := m]> (structs w)) (handles w) (commands w) (sh w) (rands w) (next_alloc w) (timers w).

Lemma checkDisconnect_waits now a c freed internal timeout reason (w : world) m :
  structs w !! a = Some m → details c = DDisconnect internal timeout reason →
  outboundMsgs (ac m) ≠ [] → elapsed now (start_time c) < u64 timeout →
  MQTTAsync_checkDisconnect now a c freed w = Some ((), w, []).
Proof.
  intros Hm Hd Ho He. unfold MQTTAsync_checkDisconnect. rewrite Hd.
  rewrite (bind_silent _ _ w (internal, timeout, reason) w) by done.
  rewrite (bind_silent _ _ w m w) by (by apply get_client_at).
  rewrite (proj2 (Z.leb_gt _ _) He), orb_false_r. by destruct (outboundMsgs (ac m)).
Qed.

Lemma disconnect_waits bw cur now signal env conn sock un q internal timeout reason (w : world) m :
  structs w !! client q = Some m → details (command q) = DDisconnect internal timeout reason →
  connect_state (link m) = NOT_IN_PROGRESS → outboundMsgs (ac m) ≠ [] →
  elapsed now (start_time (command q)) < u64 timeout →
  process_taken bw cur now signal env conn sock un q w = Some ((), at_client (client q) (with_disconnect m (command q)) w, []).
Proof.
  intros Hm Hd Hs Ho He. unfold process_taken. rewrite Hd. cbv iota.
  assert (Hp : process_disconnect now q w = Some ((), w, [])).
  { unfold process_disconnect. rewrite (bind_silent _ _ w m w) by (by apply get_client_at).
    rewrite Hs. cbn [negb orb]. destruct (_ || connected (ac m)); [|done].
    rewrite (bind_silent _ _ w () w) by done. by eapply checkDisconnect_waits. }
  rewrite (bind_silent _ _ w (0, q) w) by (rewrite (bind_silent _ _ w () w) by done; done).
  unfold command_done. assert (Ht : type (command q) = DISCONNECT) by (unfold type; by rewrite Hd).
  rewrite Ht. cbn. unfold on_struct. by apply (update_at _ _ _ m).
Qed.

Lemma check_client_idle bw cur now signal a (w : world) m :
  structs w !! a = Some m → connect_state (link m) = NOT_IN_PROGRESS → is_Some (to_int (connectTimeout m * 1000)) →
  automaticReconnect (retry m) && retrying (retry m) = false →
  check_client bw cur now signal a w = Some ((), w, []).
Proof.
  intros Hm Hs [t Ht] Hr. unfold check_client. rewrite (bind_silent _ _ w m w) by (by apply get_client_at).
  rewrite Hs. rewrite (bind_silent _ _ w () w) by done. rewrite (bind_silent _ _ w m w) by (by apply get_client_at).
  rewrite (bind_silent _ _ w t w) by (by rewrite Ht). rewrite Hs, Z.eqb_refl. cbn [negb andb].
  unfold check_reconnect. rewrite (bind_silent _ _ w m w) by (by apply get_client_at). by rewrite Hr.
Qed.

(** C32: A DISCONNECT of a client that is connected and whose messages in flight make
    it wait is forgotten: processing it calls nobody and leaves the client as it
    was but for the copy of the command, which is no longer queued; and however
    late the timeouts are checked, they leave the client connected and call
    nobody, because only a client in the state DISCONNECTING is looked at again
    and that state is only given to a client whose connection is in progress. *)
Theorem disconnect_forgotten bw cur now signal env conn sock un q internal timeout reason (w : world) m :
  structs w !! client q = Some m → details (command q) = DDisconnect internal timeout reason →
  connected (ac m) = true → connect_state (link m) = NOT_IN_PROGRESS →
  outboundMsgs (ac m) ≠ [] → elapsed now (start_time (command q)) < u64 timeout →
  is_Some (to_int (connectTimeout m * 1000)) → automaticReconnect (retry m) && retrying (retry m) = false →
  let w' := at_client (client q) (with_disconnect m (command q)) w in
  process_taken bw cur now signal env conn sock un q w = Some ((), w', []) ∧
  commands w' = commands w ∧
  ∀ bw' cur' later signal', check_client bw' cur' later signal' (client q) w' = Some ((), w', []).
Proof.
  intros Hm Hd Hc Hs Ho He Ht Hr w'. split; [by eapply disconnect_waits|]. split; [done|]. intros bw' cur' later signal'.
  apply (check_client_idle _ _ _ _ _ _ (with_disconnect m (command q))); [apply lookup_insert_eq|done..].
Qed.

End Spec.

(** ** Witnesses *)

Definition sample_world (m : MQTTAsyncs mem_store) : AsyncProcess.world (S := mem_store) (T := socket_net) :=
  mkWorld {[ 1%positive := m ]} [1%positive] [] sample_shared [] 10 (mkClocks 0 0 5).
Definition listening : MQTTAsyncs mem_store :=
  let m := sample_async 0 (Some ∅) in
  with_calls m (mkCallbacks None (Some (5, 0)) None None None None).
(** The second message is refused once. *)
Definition refuses_two (n : list Z) (x : MQTTPersistence_message) : bool := negb (bool_decide (payload x = [2])).
Definition numbered (k : Z) : Publish := mkPublish (mkHeader PUBLISH 1 0 0) (bs "hall/1") 6 k [k] 1 5 MQTTProperties_initializer.

Lemma messages_in_order_witness :
  ∃ ins outs w', traffic 1 (sample_world listening) ins outs w' ∧
    (payload ∘ snd) <$> ins = [[1]; [2]; [3]] ∧ (payload ∘ snd) <$> outs = [[1]; [2]] ∧
    inbox 1 (sample_world listening) ++ ins = outs ++ inbox 1 w'.
Proof.
  assert (Ht : ∃ ins outs w', traffic 1 (sample_world listening) ins outs w' ∧
    (payload ∘ snd) <$> ins = [[1]; [2]; [3]] ∧ (payload ∘ snd) <$> outs = [[1]; [2]]).
  { eexists _, _, _. split.
    - eapply (traffic_arrival 1 None refuses_two (numbered 1)); [vm_compute; reflexivity..|].
      eapply (traffic_arrival 1 None refuses_two (numbered 2)); [vm_compute; reflexivity..|].
      eapply (traffic_arrival 1 None refuses_two (numbered 3)); [vm_compute; reflexivity..|].
      eapply (traffic_delivery 1 refuses_two); [vm_compute; reflexivity|].
      eapply (traffic_delivery 1 (λ _ _, true)); [vm_compute; reflexivity|]. apply traffic_nil.
    - split; vm_compute; reflexivity. }
  destruct Ht as (ins & outs & w' & Ht & Hi & Ho). exists ins, outs, w'.
  split; [exact Ht|]. split; [exact Hi|]. split; [exact Ho|]. exact (messages_in_order 1 _ _ _ _ Ht).
Defined.

(** A client with a message in flight, asked to disconnect within ten seconds. *)
Definition busy : MQTTAsyncs mem_store :=
  let m := sample_async 0 None in with_ac m (with_outbound (ac m) [id_message 4]).
Definition asked : MQTTAsync_queuedCommand :=
  mkQueued 9 (with_start (blank_command 0 (DDisconnect false 10000 0)) 1000) 1 0 false None.

Lemma disconnect_forgotten_witness :
  structs (sample_world busy) !! client asked = Some busy ∧
  process_taken None (λ _, None) 1001 0 None (mkAnswers 0 0 0 0) 0 0 asked (sample_world busy) =
    Some ((), at_client 1 (with_disconnect busy (command asked)) (sample_world busy), []).
Proof.
  split; [vm_compute; reflexivity|].
  refine (proj1 (disconnect_forgotten None (λ _, None) 1001 0 None (mkAnswers 0 0 0 0) 0 0 asked false 10000 0
    (sample_world busy) busy _ _ _ _ _ _ _ _)).
  - vm_compute; reflexivity.
  - vm_compute; reflexivity.
  - vm_compute; reflexivity.
  - vm_compute; reflexivity.
  - discriminate.
  - vm_compute; reflexivity.
  - eexists. vm_compute; reflexivity.
  - vm_compute; reflexivity.
Defined.
End AsyncSpec.
