(* ===== verification/SyncClient.v ===== *)
(** * The synchronous client: sockets, waiting, the callback thread (paho.mqtt.c/src/MQTTClient.c)

    One cycle over the sockets, what it does with each packet, closing and
    cleaning a session, the thread that calls the callbacks, and the functions
    that wait.  A function is a statement on the state of the process.  A thread
    that waits lets the callback thread run, when there is one, turn by turn; the
    turns - what each wait on the sockets finds, and when - are part of the state. *)
From S2P Require Import Prelude Libc PacketCodec Props Packets SocketIO Protocol ProtocolSpec Persistence Connect.
From S2P Require Import AsyncCommands AsyncQueue AsyncConnect SocketSelect AsyncProcess.

Module SyncClient.
Import Codecs Properties Packets SocketRead Protocol Persistence Connect.
Import AsyncQueue(link_state, mkLink, connect_state, MQTTVersion, cleansession, cleanstart, maxInflightMessages, sessionExpiry).
Import AsyncConnect(to_int).
Import AsyncProcess(Closing, close_socket, set_line, message_of, check_pending).

Definition MQTTCLIENT_SUCCESS := 0.
Definition MQTTCLIENT_FAILURE := -1.
Definition MQTTCLIENT_DISCONNECTED := -3.
Definition EAGAIN := 11.

(** ** Data *)

(** The callbacks; the first three share their context. *)
Record callbacks := mkCallbacks {
  context : Z;
  cl : option Z; ma : option Z; dc : option Z;
  disconnected : option (Z * Z);
  published : option (Z * Z)
}.

(** What the callback thread gives to a thread that waits: the semaphores,
    whether each is posted, the result of the connection and the packet. *)
Record handoff := mkHandoff {
  connect_sem : bool; connack_sem : bool; suback_sem : bool; unsuback_sem : bool;
  h_rc : Z;
  pack : option packet
}.

Section Data.
Context {S : Type}.

Record MQTTClients := mkSync {
  sc : Clients;
  link : link_state;
  store : option S;
  messageQueue : queue_state;
  calls : callbacks;
  hand : handoff;
  serverURI : list Z;
  websocket : bool
}.

Definition with_sc (m : MQTTClients) (v : Clients) := mkSync v (link m) (store m) (messageQueue m) (calls m) (hand m) (serverURI m) (websocket m).
Definition with_link (m : MQTTClients) (v : link_state) := mkSync (sc m) v (store m) (messageQueue m) (calls m) (hand m) (serverURI m) (websocket m).
Definition with_store (m : MQTTClients) (v : option S) := mkSync (sc m) (link m) v (messageQueue m) (calls m) (hand m) (serverURI m) (websocket m).
Definition with_queue (m : MQTTClients) (v : queue_state) := mkSync (sc m) (link m) (store m) v (calls m) (hand m) (serverURI m) (websocket m).
Definition with_calls (m : MQTTClients) (v : callbacks) := mkSync (sc m) (link m) (store m) (messageQueue m) v (hand m) (serverURI m) (websocket m).
Definition with_hand (m : MQTTClients) (v : handoff) := mkSync (sc m) (link m) (store m) (messageQueue m) (calls m) v (serverURI m) (websocket m).
Definition with_websocket (m : MQTTClients) (v : bool) := mkSync (sc m) (link m) (store m) (messageQueue m) (calls m) (hand m) (serverURI m) v.

Definition set_state (m : MQTTClients) (state : Z) : MQTTClients :=
  let l := link m in
  with_link m (mkLink state (MQTTVersion l) (cleansession l) (cleanstart l) (maxInflightMessages l) (sessionExpiry l)).
Definition set_pack (m : MQTTClients) (p : option packet) : MQTTClients :=
  let h := hand m in
  with_hand m (mkHandoff (connect_sem h) (connack_sem h) (suback_sem h) (unsuback_sem h) (h_rc h) p).
Definition set_rc (m : MQTTClients) (rc : Z) : MQTTClients :=
  let h := hand m in
  with_hand m (mkHandoff (connect_sem h) (connack_sem h) (suback_sem h) (unsuback_sem h) rc (pack h)).

(** The semaphore of what is waited for; there is none for another type. *)
Definition sem_of (packet_type : Z) (h : handoff) : bool :=
  if packet_type =? CONNECT then connect_sem h else if packet_type =? CONNACK then connack_sem h
  else if packet_type =? SUBACK then suback_sem h else unsuback_sem h.
Definition set_sem (packet_type : Z) (b : bool) (m : MQTTClients) : MQTTClients :=
  let h := hand m in
  with_hand m
    (if packet_type =? CONNECT then mkHandoff b (connack_sem h) (suback_sem h) (unsuback_sem h) (h_rc h) (pack h)
     else if packet_type =? CONNACK then mkHandoff (connect_sem h) b (suback_sem h) (unsuback_sem h) (h_rc h) (pack h)
     else if packet_type =? SUBACK then mkHandoff (connect_sem h) (connack_sem h) b (unsuback_sem h) (h_rc h) (pack h)
     else mkHandoff (connect_sem h) (connack_sem h) (suback_sem h) b (h_rc h) (pack h)).
End Data.
Arguments MQTTClients : clear implicits.

(** The callbacks that are called, and the calls of modules that are modelled
    apart. *)
Inductive sevent :=
  | SLost (f ctx : Z)
  | SArrived (f ctx : Z) (topicName : list Z) (topicLen : Z) (msg : MQTTPersistence_message)
  | SComplete (f ctx msgid : Z)
  | SPublished (f ctx msgid type : Z) (props : option MQTTProperties) (rc : Z)
  | SDisconnected (f ctx reason : Z)
  | SNet (c : net_call)
  | SWebSocket_close (sock : Z)
  | SProto (e : event).

Section Process.
Context {S T : Type} `{!Store S, !Transport T, !Closing T}.
Context (beforeWrite : option (list (list Z) → Z * list (list Z))).
Context (persistence_remove : bool → Z → Z → Z).
(** What the application answers to a message. *)
Context (taken : list Z → MQTTPersistence_message → bool).
Abbreviation client := (MQTTClients S).

(** One wait on the sockets: the time at its end, what the socket layer did
    meanwhile, the sockets whose pending write ended, the socket that is ready
    (0 or -1 when there is none), and what the packet factory, the upgrade of a
    web socket and [getsockopt] answer for it. *)
Record turn := mkTurn {
  t_now : Z;
  t_net : T → T;
  t_written : list Z;
  t_sock : Z;
  t_received : option packet * Z;
  t_upgrade : Z;
  t_error : Z
}.

Record world := mkWorld {
  structs : gmap positive client;
  handles : list positive;
  sh : shared (T := T);
  running : bool;
  tostop : bool;
  last_retry : Z;
  retryLoopInterval : Z;
  clock : Z;
  turns : list turn
}.

Definition io : Type → Type := emitting world sevent.
Definition the_world : io world := λ w, Some (w, w, []).
Definition get_client (a : positive) : io client := λ w, lift (structs w !! a) w.
Definition put_client (a : positive) (m : client) : io () := λ w,
  Some ((), mkWorld (<[a := m]> (structs w)) (handles w) (sh w) (running w) (tostop w) (last_retry w) (retryLoopInterval w) (clock w) (turns w), []).
Definition put_shared (s : shared (T := T)) : io () := λ w,
  Some ((), mkWorld (structs w) (handles w) s (running w) (tostop w) (last_retry w) (retryLoopInterval w) (clock w) (turns w), []).
Definition put_clients (ss : gmap positive client) (l : list positive) : io () := λ w,
  Some ((), mkWorld ss l (sh w) (running w) (tostop w) (last_retry w) (retryLoopInterval w) (clock w) (turns w), []).
Definition put_thread (run stop : bool) : io () := λ w,
  Some ((), mkWorld (structs w) (handles w) (sh w) run stop (last_retry w) (retryLoopInterval w) (clock w) (turns w), []).
Definition put_retry (last interval : Z) : io () := λ w,
  Some ((), mkWorld (structs w) (handles w) (sh w) (running w) (tostop w) last interval (clock w) (turns w), []).
Definition put_clock (t : Z) : io () := λ w,
  Some ((), mkWorld (structs w) (handles w) (sh w) (running w) (tostop w) (last_retry w) (retryLoopInterval w) t (turns w), []).

(** The next turn; the clock is its time. *)
Definition next_turn : io turn := λ w,
  match turns w with
  | [] => None
  | t :: ts =>
      let s := sh w in
      Some (t, mkWorld (structs w) (handles w)
                 (mkShared (publications s) (pending_writes s) (msgs_sent s) (msgs_received s) (t_net t (net s)))
                 (running w) (tostop w) (last_retry w) (retryLoopInterval w) (t_now t) ts, [])
  end.

Definition update {A} (a : positive) (f : client → option (A * client)) : io A :=
  m ← get_client a; '(x, m) ← lift (f m); put_client a m;; mret x.
Definition on_struct (a : positive) (f : client → client) : io () := update a (λ m, Some ((), f m)).
Definition find_socket (sock : Z) : io (option positive) :=
  w ← the_world;
  mret (List.find (λ a, match structs w !! a with Some m => socket (sc m) =? sock | None => false end) (handles w)).
Definition MQTTTime_elapsed (start : Z) : io Z := w ← the_world; mret (u64 (clock w - start)).

(** A loop of which each turn but the last waits on the sockets once. *)
Definition while_turns {A B} (body : A → io (A + B)) (x : A) : io B :=
  w ← the_world; iterate (Datatypes.S (length (turns w))) body x.

(** ** The queue of messages *)

Definition persist_entry (m : client) (qe : MQTTPersistence_qEntry) : option (MQTTPersistence_qEntry * Z * client) :=
  let n := (messageQueue m).2 in
  match store m with
  | None => Some (qe, n, m)
  | Some s =>
      '(_, n, qe, s) ← MQTTPersistence_persistQueueEntry beforeWrite (MQTTVersion (link m)) true qe n s;
      Some (qe, n, with_store m (Some s))
  end.
Definition unpersist_entry (m : client) (qe : MQTTPersistence_qEntry) : option client :=
  match store m with
  | None => Some m
  | Some s =>
      '(_, s) ← MQTTPersistence_unpersistQueueEntry (MQTTVersion (link m)) qe s;
      Some (with_store m (Some s))
  end.

Definition Protocol_processPublication (a : positive) (p : Publish) : io () :=
  msg ← lift (message_of p);
  update a (λ m,
    '(qe, n, m) ← persist_entry m (mkQEntry msg (pb_topic p) (pb_topiclen p) 0);
    Some ((), with_queue m ((messageQueue m).1 ++ [qe], n))).

(** The deliveries of the protocol are queued; [dup], [version] and [props] are
    those of the packet.  A message without topic is a NULL pointer. *)
Fixpoint deliver (a : positive) (dup version : Z) (props : MQTTProperties) (ev : list event) : io () :=
  match ev with
  | [] => mret ()
  | EDeliver id content q r :: ev' =>
      '(topic, payload) ← lift content;
      Protocol_processPublication a (mkPublish (mkHeader PUBLISH dup q r) topic (len topic) id payload (len payload) version props);;
      deliver a dup version props ev'
  | _ :: ev' => deliver a dup version props ev'
  end.

(** A function of the protocol on a client of the process. *)
Definition on_protocol {A} (a : positive) (dup version : Z) (props : MQTTProperties) (h : Protocol.proto (T := T) A) : io A :=
  m ← get_client a;
  w ← the_world;
  '(x, (c, s), ev) ← lift (h (sc m, sh w));
  put_client a (with_sc m c);; put_shared s;; emits (SProto <$> ev);;
  deliver a dup version props ev;;
  mret x.
Definition quietly {A} (a : positive) (h : Protocol.proto (T := T) A) : io A :=
  on_protocol a 0 0 MQTTProperties_initializer h.

(** ** Closing a session *)

Definition MQTTClient_cleanSession (a : positive) : io Z :=
  rc ← update a (λ m,
    match store m with
    | None => Some (0, m)
    | Some s => let '(rc, s) := MQTTPersistence_clear true s in Some (rc, with_store m (Some s))
    end);
  m ← get_client a;
  w ← the_world;
  let s := sh w in
  pubs ← lift (pubs ← MQTTProtocol_emptyMessageList (inboundMsgs (sc m)) (publications s);
               MQTTProtocol_emptyMessageList (outboundMsgs (sc m)) pubs);
  put_shared (mkShared pubs (pending_writes s) (msgs_sent s) (msgs_received s) (net s));;
  on_struct a (λ m, with_queue (with_sc m (with_msgID (with_inbound (with_outbound (sc m) []) []) 0)) ([], (messageQueue m).2));;
  mret rc.

Definition MQTTClient_closeSession (a : positive) (reason : Z) (props : option MQTTProperties) : io () :=
  w ← the_world;
  m ← get_client a;
  let c := sc m in
  on_struct a (λ m, with_sc m (set_line (sc m) (socket (sc m)) (connected (sc m)) false false));;
  (if 0 <? socket c then
     (if connected c then
        quietly a (Protocol.send (clock w) (OPacket (MQTTPacket_send_disconnect (MQTTVersion (link m)) reason props)));; mret ()
      else mret ());;
     emits [SWebSocket_close (socket c)];;
     w ← the_world;
     let s := sh w in
     put_shared (mkShared (publications s) (pending_writes s) (msgs_sent s) (msgs_received s) (close_socket (net s) (socket c)))
   else mret ());;
  on_struct a (λ m, set_state (with_sc m (set_line (sc m) (if 0 <? socket c then 0 else socket c) false false false)) NOT_IN_PROGRESS);;
  if (MQTTVersion (link m) <? MQTTVERSION_5) && cleansession (link m) then MQTTClient_cleanSession a;; mret () else mret ().

(** ** The end of the callback thread *)

(** The clients that are connected or connecting; a negative state is none. *)
Definition conn_count (w : world) : Z :=
  len (filter (λ a, match structs w !! a with
                    | Some m => (NOT_IN_PROGRESS <? connect_state (link m)) || connected (sc m)
                    | None => false
                    end = true) (handles w)).

(** [MQTTClient_stop] up to the wait for the end of the thread. *)
Definition ask_stop : io bool :=
  w ← the_world;
  if running w && negb (tostop w) && (conn_count w =? 0) then put_thread (running w) true;; mret true else mret false.

(** [MQTTClient_disconnect1] after the wait for the messages in flight. *)
Definition disconnect_now (a : positive) (call_connection_lost : bool) (stop : io ()) (reason : Z)
    (props : option MQTTProperties) (was_connected : bool) : io () :=
  MQTTClient_closeSession a reason props;;
  stop;;
  m ← get_client a;
  emits (match cl (calls m) with
         | Some f => if call_connection_lost && was_connected then [SLost f (context (calls m))] else []
         | None => []
         end).
Definition set_disconnecting (a : positive) : io () :=
  on_struct a (λ m, if connected (sc m) then set_state m DISCONNECTING else m).

(** [MQTTClient_disconnect_internal] with the timeout 0, for which nothing is
    waited for; [stop] is [MQTTClient_stop] in the thread that calls it.  In a
    cycle the thread that has to stop is the one that runs, if there is one. *)
Definition disconnect_at_once (stop : io ()) (a : positive) : io () :=
  m ← get_client a;
  set_disconnecting a;;
  disconnect_now a true stop MQTTREASONCODE_SUCCESS None (connected (sc m)).
Definition stop_in_cycle : io () := ask_stop;; mret ().
Definition disconnect_in_cycle : positive → io () := disconnect_at_once stop_in_cycle.
Definition MQTTProtocol_closeSession (stop : io ()) (a : positive) : io () := disconnect_at_once stop a.

(** ** Retries *)

Definition close_asked (ev : list event) : list Z := omap (λ e, match e with EClose sock => Some sock | _ => None end) ev.

Definition keepalive_handle (stop : io ()) (a : positive) : io () :=
  m ← get_client a;
  w ← the_world;
  let s := sh w in
  let '(c, t, ev) := keepalive_client (clock w) (sc m) (net s) in
  on_struct a (λ m, with_sc m c);;
  put_shared (mkShared (publications s) (pending_writes s) (msgs_sent s) (msgs_received s) t);;
  emits (SProto <$> ev);;
  each (λ _, MQTTProtocol_closeSession stop a) (close_asked ev).

Definition retry_handle (stop : io ()) (doRetry regardless : bool) (a : positive) : io () :=
  m ← get_client a;
  w ← the_world;
  let s := sh w in
  '(cs, t, ev) ← lift (MQTTProtocol_retry (clock w) doRetry regardless (publications s) [sc m] (net s));
  on_struct a (λ m, with_sc m (default (sc m) (head cs)));;
  put_shared (mkShared (publications s) (pending_writes s) (msgs_sent s) (msgs_received s) t);;
  emits (SProto <$> ev);;
  each (λ _, MQTTProtocol_closeSession stop a) (close_asked ev).

Definition MQTTClient_retry : io () :=
  w ← the_world;
  let doRetry := retryLoopInterval w * 1000 <? clock w - last_retry w in
  (if doRetry then put_retry (clock w) (retryLoopInterval w);; each (keepalive_handle stop_in_cycle) (handles w) else mret ());;
  each (retry_handle stop_in_cycle doRetry false) (handles w).

(** ** One cycle *)

Definition MQTTProtocol_checkPendingWrites : io () :=
  w ← the_world;
  let s := sh w in
  '(pending, pubs) ← lift (check_pending (net s) (pending_writes s) (publications s));
  put_shared (mkShared pubs pending (msgs_sent s) (msgs_received s) (net s)).

Definition MQTTClient_writeComplete (sock : Z) : io () :=
  MQTTProtocol_checkPendingWrites;;
  o ← find_socket sock;
  w ← the_world;
  match o with
  | None => mret ()
  | Some a => on_struct a (λ m, with_sc m (with_lastSent (sc m) (clock w)))
  end.

(** The callbacks of an acknowledgement. *)
Definition call_published (m : client) (k : Ack) (id : Z) (ok : bool) : list sevent :=
  match published (calls m) with
  | Some (f, ctx) =>
      if (MQTTVERSION_5 <=? MQTTVersion (link m)) && ok
      then [SPublished f ctx id (h_type (ack_header k)) (ack_properties k) (default 0 (ack_rc k))] else []
  | None => []
  end.
Definition call_complete (m : client) (id : Z) : list sevent :=
  match dc (calls m) with Some f => [SComplete f (context (calls m)) id] | None => [] end.

(** A packet that is handled here is freed: NULL is what remains of it. *)
Definition handle_packet (a : positive) (p : packet) (rc : Z) : io (option packet * Z) :=
  w ← the_world;
  m ← get_client a;
  let handled h := rc ← h; mret (None, rc) in
  match p with
  | PPublish p => handled (on_protocol a (h_dup (pb_header p)) (pb_MQTTVersion p) (pb_properties p) (MQTTProtocol_handlePublishes (clock w) p))
  | PAck k =>
      let t := h_type (ack_header k) in
      if (t =? PUBACK) || (t =? PUBCOMP) then
        id ← lift (ack_msgId k);
        emits (call_published m k id true);;
        rc ← quietly a (if t =? PUBCOMP then MQTTProtocol_handlePubcomps persistence_remove k id
                        else MQTTProtocol_handlePubacks persistence_remove k id);
        emits (call_complete m id);;
        mret (None, rc)
      else if t =? PUBREC then
        id ← lift (ack_msgId k);
        emits (call_published m k id (MQTTREASONCODE_UNSPECIFIED_ERROR <=? default 0 (ack_rc k)));;
        handled (quietly a (MQTTProtocol_handlePubrecs persistence_remove (clock w) k id))
      else if t =? PUBREL then
        id ← lift (ack_msgId k);
        handled (quietly a (MQTTProtocol_handlePubrels persistence_remove (clock w) k id))
      else mret (Some p, rc)
  | PHeader h => if h ≫ 4 =? PINGRESP then handled (quietly a MQTTProtocol_handlePingresps) else mret (Some p, rc)
  | _ => mret (Some p, rc)
  end.

(** [rc] on entry is what [*rc] holds; the turn tells the socket. *)
Definition MQTTClient_cycle (rc : Z) : io (turn * option packet * Z) :=
  t ← next_turn;
  each MQTTClient_writeComplete (t_written t);;
  '(pack, rc) ← (if 0 <? t_sock t then
    o ← find_socket (t_sock t);
    match o with
    | None => mret (None, rc)
    | Some a =>
        m ← get_client a;
        let state := connect_state (link m) in
        if (state =? TCP_IN_PROGRESS) || (state =? SSL_IN_PROGRESS) then mret (None, 0)
        else if state =? WEBSOCKET_IN_PROGRESS then mret (None, t_upgrade t)
        else
          let rc := if (t_received t).2 =? TCPSOCKET_INTERRUPTED then 0 else (t_received t).2 in
          match (t_received t).1 with
          | Some p => handle_packet a p rc
          | None => mret (None, rc)
          end
    end
  else mret (None, rc));
  MQTTClient_retry;;
  mret (t, pack, rc).

(** ** The callback thread *)

Definition post (a : positive) (packet_type : Z) : io () := on_struct a (set_sem packet_type true).

(** A wait of the callback thread itself: nothing else runs. *)
Definition own_sleep (ms : Z) : io () := w ← the_world; put_clock (clock w + ms).

(** [MQTTClient_disconnect1] in the callback thread: it waits by steps of 100 ms
    in which no message can be acknowledged. *)
Definition disconnect_in_thread (a : positive) (timeout : Z) : io () :=
  m ← get_client a;
  set_disconnecting a;;
  (if connected (sc m) && negb ((len (inboundMsgs (sc m)) =? 0) && (len (outboundMsgs (sc m)) =? 0)) then
     own_sleep (100 * ((timeout + 99) / 100)) else mret ());;
  disconnect_now a false stop_in_cycle MQTTREASONCODE_SUCCESS None (connected (sc m)).

(** The oldest message is given to the application; the answer of the callback
    is what [rc] holds after. *)
Definition run_arrived (a : positive) (rc : Z) : io Z :=
  m ← get_client a;
  match (messageQueue m).1, ma (calls m) with
  | qe :: rest, Some f =>
      emits [SArrived f (context (calls m)) (topicName qe) (if strlen (topicName qe) =? topicLen qe then 0 else topicLen qe) (q_msg qe)];;
      if taken (topicName qe) (q_msg qe)
      then update a (λ m, m ← unpersist_entry m qe; Some ((), with_queue m (rest, (messageQueue m).2)));; mret 1
      else mret 0
  | _, _ => mret rc
  end.

Definition run_failed (a : positive) : io () :=
  m ← get_client a;
  if connected (sc m) then disconnect_in_cycle a
  else if connect_state (link m) =? SSL_IN_PROGRESS then on_struct a (λ m, set_state m NOT_IN_PROGRESS);; post a CONNECT
  else if connect_state (link m) =? WAIT_FOR_CONNACK then on_struct a (λ m, set_state m NOT_IN_PROGRESS);; post a CONNACK
  else mret ().

Definition run_packet (a : positive) (p : packet) : io () :=
  let give type := on_struct a (λ m, set_pack m (Some p));; post a type in
  m ← get_client a;
  match p with
  | PConnack _ => give CONNACK
  | PSuback _ => give SUBACK
  | PUnsuback _ => give UNSUBACK
  | PAck k =>
      match disconnected (calls m) with
      | Some (f, ctx) =>
          if (MQTTVERSION_5 <=? MQTTVersion (link m)) && (h_type (ack_header k) =? DISCONNECT)
          then disconnect_in_thread a 10;; emits [SDisconnected f ctx (default 0 (ack_rc k))] else mret ()
      | None => mret ()
      end
  | _ => mret ()
  end.

Definition run_connecting (a : positive) (rc error : Z) : io () :=
  m ← get_client a;
  let state := connect_state (link m) in
  if state =? TCP_IN_PROGRESS then on_struct a (λ m, set_state (set_rc m error) NOT_IN_PROGRESS);; post a CONNECT
  else if (state =? WEBSOCKET_IN_PROGRESS) && negb (rc =? TCPSOCKET_INTERRUPTED)
  then on_struct a (λ m, set_state m WAIT_FOR_CONNACK);; post a CONNECT
  else mret ().

Definition thread_ends : io () := put_thread false false.

(** One turn of the loop of [MQTTClient_run], and the test that starts the next. *)
Definition MQTTClient_run_turn : io () :=
  '(t, pack, rc) ← MQTTClient_cycle SOCKET_ERROR;
  w ← the_world;
  if tostop w then thread_ends
  else
    o ← find_socket (t_sock t);
    (match o with
     | None => mret ()
     | Some a =>
         if rc =? SOCKET_ERROR then run_failed a
         else
           rc ← run_arrived a rc;
           match pack with
           | Some p => run_packet a p
           | None => run_connecting a rc (t_error t)
           end
     end);;
    w ← the_world;
    if tostop w then thread_ends else mret ().

(** ** Waiting *)

(** [MQTTTime_sleep] of a thread of the application. *)
Definition app_sleep (ms : Z) : io () :=
  w ← the_world;
  let start := clock w in
  while_turns (λ _ : (), 
    w ← the_world;
    if negb (running w) then put_clock (Z.max (clock w) (start + ms));; mret (inr ())
    else if start + ms <=? clock w then mret (inr ())
    else MQTTClient_run_turn;; mret (inl ())) ().

(** [MQTTClient_yield] in a thread of the application. *)
Definition MQTTClient_yield : io () :=
  w ← the_world;
  if running w then app_sleep 100
  else
    let start := clock w in
    while_turns (λ rc,
      '(t, _, rc) ← MQTTClient_cycle rc;
      o ← find_socket (t_sock t);
      (match o with
       | Some a =>
           m ← get_client a;
           if (rc =? SOCKET_ERROR) && negb (connect_state (link m) =? DISCONNECTING) then disconnect_in_cycle a else mret ()
       | None => mret ()
       end);;
      elapsed ← MQTTTime_elapsed start;
      mret (if elapsed <? 100 then inl rc else inr ())) 0.

(** [MQTTClient_stop] in a thread of the application, which waits for the turn
    that the callback thread is in. *)
Definition MQTTClient_stop : io () :=
  asked ← ask_stop;
  if (asked : bool) then MQTTClient_cycle SOCKET_ERROR;; thread_ends else mret ().

Definition MQTTClient_disconnect1 (a : positive) (timeout : Z) (call_connection_lost stop : bool) (reason : Z)
    (props : option MQTTProperties) : io Z :=
  m ← get_client a;
  w ← the_world;
  let start := clock w in
  set_disconnecting a;;
  (if connected (sc m) then
     while_turns (λ _ : (),
       m ← get_client a;
       elapsed ← MQTTTime_elapsed start;
       if (len (inboundMsgs (sc m)) =? 0) && (len (outboundMsgs (sc m)) =? 0) then mret (inr ())
       else if u64 timeout <=? elapsed then mret (inr ())
       else MQTTClient_yield;; mret (inl ())) ()
   else mret ());;
  disconnect_now a call_connection_lost (if stop then MQTTClient_stop else mret ()) reason props (connected (sc m));;
  mret MQTTCLIENT_SUCCESS.
Definition MQTTClient_disconnect_internal (a : positive) (timeout : Z) : io Z :=
  MQTTClient_disconnect1 a timeout true true MQTTREASONCODE_SUCCESS None.

(** [Thread_wait_sem]: the semaphore is tried every 10 ms, not at all when the
    timeout is below 20 ms; it is 0 again when it has been posted.  The number
    of tries is a quotient of unsigned integers. *)
Definition Thread_wait_sem (a : positive) (packet_type timeout : Z) : io Z :=
  w ← the_world;
  let start := clock w in
  product ← lift (to_int (1000 * timeout));
  let count := u32 product / 10000 in
  if count <=? 1 then mret (-1)
  else
    while_turns (λ _ : (),
      m ← get_client a;
      w ← the_world;
      if sem_of packet_type (hand m) then on_struct a (set_sem packet_type false);; mret (inr 0)
      else if start + 10 * (count - 1) <=? clock w then mret (inr EAGAIN)
      else if running w then MQTTClient_run_turn;; mret (inl ())
      else put_clock (start + 10 * (count - 1));; mret (inr EAGAIN)) ().

Definition type_of_packet (p : packet) : Z :=
  match p with
  | PConnack p => h_type (cn_header p)
  | PPublish p => h_type (pb_header p)
  | PAck p => h_type (ack_header p)
  | PSuback p | PUnsuback p => h_type (sa_header p)
  | PHeader h => h ≫ 4
  end.

(** The packet and [*rc].  The timeout is unsigned, and an [int] for the
    semaphore; [getsockopt], which succeeds, tells the [t_error] of the turn. *)
Definition MQTTClient_waitfor (a : positive) (packet_type rc timeout : Z) : io (option packet * Z) :=
  w ← the_world;
  let start := clock w in
  if u64 timeout =? 0 then mret (None, MQTTCLIENT_FAILURE)
  else if running w then
    rc ← Thread_wait_sem a packet_type (s32 timeout);
    m ← get_client a;
    mret (pack (hand m), if (packet_type =? CONNECT) && (rc =? 0) then h_rc (hand m) else rc)
  else
    while_turns (λ rc,
      '(t, pack, rc) ← MQTTClient_cycle rc;
      m ← get_client a;
      elapsed ← MQTTTime_elapsed start;
      let state := connect_state (link m) in
      let again := if u64 timeout <? elapsed then inr (None, rc) else inl rc in
      mret (if t_sock t =? socket (sc m) then
              if rc =? SOCKET_ERROR then inr (pack, rc)
              else if match pack with Some p => type_of_packet p =? packet_type | None => false end then inr (pack, rc)
              else if state =? TCP_IN_PROGRESS then inr (pack, t_error t)
              else if (state =? WEBSOCKET_IN_PROGRESS) || (state =? PROXY_CONNECT_IN_PROGRESS) then inr (pack, 1)
              else if (state =? WAIT_FOR_CONNACK) && negb (t_error t =? 0) then inr (pack, t_error t)
              else again
            else again)) TCPSOCKET_COMPLETE.
End Process.
End SyncClient.
