(* ===== verification/SyncApi.v ===== *)
(** * The synchronous client: the calls of the application (paho.mqtt.c/src/MQTTClient.c)

    Connecting to the first server and version that answer, the requests that
    wait for their answer, publishing, receiving, and the end of a client. *)
From S2P Require Import Prelude Libc Utf8 PacketCodec Props Packets SocketIO Protocol ProtocolSpec Persistence Connect.
From S2P Require Import AsyncCommands AsyncQueue AsyncConnect SocketSelect AsyncProcess AsyncApi SyncClient.

Module SyncApi.
Import Utf8 Libc Codecs Properties Packets SocketRead Protocol Persistence Connect SyncClient.
Import AsyncQueue(link_state, mkLink, connect_state, MQTTVersion, cleansession, cleanstart, maxInflightMessages, sessionExpiry).
Import AsyncConnect(strip_scheme, URI_TCP, URI_WS, MQTTVERSION_DEFAULT, MQTTVERSION_3_1).
Import AsyncProcess(Closing, close_socket, set_line, untouched, session_present, codes_of, RECEIVE_MAXIMUM, MQTT_BAD_SUBSCRIBE).
Import AsyncApi(willOptions, mkWillOptions, will_error, bad_string).

Definition MQTTCLIENT_MAX_MESSAGES_INFLIGHT := -4.
Definition MQTTCLIENT_BAD_UTF8_STRING := -5.
Definition MQTTCLIENT_NULL_PARAMETER := -6.
Definition MQTTCLIENT_TOPICNAME_TRUNCATED := -7.
Definition MQTTCLIENT_BAD_STRUCTURE := -8.
Definition MQTTCLIENT_BAD_QOS := -9.
Definition MQTTCLIENT_BAD_MQTT_VERSION := -11.
Definition MQTTCLIENT_BAD_PROTOCOL := -14.
Definition MQTTCLIENT_BAD_MQTT_OPTION := -15.
Definition MQTTCLIENT_WRONG_MQTT_VERSION := -16.

Record MQTTResponse := mkMQTTResponse {
  reasonCode : Z;
  reasonCodes : list Z;
  r_properties : option MQTTProperties
}.
Definition MQTTResponse_initializer : MQTTResponse := mkMQTTResponse 0 [] None.
Definition with_reason (r : MQTTResponse) (rc : Z) : MQTTResponse := mkMQTTResponse rc (reasonCodes r) (r_properties r).

(** The members of the options that are used; [struct_id] first. *)
Record connectOptions := mkConnectOptions {
  co_id : list Z; co_version : Z;
  co_keepAliveInterval : Z; co_cleansession : bool; co_reliable : bool;
  co_will : option willOptions;
  co_username : option (list Z); co_password : option (list Z);
  co_connectTimeout : Z; co_retryInterval : Z;
  co_serverURIs : list (list Z);
  co_MQTTVersion : Z;
  co_maxInflightMessages : Z;
  co_cleanstart : bool
}.

(** [returned] of the options: the server, the version, [sessionPresent]. *)
Definition returned : Type := option (list Z * Z * Z).

(** The answers of the calls made for an attempt, the socket it creates, and
    whether a proxy is used for its web socket. *)
Record attempt := mkAttempt { at_net : net_answers; at_socket : Z; at_proxied : bool; at_proxy : Z; at_websocket : Z; at_send : Z }.

Section Api.
Context {S T : Type} `{!Store S, !Transport T, !Closing T}.
Context (beforeWrite : option (list (list Z) → Z * list (list Z))).
Context (persistence_remove : bool → Z → Z → Z).
Context (taken : list Z → MQTTPersistence_message → bool).
Context (proxy_env : option (list Z)).
(** The answers for an address, a version and a time. *)
Context (answers : list Z → Z → Z → attempt).
Abbreviation client := (MQTTClients S).
Abbreviation world := (world (S := S) (T := T)).
Abbreviation io := (io (S := S) (T := T)).
Abbreviation waitfor := (MQTTClient_waitfor beforeWrite persistence_remove taken).
Abbreviation yield := (MQTTClient_yield beforeWrite persistence_remove taken).
Abbreviation stop := (MQTTClient_stop beforeWrite persistence_remove).
Abbreviation disconnect1 := (MQTTClient_disconnect1 beforeWrite persistence_remove taken).
Abbreviation disconnect_internal := (MQTTClient_disconnect_internal beforeWrite persistence_remove taken).

(** ** Connecting *)

Definition remaining (start timeout : Z) : io Z := elapsed ← MQTTTime_elapsed start; mret (timeout - elapsed).

(** The callback thread is started by the first connection with a
    [messageArrived]; whether the time is over. *)
Definition start_thread (a : positive) (start timeout : Z) : io bool :=
  m ← get_client a;
  w ← the_world;
  if bool_decide (is_Some (ma (calls m))) && negb (running w) then
    put_thread true (tostop w);;
    elapsed ← MQTTTime_elapsed start;
    if u64 timeout <=? elapsed then mret true
    else app_sleep beforeWrite persistence_remove taken 100;; mret false
  else mret false.

Definition start_connect (a : positive) (uri : list Z) (x : attempt) (timeout : Z) : io Z :=
  m ← get_client a;
  '(rc, state, calls) ← lift (MQTTProtocol_connect proxy_env uri (websocket m) timeout (connect_state (link m)) (at_net x));
  let made := existsb (λ k, match k with CSocket_new _ _ _ => true | _ => false end) calls in
  on_struct a (λ m,
    let c := sc m in
    set_state (with_sc m (set_line c (if made then at_socket x else socket c) (connected c) true (ping_outstanding c))) state);;
  emits (SNet <$> calls);;
  mret rc.

Definition send_connect (a : positive) (x : attempt) : io Z :=
  on_struct a (λ m, set_state m WAIT_FOR_CONNACK);; emits [SNet CSend_connect];; mret (at_send x).

(** A step of the connection: the code of the [goto exit], or none. *)
Definition tcp_connected (a : positive) (uri : list Z) (x : attempt) (rc start timeout : Z) : io (option Z) :=
  m ← get_client a;
  if connect_state (link m) =? TCP_IN_PROGRESS then
    t ← remaining start timeout;
    '(_, rc) ← waitfor a CONNECT rc t;
    if negb (rc =? 0) then mret (Some SOCKET_ERROR)
    else
      m ← get_client a;
      if websocket m then
        (if at_proxied x then on_struct a (λ m, set_state m PROXY_CONNECT_IN_PROGRESS);; emits [SNet (CProxy_connect uri)] else mret ());;
        if at_proxied x && (at_proxy x =? SOCKET_ERROR) then mret (Some SOCKET_ERROR)
        else
          on_struct a (λ m, set_state m WEBSOCKET_IN_PROGRESS);;
          emits [SNet (CWebSocket_connect uri)];;
          mret (if at_websocket x =? SOCKET_ERROR then Some SOCKET_ERROR else None)
      else sent ← send_connect a x; mret (if sent =? SOCKET_ERROR then Some SOCKET_ERROR else None)
  else mret None.

(** What the wait for the upgrade answers is not looked at. *)
Definition websocket_connected (a : positive) (x : attempt) (rc start timeout : Z) : io (option Z) :=
  m ← get_client a;
  if connect_state (link m) =? WEBSOCKET_IN_PROGRESS then
    t ← remaining start timeout;
    waitfor a CONNECT rc t;;
    sent ← send_connect a x;
    mret (if sent =? SOCKET_ERROR then Some SOCKET_ERROR else None)
  else mret None.

(** The session starts: the messages in flight are sent again. *)
Definition session_starts (a : positive) : io Z :=
  on_struct a (λ m, let c := sc m in set_state (with_sc m (set_line c (socket c) true true (ping_outstanding c))) NOT_IN_PROGRESS);;
  m ← get_client a;
  rc ← (if cleansession (link m) || cleanstart (link m) then MQTTClient_cleanSession a else mret MQTTCLIENT_SUCCESS);
  m ← get_client a;
  if 0 <? len (outboundMsgs (sc m)) then
    on_struct a (λ m, with_sc m (with_outbound (sc m) (untouched <$> outboundMsgs (sc m))));;
    w ← the_world;
    each (retry_handle beforeWrite stop true true) (handles w);;
    m ← get_client a;
    mret (if connected (sc m) then rc else MQTTCLIENT_DISCONNECTED)
  else mret rc.

(** The code, [sessionPresent] and the properties of the answer.  A packet that
    another wait has left is read as a CONNACK. *)
Definition wait_connack (a : positive) (version rc start timeout : Z) : io (Z * Z * option MQTTProperties) :=
  m ← get_client a;
  if connect_state (link m) =? WAIT_FOR_CONNACK then
    t ← remaining start timeout;
    '(pack, rc) ← waitfor a CONNACK rc t;
    match pack with
    | None => mret (SOCKET_ERROR, 0, None)
    | Some (PConnack p) =>
        if cn_rc p =? MQTTCLIENT_SUCCESS then
          rc ← session_starts a;
          m ← get_client a;
          props ← lift (if MQTTVersion (link m) =? MQTTVERSION_5
                        then ps ← cn_properties p; c ← MQTTProperties_copy true ps; Some (Some c) else Some None);
          on_struct a (λ m, set_pack m None);;
          mret (rc, if version =? 4 then Z.b2z (session_present p) else 0, props)
        else on_struct a (λ m, set_pack m None);; mret (cn_rc p, 0, None)
    | Some _ => lift None
    end
  else mret (rc, 0, None).

(** The [goto exit] of each step. *)
Definition connect_steps (a : positive) (uri : list Z) (version start timeout : Z) : io (Z * Z * option MQTTProperties) :=
  late ← start_thread a start timeout;
  if (late : bool) then mret (SOCKET_ERROR, 0, None)
  else
    w ← the_world;
    let x := answers uri version (clock w) in
    t ← remaining start timeout;
    rc ← start_connect a uri x t;
    m ← get_client a;
    if (rc =? SOCKET_ERROR) || (connect_state (link m) =? NOT_IN_PROGRESS) then mret (SOCKET_ERROR, 0, None)
    else
      r ← tcp_connected a uri x rc start timeout;
      match r with
      | Some rc => mret (rc, 0, None)
      | None =>
          r ← websocket_connected a x rc start timeout;
          match r with
          | Some rc => mret (rc, 0, None)
          | None => wait_connack a version rc start timeout
          end
      end.

Definition MQTTClient_connectURIVersion (a : positive) (o : connectOptions) (uri : list Z) (version start timeout : Z)
    : io (MQTTResponse * returned) :=
  '(rc, present, props) ← connect_steps a uri version start timeout;
  if rc =? MQTTCLIENT_SUCCESS then
    mret (mkMQTTResponse rc [] props, if 4 <=? co_version o then Some (uri, version, present) else None)
  else
    disconnect1 a 0 false (version =? 3) MQTTREASONCODE_SUCCESS None;;
    mret (mkMQTTResponse rc [] props, None).

Definition setRetryLoopInterval (keepalive : Z) : io () :=
  w ← the_world;
  let proposed := Z.quot keepalive 10 in
  let proposed := if proposed <? 1 then 1 else if 5 <? proposed then 5 else proposed in
  if proposed <? retryLoopInterval w then put_retry (last_retry w) proposed else mret ().

(** The members of the client that the options set. *)
Definition connect_client (o : connectOptions) (m : client) : client :=
  let c := sc m in
  let l := link m in
  let v5 := MQTTVERSION_5 <=? co_MQTTVersion o in
  let inflight := if co_reliable o then 1 else 10 in
  let inflight := if (6 <=? co_version o) && (0 <? co_maxInflightMessages o) then co_maxInflightMessages o else inflight in
  with_link
    (with_sc m (mkClient (socket c) (connected c) (good c) (ping_outstanding c) (lastSent c) (lastReceived c) (lastPing c)
                  (msgID c) (co_keepAliveInterval o) (co_retryInterval o) (inboundMsgs c) (outboundMsgs c)))
    (mkLink (connect_state l) (co_MQTTVersion o) (negb v5 && co_cleansession o) (v5 && co_cleanstart o) inflight (sessionExpiry l)).

(** The versions tried for a server. *)
Definition versions (o : connectOptions) : list Z :=
  let version := if 3 <=? co_version o then co_MQTTVersion o else MQTTVERSION_DEFAULT in
  if version =? MQTTVERSION_DEFAULT then [4; 3] else [version].

Fixpoint try_versions (a : positive) (o : connectOptions) (uri : list Z) (start timeout : Z) (l : list Z) (r : MQTTResponse * returned)
    : io (MQTTResponse * returned) :=
  match l with
  | [] => mret r
  | v :: l' =>
      r ← MQTTClient_connectURIVersion a o uri v start timeout;
      if reasonCode r.1 =? MQTTCLIENT_SUCCESS then mret r else try_versions a o uri start timeout l' r
  end.

Definition MQTTClient_connectURI (a : positive) (o : connectOptions) (uri : list Z) : io (MQTTResponse * returned) :=
  timeout ← lift (AsyncConnect.to_int (co_connectTimeout o * 1000));
  w ← the_world;
  setRetryLoopInterval (co_keepAliveInterval o);;
  on_struct a (connect_client o);;
  try_versions a o uri (clock w) timeout (versions o) (mkMQTTResponse SOCKET_ERROR [] None, None).

(** The checks made before anything changes. *)
Definition connect_error (o : option connectOptions) : Z :=
  match o with
  | None => MQTTCLIENT_NULL_PARAMETER
  | Some o =>
      let will := match co_will o with Some w => will_error w | None => MQTTCLIENT_SUCCESS end in
      if negb (starts_with (bs "MQTC") (co_id o)) || (co_version o <? 0) || (7 <? co_version o) then MQTTCLIENT_BAD_STRUCTURE
      else if negb (will =? MQTTCLIENT_SUCCESS) then will
      else if bad_string (co_username o) || bad_string (co_password o) then MQTTCLIENT_BAD_UTF8_STRING
      else if negb (co_MQTTVersion o =? MQTTVERSION_DEFAULT)
              && ((co_MQTTVersion o <? MQTTVERSION_3_1) || (MQTTVERSION_5 <? co_MQTTVersion o)) then MQTTCLIENT_BAD_MQTT_VERSION
      else if (if MQTTVERSION_5 <=? co_MQTTVersion o then co_cleansession o else co_cleanstart o) then MQTTCLIENT_BAD_MQTT_OPTION
      else MQTTCLIENT_SUCCESS
  end.

(** The servers in their order; a ws:// address marks the client for good. *)
Fixpoint try_servers (a : positive) (o : connectOptions) (l : list (list Z)) (r : MQTTResponse * returned) : io (MQTTResponse * returned) :=
  match l with
  | [] => mret r
  | uri :: l' =>
      m ← get_client a;
      let '(uri, ws) := strip_scheme uri (websocket m) in
      on_struct a (λ m, with_websocket m ws);;
      r ← MQTTClient_connectURI a o uri;
      if reasonCode r.1 =? MQTTCLIENT_SUCCESS then mret r else try_servers a o l' r
  end.

(** The receive maximum of the server bounds that of the client. *)
Definition receive_maximum (a : positive) (props : option MQTTProperties) : io () :=
  match props with
  | Some ps =>
      if MQTTProperties_hasProperty ps RECEIVE_MAXIMUM =? 1 then
        n ← lift (MQTTProperties_getNumericValue ps RECEIVE_MAXIMUM);
        on_struct a (λ m,
          let l := link m in
          if n <? maxInflightMessages l
          then with_link m (mkLink (connect_state l) (MQTTVersion l) (cleansession l) (cleanstart l) n (sessionExpiry l)) else m)
      else mret ()
  | None => mret ()
  end.

Definition MQTTClient_connectAll (a : positive) (options : option connectOptions) : io (MQTTResponse * returned) :=
  let rc := connect_error options in
  if negb (rc =? MQTTCLIENT_SUCCESS) then mret (mkMQTTResponse rc [] None, None)
  else
    o ← lift options;
    m ← get_client a;
    r ← (if (co_version o <? 2) || (len (co_serverURIs o) =? 0) then MQTTClient_connectURI a o (serverURI m)
         else try_servers a o (co_serverURIs o) (mkMQTTResponse SOCKET_ERROR [] None, None));
    (if reasonCode r.1 =? MQTTCLIENT_SUCCESS then receive_maximum a (r_properties r.1) else mret ());;
    mret r.

Definition MQTTClient_connect (a : positive) (options : option connectOptions) : io (Z * returned) :=
  m ← get_client a;
  if MQTTVERSION_5 <=? MQTTVersion (link m) then mret (MQTTCLIENT_WRONG_MQTT_VERSION, None)
  else r ← MQTTClient_connectAll a options; mret (reasonCode r.1, r.2).
Definition MQTTClient_connect5 (a : positive) (options : option connectOptions) : io (MQTTResponse * returned) :=
  m ← get_client a;
  if MQTTVersion (link m) <? MQTTVERSION_5 then mret (mkMQTTResponse MQTTCLIENT_WRONG_MQTT_VERSION [] None, None)
  else MQTTClient_connectAll a options.

(** ** Disconnecting *)

Definition MQTTClient_disconnect5 (h : option positive) (timeout reason : Z) (props : option MQTTProperties) : io Z :=
  match h with
  | None => stop;; mret MQTTCLIENT_FAILURE
  | Some a => disconnect1 a timeout false true reason props
  end.
Definition MQTTClient_disconnect (h : option positive) (timeout : Z) : io Z :=
  MQTTClient_disconnect5 h timeout MQTTREASONCODE_SUCCESS None.
Definition MQTTClient_isConnected (h : option positive) : io Z :=
  match h with None => mret 0 | Some a => m ← get_client a; mret (Z.b2z (connected (sc m))) end.

(** ** Callbacks *)

(** Nothing changes while a connection is being made. *)
Definition set_when_idle (h : option positive) (ok : bool) (f : callbacks → callbacks) : io Z :=
  match h with
  | Some a =>
      update a (λ m, if ok && (connect_state (link m) =? NOT_IN_PROGRESS)
                     then Some (MQTTCLIENT_SUCCESS, with_calls m (f (calls m))) else Some (MQTTCLIENT_FAILURE, m))
  | None => mret MQTTCLIENT_FAILURE
  end.
Definition MQTTClient_setCallbacks (h : option positive) (ctx : Z) (cl ma dc : option Z) : io Z :=
  set_when_idle h (bool_decide (is_Some ma)) (λ k, mkCallbacks ctx cl ma dc (disconnected k) (published k)).
Definition MQTTClient_setDisconnected (h : option positive) (ctx : Z) (f : option Z) : io Z :=
  set_when_idle h true (λ k, mkCallbacks (context k) (cl k) (ma k) (dc k) ((λ f, (f, ctx)) <$> f) (published k)).
Definition MQTTClient_setPublished (h : option positive) (ctx : Z) (f : option Z) : io Z :=
  set_when_idle h true (λ k, mkCallbacks (context k) (cl k) (ma k) (dc k) (disconnected k) ((λ f, (f, ctx)) <$> f)).

(** ** Subscriptions *)

(** [MQTTProtocol_assignMsgId] on a client of the process. *)
Definition assign_id (a : positive) : io Z :=
  update a (λ m, '(id, c) ← MQTTProtocol_assignMsgId (sc m); Some (id, with_sc m c)).

Fixpoint topics_error (l : list (option (list Z) * Z)) : Z :=
  match l with
  | [] => MQTTCLIENT_SUCCESS
  | (topic, qos) :: l' =>
      if UTF8_validateString topic =? 0 then MQTTCLIENT_BAD_UTF8_STRING
      else if (qos <? 0) || (2 <? qos) then MQTTCLIENT_BAD_QOS
      else topics_error l'
  end.

(** The response for the reason codes of MQTT 5: the first one is read, and the
    list is given when there are several. *)
Definition codes_response (codes : list Z) (props : option MQTTProperties) : option MQTTResponse :=
  ps ← props;
  ps ← (if 0 <? count ps then c ← MQTTProperties_copy true ps; Some (Some c) else Some None);
  rc ← head codes;
  Some (mkMQTTResponse rc (if 1 <? len codes then codes else []) ps).

(** The codes of a SUBACK are written over the QoS asked for, in an array of
    that many. *)
Definition write_codes (codes qos : list Z) : option (list Z) :=
  if len codes <=? len qos then Some (codes ++ drop (length codes) qos) else None.

(** Another packet left by a wait is read as the one that is expected. *)
Definition suback_of (p : packet) : option Suback := match p with PSuback p => Some p | _ => None end.
Definition unsuback_of (p : packet) : option Suback := match p with PUnsuback p => Some p | _ => None end.

Definition MQTTClient_subscribeMany5 (h : option positive) (topics : list (option (list Z))) (qos : list Z)
    (opts : option (list MQTTSubscribe_options)) (props : option MQTTProperties) : io (MQTTResponse * list Z) :=
  let failed rc := mret (mkMQTTResponse rc [] None, qos) in
  match h with
  | None => failed MQTTCLIENT_FAILURE
  | Some a =>
      m ← get_client a;
      w ← the_world;
      let version := MQTTVersion (link m) in
      let bad := topics_error (zip topics qos) in
      if negb (connected (sc m)) then failed MQTTCLIENT_DISCONNECTED
      else if negb (bad =? MQTTCLIENT_SUCCESS) then failed bad
      else
        msgid ← assign_id a;
        if msgid =? 0 then failed MQTTCLIENT_MAX_MESSAGES_INFLIGHT
        else
          os ← lift (match opts with
                     | Some l => if MQTTVERSION_5 <=? version then mapM (λ i, o ← l !! i; Some (Some o)) (seq 0 (length topics))
                                 else Some (replicate (length topics) None)
                     | None => Some (replicate (length topics) None)
                     end);
          rc ← quietly beforeWrite a (Protocol.send (clock w) (OPacket (MQTTProtocol_subscribe version (zip (zip (default [] <$> topics) qos) os) props msgid)));
          '(resp, qos, rc) ← (if rc =? TCPSOCKET_COMPLETE then
             '(pack, rc) ← waitfor a SUBACK rc 10000;
             match pack with
             | None => mret (mkMQTTResponse MQTTCLIENT_FAILURE [] None, qos, SOCKET_ERROR)
             | Some p =>
                 sub ← lift (suback_of p);
                 m ← get_client a;
                 '(resp, qos) ← lift (if MQTTVersion (link m) =? MQTTVERSION_5
                                      then r ← codes_response (codes_of sub) (sa_properties sub); Some (r, qos)
                                      else q ← write_codes (codes_of sub) qos; Some (mkMQTTResponse rc [] None, q));
                 rc ← quietly beforeWrite a (MQTTProtocol_handleSubacks sub);
                 on_struct a (λ m, set_pack m None);;
                 mret (resp, qos, rc)
             end
           else mret (mkMQTTResponse MQTTCLIENT_FAILURE [] None, qos, rc));
          (if rc =? SOCKET_ERROR then disconnect_internal a 0;; mret () else mret ());;
          mret (if rc <? 0 then with_reason resp rc else resp, qos)
  end.

Definition MQTTClient_subscribeMany (a : positive) (topics : list (option (list Z))) (qos : list Z) : io (Z * list Z) :=
  m ← get_client a;
  if MQTTVERSION_5 <=? MQTTVersion (link m) then mret (MQTTCLIENT_WRONG_MQTT_VERSION, qos)
  else '(r, qos) ← MQTTClient_subscribeMany5 (Some a) topics qos None None; mret (reasonCode r, qos).
Definition MQTTClient_subscribe5 (h : option positive) (topic : option (list Z)) (qos : Z) (opts : option MQTTSubscribe_options)
    (props : option MQTTProperties) : io MQTTResponse :=
  '(r, qos) ← MQTTClient_subscribeMany5 h [topic] [qos] ((λ o, [o]) <$> opts) props;
  mret (if bool_decide (qos = [MQTT_BAD_SUBSCRIBE]) then with_reason r MQTT_BAD_SUBSCRIBE else r).
Definition MQTTClient_subscribe (a : positive) (topic : option (list Z)) (qos : Z) : io Z :=
  m ← get_client a;
  if MQTTVERSION_5 <=? MQTTVersion (link m) then mret MQTTCLIENT_WRONG_MQTT_VERSION
  else r ← MQTTClient_subscribe5 (Some a) topic qos None None; mret (reasonCode r).

Definition MQTTClient_unsubscribeMany5 (h : option positive) (topics : list (option (list Z))) (props : option MQTTProperties) : io MQTTResponse :=
  let failed rc := mret (mkMQTTResponse rc [] None) in
  match h with
  | None => failed MQTTCLIENT_FAILURE
  | Some a =>
      m ← get_client a;
      w ← the_world;
      let bad := topics_error ((λ t, (t, 0)) <$> topics) in
      if negb (connected (sc m)) then failed MQTTCLIENT_DISCONNECTED
      else if negb (bad =? MQTTCLIENT_SUCCESS) then failed bad
      else
        msgid ← assign_id a;
        if msgid =? 0 then failed MQTTCLIENT_MAX_MESSAGES_INFLIGHT
        else
          rc ← quietly beforeWrite a (Protocol.send (clock w) (OPacket (MQTTProtocol_unsubscribe (MQTTVersion (link m)) (default [] <$> topics) props msgid)));
          '(resp, rc) ← (if rc =? TCPSOCKET_COMPLETE then
             '(pack, rc) ← waitfor a UNSUBACK rc 10000;
             match pack with
             | None => mret (mkMQTTResponse MQTTCLIENT_FAILURE [] None, SOCKET_ERROR)
             | Some p =>
                 unsub ← lift (unsuback_of p);
                 m ← get_client a;
                 resp ← lift (if MQTTVersion (link m) =? MQTTVERSION_5 then codes_response (codes_of unsub) (sa_properties unsub)
                              else Some (mkMQTTResponse rc [] None));
                 rc ← quietly beforeWrite a (MQTTProtocol_handleUnsubacks unsub);
                 on_struct a (λ m, set_pack m None);;
                 mret (resp, rc)
             end
           else mret (mkMQTTResponse MQTTCLIENT_FAILURE [] None, rc));
          (if rc =? SOCKET_ERROR then disconnect_internal a 0;; mret () else mret ());;
          mret (if rc <? 0 then with_reason resp rc else resp)
  end.
Definition MQTTClient_unsubscribeMany (h : option positive) (topics : list (option (list Z))) : io Z :=
  r ← MQTTClient_unsubscribeMany5 h topics None; mret (reasonCode r).
Definition MQTTClient_unsubscribe5 (h : option positive) (topic : option (list Z)) (props : option MQTTProperties) : io MQTTResponse :=
  MQTTClient_unsubscribeMany5 h [topic] props.
Definition MQTTClient_unsubscribe (h : option positive) (topic : option (list Z)) : io Z :=
  r ← MQTTClient_unsubscribe5 h topic None; mret (reasonCode r).

(** ** Publishing *)

(** The wait for room in flight and on the socket; whether the client is still
    connected. *)
Definition wait_room (a : positive) : io bool :=
  while_turns (λ _ : (),
    m ← get_client a;
    w ← the_world;
    if (len (outboundMsgs (sc m)) <? maxInflightMessages (link m)) && noPendingWrites (net (sh w)) (socket (sc m)) then mret (inr true)
    else
      yield;;
      m ← get_client a;
      mret (if connected (sc m) then inl () else inr false)) ().

(** The wait for the end of a write that was interrupted: the socket has one as
    long as it has output pending. *)
Definition wait_written (a : positive) : io () :=
  while_turns (λ _ : (),
    m ← get_client a;
    w ← the_world;
    if negb (connected (sc m)) || noPendingWrites (net (sh w)) (socket (sc m)) then mret (inr ()) else yield;; mret (inl ())) ().

(** The packet; [topiclen] is not set.  Nothing is read of a payload without
    length. *)
Definition publish_packet (m : client) (topic : list Z) (payloadlen : Z) (payload : list Z) (msgid uninit : Z)
    (props : option MQTTProperties) : option Publish :=
  data ← (if payloadlen <=? 0 then Some []
          else if payloadlen <=? len payload then Some (take (Z.to_nat payloadlen) payload) else None);
  Some (mkPublish (mkHeader PUBLISH 0 0 0) topic uninit msgid data payloadlen (MQTTVersion (link m))
          (if MQTTVERSION_5 <=? MQTTVersion (link m) then default MQTTProperties_initializer props else MQTTProperties_initializer)).

(** [SOCKET_ERROR] closes the session; a message of QoS 1 or 2 is said to have
    been sent. *)
Definition publish_ends (a : positive) (qos rc : Z) : io Z :=
  if rc =? SOCKET_ERROR then
    disconnect_internal a 0;;
    mret (if 0 <? qos then MQTTCLIENT_SUCCESS else MQTTCLIENT_FAILURE)
  else mret rc.

(** The identifier is read through the pointer to the message, which is freed
    when the message is not in flight any more. *)
Definition token_of (m : client) (msgid : Z) : option Z := msg ← find_msg msgid (outboundMsgs (sc m)); Some (Protocol.msgid msg).

Definition MQTTClient_publish5 (h : option positive) (topicName : option (list Z)) (payloadlen : Z) (payload : list Z)
    (qos retained : Z) (props : option MQTTProperties) (want_token : bool) (uninit : Z) : io (Z * option Z) :=
  match h with
  | None => mret (MQTTCLIENT_FAILURE, None)
  | Some a =>
      m ← get_client a;
      if negb (connected (sc m)) then mret (MQTTCLIENT_DISCONNECTED, None)
      else if UTF8_validateString topicName =? 0 then mret (MQTTCLIENT_BAD_UTF8_STRING, None)
      else
        room ← wait_room a;
        if negb room then mret (MQTTCLIENT_FAILURE, None)
        else
          msgid ← (if 0 <? qos then assign_id a else mret 0);
          if (0 <? qos) && (msgid =? 0) then mret (MQTTCLIENT_MAX_MESSAGES_INFLIGHT, None)
          else
            m ← get_client a;
            w ← the_world;
            topic ← lift topicName;
            p ← lift (publish_packet m topic payloadlen payload msgid uninit props);
            rc ← quietly beforeWrite a (MQTTProtocol_startPublish (clock w) p qos retained);
            rc ← (if rc =? TCPSOCKET_INTERRUPTED then
                    wait_written a;;
                    m ← get_client a;
                    mret (if (0 <? qos) || connected (sc m) then MQTTCLIENT_SUCCESS else MQTTCLIENT_FAILURE)
                  else mret rc);
            m ← get_client a;
            token ← lift (if want_token && (0 <? qos) then id ← token_of m msgid; Some (Some id) else Some None);
            rc ← publish_ends a qos rc;
            mret (rc, token)
  end.

Definition MQTTClient_publish (a : positive) (topicName : option (list Z)) (payloadlen : Z) (payload : list Z)
    (qos retained : Z) (want_token : bool) (uninit : Z) : io (Z * option Z) :=
  m ← get_client a;
  if MQTTVERSION_5 <=? MQTTVersion (link m) then mret (MQTTCLIENT_WRONG_MQTT_VERSION, None)
  else MQTTClient_publish5 (Some a) topicName payloadlen payload qos retained None want_token uninit.

(** [struct_id] and the members of an [MQTTClient_message]. *)
Definition bad_message (id : list Z) (x : MQTTPersistence_message) : bool :=
  negb (starts_with (bs "MQTM") id) || negb ((struct_version x =? 0) || (struct_version x =? 1)).
Definition MQTTClient_publishMessage5 (h : option positive) (topicName : option (list Z))
    (message : option (list Z * MQTTPersistence_message)) (want_token : bool) (uninit : Z) : io (Z * option Z) :=
  match message with
  | None => mret (MQTTCLIENT_NULL_PARAMETER, None)
  | Some (id, x) =>
      if bad_message id x then mret (MQTTCLIENT_BAD_STRUCTURE, None)
      else MQTTClient_publish5 h topicName (payloadlen x) (payload x) (m_qos x) (m_retained x)
             (if 1 <=? struct_version x then Some (properties x) else None) want_token uninit
  end.
Definition MQTTClient_publishMessage (a : positive) (topicName : option (list Z)) (id : list Z) (x : MQTTPersistence_message)
    (want_token : bool) (uninit : Z) : io (Z * option Z) :=
  if bad_message id x then mret (MQTTCLIENT_BAD_STRUCTURE, None)
  else
    m ← get_client a;
    if MQTTVERSION_5 <=? MQTTVersion (link m) then mret (MQTTCLIENT_WRONG_MQTT_VERSION, None)
    else MQTTClient_publishMessage5 (Some a) topicName (Some (id, x)) want_token uninit.

(** ** Receiving *)

(** The oldest message is taken off the queue. *)
Definition MQTTClient_deliverMessage (a : positive) (rc : Z) : io (Z * option (list Z * Z * MQTTPersistence_message)) :=
  m ← get_client a;
  match (messageQueue m).1 with
  | [] => lift None
  | qe :: rest =>
      update a (λ m, m ← unpersist_entry m qe; Some ((), with_queue m (rest, (messageQueue m).2)));;
      mret (if strlen (topicName qe) =? topicLen qe then rc else MQTTCLIENT_TOPICNAME_TRUNCATED,
            Some (topicName qe, topicLen qe, q_msg qe))
  end.

Definition MQTTClient_receive (h : option positive) (timeout : Z) : io (Z * option (list Z * Z * MQTTPersistence_message)) :=
  w ← the_world;
  match h with
  | None => mret (MQTTCLIENT_FAILURE, None)
  | Some a =>
      m ← get_client a;
      let start := clock w in
      let timeout := if (messageQueue m).1 then timeout else 0 in
      if running w then mret (MQTTCLIENT_FAILURE, None)
      else if negb (connected (sc m)) then mret (MQTTCLIENT_DISCONNECTED, None)
      else
        rc ← while_turns (λ rc,
          '(t, _, rc) ← MQTTClient_cycle beforeWrite persistence_remove rc;
          o ← find_socket (t_sock t);
          elapsed ← MQTTTime_elapsed start;
          m ← get_client a;
          mret (if (rc =? SOCKET_ERROR) && bool_decide (o = Some a) then inr rc
                else if (elapsed <? timeout) && bool_decide ((messageQueue m).1 = []) then inl rc else inr rc)) TCPSOCKET_COMPLETE;
        m ← get_client a;
        '(rc, r) ← (if (messageQueue m).1 then mret (rc, None) else MQTTClient_deliverMessage a rc);
        (if rc =? SOCKET_ERROR then disconnect_internal a 0;; mret () else mret ());;
        mret (rc, r)
  end.

(** ** Deliveries *)

Definition MQTTClient_waitForCompletion (h : option positive) (mdt timeout : Z) : io Z :=
  match h with
  | None => mret MQTTCLIENT_FAILURE
  | Some a =>
      w ← the_world;
      let start := clock w in
      while_turns (λ _ : (),
        m ← get_client a;
        elapsed ← MQTTTime_elapsed start;
        if negb (elapsed <? timeout) then mret (inr MQTTCLIENT_FAILURE)
        else if negb (connected (sc m)) then mret (inr MQTTCLIENT_DISCONNECTED)
        else if bool_decide (find_msg mdt (outboundMsgs (sc m)) = None) then mret (inr MQTTCLIENT_SUCCESS)
        else yield;; mret (inl ())) ()
  end.

(** The tokens with the final -1, or NULL. *)
Definition MQTTClient_getPendingDeliveryTokens (h : option positive) : io (Z * option (list Z)) :=
  match h with
  | None => mret (MQTTCLIENT_FAILURE, None)
  | Some a =>
      m ← get_client a;
      mret (MQTTCLIENT_SUCCESS, if outboundMsgs (sc m) then None else Some ((Protocol.msgid <$> outboundMsgs (sc m)) ++ [-1]))
  end.

(** ** The life of a client *)

(** [struct_id], [struct_version] and [MQTTVersion] of the options. *)
Definition create_error (uri clientId : option (list Z)) (persistence_type : Z) (options : option (list Z * Z * Z)) : Z :=
  match uri, clientId with
  | Some uri, Some id =>
      if UTF8_validateString clientId =? 0 then MQTTCLIENT_BAD_UTF8_STRING
      else if (len id =? 0) && (persistence_type =? MQTTCLIENT_PERSISTENCE_DEFAULT) then MQTTCLIENT_PERSISTENCE_ERROR
      else if bool_decide (is_Some (strstr uri (bs "://"))) && negb (starts_with URI_TCP uri) && negb (starts_with URI_WS uri)
      then MQTTCLIENT_BAD_PROTOCOL
      else match options with
           | Some (id, v, _) => if negb (starts_with (bs "MQCO") id) || negb (v =? 0) then MQTTCLIENT_BAD_STRUCTURE else MQTTCLIENT_SUCCESS
           | None => MQTTCLIENT_SUCCESS
           end
  | _, _ => MQTTCLIENT_NULL_PARAMETER
  end.

(** The structure before the persistence is opened; [version] is that of the
    options. *)
Definition new_client (uri : list Z) (version : Z) : client :=
  let '(uri, ws) := strip_scheme uri false in
  mkSync (mkClient 0 false false false 0 0 0 0 0 0 [] []) (mkLink NOT_IN_PROGRESS version false false 0 0) None ([], 0)
    (mkCallbacks 0 None None None None None) (mkHandoff false false false false 0 None) uri ws.

(** What is stored is restored: the messages in flight, then the queue.
    [created] is the answer of [MQTTPersistence_create]. *)
Definition restored (afterRead : option (list Z → Z * list Z)) (clientId : list Z) (created : Z * option S) (now : Z) (m : client)
    (s : shared (T := T)) : option (Z * client * shared (T := T)) :=
  if negb (created.1 =? 0) then Some (created.1, m, s)
  else
    match created.2 with
    | None => Some (0, m, s)
    | Some st =>
        '(rc, ((c, s), st)) ← MQTTPersistence_initialize afterRead now (MQTTVersion (link m)) true clientId (serverURI m) ((sc m, s), st);
        let m := with_store (with_sc m c) (Some st) in
        if rc =? 0 then
          '(_, q) ← MQTTPersistence_restoreMessageQueue afterRead true (messageQueue m) st;
          Some (rc, with_queue m q, s)
        else Some (rc, m, s)
    end.

Definition MQTTClient_createWithOptions (afterRead : option (list Z → Z * list Z)) (uri clientId : option (list Z))
    (persistence_type : Z) (created : Z * option S) (options : option (list Z * Z * Z)) : io (Z * option positive) :=
  let rc := create_error uri clientId persistence_type options in
  if negb (rc =? MQTTCLIENT_SUCCESS) then mret (rc, None)
  else
    u ← lift uri;
    id ← lift clientId;
    w ← the_world;
    let a := fresh (dom (structs w)) in
    let version := match options with Some (_, _, v) => v | None => MQTTVERSION_DEFAULT end in
    '(rc, m, s) ← lift (restored afterRead id created (clock w) (new_client u version) (sh w));
    put_clients (<[a := m]> (structs w)) (handles w ++ [a]);; put_shared s;;
    mret (rc, Some a).
Definition MQTTClient_create afterRead uri clientId persistence_type created : io (Z * option positive) :=
  MQTTClient_createWithOptions afterRead uri clientId persistence_type created None.

(** The last client stops the thread; no session is closed. *)
Definition MQTTClient_destroy (h : option positive) : io () :=
  match h with
  | None => mret ()
  | Some a =>
      m ← get_client a;
      w ← the_world;
      let s := sh w in
      '(_, pubs) ← lift (MQTTProtocol_freeClient (sc m) (publications s));
      put_clients (delete a (structs w)) (filter (λ b, b ≠ a) (handles w));;
      put_shared (mkShared pubs (pending_writes s) (msgs_sent s) (msgs_received s) (net s));;
      w ← the_world;
      if handles w then stop else mret ()
  end.
End Api.

(** ** Messages for the codes *)

(** The text of an unknown code is printed in a buffer of 30 bytes. *)
Definition MQTTClient_strerror (code : Z) : option (list Z) :=
  if code =? MQTTCLIENT_SUCCESS then Some (bs "Success")
  else if code =? MQTTCLIENT_FAILURE then Some (bs "Failure")
  else if code =? MQTTCLIENT_DISCONNECTED then Some (bs "Disconnected")
  else if code =? MQTTCLIENT_MAX_MESSAGES_INFLIGHT then Some (bs "Maximum in-flight messages amount reached")
  else if code =? MQTTCLIENT_BAD_UTF8_STRING then Some (bs "Invalid UTF8 string")
  else if code =? MQTTCLIENT_NULL_PARAMETER then Some (bs "Invalid (NULL) parameter")
  else if code =? MQTTCLIENT_TOPICNAME_TRUNCATED then Some (bs "Topic containing NULL characters has been truncated")
  else if code =? MQTTCLIENT_BAD_STRUCTURE then Some (bs "Bad structure")
  else if code =? MQTTCLIENT_BAD_QOS then Some (bs "Invalid QoS value")
  else if code =? -10 then Some (bs "SSL is not supported")
  else if code =? MQTTCLIENT_BAD_MQTT_VERSION then Some (bs "Unrecognized MQTT version")
  else if code =? MQTTCLIENT_BAD_PROTOCOL then Some (bs "Invalid protocol scheme")
  else if code =? MQTTCLIENT_BAD_MQTT_OPTION then Some (bs "Options for wrong MQTT version")
  else if code =? MQTTCLIENT_WRONG_MQTT_VERSION then Some (bs "Client created for another version of MQTT")
  else if code =? -17 then Some (bs "Zero length will topic on connect")
  else let s := bs "Unknown error code " ++ dec code in if len s <? 30 then Some s else None.
End SyncApi.
