(* ===== verification/SyncSpec.v ===== *)
(** * The synchronous client: what its calls promise (paho.mqtt.c/src/MQTTClient.c)

    A session is open or closed and never half open when a call returns; what a
    wait for a delivery tells; what becomes of a message that could not be
    written. *)
From S2P Require Import Prelude Libc Utf8 PacketCodec Props Packets SocketIO Protocol ProtocolSpec Persistence Connect.
From S2P Require Import AsyncCommands AsyncQueue AsyncConnect SocketSelect AsyncProcess AsyncApi SyncClient SyncApi.

Module SyncSpec.
Import Utf8 Libc Codecs Properties Packets SocketRead Protocol Persistence Connect SyncClient SyncApi.
Import AsyncQueue(link_state, mkLink, connect_state, MQTTVersion, cleansession, cleanstart, maxInflightMessages, sessionExpiry).
Import AsyncConnect(MQTTVERSION_DEFAULT, strip_scheme).
Import AsyncProcess(Closing, close_socket, set_line, untouched, session_present, codes_of).



Section Spec.
Context {S T : Type} `{!Store S, !Transport T, !Closing T}.
Context (beforeWrite : option (list (list Z) → Z * list (list Z))).
Context (persistence_remove : bool → Z → Z → Z).
Context (taken : list Z → MQTTPersistence_message → bool).
Context (proxy_env : option (list Z)).
Context (answers : list Z → Z → Z → attempt).
Abbreviation client := (MQTTClients S).
Abbreviation world := (world (S := S) (T := T)).
Abbreviation io := (io (S := S) (T := T)).

Section Client.
Context (a : positive).
Implicit Types (w : world) (m : client).

(** ** What holds of the connection of a client *)

(** [P] is about the flag, the socket and the state of the connection. *)
Definition has (P : bool → Z → Z → Prop) (m : client) : Prop := P (connected (sc m)) (socket (sc m)) (connect_state (link m)).
Definition holds (P : bool → Z → Z → Prop) (w : world) : Prop := ∃ m, structs w !! a = Some m ∧ has P m.
Definition keeps (P : bool → Z → Z → Prop) {A} (f : io A) : Prop := triple (holds P) f (λ _, holds P).
Definition shut : bool → Z → Z → Prop := λ c s st, c = false ∧ s ≤ 0 ∧ st = NOT_IN_PROGRESS.
Definition online : bool → Z → Z → Prop := λ c _ _, c = true.
Definition waiting (states : list Z) : bool → Z → Z → Prop := λ _ _ st, st ∈ states.

Section Keeps.
Context (P : bool → Z → Z → Prop).

Lemma has_ret {A} (r : A) : keeps P (mret r).
Proof. by apply triple_ret. Qed.
Lemma has_lift {A} (o : option A) : keeps P (lift o).
Proof. by apply triple_lift. Qed.
Lemma has_emits ev : keeps P (emits ev).
Proof. by apply triple_emits. Qed.
Lemma has_bind {A B} (f : io A) (g : A → io B) : keeps P f → (∀ r, keeps P (g r)) → keeps P (f ≫= g).
Proof. intros Hf Hg. eapply triple_bind; [apply Hf|]. intros r. apply Hg. Qed.
Lemma has_lift_bind {A B} (o : option A) (g : A → io B) : (∀ x, o = Some x → keeps P (g x)) → keeps P (lift o ≫= g).
Proof.
  intros H w r w' ev E. unfold lift, mbind, emitting_bind in E. destruct o as [x|]; [|done].
  destruct (g x w) as [[[y w1] ev1]|] eqn:E1; [|done]. injection E as -> -> <-. by eapply H.
Qed.
Lemma has_same {A} (f : io A) : (∀ w r w' ev, f w = Some (r, w', ev) → structs w' = structs w) → keeps P f.
Proof. intros H w r w' ev E. apply H in E. unfold holds. by rewrite E. Qed.
Lemma has_the_world : keeps P the_world.
Proof. apply has_same. by intros w r w' ev [= <- <- <-]. Qed.
Lemma has_get b : keeps P (get_client b).
Proof. intros w. apply has_lift. Qed.
Lemma has_put_shared s : keeps P (put_shared s).
Proof. apply has_same. by intros w r w' ev [= <- <- <-]. Qed.
Lemma has_put_thread r s : keeps P (put_thread r s).
Proof. apply has_same. by intros w r' w' ev [= <- <- <-]. Qed.
Lemma has_put_retry r s : keeps P (put_retry r s).
Proof. apply has_same. by intros w r' w' ev [= <- <- <-]. Qed.
Lemma has_put_clock t : keeps P (put_clock t).
Proof. apply has_same. by intros w r' w' ev [= <- <- <-]. Qed.
Lemma has_next_turn : keeps P next_turn.
Proof. apply has_same. intros w r w' ev. unfold next_turn. destruct (turns w); [done|]. by intros [= <- <- <-]. Qed.
Lemma has_find_socket sock : keeps P (find_socket sock).
Proof. apply has_same. by intros w r w' ev [= <- <- <-]. Qed.
Lemma has_elapsed start : keeps P (MQTTTime_elapsed start).
Proof. apply has_same. by intros w r w' ev [= <- <- <-]. Qed.
Lemma has_each {A} (f : A → io ()) l : (∀ x, keeps P (f x)) → keeps P (each f l).
Proof. intros H. apply triple_each. intros x _. apply H. Qed.
Lemma has_while {A B} (body : A → io (A + B)) x : (∀ y, keeps P (body y)) → keeps P (while_turns body x).
Proof.
  intros H. unfold while_turns. apply has_bind; [apply has_the_world|]. intros w.
  apply (triple_iterate (λ _, holds P) (λ _, holds P)). intros y. apply (triple_conseq _ _ _ _ _ (H y)); [done|]. by intros [].
Qed.

(** The client itself may be changed in a way that keeps [P], another one in any
    way. *)
Lemma has_put b m : (b = a → has P m) → keeps P (put_client b m).
Proof.
  intros H w r w' ev [= <- <- <-] (m0 & Hm & Hs). unfold holds. cbn. destruct (decide (b = a)) as [->|Hne].
  - exists m. rewrite lookup_insert_eq. split; [done|]. by apply H.
  - exists m0. rewrite lookup_insert_ne by done. by split.
Qed.
Lemma has_update {A} b (f : client → option (A * client)) :
  (∀ m r m', f m = Some (r, m') → b = a → has P m → has P m') → keeps P (update b f).
Proof.
  intros H w r w' ev E (m0 & Hm & Hs).
  unfold update, get_client, put_client, lift, mbind, emitting_bind, mret, emitting_ret in E.
  destruct (structs w !! b) as [m|] eqn:Eb; [|done]. destruct (f m) as [[x m']|] eqn:Ef; [|done]. cbn in E. injection E as <- <- <-.
  unfold holds. cbn. destruct (decide (b = a)) as [->|Hne].
  - exists m'. rewrite lookup_insert_eq. split; [done|]. rewrite Hm in Eb. injection Eb as <-. by eapply H.
  - exists m0. rewrite lookup_insert_ne by done. by split.
Qed.
Lemma has_on_struct b (f : client → client) : (∀ m, b = a → has P m → has P (f m)) → keeps P (on_struct b f).
Proof. intros H. apply has_update. intros m r m' [= <- <-]. apply H. Qed.

(** An operation that reads the client, and the state, before it writes them. *)
Lemma has_get_client {A} b (f : client → io A) :
  (b ≠ a → ∀ m, keeps P (f m)) → (b = a → ∀ m, has P m → keeps P (f m)) → keeps P (m ← get_client b; f m).
Proof.
  intros Hne He w r w' ev E Hc. unfold get_client, lift, mbind, emitting_bind in E.
  destruct (structs w !! b) as [m|] eqn:Hm; [|done].
  destruct (f m w) as [[[r1 w1] ev1]|] eqn:E1; [|done]. injection E as -> -> <-.
  destruct (decide (b = a)) as [->|Hb]; [|by eapply Hne].
  eapply (He eq_refl m); [|done|done]. destruct Hc as (m' & Hm' & Hs). by rewrite Hm in Hm'; injection Hm' as ->.
Qed.
Lemma has_read {A} b (f : client → world → io A) :
  (b ≠ a → ∀ m w, keeps P (f m w)) → (b = a → ∀ m w, has P m → keeps P (f m w)) →
  keeps P (m ← get_client b; w ← the_world; f m w).
Proof.
  intros Hne He. apply has_get_client.
  - intros Hb m. apply has_bind; [apply has_the_world|]. by apply Hne.
  - intros Hb m Hm. apply has_bind; [apply has_the_world|]. intros w. by apply He.
Qed.
End Keeps.

Hint Resolve has_ret has_lift has_emits has_the_world has_get has_put_shared has_put_thread has_put_retry
  has_put_clock has_next_turn has_find_socket has_elapsed has_each has_while : keeps.
Hint Extern 3 (keeps _ (on_struct _ _)) =>
  apply has_on_struct; intros; first [assumption | unfold has, shut, online, waiting in *; cbn in *; naive_solver] : keeps.

(** Along the statements and the tests of a function. *)
Ltac stays :=
  cbv beta zeta;
  try lazymatch goal with |- triple (holds ?P) ?f _ => change (keeps P f) end;
  lazymatch goal with
  | |- keeps _ ?f =>
      first [solve [eauto with keeps]
            |lazymatch f with
             | _ ≫= _ => apply has_bind; [stays | intros ?; stays]
             | match ?e with _ => _ end => destruct e; stays
             end]
  end.

Lemma has_cleanSession P b : keeps P (MQTTClient_cleanSession b).
Proof.
  unfold MQTTClient_cleanSession. apply has_bind.
  { apply has_update. intros m r m'. destruct (store m); [destruct (MQTTPersistence_clear _ _)|]; by intros [= <- <-]. }
  intros rc. stays.
Qed.
Create HintDb keeps.
Hint Resolve has_cleanSession : keeps.

(** ** A client that is closed stays closed *)

Lemma closed_find sock : triple (holds shut) (find_socket sock) (λ o w, holds shut w ∧ (0 < sock → o ≠ Some a)).
Proof.
  intros w o w' ev [= <- <- <-] Hc. split; [done|]. intros Hs Ho. apply find_some in Ho as [_ Ho].
  destruct Hc as (m & Hm & _ & Hsock & _). rewrite Hm in Ho. apply Z.eqb_eq in Ho. lia.
Qed.

Lemma closed_processPublication b p : keeps shut (Protocol_processPublication beforeWrite b p).
Proof.
  unfold Protocol_processPublication. apply has_bind; [stays|]. intros msg. apply has_update. intros m r m'.
  unfold persist_entry. destruct (store m) as [st|]; [|intros [= <- <-] _; done].
  destruct (MQTTPersistence_persistQueueEntry _ _ _ _ _ _) as [[[[]]]|]; [|done]. cbn [mbind option_bind]. intros [= <- <-] _. done.
Qed.
Hint Resolve closed_processPublication : keeps.
Lemma closed_deliver b d v ps ev : keeps shut (deliver beforeWrite b d v ps ev).
Proof. induction ev as [|e ev IH]; cbn [deliver]; [stays|]. destruct e; stays. Qed.
Hint Resolve closed_deliver : keeps.

(** The protocol works on another client. *)
Lemma closed_on_protocol {A} b d v ps (h : Protocol.proto (T := T) A) : b ≠ a → keeps shut (on_protocol beforeWrite b d v ps h).
Proof.
  intros Hne. unfold on_protocol. do 3 (apply has_bind; [stays|]; intros ?). destruct r1 as [[x [c s]] ev].
  apply has_bind; [by apply has_put|]. intros _. stays.
Qed.
Lemma closed_quietly {A} b (h : Protocol.proto (T := T) A) : b ≠ a → keeps shut (quietly beforeWrite b h).
Proof. apply closed_on_protocol. Qed.
Hint Resolve closed_on_protocol closed_quietly : keeps.


Lemma closed_ask_stop : keeps shut ask_stop.
Proof. unfold ask_stop. stays. Qed.
Hint Resolve closed_ask_stop : keeps.

(** Whatever the client was. *)
Lemma on_struct_holds P f : (∀ m, has P (f m)) → triple (λ _, True) (on_struct a f) (λ _, holds P).
Proof.
  intros H w r w' ev E _. unfold on_struct, update, get_client, put_client, lift, mbind, emitting_bind, mret, emitting_ret in E.
  destruct (structs w !! a) as [m|]; [|done]. cbn in E. injection E as <- <- <-. exists (f m). cbn.
  rewrite lookup_insert_eq. split; [done|]. apply H.
Qed.
Lemma closeSession_closes reason ps : triple (λ _, True) (MQTTClient_closeSession beforeWrite a reason ps) (λ _, holds shut).
Proof.
  unfold MQTTClient_closeSession. apply triple_after. intros w. apply triple_after. intros m. do 2 (apply triple_after; intros []).
  eapply triple_bind.
  - apply (on_struct_holds shut). intros m1. split; [done|]. split; [|done]. cbn. destruct (Z.ltb_spec 0 (socket (sc m))); lia.
  - intros []. stays.
Qed.
Lemma closed_closeSession b reason ps : keeps shut (MQTTClient_closeSession beforeWrite b reason ps).
Proof.
  destruct (decide (b = a)) as [->|Hne]; [apply (triple_conseq _ _ _ _ _ (closeSession_closes reason ps)); done|].
  unfold MQTTClient_closeSession. do 2 (apply has_bind; [stays|]; intros ?).
  do 2 (apply has_bind; [stays|]; intros ?). apply has_bind; [|intros []; stays].
  apply has_on_struct. done.
Qed.
Hint Resolve closed_closeSession : keeps.

Lemma closed_set_disconnecting b : keeps shut (set_disconnecting b).
Proof. apply has_on_struct. intros m _ (Hc & ? & ?). rewrite Hc. done. Qed.
Hint Resolve closed_set_disconnecting : keeps.

(** [MQTTClient_disconnect1] after the wait, with a stop that keeps what is closed. *)
Lemma disconnect_now_closes lost stop reason ps was : keeps shut stop →
  triple (λ _, True) (disconnect_now beforeWrite a lost stop reason ps was) (λ _, holds shut).
Proof. intros Hs. unfold disconnect_now. eapply triple_bind; [apply closeSession_closes|]. intros []. stays. Qed.
Lemma closed_disconnect_now b lost stop reason ps was : keeps shut stop → keeps shut (disconnect_now beforeWrite b lost stop reason ps was).
Proof. intros Hs. unfold disconnect_now. stays. Qed.
Hint Resolve closed_disconnect_now : keeps.
Lemma closed_disconnect_at_once stop b : keeps shut stop → keeps shut (disconnect_at_once beforeWrite stop b).
Proof. intros Hs. unfold disconnect_at_once. stays. Qed.
Lemma closed_stop_in_cycle : keeps shut stop_in_cycle.
Proof. unfold stop_in_cycle. stays. Qed.
Hint Resolve closed_disconnect_at_once closed_stop_in_cycle : keeps.

(** ** A cycle *)

Lemma keepalive_shut now c (t : T) : connected c = false → (keepalive_client now c t).1.1 = c.
Proof. intros H. unfold keepalive_client. by rewrite H. Qed.

Lemma closed_keepalive stop b : keeps shut stop → keeps shut (keepalive_handle beforeWrite stop b).
Proof.
  intros Hs. apply has_read.
  - intros Hne m w. destruct (keepalive_client _ _ _) as [[c t] ev1]. apply has_bind; [by apply has_on_struct|]. intros _. stays.
  - intros -> m w Hsh. pose proof (keepalive_shut (clock w) (sc m) (net (sh w)) (proj1 Hsh)) as Hk.
    destruct (keepalive_client _ _ _) as [[c t] ev1]. cbn in Hk. subst c. stays.
Qed.
Lemma retry_shut now dr re pubs c (t : T) cs t' ev : connected c = false →
  MQTTProtocol_retry now dr re pubs [c] t = Some (cs, t', ev) → cs = [c].
Proof. intros H. cbn. rewrite H. cbn. by intros [= <- _ _]. Qed.
Lemma closed_retry_handle stop dr re b : keeps shut stop → keeps shut (retry_handle beforeWrite stop dr re b).
Proof.
  intros Hs. apply has_read.
  - intros Hne m w. apply has_bind; [stays|]. intros [[cs t] ev1]. apply has_bind; [by apply has_on_struct|]. intros _. stays.
  - intros -> m w Hsh. apply has_lift_bind. intros [[cs t] ev1] Hr.
    apply (retry_shut _ _ _ _ _ _ _ _ _ (proj1 Hsh)) in Hr as ->. cbn [default head]. stays.
Qed.
Hint Resolve closed_keepalive closed_retry_handle : keeps.
Lemma closed_retry : keeps shut (MQTTClient_retry beforeWrite).
Proof. unfold MQTTClient_retry. stays. Qed.
Hint Resolve closed_retry : keeps.

Lemma closed_writeComplete sock : keeps shut (MQTTClient_writeComplete sock).
Proof. unfold MQTTClient_writeComplete, MQTTProtocol_checkPendingWrites. stays. Qed.
Hint Resolve closed_writeComplete : keeps.

(** A packet is read from the socket of another client. *)
Lemma closed_handle_packet b p rc : b ≠ a → keeps shut (handle_packet beforeWrite persistence_remove b p rc).
Proof. intros Hne. unfold handle_packet. stays. Qed.
Lemma closed_cycle rc : keeps shut (MQTTClient_cycle beforeWrite persistence_remove rc).
Proof.
  unfold MQTTClient_cycle. apply has_bind; [stays|]. intros t. apply has_bind; [stays|]. intros [].
  apply has_bind; [|intros [pack rc']; stays].
  destruct (Z.ltb_spec 0 (t_sock t)) as [Ht|]; [|stays].
  eapply triple_bind; [apply closed_find|]. intros o. destruct (decide (o = Some a)) as [->|Hne].
  { intros w r w' ev _ [_ []]. lia. done. }
  apply (triple_conseq (holds shut) _ (λ _, holds shut)); [|by intros w []|done].
  assert (∀ b p rc, o = Some b → keeps shut (handle_packet beforeWrite persistence_remove b p rc)).
  { intros b p rc' ->. apply closed_handle_packet. by intros ->. }
  destruct o as [b|]; [|stays]. pose proof (λ p rc, H b p rc eq_refl). stays.
Qed.
Hint Resolve closed_cycle : keeps.
(** ** The callback thread and the waits *)

Lemma closed_set_sem b type v : keeps shut (on_struct b (set_sem type v)).
Proof. apply has_on_struct. intros m _ H. done. Qed.
Lemma closed_post b type : keeps shut (post b type).
Proof. apply closed_set_sem. Qed.
Lemma closed_own_sleep ms : keeps shut (own_sleep ms).
Proof. unfold own_sleep. stays. Qed.
Hint Resolve closed_set_sem closed_post closed_own_sleep : keeps.

Lemma closed_run_arrived b rc : keeps shut (run_arrived taken b rc).
Proof.
  unfold run_arrived. apply has_bind; [stays|]. intros m. destruct (messageQueue m).1 as [|qe rest]; [stays|].
  destruct (ma (calls m)); [|stays]. apply has_bind; [stays|]. intros []. destruct (taken _ _); [|stays].
  apply has_bind; [|intros []; stays]. apply has_update. intros m1 r m'. unfold unpersist_entry.
  destruct (store m1) as [st|]; cbn [mbind option_bind]; [|by intros [= <- <-]].
  destruct (MQTTPersistence_unpersistQueueEntry _ _ _) as [[]|]; [|done]. by intros [= <- <-].
Qed.
Lemma closed_run_failed b : keeps shut (run_failed beforeWrite b).
Proof. unfold run_failed, disconnect_in_cycle. stays. Qed.
Lemma closed_disconnect_in_thread b timeout : keeps shut (disconnect_in_thread beforeWrite b timeout).
Proof. unfold disconnect_in_thread. stays. Qed.
Hint Resolve closed_run_arrived closed_run_failed closed_disconnect_in_thread : keeps.
Lemma closed_run_packet b p : keeps shut (run_packet beforeWrite b p).
Proof. unfold run_packet. stays. Qed.
Lemma closed_run_connecting b rc error : keeps shut (run_connecting b rc error).
Proof.
  unfold run_connecting. apply has_get_client.
  - intros Hne m. stays.
  - intros -> m (_ & _ & ->). apply has_ret.
Qed.
Hint Resolve closed_run_packet closed_run_connecting : keeps.
Lemma closed_run_turn : keeps shut (MQTTClient_run_turn beforeWrite persistence_remove taken).
Proof. unfold MQTTClient_run_turn, thread_ends. stays. Qed.
Hint Resolve closed_run_turn : keeps.

Lemma closed_app_sleep ms : keeps shut (app_sleep beforeWrite persistence_remove taken ms).
Proof. unfold app_sleep. apply has_bind; [stays|]. intros w. apply has_while. intros []. stays. Qed.
Hint Resolve closed_app_sleep : keeps.
Lemma closed_yield : keeps shut (MQTTClient_yield beforeWrite persistence_remove taken).
Proof.
  unfold MQTTClient_yield. apply has_bind; [stays|]. intros w. destruct (running w); [stays|].
  apply has_while. intros rc. unfold disconnect_in_cycle. stays.
Qed.
Lemma closed_stop : keeps shut (MQTTClient_stop beforeWrite persistence_remove).
Proof. unfold MQTTClient_stop, thread_ends. stays. Qed.
Hint Resolve closed_yield closed_stop : keeps.

Lemma disconnect1_closes timeout lost (stop : bool) reason ps :
  triple (λ _, True) (MQTTClient_disconnect1 beforeWrite persistence_remove taken a timeout lost stop reason ps)
    (λ r w, r = MQTTCLIENT_SUCCESS ∧ holds shut w).
Proof.
  unfold MQTTClient_disconnect1. apply triple_after. intros m. apply triple_after. intros w. do 2 (apply triple_after; intros []).
  eapply triple_bind; [apply disconnect_now_closes; destruct stop; stays|]. intros []. by apply triple_ret.
Qed.

(** ** Connecting: a session or nothing *)

Lemma get_then {A} P (g : client → io A) Q :
  (∀ m, triple (λ w, P w ∧ structs w !! a = Some m) (g m) Q) → triple P (get_client a ≫= g) Q.
Proof.
  intros H. eapply triple_bind; [|apply H]. intros w m w' ev E HP. unfold get_client, lift in E.
  destruct (structs w !! a) eqn:Hm; [|done]. by injection E as <- <- _.
Qed.
Lemma lift_then {A B} P (o : option A) (g : A → io B) Q : (∀ x, o = Some x → triple P (g x) Q) → triple P (lift o ≫= g) Q.
Proof.
  intros H w r w' ev E. unfold lift, mbind, emitting_bind in E. destruct o as [x|]; [|done].
  destruct (g x w) as [[[y w1] ev1]|] eqn:E1; [|done]. injection E as -> -> <-. by eapply H.
Qed.
Lemma has_when_then {A B} (b : Prop) P (f : io A) (g : A → io B) Q :
  keeps P f → (∀ r, triple (λ w, b → holds P w) (g r) Q) → triple (λ w, b → holds P w) (f ≫= g) Q.
Proof. intros Hf Hg. eapply triple_bind; [|apply Hg]. intros w r w' ev E H Hb. eapply Hf; [done|]. by apply H. Qed.
Lemma has_then {A B} P (f : io A) (g : A → io B) Q : keeps P f → (∀ r, triple (holds P) (g r) Q) → triple (holds P) (f ≫= g) Q.
Proof. apply triple_bind. Qed.
Lemma struct_then {A} P R f (g : () → io A) Q :
  (∀ m, has P (f m)) → triple (holds P) (g ()) Q → triple R (on_struct a f ≫= g) Q.
Proof.
  intros Hf Hg. apply (triple_bind _ _ (λ _, holds P)); [|by intros []]. apply (triple_conseq _ _ _ R _ (on_struct_holds P f Hf)); done.
Qed.

(** A connection of which the CONNECT is sent. *)
Notation sent := (waiting [WAIT_FOR_CONNACK]).

Lemma session_starts_online : triple (λ _, True) (session_starts beforeWrite persistence_remove a) (λ rc w, rc = 0 → holds online w).
Proof.
  unfold session_starts. apply (struct_then online); [done|]. apply has_then; [stays|]. intros m1.
  apply has_then; [stays|]. intros rc. apply has_then; [stays|]. intros m2. apply triple_if; intros _.
  - apply triple_after. intros []. apply triple_after. intros w. apply triple_after. intros [].
    apply get_then. intros m. apply triple_ret. intros w0 [_ Hm]. destruct (connected (sc m)) eqn:Hc; [|done].
    intros _. by exists m.
  - by apply triple_ret.
Qed.
Lemma wait_connack_online version rc start timeout :
  triple (λ w, rc = 0 → holds sent w) (wait_connack beforeWrite persistence_remove taken a version rc start timeout)
    (λ r w, r.1.1 = 0 → holds online w).
Proof.
  unfold wait_connack. apply get_then. intros m. apply triple_if; intros Hst.
  - apply triple_after. intros t. apply triple_after. intros [[p|] rc1]; [|by apply triple_ret]. destruct p as [p| | | | |]; try done.
    apply triple_if; intros Hp; [|apply triple_after; intros []; apply triple_ret; intros w _ ; cbn; intros H; rewrite H in Hp; done].
    apply (triple_bind _ _ (λ rc w, rc = 0 → holds online w));
      [by apply (triple_conseq _ _ _ _ _ session_starts_online)|]. intros rc2.
    do 3 (apply has_when_then; [stays|]; intros ?). by apply triple_ret.
  - apply triple_ret. cbn. intros w [Hs Hm] ->. destruct (Hs eq_refl) as (m' & Hm' & Hw). rewrite Hm in Hm'. injection Hm' as <-.
    apply list_elem_of_singleton in Hw. rewrite Hw in Hst. done.
Qed.

Lemma start_connect_sent uri x timeout :
  triple (λ _, True) (start_connect proxy_env a uri x timeout) (λ rc w, rc = 0 → holds sent w).
Proof.
  unfold start_connect. apply get_then. intros m. apply lift_then. intros [[rc state] calls] Hc.
  apply connect_outcome in Hc as (_ & Hst & _). apply (triple_bind _ _ (λ _ w, rc = 0 → holds sent w)).
  2: { intros []. apply has_when_then; [stays|]. intros []. by apply triple_ret. }
  intros w r w' ev E _ Hrc. eapply (on_struct_holds sent); [|exact E|done].
  intros m1. unfold has, waiting. cbn. rewrite Hst by done. by left.
Qed.
Lemma send_connect_sent x : triple (λ _, True) (send_connect a x) (λ _, holds sent).
Proof.
  unfold send_connect. apply (struct_then sent); [intros m; by left|]. stays.
Qed.
(** A step that does not end the attempt leaves the CONNECT sent, or the web
    socket to be upgraded first. *)
Notation upgrading := (waiting [WAIT_FOR_CONNACK; WEBSOCKET_IN_PROGRESS]).
Lemma tcp_connected_sent uri x rc start timeout :
  triple (λ w, rc = 0 → holds sent w) (tcp_connected beforeWrite persistence_remove taken a uri x rc start timeout)
    (λ r w, match r with Some rc' => rc' ≠ 0 | None => rc = 0 → holds upgrading w end).
Proof.
  unfold tcp_connected. apply get_then. intros m. apply triple_if; intros Hst.
  - apply triple_after. intros t. apply triple_after. intros [p rc1]. apply triple_if; intros Hrc; [by apply triple_ret|].
    apply triple_after. intros m1. apply triple_if; intros Hw.
    + apply triple_after. intros []. apply triple_if; intros _; [by apply triple_ret|].
      apply (struct_then upgrading); [intros m2; right; left|]. apply has_then; [stays|]. intros [].
      apply triple_ret. intros w Hw1. destruct (at_websocket x =? SOCKET_ERROR); done.
    + apply (triple_bind _ _ (λ _, holds sent)); [by apply (triple_conseq _ _ _ _ _ (send_connect_sent x))|]. intros sent1.
      apply triple_ret. intros w (m2 & Hm2 & Hs). destruct (sent1 =? SOCKET_ERROR); [done|]. intros _. exists m2. split; [done|].
      apply list_elem_of_singleton in Hs. unfold has, waiting. rewrite Hs. by left.
  - apply triple_ret. intros w [Hs Hm] H0. destruct (Hs H0) as (m2 & Hm2 & Hw). exists m2. split; [done|].
    apply list_elem_of_singleton in Hw. unfold has, waiting. rewrite Hw. by left.
Qed.
Lemma websocket_connected_sent x rc start timeout :
  triple (λ w, rc = 0 → holds upgrading w) (websocket_connected beforeWrite persistence_remove taken a x rc start timeout)
    (λ r w, match r with Some rc' => rc' ≠ 0 | None => rc = 0 → holds sent w end).
Proof.
  unfold websocket_connected. apply get_then. intros m. apply triple_if; intros Hst.
  - apply triple_after. intros t. apply triple_after. intros _.
    apply (triple_bind _ _ (λ _, holds sent)); [by apply (triple_conseq _ _ _ _ _ (send_connect_sent x))|]. intros sent1.
    apply triple_ret. intros w Hs. by destruct (sent1 =? SOCKET_ERROR).
  - apply triple_ret. intros w [Hs Hm] H0. destruct (Hs H0) as (m2 & Hm2 & Hw). rewrite Hm in Hm2. injection Hm2 as <-.
    exists m. split; [done|]. unfold has, waiting in *. apply elem_of_cons in Hw as [->|Hw]; [by left|].
    apply list_elem_of_singleton in Hw. by rewrite Hw in Hst.
Qed.
Lemma connect_steps_online uri version start timeout :
  triple (λ _, True) (connect_steps beforeWrite persistence_remove taken proxy_env answers a uri version start timeout)
    (λ r w, r.1.1 = 0 → holds online w).
Proof.
  unfold connect_steps. apply triple_after. intros late. apply triple_if; intros _; [by apply triple_ret|].
  apply triple_after. intros w. apply triple_after. intros t.
  apply (triple_bind _ _ (λ rc w, rc = 0 → holds sent w)); [apply start_connect_sent|]. intros rc. cbv beta.
  apply has_when_then; [stays|]. intros m. apply triple_if; intros _; [by apply triple_ret|].
  eapply triple_bind; [apply tcp_connected_sent|]. intros [rc'|]; [by apply triple_ret|]. cbv beta iota.
  eapply triple_bind; [apply websocket_connected_sent|]. intros [rc'|]; [by apply triple_ret|]. apply wait_connack_online.
Qed.

(** The outcome of a connection with the options [o]. *)
Definition settled (o : connectOptions) (r : MQTTResponse * returned) (w : world) : Prop :=
  if reasonCode r.1 =? MQTTCLIENT_SUCCESS
  then holds online w ∧ (4 ≤ co_version o → ∃ uri v present, r.2 = Some (uri, v, present) ∧ v ∈ versions o)
  else holds shut w ∧ r.2 = None.

Lemma connectURIVersion_settled o uri v start timeout : v ∈ versions o →
  triple (λ _, True) (MQTTClient_connectURIVersion beforeWrite persistence_remove taken proxy_env answers a o uri v start timeout) (settled o).
Proof.
  intros Hv. unfold MQTTClient_connectURIVersion.
  apply (triple_bind _ _ (λ r w, r.1.1 = 0 → holds online w)); [apply connect_steps_online|]. intros [[rc present] props]. cbn [fst snd].
  apply triple_if; intros Hrc.
  - apply triple_ret. intros w Hw. unfold settled. cbn [reasonCode fst snd]. rewrite Hrc. apply Z.eqb_eq in Hrc. split; [by apply Hw|].
    intros H4. rewrite (proj2 (Z.leb_le _ _) H4). eauto.
  - apply (triple_bind _ _ (λ r w, r = MQTTCLIENT_SUCCESS ∧ holds shut w)).
    { by apply (triple_conseq _ _ _ _ _ (disconnect1_closes 0 false (v =? 3) MQTTREASONCODE_SUCCESS None)). }
    intros x. apply triple_ret. intros w [_ Hw]. unfold settled. cbn [reasonCode fst snd]. by rewrite Hrc.
Qed.
Lemma try_versions_settled o uri start timeout l r : (∀ v, v ∈ l → v ∈ versions o) →
  triple (λ w, l = [] → settled o r w) (try_versions beforeWrite persistence_remove taken proxy_env answers a o uri start timeout l r) (settled o).
Proof.
  revert r. induction l as [|v l IH]; intros r Hl; cbn [try_versions]; [apply triple_ret; auto|].
  apply (triple_bind _ _ (settled o)).
  { apply (triple_conseq _ _ _ _ _ (connectURIVersion_settled o uri v start timeout (Hl v (list_elem_of_here _ _)))); done. }
  intros r'. apply triple_if; intros _; [by apply triple_ret|].
  apply (triple_conseq _ _ _ _ _ (IH r' (λ v' H, Hl v' (list_elem_of_further _ _ _ H)))); auto.
Qed.
Lemma connectURI_settled o uri :
  triple (λ _, True) (MQTTClient_connectURI beforeWrite persistence_remove taken proxy_env answers a o uri) (settled o).
Proof.
  unfold MQTTClient_connectURI. apply triple_after. intros t. apply triple_after. intros w. do 2 (apply triple_after; intros []).
  apply (triple_conseq _ _ _ _ _ (try_versions_settled o uri (clock w) t (versions o) _ (λ _ H, H))); [|done].
  intros w1 _ H. exfalso. revert H. unfold versions. destruct (_ =? MQTTVERSION_DEFAULT); done.
Qed.
Lemma try_servers_settled o l r :
  triple (λ w, l = [] → settled o r w) (try_servers beforeWrite persistence_remove taken proxy_env answers a o l r) (settled o).
Proof.
  revert r. induction l as [|uri l IH]; intros r; cbn [try_servers]; [apply triple_ret; auto|].
  apply triple_after. intros m. destruct (strip_scheme uri (websocket m)) as [u ws]. apply triple_after. intros [].
  apply (triple_bind _ _ (settled o)); [apply connectURI_settled|].
  intros r'. apply triple_if; intros _; [by apply triple_ret|].
  apply (triple_conseq _ _ _ _ _ (IH r')); auto.
Qed.
Lemma receive_maximum_settled o r :
  triple (settled o r) (if reasonCode r.1 =? MQTTCLIENT_SUCCESS then SyncApi.receive_maximum a (r_properties r.1) else mret ()) (λ _, settled o r).
Proof.
  apply triple_if; intros Hr; [|by apply triple_ret]. unfold settled. rewrite Hr.
  intros w x w' ev E [Hon Hret]. split; [|done]. revert E Hon. generalize (r_properties r.1). intros ps. revert w x w' ev.
  change (keeps online (SyncApi.receive_maximum a ps)). unfold SyncApi.receive_maximum. destruct ps as [ps|]; [|stays].
  destruct (_ =? 1); [|stays]. apply has_bind; [stays|]. intros n. apply has_on_struct. intros m _ Hm. by destruct (_ <? _).
Qed.

(** ** What closing a session does *)

Definition wipes (m : client) : bool := (MQTTVersion (link m) <? MQTTVERSION_5) && cleansession (link m).
(** The messages in flight can be released: their publications are there. *)
Definition releasable (m : client) (w : world) : Prop :=
  is_Some (pubs ← MQTTProtocol_emptyMessageList (inboundMsgs (sc m)) (publications (sh w)); MQTTProtocol_emptyMessageList (outboundMsgs (sc m)) pubs).
(** The state with another client [a] and another shared state. *)
Definition replaced (w : world) (m : client) (s : shared (T := T)) : world :=
  mkWorld (<[a := m]> (structs w)) (handles w) s (running w) (tostop w) (last_retry w) (retryLoopInterval w) (clock w) (turns w).

Lemma runs_the_world w (Q : world → world → list sevent → Prop) : Q w w [] → runs the_world w Q.
Proof. done. Qed.
Lemma runs_put_shared w m s s' (Q : () → world → list sevent → Prop) :
  Q () (replaced w m s') [] → runs (put_shared s') (replaced w m s) Q.
Proof. done. Qed.
Lemma runs_put_client w m (Q : () → world → list sevent → Prop) : Q () (replaced w m (sh w)) [] → runs (put_client a m) w Q.
Proof. done. Qed.
Lemma runs_get w m Q : structs w !! a = Some m → Q m w [] → runs (get_client a) w Q.
Proof. intros H. unfold runs, get_client, lift. by rewrite H. Qed.
Lemma runs_update {A} (f : client → option (A * client)) w m x m' Q : structs w !! a = Some m → f m = Some (x, m') →
  Q x (replaced w m' (sh w)) [] → runs (update a f) w Q.
Proof.
  intros Hm Hf HQ. unfold update. apply runs_bind. apply (runs_get _ _ _ Hm). apply runs_bind. by apply (runs_lift _ _ _ _ Hf).
Qed.
Lemma runs_on_struct f w m Q : structs w !! a = Some m → Q () (replaced w (f m) (sh w)) [] → runs (on_struct a f) w Q.
Proof. intros Hm. by apply (runs_update _ _ _ () (f m) _ Hm). Qed.

Lemma replaced_lookup w m s : structs (replaced w m s) !! a = Some m.
Proof. apply lookup_insert_eq. Qed.
Lemma replaced_replaced w m s m' s' : replaced (replaced w m s) m' s' = replaced w m' s'.
Proof. unfold replaced. cbn. by rewrite insert_insert_eq. Qed.

Lemma cleanSession_runs w m : structs w !! a = Some m → releasable m w →
  runs (MQTTClient_cleanSession a) w (λ _ w' ev, ev = [] ∧ ∃ m' s', w' = replaced w m' s' ∧ net s' = net (sh w) ∧
    inboundMsgs (sc m') = [] ∧ outboundMsgs (sc m') = [] ∧ calls m' = calls m ∧
    has (λ c k st, c = connected (sc m) ∧ k = socket (sc m) ∧ st = connect_state (link m)) m').
Proof.
  intros Hm [pubs Hp]. unfold MQTTClient_cleanSession. apply runs_bind.
  assert (∃ rc m1, match store m with None => Some (0, m) | Some s => let '(rc, s) := MQTTPersistence_clear true s in Some (rc, with_store m (Some s)) end = Some (rc, m1) ∧
    sc m1 = sc m ∧ link m1 = link m ∧ calls m1 = calls m) as (rc & m1 & Hu & Hsc & Hl & Hk).
  { destruct (store m) as [st|]; [destruct (MQTTPersistence_clear true st)|]; eauto 7. }
  apply (runs_update _ _ _ _ _ _ Hm Hu). apply runs_bind. apply (runs_get _ m1); [apply replaced_lookup|]. apply runs_bind.
  apply runs_the_world. apply runs_bind. rewrite Hsc. apply (runs_lift _ _ _ _ Hp).
  apply runs_bind, runs_put_shared, runs_bind. apply (runs_on_struct _ _ m1); [apply replaced_lookup|]. rewrite replaced_replaced.
  apply runs_ret. split; [done|]. eexists _, _. split_and!; [reflexivity|done..|]. unfold has. cbn. by rewrite Hsc, Hl.
Qed.

Lemma quietly_runs now p w m : structs w !! a = Some m →
  runs (quietly beforeWrite a (Protocol.send (T := T) now (OPacket p))) w
    (λ _ w' _, ∃ l s', w' = replaced w (with_sc m (with_lastSent (sc m) l)) s' ∧ publications s' = publications (sh w)).
Proof.
  intros Hm. unfold quietly, on_protocol. apply runs_bind. apply (runs_get _ _ _ Hm). apply runs_bind, runs_the_world, runs_bind.
  unfold Protocol.send, send_on. destruct (send_packet _ _ _) as [rc t'] eqn:Hs. eapply runs_lift; [reflexivity|].
  cbv beta iota. apply runs_bind.
  apply runs_put_client. apply runs_bind, runs_put_shared, runs_bind, runs_emits, runs_bind. apply runs_ret, runs_ret.
  assert (∃ l, (if rc =? TCPSOCKET_COMPLETE then with_lastSent (sc m) now else sc m) = with_lastSent (sc m) l) as [l ->].
  { destruct (rc =? _); [by exists now|]. exists (lastSent (sc m)). by destruct (sc m). }
  by eexists l, _.
Qed.

(** The two lists of messages in flight. *)
Definition inflight (m : client) : list Messages * list Messages := (inboundMsgs (sc m), outboundMsgs (sc m)).
Lemma closeSession_runs reason ps w m : structs w !! a = Some m → (wipes m = true → releasable m w) →
  runs (MQTTClient_closeSession beforeWrite a reason ps) w (λ _ w' _, ∃ m' s', w' = replaced w m' s' ∧ has shut m' ∧ calls m' = calls m ∧
    inflight m' = (if wipes m then ([], []) else inflight m) ∧ (wipes m = false → publications s' = publications (sh w))).
Proof.
  intros Hm Hr. unfold MQTTClient_closeSession. apply runs_bind, runs_the_world, runs_bind. apply (runs_get _ _ _ Hm).
  apply runs_bind. apply (runs_on_struct _ _ _ _ Hm). apply runs_bind.
  match goal with |- context [replaced w ?x _] => set (m1 := x) end.
  apply (runs_mono _ _ (λ _ w1 _, ∃ l s', w1 = replaced w (with_sc m1 (with_lastSent (sc m1) l)) s' ∧ publications s' = publications (sh w))).
  { assert (Hid : with_sc m1 (with_lastSent (sc m1) (lastSent (sc m1))) = m1) by (destruct m1 as [[]]; done).
    destruct (0 <? socket (sc m)).
    2: { apply runs_ret. exists (lastSent (sc m1)), (sh w). by rewrite Hid. }
    apply runs_bind. apply (runs_mono _ _ (λ _ w1 _, ∃ l s', w1 = replaced w (with_sc m1 (with_lastSent (sc m1) l)) s' ∧ publications s' = publications (sh w))).
    { destruct (connected (sc m)).
      - apply runs_bind. eapply runs_mono; [apply (quietly_runs _ _ _ m1); apply replaced_lookup|].
        intros _ w1 _ (l & s' & -> & Hp). apply runs_ret. exists l, s'. by rewrite replaced_replaced.
      - apply runs_ret. exists (lastSent (sc m1)), (sh w). by rewrite Hid. }
    intros _ w1 _ (l & s' & -> & Hp). apply runs_bind, runs_emits, runs_bind, runs_the_world, runs_put_shared. eauto. }
  intros _ w1 _ (l & s' & -> & Hp). apply runs_bind. apply (runs_on_struct _ _ _ _ (replaced_lookup _ _ _)). rewrite replaced_replaced.
  match goal with |- context [replaced w ?x _] => set (m2 := x) end.
  assert (Hs : has shut m2) by (split_and!; [done| |done]; cbn; destruct (Z.ltb_spec 0 (socket (sc m))); lia).
  fold (wipes m). destruct (wipes m) eqn:Hw.
  - destruct (Hr eq_refl) as [pubs Hpubs]. apply runs_bind. eapply runs_mono.
    { apply (cleanSession_runs _ m2); [apply replaced_lookup|]. exists pubs. cbn. by rewrite Hp. }
    intros _ w2 ev (_ & m3 & s3 & -> & _ & Hi & Ho & Hk & Hc & Hso & Hst). apply runs_ret. rewrite replaced_replaced.
    exists m3, s3. split_and!; [done| |done|unfold inflight; by rewrite Hi, Ho|done]. unfold has. by rewrite Hc, Hso, Hst.
  - apply runs_ret. by exists m2, s'.
Qed.

Lemma while_once {A B} (body : A → io (A + B)) x w (Q : B → world → list sevent → Prop) :
  runs (body x) w (λ r w' ev, ∃ y, r = inr y ∧ Q y w' ev) → runs (while_turns body x) w Q.
Proof.
  intros H. unfold while_turns. apply runs_bind, runs_the_world. cbn [iterate]. apply runs_bind.
  eapply runs_mono; [exact H|]. intros r w' ev (y & -> & Hy). apply runs_ret. by rewrite app_nil_r.
Qed.

(** Without a callback thread, or without a stop, a disconnection that waits for
    nothing returns. *)
Lemma disconnect1_runs lost (stop : bool) reason ps w m :
  structs w !! a = Some m → (wipes m = true → releasable m w) → (stop = true → running w = false) →
  runs (MQTTClient_disconnect1 beforeWrite persistence_remove taken a 0 lost stop reason ps) w (λ r w' _, r = MQTTCLIENT_SUCCESS ∧
    ∃ m' s', w' = replaced w m' s' ∧ has shut m' ∧ inflight m' = (if wipes m then ([], []) else inflight m) ∧
      (wipes m = false → publications s' = publications (sh w))).
Proof.
  intros Hm Hr Hstop. unfold MQTTClient_disconnect1. apply runs_bind. apply (runs_get _ _ _ Hm). apply runs_bind, runs_the_world, runs_bind.
  apply (runs_on_struct _ _ _ _ Hm). apply runs_bind.
  set (m1 := if connected (sc m) then set_state m DISCONNECTING else m).
  apply (runs_mono _ _ (λ _ w1 _, w1 = replaced w m1 (sh w))).
  { destruct (connected (sc m)); [|by apply runs_ret]. apply while_once. apply runs_bind, (runs_get _ m1); [apply replaced_lookup|].
    apply runs_bind. unfold MQTTTime_elapsed. apply runs_bind, runs_the_world, runs_ret.
    destruct (_ && _); [by apply runs_ret; eauto|]. unfold u64 at 1. cbn [Z.modulo].
    rewrite (proj2 (Z.leb_le _ _)); [apply runs_ret; eauto|]. unfold u64. apply Z.mod_pos_bound. lia. }
  intros _ w1 _ ->. apply runs_bind. unfold disconnect_now. apply runs_bind.
  assert (Hw : wipes m1 = wipes m) by (unfold m1; by destruct (connected (sc m))).
  assert (Hi : inflight m1 = inflight m) by (unfold m1; by destruct (connected (sc m))).
  eapply runs_mono; [apply (closeSession_runs _ _ _ m1); [apply replaced_lookup|]|].
  { rewrite Hw. intros H. specialize (Hr H). unfold releasable in *. unfold inflight in Hi. by injection Hi as -> ->. }
  intros _ w2 _ (m2 & s2 & -> & Hs & _ & Hi2 & Hp2). rewrite replaced_replaced. rewrite Hw, Hi in Hi2. rewrite Hw in Hp2. apply runs_bind.
  apply (runs_mono _ _ (λ _ w3 _, w3 = replaced w m2 s2)).
  { destruct stop; [|by apply runs_ret]. unfold MQTTClient_stop, ask_stop. apply runs_bind, runs_bind, runs_the_world.
    cbn [running replaced]. rewrite (Hstop eq_refl). by apply runs_ret, runs_ret. }
  intros _ w3 _ ->. apply runs_bind, (runs_get _ m2); [apply replaced_lookup|]. apply runs_emits, runs_ret. split; [done|]. by exists m2, s2.
Qed.
(** ** Waiting while the server is silent *)

(** No thread runs, and the only client is connected with nothing to send by
    itself; no socket is ready. *)
Definition idle (m : client) (w : world) : Prop :=
  running w = false ∧ handles w = [a] ∧ structs w !! a = Some m ∧
  keepAliveInterval (sc m) = 0 ∧ retryInterval (sc m) ≤ 0 ∧ connected (sc m) = true ∧ good (sc m) = true.
Definition quiet (t : turn (T := T)) : Prop := t_sock t ≤ 0 ∧ t_written t = [].
Definition rested (m : client) (w w' : world) : Prop := idle m w' ∧ turns w' = turns w ∧ clock w' = clock w.

Lemma rested_trans m w1 w2 w3 : rested m w1 w2 → rested m w2 w3 → rested m w1 w3.
Proof. intros (_ & H1 & H2) (? & H3 & H4). split; [done|]. by rewrite H3, H4. Qed.
Lemma rested_same m w s : idle m w → rested m w (replaced w (with_sc m (sc m)) s).
Proof.
  intros (Hr & Hh & Hm & Hi). split; [|done]. split; [done|]. split; [done|]. split; [|done].
  rewrite replaced_lookup. by destruct m.
Qed.
Lemma keepalive_rests stop m w : idle m w → runs (keepalive_handle beforeWrite stop a) w (λ _ w' _, rested m w w').
Proof.
  intros Hi. pose proof Hi as (Hr & Hh & Hm & Hk & _). unfold keepalive_handle. apply runs_bind, (runs_get _ _ _ Hm), runs_bind, runs_the_world.
  unfold keepalive_client. rewrite Hk, orb_true_r. apply runs_bind. apply (runs_on_struct _ _ _ _ Hm).
  apply runs_bind, runs_put_shared, runs_bind, runs_emits, runs_ret. by apply rested_same.
Qed.
Lemma retry_rests stop dr m w : idle m w → runs (retry_handle beforeWrite stop dr false a) w (λ _ w' _, rested m w w').
Proof.
  intros Hi. pose proof Hi as (Hr & Hh & Hm & Hk & Hre & Hc & Hg). unfold retry_handle.
  apply runs_bind, (runs_get _ _ _ Hm), runs_bind, runs_the_world, runs_bind.
  eapply (runs_lift _ ([sc m], _, [])).
  { cbn [MQTTProtocol_retry]. rewrite Hc, Hg. cbn [negb]. unfold MQTTProtocol_retries. cbn [negb]. rewrite (proj2 (Z.leb_le _ _) Hre). cbn [andb].
    destruct (negb _); [reflexivity|]. by destruct dr. }
  apply runs_bind. apply (runs_on_struct _ _ _ _ Hm). apply runs_bind, runs_put_shared, runs_bind, runs_emits, runs_ret. by apply rested_same.
Qed.
Lemma each_one {A} (f : A → io ()) x w (Q : () → world → list sevent → Prop) :
  runs (f x) w (λ _ w' ev, Q () w' ev) → runs (each f [x]) w Q.
Proof. intros H. apply runs_bind. eapply runs_mono; [exact H|]. intros [] w' ev HQ. apply runs_ret. by rewrite app_nil_r. Qed.
Lemma cycle_retry_rests m w : idle m w → runs (MQTTClient_retry beforeWrite) w (λ _ w' _, rested m w w').
Proof.
  intros Hi. pose proof Hi as (_ & Hh & _). unfold MQTTClient_retry. apply runs_bind, runs_the_world, runs_bind. rewrite Hh.
  apply (runs_mono _ _ (λ _ w' _, rested m w w')).
  - destruct (_ <? _); [|by apply runs_ret]. apply runs_bind. unfold runs at 1. cbn. apply each_one.
    set (w1 := mkWorld _ _ _ _ _ _ _ _ _). eapply runs_mono; [by apply (keepalive_rests _ m w1)|]. auto.
  - intros [] w1 ev1 Hw1. apply each_one. eapply runs_mono; [apply (retry_rests _ _ m); apply Hw1|].
    intros [] w2 ev2 Hw2. by eapply rested_trans.
Qed.
Lemma cycle_rests rc m w t ts : idle m w → turns w = t :: ts → quiet t →
  runs (MQTTClient_cycle beforeWrite persistence_remove rc) w
    (λ r w' _, r = (t, None, rc) ∧ idle m w' ∧ turns w' = ts ∧ clock w' = t_now t).
Proof.
  intros Hi Ht [Hs Hwr]. unfold MQTTClient_cycle. apply runs_bind. unfold runs, next_turn. rewrite Ht.
  set (w1 := mkWorld _ _ _ _ _ _ _ _ _). apply runs_bind. rewrite Hwr. apply runs_ret. apply runs_bind.
  rewrite (proj2 (Z.ltb_ge 0 _) Hs). apply runs_ret. apply runs_bind.
  eapply runs_mono; [by apply (cycle_retry_rests m w1)|]. intros _ w2 _ (Hw & Ht2 & Hc). apply runs_ret. done.
Qed.

(** The turns that are left are quiet and in the order of their times, before
    [limit]. *)
Fixpoint rising (now : Z) (l : list (turn (T := T))) : Prop :=
  match l with [] => True | t :: l' => now ≤ t_now t ∧ rising (t_now t) l' end.
Definition silent (limit : Z) (m : client) (w : world) : Prop :=
  idle m w ∧ Forall (λ t, quiet t ∧ t_now t < limit) (turns w) ∧ rising (clock w) (turns w) ∧ clock w < limit.
Definition reaches (d : Z) (w : world) : Prop := ∃ t, t ∈ turns w ∧ d ≤ t_now t.
(** Some turns are over. *)
Definition later (limit : Z) (m : client) (w w' : world) : Prop :=
  silent limit m w' ∧ clock w ≤ clock w' ∧ (length (turns w') < length (turns w))%nat ∧ ∀ d, clock w' < d → reaches d w → reaches d w'.

Lemma later_trans limit m w1 w2 w3 : later limit m w1 w2 → later limit m w2 w3 → later limit m w1 w3.
Proof.
  intros (_ & Hc1 & Hl1 & Hr1) (Hs & Hc2 & Hl2 & Hr2). split; [done|]. split; [lia|]. split; [lia|].
  intros d Hd Hr. apply Hr2; [done|]. apply Hr1; [lia|done].
Qed.
Lemma silent_cycle rc limit d m w : silent limit m w → reaches d w →
  runs (MQTTClient_cycle beforeWrite persistence_remove rc) w (λ r w' _, r.1.2 = None ∧ r.2 = rc ∧ later limit m w w').
Proof.
  intros (Hi & Hq & Hr & Hl) (t0 & Ht0 & _). destruct (turns w) as [|t ts] eqn:Ht; [by apply not_elem_of_nil in Ht0|].
  apply Forall_cons in Hq as [[Hq Hlt] Hqs]. destruct Hr as [Hct Hr].
  eapply runs_mono; [by apply (cycle_rests rc m w t ts)|]. intros r w' ev (-> & Hi' & Ht' & Hc'). split; [done|]. split; [done|].
  split; [|split; [by rewrite Hc'|split; [rewrite Ht, Ht'; cbn; lia|]]].
  - split; [done|]. rewrite Ht', Hc'. done.
  - intros d' Hd (t1 & Hin & Hd1). exists t1. rewrite Ht'. split; [|done]. rewrite Ht in Hin.
    apply elem_of_cons in Hin as [->|Hin]; [rewrite Hc' in Hd; lia|done].
Qed.
Lemma u64_elapsed start limit m w : silent limit m w → start ≤ clock w → limit ≤ start + 2 ^ 64 → u64 (clock w - start) = clock w - start.
Proof. intros (_ & _ & _ & Hl) Hs Hb. unfold u64. apply Z.mod_small. lia. Qed.

(** One step of a loop that ends when the clock has reached [d]. *)
Lemma silent_while {A B} (body : A → io (A + B)) (J : A → Prop) (Q : B → world → Prop) limit start d m :
  (∀ x w, J x → silent limit m w → reaches d w → start ≤ clock w →
     runs (body x) w (λ r w' _, later limit m w w' ∧ match r with inl x' => J x' ∧ clock w' < d | inr y => Q y w' end)) →
  ∀ fuel x w, (length (turns w) < fuel)%nat → J x → silent limit m w → reaches d w → start ≤ clock w →
    runs (iterate fuel body x) w (λ y w' _, later limit m w w' ∧ Q y w').
Proof.
  intros Hb. induction fuel as [|fuel IH]; intros x w Hf HJ Hs Hr Hst; [lia|]. cbn [iterate]. apply runs_bind.
  eapply runs_mono; [by apply Hb|]. intros [x'|y] w1 ev1 [Hl Hy]; [|by apply runs_ret]. destruct Hy as [HJ' Hd].
  pose proof Hl as (Hs1 & Hc1 & Hlen & Hr1). eapply runs_mono; [apply (IH x' w1); [lia|done|done|by apply Hr1|lia]|].
  intros y w2 ev2 [Hl2 HQ]. split; [by eapply later_trans|done].
Qed.
Lemma find_socket_runs sock w : runs (find_socket sock) w (λ o w' _, w' = w ∧ ∀ b, o = Some b → is_Some (structs w !! b)).
Proof.
  apply runs_bind, runs_the_world, runs_ret. split; [done|]. intros b Hb. apply find_some in Hb as [_ Hb]. by destruct (structs w !! b).
Qed.
Lemma yield_runs limit m w : silent limit m w → limit ≤ clock w + 2 ^ 64 → reaches (clock w + 100) w →
  runs (MQTTClient_yield beforeWrite persistence_remove taken) w (λ _ w' _, later limit m w w' ∧ clock w + 100 ≤ clock w').
Proof.
  intros Hs Hb Hr. unfold MQTTClient_yield. apply runs_bind, runs_the_world. rewrite (proj1 (proj1 Hs)).
  unfold while_turns. apply runs_bind, runs_the_world.
  apply (silent_while _ (λ rc, rc = 0) (λ _ w', clock w + 100 ≤ clock w') limit (clock w) (clock w + 100) m); [|lia|done..].
  intros x w0 -> Hs0 Hr0 Hst. apply runs_bind. eapply runs_mono; [by apply (silent_cycle 0 limit (clock w + 100) m)|].
  intros [[t p] rc] w1 ev1 ([= ->] & [= ->] & Hl). apply runs_bind. eapply runs_mono; [apply find_socket_runs|].
  intros o w2 ev2 [-> Ho]. apply runs_bind.
  apply (runs_mono _ _ (λ _ w2 _, w2 = w1)).
  { destruct o as [b|]; [|by apply runs_ret]. destruct (Ho b eq_refl) as [mb Hmb]. apply runs_bind.
    unfold runs, get_client, lift. rewrite Hmb. by apply runs_ret. }
  intros _ w2 _ ->. apply runs_bind. unfold MQTTTime_elapsed. apply runs_bind, runs_the_world, runs_ret, runs_ret.
  destruct Hl as (Hs1 & Hc1 & Hl). rewrite (u64_elapsed _ limit m) by (done || lia).
  split; [done|]. destruct (Z.ltb_spec (clock w1 - clock w) 100); [split; [done|lia]|lia].
Qed.

(** One turn of [MQTTClient_waitForCompletion]. *)
Definition wait_turn (mdt timeout start : Z) : () → io (() + Z) := λ _,
  m ← get_client a;
  elapsed ← MQTTTime_elapsed start;
  if negb (elapsed <? timeout) then mret (inr MQTTCLIENT_FAILURE)
  else if negb (connected (sc m)) then mret (inr MQTTCLIENT_DISCONNECTED)
  else if bool_decide (find_msg mdt (outboundMsgs (sc m)) = None) then mret (inr MQTTCLIENT_SUCCESS)
  else MQTTClient_yield beforeWrite persistence_remove taken;; mret (inl ()).
Lemma silent_wait mdt timeout start limit m : find_msg mdt (outboundMsgs (sc m)) ≠ None → limit ≤ start + 2 ^ 64 →
  ∀ fuel w, (length (turns w) < fuel)%nat → silent limit m w → start ≤ clock w →
    (clock w < start + timeout → reaches (start + timeout + 100) w) →
    runs (iterate fuel (wait_turn mdt timeout start) ()) w (λ r w' _, r = MQTTCLIENT_FAILURE ∧ start + timeout ≤ clock w').
Proof.
  intros Hf Hl. induction fuel as [|fuel IH]; intros w Hlen Hs Hst Hr; [lia|]. cbn [iterate]. apply runs_bind. unfold wait_turn at 1.
  pose proof Hs as ((_ & _ & Hm & _ & _ & Hc & _) & _). apply runs_bind, (runs_get _ _ _ Hm), runs_bind. unfold MQTTTime_elapsed.
  apply runs_bind, runs_the_world, runs_ret. rewrite (u64_elapsed _ limit m) by done.
  destruct (Z.ltb_spec (clock w - start) timeout) as [Ht|Ht]; cbn [negb]; [|apply runs_ret, runs_ret; split; [done|lia]].
  rewrite Hc. cbn [negb]. rewrite bool_decide_eq_false_2 by done. apply runs_bind.
  assert (Hr1 : reaches (clock w + 100) w).
  { destruct Hr as (t & Hin & Hd); [lia|]. exists t. split; [done|lia]. }
  eapply runs_mono; [apply (yield_runs limit m); [done|lia|done]|]. intros [] w1 ev1 [(Hs1 & Hc1 & Hlen1 & Hr2) _]. apply runs_ret.
  eapply runs_mono; [apply (IH w1); [lia|done|lia|]|auto]. intros Hlt. apply Hr2; [lia|]. apply Hr. lia.
Qed.
End Client.

(** ** The session after a call *)

(** C6: Whatever the session and the network do meanwhile, a client whose
    disconnection returns is closed: it is not connected, has no socket and is in
    no state of a connection.  A disconnection that waits for nothing, of a client
    the library knows, does return if the publications in flight are there
    (needed where they are wiped) and no callback thread is left to wait for (none
    runs, or this disconnection does not stop it); it keeps the messages in flight
    except those of a clean session before MQTT 5. *)
Theorem disconnect_closes a timeout lost (stop : bool) reason ps (w : world) :
  (∀ r w' ev, MQTTClient_disconnect1 beforeWrite persistence_remove taken a timeout lost stop reason ps w = Some (r, w', ev) →
     r = MQTTCLIENT_SUCCESS ∧ holds a shut w') ∧
  (∀ m, structs w !! a = Some m → (wipes m = true → releasable m w) → (stop = true → running w = false) →
     ∃ w' ev m', MQTTClient_disconnect1 beforeWrite persistence_remove taken a 0 lost stop reason ps w = Some (MQTTCLIENT_SUCCESS, w', ev) ∧
       structs w' !! a = Some m' ∧ has shut m' ∧ inflight m' = if wipes m then ([], []) else inflight m).
Proof.
  split.
  - intros r w' ev E. by eapply disconnect1_closes.
  - intros m Hm Hr Hs. destruct (runs_some _ _ _ (disconnect1_runs a lost stop reason ps w m Hm Hr Hs)) as (r & w' & ev & E & -> & m' & s' & -> & Hsh & Hi & _).
    eexists _, ev, m'. split; [exact E|]. split; [apply replaced_lookup|done].
Qed.

(** C5:Options that are refused change nothing and give their code.  Otherwise, over
    every server and version that is tried, a connection that returns is a session
    or nothing: with the code 0 the client is connected, and what is returned is
    a version of the options; with any other code it is closed. *)
Theorem connect_all_or_nothing a options (w : world) :
  (connect_error options ≠ MQTTCLIENT_SUCCESS →
     MQTTClient_connectAll beforeWrite persistence_remove taken proxy_env answers a options w =
       Some ((mkMQTTResponse (connect_error options) [] None, None), w, [])) ∧
  (∀ o r w' ev, options = Some o → connect_error options = MQTTCLIENT_SUCCESS →
     MQTTClient_connectAll beforeWrite persistence_remove taken proxy_env answers a options w = Some (r, w', ev) → settled a o r w').
Proof.
  split.
  - intros He. unfold MQTTClient_connectAll. apply Z.eqb_neq in He. by rewrite He.
  - intros o r w' ev -> He E. revert w r w' ev E.
    enough (H : triple (λ _, True) (MQTTClient_connectAll beforeWrite persistence_remove taken proxy_env answers a (Some o)) (settled a o)).
    { intros w r w' ev E. by eapply H. }
    unfold MQTTClient_connectAll. rewrite He. cbn [Z.eqb negb]. apply lift_then. intros o' [= <-]. apply triple_after. intros m.
    apply (triple_bind _ _ (settled a o)).
    + apply triple_if; intros Hs; [apply connectURI_settled|]. apply (triple_conseq _ _ _ _ _ (try_servers_settled a o (co_serverURIs o) _)); [|done].
      intros w _ Hl. rewrite Hl in Hs. by rewrite orb_true_r in Hs.
    + intros r. apply (triple_bind _ _ (λ _, settled a o r)); [apply receive_maximum_settled|]. intros []. by apply triple_ret.
Qed.

(** The answers of a wait for a delivery since [start]: SUCCESS when the client is
    connected and the message is not in flight any more, DISCONNECTED when the
    client is not connected, FAILURE when the time is over. *)
Definition wait_outcome a mdt timeout start (r : Z) (w : world) : Prop :=
  (r = MQTTCLIENT_SUCCESS ∧ ∃ m, structs w !! a = Some m ∧ connected (sc m) = true ∧ find_msg mdt (outboundMsgs (sc m)) = None) ∨
  (r = MQTTCLIENT_DISCONNECTED ∧ ∃ m, structs w !! a = Some m ∧ connected (sc m) = false) ∨
  (r = MQTTCLIENT_FAILURE ∧ timeout ≤ u64 (clock w - start)).

(** C33: A wait for a delivery that returns answers one of three codes, which mean what
    [wait_outcome] says.  With the message in flight, no callback thread, and a
    server that is silent until past the timeout, the wait of the only client of
    the process, connected, with no keep-alive and no retry interval, does return:
    FAILURE, and not before the time.  (With a keep-alive interval the client
    could be found disconnected first.) *)
Theorem waitForCompletion_outcome a mdt timeout (w : world) :
  (∀ r w' ev, MQTTClient_waitForCompletion beforeWrite persistence_remove taken (Some a) mdt timeout w = Some (r, w', ev) →
     wait_outcome a mdt timeout (clock w) r w') ∧
  (∀ m limit, silent a limit m w → find_msg mdt (outboundMsgs (sc m)) ≠ None → 0 ≤ timeout →
     limit ≤ clock w + 2 ^ 64 → reaches (clock w + timeout + 100) w →
     ∃ w' ev, MQTTClient_waitForCompletion beforeWrite persistence_remove taken (Some a) mdt timeout w = Some (MQTTCLIENT_FAILURE, w', ev) ∧
       clock w + timeout ≤ clock w').
Proof.
  unfold MQTTClient_waitForCompletion. split.
  - intros r w' ev E. refine (triple_bind (λ w1, w1 = w) _ (λ w0 _, w0 = w) _ (wait_outcome a mdt timeout (clock w)) _ _ w r w' ev E eq_refl).
    { by intros w1 w0 w2 ev' [= <- <- _] ->. }
    intros w0. apply triple_when. intros ->. unfold while_turns.
    apply triple_after. intros w1. apply (triple_iterate (λ _ _, True)). intros [].
    apply (get_then a). intros m. apply (triple_bind _ _ (λ e w2, structs w2 !! a = Some m ∧ e = u64 (clock w2 - clock w))).
    { intros w2 e w3 ev3 [= <- <- _] [_ Hm]. done. }
    intros e. apply triple_if; intros He.
    { apply triple_ret. intros w2 [_ ->]. right. right. split; [done|]. apply negb_true_iff, Z.ltb_ge in He. done. }
    apply triple_if; intros Hc.
    { apply triple_ret. intros w2 [Hm _]. right. left. split; [done|]. exists m. split; [done|]. by apply negb_true_iff in Hc. }
    apply triple_if; intros Hf.
    { apply triple_ret. intros w2 [Hm _]. left. split; [done|]. exists m. split; [done|]. apply negb_false_iff in Hc. split; [done|].
      by apply bool_decide_eq_true in Hf. }
    apply triple_after. intros []. by apply triple_ret.
  - intros m limit Hs Hf Ht Hl Hr. enough (H : runs (w0 ← the_world; while_turns (wait_turn a mdt timeout (clock w0)) ()) w
      (λ r w' _, r = MQTTCLIENT_FAILURE ∧ clock w + timeout ≤ clock w')).
    { destruct (runs_some _ _ _ H) as (r & w' & ev & E & -> & Hc). eexists _, _. split; [exact E|done]. }
    apply runs_bind, runs_the_world. unfold while_turns. apply runs_bind, runs_the_world.
    apply (silent_wait a mdt timeout (clock w) limit m); try done; lia.
Qed.
(** ** A message that could not be written *)

(** A publication that is not of the messages stays when they are released. *)
Lemma emptyMessageList_other k pub l pubs pubs' : pubs !! k = None → MQTTProtocol_emptyMessageList l pubs = Some pubs' →
  pubs' !! k = None ∧ MQTTProtocol_emptyMessageList l (<[k := pub]> pubs) = Some (<[k := pub]> pubs').
Proof.
  unfold MQTTProtocol_emptyMessageList. revert pubs. induction l as [|m l IH]; intros pubs Hk; cbn [release_all]; [by intros [= <-]|].
  destruct (publish m) as [i|]; [|by apply IH]. unfold release_publication.
  destruct (pubs !! i) as [q|] eqn:Hi; [|done]. assert (Hne : i ≠ k) by congruence. rewrite lookup_insert_ne, Hi by done.
  cbn [mbind option_bind]. destruct (_ =? 0).
  - rewrite delete_insert_ne by done. apply IH. by rewrite lookup_delete_ne.
  - rewrite insert_insert_ne by done. apply IH. by rewrite lookup_insert_ne.
Qed.

Lemma emptyMessageList_snoc l pubs pubs' k m pub : MQTTProtocol_emptyMessageList l pubs = Some (<[k := pub]> pubs') → publish m = Some k → p_refcount pub = 1 →
  MQTTProtocol_emptyMessageList (l ++ [m]) pubs = Some (delete k (<[k := pub]> pubs')).
Proof.
  unfold MQTTProtocol_emptyMessageList. revert pubs. induction l as [|x l IH]; intros pubs H Hm Hp; cbn [release_all app] in *.
  - injection H as ->. rewrite Hm. unfold release_publication. rewrite lookup_insert_eq. cbn. by rewrite Hp.
  - destruct (publish x) as [i|]; [|by apply IH]. destruct (release_publication i pubs) as [q|]; [|done]. cbn in *. by apply IH.
Qed.
Lemma find_msg_snoc id l m : msgid m = id → ∃ x, find_msg id (l ++ [m]) = Some x ∧ msgid x = id.
Proof.
  intros Hm. induction l as [|y l IH]; cbn [app find_msg]; [rewrite Hm, Z.eqb_refl; by exists m|].
  destruct (Z.eqb_spec (msgid y) id) as [He|]; [by exists y|done].
Qed.
(** The message that [MQTTProtocol_startPublish] puts in flight. *)
Definition new_message (now : Z) (p : Publish) (k : positive) (qos retained : Z) : Messages :=
  mkMessage qos retained (pb_msgId p) (pb_MQTTVersion p) (if 5 <=? pb_MQTTVersion p then pb_properties p else MQTTProperties_initializer)
    (Some k) now (if qos =? 2 then PUBREC else 0).
Definition new_publication (p : Publish) : Publications := mkPublications (pb_topic p) (pb_topiclen p) (pb_payload p) (pb_payloadlen p) 1.
(** Every write on the socket fails. *)
Definition socket_fails (t : T) (sock : Z) : Prop := ∀ p, (send_packet t sock p).1 = SOCKET_ERROR.

Lemma startPublish_fails now p qos retained c s : 0 < qos → socket_fails (net s) (socket c) →
  ∃ t' ev, let k := fresh (dom (publications s)) in
    MQTTProtocol_startPublish now p qos retained (c, s) =
      Some (SOCKET_ERROR, (with_outbound c (outboundMsgs c ++ [new_message now p k qos retained]),
        mkShared (<[k := new_publication p]> (publications s)) (pending_writes s) (msgs_sent s) (msgs_received s) t'), ev) ∧
    Forall (λ e, match e with EDeliver _ _ _ _ => False | _ => True end) ev.
Proof.
  intros Hq Hf. unfold MQTTProtocol_startPublish. rewrite (proj2 (Z.ltb_lt 0 qos) Hq). destruct s as [pubs pend ns nr t]. cbn [net publications] in *.
  unfold MQTTProtocol_createMessage, MQTTProtocol_storePublication, modify_client, deref_publication, get_publications, set_publications, mbind, emitting_bind.
  cbn. rewrite lookup_insert_eq. cbn. unfold send_on.
  match goal with |- context [send_packet t ?x ?pk] =>
    assert (Hpk : (send_packet t x pk).1 = SOCKET_ERROR) by exact (Hf pk); destruct (send_packet t x pk) as [rc t'] end.
  cbn in Hpk. subst rc. cbn. eexists t', _. split; [reflexivity|]. by repeat constructor.
Qed.
Lemma deliver_nothing a dup version ps ev w : Forall (λ e, match e with EDeliver _ _ _ _ => False | _ => True end) ev →
  runs (deliver beforeWrite a dup version ps ev : io ()) w (λ _ w' _, w' = w).
Proof. induction 1 as [|e ev He _ IH]; [done|]. by destruct e. Qed.

(** C34:When the socket fails, a PUBLISH of QoS 1 or 2 closes the session and is said to
    have been sent: it stays in flight, to be sent again, with its identifier, its
    topic and its payload, except in a clean session before MQTT 5, where no message
    is left in flight and it is lost.  (A connected client without a callback thread,
    a topic that is UTF-8, room among the messages in flight and for an identifier, a
    socket without unfinished write.) *)
Theorem publish_error_kept a topic payloadlen payload qos retained props want uninit id c p (w : world) m :
  structs w !! a = Some m → running w = false → (wipes m = true → releasable m w) → connected (sc m) = true → 0 < qos →
  UTF8_validateString (Some topic) ≠ 0 → len (outboundMsgs (sc m)) < maxInflightMessages (link m) → noPendingWrites (net (sh w)) (socket (sc m)) = true →
  MQTTProtocol_assignMsgId (sc m) = Some (id, c) → id ≠ 0 → publish_packet m topic payloadlen payload id uninit props = Some p →
  socket_fails (net (sh w)) (socket (sc m)) →
  ∃ w' ev m', MQTTClient_publish5 beforeWrite persistence_remove taken (Some a) (Some topic) payloadlen payload qos retained props want uninit w =
      Some ((MQTTCLIENT_SUCCESS, if want then Some id else None), w', ev) ∧
    structs w' !! a = Some m' ∧ has shut m' ∧
    if wipes m then outboundMsgs (sc m') = []
    else ∃ k, outboundMsgs (sc m') = outboundMsgs (sc m) ++ [new_message (clock w) p k qos retained] ∧
      publications (sh w') = <[k := new_publication p]> (publications (sh w)) ∧ publications (sh w) !! k = None.
Proof.
  intros Hm Hw Hr Hc Hq Hu Hroom Hfree Hid Hid0 Hp Hf.
  assert (Hcs : socket c = socket (sc m) ∧ inboundMsgs c = inboundMsgs (sc m) ∧ outboundMsgs c = outboundMsgs (sc m)).
  { unfold MQTTProtocol_assignMsgId in Hid. destruct (assign_loop _ _ _ _) as [i|]; [|done]. cbn in Hid. injection Hid as <- <-. by destruct (_ =? 0). }
  destruct Hcs as (Hcs & Hci & Hco). set (k := fresh (dom (publications (sh w)))). assert (Hk : publications (sh w) !! k = None) by apply not_elem_of_dom, is_fresh.
  assert (Hpid : pb_msgId p = id).
  { unfold publish_packet in Hp. destruct (if payloadlen <=? 0 then _ else _); [|done]. cbn in Hp. by injection Hp as <-. }
  set (msg := new_message (clock w) p k qos retained).
  enough (H : runs (MQTTClient_publish5 beforeWrite persistence_remove taken (Some a) (Some topic) payloadlen payload qos retained props want uninit) w
    (λ r w' _, r = (MQTTCLIENT_SUCCESS, if want then Some id else None) ∧ ∃ m', structs w' !! a = Some m' ∧ has shut m' ∧
      if wipes m then outboundMsgs (sc m') = [] else outboundMsgs (sc m') = outboundMsgs (sc m) ++ [msg] ∧
        publications (sh w') = <[k := new_publication p]> (publications (sh w)))).
  { destruct (runs_some _ _ _ H) as (r & w' & ev & E & -> & m' & H1 & H2 & H3). exists w', ev, m'. split; [exact E|]. split; [done|]. split; [done|].
    destruct (wipes m); [done|]. exists k. by destruct H3. }
  unfold MQTTClient_publish5. apply runs_bind, (runs_get _ _ _ _ Hm). rewrite Hc. cbn [negb]. rewrite (proj2 (Z.eqb_neq _ _) Hu).
  apply runs_bind. apply (runs_mono _ _ (λ r w1 _, r = true ∧ w1 = w)).
  { unfold wait_room. apply while_once, runs_bind, (runs_get _ _ _ _ Hm), runs_bind, runs_the_world. rewrite (proj2 (Z.ltb_lt _ _) Hroom), Hfree.
    apply runs_ret. by exists true. }
  intros ? ? ? [-> ->]. cbn [negb]. rewrite (proj2 (Z.ltb_lt 0 qos) Hq). apply runs_bind. set (m1 := with_sc m c).
  apply (runs_update a _ _ m id m1); [done|by rewrite Hid|]. rewrite (proj2 (Z.eqb_neq _ _) Hid0). cbn [andb].
  apply runs_bind, (runs_get _ _ m1); [apply replaced_lookup|]. apply runs_bind, runs_the_world, runs_bind, (runs_lift _ _ _ _ eq_refl), runs_bind.
  assert (Hp1 : publish_packet m1 topic payloadlen payload id uninit props = Some p) by exact Hp.
  apply (runs_lift _ _ _ _ Hp1). apply runs_bind.
  destruct (startPublish_fails (clock w) p qos retained c (sh w) Hq) as (t' & ev0 & Hs & Hev); [by rewrite Hcs|]. fold k msg in Hs.
  set (m2 := with_sc m1 (with_outbound c (outboundMsgs c ++ [msg]))).
  set (s2 := mkShared (<[k := new_publication p]> (publications (sh w))) (pending_writes (sh w)) (msgs_sent (sh w)) (msgs_received (sh w)) t').
  apply (runs_mono _ _ (λ r w1 _, r = SOCKET_ERROR ∧ w1 = replaced a w m2 s2)).
  { unfold quietly, on_protocol. apply runs_bind, (runs_get _ _ m1); [apply replaced_lookup|]. apply runs_bind, runs_the_world, runs_bind.
    eapply runs_lift; [exact Hs|]. cbv beta iota. apply runs_bind, runs_put_client, runs_bind, runs_put_shared, runs_bind, runs_emits, runs_bind.
    rewrite replaced_replaced. eapply runs_mono; [by apply deliver_nothing|]. intros ? ? ? ->. by apply runs_ret. }
  intros ? ? ? [-> ->]. change (SOCKET_ERROR =? TCPSOCKET_INTERRUPTED) with false. cbv beta iota. apply runs_bind, runs_ret.
  apply runs_bind, (runs_get _ _ m2); [apply replaced_lookup|]. apply runs_bind.
  eapply (runs_lift _ (if want then Some id else None)).
  { destruct want; [|done]. cbn [andb]. unfold token_of. destruct (find_msg_snoc id (outboundMsgs c) msg Hpid) as (x & Hx & Hxi).
    change (outboundMsgs (sc m2)) with (outboundMsgs c ++ [msg]). rewrite Hx. cbn. by rewrite Hxi. }
  apply runs_bind. unfold publish_ends. rewrite Z.eqb_refl, (proj2 (Z.ltb_lt 0 qos) Hq). apply runs_bind.
  assert (Hm2 : structs (replaced a w m2 s2) !! a = Some m2) by apply replaced_lookup.
  eapply runs_mono; [apply (disconnect1_runs a true true MQTTREASONCODE_SUCCESS None (replaced a w m2 s2) m2 Hm2)|].
  - change (wipes m2) with (wipes m). intros Hwp. destruct (Hr Hwp) as [p2 Hp2]. unfold releasable.
    change (inboundMsgs (sc m2)) with (inboundMsgs c). change (outboundMsgs (sc m2)) with (outboundMsgs c ++ [msg]). rewrite Hci, Hco.
    change (publications (sh (replaced a w m2 s2))) with (<[k := new_publication p]> (publications (sh w))).
    destruct (MQTTProtocol_emptyMessageList (inboundMsgs (sc m)) (publications (sh w))) as [p1|] eqn:H1; [|done]. cbn in Hp2.
    destruct (emptyMessageList_other k (new_publication p) _ _ _ Hk H1) as [Hk1 ->]. cbn.
    destruct (emptyMessageList_other k (new_publication p) _ _ _ Hk1 Hp2) as [Hk2 H2]. eexists. by apply (emptyMessageList_snoc _ _ _ k _ _ H2).
  - by intros _.
  - intros r3 w3 ev3 (_ & m3 & s3 & -> & Hsh & Hi & Hps). apply runs_ret, runs_ret. split; [done|]. exists m3. rewrite replaced_replaced.
    split; [apply replaced_lookup|]. split; [exact Hsh|]. change (wipes m2) with (wipes m) in Hi, Hps. unfold inflight in Hi.
    destruct (wipes m); injection Hi as _ ->; [done|]. split; [by rewrite <-Hco|]. exact (Hps eq_refl).
Qed.

End Spec.

(** ** The life of a client *)

Section Life.
Context {S T : Type} `{!Store S, !Transport T, !Closing T}.
Context (beforeWrite : option (list (list Z) → Z * list (list Z))).
Context (persistence_remove : bool → Z → Z → Z).
Abbreviation client := (MQTTClients S).
Abbreviation world := (world (S := S) (T := T)).

(** C35:Creating a client without persistence, with arguments that are accepted, gives
    a new handle to a client that is closed; destroying it gives back the state of
    the process as it was. *)
Theorem create_destroy afterRead uri id persistence_type options (w : world) :
  create_error uri id persistence_type options = MQTTCLIENT_SUCCESS →
  (∀ a, a ∈ handles w → is_Some (structs w !! a)) → (handles w = [] → running w = false) →
  ∃ a w1 m, MQTTClient_createWithOptions afterRead uri id persistence_type (0, None) options w = Some ((MQTTCLIENT_SUCCESS, Some a), w1, []) ∧
    structs w !! a = None ∧ structs w1 = <[a := m]> (structs w) ∧ handles w1 = handles w ++ [a] ∧ has shut m ∧ inflight m = ([], []) ∧
    MQTTClient_destroy beforeWrite persistence_remove (Some a) w1 = Some ((), w, []).
Proof.
  intros He Hh Hrun. set (a := fresh (dom (structs w))).
  assert (Ha : structs w !! a = None) by apply not_elem_of_dom, is_fresh.
  destruct uri as [u|], id as [i|]; try discriminate He.
  set (m := new_client u (match options with Some (_, _, v) => v | None => MQTTVERSION_DEFAULT end) : client).
  exists a, (mkWorld (<[a := m]> (structs w)) (handles w ++ [a]) (sh w) (running w) (tostop w) (last_retry w) (retryLoopInterval w) (clock w) (turns w)), m.
  assert (Hm : sc m = mkClient 0 false false false 0 0 0 0 0 0 [] [] ∧ connect_state (link m) = NOT_IN_PROGRESS).
  { unfold m, new_client. by destruct (strip_scheme u false). }
  destruct Hm as [Hsc Hst].
  split; [unfold MQTTClient_createWithOptions; rewrite He; reflexivity|]. split; [done|]. split; [done|]. split; [done|].
  split; [unfold has, shut; rewrite Hsc, Hst; done|]. split; [unfold inflight; by rewrite Hsc|].
  enough (H : runs (MQTTClient_destroy beforeWrite persistence_remove (Some a))
    (mkWorld (<[a := m]> (structs w)) (handles w ++ [a]) (sh w) (running w) (tostop w) (last_retry w) (retryLoopInterval w) (clock w) (turns w))
    (λ _ w' ev, w' = w ∧ ev = [])).
  { destruct (runs_some _ _ _ H) as ([] & w' & ev & E & -> & ->). exact E. }
  unfold MQTTClient_destroy. apply runs_bind, (runs_get a _ m); [apply lookup_insert_eq|]. apply runs_bind, runs_the_world, runs_bind.
  eapply runs_lift; [by rewrite Hsc|]. cbv beta iota.
  apply runs_bind. unfold runs at 1, put_clients. apply runs_bind. unfold runs at 1, put_shared. apply runs_bind, runs_the_world.
  cbn [structs handles sh running tostop last_retry retryLoopInterval clock turns].
  rewrite delete_insert_id by done. rewrite filter_app, filter_cons_False, filter_nil, app_nil_r by naive_solver.
  rewrite (filter_every (λ b, b ≠ a)).
  2: { intros b Hb ->. apply Hh in Hb. rewrite Ha in Hb. by destruct Hb. }
  assert (Hw : mkWorld (structs w) (handles w) (mkShared (publications (sh w)) (pending_writes (sh w)) (msgs_sent (sh w)) (msgs_received (sh w)) (net (sh w)))
    (running w) (tostop w) (last_retry w) (retryLoopInterval w) (clock w) (turns w) = w).
  { destruct w as [? ? []]; reflexivity. }
  rewrite Hw. destruct (handles w) eqn:Hhw; [|by apply runs_ret].
  unfold MQTTClient_stop, ask_stop. apply runs_bind, runs_bind, runs_the_world. rewrite (Hrun eq_refl). by apply runs_ret, runs_ret.
Qed.
End Life.

(** ** Witnesses *)

Import ProtocolSpec(socket_net, sample_shared).
Import AsyncQueue(id_message).
#[local] Existing Instance ProtocolSpec.socket_transport.
#[local] Existing Instance AsyncProcess.socket_closing.

Definition sample_sync (clean : bool) (out : list Messages) : MQTTClients mem_store :=
  mkSync (mkClient 5 true true false 0 0 0 7 0 0 [] out) (mkLink NOT_IN_PROGRESS 4 clean false 10 0) None ([], 0)
    (mkCallbacks 0 None None None None None) (mkHandoff false false false false 0 None) (bs "host") false.
Definition process (m : MQTTClients mem_store) (l : list (turn (T := socket_net))) : world (S := mem_store) (T := socket_net) :=
  mkWorld {[ 1%positive := m ]} [1%positive] sample_shared false false 0 5 1000 l.
Definition silence (now : Z) : turn (T := socket_net) := mkTurn now id [] 0 (None, 0) 0 0.
Definition removes (_ : bool) (_ _ : Z) : Z := 0.
Definition takes (_ : list Z) (_ : MQTTPersistence_message) : bool := true.

Lemma disconnect_closes_witness :
  ∃ w' ev m', MQTTClient_disconnect1 None removes takes 1 0 false true 0 None (process (sample_sync true [id_message 4]) []) = Some (0, w', ev) ∧
    structs w' !! 1%positive = Some m' ∧ has shut m' ∧ inflight m' = ([], []).
Proof.
  apply (proj2 (disconnect_closes None removes takes 1 0 false true 0 None (process (sample_sync true [id_message 4]) [])) (sample_sync true [id_message 4]));
    [vm_compute; reflexivity|intros _; by eexists|done].
Defined.

(** The peer has closed the connection: the next write fails. *)
Definition closed_net : socket_net := (SocketWrite.mkW [] [] (λ _, []), [SocketWrite.WError 32; SocketWrite.WError 32]).
Definition closed_process (m : MQTTClients mem_store) : world (S := mem_store) (T := socket_net) :=
  mkWorld {[ 1%positive := m ]} [1%positive] (mkShared ∅ [] 0 0 closed_net) false false 0 5 1000 [].
Lemma publish_error_kept_witness :
  ∃ w' ev m', MQTTClient_publish5 None removes takes (Some 1%positive) (Some (bs "hall/t")) 2 [50; 49] 1 0 None true 0 (closed_process (sample_sync false [id_message 4])) =
      Some ((0, Some 8), w', ev) ∧
    structs w' !! 1%positive = Some m' ∧ has shut m' ∧
    ∃ k, outboundMsgs (sc m') = [id_message 4; mkMessage 1 0 8 4 MQTTProperties_initializer (Some k) 1000 0] ∧
      publications (sh w') !! k = Some (mkPublications (bs "hall/t") 0 [50; 49] 2 1).
Proof.
  destruct (publish_error_kept None removes takes 1 (bs "hall/t") 2 [50; 49] 1 0 None true 0 8
    (with_msgID (sc (sample_sync false [id_message 4])) 8) (mkPublish (mkHeader PUBLISH 0 0 0) (bs "hall/t") 0 8 [50; 49] 2 4 MQTTProperties_initializer)
    (closed_process (sample_sync false [id_message 4])) (sample_sync false [id_message 4])) as (w' & ev & m' & H1 & H2 & H3 & k & H4 & H5 & _);
    [reflexivity|reflexivity|discriminate|reflexivity|reflexivity|vm_compute; discriminate|reflexivity|vm_compute; reflexivity|vm_compute; reflexivity|discriminate|
     vm_compute; reflexivity| |].
  { intros p. unfold send_packet. cbn [ProtocolSpec.socket_transport]. unfold ProtocolSpec.socket_send. reflexivity. }
  exists w', ev, m'. split; [exact H1|]. split; [exact H2|]. split; [exact H3|]. exists k. split; [exact H4|]. rewrite H5. apply lookup_insert_eq.
Defined.

Lemma waitForCompletion_outcome_witness :
  ∃ w' ev, MQTTClient_waitForCompletion None removes takes (Some 1%positive) 4 150 (process (sample_sync false [id_message 4]) (silence <$> [1080; 1130; 1240; 1300])) =
      Some (MQTTCLIENT_FAILURE, w', ev) ∧ 1150 ≤ clock w'.
Proof.
  apply (proj2 (waitForCompletion_outcome None removes takes 1 4 150 (process (sample_sync false [id_message 4]) (silence <$> [1080; 1130; 1240; 1300])))
    (sample_sync false [id_message 4]) 2000); [|vm_compute; discriminate|lia|vm_compute; discriminate|].
  - split; [split_and!; try reflexivity; vm_compute; discriminate|]. split; [|split; [|reflexivity]].
    + repeat (constructor; [split; [split; [vm_compute; discriminate|reflexivity]|reflexivity]|]). constructor.
    + cbn. lia.
  - exists (silence 1300). split; [|vm_compute; discriminate]. do 3 right. left.
Defined.

(** The server accepts the connection and then the CONNECT. *)
Definition sample_options : connectOptions :=
  mkConnectOptions (bs "MQTC") 6 60 true true None None None 30 20 [] 4 10 false.
Definition sample_answers (_ : list Z) (_ _ : Z) : attempt := mkAttempt (mkAnswers EINPROGRESS 0 0 0) 5 false 0 0 0.
Definition accepts : list (turn (T := socket_net)) :=
  [mkTurn 1010 id [] 5 (None, 0) 0 0; mkTurn 1020 id [] 5 (Some (PConnack (mkConnack (mkHeader CONNACK 0 0 0) 1 0 4 None)), 0) 0 0].
Definition blank_sync : MQTTClients mem_store := new_client (bs "tcp://host:1883") 0.

Lemma connect_all_or_nothing_witness :
  ∃ r w' ev, MQTTClient_connectAll None removes takes None sample_answers 1 (Some sample_options) (process blank_sync accepts) = Some (r, w', ev) ∧
    reasonCode r.1 = MQTTCLIENT_SUCCESS ∧ r.2 = Some (bs "host:1883", 4, 1) ∧ settled 1 sample_options r w'.
Proof.
  destruct (MQTTClient_connectAll None removes takes None sample_answers 1 (Some sample_options) (process blank_sync accepts))
    as [[[r w'] ev]|] eqn:E; [|exfalso; revert E; vm_compute; discriminate].
  exists r, w', ev. split; [reflexivity|]. split; [revert E; vm_compute; by intros [= <- _ _]|]. split; [revert E; vm_compute; by intros [= <- _ _]|].
  exact (proj2 (connect_all_or_nothing None removes takes None sample_answers 1 (Some sample_options) (process blank_sync accepts)) _ _ _ _ eq_refl eq_refl E).
Defined.

Lemma create_destroy_witness :
  ∃ a w1 m, MQTTClient_createWithOptions None (Some (bs "tcp://host:1883")) (Some (bs "bridge")) 1 (0, None) None (process (sample_sync false []) []) =
      Some ((MQTTCLIENT_SUCCESS, Some a), w1, []) ∧
    structs w1 = <[a := m]> (structs (process (sample_sync false []) [])) ∧
    MQTTClient_destroy None removes (Some a) w1 = Some ((), process (sample_sync false []) [], []).
Proof.
  destruct (create_destroy None removes None (Some (bs "tcp://host:1883")) (Some (bs "bridge")) 1 None (process (sample_sync false []) []))
    as (a & w1 & m & Hc & _ & Hs & _ & _ & _ & Hd).
  - vm_compute. reflexivity.
  - intros a Ha. apply list_elem_of_singleton in Ha as ->. by eexists.
  - discriminate.
  - by exists a, w1, m.
Defined.

(** ** The text of a code *)

Lemma dec_length code : - 2 ^ 31 ≤ code < 2 ^ 31 → len (dec code) ≤ 10 ↔ - 10 ^ 9 < code.
Proof.
  intros Hc. unfold dec. destruct (Z.ltb_spec code 0); cbn [length].
  - pose proof (dec_loop_short 20 (- code) 9). lia.
  - pose proof (dec_loop_short 20 code 10). lia.
Qed.

(** The codes whose text has at most 29 characters. *)
Definition fits_buffer (code : Z) : Prop := - 10 ^ 9 < code.

(** [MQTTClient_strerror] writes inside its buffer exactly for the codes that are
    greater than -1000000000. *)
Theorem strerror_bounds code : - 2 ^ 31 ≤ code < 2 ^ 31 → is_Some (MQTTClient_strerror code) ↔ fits_buffer code.
Proof.
  intros Hc. unfold fits_buffer. pose proof (dec_length code Hc) as Hd. unfold MQTTClient_strerror.
  repeat match goal with
  | |- context [code =? ?k] => destruct (Z.eqb_spec code k) as [Hk|_]; [split; [intros _; rewrite Hk; by compute|by eexists]|]
  end.
  cbv zeta. rewrite length_app, Nat2Z.inj_add. change (len (bs "Unknown error code ")) with 19.
  destruct (Z.ltb_spec (19 + len (dec code)) 30).
  - split; [intros _; apply Hd; lia|by eexists].
  - split; [by intros []|]. intros H'. apply Hd in H'. lia.
Qed.
Lemma strerror_bounds_witness :
  MQTTClient_strerror (-999999999) = Some (bs "Unknown error code -999999999") ∧ ¬ is_Some (MQTTClient_strerror (-1000000000)).
Proof.
  split; [vm_compute; reflexivity|]. intros H. apply (strerror_bounds (-1000000000) ltac:(lia)) in H. by vm_compute in H.
Defined.
End SyncSpec.
