(* ===== verification/Trees.v ===== *)
(** * Red-black trees (paho.mqtt.c/src/Tree.c, Tree.h)

    The nodes are on an explicit heap with their parent and children; a tree has
    one root for each of its indexes.  A function is a statement on the tree that
    follows the order of the pointer updates of the code; a NULL that is followed
    is [None]. *)
From S2P Require Import Prelude.

Module Trees.

(** ** Data *)

Record Node := mkNode { parent : option positive; left : option positive; right : option positive; content : Z; nsize : Z; red : bool }.

(** [root] of [index]; the comparison functions are parameters. *)
Record Tree := mkTree {
  nodes : gmap positive Node;
  roots : list (option positive);
  count : Z;
  size : Z;
  allow_duplicates : bool
}.

(** The children are LEFT, [false], and RIGHT, [true]. *)
Notation LEFT := false.
Notation RIGHT := true.
Definition child (n : Node) (d : bool) : option positive := if d then right n else left n.
Definition with_parent (n : Node) (p : option positive) := mkNode p (left n) (right n) (content n) (nsize n) (red n).
Definition with_child (n : Node) (d : bool) (c : option positive) :=
  if d then mkNode (parent n) (left n) c (content n) (nsize n) (red n) else mkNode (parent n) c (right n) (content n) (nsize n) (red n).
Definition with_red (n : Node) (r : bool) := mkNode (parent n) (left n) (right n) (content n) (nsize n) r.
Definition with_content (n : Node) (c s : Z) := mkNode (parent n) (left n) (right n) c s (red n).

Definition io : Type → Type := emitting Tree ().
Definition get (a : positive) : io Node := λ w, lift (nodes w !! a) w.
Definition put (a : positive) (n : Node) : io () := λ w, Some ((), mkTree (<[a := n]> (nodes w)) (roots w) (count w) (size w) (allow_duplicates w), []).
Definition set (a : positive) (f : Node → Node) : io () := n ← get a; put a (f n).
Definition set_parent (a : positive) (p : option positive) : io () := set a (λ n, with_parent n p).
Definition set_child (a : positive) (d : bool) (c : option positive) : io () := set a (λ n, with_child n d c).
Definition set_red (a : positive) (r : bool) : io () := set a (λ n, with_red n r).
Definition get_root (i : nat) : io (option positive) := λ w, lift (roots w !! i) w.
Definition set_root (i : nat) (o : option positive) : io () := λ w,
  Some ((), mkTree (nodes w) (<[i := o]> (roots w)) (count w) (size w) (allow_duplicates w), []).
Definition set_totals (c s : Z) : io () := λ w, Some ((), mkTree (nodes w) (roots w) c s (allow_duplicates w), []).
Definition the_tree : io Tree := λ w, Some (w, w, []).
(** [free]. *)
Definition free_node (a : positive) : io () := λ w, Some ((), mkTree (delete a (nodes w)) (roots w) (count w) (size w) (allow_duplicates w), []).

Definition isRed (o : option positive) : io bool := match o with Some a => n ← get a; mret (red n) | None => mret false end.
Definition isBlack (o : option positive) : io bool := match o with Some a => n ← get a; mret (negb (red n)) | None => mret true end.

(** A loop that goes up or down: no more turns than nodes, and the last one. *)
Definition walk {A B} (body : A → io (A + B)) (x : A) : io B := w ← the_tree; iterate (S (Datatypes.S (base.size (nodes w)))) body x.

(** ** Initialisation *)

Definition TreeInitializeNoMalloc : Tree := mkTree ∅ [None] 0 0 false.
(** A third index is written after the end of the array. *)
Definition TreeAddIndex (t : Tree) : option Tree :=
  if (length (roots t) <? 2)%nat then Some (mkTree (nodes t) (roots t ++ [None]) (count t) (size t) (allow_duplicates t)) else None.

(** ** Rotation *)

(** The parent of [curnode], or the root, gets another child in its place; [d] is
    the child that is looked at first. *)
Definition replace_child (i : nat) (p : option positive) (curnode : positive) (d : bool) (o : option positive) : io () :=
  match p with
  | None => set_root i o
  | Some p => n ← get p; if bool_decide (child n d = Some curnode) then set_child p d o else set_child p (negb d) o
  end.

Definition TreeRotate (curnode : positive) (direction : bool) (i : nat) : io () :=
  n ← get curnode;
  other ← lift (child n (negb direction));
  on ← get other;
  set_child curnode (negb direction) (child on direction);;
  (match child on direction with Some m => set_parent m (Some curnode) | None => mret () end);;
  set_parent other (parent n);;
  replace_child i (parent n) curnode direction (Some other);;
  set_child other direction (Some curnode);;
  set_parent curnode (Some other).

(** ** Adding *)

Definition TreeBAASub (curnode : positive) (which : bool) (i : nat) : io positive :=
  n ← get curnode;
  p ← lift (parent n);
  pn ← get p;
  g ← lift (parent pn);
  gn ← get g;
  r ← isRed (child gn which);
  if (r : bool) then
    uncle ← lift (child gn which);
    set_red uncle false;; set_red p false;; set_red g true;;
    mret g
  else
    cur ← (if bool_decide (child pn which = Some curnode) then TreeRotate p (negb which) i;; mret p else mret curnode);
    n ← get cur;
    p ← lift (parent n);
    set_red p false;;
    pn ← get p;
    g ← lift (parent pn);
    set_red g true;;
    TreeRotate g which i;;
    mret cur.

Definition balance_add_turn (i : nat) (curnode : positive) : io (positive + ()) :=
  n ← get curnode;
  r ← isRed (parent n);
  if (r : bool) then
    p ← lift (parent n);
    pn ← get p;
    match parent pn with
    | None => mret (inr ())
    | Some g =>
        gn ← get g;
        cur ← (if bool_decide (child gn LEFT = Some p) then TreeBAASub curnode RIGHT i else TreeBAASub curnode LEFT i);
        mret (inl cur)
    end
  else mret (inr ()).
Definition TreeBalanceAfterAdd (curnode : positive) (i : nat) : io () :=
  walk (balance_add_turn i) curnode;;
  o ← get_root i;
  r ← lift o;
  set_red r false.

(** A loop over the indexes; the result is that of the last one. *)
Fixpoint over_indexes (op : nat → io (option Z)) (l : list nat) (rc : option Z) : io (option Z) :=
  match l with [] => mret rc | i :: l' => rc ← op i; over_indexes op l' rc end.

Section Compare.
(** [compare] of each index; the last argument is [value]. *)
Context (compare : nat → Z → Z → bool → Z).

(** The node that compares equal, or where it would be: its parent and side. *)
Definition search_turn (i : nat) (key : Z) (value : bool) (x : option positive * (option positive * bool))
    : io (option positive * (option positive * bool) + option positive * (option positive * bool)) :=
  let '(cur, (par, left)) := x in
  match cur with
  | None => mret (inr (None, (par, left)))
  | Some a =>
      n ← get a;
      let result := compare i (content n) key value in
      if result =? 0 then mret (inr (Some a, (par, left)))
      else mret (inl (child n (0 <? result), (Some a, 0 <? result)))
  end.

Definition TreeFindIndex1 (key : Z) (i : nat) (value : bool) : io (option positive) :=
  root ← get_root i;
  '(cur, _) ← walk (search_turn i key value) (root, (None, false));
  mret cur.
Definition TreeFindIndex (key : Z) (i : nat) : io (option positive) := TreeFindIndex1 key i false.
Definition TreeFindContentIndex (key : Z) (i : nat) : io (option positive) := TreeFindIndex1 key i true.
Definition TreeFind (key : Z) : io (option positive) := TreeFindIndex key 0.

(** A red leaf below [par]; the first index keeps the totals. *)
Definition new_leaf (i : nat) (a : positive) (par : option positive) (left : bool) (x sz : Z) (c s : Z) : io () :=
  put a (mkNode None None None 0 0 false);;
  (match par with Some p => set_child p left (Some a) | None => set_root i (Some a) end);;
  set a (λ n, with_red (with_parent n par) true);;
  (if (i =? 0)%nat then set_totals c s else mret ());;
  set a (λ n, with_content n x sz).
(** The content, or NULL; [room] is whether there is memory for a node. *)
Definition TreeAddByIndex (room : bool) (x sz : Z) (i : nat) : io (option Z) :=
  root ← get_root i;
  '(cur, (par, left)) ← walk (search_turn i x true) (root, (None, false));
  w ← the_tree;
  match cur with
  | Some a =>
      if allow_duplicates w then mret None
      else
        n ← get a;
        (if (i =? 0)%nat then set_totals (count w) (u64 (size w + (sz - nsize n))) else mret ());;
        set a (λ n, with_content n x sz);;
        TreeBalanceAfterAdd a i;;
        mret (Some x)
  | None =>
      if room then
        let a := fresh (dom (nodes w)) in
        new_leaf i a par left x sz (count w + 1) (u64 (size w + sz));;
        TreeBalanceAfterAdd a i;;
        mret (Some x)
      else mret None
  end.

Definition TreeAdd (room : nat → bool) (x sz : Z) : io (option Z) :=
  w ← the_tree; over_indexes (λ i, TreeAddByIndex (room i) x sz i) (seq 0 (length (roots w))) None.

(** ** Walking in order *)

Definition minimum_turn (a : positive) : io (positive + option positive) :=
  n ← get a; mret (match left n with Some b => inl b | None => inr (Some a) end).
Definition TreeMinimum (cur : option positive) : io (option positive) :=
  match cur with None => mret None | Some a => walk minimum_turn a end.
(** Up from [cur], whose parent is [par]. *)
Definition successor_turn (x : positive * option positive) : io (positive * option positive + option positive) :=
  let '(cur, par) := x in
  match par with
  | None => mret (inr None)
  | Some p => pn ← get p; mret (if bool_decide (right pn = Some cur) then inl (p, parent pn) else inr (Some p))
  end.
Definition TreeSuccessor (a : positive) : io (option positive) :=
  n ← get a;
  match right n with
  | Some r => TreeMinimum (Some r)
  | None => walk successor_turn (a, parent n)
  end.
Definition TreeNextElementIndex (cur : option positive) (i : nat) : io (option positive) :=
  match cur with None => r ← get_root i; TreeMinimum r | Some a => TreeSuccessor a end.
Definition TreeNextElement (cur : option positive) : io (option positive) := TreeNextElementIndex cur 0.

(** ** Removing *)

(** The end of [TreeBARSub], with a red child of the sibling on the side [which]. *)
Definition BARSub_rotate (p s : positive) (which : bool) (i : nat) : io positive :=
  pn ← get p;
  set_red s (red pn);; set_red p false;;
  sn ← get s;
  c ← lift (child sn which);
  set_red c false;;
  TreeRotate p (negb which) i;;
  r ← get_root i;
  lift r.
(** What follows the case of a red sibling; [p] is the parent, it does not change. *)
Definition BARSub_black (p : positive) (sib : option positive) (which : bool) (i : nat) : io positive :=
  match sib with
  | None => mret p
  | Some s =>
      sn ← get s;
      b1 ← isBlack (child sn (negb which));
      b2 ← (if (b1 : bool) then isBlack (child sn which) else mret false);
      if (b2 : bool) then set_red s true;; mret p
      else
        b ← isBlack (child sn which);
        s ← (if (b : bool) then
               c ← lift (child sn (negb which));
               set_red c false;; set_red s true;; TreeRotate s which i;;
               pn ← get p; lift (child pn which)
             else mret s);
        BARSub_rotate p s which i
  end.
Definition TreeBARSub (curnode : positive) (which : bool) (i : nat) : io positive :=
  n ← get curnode;
  p ← lift (parent n);
  pn ← get p;
  r ← isRed (child pn which);
  sib ← (if (r : bool) then
           s ← lift (child pn which);
           set_red s false;; set_red p true;; TreeRotate p (negb which) i;;
           n ← get curnode; p ← lift (parent n); pn ← get p; mret (child pn which)
         else mret (child pn which));
  n ← get curnode;
  p ← lift (parent n);
  BARSub_black p sib which i.

Definition balance_remove_turn (i : nat) (curnode : positive) : io (positive + positive) :=
  root ← get_root i;
  n ← get curnode;
  if bool_decide (root = Some curnode) || red n then mret (inr curnode)
  else
    p ← lift (parent n);
    pn ← get p;
    cur ← (if bool_decide (child pn LEFT = if content n =? 0 then None else Some curnode)
           then TreeBARSub curnode RIGHT i else TreeBARSub curnode LEFT i);
    mret (inl cur).
Definition TreeBalanceAfterRemove (curnode : positive) (i : nat) : io () :=
  cur ← walk (balance_remove_turn i) curnode;
  set_red cur false.

(** [curchild] takes the place of [redundant]. *)
Definition unlink (redundant : positive) (p curchild : option positive) (i : nat) : io () :=
  (match curchild with Some c => set_parent c p | None => mret () end);;
  replace_child i p redundant LEFT curchild.
(** The node [temp], on the stack, has the parent of [redundant]. *)
Definition after_unlink (redundant : positive) (p curchild : option positive) (i : nat) : io () :=
  b ← isBlack (Some redundant);
  (if (b : bool) then
     match curchild, p with
     | None, Some _ =>
         w ← the_tree;
         let temp := fresh (dom (nodes w)) in
         put temp (mkNode p None None 0 0 false);;
         TreeBalanceAfterRemove temp i;;
         free_node temp
     | None, None => mret ()
     | Some c, _ => TreeBalanceAfterRemove c i
     end
   else mret ());;
  free_node redundant.
Definition TreeRemoveNodeIndex (curnode : positive) (i : nat) : io Z :=
  n ← get curnode;
  redundant ← (if bool_decide (is_Some (left n)) && bool_decide (is_Some (right n))
               then o ← TreeSuccessor curnode; lift o else mret curnode);
  rn ← get redundant;
  let curchild := child rn (bool_decide (left rn = None)) in
  unlink redundant (parent rn) curchild i;;
  (if bool_decide (redundant = curnode) then mret () else set curnode (λ n, with_content n (content rn) (nsize rn)));;
  after_unlink redundant (parent rn) curchild i;;
  w ← the_tree;
  (if (i =? 0)%nat then set_totals (count w - 1) (u64 (size w - nsize n)) else mret ());;
  mret (content n).

Definition TreeRemoveIndex (x : Z) (i : nat) : io (option Z) :=
  o ← TreeFindContentIndex x i;
  match o with None => mret None | Some a => c ← TreeRemoveNodeIndex a i; mret (Some c) end.
Definition TreeRemove (x : Z) : io (option Z) :=
  w ← the_tree; over_indexes (λ i, TreeRemoveIndex x i) (seq 0 (length (roots w))) None.
(** The other indexes are searched for the content that was found; NULL is
    compared too. *)
Fixpoint remove_others (index : nat) (l : list nat) (x : option Z) : io (option Z) :=
  match l with
  | [] => mret x
  | i :: l' => if (i =? index)%nat then remove_others index l' x else x ← TreeRemoveIndex (default 0 x) i; remove_others index l' x
  end.
Definition TreeRemoveKeyIndex (key : Z) (index : nat) : io (option Z) :=
  o ← TreeFindIndex key index;
  match o with
  | None => mret None
  | Some a => c ← TreeRemoveNodeIndex a index; w ← the_tree; remove_others index (seq 0 (length (roots w))) (Some c)
  end.
Definition TreeRemoveKey (key : Z) : io (option Z) := TreeRemoveKeyIndex key 0.
End Compare.

(** ** Comparing *)

Definition TreeIntCompare (i j : Z) : Z := if j <? i then -1 else if i =? j then 0 else 1.
Definition TreePtrCompare (a b : Z) (content : bool) : Z := if b <? a then -1 else if a =? b then 0 else 1.
End Trees.
