(* ===== verification/TreesShape.v ===== *)
(** * Red-black trees: what they represent (paho.mqtt.c/src/Tree.c)

    The shape of a tree, as an inductive type with the addresses of its nodes, and
    the heap that represents it.  A place in a tree is a context and the subtree in
    it; every function is described at its place, without the pointers. *)
From S2P Require Import Prelude Trees.

Module TreesShape.
Import Trees.
Notation LEFT := false.
Notation RIGHT := true.

(** ** Shapes *)

(** The content and its size. *)
Definition item : Type := Z * Z.
Inductive tree := Leaf | Bin (a : positive) (x : item) (c : bool) (l r : tree).

(** The node with the child [s] on the side [d] and [t] on the other. *)
Definition bin (d : bool) (a : positive) (x : item) (c : bool) (s t : tree) : tree := if d then Bin a x c t s else Bin a x c s t.
Record frame := mkFrame { f_dir : bool; f_addr : positive; f_item : item; f_red : bool; f_sib : tree }.
Definition ctx : Type := list frame.
Definition plug1 (f : frame) (t : tree) : tree := bin (f_dir f) (f_addr f) (f_item f) (f_red f) t (f_sib f).
Fixpoint plug (c : ctx) (t : tree) : tree := match c with [] => t | f :: c' => plug c' (plug1 f t) end.

Definition root_of (t : tree) : option positive := match t with Leaf => None | Bin a _ _ _ _ => Some a end.
Definition parent_of (c : ctx) : option positive := match c with [] => None | f :: _ => Some (f_addr f) end.
Definition is_red (t : tree) : bool := match t with Bin _ _ c _ _ => c | Leaf => false end.
Definition blacken (t : tree) : tree := match t with Bin a x _ l r => Bin a x false l r | Leaf => Leaf end.
Fixpoint addrs (t : tree) : list positive := match t with Leaf => [] | Bin a _ _ l r => a :: addrs l ++ addrs r end.
Fixpoint caddrs (c : ctx) : list positive := match c with [] => [] | f :: c' => f_addr f :: addrs (f_sib f) ++ caddrs c' end.
Fixpoint inorder (t : tree) : list item := match t with Leaf => [] | Bin _ x _ l r => inorder l ++ x :: inorder r end.

(** ** The heap of a tree *)

Definition node_at (p : option positive) (x : item) (c : bool) (l r : option positive) : Node := mkNode p l r x.1 x.2 c.
Fixpoint rep (h : gmap positive Node) (p : option positive) (t : tree) : Prop :=
  match t with
  | Leaf => True
  | Bin a x c l r => h !! a = Some (node_at p x c (root_of l) (root_of r)) ∧ rep h (Some a) l ∧ rep h (Some a) r
  end.
(** The context of a subtree whose root is [o]. *)
Fixpoint repc (h : gmap positive Node) (o : option positive) (c : ctx) : Prop :=
  match c with
  | [] => True
  | f :: c' =>
      h !! f_addr f = Some (with_child (with_child (node_at (parent_of c') (f_item f) (f_red f) None None) (f_dir f) o) (negb (f_dir f)) (root_of (f_sib f))) ∧
      rep h (Some (f_addr f)) (f_sib f) ∧ repc h (Some (f_addr f)) c'
  end.

(** [t] is what the root [i] of [w] represents. *)
Definition Rep (i : nat) (t : tree) (w : Tree) : Prop :=
  rep (nodes w) None t ∧ roots w !! i = Some (root_of t) ∧ NoDup (addrs t).

(** Nothing but the nodes of [l] and the root [i] differs. *)
Definition same_but (i : nat) (l : list positive) (w w' : Tree) : Prop :=
  (∀ a, a ∉ l → nodes w' !! a = nodes w !! a) ∧ (∀ j, j ≠ i → roots w' !! j = roots w !! j) ∧ length (roots w') = length (roots w) ∧
  count w' = count w ∧ size w' = size w ∧ allow_duplicates w' = allow_duplicates w.

Lemma same_but_refl i l w : same_but i l w w.
Proof. by split_and!. Qed.
Lemma same_but_trans i l w1 w2 w3 : same_but i l w1 w2 → same_but i l w2 w3 → same_but i l w1 w3.
Proof.
  intros (H1 & H2 & H3 & H4 & H5 & H6) (K1 & K2 & K3 & K4 & K5 & K6). split_and!; [..|congruence|congruence|congruence|congruence].
  - intros a Ha. by rewrite K1, H1.
  - intros j Hj. by rewrite K2, H2.
Qed.

Lemma addrs_bin d a x c s t : addrs (bin d a x c s t) ≡ₚ a :: addrs s ++ addrs t.
Proof. destruct d; cbn; [|done]. by rewrite (Permutation_app_comm (addrs t)). Qed.
Lemma addrs_plug c t : addrs (plug c t) ≡ₚ addrs t ++ caddrs c.
Proof.
  revert t. induction c as [|f c IH]; intros t; cbn; [by rewrite app_nil_r|]. rewrite IH. unfold plug1. rewrite addrs_bin.
  cbn. rewrite <-Permutation_middle. by rewrite <-app_assoc.
Qed.
Lemma plug_app c1 c2 t : plug (c1 ++ c2) t = plug c2 (plug c1 t).
Proof. revert t. induction c1 as [|f c1 IH]; intros t; cbn; [done|]. apply IH. Qed.

Lemma rep_bin h p d a x c s t : rep h p (bin d a x c s t) ↔
  h !! a = Some (with_child (with_child (node_at p x c None None) d (root_of s)) (negb d) (root_of t)) ∧ rep h (Some a) s ∧ rep h (Some a) t.
Proof. destruct d; cbn; tauto. Qed.
Lemma root_bin d a x c s t : root_of (bin d a x c s t) = Some a.
Proof. by destruct d. Qed.

Lemma is_red_bin d a x c s t : is_red (bin d a x c s t) = c.
Proof. by destruct d. Qed.
Lemma bin_negb d a x c s t : bin (negb d) a x c s t = bin d a x c t s.
Proof. by destruct d. Qed.

(** A tree at its place. *)
Lemma rep_plug h c t : rep h None (plug c t) ↔ rep h (parent_of c) t ∧ repc h (root_of t) c.
Proof.
  revert t. induction c as [|f c IH]; intros t; cbn [plug repc]; [by cbn; tauto|].
  rewrite IH. unfold plug1 at 1. rewrite rep_bin. unfold plug1. rewrite root_bin. cbn. tauto.
Qed.

Lemma rep_frame h h' p t : (∀ a, a ∈ addrs t → h' !! a = h !! a) → rep h p t → rep h' p t.
Proof.
  revert p. induction t as [|a x c l IHl r IHr]; intros p H; cbn; [done|]. intros (Ha & Hl & Hr). split.
  - rewrite H; [done|left].
  - split; [apply IHl|apply IHr]; try done; intros b Hb; apply H; cbn; rewrite elem_of_cons, elem_of_app; auto.
Qed.
Lemma repc_frame h h' o c : (∀ a, a ∈ caddrs c → h' !! a = h !! a) → repc h o c → repc h' o c.
Proof.
  revert o. induction c as [|f c IH]; intros o H; cbn; [done|]. intros (Hf & Hs & Hc). split; [rewrite H; [done|left]|].
  split; [eapply rep_frame; [|done]|eapply IH; [|done]]; intros b Hb; apply H; cbn; rewrite elem_of_cons, elem_of_app; auto.
Qed.

(** ** Descriptions of the functions

    [does i e T f Q]: over a tree [T], beside a node [e] that is not in it, [f]
    returns and leaves a tree with the same nodes; [Q] is about the result and the
    tree. *)

Definition beside (e : option (positive * Node)) (T : tree) (w : Tree) : Prop :=
  match e with Some (a, n) => nodes w !! a = Some n ∧ a ∉ addrs T | None => True end.
Definition does (i : nat) (e : option (positive * Node)) {A} (T : tree) (f : io A) (Q : A → tree → Prop) : Prop :=
  ∀ w, Rep i T w → beside e T w →
    runs f w (λ r w' _, ∃ T', Rep i T' w' ∧ same_but i (addrs T) w w' ∧ addrs T' ≡ₚ addrs T ∧ Q r T').

Lemma same_but_perm i l l' w w' : l ≡ₚ l' → same_but i l w w' → same_but i l' w w'.
Proof. intros Hl (H & ?). split; [|done]. intros a Ha. apply H. by rewrite Hl. Qed.
Lemma beside_same i e T T' w w' : beside e T w → same_but i (addrs T) w w' → addrs T' ≡ₚ addrs T → beside e T' w'.
Proof. destruct e as [[a n]|]; [|done]. intros [Ha Hn] (H & _) HT. split; [by rewrite H|]. by rewrite HT. Qed.

(** The same tree, seen from another place. *)
Lemma does_at i e {A} T T' (f : io A) Q : T = T' → does i e T' f Q → does i e T f Q.
Proof. by intros ->. Qed.
Ltac place T' :=
  apply (does_at _ _ _ T'); [cbn [plug]; unfold plug1; cbn [f_dir f_addr f_item f_red f_sib]; rewrite ?bin_negb, ?negb_involutive; reflexivity|].

Section Does.
Context (i : nat) (e : option (positive * Node)).

(** The addresses differ. *)
Lemma does_nodup {A} T (f : io A) Q : (NoDup (addrs T) → does i e T f Q) → does i e T f Q.
Proof. intros H w HT. apply H; [|done]. apply HT. Qed.
Lemma does_apart {A} a T (f : io A) Q : ((∀ n, e = Some (a, n) → a ∉ addrs T) → does i e T f Q) → does i e T f Q.
Proof. intros H w HT He. apply H; [|done..]. intros n Hn. rewrite Hn in He. apply He. Qed.
Lemma does_ret {A} (r : A) T (Q : A → tree → Prop) : Q r T → does i e T (mret r) Q.
Proof. intros HQ w HT _. apply runs_ret. exists T. split; [done|]. split; [apply same_but_refl|done]. Qed.
Lemma does_bind {A B} T (f : io A) (g : A → io B) Q Q2 : does i e T f Q → (∀ r T', Q r T' → does i e T' (g r) Q2) → does i e T (f ≫= g) Q2.
Proof.
  intros Hf Hg w HT He. apply runs_bind. eapply runs_mono; [by apply Hf|]. intros r w1 ev1 (T1 & HT1 & Hs1 & Ha1 & HQ).
  eapply runs_mono; [eapply (Hg r T1 HQ); [done|by eapply beside_same]|]. intros r2 w2 ev2 (T2 & HT2 & Hs2 & Ha2 & HQ2).
  exists T2. split; [done|]. split; [|split; [by rewrite Ha2|done]].
  eapply same_but_trans; [done|]. by eapply same_but_perm.
Qed.
Lemma does_ret_bind {A B} T (r : A) (g : A → io B) Q : does i e T (g r) Q → does i e T (mret r ≫= g) Q.
Proof. intros H w HT He. apply runs_bind, runs_ret. by apply H. Qed.
Lemma does_last {A} T (f : io A) Q : does i e T (f ≫= mret) Q → does i e T f Q.
Proof.
  intros H w HT He. specialize (H w HT He). unfold runs, mbind, emitting_bind in H |- *. destruct (f w) as [[[r w1] ev1]|]; [exact H|done].
Qed.
Lemma does_lift {A B} T (o : option A) x (g : A → io B) Q : o = Some x → does i e T (g x) Q → does i e T (lift o ≫= g) Q.
Proof. intros -> H w HT He. apply runs_bind. apply (runs_lift _ x); [done|]. by apply H. Qed.
Lemma does_mono {A} T (f : io A) Q Q' : does i e T f Q → (∀ r T', Q r T' → Q' r T') → does i e T f Q'.
Proof. intros Hf HQ w HT He. eapply runs_mono; [by apply Hf|]. intros r w' ev (T' & ? & ? & ? & ?). eauto 6. Qed.

Lemma Rep_plug c t w : Rep i (plug c t) w ↔
  rep (nodes w) (parent_of c) t ∧ repc (nodes w) (root_of t) c ∧ roots w !! i = Some (root_of (plug c t)) ∧ NoDup (addrs t ++ caddrs c).
Proof. unfold Rep. rewrite rep_plug, (addrs_plug c t). tauto. Qed.
Lemma root_plug c t t' : root_of t = root_of t' → root_of (plug c t) = root_of (plug c t').
Proof. revert t t'. induction c as [|f c IH]; intros t t' H; cbn; [done|]. apply IH. unfold plug1. by rewrite !root_bin. Qed.

Lemma does_get {A} c a x col l r (g : Node → io A) Q :
  does i e (plug c (Bin a x col l r)) (g (node_at (parent_of c) x col (root_of l) (root_of r))) Q → does i e (plug c (Bin a x col l r)) (get a ≫= g) Q.
Proof.
  intros H w HT He. apply runs_bind. apply Rep_plug in HT as HT'. destruct HT' as ((Ha & _) & _).
  unfold runs at 1, get, lift. rewrite Ha. by apply H.
Qed.
Lemma does_get_bin {A} c d a x col s t (g : Node → io A) Q :
  (∀ n, parent n = parent_of c → child n d = root_of s → child n (negb d) = root_of t → red n = col → content n = x.1 → nsize n = x.2 →
     does i e (plug c (bin d a x col s t)) (g n) Q) → does i e (plug c (bin d a x col s t)) (get a ≫= g) Q.
Proof. intros H. destruct d; apply does_get; by apply H. Qed.
Lemma does_get_parent {A} f c t (g : Node → io A) Q :
  (∀ n, parent n = parent_of c → child n (f_dir f) = root_of t → child n (negb (f_dir f)) = root_of (f_sib f) → red n = f_red f →
     does i e (plug (f :: c) t) (g n) Q) → does i e (plug (f :: c) t) (get (f_addr f) ≫= g) Q.
Proof. intros H. apply (does_get_bin c (f_dir f) _ (f_item f) (f_red f)). intros n H1 H2 H3 H4 _ _. by apply H. Qed.
Lemma does_isRed {A} c t (g : bool → io A) Q : does i e (plug c t) (g (is_red t)) Q → does i e (plug c t) (isRed (root_of t) ≫= g) Q.
Proof.
  intros H. destruct t as [|a x col l r]; cbn [root_of isRed is_red] in *.
  - intros w HT He. by apply runs_bind, runs_ret, H.
  - intros w HT He. apply runs_bind, runs_bind. apply Rep_plug in HT as HT'. destruct HT' as ((Ha & _) & _).
    unfold runs at 1, get, lift. rewrite Ha. apply runs_ret. by apply H.
Qed.
Lemma does_isRed_parent {A} f c t (g : bool → io A) Q :
  does i e (plug (f :: c) t) (g (f_red f)) Q → does i e (plug (f :: c) t) (isRed (Some (f_addr f)) ≫= g) Q.
Proof.
  intros H. pose proof (does_isRed c (plug1 f t) g Q) as H1. unfold plug1 in H1. rewrite root_bin, is_red_bin in H1. by apply H1.
Qed.
Lemma does_isBlack {A} c t (g : bool → io A) Q : does i e (plug c t) (g (negb (is_red t))) Q → does i e (plug c t) (isBlack (root_of t) ≫= g) Q.
Proof.
  intros H. destruct t as [|a x col l r]; cbn [root_of isBlack is_red] in *.
  - intros w HT He. by apply runs_bind, runs_ret, H.
  - intros w HT He. apply runs_bind, runs_bind. apply Rep_plug in HT as HT'. destruct HT' as ((Ha & _) & _).
    unfold runs at 1, get, lift. rewrite Ha. apply runs_ret. by apply H.
Qed.
Lemma does_get_root {A} T (g : option positive → io A) Q : does i e T (g (root_of T)) Q → does i e T (get_root i ≫= g) Q.
Proof. intros H w HT He. apply runs_bind. unfold runs at 1, get_root, lift. rewrite (proj1 (proj2 HT)). by apply H. Qed.

(** Writing a node. *)
Definition written (w : Tree) (h : gmap positive Node) : Tree := mkTree h (roots w) (count w) (size w) (allow_duplicates w).
Lemma runs_set a f w n (Q : () → Tree → list () → Prop) : nodes w !! a = Some n → Q () (written w (<[a := f n]> (nodes w))) [] → runs (set a f) w Q.
Proof. intros Ha HQ. unfold set. apply runs_bind. unfold runs at 1, get, lift. by rewrite Ha. Qed.

Lemma does_set {A} c a x col l r f x' col' (g : () → io A) Q :
  (∀ p lo ro, f (node_at p x col lo ro) = node_at p x' col' lo ro) →
  does i e (plug c (Bin a x' col' l r)) (g ()) Q → does i e (plug c (Bin a x col l r)) (set a f ≫= g) Q.
Proof.
  intros Hf Hg. eapply (does_bind _ _ _ (λ _ T', T' = plug c (Bin a x' col' l r))); [|by intros [] T' ->].
  intros w HT He. apply Rep_plug in HT as ((Ha & Hl & Hr) & Hc & Hroot & Hnd). eapply runs_set; [done|].
  rewrite Hf. exists (plug c (Bin a x' col' l r)). split; [|split; [|split; [by rewrite !addrs_plug|done]]].
  - apply NoDup_app in Hnd as Hnd'. destruct Hnd' as (Hnd1 & Hnd2 & _). cbn in Hnd1. apply NoDup_cons in Hnd1 as [Hna _].
    rewrite elem_of_app in Hna. apply Rep_plug. cbn [nodes written roots root_of] in *. split; [split|split; [|split; [|done]]].
    + by rewrite lookup_insert_eq.
    + split; (eapply rep_frame; [|done]); intros b Hb; rewrite lookup_insert_ne; [done|intros <-; auto|done|intros <-; auto].
    + eapply repc_frame; [|done]. intros b Hb. rewrite lookup_insert_ne; [done|]. intros <-. by apply (Hnd2 a); [left|].
    + rewrite Hroot. f_equal. by apply root_plug.
  - split; [|done]. intros b Hb. cbn. rewrite lookup_insert_ne; [done|]. intros <-. apply Hb. rewrite addrs_plug. cbn. left.
Qed.
Lemma does_set_red {A} c a x col l r col' (g : () → io A) Q :
  does i e (plug c (Bin a x col' l r)) (g ()) Q → does i e (plug c (Bin a x col l r)) (set_red a col' ≫= g) Q.
Proof. by apply does_set. Qed.
Lemma does_set_red_last c a x col l r col' :
  does i e (plug c (Bin a x col l r)) (set_red a col') (λ _ T', T' = plug c (Bin a x col' l r)).
Proof.
  apply does_last, does_set_red. by apply does_ret.
Qed.
Lemma does_set_red_bin {A} c d a x col s t col' (g : () → io A) Q :
  does i e (plug c (bin d a x col' s t)) (g ()) Q → does i e (plug c (bin d a x col s t)) (set_red a col' ≫= g) Q.
Proof. destruct d; apply does_set_red. Qed.

(** The place of a subtree gets another root. *)
Definition hung (c : ctx) (o : option positive) (h : gmap positive Node) : gmap positive Node :=
  match c with
  | [] => h
  | f :: c' => <[f_addr f := with_child (with_child (node_at (parent_of c') (f_item f) (f_red f) None None) (f_dir f) o) (negb (f_dir f)) (root_of (f_sib f))]> h
  end.
Definition hung_roots (c : ctx) (o : option positive) (l : list (option positive)) : list (option positive) :=
  match c with [] => <[i := o]> l | _ => l end.
Lemma replace_child_runs c a d o w (Q : () → Tree → list () → Prop) :
  repc (nodes w) (Some a) c → (∀ f c', c = f :: c' → a ∉ addrs (f_sib f)) →
  Q () (mkTree (hung c o (nodes w)) (hung_roots c o (roots w)) (count w) (size w) (allow_duplicates w)) [] →
  runs (replace_child i (parent_of c) a d o) w Q.
Proof.
  intros Hc Hs HQ. destruct c as [|f c]; cbn [parent_of replace_child]; [done|].
  destruct Hc as (Hf & _ & _). specialize (Hs f c eq_refl).
  apply runs_bind. unfold runs at 1, get, lift. rewrite Hf.
  assert (Hsib : root_of (f_sib f) ≠ Some a).
  { destruct (f_sib f) as [|b ? ? ? ?]; cbn in *; [done|]. intros [= ->]. apply Hs. left. }
  destruct f as [fd fa fx fc fs]. cbn [f_dir f_addr f_item f_red f_sib] in *. unfold set_child.
  case_bool_decide as Hd; (eapply runs_set; [exact Hf|]); cbn [hung hung_roots] in HQ;
    (refine (eq_rect _ (λ x, Q () x []) HQ _ _)); unfold written; f_equal; f_equal; destruct fd, d; cbn in *; congruence.
Qed.
Lemma hung_other c o h b : b ∉ caddrs c → hung c o h !! b = h !! b.
Proof. destruct c as [|f c]; cbn; [done|]. intros Hb. rewrite lookup_insert_ne; [done|]. intros <-. apply Hb. left. Qed.
Lemma repc_hung h h' o o' c : repc h o c → NoDup (caddrs c) → (∀ b, b ∈ caddrs c → h' !! b = hung c o' h !! b) → repc h' o' c.
Proof.
  destruct c as [|f c]; cbn; [done|]. intros (Hf & Hs & Hc) Hnd Hh. apply NoDup_cons in Hnd as [Hnf Hnd]. split; [|split].
  - rewrite Hh by left. by rewrite lookup_insert_eq.
  - eapply rep_frame; [|done]. intros b Hb. rewrite Hh; [|right; apply elem_of_app; by left].
    rewrite lookup_insert_ne; [done|]. intros <-. apply Hnf, elem_of_app. by left.
  - eapply repc_frame; [|done]. intros b Hb. rewrite Hh; [|right; apply elem_of_app; by right].
    rewrite lookup_insert_ne; [done|]. intros <-. apply Hnf, elem_of_app. by right.
Qed.
Lemma root_hung c t t' l : l !! i = Some (root_of (plug c t)) → hung_roots c (root_of t') l !! i = Some (root_of (plug c t')).
Proof.
  destruct c as [|f c]; cbn [hung_roots plug]; intros Hl.
  - by rewrite list_lookup_insert_eq by (by eapply lookup_lt_Some).
  - rewrite Hl. f_equal. apply root_plug. unfold plug1. by rewrite !root_bin.
Qed.
(** Another subtree at a place. *)
Lemma Rep_hung c t t' w w' : Rep i (plug c t) w → addrs t' ≡ₚ addrs t →
  (∀ b, b ∉ addrs t → nodes w' !! b = hung c (root_of t') (nodes w) !! b) → rep (nodes w') (parent_of c) t' →
  roots w' = hung_roots c (root_of t') (roots w) → Rep i (plug c t') w'.
Proof.
  intros HR Ht Hh Hrep Hroot. apply Rep_plug in HR as (Hr & Hc & Hl & Hnd). apply Rep_plug. split; [done|].
  apply NoDup_app in Hnd as Hnd'. destruct Hnd' as (_ & Hdis & Hndc). split; [|split; [|by rewrite Ht]].
  - eapply repc_hung; [done|done|]. intros b Hb. apply Hh. intros Hb2. by eapply Hdis.
  - rewrite Hroot. by eapply root_hung.
Qed.
Lemma hung_ext c o h h' b : h !! b = h' !! b → hung c o h !! b = hung c o h' !! b.
Proof. destruct c as [|f c]; cbn; [done|]. intros H. destruct (decide (f_addr f = b)) as [<-|Hne]; [by rewrite !lookup_insert_eq|by rewrite !lookup_insert_ne]. Qed.

Lemma node_then {A} a n (g : Node → io A) w Q : nodes w !! a = Some n → runs (g n) w Q → runs (get a ≫= g) w Q.
Proof. intros Ha HQ. apply runs_bind. unfold runs at 1, get, lift. by rewrite Ha. Qed.
Lemma node_set_then {A} a n f (g : () → io A) w Q : nodes w !! a = Some n → runs (g ()) (written w (<[a := f n]> (nodes w))) Q → runs (set a f ≫= g) w Q.
Proof. intros Ha HQ. by apply runs_bind, (runs_set _ _ _ n). Qed.
Lemma lift_next {A B} (o : option A) x (g : A → io B) w Q : o = Some x → runs (g x) w Q → runs (lift o ≫= g) w Q.
Proof. intros -> HQ. by apply runs_bind, (runs_lift _ x). Qed.
(** A subtree gets another parent. *)
Definition adopt (o : option positive) (p : option positive) : io () := match o with Some m => set_parent m p | None => mret () end.
Lemma adopt_runs {A} m p p' (g : () → io A) w Q : rep (nodes w) p m → NoDup (addrs m) →
  (∀ h, (∀ x, x ∉ addrs m → h !! x = nodes w !! x) → rep h p' m → runs (g ()) (written w h) Q) →
  runs (adopt (root_of m) p' ≫= g) w Q.
Proof.
  intros Hm Hnd Hg. destruct m as [|a x col l r]; cbn [root_of adopt].
  { apply runs_bind, runs_ret. specialize (Hg (nodes w)). destruct w. by apply Hg. }
  cbn in Hnd. apply NoDup_cons in Hnd as [Hna Hnd]. rewrite not_elem_of_app in Hna. destruct Hm as (Ha & Hl & Hr).
  eapply node_set_then; [done|]. apply Hg.
  - intros y Hy. apply not_elem_of_cons in Hy as [Hy _]. by rewrite lookup_insert_ne.
  - split; [by rewrite lookup_insert_eq|]. split; (eapply rep_frame; [|done]); intros y Hy; rewrite lookup_insert_ne; try done; intros <-; tauto.
Qed.

Lemma rotate_runs c d a xa ca u b xb cb m v w :
  Rep i (plug c (bin d a xa ca u (bin d b xb cb m v))) w →
  runs (TreeRotate a d i) w (λ _ w' _, Rep i (plug c (bin d b xb cb (bin d a xa ca u m) v)) w' ∧
    same_but i (addrs (plug c (bin d a xa ca u (bin d b xb cb m v)))) w w').
Proof.
  intros HR. set (t := bin d a xa ca u (bin d b xb cb m v)). set (t' := bin d b xb cb (bin d a xa ca u m) v).
  apply Rep_plug in HR as HR'. destruct HR' as (Hr & Hc & Hl & Hnd). rewrite root_bin in Hc.
  apply rep_bin in Hr as (Ha & Hu & Hb). apply rep_bin in Hb as (Hb & Hm & Hv). rewrite root_bin in Ha.
  assert (Hperm : addrs t ≡ₚ a :: b :: addrs m ++ addrs u ++ addrs v).
  { unfold t. rewrite !addrs_bin. apply perm_skip. rewrite <-Permutation_middle. apply perm_skip. rewrite !app_assoc. f_equiv. apply Permutation_app_comm. }
  assert (Hnd2 : NoDup (a :: b :: addrs m ++ addrs u ++ addrs v ++ caddrs c)).
  { revert Hnd. fold t. rewrite Hperm. cbn. by rewrite <-!app_assoc. }
  clear Hnd.
  apply NoDup_cons in Hnd2 as [Hna Hnd2]. apply NoDup_cons in Hnd2 as [Hnb Hnd2]. apply NoDup_app in Hnd2 as (Hndm & Hdm & Hnd2).
  rewrite !not_elem_of_cons, !not_elem_of_app in Hna. rewrite !not_elem_of_app in Hnb.
  destruct Hna as (Hab & Ham & Hau & Hav & Hac). destruct Hnb as (Hbm & Hbu & Hbv & Hbc).
  unfold TreeRotate. eapply node_then; [done|]. eapply (lift_next _ b); [by destruct d|].
  eapply node_then; [done|]. eapply node_set_then; [done|].
  match goal with |- context [child ?n d] => replace (child n d) with (root_of m) by (by destruct d) end.
  eapply (adopt_runs m (Some b) (Some a)); [|done|].
  { eapply rep_frame; [|done]. intros y Hy. cbn. rewrite lookup_insert_ne; [done|]. intros <-. tauto. }
  intros h2 Hh2 Hm2. cbn [nodes written] in Hh2.
  eapply node_set_then; [cbn; rewrite Hh2 by done; rewrite lookup_insert_ne by done; done|].
  match goal with |- context [parent ?n] => replace (parent n) with (parent_of c) by (by destruct d) end.
  cbn [written nodes roots count size allow_duplicates].
  match goal with |- context [<[b := ?n]> h2] => set (h3 := <[b := n]> h2) end.
  assert (Hh3 : ∀ y, y ∈ caddrs c → h3 !! y = nodes w !! y).
  { intros y Hy. unfold h3. rewrite lookup_insert_ne by (intros <-; done). rewrite Hh2 by (intros Hym; apply (Hdm y Hym); set_solver).
    rewrite lookup_insert_ne; [done|]. by intros <-. }
  apply runs_bind, replace_child_runs.
  { eapply repc_frame; [|exact Hc]. exact Hh3. }
  { intros f c' -> Hin. apply Hac. cbn. set_solver. }
  cbn [written nodes roots count size allow_duplicates].
  assert (Hb4 : hung c (Some b) h3 !! b = h3 !! b) by (by apply hung_other).
  assert (Ha4 : hung c (Some b) h3 !! a = h3 !! a) by (by apply hung_other).
  eapply node_set_then; [cbn; rewrite Hb4; apply lookup_insert_eq|].
  eapply runs_set.
  { cbn. rewrite lookup_insert_ne by done. rewrite Ha4. unfold h3. rewrite lookup_insert_ne by done. rewrite Hh2 by done. apply lookup_insert_eq. }
  cbn [written nodes roots count size allow_duplicates].
  match goal with |- Rep _ _ (written _ ?h) ∧ _ => set (h6 := h) end.
  assert (Hin : ∀ y, y ≠ a → y ≠ b → h6 !! y = hung c (Some b) h3 !! y).
  { intros y Hya Hyb. unfold h6. by rewrite !lookup_insert_ne. }
  assert (Ht3 : ∀ y, y ≠ a → y ≠ b → y ∉ addrs m → h3 !! y = nodes w !! y).
  { intros y Hya Hyb Hym. unfold h3. rewrite lookup_insert_ne by done. rewrite Hh2 by done. by rewrite lookup_insert_ne. }
  assert (Hkeep : ∀ y, y ∈ addrs u ∨ y ∈ addrs v → h6 !! y = nodes w !! y).
  { intros y Hy. assert (y ≠ a ∧ y ≠ b) as [Hya Hyb] by (split; intros ->; tauto).
    rewrite Hin by done. apply NoDup_app in Hnd2 as (_ & Hdu & Hndv). apply NoDup_app in Hndv as (_ & Hdv & _).
    rewrite hung_other by (destruct Hy as [Hy|Hy]; [specialize (Hdu y Hy); set_solver|by apply Hdv]).
    apply Ht3; [done..|]. intros Hym. specialize (Hdm y Hym). set_solver. }
  assert (Hperm' : addrs t' ≡ₚ addrs t) by (unfold t, t'; rewrite !addrs_bin; solve_Permutation).
  split.
  - apply (Rep_hung c t t' w); [done|done|..].
    + intros y Hy. rewrite Hperm, !not_elem_of_cons, !not_elem_of_app in Hy. destruct Hy as (Hya & Hyb & Hym & Hyu & Hyv).
      change (h6 !! y = hung c (root_of t') (nodes w) !! y). rewrite Hin by done. unfold t'. rewrite root_bin. apply hung_ext. by apply Ht3.
    + change (rep h6 (parent_of c) t'). unfold t'. rewrite !rep_bin, root_bin. split_and!.
      * unfold h6. rewrite lookup_insert_ne by done. rewrite lookup_insert_eq. by destruct d.
      * unfold h6. rewrite lookup_insert_eq. by destruct d.
      * eapply rep_frame; [|exact Hu]. auto.
      * eapply rep_frame; [|exact Hm2]. intros y Hy. assert (y ≠ a ∧ y ≠ b) as [Hya Hyb] by (split; intros ->; tauto).
        rewrite Hin by done. rewrite hung_other by (specialize (Hdm y Hy); set_solver). unfold h3. by rewrite lookup_insert_ne.
      * eapply rep_frame; [|exact Hv]. auto.
    + cbn. unfold t'. by rewrite root_bin.
  - split_and!; [|..|done|done|done].
    + intros y Hy. rewrite addrs_plug in Hy. fold t in Hy. rewrite Hperm in Hy. rewrite not_elem_of_app, !not_elem_of_cons, !not_elem_of_app in Hy.
      destruct Hy as ((Hya & Hyb & Hym & Hyu & Hyv) & Hyc). cbn. rewrite Hin by done. rewrite hung_other by done. by apply Ht3.
    + intros j Hj. cbn. destruct c; cbn; [|done]. by rewrite list_lookup_insert_ne.
    + cbn. destruct c; cbn; [|done]. by rewrite length_insert.
Qed.

Lemma does_rotate {A} c d a xa ca u b xb cb m v (g : () → io A) Q :
  does i e (plug c (bin d b xb cb (bin d a xa ca u m) v)) (g ()) Q →
  does i e (plug c (bin d a xa ca u (bin d b xb cb m v))) (TreeRotate a d i ≫= g) Q.
Proof.
  intros Hg. eapply (does_bind _ _ _ (λ _ T', T' = plug c (bin d b xb cb (bin d a xa ca u m) v))); [|by intros [] T' ->].
  intros w HT _. eapply runs_mono; [by apply rotate_runs|]. intros _ w' _ [HT' Hs].
  exists (plug c (bin d b xb cb (bin d a xa ca u m) v)). split; [done|]. split; [done|]. split; [|done].
  rewrite !addrs_plug. f_equiv. rewrite !addrs_bin. solve_Permutation.
Qed.

Lemma rep_dom h p t a : rep h p t → a ∈ addrs t → is_Some (h !! a).
Proof.
  revert p. induction t as [|b x c l IHl r IHr]; intros p Hr Ha; cbn in *; [by apply not_elem_of_nil in Ha|].
  destruct Hr as (Hb & Hl & Hr). apply elem_of_cons in Ha as [->|Ha]; [by eexists|]. apply elem_of_app in Ha as [Ha|Ha]; eauto.
Qed.
Lemma addrs_size T w : Rep i T w → (length (addrs T) ≤ base.size (nodes w))%nat.
Proof.
  intros (Hr & _ & Hnd). rewrite <-(size_dom (nodes w)). rewrite <-(size_list_to_set (C := gset positive) (addrs T)) by done.
  apply subseteq_size. intros a Ha. apply elem_of_list_to_set in Ha. apply elem_of_dom. by eapply rep_dom.
Qed.
Lemma does_walk {A B} T (body : A → io (A + B)) x Q :
  (∀ fuel, (length (addrs T) + 2 ≤ fuel)%nat → does i e T (iterate fuel body x) Q) → does i e T (walk body x) Q.
Proof.
  intros H w HT He. unfold walk. apply runs_bind. unfold runs at 1, the_tree. apply H; [|done|done].
  pose proof (addrs_size _ _ HT). lia.
Qed.
Lemma ctx_length c t : (length c ≤ length (addrs (plug c t)))%nat.
Proof.
  rewrite addrs_plug, length_app. enough (length c ≤ length (caddrs c))%nat by lia. induction c as [|f c IH]; cbn; [lia|]. rewrite length_app. lia.
Qed.

End Does.
End TreesShape.
