(* ===== verification/TreesBalance.v ===== *)
(** * Red-black trees: balancing (paho.mqtt.c/src/Tree.c) *)
From S2P Require Import Prelude Trees TreesShape.

Module TreesBalance.
Import Trees TreesShape.

Section Balance.
Context (i : nat) (e : option (positive * Node)).

(** ** Balancing after an addition *)

(** The place where the loop stops, and what is there. *)
Fixpoint fix_add (c : ctx) (t : tree) : ctx * tree :=
  match c with
  | p :: g :: c' =>
      if f_red p then
        let d := f_dir g in
        if is_red (f_sib g) then
          fix_add c' (bin d (f_addr g) (f_item g) true (bin (f_dir p) (f_addr p) (f_item p) false t (f_sib p)) (blacken (f_sib g)))
        else if bool_decide (f_dir p = d) then
          (mkFrame d (f_addr p) (f_item p) false (bin d (f_addr g) (f_item g) true (f_sib p) (f_sib g)) :: c', t)
        else
          match t with
          | Leaf => (c, t)
          | Bin a x col l r =>
              let inner := if d then r else l in let outer := if d then l else r in
              (mkFrame d a x false (bin d (f_addr g) (f_item g) true outer (f_sib g)) :: c', bin d (f_addr p) (f_item p) (f_red p) (f_sib p) inner)
          end
      else (c, t)
  | _ => (c, t)
  end.

(** One turn, the uncle being red. *)
Lemma BAASub_red c d pd z p px g gx gc (uncle s t : tree) :
  root_of t = Some z → is_red uncle = true →
  does i e (plug c (bin d g gx gc (bin pd p px true t s) uncle)) (TreeBAASub z (negb d) i)
    (λ r T', r = g ∧ T' = plug c (bin d g gx true (bin pd p px false t s) (blacken uncle))).
Proof.
  intros Hz Hu. unfold TreeBAASub. destruct t as [|z' zx zc zl zr]; [done|]. injection Hz as ->.
  destruct uncle as [|u ux uc ul ur]; [done|]. cbn in Hu. subst uc.
  set (t := Bin z zx zc zl zr). set (uncle := Bin u ux true ul ur).
  place (plug (mkFrame pd p px true s :: mkFrame d g gx gc uncle :: c) t). apply does_get. eapply does_lift; [done|].
  place (plug (mkFrame d g gx gc uncle :: c) (bin pd p px true t s)). apply does_get_bin. intros pn Hpn _ _ _ _ _. rewrite Hpn. eapply does_lift; [done|].
  place (plug c (bin d g gx gc (bin pd p px true t s) uncle)). apply does_get_bin. intros gn _ _ Hgu _ _ _. rewrite Hgu.
  place (plug (mkFrame (negb d) g gx gc (bin pd p px true t s) :: c) uncle). apply does_isRed. eapply does_lift; [done|]. apply does_set_red.
  place (plug (mkFrame d g gx gc (blacken uncle) :: c) (bin pd p px true t s)). apply does_set_red_bin.
  place (plug c (bin d g gx gc (bin pd p px false t s) (blacken uncle))). apply does_set_red_bin. by apply does_ret.
Qed.
(** The uncle being black, the two rotations. *)
Lemma BAASub_outer c d z p px g gx gc (uncle s t : tree) :
  root_of t = Some z → is_red uncle = false → root_of s ≠ Some z →
  does i e (plug c (bin d g gx gc (bin d p px true t s) uncle)) (TreeBAASub z (negb d) i)
    (λ r T', r = z ∧ T' = plug c (bin d p px false t (bin d g gx true s uncle))).
Proof.
  intros Hz Hu Hs. unfold TreeBAASub. destruct t as [|z' zx zc zl zr]; [done|]. injection Hz as ->. set (t := Bin z zx zc zl zr).
  place (plug (mkFrame d p px true s :: mkFrame d g gx gc uncle :: c) t). apply does_get. eapply does_lift; [done|].
  place (plug (mkFrame d g gx gc uncle :: c) (bin d p px true t s)). apply does_get_bin. intros pn Hpn _ Hps _ _ _. rewrite Hpn, Hps. eapply does_lift; [done|].
  place (plug c (bin d g gx gc (bin d p px true t s) uncle)). apply does_get_bin. intros gn _ _ Hgu _ _ _. rewrite Hgu.
  place (plug (mkFrame (negb d) g gx gc (bin d p px true t s) :: c) uncle). apply does_isRed. rewrite Hu.
  rewrite bool_decide_eq_false_2 by done.
  apply does_ret_bind.
  place (plug (mkFrame d p px true s :: mkFrame d g gx gc uncle :: c) t). apply does_get. eapply does_lift; [done|].
  place (plug (mkFrame d g gx gc uncle :: c) (bin d p px true t s)). apply does_set_red_bin. apply does_get_bin. intros pn' Hpn' _ _ _ _ _. rewrite Hpn'. eapply does_lift; [done|].
  place (plug c (bin d g gx gc (bin d p px false t s) uncle)). apply does_set_red_bin.
  place (plug c (bin (negb d) g gx true uncle (bin (negb d) p px false s t))). apply does_rotate. apply does_ret. split; [done|].
  by rewrite !bin_negb.
Qed.
Lemma BAASub_inner c (d : bool) z zx zc (zl zr : tree) p px g gx gc (uncle s : tree) :
  is_red uncle = false →
  let t := Bin z zx zc zl zr in let inner := if d then zr else zl in let outer := if d then zl else zr in
  does i e (plug c (bin d g gx gc (bin (negb d) p px true t s) uncle)) (TreeBAASub z (negb d) i)
    (λ r T', r = p ∧ T' = plug c (bin d z zx false (bin d p px true s inner) (bin d g gx true outer uncle))).
Proof.
  intros Hu t inner outer. assert (Ht : t = bin d z zx zc inner outer) by (unfold t, inner, outer; by destruct d). unfold TreeBAASub.
  place (plug (mkFrame (negb d) p px true s :: mkFrame d g gx gc uncle :: c) t). apply does_get. eapply does_lift; [done|].
  place (plug (mkFrame d g gx gc uncle :: c) (bin (negb d) p px true t s)). apply does_get_bin. intros pn Hpn Hpt _ _ _ _. rewrite Hpn, Hpt. eapply does_lift; [done|].
  place (plug c (bin d g gx gc (bin (negb d) p px true t s) uncle)). apply does_get_bin. intros gn _ _ Hgu _ _ _. rewrite Hgu.
  place (plug (mkFrame (negb d) g gx gc (bin (negb d) p px true t s) :: c) uncle). apply does_isRed. rewrite Hu.
  rewrite bool_decide_eq_true_2 by done. rewrite negb_involutive.
  eapply (does_bind i e _ _ _ (λ r T', r = p ∧ T' = plug (mkFrame d g gx gc uncle :: c) (bin d z zx zc (bin d p px true s inner) outer))).
  { rewrite Ht. place (plug (mkFrame d g gx gc uncle :: c) (bin d p px true s (bin d z zx zc inner outer))). apply does_rotate. by apply does_ret. }
  intros r T' [-> ->].
  place (plug (mkFrame d z zx zc outer :: mkFrame d g gx gc uncle :: c) (bin d p px true s inner)). apply does_get_bin. intros pn1 Hpn1 _ _ _ _ _. rewrite Hpn1. eapply does_lift; [done|].
  place (plug (mkFrame d g gx gc uncle :: c) (bin d z zx zc (bin d p px true s inner) outer)). apply does_set_red_bin. apply does_get_bin. intros zn Hzn _ _ _ _ _. rewrite Hzn. eapply does_lift; [done|].
  place (plug c (bin d g gx gc (bin d z zx false (bin d p px true s inner) outer) uncle)). apply does_set_red_bin.
  place (plug c (bin (negb d) g gx true uncle (bin (negb d) z zx false outer (bin d p px true s inner)))). apply does_rotate. apply does_ret. split; [done|].
  by rewrite !bin_negb.
Qed.

(** The loop stops when the parent is black or the root. *)
Lemma add_turn_stops c t z : root_of t = Some z → match c with p :: _ :: _ => f_red p = false | _ => True end →
  does i e (plug c t) (balance_add_turn i z) (λ r T', r = inr () ∧ T' = plug c t).
Proof.
  intros Hz Hc. destruct t as [|z' x col l r]; [done|]. injection Hz as ->. unfold balance_add_turn. apply does_get. cbn [node_at parent].
  destruct c as [|p c]; [by apply does_ret_bind, does_ret|]. cbn [parent_of]. apply does_isRed_parent.
  destruct (f_red p) eqn:Hp; [|by apply does_ret]. destruct c; [|done]. eapply does_lift; [done|].
  apply does_get_parent. intros n Hn _ _ _. rewrite Hn. by apply does_ret.
Qed.
Lemma add_turn_goes c p g t z Q : root_of t = Some z → f_red p = true →
  does i e (plug (p :: g :: c) t) (TreeBAASub z (negb (f_dir g)) i) Q →
  does i e (plug (p :: g :: c) t) (balance_add_turn i z) (λ r T', ∃ z', r = inl z' ∧ Q z' T').
Proof.
  intros Hz Hp HQ. apply does_nodup. intros Hnd. destruct t as [|z' x col l r]; [done|]. injection Hz as ->. set (t := Bin z x col l r). unfold balance_add_turn.
  apply does_get. cbn [node_at parent parent_of]. apply does_isRed_parent. rewrite Hp. eapply does_lift; [done|].
  apply does_get_parent. intros n Hn _ _ _. rewrite Hn. cbn [parent_of].
  apply (does_get_parent i e g c (plug1 p t)). intros gn _ Hd Hd2 _. eapply does_bind; [|intros r' T' HQ'; apply does_ret; exists r'; split; [done|exact HQ']].
  unfold plug1 in Hd. rewrite root_bin in Hd. destruct (f_dir g) eqn:Hdir; cbn [negb] in *; [|by rewrite bool_decide_eq_true_2].
  rewrite bool_decide_eq_false_2; [done|]. intros Hs. rewrite Hd2 in Hs.
  rewrite addrs_plug in Hnd. apply NoDup_app in Hnd as (_ & _ & Hnd). cbn in Hnd. apply NoDup_cons in Hnd as [Hnp _]. apply Hnp.
  apply elem_of_app. right. right. apply elem_of_app. left. destruct (f_sib g); [done|]. injection Hs as ->. left.
Qed.

Lemma add_loop fuel c t z : root_of t = Some z → (length c < fuel)%nat →
  does i e (plug c t) (iterate fuel (balance_add_turn i) z) (λ _ T', T' = plug (fix_add c t).1 (fix_add c t).2).
Proof.
  revert c t z. induction fuel as [|fuel IH]; intros c t z Hz Hf; [lia|].
  assert (Hstop : match c with p :: _ :: _ => f_red p = false | _ => True end →
    does i e (plug c t) (iterate (S fuel) (balance_add_turn i) z) (λ _ T', T' = plug c t)).
  { intros Hc. cbn [iterate]. eapply does_bind; [by apply add_turn_stops|]. intros r T' [-> ->]. by apply does_ret. }
  destruct c as [|p [|g c]]; [by apply Hstop..|]. cbn [fix_add]. destruct (f_red p) eqn:Hp; [|by apply Hstop]. clear Hstop.
  destruct p as [pd pa px pc ps], g as [gd ga gx gc gs]. cbn [f_dir f_addr f_item f_red f_sib length] in *. subst pc.
  cbn [iterate].
  destruct (is_red gs) eqn:Hgs.
  { eapply does_bind; [by apply add_turn_goes, BAASub_red|]. intros r T' (z' & -> & -> & ->). apply IH; [by rewrite root_bin|lia]. }
  assert (Hlast : ∀ f c' t' z', root_of t' = Some z' → f_red f = false →
    does i e (plug (f :: c') t') (iterate fuel (balance_add_turn i) z') (λ _ T', T' = plug (f :: c') t')).
  { intros f c' t' z' Hz' Hf'. destruct fuel as [|fuel']; [lia|]. cbn [iterate]. eapply does_bind; [by apply add_turn_stops; [|destruct c']|].
    intros r T' [-> ->]. by apply does_ret. }
  apply does_nodup. intros Hnd. case_bool_decide as Hd.
  - subst gd. eapply does_bind; [apply add_turn_goes; [done..|]; apply BAASub_outer; [done..|]|].
    + intros Hs. destruct t as [|a x col l r]; [done|]. injection Hz as ->. rewrite addrs_plug in Hnd. apply NoDup_app in Hnd as (_ & Hnd & _).
      apply (Hnd z); [left|]. cbn. right. apply elem_of_app. left. destruct ps; [done|]. injection Hs as ->. left.
    + intros r T' (z' & -> & -> & ->). by apply (Hlast (mkFrame pd pa px false (bin pd ga gx true ps gs)) c).
  - assert (pd = negb gd) as -> by (by destruct pd, gd). destruct t as [|a x col l r]; [done|]. injection Hz as ->.
    eapply does_bind; [apply add_turn_goes; [done..|]; by apply BAASub_inner|]. intros r' T' (z' & -> & -> & ->).
    apply (Hlast (mkFrame gd z x false (bin gd ga gx true (if gd then l else r) gs)) c (bin gd pa px true ps (if gd then r else l))); [|done].
    apply root_bin.
Qed.

Lemma plug_root c t : is_Some (root_of t) → is_Some (root_of (plug c t)).
Proof. revert t. induction c as [|f c IH]; intros t Ht; [done|]. apply IH. unfold plug1. by rewrite root_bin. Qed.
(** The root is black in the end. *)
Lemma does_blacken c z t : root_of t = Some z → does i e (plug c t) (o ← get_root i; r ← lift o; set_red r false) (λ _ T', T' = blacken (plug c t)).
Proof.
  intros Hz. apply does_get_root. destruct (plug_root c t) as [r' Hr]; [by rewrite Hz|]. destruct (plug c t) as [|a x col l r] eqn:Ht; [done|].
  injection Hr as <-. eapply does_lift; [done|]. apply (does_set_red_last i e [] a x col l r).
Qed.

Lemma fix_add_root c t : is_Some (root_of t) → is_Some (root_of (fix_add c t).2).
Proof.
  remember (length c) as k eqn:Hk. revert c t Hk. induction (lt_wf k) as [k _ IH]. intros c t -> Ht.
  destruct c as [|p [|g c]]; [done..|]. cbn [fix_add]. destruct (f_red p); [|done].
  destruct (is_red (f_sib g)); [apply (IH (length c) ltac:(cbn; lia) c _ eq_refl); by rewrite root_bin|]. case_bool_decide; [done|].
  destruct t; [done|]. cbn. by rewrite root_bin.
Qed.
Lemma TreeBalanceAfterAdd_does c t z : root_of t = Some z →
  does i e (plug c t) (TreeBalanceAfterAdd z i) (λ _ T', T' = blacken (plug (fix_add c t).1 (fix_add c t).2)).
Proof.
  intros Hz. unfold TreeBalanceAfterAdd. eapply does_bind.
  { apply does_walk. intros fuel Hf. apply add_loop; [done|]. pose proof (ctx_length c t). lia. }
  intros [] T' ->. destruct (fix_add_root c t) as [z' Hz']; [by rewrite Hz|]. by eapply does_blacken.
Qed.
End Balance.

(** ** The balance and the order *)

(** Every way down has [n] black nodes, and a red node has black children. *)
Fixpoint rb (n : nat) (t : tree) : Prop :=
  match t with
  | Leaf => n = O
  | Bin _ _ true l r => is_red l = false ∧ is_red r = false ∧ rb n l ∧ rb n r
  | Bin _ _ false l r => match n with O => False | S m => rb m l ∧ rb m r end
  end.
Definition balanced (T : tree) : Prop := is_red T = false ∧ ∃ n, rb n T.
(** A tree with [n] black nodes fits in this place, the color of its root apart. *)
Fixpoint rbc (n : nat) (c : ctx) : Prop :=
  match c with
  | [] => True
  | f :: c' =>
      if f_red f then is_red (f_sib f) = false ∧ rb n (f_sib f) ∧ rbc n c' ∧ match c' with g :: _ => f_red g = false | [] => False end
      else rb n (f_sib f) ∧ rbc (S n) c'
  end.
Definition fits (t : tree) (c : ctx) : Prop := match c with f :: _ => is_red t && f_red f = false | [] => True end.

Lemma rb_bin n d a x col s t : rb n (bin d a x col s t) ↔
  if col then is_red s = false ∧ is_red t = false ∧ rb n s ∧ rb n t else match n with O => False | S m => rb m s ∧ rb m t end.
Proof. destruct d, col, n; cbn; tauto. Qed.
Lemma rb_blacken n t : rb n t → is_red t = true → rb (S n) (blacken t).
Proof. destruct t as [|a x [] l r]; cbn; intuition done. Qed.

Lemma balanced_plug c t n : rb n t → rbc n c → fits t c → balanced (blacken (plug c t)).
Proof.
  revert t n. induction c as [|f c IH]; intros t n Ht Hc Hf; cbn [plug].
  - destruct (is_red t) eqn:Hr; [|destruct t as [|a x [] l r]; [..|done|]].
    + split; [by destruct t|]. exists (S n). by apply rb_blacken.
    + split; [done|]. by exists n.
    + split; [done|]. by exists n.
  - cbn in Hc, Hf. destruct (f_red f) eqn:Hr.
    + destruct Hc as (Hs & Hsn & Hc & Hg). apply (IH _ n); [..|done|].
      * unfold plug1. rewrite rb_bin, Hr. rewrite andb_true_r in Hf. by rewrite Hf.
      * destruct c as [|g c]; [done|]. cbn. by rewrite Hg, andb_false_r.
    + apply (IH _ (S n)); [unfold plug1; rewrite rb_bin, Hr; tauto|tauto|]. destruct c; [done|]. cbn. unfold plug1. by rewrite is_red_bin, Hr.
Qed.
Lemma plug_black c t n : rbc n c → (c = [] → is_red t = false) → is_red (plug c t) = false.
Proof.
  revert t n. induction c as [|f c IH]; intros t n Hc Ht; cbn [plug]; [by apply Ht|]. cbn in Hc. destruct (f_red f) eqn:Hf.
  - destruct Hc as (_ & _ & Hc & Hg). apply (IH _ n); [done|]. by intros ->.
  - apply (IH _ (S n)); [tauto|]. intros _. unfold plug1. by rewrite is_red_bin.
Qed.
Lemma blacken_black t : is_red t = false → blacken t = t.
Proof. destruct t as [|a x [] l r]; done. Qed.
(** The converse of what follows. *)
Lemma plug_is_balanced c t n : rb n t → rbc n c → fits t c → (c = [] → is_red t = false) → balanced (plug c t).
Proof. intros Ht Hc Hf Hr. rewrite <-blacken_black by (by eapply plug_black). by apply (balanced_plug c t n). Qed.
Lemma plug_balanced c t : balanced (plug c t) → ∃ n, rb n t ∧ rbc n c ∧ fits t c ∧ (c = [] → is_red t = false).
Proof.
  revert t. induction c as [|f c IH]; intros t HT; cbn [plug] in *; [destruct HT as (? & n & ?); by exists n|].
  apply IH in HT as (n & Hf & Hc & Hg & Hn). unfold plug1 in *. rewrite rb_bin in Hf. rewrite is_red_bin in Hn. unfold fits in Hg. rewrite is_red_bin in Hg.
  cbn. destruct (f_red f); cbn in Hg.
  - exists n. destruct Hf as (Ht & Hs & Htn & Hsn). split_and!; try done; [|by rewrite andb_true_r].
    destruct c as [|g c]; [by specialize (Hn eq_refl)|done].
  - destruct n as [|n]; [done|]. exists n. rewrite andb_false_r. destruct Hf. by split_and!.
Qed.

(** The loop of an addition leaves a balanced tree, whatever the colors of the new
    node and its parent. *)
Lemma fix_add_balanced c t n : is_red t = true → rb n t → rbc n c → balanced (blacken (plug (fix_add c t).1 (fix_add c t).2)).
Proof.
  remember (length c) as k eqn:Hk. revert c t n Hk. induction (lt_wf k) as [k _ IH]. intros c t n -> Hr Ht Hc.
  destruct c as [|p [|g c]]; [by apply (balanced_plug _ _ n)| |].
  { cbn [fix_add fst snd]. apply (balanced_plug _ _ n); [done..|]. cbn in *. destruct (f_red p); [tauto|by rewrite andb_false_r]. }
  cbn [fix_add]. destruct (f_red p) eqn:Hp; [|apply (balanced_plug _ _ n); [done..|]; cbn; by rewrite Hp, andb_false_r].
  cbn in Hc. rewrite Hp in Hc. destruct Hc as (Hs & Hsn & Hc & Hg). rewrite Hg in Hc. destruct Hc as (Hu & Hc).
  destruct (is_red (f_sib g)) eqn:Hur.
  - eapply (IH (length c) ltac:(cbn; lia) c _ (S n) eq_refl); [by rewrite is_red_bin| |done]. rewrite rb_bin. rewrite is_red_bin. split_and!; [done|by destruct (f_sib g)| |].
    + by rewrite rb_bin.
    + by apply rb_blacken.
  - case_bool_decide as Hd; [|destruct t as [|a x [] l r]; [done| |done]].
    + apply (balanced_plug _ _ n); [done| |cbn; by rewrite andb_false_r]. cbn. by rewrite rb_bin.
    + destruct Ht as (Hl & Hr' & Hln & Hrn). apply (balanced_plug _ _ n); cbn [fst snd].
      * rewrite rb_bin. by destruct (f_dir g).
      * cbn. rewrite rb_bin. by destruct (f_dir g).
      * cbn. by rewrite andb_false_r.
Qed.

(** The items before and after a place. *)
Fixpoint before (c : ctx) : list item := match c with [] => [] | f :: c' => before c' ++ if f_dir f then inorder (f_sib f) ++ [f_item f] else [] end.
Fixpoint after (c : ctx) : list item := match c with [] => [] | f :: c' => (if f_dir f then [] else f_item f :: inorder (f_sib f)) ++ after c' end.
Lemma inorder_plug c t : inorder (plug c t) = before c ++ inorder t ++ after c.
Proof.
  revert t. induction c as [|f c IH]; intros t; cbn; [by rewrite app_nil_r|]. rewrite IH. unfold plug1. destruct (f_dir f); cbn; by rewrite <-!app_assoc.
Qed.
Lemma inorder_blacken t : inorder (blacken t) = inorder t.
Proof. by destruct t. Qed.
Lemma inorder_fix_add c t : inorder (plug (fix_add c t).1 (fix_add c t).2) = inorder (plug c t).
Proof.
  remember (length c) as k eqn:Hk. revert c t Hk. induction (lt_wf k) as [k _ IH]. intros c t ->.
  destruct c as [|p [|g c]]; [done..|]. cbn [fix_add]. destruct (f_red p); [|done].
  destruct p as [pd pa px pc ps], g as [gd ga gx gc gs]. cbn [f_dir f_addr f_item f_red f_sib].
  destruct (is_red gs).
  - rewrite (IH (length c) ltac:(cbn; lia) c _ eq_refl). rewrite !inorder_plug.
    destruct gd, pd; cbn; rewrite ?inorder_blacken; by simplify_list_eq.
  - case_bool_decide as Hd; cbn in Hd; [subst pd|destruct t as [|a x col l r]; [done|]]; rewrite !inorder_plug; destruct gd; try destruct pd; cbn; by simplify_list_eq.
Qed.

(** ** Balancing after a removal *)

Section Remove.
Context (i : nat).

(** [z] is the root of [t], or stands for the place when it is empty. *)
Definition hole (e : option (positive * Node)) (z : positive) (c : ctx) (t : tree) : Prop :=
  root_of t = Some z ∨ t = Leaf ∧ e = Some (z, mkNode (parent_of c) None None 0 0 false).
Lemma does_get_hole e {A} z c t (g : Node → io A) Q : hole e z c t →
  (∀ n, parent n = parent_of c → red n = is_red t → (Forall (λ x, x.1 ≠ 0) (inorder t) → (if content n =? 0 then None else Some z) = root_of t) →
     does i e (plug c t) (g n) Q) → does i e (plug c t) (get z ≫= g) Q.
Proof.
  intros [Hz|[-> He]] Hg.
  - destruct t as [|a x col l r]; [done|]. injection Hz as ->. apply does_get. apply Hg; [done..|]. cbn. intros Hx.
    apply Forall_app in Hx as [_ Hx]. apply Forall_cons in Hx as [Hx _]. by rewrite (proj2 (Z.eqb_neq _ _) Hx).
  - intros w HT Hw. assert (Hn : nodes w !! z = Some (mkNode (parent_of c) None None 0 0 false)) by (rewrite He in Hw; apply Hw).
    eapply node_then; [done|]. by apply Hg.
Qed.

Context (e : option (positive * Node)).

Lemma BARSub_rotate_does c d a xa ca s xs cs (t m v : tree) : is_red v = true →
  does i e (plug c (bin d a xa ca t (bin d s xs cs m v))) (BARSub_rotate a s (negb d) i)
    (λ r T', T' = plug c (bin d s xs ca (bin d a xa false t m) (blacken v)) ∧ root_of T' = Some r).
Proof.
  intros Hv. unfold BARSub_rotate. destruct v as [|b xb cb vl vr]; [done|]. apply does_get_bin. intros pn _ _ _ Hr _ _. rewrite Hr.
  place (plug (mkFrame (negb d) a xa ca t :: c) (bin d s xs cs m (Bin b xb cb vl vr))). apply does_set_red_bin.
  place (plug c (bin d a xa ca t (bin d s xs ca m (Bin b xb cb vl vr)))). apply does_set_red_bin.
  place (plug (mkFrame (negb d) a xa false t :: c) (bin d s xs ca m (Bin b xb cb vl vr))). apply does_get_bin. intros sn _ _ Hs _ _ _. rewrite Hs.
  eapply does_lift; [done|].
  place (plug (mkFrame (negb d) s xs ca m :: mkFrame (negb d) a xa false t :: c) (Bin b xb cb vl vr)). apply does_set_red.
  rewrite negb_involutive.
  place (plug c (bin d a xa false t (bin d s xs ca m (Bin b xb false vl vr)))). apply does_rotate.
  apply does_get_root. destruct (plug_root c (bin d s xs ca (bin d a xa false t m) (blacken (Bin b xb cb vl vr)))) as [r Hr']; [by rewrite root_bin|].
  apply does_last. eapply does_lift; [exact Hr'|]. by apply does_ret.
Qed.

(** The place is one black node short, or has a red root. *)
Definition short (n : nat) (c : ctx) (t : tree) : Prop := rbc (S n) c ∧ if is_red t then rb (S n) (blacken t) else rb n t.
(** The place where the next turn is: it is higher, or the last one. *)
Definition moved (T : tree) (k : nat) (r : positive) (T' : tree) : Prop :=
  ∃ c t n, T' = plug c t ∧ root_of t = Some r ∧ short n c t ∧ inorder T' = inorder T ∧ (is_red t = true ∨ (length c < k)%nat).

Lemma rb_black_bin n d a x s t : rb (S n) (bin d a x false s t) ↔ rb n s ∧ rb n t.
Proof. by rewrite rb_bin. Qed.
Lemma blacken_bin d a x c s t : blacken (bin d a x c s t) = bin d a x false s t.
Proof. by destruct d. Qed.

Lemma balanced_short T r : root_of T = Some r → balanced (blacken T) → ∃ n, short n [] T.
Proof.
  intros Hr (_ & n & Hn). unfold short. destruct T as [|a x [] l r']; [done| |]; cbn in *; [|by exists n].
  destruct n as [|n]; [done|]. by exists n.
Qed.
Lemma rotated_moved c d a xa ca s xs cs (t m v sib : tree) n z k T' : is_red v = true → rb n t → rb n m → rb n v → rbc (S n) (mkFrame d a xa ca sib :: c) →
  T' = plug c (bin d s xs ca (bin d a xa false t m) (blacken v)) → root_of T' = Some z →
  moved (plug c (bin d a xa ca t (bin d s xs cs m v))) (S k) z T'.
Proof.
  intros Hv Ht Hm Hvn Hc -> Hz. set (u := bin d s xs ca (bin d a xa false t m) (blacken v)) in *.
  destruct (balanced_short (plug c u) z Hz) as [n' Hn'].
  { unfold u. cbn in Hc. destruct ca.
    - destruct Hc as (_ & _ & Hc & Hg). apply (balanced_plug _ _ (S n)); [|done|].
      + rewrite rb_bin, rb_black_bin, is_red_bin. split_and!; [done|by destruct v|done..|by apply rb_blacken].
      + destruct c as [|g c]; [done|]. cbn. by rewrite Hg, andb_false_r.
    - destruct Hc as (_ & Hc). apply (balanced_plug _ _ (S (S n))); [|done|].
      + rewrite !rb_black_bin. split_and!; [done..|by apply rb_blacken].
      + destruct c as [|g c]; [done|]. cbn. by rewrite is_red_bin. }
  exists [], (plug c u), n'. split_and!; [done..| |right; cbn; lia].
  rewrite !inorder_plug. unfold u. destruct d; cbn; rewrite inorder_blacken; by simplify_list_eq.
Qed.

(** The sibling is black: the place is [t] beside it. *)
Lemma BARSub_black_does c d a xa ca (t s : tree) n :
  is_red s = false → rb (S n) s → rb n t → rbc (S n) (mkFrame d a xa ca s :: c) →
  does i e (plug (mkFrame d a xa ca s :: c) t) (BARSub_black a (root_of s) (negb d) i)
    (moved (plug (mkFrame d a xa ca s :: c) t) (if ca then 1 else S (length c))%nat).
Proof.
  intros Hs Hn Ht Hc. destruct s as [|b xb cb l r]; [done|]. cbn in Hs. subst cb.
  set (m := if d then r else l). set (v := if d then l else r). assert (Hb : Bin b xb false l r = bin d b xb false m v) by (by destruct d).
  rewrite Hb in *. apply rb_black_bin in Hn as [Hm Hv]. rewrite root_bin. unfold BARSub_black.
  place (plug (mkFrame (negb d) a xa ca t :: c) (bin d b xb false m v)). apply does_get_bin. intros sn _ Hsm Hsv _ _ _.
  rewrite negb_involutive. rewrite Hsm, Hsv.
  place (plug (mkFrame d b xb false v :: mkFrame (negb d) a xa ca t :: c) m). apply does_isBlack.
  assert (Hrot : ∀ s xs cs m' v', is_red v' = true → rb n m' → rb n v' → inorder (bin d s xs cs m' v') = inorder (bin d b xb false m v) →
    does i e (plug c (bin d a xa ca t (bin d s xs cs m' v'))) (BARSub_rotate a s (negb d) i)
      (moved (plug (mkFrame d a xa ca (bin d b xb false m v) :: c) t) (if ca then 1 else S (length c))%nat)).
  { intros s xs cs m' v' Hv' Hm' Hvn' Hin. eapply does_mono; [by apply BARSub_rotate_does|]. intros r' T' [HT' Hr'].
    destruct (rotated_moved c d a xa ca s xs cs t m' v' (bin d b xb false m v) n r' (if ca then O else length c) T') as (c2 & t2 & n2 & H1 & H2 & H3 & H4 & H5); try done.
    exists c2, t2, n2. split_and!; try done; [|by destruct ca]. rewrite H4. cbn [plug]. unfold plug1. cbn. rewrite !inorder_plug. f_equal. f_equal.
    destruct d; cbn in *; by rewrite Hin. }
  destruct (is_red m) eqn:Hmr; cbn [negb].
  - apply does_ret_bind. place (plug (mkFrame (negb d) b xb false m :: mkFrame (negb d) a xa ca t :: c) v). apply does_isBlack.
    destruct (is_red v) eqn:Hvr; cbn [negb].
    + apply does_ret_bind. place (plug c (bin d a xa ca t (bin d b xb false m v))). by apply Hrot.
    + destruct m as [|mm xm cm ml mr]; [done|]. cbn in Hmr. subst cm.
      set (m1 := if d then mr else ml). set (m2 := if d then ml else mr). assert (Hmm : Bin mm xm true ml mr = bin d mm xm true m1 m2) by (by destruct d).
      eapply (does_bind i e _ _ _ (λ r T', r = mm ∧ T' = plug c (bin d a xa ca t (bin d mm xm false m1 (bin d b xb true m2 v))))).
      * eapply does_lift; [done|].
        place (plug (mkFrame d b xb false v :: mkFrame (negb d) a xa ca t :: c) (Bin mm xm true ml mr)). apply does_set_red.
        change (Bin mm xm false ml mr) with (blacken (Bin mm xm true ml mr)). rewrite Hmm, blacken_bin.
        place (plug (mkFrame (negb d) a xa ca t :: c) (bin d b xb false (bin d mm xm false m1 m2) v)). apply does_set_red_bin.
        place (plug (mkFrame (negb d) a xa ca t :: c) (bin (negb d) b xb true v (bin (negb d) mm xm false m2 m1))). apply does_rotate.
        place (plug c (bin d a xa ca t (bin (negb d) mm xm false (bin (negb d) b xb true v m2) m1))).
        apply does_get_bin. intros pn _ _ Hp _ _ _. rewrite Hp, root_bin. apply does_last. eapply does_lift; [done|]. apply does_ret.
        by rewrite !bin_negb.
      * intros r' T' [-> ->]. rewrite Hmm in Hm. rewrite rb_bin in Hm. apply Hrot; [by rewrite is_red_bin|tauto|rewrite rb_bin; tauto|].
        rewrite Hmm. destruct d; cbn; by simplify_list_eq.
  - place (plug (mkFrame (negb d) b xb false m :: mkFrame (negb d) a xa ca t :: c) v). apply does_isBlack.
    destruct (is_red v) eqn:Hvr; cbn [negb].
    + place (plug (mkFrame (negb d) b xb false m :: mkFrame (negb d) a xa ca t :: c) v). apply does_isBlack. rewrite Hvr. apply does_ret_bind.
      place (plug c (bin d a xa ca t (bin d b xb false m v))). by apply Hrot.
    + place (plug (mkFrame (negb d) a xa ca t :: c) (bin d b xb false m v)). apply does_set_red_bin.
      place (plug c (bin d a xa ca t (bin d b xb true m v))). apply does_ret.
      set (t2 := bin d a xa ca t (bin d b xb true m v)).
      exists c, t2, (if ca then n else S n). split_and!; [done|apply root_bin| | |unfold t2; rewrite is_red_bin; destruct ca; [by left|right; lia]].
      * cbn in Hc. unfold short, t2. rewrite is_red_bin, blacken_bin. destruct ca; rewrite rb_black_bin; rewrite rb_bin; tauto.
      * cbn [plug]. rewrite !inorder_plug. unfold t2. destruct d; cbn; by simplify_list_eq.
Qed.

(** One turn. *)
Lemma BARSub_does z f c t n : hole e z (f :: c) t → rb n t → is_red t = false → rbc (S n) (f :: c) →
  does i e (plug (f :: c) t) (TreeBARSub z (negb (f_dir f)) i) (moved (plug (f :: c) t) (S (length c))).
Proof.
  intros Hz Ht Htr Hc. unfold TreeBARSub. eapply does_get_hole; [done|]. intros n1 Hn1 _ _. rewrite Hn1. eapply does_lift; [done|].
  apply does_get_parent. intros pn _ _ Hs _. rewrite Hs. destruct f as [d a xa ca s]. cbn [f_dir f_addr f_item f_red f_sib] in *.
  place (plug (mkFrame (negb d) a xa ca t :: c) s). apply does_isRed.
  destruct (is_red s) eqn:Hsr.
  - destruct s as [|b xb cb l r]; [done|]. cbn in Hsr. subst cb.
    set (m := if d then r else l). set (v := if d then l else r). assert (Hb : Bin b xb true l r = bin d b xb true m v) by (by destruct d).
    destruct ca; cbn in Hc; [by destruct Hc|]. destruct Hc as ((Hl & Hr & Hln & Hrn) & Hc).
    assert (is_red m = false ∧ is_red v = false ∧ rb (S n) m ∧ rb (S n) v) as (Hm & Hv & Hmn & Hvn) by (unfold m, v; by destruct d).
    eapply (does_bind i e _ _ _ (λ r T', r = root_of m ∧ T' = plug (mkFrame d a xa true m :: mkFrame d b xb false v :: c) t)).
    { eapply does_lift; [done|]. apply does_set_red. change (Bin b xb false l r) with (blacken (Bin b xb true l r)). rewrite Hb, blacken_bin.
      place (plug c (bin d a xa false t (bin d b xb false m v))). apply does_set_red_bin. rewrite negb_involutive. apply does_rotate.
      place (plug (mkFrame d a xa true m :: mkFrame d b xb false v :: c) t).
      eapply does_get_hole; [exact Hz|]. intros n2 Hn2 _ _. rewrite Hn2. eapply does_lift; [done|].
      apply does_get_parent. intros pn2 _ _ Hs2 _. cbn [f_dir] in Hs2. rewrite Hs2. by apply does_ret. }
    intros r' T' [-> ->]. eapply does_get_hole; [exact Hz|]. intros n3 Hn3 _ _. rewrite Hn3. eapply does_lift; [done|].
    eapply does_mono; [apply (BARSub_black_does _ _ _ _ _ _ _ n); try done|].
    intros r2 T2 (c2 & t2 & n2 & H1 & H2 & H3 & H4 & H5). exists c2, t2, n2. split_and!; [done..| |destruct H5; [by left|right; lia]].
    rewrite H4. cbn [plug]. rewrite !inorder_plug. unfold plug1. cbn. rewrite Hb. destruct d; cbn; by simplify_list_eq.
  - apply does_ret_bind. place (plug (mkFrame d a xa ca s :: c) t). eapply does_get_hole; [done|]. intros n2 Hn2 _ _. rewrite Hn2. eapply does_lift; [done|].
    eapply does_mono; [apply (BARSub_black_does _ _ _ _ _ _ _ n); try done; cbn in Hc; destruct ca; tauto|].
    intros r2 T2 (c2 & t2 & m2 & H1 & H2 & H3 & H4 & H5). exists c2, t2, m2. split_and!; [done..|]. destruct H5; [by left|right; destruct ca; lia].
Qed.

Lemma remove_turn_stops c t z : root_of t = Some z → c = [] ∨ is_red t = true →
  does i e (plug c t) (balance_remove_turn i z) (λ r T', r = inr z ∧ T' = plug c t).
Proof.
  intros Hz Hs. unfold balance_remove_turn. apply does_get_root. apply (does_get_hole e z); [by left|]. intros n _ Hr _. rewrite Hr.
  assert (bool_decide (root_of (plug c t) = Some z) || is_red t = true) as ->; [|by apply does_ret].
  destruct Hs as [->| ->]; [|by rewrite orb_true_r]. cbn [plug]. by rewrite bool_decide_eq_true_2.
Qed.
(** The place is not taken for the root, nor for its sibling. *)
Lemma hole_distinct z f c t n : hole e z (f :: c) t → NoDup (addrs (plug (f :: c) t)) → rb (S n) (f_sib f) →
  root_of (f_sib f) ≠ root_of t ∧ (root_of t = Some z → root_of (plug (f :: c) t) ≠ Some z).
Proof.
  intros Hz Hnd Hs. rewrite addrs_plug in Hnd. apply NoDup_app in Hnd as (_ & Hd & _). split.
  - destruct t as [|a x col l r]; [by destruct (f_sib f)|]. intros Ha. apply (Hd a); [left|]. cbn. right. apply elem_of_app. left.
    destruct (f_sib f); [done|]. injection Ha as ->. left.
  - intros Ht Hr. destruct t as [|a x col l r]; [done|]. injection Ht as ->. apply (Hd z); [left|]. clear -Hr. revert f Hr.
    generalize (Bin z x col l r). induction c as [|g c IH]; intros t f Hr; cbn in *.
    + unfold plug1 in Hr. rewrite root_bin in Hr. injection Hr as ->. left.
    + right. apply elem_of_app. right. by apply (IH (plug1 f t)).
Qed.
Lemma remove_turn_goes f c t z n : hole e z (f :: c) t → is_red t = false → short n (f :: c) t → Forall (λ x, x.1 ≠ 0) (inorder (plug (f :: c) t)) →
  does i e (plug (f :: c) t) (balance_remove_turn i z) (λ r T', ∃ z', r = inl z' ∧ moved (plug (f :: c) t) (S (length c)) z' T').
Proof.
  intros Hz Ht [Hc Hn] Hx. rewrite Ht in Hn. unfold balance_remove_turn.
  apply does_nodup. intros Hnd. apply (does_apart i e z). intros Hza. apply does_get_root. eapply does_get_hole; [done|]. intros n1 Hp Hr Hcont. rewrite Hr, Ht.
  rewrite inorder_plug in Hx. apply Forall_app in Hx as [_ Hx]. apply Forall_app in Hx as [Hx _]. rewrite Hcont by done.
  assert (Hs : rb (S n) (f_sib f)) by (cbn in Hc; destruct (f_red f); tauto).
  destruct (hole_distinct z f c t n Hz Hnd Hs) as [Hsib Hroot].
  rewrite bool_decide_eq_false_2.
  2:{ intros Hr'. destruct Hz as [Hz|[-> He]]; [by apply Hroot|]. apply (Hza _ He). destruct (plug (f :: c) Leaf); [done|]. injection Hr' as ->. left. }
  cbn [orb]. rewrite Hp. eapply does_lift; [done|]. apply does_get_parent. intros pn _ Hd Hd2 _.
  eapply does_bind; [|intros r' T' HQ'; apply does_ret; exists r'; split; [done|exact HQ']].
  pose proof (BARSub_does z f c t n Hz Hn Ht Hc) as Hgo. destruct (f_dir f); cbn [negb] in *.
  - rewrite bool_decide_eq_false_2; [exact Hgo|]. by rewrite Hd2.
  - rewrite bool_decide_eq_true_2; [exact Hgo|]. by rewrite Hd.
Qed.

Lemma remove_loop fuel c t z n : hole e z c t → (c = [] → root_of t = Some z) → short n c t → Forall (λ x, x.1 ≠ 0) (inorder (plug c t)) →
  (length c + 1 < fuel)%nat →
  does i e (plug c t) (iterate fuel (balance_remove_turn i) z) (λ r T', ∃ c2 t2 n2, T' = plug c2 t2 ∧ root_of t2 = Some r ∧ short n2 c2 t2 ∧
    (c2 = [] ∨ is_red t2 = true) ∧ inorder T' = inorder (plug c t)).
Proof.
  assert (Hstop : ∀ fuel c t z n, (0 < fuel)%nat → root_of t = Some z → c = [] ∨ is_red t = true → short n c t →
    does i e (plug c t) (iterate fuel (balance_remove_turn i) z) (λ r T', ∃ c2 t2 n2, T' = plug c2 t2 ∧ root_of t2 = Some r ∧ short n2 c2 t2 ∧
      (c2 = [] ∨ is_red t2 = true) ∧ inorder T' = inorder (plug c t))).
  { intros f c' t' z' n' Hf Hz Hs Hn. destruct f as [|f]; [lia|]. cbn [iterate]. eapply does_bind; [by apply remove_turn_stops|].
    intros r T' [-> ->]. apply does_ret. by exists c', t', n'. }
  revert c t z n. induction fuel as [|fuel IH]; intros c t z n Hz Hroot Hn Hx Hf; [lia|].
  destruct c as [|f c]; [apply (Hstop _ _ _ _ n); auto; lia|].
  destruct (is_red t) eqn:Ht.
  { apply (Hstop _ _ _ _ n); auto; [lia|]. by destruct Hz as [|[-> _]]. }
  cbn [iterate]. eapply does_bind; [by apply (remove_turn_goes _ _ _ _ n)|]. intros r T' (z' & -> & c2 & t2 & n2 & -> & Hz2 & Hn2 & Hin & Hk). rewrite <-Hin in Hx |- *.
  destruct Hk as [Hk|Hk]; [apply (Hstop _ _ _ _ n2); auto; cbn in Hf; lia|].
  apply (IH _ _ _ n2); [by left|done..|]. cbn in Hf. lia.
Qed.

(** A balanced tree is left, with the same items in the same order. *)
Lemma TreeBalanceAfterRemove_does c t z n : hole e z c t → (c = [] → root_of t = Some z) → short n c t → Forall (λ x, x.1 ≠ 0) (inorder (plug c t)) →
  does i e (plug c t) (TreeBalanceAfterRemove z i) (λ _ T', balanced T' ∧ inorder T' = inorder (plug c t)).
Proof.
  intros Hz Hroot Hn Hx. unfold TreeBalanceAfterRemove. eapply does_bind.
  { apply does_walk. intros fuel Hf. apply (remove_loop _ _ _ _ n); try done. pose proof (ctx_length c t). lia. }
  intros z2 T' (c2 & t2 & n2 & -> & Hz2 & [Hc2 Hn2] & Hs & Hin). destruct t2 as [|a x col l r]; [done|]. injection Hz2 as ->.
  eapply does_mono; [apply does_set_red_last|]. intros [] T' ->. split; [|by rewrite <-Hin, !inorder_plug].
  cbn [is_red] in *. destruct col.
  - apply (plug_is_balanced c2 (Bin z2 x false l r) (S n2)); [done..|by destruct c2|done].
  - destruct Hs as [->|]; [|done]. split; [done|]. by exists n2.
Qed.
End Remove.
End TreesBalance.
