(* ===== verification/TreesIndex.v ===== *)
(** * Red-black trees: the operations on an index (paho.mqtt.c/src/Tree.c)

    The operations on an index refine those on the list of its items, in the order
    of the comparison function, and keep the tree balanced. *)
From stdpp Require Import sorting.
From S2P Require Import Prelude Trees TreesShape TreesBalance.

Module TreesIndex.
Import Trees TreesShape TreesBalance.

(** ** Sorted lists *)

Section Items.
(** The place of a content in the order. *)
Context (rank : Z → Z).
Definition sorted (m : list item) : Prop := StronglySorted (λ x y, rank x.1 < rank y.1) m.
(** An item of the same rank is replaced. *)
Fixpoint add_item (x : item) (m : list item) : list item :=
  match m with
  | [] => [x]
  | y :: m' => if rank x.1 <? rank y.1 then x :: m else if rank x.1 =? rank y.1 then x :: m' else y :: add_item x m'
  end.
Definition remove_item (k : Z) (m : list item) : list item := filter (λ y, rank y.1 ≠ k) m.
Definition find_item (k : Z) (m : list item) : option item := snd <$> list_find (λ y, rank y.1 = k) m.

(** A list cut at [k]. *)
Definition cut (k : Z) (l r : list item) : Prop := Forall (λ x, rank x.1 < k) l ∧ Forall (λ x, k < rank x.1) r.
Lemma add_item_cut (x : item) (l o r : list item) : cut (rank x.1) l r → match o with [] => True | [y] => rank y.1 = rank x.1 | _ => False end →
  add_item x (l ++ o ++ r) = l ++ x :: r.
Proof.
  intros [Hl Hr] Ho. induction Hl as [|y l Hy Hl IH]; cbn.
  - destruct o as [|y [|]]; [|cbn; by rewrite Ho, Z.ltb_irrefl, Z.eqb_refl|done].
    destruct r as [|z r]; cbn; [done|]. apply Forall_cons in Hr as [Hz _]. by rewrite (proj2 (Z.ltb_lt _ _) Hz).
  - rewrite IH. destruct (Z.ltb_spec (rank x.1) (rank y.1)); [lia|]. destruct (Z.eqb_spec (rank x.1) (rank y.1)); [lia|done].
Qed.
Lemma remove_item_cut k (l o r : list item) : cut k l r → Forall (λ y, rank y.1 = k) o → remove_item k (l ++ o ++ r) = l ++ r.
Proof.
  intros [Hl Hr] Ho. unfold remove_item. rewrite !filter_app. rewrite Forall_forall in Hl, Hr.
  rewrite (filter_every _ l), (filter_every _ r); [|intros y Hy; specialize (Hr y Hy); lia|intros y Hy; specialize (Hl y Hy); lia].
  f_equal. induction Ho as [|y o Hy Ho IH]; [done|]. rewrite filter_cons_False; [done|]. auto.
Qed.
Lemma find_item_none k m : find_item k m = None ↔ Forall (λ y, rank y.1 ≠ k) m.
Proof. unfold find_item. rewrite fmap_None, list_find_None. done. Qed.
Lemma find_item_cut k (l o r : list item) : cut k l r → match o with [] => True | [y] => rank y.1 = k | _ => False end → find_item k (l ++ o ++ r) = head o.
Proof.
  intros [Hl Hr] Ho. rewrite Forall_forall in Hl, Hr. destruct o as [|y [|]]; [|cbn|done].
  - apply find_item_none, Forall_app. rewrite !Forall_forall. split; intros y Hy; [specialize (Hl y Hy)|specialize (Hr y Hy)]; lia.
  - unfold find_item. rewrite list_find_app_r; [|apply list_find_None, Forall_forall; intros z Hz; specialize (Hl z Hz); lia].
    cbn. by rewrite decide_True.
Qed.
Lemma sorted_cut (x : item) (l o r : list item) : cut (rank x.1) l r → sorted (l ++ o ++ r) → sorted (l ++ x :: r).
Proof.
  intros [Hl Hr]. rewrite Forall_forall in Hl, Hr. unfold sorted. rewrite !StronglySorted_app, StronglySorted_cons, Forall_forall.
  intros (H1 & H2 & H3 & H4 & H5). split_and!; [|done|exact Hr|done].
  intros y z Hy Hz. apply elem_of_cons in Hz as [->|Hz]; [by apply Hl|]. apply H1; [done|]. apply elem_of_app. by right.
Qed.
Lemma sorted_removed (l o r : list item) : sorted (l ++ o ++ r) → sorted (l ++ r).
Proof.
  unfold sorted. rewrite !StronglySorted_app. intros (H1 & H2 & H3 & H4 & H5). split_and!; [|done|done].
  intros y z Hy Hz. apply H1; [done|]. apply elem_of_app. by right.
Qed.
(** Every sorted list is cut at [k]. *)
Lemma sorted_cuts k m : sorted m → ∃ l o r : list item, m = l ++ o ++ r ∧ cut k l r ∧ match o with [] => True | [y] => rank y.1 = k | _ => False end.
Proof.
  induction 1 as [|y m Hm IH Hy]; [exists [], [], []; by repeat constructor|].
  destruct (Z.lt_trichotomy (rank y.1) k) as [Hlt|[Heq|Hgt]].
  - destruct IH as (l & o & r & -> & [Hl Hr] & Ho). exists (y :: l), o, r. split; [done|]. split; [|done]. split; [by constructor|done].
  - exists [], [y], m. split; [done|]. split; [|done]. split; [constructor|]. eapply Forall_impl; [exact Hy|]. cbn. intros z Hz. lia.
  - exists [], [], (y :: m). split; [done|]. split; [|done]. split; [constructor|]. constructor; [done|]. eapply Forall_impl; [exact Hy|]. cbn. intros z Hz. lia.
Qed.
Lemma add_item_new (x : item) m : sorted m → find_item (rank x.1) m = None → sorted (add_item x m) ∧ add_item x m ≡ₚ x :: m.
Proof.
  intros Hs Hn. destruct (sorted_cuts (rank x.1) m Hs) as (l & o & r & -> & Hc & Ho). rewrite (find_item_cut _ l o r) in Hn by done.
  rewrite (add_item_cut x l o r) by done. split; [by eapply sorted_cut|]. destruct o; [|done]. symmetry. apply Permutation_middle.
Qed.
Lemma remove_item_sorted k m : sorted m → sorted (remove_item k m).
Proof.
  intros Hs. destruct (sorted_cuts k m Hs) as (l & o & r & -> & Hc & Ho). rewrite remove_item_cut; [|done|by destruct o as [|? []]; repeat constructor].
  by eapply sorted_removed.
Qed.
Lemma remove_item_none k m : find_item k m = None → remove_item k m = m.
Proof. intros H. apply find_item_none in H. apply filter_every. by rewrite <-Forall_forall. Qed.
Lemma remove_item_some k m y : sorted m → find_item k m = Some y → m ≡ₚ y :: remove_item k m.
Proof.
  intros Hs Hf. destruct (sorted_cuts k m Hs) as (l & o & r & -> & Hc & Ho). rewrite (find_item_cut _ l o r) in Hf by done.
  destruct o as [|z [|]]; [done| |done]. injection Hf as ->. rewrite (remove_item_cut _ l [y] r) by (done || by repeat constructor). symmetry. apply Permutation_middle.
Qed.
Lemma sorted_middle (l : list item) x r : sorted (l ++ x :: r) → cut (rank x.1) l r.
Proof.
  unfold sorted. rewrite StronglySorted_app, StronglySorted_cons. intros (H1 & H2 & H3 & H4). split; [|done].
  apply Forall_forall. intros y Hy. apply H1; [done|left].
Qed.
End Items.

Lemma same_but_weaken i l l' w w' : (∀ a, a ∈ l → a ∈ l') → same_but i l w w' → same_but i l' w w'.
Proof. intros Hl (H & ?). split; [|done]. intros a Ha. apply H. auto. Qed.
(** The part of the state that an operation on the index [i] leaves. *)
Definition frame_of (i : nat) (l : list positive) (w w' : Tree) : Prop :=
  (∀ a, a ∉ l → nodes w' !! a = nodes w !! a) ∧ (∀ j, j ≠ i → roots w' !! j = roots w !! j) ∧ length (roots w') = length (roots w) ∧
  allow_duplicates w' = allow_duplicates w.

Fixpoint height (t : tree) : nat := match t with Leaf => O | Bin _ _ _ l r => S (height l `max` height r) end.

(** Two heaps with the same tree. *)
Lemma rep_same h h' p t a : rep h p t → rep h' p t → a ∈ addrs t → h !! a = h' !! a.
Proof.
  revert p. induction t as [|b x c l IHl r IHr]; intros p H H' Ha; cbn in *; [by apply not_elem_of_nil in Ha|].
  destruct H as (Hb & Hl & Hr), H' as (Hb' & Hl' & Hr'). apply elem_of_cons in Ha as [->|Ha]; [congruence|]. apply elem_of_app in Ha as [Ha|Ha]; eauto.
Qed.
Lemma Rep_same i T w w' : Rep i T w → Rep i T w' → same_but i (addrs T) w w' → w' = w.
Proof.
  intros (Hr & Hi & _) (Hr' & Hi' & _) (Hn & Hj & Hl & Hc & Hs & Hd). destruct w as [h l c s d], w' as [h' l' c' s' d']; cbn in *. f_equal; try done.
  - apply map_eq. intros a. destruct (decide (a ∈ addrs T)) as [Ha|Ha]; [by eapply rep_same|by apply Hn].
  - apply list_eq. intros j. destruct (decide (j = i)) as [->|Hji]; [congruence|by apply Hj].
Qed.

Section Search.
Context (compare : nat → Z → Z → bool → Z) (i : nat).
(** [key] is at [k] in the order. *)
Definition compares (rank : Z → Z) (key : Z) (value : bool) (k : Z) : Prop :=
  ∀ c, (0 < compare i c key value ↔ rank c < k) ∧ (compare i c key value = 0 ↔ rank c = k).
Definition side (c : ctx) : bool := match c with f :: _ => f_dir f | [] => false end.
(** The place of the item with the rank [k], or where it would be. *)
Definition key_at (rank : Z → Z) (k : Z) (T : tree) (c : ctx) (t : tree) : Prop :=
  T = plug c t ∧ cut rank k (before c) (after c) ∧ match t with Leaf => True | Bin _ x _ _ _ => rank x.1 = k end.
Lemma key_at_item rank k T c t : key_at rank k T c t → sorted rank (inorder T) →
  find_item rank k (inorder T) = match t with Leaf => None | Bin _ y _ _ _ => Some y end.
Proof.
  intros (-> & Hcut & Ht) Hs. rewrite inorder_plug in Hs |- *. destruct t as [|a y col l r]; cbn [inorder] in *.
  - by apply (find_item_cut _ _ _ []).
  - replace (before c ++ (inorder l ++ y :: inorder r) ++ after c) with ((before c ++ inorder l) ++ [y] ++ inorder r ++ after c) in Hs |- * by (by simplify_list_eq).
    apply (find_item_cut _ _ _ [y]); [|done]. rewrite <-Ht. by apply sorted_middle.
Qed.

Context (rank : Z → Z) (key : Z) (value : bool) (k : Z).
Context (Hkey : compares rank key value k).

Lemma search_loop fuel c t : sorted rank (inorder (plug c t)) → cut rank k (before c) (after c) → (height t < fuel)%nat →
  does i None (plug c t) (iterate fuel (search_turn compare i key value) (root_of t, (parent_of c, side c)))
    (λ r T', T' = plug c t ∧ ∃ c2 t2, key_at rank k (plug c t) c2 t2 ∧ r = (root_of t2, (parent_of c2, side c2))).
Proof.
  revert c t. induction fuel as [|fuel IH]; intros c t Hs Hc Hf; [lia|]. cbn [iterate search_turn].
  destruct t as [|a x col l r].
  { cbn [root_of]. apply does_ret_bind. apply does_ret. split; [done|]. by exists c, Leaf. }
  cbn [root_of]. destruct (Hkey x.1) as [Hgt Heq]. eapply (does_bind i None _ _ _ (λ r' T', T' = plug c (Bin a x col l r) ∧
    r' = if compare i x.1 key value =? 0 then inr (Some a, (parent_of c, side c))
         else inl (root_of (if 0 <? compare i x.1 key value then r else l), (Some a, 0 <? compare i x.1 key value)))).
  { apply does_get. cbn [content node_at]. destruct (compare i x.1 key value =? 0); [by apply does_ret|]. apply does_ret. split; [done|]. f_equal. f_equal.
    by destruct (0 <? compare i x.1 key value). }
  intros r' T' [-> ->]. destruct (Z.eqb_spec (compare i x.1 key value) 0) as [H0|H0].
  { apply does_ret. split; [done|]. exists c, (Bin a x col l r). split; [|done]. split_and!; [done|apply Hc..|tauto]. }
  rewrite inorder_plug in Hs. cbn [inorder] in Hs.
  set (d := 0 <? compare i x.1 key value). pose (f := mkFrame d a x col (if d then l else r)).
  assert (Hp : plug (f :: c) (if d then r else l) = plug c (Bin a x col l r)) by (unfold f; by destruct d).
  specialize (IH (f :: c) (if d then r else l)). rewrite Hp in IH. cbn [parent_of side f f_addr f_dir] in IH. apply IH.
  - by rewrite inorder_plug.
  - unfold cut. cbn [before after f f_dir f_sib f_item]. destruct Hc as [Hb Ha].
    assert (Hl : sorted rank ((before c ++ inorder l) ++ x :: inorder r ++ after c)) by (revert Hs; by simplify_list_eq).
    apply sorted_middle in Hl as [Hl Hr]. apply Forall_app in Hl as [_ Hl]. apply Forall_app in Hr as [Hr _].
    unfold d. destruct (Z.ltb_spec 0 (compare i x.1 key value)) as [H1|H1].
    + split; [|done]. apply Forall_app. split; [done|]. apply Forall_app. split; [|by repeat constructor; tauto].
      eapply Forall_impl; [exact Hl|]. cbn. intros y Hy. apply Hgt in H1. lia.
    + rewrite app_nil_r. split; [done|]. assert (k < rank x.1) by (assert (¬ rank x.1 < k) by (rewrite <-Hgt; lia); assert (rank x.1 ≠ k) by (rewrite <-Heq; lia); lia).
      cbn. constructor; [done|]. apply Forall_app. split; [|done]. eapply Forall_impl; [exact Hr|]. cbn. intros y Hy. lia.
  - cbn in Hf. destruct d; lia.
Qed.

(** The search that the functions begin with; it writes nothing. *)
Lemma search_runs fuel T w : Rep i T w → sorted rank (inorder T) → (height T < fuel)%nat →
  runs (iterate fuel (search_turn compare i key value) (root_of T, (None, false))) w
    (λ r w' _, w' = w ∧ ∃ c t, key_at rank k T c t ∧ r = (root_of t, (parent_of c, side c))).
Proof using Hkey.
  intros HT Hs Hf. pose proof (search_loop fuel [] T) as H. eapply runs_mono; [apply H; try done; split; by apply Forall_nil_2|].
  intros r w' ev (T' & HT' & Hsame & _ & -> & c & t & Hc & Hr). split; [by eapply Rep_same|]. by exists c, t.
Qed.
Lemma height_addrs t : (height t ≤ length (addrs t))%nat.
Proof. induction t as [|a x c l IHl r IHr]; cbn; [lia|]. rewrite length_app. lia. Qed.
Lemma search_walks T w {B} (g : option positive * (option positive * bool) → io B) (Q : B → Tree → Prop) : Rep i T w → sorted rank (inorder T) →
  (∀ c t, key_at rank k T c t → runs (g (root_of t, (parent_of c, side c))) w (λ r w' _, Q r w')) →
  runs (root ← get_root i; x ← walk (search_turn compare i key value) (root, (None, false)); g x) w (λ r w' _, Q r w').
Proof using Hkey.
  intros HT Hs Hg. apply runs_bind. unfold runs at 1, get_root, lift. rewrite (proj1 (proj2 HT)). unfold walk. apply runs_bind, runs_bind.
  unfold runs at 1, the_tree. eapply runs_mono; [apply search_runs; [done..|]|].
  - pose proof (height_addrs T). pose proof (addrs_size _ _ _ HT). lia.
  - intros r w' ev (-> & c & t & Hc & ->). by apply Hg.
Qed.
End Search.

(** ** The height *)

Lemma rb_height n t : rb n t → (height t ≤ 2 * n + (if is_red t then 1 else 0))%nat.
Proof.
  revert n. induction t as [|a x c l IHl r IHr]; intros n Hn; cbn in *; [lia|]. destruct c.
  - destruct Hn as (Hl & Hr & Hln & Hrn). apply IHl in Hln. apply IHr in Hrn. rewrite Hl in Hln. rewrite Hr in Hrn. lia.
  - destruct n as [|n]; [done|]. destruct Hn as [Hl Hr]. apply IHl in Hl. apply IHr in Hr. destruct (is_red l), (is_red r); lia.
Qed.
Lemma rb_size n t : rb n t → (2 ^ n ≤ S (length (addrs t)))%nat.
Proof.
  revert n. induction t as [|a x c l IHl r IHr]; intros n Hn; cbn [rb addrs length] in *; [subst n; cbn; lia|]. rewrite length_app. destruct c.
  - destruct Hn as (_ & _ & Hl & Hr). apply IHl in Hl. lia.
  - destruct n as [|n]; [done|]. destruct Hn as [Hl Hr]. apply IHl in Hl. apply IHr in Hr. cbn [Nat.pow]. lia.
Qed.
Lemma length_inorder t : length (inorder t) = length (addrs t).
Proof. induction t as [|a x c l IHl r IHr]; cbn; [done|]. rewrite !length_app. cbn. lia. Qed.
Lemma balanced_height T : balanced T → (height T ≤ 2 * Nat.log2 (S (length (inorder T))))%nat.
Proof.
  intros (Hr & n & Hn). pose proof (rb_height _ _ Hn) as Hh. rewrite Hr in Hh. apply rb_size in Hn. rewrite length_inorder.
  pose proof (Nat.log2_le_mono _ _ Hn) as Hl. rewrite Nat.log2_pow2 in Hl by lia. lia.
Qed.
(** ** Adding *)

Definition hang (i : nat) (c : ctx) (a : positive) : io () :=
  match parent_of c with Some p => set_child p (side c) (Some a) | None => set_root i (Some a) end.
Lemma hang_runs i c a o w : repc (nodes w) o c → 
  runs (hang i c a) w (λ _ w' _, w' = mkTree (hung c (Some a) (nodes w)) (hung_roots i c (Some a) (roots w)) (count w) (size w) (allow_duplicates w)).
Proof.
  intros Hc. unfold hang. destruct c as [|f c]; cbn [parent_of side]; [done|]. destruct Hc as (Hf & _ & _).
  eapply runs_set; [exact Hf|]. cbn [hung hung_roots]. unfold written. f_equal. f_equal. destruct f as [[] ? ? ? ?]; done.
Qed.
Lemma new_leaf_runs i c a x sz n s w : Rep i (plug c Leaf) w → nodes w !! a = None →
  runs (new_leaf i a (parent_of c) (side c) x sz n s) w (λ _ w' _, Rep i (plug c (Bin a (x, sz) true Leaf Leaf)) w' ∧
    frame_of i (a :: addrs (plug c Leaf)) w w' ∧ count w' = (if (i =? 0)%nat then n else count w) ∧ size w' = (if (i =? 0)%nat then s else size w)).
Proof.
  intros HR Ha. apply Rep_plug in HR as HR'. destruct HR' as (_ & Hc & Hl & Hnd).
  assert (Hac : a ∉ addrs (plug c Leaf)) by (intros Hin; destruct (rep_dom (nodes w) None (plug c Leaf) a) as [? ?]; [apply HR|done|congruence]).
  rewrite addrs_plug in Hac. cbn [addrs app] in Hnd, Hac.
  unfold new_leaf. apply runs_bind. unfold runs at 1, put. apply runs_bind. eapply runs_mono.
  { apply (hang_runs i c a None). cbn. eapply repc_frame; [|exact Hc]. intros b Hb. rewrite lookup_insert_ne; [done|]. by intros <-. }
  intros [] w2 ev2 ->. cbn [nodes roots count size allow_duplicates].
  set (h2 := hung c (Some a) _). assert (Ha2 : h2 !! a = Some (mkNode None None None 0 0 false)).
  { unfold h2. rewrite hung_other by done. apply lookup_insert_eq. }
  eapply node_set_then; [exact Ha2|]. cbn.
  set (h3 := <[a := _]> h2). apply runs_bind.
  assert (Hdone : ∀ c' s', runs (set a (λ n0, with_content n0 x sz)) (mkTree h3 (hung_roots i c (Some a) (roots w)) c' s' (allow_duplicates w))
     (λ _ w' _, Rep i (plug c (Bin a (x, sz) true Leaf Leaf)) w' ∧ frame_of i (a :: addrs (plug c Leaf)) w w' ∧ count w' = c' ∧ size w' = s')).
  { intros c' s'. eapply runs_set; [apply lookup_insert_eq|]. unfold written. cbn [nodes roots count size allow_duplicates].
    set (h4 := <[a := _]> h3). assert (H4 : ∀ b, b ≠ a → h4 !! b = hung c (Some a) (nodes w) !! b).
    { intros b Hb. unfold h4, h3, h2. rewrite !lookup_insert_ne by done. apply hung_ext. by rewrite lookup_insert_ne. }
    split; [|split; [split_and!|done]].
    - apply Rep_plug. cbn [addrs app root_of rep nodes roots]. split_and!; [|done|done| | |].
      + unfold h4. by rewrite lookup_insert_eq.
      + apply (repc_hung (nodes w) h4 None (Some a)); [done..|]. intros b Hb. apply H4. by intros ->.
      + rewrite (root_hung i c Leaf (Bin a (x, sz) true Leaf Leaf)); [done|done].
      + by constructor.
    - intros b Hb. apply not_elem_of_cons in Hb as [Hb Hbc]. rewrite addrs_plug in Hbc. cbn. rewrite H4 by done. by rewrite hung_other.
    - intros j Hj. cbn. destruct c; cbn; [|done]. by rewrite list_lookup_insert_ne.
    - cbn. destruct c; cbn; [|done]. by rewrite length_insert.
    - done. }
  destruct (i =? 0)%nat; apply runs_ret || (unfold runs at 1, set_totals); apply Hdone.
Qed.
(** ** Removing *)

Lemma Rep_frame i T w w' : Rep i T w → (∀ a, a ∈ addrs T → nodes w' !! a = nodes w !! a) → roots w' !! i = roots w !! i → Rep i T w'.
Proof. intros (Hr & Hi & Hnd) H Hr'. split; [by eapply rep_frame|]. split; [congruence|done]. Qed.

(** A part of the nodes is left. *)
Lemma unlink_runs i c b y cb (l r ch : tree) w : Rep i (plug c (Bin b y cb l r)) w → l = Leaf ∧ ch = r ∨ r = Leaf ∧ ch = l →
  runs (unlink b (parent_of c) (root_of ch) i) w (λ _ w' _, Rep i (plug c ch) w' ∧ nodes w' !! b = nodes w !! b ∧
    same_but i (addrs (plug c ch)) w w').
Proof.
  intros HR Hch. apply Rep_plug in HR as (Hr & Hc & Hl & Hnd). cbn [rep root_of] in Hr, Hc, Hl. destruct Hr as (Hb & Hrl & Hrr).
  assert (Hp : addrs l ++ addrs r = addrs ch) by (destruct Hch as [[-> ->]|[-> ->]]; cbn; [done|by rewrite app_nil_r]).
  cbn [addrs] in Hnd. rewrite Hp in Hnd. cbn in Hnd. apply NoDup_cons in Hnd as [Hnb Hnd]. rewrite not_elem_of_app in Hnb. destruct Hnb as [Hbch Hbc].
  apply NoDup_app in Hnd as Hnd'. destruct Hnd' as (Hndch & Hd & Hndc).
  assert (Hch' : rep (nodes w) (Some b) ch) by (by destruct Hch as [[-> ->]|[-> ->]]).
  unfold unlink. eapply (adopt_runs ch (Some b) (parent_of c)); [done..|]. intros h Hh Hrep.
  apply replace_child_runs.
  { eapply repc_frame; [|exact Hc]. intros a Ha. apply Hh. intros Ha2. by apply (Hd a). }
  { intros f c' -> Hin. apply Hbc. cbn. set_solver. }
  cbn [written nodes roots count size allow_duplicates]. split; [|split].
  - apply Rep_plug. cbn [nodes roots]. split_and!.
    + eapply rep_frame; [|exact Hrep]. intros a Ha. apply hung_other. by apply Hd.
    + eapply repc_hung; [exact Hc|done|]. intros a Ha. apply hung_ext. apply Hh. intros Ha2. by apply (Hd a).
    + by eapply (root_hung i c (Bin b y cb l r)).
    + done.
  - rewrite hung_other by done. by apply Hh.
  - split_and!; [..|done|done|done].
    + intros a Ha. rewrite addrs_plug, not_elem_of_app in Ha. cbn. rewrite hung_other by tauto. apply Hh. tauto.
    + intros j Hj. cbn. destruct c; cbn; [|done]. by rewrite list_lookup_insert_ne.
    + cbn. destruct c; cbn; [|done]. by rewrite length_insert.
Qed.

Lemma after_unlink_runs i c b rn (ch : tree) w : Rep i (plug c ch) w → nodes w !! b = Some rn → b ∉ addrs (plug c ch) →
  Forall (λ x, x.1 ≠ 0) (inorder (plug c ch)) → (if red rn then balanced (plug c ch) else (ch = Leaf ∨ is_red ch = true) ∧ short 0 c ch) →
  runs (after_unlink b (parent_of c) (root_of ch) i) w (λ _ w' _, ∃ T', Rep i T' w' ∧ balanced T' ∧ inorder T' = inorder (plug c ch) ∧
    addrs T' ≡ₚ addrs (plug c ch) ∧ same_but i (b :: addrs (plug c ch)) w w').
Proof.
  intros HR Hb Hnb Hx Hbal. unfold after_unlink. cbn [isBlack]. apply runs_bind, runs_bind. unfold runs at 1, get, lift. rewrite Hb. apply runs_ret.
  apply runs_bind.
  assert (Hfree : ∀ w1, (∃ T', Rep i T' w1 ∧ balanced T' ∧ inorder T' = inorder (plug c ch) ∧ addrs T' ≡ₚ addrs (plug c ch) ∧ same_but i (addrs (plug c ch)) w w1) →
    runs (free_node b) w1 (λ _ w' _, ∃ T', Rep i T' w' ∧ balanced T' ∧ inorder T' = inorder (plug c ch) ∧
      addrs T' ≡ₚ addrs (plug c ch) ∧ same_but i (b :: addrs (plug c ch)) w w')).
  { intros w1 (T' & HT' & Hb' & Hin & Hp & H1 & H2). exists T'. split_and!; try done.
    - eapply Rep_frame; [exact HT'| |done]. intros a Ha. cbn. rewrite lookup_delete_ne; [done|]. intros <-. apply Hnb. by rewrite <-Hp.
    - split; [|exact H2]. intros a Ha. apply not_elem_of_cons in Ha as [Ha Ha2]. cbn. rewrite lookup_delete_ne by done. by apply H1. }
  destruct (red rn); cbn [negb].
  { apply runs_ret, Hfree. by exists (plug c ch). }
  destruct Hbal as [Hch Hshort]. destruct (root_of ch) as [z|] eqn:Hz.
  { eapply runs_mono; [apply (TreeBalanceAfterRemove_does i None c ch z 0); [by left|done..]|].
    intros [] w1 ev1 (T' & HT' & Hs & Hp & Hb' & Hin). apply Hfree. by exists T'. }
  destruct ch as [|]; [|done]. destruct c as [|f c]; cbn [parent_of].
  { apply runs_ret, Hfree. exists Leaf. split_and!; try done. split; [done|by exists O]. }
  apply runs_bind. unfold runs at 1, the_tree. set (temp := fresh (dom (nodes w))).
  assert (Htemp : nodes w !! temp = None) by (apply not_elem_of_dom, is_fresh).
  apply runs_bind. unfold runs at 1, put. set (w0 := mkTree _ _ _ _ _). apply runs_bind.
  set (e := Some (temp, mkNode (Some (f_addr f)) None None 0 0 false)).
  assert (Hnt : temp ∉ addrs (plug (f :: c) Leaf)).
  { intros Ha. destruct (rep_dom _ _ _ _ (proj1 HR) Ha) as [? ?]. congruence. }
  eapply runs_mono; [apply (TreeBalanceAfterRemove_does i e (f :: c) Leaf temp 0)|].
  - right. done.
  - done.
  - done.
  - done.
  - eapply Rep_frame; [exact HR| |done]. intros a Ha. cbn. rewrite lookup_insert_ne; [done|]. by intros <-.
  - split; [|done]. cbn. apply lookup_insert_eq.
  - intros [] w1 ev1 (T' & HT' & (H1 & H2) & Hp & Hb' & Hin). unfold runs at 1, free_node. apply Hfree. exists T'. split_and!; try done.
    + eapply Rep_frame; [exact HT'| |done]. intros a Ha. cbn. rewrite lookup_delete_ne; [done|]. intros <-. apply Hnt. by rewrite <-Hp.
    + split; [|exact H2]. intros a Ha. cbn. destruct (decide (a = temp)) as [->|Hne]; [by rewrite lookup_delete_eq|]. rewrite lookup_delete_ne by done. rewrite H1 by done.
      cbn. by rewrite lookup_insert_ne.
Qed.

(** The least item of a subtree. *)
Lemma before_left c2 c : Forall (λ f, f_dir f = false) c2 → before (c2 ++ c) = before c.
Proof. induction 1 as [|f c2 Hf _ IH]; cbn; [done|]. by rewrite Hf, app_nil_r. Qed.
Lemma after_app c2 c : after (c2 ++ c) = after c2 ++ after c.
Proof. induction c2 as [|f c2 IH]; cbn; [done|]. by rewrite IH, app_assoc. Qed.
Definition least_at (c : ctx) (t : tree) (b : positive) (c2 : ctx) (y : item) (cb : bool) (r : tree) : Prop :=
  plug (c2 ++ c) (Bin b y cb Leaf r) = plug c t ∧ Forall (λ f, f_dir f = false) c2.
Lemma TreeMinimum_runs i c t z w : Rep i (plug c t) w → root_of t = Some z →
  runs (TreeMinimum (Some z)) w (λ r w' _, w' = w ∧ ∃ b c2 y cb rr, r = Some b ∧ least_at c t b c2 y cb rr).
Proof.
  intros HR Hz. cbn [TreeMinimum].
  assert (Hloop : ∀ fuel c t z, root_of t = Some z → (height t < fuel)%nat →
    does i None (plug c t) (iterate fuel minimum_turn z) (λ r T', T' = plug c t ∧ ∃ b c2 y cb rr, r = Some b ∧ least_at c t b c2 y cb rr)).
  { clear. induction fuel as [|fuel IH]; intros c t z Hz Hf; [lia|]. destruct t as [|a x col l r]; [done|]. injection Hz as ->. cbn [iterate].
    eapply (does_bind i None _ _ _ (λ r' T', T' = plug c (Bin z x col l r) ∧ r' = match root_of l with Some b => inl b | None => inr (Some z) end)).
    { unfold minimum_turn. apply does_get. by apply does_ret. }
    intros r' T' [-> ->]. destruct (root_of l) as [b|] eqn:Hl.
    - eapply does_mono; [apply (IH (mkFrame false z x col r :: c) l b Hl); cbn in Hf; lia|].
      intros r' T' (-> & b' & c2 & y & cb & rr & -> & Hp & Hd). split; [done|]. exists b', (c2 ++ [mkFrame false z x col r]), y, cb, rr.
      split; [done|]. split; [by rewrite <-app_assoc|]. apply Forall_app. split; [done|]. by repeat constructor.
    - destruct l; [|done]. apply does_ret. split; [done|]. exists z, [], x, col, r. by split. }
  eapply runs_mono; [apply (does_walk i None (plug c t) minimum_turn z); [|exact HR|done]|].
  { intros fuel Hf. apply Hloop; [done|]. pose proof (height_addrs t) as H. rewrite addrs_plug, length_app in Hf. lia. }
  intros r w' ev (T' & HT' & Hs & _ & -> & Hr). split; [by eapply Rep_same|done].
Qed.

(** The balance of a place does not depend on the items. *)
Definition colors (c : ctx) : list (bool * tree) := (λ f, (f_red f, f_sib f)) <$> c.
Lemma rbc_colors n c c' : colors c = colors c' → rbc n c → rbc n c'.
Proof.
  revert n c'. induction c as [|f c IH]; intros n [|f' c'] H; try done. cbn in H. injection H as Hr Hs H. cbn. rewrite Hr, Hs.
  destruct (f_red f'); [|by intros [? ?]; eauto]. intros (H1 & H2 & H3 & H4). split_and!; eauto. by destruct c, c'; [..|injection H as <- _].
Qed.
Lemma removable c c' b y cb (l r ch : tree) : balanced (plug c (Bin b y cb l r)) → l = Leaf ∧ ch = r ∨ r = Leaf ∧ ch = l → colors c = colors c' →
  if cb then balanced (plug c' ch) else (ch = Leaf ∨ is_red ch = true) ∧ short 0 c' ch.
Proof.
  intros Hb Hch Hcol. apply plug_balanced in Hb as (n & Hn & Hc & Hf & Hroot). destruct cb.
  - assert (ch = Leaf ∧ n = O) as [-> ->].
    { destruct Hn as (Hl & Hr & Hln & Hrn). destruct Hch as [[-> ->]|[-> ->]]; cbn in Hln, Hrn; subst n; (split; [|done]);
        [destruct r as [|? ? [] ? ?]|destruct l as [|? ? [] ? ?]]; done. }
    eapply plug_is_balanced; [done|by eapply rbc_colors|by destruct c'|done].
  - assert (n = 1%nat ∧ rb 0 ch) as [-> Hch0].
    { destruct n as [|n]; [done|]. destruct Hn as [Hl Hr]. destruct Hch as [[-> ->]|[-> ->]]; cbn in *; subst n; done. }
    split; [|split; [by eapply rbc_colors|]]; (destruct ch as [|? ? [] ? ?]; [auto..|done]). cbn in *. tauto.
Qed.

(** The items [m] are left, in nodes that were there. *)
Definition left_with (i : nat) (T : tree) (m : list item) (w w' : Tree) : Prop :=
  ∃ T', Rep i T' w' ∧ balanced T' ∧ inorder T' = m ∧ (∀ a, a ∈ addrs T' → a ∈ addrs T) ∧ same_but i (addrs T) w w'.
(** The whole removal, [C] being the place of the redundant node. *)
Lemma remove_rest i C C' b y cb (l r ch : tree) w (g : io ()) : Rep i (plug C (Bin b y cb l r)) w → balanced (plug C (Bin b y cb l r)) →
  l = Leaf ∧ ch = r ∨ r = Leaf ∧ ch = l → colors C = colors C' → parent_of C = parent_of C' → caddrs C = caddrs C' →
  Forall (λ x, x.1 ≠ 0) (inorder (plug C' ch)) →
  (∀ w1, Rep i (plug C ch) w1 → runs g w1 (λ _ w2 _, Rep i (plug C' ch) w2 ∧ same_but i (addrs (plug C ch)) w1 w2)) →
  runs (unlink b (parent_of C) (root_of ch) i;; g;; after_unlink b (parent_of C) (root_of ch) i) w (λ _ w' _,
    left_with i (plug C (Bin b y cb l r)) (inorder (plug C' ch)) w w').
Proof.
  intros HR Hb Hch Hcol Hpar Hcad Hx Hg. apply Rep_plug in HR as HR'. destruct HR' as ((Hbn & _) & _ & _ & Hnd).
  assert (Hnb : b ∉ addrs (plug C ch)).
  { rewrite addrs_plug. cbn in Hnd. apply NoDup_cons in Hnd as [Hnb _]. intros Hin. apply Hnb. apply elem_of_app in Hin as [Hin|Hin].
    - destruct Hch as [[-> ->]|[-> ->]]; cbn; rewrite ?app_nil_r; apply elem_of_app; by left.
    - apply elem_of_app. by right. }
  apply runs_bind. eapply runs_mono; [by eapply unlink_runs|]. intros [] w1 ev1 (HR1 & Hb1 & Hs1).
  apply runs_bind. eapply runs_mono; [by apply Hg|]. intros [] w2 ev2 (HR2 & Hs2).
  assert (Hadd : addrs (plug C' ch) ≡ₚ addrs (plug C ch)) by (by rewrite !addrs_plug, Hcad).
  assert (Hsub : b :: addrs (plug C ch) ≡ₚ addrs (plug C (Bin b y cb l r))).
  { rewrite !addrs_plug. cbn. f_equiv. f_equiv. by destruct Hch as [[-> ->]|[-> ->]]; cbn; rewrite ?app_nil_r. }
  rewrite Hpar. eapply runs_mono; [eapply after_unlink_runs; [exact HR2| | |done|]|].
  - destruct Hs2 as (Hs2 & _). rewrite Hs2 by done. rewrite Hb1. exact Hbn.
  - by rewrite Hadd.
  - cbn [red node_at]. by eapply removable.
  - intros [] w3 ev3 (T' & HT' & Hb' & Hin & Hp & Hs3). exists T'. split_and!; try done.
    + intros a Ha. rewrite <-Hsub. right. by rewrite <-Hadd, <-Hp.
    + eapply same_but_perm; [exact Hsub|]. eapply same_but_trans; [|eapply same_but_perm; [|exact Hs3]; by rewrite Hadd].
      eapply same_but_trans; (eapply same_but_weaken; [|done]); intros a Ha; by right.
Qed.

(** [w'] has the tree [T'] instead of [T]. *)
Definition changed (i : nat) (T T' : tree) (w w' : Tree) : Prop :=
  Rep i T' w' ∧ ∃ l, frame_of i l w w' ∧ (∀ a, a ∈ l ∨ a ∈ addrs T' → a ∈ addrs T ∨ nodes w !! a = None).

Lemma runs_assoc3 {A} (f g k : io ()) (h : () → io A) w (Q : A → Tree → Prop) :
  runs ((f;; g;; k) ≫= h) w (λ r w' _, Q r w') → runs (f;; g;; k ≫= h) w (λ r w' _, Q r w').
Proof.
  unfold runs, mbind, emitting_bind. destruct (f w) as [[[x w1] ev1]|]; [|done]. destruct (g w1) as [[[y w2] ev2]|]; [|done].
  destruct (k w2) as [[[z w3] ev3]|]; [|done]. by destruct (h z w3) as [[[r w4] ev4]|].
Qed.
(** The end, [f] having left the items [m]. *)
Lemma remove_totals i T m w (f : io ()) (v s : Z) : runs f w (λ _ w' _, left_with i T m w w') →
  runs (f ≫= λ _, w ← the_tree; (if (i =? 0)%nat then set_totals (count w - 1) (u64 (size w - s)) else mret ());; (mret v : io Z)) w
   (λ r w' _, r = v ∧ ∃ T', changed i T T' w w' ∧ balanced T' ∧ inorder T' = m ∧
     count w' = (if (i =? 0)%nat then count w - 1 else count w) ∧ size w' = (if (i =? 0)%nat then u64 (size w - s) else size w)).
Proof.
  intros Hf. apply runs_bind. eapply runs_mono; [exact Hf|]. intros [] w1 ev1 (T' & HT' & Hb' & Hin & Hp & H1 & H2 & H3 & H4 & H5 & H6).
  apply runs_bind. unfold runs at 1, the_tree. rewrite H4, H5.
  assert (Hdone : ∀ c' s', let w2 := mkTree (nodes w1) (roots w1) c' s' (allow_duplicates w1) in
    changed i T T' w w2 ∧ balanced T' ∧ inorder T' = m ∧ count w2 = c' ∧ size w2 = s').
  { intros c' s' w2. split_and!; try done. split; [exact HT'|]. exists (addrs T). split; [by split_and!|]. intros b [Hb''|Hb'']; left; auto. }
  apply runs_bind. destruct (i =? 0)%nat.
  - unfold runs at 1, set_totals. apply runs_ret. split; [done|]. exists T'. apply Hdone.
  - apply runs_ret, runs_ret. split; [done|]. exists T'. rewrite <-H4, <-H5. destruct w1. apply Hdone.
Qed.

Lemma remove_node i c a x col (l r : tree) w : let T := plug c (Bin a x col l r) in
  Rep i T w → balanced T → Forall (λ x, x.1 ≠ 0) (inorder T) →
  runs (TreeRemoveNodeIndex a i) w (λ v w' _, v = x.1 ∧ ∃ T', changed i T T' w w' ∧ balanced T' ∧ inorder T' = before c ++ (inorder l ++ inorder r) ++ after c ∧
    count w' = (if (i =? 0)%nat then count w - 1 else count w) ∧ size w' = (if (i =? 0)%nat then u64 (size w - x.2) else size w)).
Proof.
  intros T HR Hb Hx. apply Rep_plug in HR as HR'. destruct HR' as ((Ha & _) & _). unfold TreeRemoveNodeIndex. eapply node_then; [exact Ha|].
  cbn [left right node_at content nsize].
  assert (Hone : ∀ ch, l = Leaf ∧ ch = r ∨ r = Leaf ∧ ch = l → runs (unlink a (parent_of c) (root_of ch) i;; mret ();; after_unlink a (parent_of c) (root_of ch) i) w
      (λ _ w' _, left_with i T (before c ++ (inorder l ++ inorder r) ++ after c) w w')).
  { intros ch Hch. assert (Hin : inorder ch = inorder l ++ inorder r) by (destruct Hch as [[-> ->]|[-> ->]]; cbn; by rewrite ?app_nil_r).
    rewrite <-Hin, <-inorder_plug. apply (remove_rest i c c a x col l r ch w (mret ()) HR Hb Hch); try done.
    revert Hx. unfold T. rewrite !inorder_plug, Hin. cbn. rewrite !Forall_app, Forall_cons. tauto. }
  destruct (bool_decide (is_Some (root_of l)) && bool_decide (is_Some (root_of r))) eqn:Htwo.
  - apply andb_true_iff in Htwo as [Hl Hr]. apply bool_decide_eq_true in Hl, Hr. destruct Hr as [z Hz].
    set (f := mkFrame true a x col l).
    apply runs_bind, runs_bind. unfold TreeSuccessor at 1. eapply node_then; [exact Ha|]. cbn [right node_at]. rewrite Hz.
    eapply runs_mono; [by apply (TreeMinimum_runs i (f :: c) r z)|]. intros o w1 ev1 (-> & b & c2 & y & cb & rr & -> & Hp & Hleft).
    apply (runs_lift _ b); [done|]. set (C := c2 ++ f :: c). pose (C' := c2 ++ mkFrame true a y col l :: c).
    assert (HT : T = plug C (Bin b y cb Leaf rr)) by exact (eq_sym Hp). rewrite HT in HR, Hb.
    pose proof HR as HR'. apply Rep_plug in HR' as ((Hbn & _) & _ & _ & Hnd). eapply node_then; [exact Hbn|]. cbn [parent left child right node_at].
    assert (Hab : b ≠ a).
    { intros ->. cbn in Hnd. apply NoDup_cons in Hnd as [Hnd _]. apply Hnd. apply elem_of_app. right. unfold C. clear. induction c2; cbn; [left|].
      right. apply elem_of_app. by right. }
    rewrite (bool_decide_eq_false_2 (b = a)) by done. rewrite bool_decide_eq_true_2 by done. cbn [content nsize node_at].
    apply runs_assoc3, remove_totals. cbn [root_of].
    assert (Heq : before c ++ (inorder l ++ inorder r) ++ after c = inorder (plug C' rr)).
    { assert (Hi : inorder (plug (c2 ++ f :: c) (Bin b y cb Leaf rr)) = inorder (plug (f :: c) r)) by (by rewrite Hp).
        rewrite (inorder_plug (f :: c)), inorder_plug in Hi. rewrite inorder_plug. unfold C'. rewrite before_left, after_app in Hi |- * by done.
        cbn in Hi |- *. apply app_inv_head in Hi. simplify_list_eq. by rewrite Hi. }
    assert (Hx' : Forall (λ x, x.1 ≠ 0) (inorder (plug C' rr))).
    { rewrite <-Heq. revert Hx. unfold T. rewrite inorder_plug. cbn. rewrite !Forall_app, Forall_cons. tauto. }
    rewrite Heq, HT. apply (remove_rest i C C' b y cb Leaf rr rr); [done|done|by left| | | | |].
    + unfold colors, C, C'. by rewrite !fmap_app.
    + unfold C, C'. by destruct c2.
    + unfold C, C'. clear. induction c2 as [|g c2 IH]; cbn; [done|]. by rewrite IH.
    + done.
    + intros w1 HR1.
      assert (HP : ∀ g, plug (c2 ++ g :: c) rr = plug c (plug1 g (plug c2 rr))) by (intros g; by rewrite plug_app).
      unfold C in *. rewrite HP in HR1. eapply runs_mono.
      { apply (does_last i None (plug c (Bin a x col l (plug c2 rr))) (set a (λ n, with_content n y.1 y.2)) (λ _ T', T' = plug c (Bin a y col l (plug c2 rr)))); [|exact HR1|done].
        apply (does_set i None c a x col l (plug c2 rr) _ y col); [done|by apply does_ret]. }
      intros [] w2 ev2 (T' & HT' & Hs & _ & ->). unfold C'. rewrite !HP. by split.
  - apply runs_bind, runs_ret. eapply node_then; [exact Ha|]. rewrite (bool_decide_eq_true_2 (a = a)) by done.
    apply runs_assoc3, remove_totals. destruct l as [|la lx lc ll lr].
    + rewrite bool_decide_eq_true_2 by done. apply (Hone r). by left.
    + rewrite bool_decide_eq_false_2 by done. apply (Hone (Bin la lx lc ll lr)). right. by destruct r.
Qed.

(** ** The operations on an index *)

Lemma frame_of_same i l w1 w2 w3 : frame_of i l w1 w2 → same_but i l w2 w3 → frame_of i l w1 w3.
Proof.
  intros (H1 & H2 & H3 & H4) (K1 & K2 & K3 & K4 & K5 & K6). split_and!; [..|congruence|congruence].
  - intros a Ha. by rewrite K1, H1.
  - intros j Hj. by rewrite K2, H2.
Qed.

Section Operations.
Context (compare : nat → Z → Z → bool → Z) (i : nat) (rank : Z → Z).

Lemma add_new T w x sz : compares compare i rank x true (rank x) → Rep i T w → balanced T → sorted rank (inorder T) → find_item rank (rank x) (inorder T) = None →
  runs (TreeAddByIndex compare true x sz i) w (λ r w' _, r = Some x ∧ ∃ T', changed i T T' w w' ∧ balanced T' ∧ inorder T' = add_item rank (x, sz) (inorder T) ∧
    count w' = (if (i =? 0)%nat then count w + 1 else count w) ∧ size w' = (if (i =? 0)%nat then u64 (size w + sz) else size w)).
Proof.
  intros Hcmp HT Hb Hs Hnone. unfold TreeAddByIndex. eapply search_walks; [exact Hcmp|done..|]. intros c t (-> & Hcut & Ht).
  rewrite inorder_plug in Hnone. destruct t as [|a y col l r].
  2:{ exfalso. cbn in Hnone. apply find_item_none in Hnone. rewrite !Forall_app, Forall_cons in Hnone. destruct Hnone as (_ & (_ & Hy & _) & _). by apply Hy. }
  cbn [root_of]. apply runs_bind. unfold runs at 1, the_tree. set (a := fresh (dom (nodes w))).
  assert (Ha : nodes w !! a = None) by (apply not_elem_of_dom, is_fresh).
  apply runs_bind. eapply runs_mono; [by apply new_leaf_runs|]. intros [] w1 ev1 (HR & Hf & Hn & Hsz).
  apply runs_bind. eapply runs_mono; [by apply (TreeBalanceAfterAdd_does i None c (Bin a (x, sz) true Leaf Leaf) a)|].
  intros [] w2 ev2 (T' & HT' & Hsame & Haddrs & ->). apply runs_ret. split; [done|]. eexists. split; [|split; [|split; [|split]]]; [split; [exact HT'|]|..].
  - exists (a :: addrs (plug c Leaf)). assert (Hl : addrs (plug c (Bin a (x, sz) true Leaf Leaf)) ≡ₚ a :: addrs (plug c Leaf)) by (by rewrite !addrs_plug).
    split; [eapply frame_of_same; [exact Hf|]; by eapply same_but_perm|]. rewrite Hl in Haddrs. intros b Hb'. rewrite Haddrs in Hb'.
    assert (b ∈ a :: addrs (plug c Leaf)) as Hin by tauto. apply elem_of_cons in Hin as [->|Hin]; [by right|by left].
  - apply plug_balanced in Hb as (n & -> & Hc & _). by apply (fix_add_balanced _ _ 0).
  - rewrite inorder_blacken, inorder_fix_add, !inorder_plug. symmetry. by apply (add_item_cut rank (x, sz) (before c) [] (after c)).
  - destruct Hsame as (_ & _ & _ & -> & _). exact Hn.
  - destruct Hsame as (_ & _ & _ & _ & -> & _). exact Hsz.
Qed.

(** A content with the rank of another. *)
Lemma add_existing T w room x sz y : compares compare i rank x true (rank x) → Rep i T w → sorted rank (inorder T) → find_item rank (rank x) (inorder T) = Some y →
  allow_duplicates w = false →
  runs (TreeAddByIndex compare room x sz i) w (λ r w' _, r = Some x ∧ ∃ T', changed i T T' w w' ∧ inorder T' = add_item rank (x, sz) (inorder T) ∧
    count w' = count w ∧ size w' = (if (i =? 0)%nat then u64 (size w + (sz - y.2)) else size w)).
Proof.
  intros Hcmp HT Hs Hy Hd. unfold TreeAddByIndex. eapply search_walks; [exact Hcmp|done..|]. intros c t (-> & Hcut & Ht).
  rewrite inorder_plug in Hy |- *. destruct t as [|a y' col l r].
  { exfalso. cbn [inorder] in Hy. by rewrite (find_item_cut _ _ _ [] _) in Hy. }
  set (m1 := before c ++ inorder l). set (m2 := inorder r ++ after c).
  assert (Hm : before c ++ inorder (Bin a y' col l r) ++ after c = m1 ++ [y'] ++ m2) by (unfold m1, m2; cbn; by simplify_list_eq).
  assert (Hc : cut rank (rank x) m1 m2) by (rewrite <-Ht; apply sorted_middle; by rewrite inorder_plug, Hm in Hs).
  rewrite Hm in Hy |- *. rewrite (find_item_cut _ _ m1 [y'] m2) in Hy by done. injection Hy as ->. rewrite (add_item_cut rank (x, sz) m1 [y] m2) by done.
  cbn [root_of]. apply runs_bind. unfold runs at 1, the_tree. rewrite Hd. apply Rep_plug in HT as HT'. destruct HT' as ((Ha & _) & _). eapply node_then; [exact Ha|].
  apply runs_bind. cbn [nsize node_at].
  assert (Hrest : ∀ s, let w1 := mkTree (nodes w) (roots w) (count w) s false in
    runs (set a (λ n, with_content n x sz);; TreeBalanceAfterAdd a i;; mret (Some x)) w1 (λ r0 w' _, r0 = Some x ∧ ∃ T', changed i (plug c (Bin a y col l r)) T' w w' ∧
      inorder T' = m1 ++ (x, sz) :: m2 ∧ count w' = count w ∧ size w' = s)).
  { intros s w1. pose proof (does_set i None c a y col l r (λ n, with_content n x sz) (x, sz) col (λ _, TreeBalanceAfterAdd a i;; mret (Some x))
      (λ r0 T', r0 = Some x ∧ inorder T' = m1 ++ (x, sz) :: m2) ltac:(done)) as Hset.
    eapply runs_mono; [apply Hset; [|exact HT|done]|].
    - eapply does_bind; [by apply TreeBalanceAfterAdd_does|]. intros [] T' ->. apply does_ret. split; [done|].
      rewrite inorder_blacken, inorder_fix_add, inorder_plug. unfold m1, m2. cbn. by simplify_list_eq.
    - intros r0 w' ev (T' & HT' & Hsame & Hp & -> & Hin). split; [done|]. exists T'. pose proof Hsame as (H1 & H2 & H3 & H4 & H5 & H6).
      split_and!; try done. split; [done|]. exists (addrs (plug c (Bin a y col l r))). split; [split_and!; try done; by rewrite H6|]. intros b [Hb|Hb]; left; [done|by rewrite <-Hp]. }
  destruct (i =? 0)%nat.
  - unfold runs at 1, set_totals. rewrite Hd. apply Hrest.
  - apply runs_ret. pose proof (Hrest (size w)) as H. destruct w; cbn in *. subst. exact H.
Qed.
(** Nothing is added: there is no memory, or a content of this rank. *)
Lemma add_refused T w room x sz : compares compare i rank x true (rank x) → Rep i T w → sorted rank (inorder T) →
  (if bool_decide (is_Some (find_item rank (rank x) (inorder T))) then allow_duplicates w = true else room = false) →
  runs (TreeAddByIndex compare room x sz i) w (λ r w' _, r = None ∧ w' = w).
Proof.
  intros Hcmp HT Hs Hno. unfold TreeAddByIndex. eapply search_walks; [exact Hcmp|done..|]. intros c t (-> & Hcut & Ht).
  rewrite inorder_plug in Hno. apply runs_bind. unfold runs at 1, the_tree. destruct t as [|a y col l r]; cbn [root_of].
  - cbn [inorder] in Hno. rewrite (find_item_cut _ _ _ [] _) in Hno by done. cbn in Hno. rewrite Hno. by apply runs_ret.
  - rewrite bool_decide_eq_true_2 in Hno; [rewrite Hno; by apply runs_ret|]. apply not_eq_None_Some. intros Hn. apply find_item_none in Hn.
    cbn in Hn. rewrite !Forall_app, Forall_cons in Hn. destruct Hn as (_ & (_ & Hn & _) & _). by apply Hn.
Qed.

Lemma TreeFindIndex1_runs T w key value k : compares compare i rank key value k → Rep i T w → sorted rank (inorder T) →
  runs (TreeFindIndex1 compare key i value) w (λ r w' _, w' = w ∧ ∃ c t, key_at rank k T c t ∧ r = root_of t).
Proof.
  intros Hcmp HT Hs. unfold TreeFindIndex1. eapply search_walks; [exact Hcmp|done..|]. intros c t Hc. apply runs_ret. split; [done|]. by exists c, t.
Qed.

(** A search and a removal; [g] follows it with the content. *)
Definition removed (T : tree) (k : Z) (w : Tree) (r : option Z) (w' : Tree) : Prop :=
  let m := inorder T in let o := find_item rank k m in
  r = fst <$> o ∧ ∃ T', changed i T T' w w' ∧ balanced T' ∧ inorder T' = remove_item rank k m ∧
    count w' = (if (i =? 0)%nat && bool_decide (is_Some o) then count w - 1 else count w) ∧
    size w' = (match o with Some y => if (i =? 0)%nat then u64 (size w - y.2) else size w | None => size w end).
Lemma node_removed T w k c a y col (l r : tree) : Rep i T w → balanced T → sorted rank (inorder T) → Forall (λ x, x.1 ≠ 0) (inorder T) →
  key_at rank k T c (Bin a y col l r) → runs (TreeRemoveNodeIndex a i) w (λ v w' _, v = y.1 ∧ removed T k w (Some v) w').
Proof.
  intros HT Hb Hs Hx Hat. pose proof (key_at_item _ _ _ _ _ Hat Hs) as Hf. destruct Hat as (-> & Hcut & Ht).
  eapply runs_mono; [by apply remove_node|]. intros v w' ev (-> & T' & Hch & Hb' & Hin & Hn & Hsz). split; [done|]. unfold removed. rewrite Hf. split; [done|].
  exists T'. split_and!; try done; [|by rewrite bool_decide_eq_true_2, andb_true_r].
  rewrite Hin, inorder_plug. rewrite inorder_plug in Hs. cbn [inorder] in Hs |- *.
  replace (before c ++ (inorder l ++ y :: inorder r) ++ after c) with ((before c ++ inorder l) ++ [y] ++ inorder r ++ after c) in Hs |- * by (by simplify_list_eq).
  rewrite remove_item_cut; [by simplify_list_eq|rewrite <-Ht; by apply sorted_middle|by repeat constructor].
Qed.
Lemma find_remove T w key value k (g : Z → io (option Z)) : compares compare i rank key value k → Rep i T w → balanced T → sorted rank (inorder T) →
  Forall (λ x, x.1 ≠ 0) (inorder T) → (∀ c w', length (roots w') = length (roots w) → runs (g c) w' (λ r w2 _, r = Some c ∧ w2 = w')) →
  runs (o ← TreeFindIndex1 compare key i value; match o with None => mret None | Some a => c ← TreeRemoveNodeIndex a i; g c end) w (λ r w' _, removed T k w r w').
Proof.
  intros Hcmp HT Hb Hs Hx Hg. apply runs_bind. eapply runs_mono; [by apply (TreeFindIndex1_runs T w key value k)|].
  intros r w' ev (-> & c & t & Hat & ->). destruct t as [|a y col l r].
  - cbn [root_of]. apply runs_ret. unfold removed. pose proof (key_at_item _ _ _ _ _ Hat Hs) as Hf. rewrite Hf, (remove_item_none _ _ _ Hf). split; [done|].
    exists T. rewrite andb_false_r. split_and!; try done. split; [done|]. exists []. split; [by split_and!|]. intros b [Hb'|Hb']; [by apply not_elem_of_nil in Hb'|by left].
  - cbn [root_of]. apply runs_bind. eapply runs_mono; [by eapply node_removed|]. intros v w' ev2 (_ & Hrem).
    eapply runs_mono; [apply Hg; destruct Hrem as (_ & T' & (_ & l' & (_ & _ & Hlen & _) & _) & _); exact Hlen|]. by intros r' w2 ev3 [-> ->].
Qed.
End Operations.

(** ** Walking in order *)

(** The nodes, in the order of their items. *)
Fixpoint places (t : tree) : list positive := match t with Leaf => [] | Bin a _ _ l r => places l ++ a :: places r end.
Fixpoint pbefore (c : ctx) : list positive := match c with [] => [] | f :: c' => pbefore c' ++ if f_dir f then places (f_sib f) ++ [f_addr f] else [] end.
Fixpoint pafter (c : ctx) : list positive := match c with [] => [] | f :: c' => (if f_dir f then [] else f_addr f :: places (f_sib f)) ++ pafter c' end.
Lemma places_plug c t : places (plug c t) = pbefore c ++ places t ++ pafter c.
Proof.
  revert t. induction c as [|f c IH]; intros t; cbn; [by rewrite app_nil_r|]. rewrite IH. unfold plug1. destruct (f_dir f); cbn; by rewrite <-!app_assoc.
Qed.
Lemma places_addrs t : places t ≡ₚ addrs t.
Proof. induction t as [|a x c l IHl r IHr]; cbn; [done|]. by rewrite IHl, IHr, <-Permutation_middle. Qed.
Lemma pbefore_left c2 c : Forall (λ f, f_dir f = false) c2 → pbefore (c2 ++ c) = pbefore c.
Proof. induction 1 as [|f c2 Hf _ IH]; cbn; [done|]. by rewrite Hf, app_nil_r. Qed.
Lemma places_items h p t : rep h p t → Forall2 (λ a x, ∃ n, h !! a = Some n ∧ (content n, nsize n) = x) (places t) (inorder t).
Proof.
  revert p. induction t as [|a x c l IHl r IHr]; intros p; cbn; [done|]. intros (Ha & Hl & Hr). apply Forall2_app; [eauto|].
  constructor; [|eauto]. exists (node_at p x c (root_of l) (root_of r)). split; [done|]. by destruct x.
Qed.
Lemma place_at c t j a : places t !! j = Some a → ∃ c' x col l r, plug c' (Bin a x col l r) = plug c t ∧ length (pbefore c' ++ places l) = (length (pbefore c) + j)%nat.
Proof.
  revert c j. induction t as [|b x col l IHl r IHr]; intros c j Hj; cbn in Hj; [done|].
  apply lookup_app_Some in Hj as [Hj|[Hlen Hj]].
  - destruct (IHl (mkFrame false b x col r :: c) j Hj) as (c' & x' & col' & l' & r' & Hp & Hn). exists c', x', col', l', r'. split; [done|].
    rewrite Hn. cbn. by rewrite app_nil_r.
  - destruct (j - length (places l))%nat as [|k] eqn:Hk; cbn in Hj.
    + injection Hj as <-. exists c, x, col, l, r. split; [done|]. rewrite length_app. lia.
    + destruct (IHr (mkFrame true b x col l :: c) k Hj) as (c' & x' & col' & l' & r' & Hp & Hn). exists c', x', col', l', r'. split; [done|].
      rewrite Hn. cbn. rewrite !length_app. cbn. lia.
Qed.

Lemma TreeMinimum_head i c t w : Rep i (plug c t) w →
  runs (TreeMinimum (root_of t)) w (λ r w' _, w' = w ∧ r = head (places t)).
Proof.
  intros HR. destruct (root_of t) as [z|] eqn:Hz; [|destruct t; [by apply runs_ret|done]].
  eapply runs_mono; [by apply (TreeMinimum_runs i c t z)|]. intros r w' ev (-> & b & c2 & y & cb & rr & -> & Hp & Hl). split; [done|].
  apply (f_equal places) in Hp. rewrite !places_plug, pbefore_left in Hp by done. apply app_inv_head in Hp. cbn in Hp.
  destruct t as [|a x col l r]; [done|]. cbn in Hp |- *. destruct (places l); by injection Hp as <-.
Qed.
(** Up to the first parent whose left child is below. *)
Lemma successor_up i fuel c t z w : Rep i (plug c t) w → root_of t = Some z → (length c < fuel)%nat →
  runs (iterate fuel successor_turn (z, parent_of c)) w (λ r w' _, w' = w ∧ r = head (pafter c)).
Proof.
  revert c t z. induction fuel as [|fuel IH]; intros c t z HR Hz Hf; [lia|]. cbn [iterate successor_turn].
  destruct c as [|f c]; cbn [parent_of]; [by apply runs_bind, runs_ret, runs_ret|].
  apply Rep_plug in HR as HR'. destruct HR' as (_ & (Hfn & _) & _ & Hnd). apply runs_bind. eapply node_then; [exact Hfn|]. apply runs_ret.
  destruct (f_dir f) eqn:Hd.
  - rewrite bool_decide_eq_true_2 by (cbn; by rewrite Hz). cbn [parent with_child node_at pafter]. rewrite Hd.
    eapply runs_mono; [apply (IH c (plug1 f t)); [exact HR|unfold plug1; apply root_bin|cbn in Hf; lia]|]. done.
  - rewrite bool_decide_eq_false_2; [apply runs_ret; cbn; by rewrite Hd|]. cbn. intros Hr. destruct t as [|a x col l r]; [done|]. injection Hz as ->.
    apply NoDup_app in Hnd as (_ & Hdis & _). apply (Hdis z); [left|]. cbn. right. apply elem_of_app. left. destruct (f_sib f); [done|]. injection Hr as ->. left.
Qed.
Lemma TreeSuccessor_next i c a x col (l r : tree) w : Rep i (plug c (Bin a x col l r)) w →
  runs (TreeSuccessor a) w (λ r' w' _, w' = w ∧ r' = head (places r ++ pafter c)).
Proof.
  intros HR. apply Rep_plug in HR as HR'. destruct HR' as ((Ha & _) & _). unfold TreeSuccessor. eapply node_then; [exact Ha|]. cbn [right node_at parent].
  destruct r as [|b y cb rl rr]; cbn [root_of].
  - unfold walk. apply runs_bind. unfold runs at 1, the_tree. eapply successor_up; [exact HR|done|].
    pose proof (addrs_size _ _ _ HR). pose proof (ctx_length c (Bin a x col l Leaf)). lia.
  - set (t := Bin b y cb rl rr). eapply runs_mono; [apply (TreeMinimum_head i (mkFrame true a x col l :: c) t); exact HR|].
    intros r' w' ev [-> ->]. split; [done|]. destruct (places t) eqn:Hpl; [|done]. unfold t in Hpl. cbn in Hpl. by destruct (places rl).
Qed.

Lemma TreeNextElementIndex_order i T w : Rep i T w →
  runs (TreeNextElementIndex None i) w (λ r w' _, w' = w ∧ r = head (places T)) ∧
  ∀ j a, places T !! j = Some a → runs (TreeNextElementIndex (Some a) i) w (λ r w' _, w' = w ∧ r = places T !! S j).
Proof.
  intros HR. split.
  - unfold TreeNextElementIndex. apply runs_bind. unfold runs at 1, get_root, lift. rewrite (proj1 (proj2 HR)).
    by apply (TreeMinimum_head i []).
  - intros j a Hj. destruct (place_at [] T j a Hj) as (c & x & col & l & r & Hp & Hn). cbn [plug pbefore app length Nat.add] in Hp, Hn. subst T.
    eapply runs_mono; [by eapply TreeSuccessor_next|]. intros r' w' ev [-> ->]. split; [done|]. rewrite places_plug. cbn [places].
    replace (pbefore c ++ (places l ++ a :: places r) ++ pafter c) with ((pbefore c ++ places l) ++ a :: places r ++ pafter c) by (by simplify_list_eq).
    rewrite lookup_app_r by lia. replace (S j - _)%nat with 1%nat by lia. cbn. by destruct (places r ++ pafter c).
Qed.
End TreesIndex.
