(* ===== verification/TreesSpec.v ===== *)
(** * Red-black trees as sorted lists (paho.mqtt.c/src/Tree.c)

    A tree stands for a list of items for each index, in the order of its comparison
    function.  The operations refine those on the lists and keep the trees balanced. *)
From stdpp Require Import sorting.
From S2P Require Import Prelude Trees TreesShape TreesBalance TreesIndex.

Module TreesSpec.
Import Trees TreesShape TreesBalance TreesIndex.

Section Spec.
Context (compare : nat → Z → Z → bool → Z) (ranks : nat → Z → Z).
(** Each index compares by rank. *)
Context (Hcmp : ∀ i x, compares compare i (ranks i) x true (ranks i x)).

(** ** The abstract state *)

Definition good (i : nat) (T : tree) (w : Tree) : Prop :=
  Rep i T w ∧ balanced T ∧ sorted (ranks i) (inorder T) ∧ Forall (λ x, x.1 ≠ 0) (inorder T).
(** The trees of the indexes, which share no node. *)
Definition shapes (Ts : list tree) (w : Tree) : Prop :=
  length (roots w) = length Ts ∧ (∀ i T, Ts !! i = Some T → good i T w) ∧
  (∀ i j T U a, Ts !! i = Some T → Ts !! j = Some U → a ∈ addrs T → a ∈ addrs U → i = j).
(** The sizes of the items. *)
Definition total (m : list item) : Z := foldr (λ x n, x.2 + n) 0 m.
(** [ms] are the items of the indexes; the first index has the totals. *)
Definition represents (ms : list (list item)) (w : Tree) : Prop :=
  ∃ Ts, shapes Ts w ∧ ms = inorder <$> Ts ∧ ∃ m, ms !! 0%nat = Some m ∧ count w = len m ∧ size w = u64 (total m).

Lemma total_perm m m' : m ≡ₚ m' → total m = total m'.
Proof. unfold total. induction 1; cbn in *; lia. Qed.

Lemma shapes_changed Ts i T T' w w' : shapes Ts w → Ts !! i = Some T → changed i T T' w w' →
  balanced T' → sorted (ranks i) (inorder T') → Forall (λ x, x.1 ≠ 0) (inorder T') → shapes (<[i := T']> Ts) w'.
Proof.
  intros (Hl & HTs & Hdis) HT (HT' & l & (Hn & Hj & Hlen & Ha) & Hold) Hb Hs Hx.
  assert (Hi : (i < length Ts)%nat) by (by eapply lookup_lt_Some).
  assert (Hother : ∀ j U a, j ≠ i → Ts !! j = Some U → a ∈ addrs U → ¬ (a ∈ l ∨ a ∈ addrs T')).
  { intros j U a Hji HU HaU Hin. destruct (Hold a Hin) as [HaT|Hnone]; [by apply Hji, (Hdis j i U T a)|].
    destruct (HTs j U HU) as ((HR & _) & _). destruct (rep_dom _ _ _ _ HR HaU) as [? ?]. congruence. }
  split_and!.
  - by rewrite length_insert, Hlen.
  - intros j U HU. destruct (decide (j = i)) as [->|Hji].
    + rewrite list_lookup_insert_eq in HU by done. by injection HU as <-.
    + rewrite list_lookup_insert_ne in HU by done. destruct (HTs j U HU) as (HR & ? & ? & ?). split_and!; try done.
      eapply Rep_frame; [exact HR| |by apply Hj]. intros a HaU. apply Hn. intros Hal. by apply (Hother j U a); auto.
  - intros j k U V a HU HV HaU HaV. destruct (decide (j = i)) as [->|Hji], (decide (k = i)) as [->|Hki]; [done| | |].
    + rewrite list_lookup_insert_eq in HU by done. injection HU as <-. rewrite list_lookup_insert_ne in HV by done. exfalso. by apply (Hother k V a); auto.
    + rewrite list_lookup_insert_eq in HV by done. injection HV as <-. rewrite list_lookup_insert_ne in HU by done. exfalso. by apply (Hother j U a); auto.
    + rewrite list_lookup_insert_ne in HU, HV by done. by apply (Hdis j k U V a).
Qed.
(** One index has changed. *)
Lemma represents_changed ms Ts i T T' w w' m m' : shapes Ts w → ms = inorder <$> Ts → ms !! 0%nat = Some m → Ts !! i = Some T → changed i T T' w w' →
  balanced T' → sorted (ranks i) (inorder T') → Forall (λ x, x.1 ≠ 0) (inorder T') → inorder T' = m' →
  count w' = (if (i =? 0)%nat then len m' else len m) → size w' = (if (i =? 0)%nat then u64 (total m') else u64 (total m)) →
  represents (<[i := m']> ms) w'.
Proof.
  intros Hsh -> Hm HT Hch Hb Hs Hx <- Hc Hsz. exists (<[i := T']> Ts). split; [by eapply shapes_changed|]. split; [by rewrite list_fmap_insert|].
  destruct (Nat.eqb_spec i 0) as [->|Hi].
  - exists (inorder T'). split; [|done]. rewrite list_lookup_insert_eq; [done|]. rewrite length_fmap. by eapply lookup_lt_Some.
  - exists m. split; [|done]. by rewrite list_lookup_insert_ne.
Qed.
Lemma represents_index ms w i m : represents ms w → ms !! i = Some m → sorted (ranks i) m ∧ (i < length (roots w))%nat ∧ Forall (λ x, x.1 ≠ 0) m.
Proof.
  intros (Ts & (Hl & HTs & _) & -> & _) Hm. rewrite list_lookup_fmap in Hm. destruct (Ts !! i) as [T|] eqn:HT; [|done]. injection Hm as <-.
  destruct (HTs i T HT) as (_ & _ & ? & ?). rewrite Hl. split_and!; try done. by eapply lookup_lt_Some.
Qed.

(** ** A loop over the indexes *)

Lemma over_indexes_runs (op : nat → io (option Z)) (upd : nat → list item → list item) (out : nat → list item → option Z) (ok : nat → list item → Prop) :
  (∀ i ms m w, represents ms w → ms !! i = Some m → ok i m → runs (op i) w (λ r w' _, r = out i m ∧ represents (<[i := upd i m]> ms) w')) →
  ∀ n j ms w rc, represents ms w → (j + n = length ms)%nat → (∀ i m, (j ≤ i)%nat → ms !! i = Some m → ok i m) →
    runs (over_indexes op (seq j n) rc) w (λ r w' _, r = match n with O => rc | _ => m ← last ms; out (length ms - 1)%nat m end ∧
      represents (imap (λ i m, if decide (i < j)%nat then m else upd i m) ms) w').
Proof.
  intros Hop. induction n as [|n IH]; intros j ms w rc Hms Hj Hok; cbn [seq over_indexes].
  - apply runs_ret. split; [done|]. replace (imap _ ms) with ms; [done|]. apply list_eq. intros k. rewrite list_lookup_imap.
    destruct (ms !! k) as [m|] eqn:Hk; cbn; [|done]. apply lookup_lt_Some in Hk. rewrite decide_True; [done|lia].
  - destruct (lookup_lt_is_Some_2 ms j) as [m Hm]; [lia|]. apply runs_bind. eapply runs_mono; [apply (Hop j ms m w Hms Hm); by apply Hok|].
    intros r w1 ev1 [-> H1]. eapply runs_mono; [apply (IH (S j) _ w1 _ H1); [rewrite length_insert; lia|]|].
    { intros i m' Hi Hm'. rewrite list_lookup_insert_ne in Hm' by lia. apply Hok; [lia|done]. }
    intros r w2 ev2 [-> H2]. split.
    + rewrite !last_lookup, length_insert. destruct n as [|n].
      * replace (Init.Nat.pred (length ms)) with j by lia. rewrite Hm. cbn. f_equal. lia.
      * by rewrite list_lookup_insert_ne by lia.
    + replace (imap (λ i m, if decide (i < j)%nat then m else upd i m) ms)
        with (imap (λ i m, if decide (i < S j)%nat then m else upd i m) (<[j := upd j m]> ms)); [done|].
      apply list_eq. intros k. rewrite !list_lookup_imap. destruct (decide (k = j)) as [->|Hk].
      * rewrite list_lookup_insert_eq, Hm by lia. cbn. rewrite decide_True, decide_False by lia. done.
      * rewrite list_lookup_insert_ne by done. destruct (ms !! k); cbn; [|done]. do 2 case_decide; by (done || lia).
Qed.

(** ** Adding and removing *)

Lemma represents_roots ms w : represents ms w → length (roots w) = length ms.
Proof. intros (Ts & (-> & _) & -> & _). by rewrite length_fmap. Qed.
Lemma represents_last ms w : represents ms w → ∃ n m, length ms = S n ∧ last ms = Some m.
Proof.
  intros (Ts & _ & _ & m & Hm & _). apply lookup_lt_Some in Hm as Hlt. destruct (length ms) as [|n] eqn:Hl; [lia|].
  destruct (lookup_lt_is_Some_2 ms n) as [m' Hm']; [lia|]. exists n, m'. split; [done|]. by rewrite last_lookup, Hl.
Qed.

Lemma add_step x sz i ms m w : x ≠ 0 → represents ms w → ms !! i = Some m → find_item (ranks i) (ranks i x) m = None →
  runs (TreeAddByIndex compare true x sz i) w (λ r w' _, r = Some x ∧ represents (<[i := add_item (ranks i) (x, sz) m]> ms) w').
Proof using Hcmp.
  intros Hx Hms Hm Hn. destruct Hms as (Ts & Hsh & Hmap & m0 & Hm0 & Hc & Hsz). pose proof Hm as Hm'. rewrite Hmap, list_lookup_fmap in Hm'.
  destruct (Ts !! i) as [T|] eqn:HT; [|done]. injection Hm' as <-. destruct (proj1 (proj2 Hsh) i T HT) as (HR & Hb & Hs & Hx').
  eapply runs_mono; [by apply (add_new compare i (ranks i) T)|]. intros r w' ev (-> & T' & Hch & Hb' & Hin & Hc' & Hsz'). split; [done|].
  destruct (add_item_new (ranks i) (x, sz) (inorder T) Hs Hn) as [Hs' Hp]. eapply (represents_changed ms Ts i T T'); try done.
  - by rewrite Hin.
  - rewrite Hin, Hp. by constructor.
  - rewrite Hc', Hp. destruct (Nat.eqb_spec i 0) as [->|]; [|done]. rewrite Hm in Hm0. injection Hm0 as <-. rewrite Hc. cbn [length]. lia.
  - rewrite Hsz'. destruct (Nat.eqb_spec i 0) as [->|]; [|done]. rewrite Hm in Hm0. injection Hm0 as <-. rewrite Hsz, (total_perm _ _ Hp). cbn.
    unfold u64. rewrite Z.add_mod_idemp_l by done. f_equal. unfold total. lia.
Qed.
Lemma represents_removed ms Ts i T m0 k w r w' : shapes Ts w → ms = inorder <$> Ts → Ts !! i = Some T → ms !! 0%nat = Some m0 → count w = len m0 → size w = u64 (total m0) →
  removed i (ranks i) T k w r w' → represents (<[i := remove_item (ranks i) k (inorder T)]> ms) w'.
Proof.
  intros Hsh Hmap HT Hm0 Hc Hsz (_ & T' & Hch & Hb' & Hin & Hc' & Hsz'). destruct (proj1 (proj2 Hsh) i T HT) as (_ & _ & Hs & Hx').
  assert (Hm : ms !! i = Some (inorder T)) by (by rewrite Hmap, list_lookup_fmap, HT).
  eapply (represents_changed ms Ts i T T'); try done.
  - rewrite Hin. by apply remove_item_sorted.
  - rewrite Hin. unfold remove_item. rewrite Forall_forall in Hx' |- *. intros y Hy. apply list_elem_of_filter in Hy as [_ Hy]. by apply Hx'.
  - rewrite Hc'. destruct (find_item (ranks i) k (inorder T)) as [y|] eqn:Hf.
    + pose proof (remove_item_some _ _ _ _ Hs Hf) as Hp. rewrite bool_decide_eq_true_2, andb_true_r by done.
      destruct (Nat.eqb_spec i 0) as [->|]; [|done]. rewrite Hm in Hm0. injection Hm0 as <-. rewrite Hc, Hp at 1. cbn [length]. lia.
    + rewrite andb_false_r, (remove_item_none _ _ _ Hf). destruct (Nat.eqb_spec i 0) as [->|]; [|done]. rewrite Hm in Hm0. by injection Hm0 as <-.
  - rewrite Hsz'. destruct (find_item (ranks i) k (inorder T)) as [y|] eqn:Hf.
    + pose proof (remove_item_some _ _ _ _ Hs Hf) as Hp. destruct (Nat.eqb_spec i 0) as [->|]; [|done]. rewrite Hm in Hm0. injection Hm0 as <-.
      rewrite Hsz, (total_perm _ _ Hp). cbn. unfold u64. rewrite Zminus_mod_idemp_l. f_equal. unfold total. lia.
    + rewrite (remove_item_none _ _ _ Hf). destruct (Nat.eqb_spec i 0) as [->|]; [|done]. rewrite Hm in Hm0. by injection Hm0 as <-.
Qed.
Lemma remove_step x i ms m w : represents ms w → ms !! i = Some m → 
  runs (TreeRemoveIndex compare x i) w (λ r w' _, r = fst <$> find_item (ranks i) (ranks i x) m ∧ represents (<[i := remove_item (ranks i) (ranks i x) m]> ms) w').
Proof using Hcmp.
  intros Hms Hm. destruct Hms as (Ts & Hsh & Hmap & m0 & Hm0 & Hc & Hsz). pose proof Hm as Hm'. rewrite Hmap, list_lookup_fmap in Hm'.
  destruct (Ts !! i) as [T|] eqn:HT; [|done]. injection Hm' as <-. destruct (proj1 (proj2 Hsh) i T HT) as (HR & Hb & Hs & Hx').
  eapply runs_mono; [apply (find_remove compare i (ranks i) T w x true (ranks i x) (λ c, mret (Some c))); try done; by intros c w' _; apply runs_ret|].
  intros r w' ev [-> H]. split; [done|]. by eapply represents_removed.
Qed.

(** ** Trees with one index *)

Lemma one_tree m w : represents [m] w → ∃ T, shapes [T] w ∧ good 0 T w ∧ m = inorder T ∧ count w = len m ∧ size w = u64 (total m).
Proof.
  intros (Ts & Hsh & Hmap & m0 & Hm0 & Hc & Hsz). destruct Ts as [|T [|]]; try done. injection Hmap as ->. injection Hm0 as <-.
  exists T. split_and!; try done. by apply (proj1 (proj2 Hsh) 0%nat T).
Qed.
Lemma one_added m w x sz : represents [m] w → x ≠ 0 → find_item (ranks 0) (ranks 0 x) m = None →
  runs (TreeAdd compare (λ _, true) x sz) w (λ r w' _, r = Some x ∧ represents [add_item (ranks 0) (x, sz) m] w').
Proof using Hcmp.
  intros Hms Hx Hn. unfold TreeAdd. apply runs_bind. unfold runs at 1, the_tree. rewrite (represents_roots _ _ Hms). apply runs_bind.
  eapply runs_mono; [by apply (add_step x sz 0 [m] m)|]. intros r w' ev H. by apply runs_ret.
Qed.
Lemma one_refused m w x sz : represents [m] w → find_item (ranks 0) (ranks 0 x) m = None →
  runs (TreeAdd compare (λ _, false) x sz) w (λ _ w' _, w' = w).
Proof using Hcmp.
  intros Hms Hn. unfold TreeAdd. apply runs_bind. unfold runs at 1, the_tree. rewrite (represents_roots _ _ Hms). apply runs_bind.
  destruct (one_tree m w Hms) as (T & _ & (HR & _ & Hs & _) & -> & _).
  eapply runs_mono; [apply (add_refused compare 0 (ranks 0) T w false x sz (Hcmp 0 x) HR Hs); by rewrite Hn|].
  intros r w' ev [-> ->]. by apply runs_ret.
Qed.
(** The node found can be removed. *)
Lemma one_found m w key k : represents [m] w → compares compare 0 (ranks 0) key false k →
  runs (TreeFind compare key) w (λ r w' _, w' = w ∧ match find_item (ranks 0) k m with
    | Some y => ∃ a n, r = Some a ∧ nodes w !! a = Some n ∧ (content n, nsize n) = y ∧
        runs (TreeRemoveNodeIndex a 0) w (λ v w2 _, v = y.1 ∧ represents [remove_item (ranks 0) k m] w2)
    | None => r = None
    end).
Proof.
  intros Hms Hk. destruct (one_tree m w Hms) as (T & Hsh & (HR & Hb & Hs & Hx) & -> & Hc & Hsz).
  eapply runs_mono; [by apply (TreeFindIndex1_runs compare 0 (ranks 0) T)|]. intros r w' ev (-> & c & t & Hat & ->). split; [done|].
  rewrite (key_at_item _ _ _ _ _ Hat Hs). destruct t as [|a y col l r]; [done|]. exists a.
  assert (Ha : nodes w !! a = Some (node_at (parent_of c) y col (root_of l) (root_of r))).
  { destruct Hat as (-> & _). by apply Rep_plug in HR as ((Ha & _) & _). }
  eexists. split; [done|]. split; [exact Ha|]. split; [by destruct y|].
  eapply runs_mono; [by apply (node_removed 0 (ranks 0) T w k c a y col l r)|]. intros v w' ev2 [-> H]. split; [done|].
  by apply (represents_removed [inorder T] [T] 0 T (inorder T) k w (Some y.1) w').
Qed.
Lemma one_key_removed m w key k : represents [m] w → compares compare 0 (ranks 0) key false k →
  runs (TreeRemoveKey compare key) w (λ r w' _, r = fst <$> find_item (ranks 0) k m ∧ represents [remove_item (ranks 0) k m] w').
Proof.
  intros Hms Hk. pose proof (represents_roots _ _ Hms) as Hroots. destruct (one_tree m w Hms) as (T & Hsh & (HR & Hb & Hs & Hx) & -> & Hc & Hsz).
  unfold TreeRemoveKey, TreeRemoveKeyIndex.
  eapply runs_mono; [apply (find_remove compare 0 (ranks 0) T w key false k (λ c, w ← the_tree; remove_others compare 0 (seq 0 (length (roots w))) (Some c))); try done|].
  - intros c w' Hl. apply runs_bind. unfold runs at 1, the_tree. rewrite Hl, Hroots. by apply runs_ret.
  - intros r w' ev H. split; [apply H|]. by apply (represents_removed [inorder T] [T] 0 T (inorder T) k w r w').
Qed.

(** ** The operations of the interface *)

(** C17:[TreeAdd] of a content that no index has inserts it in the list of each
    index, in its order, and leaves every tree balanced. *)
Theorem TreeAdd_inserts ms w x sz : represents ms w → x ≠ 0 →
  (∀ i m, ms !! i = Some m → find_item (ranks i) (ranks i x) m = None) →
  runs (TreeAdd compare (λ _, true) x sz) w (λ r w' _, r = Some x ∧ represents (imap (λ i, add_item (ranks i) (x, sz)) ms) w').
Proof using Hcmp.
  intros Hms Hx Hnew. unfold TreeAdd. apply runs_bind. unfold runs at 1, the_tree. rewrite (represents_roots ms w Hms).
  eapply runs_mono; [apply (over_indexes_runs _ (λ i, add_item (ranks i) (x, sz)) (λ _ _, Some x) (λ i m, find_item (ranks i) (ranks i x) m = None));
    [by intros; apply add_step|exact Hms|done|by eauto]|].
  intros r w' ev [-> H]. split; [|exact H]. destruct (represents_last ms w Hms) as (n & m & -> & ->). done.
Qed.

(** C16:[TreeRemove] takes the content out of the list of each index and leaves every
    tree balanced; the result is what the last index had. *)
Theorem TreeRemove_removes ms w x : represents ms w →
  runs (TreeRemove compare x) w (λ r w' _,
    r = (m ← last ms; fst <$> find_item (ranks (length ms - 1)) (ranks (length ms - 1) x) m) ∧
    represents (imap (λ i, remove_item (ranks i) (ranks i x)) ms) w').
Proof using Hcmp.
  intros Hms. unfold TreeRemove. apply runs_bind. unfold runs at 1, the_tree. rewrite (represents_roots ms w Hms).
  eapply runs_mono; [apply (over_indexes_runs _ (λ i, remove_item (ranks i) (ranks i x)) (λ i m, fst <$> find_item (ranks i) (ranks i x) m) (λ _ _, True));
    [by intros; apply remove_step|exact Hms|done|done]|].
  intros r w' ev [-> H]. split; [|exact H]. by destruct (represents_last ms w Hms) as (n & m & -> & _).
Qed.

(** C37:A search returns the node with the item of this rank, or NULL, and writes
    nothing; it takes at most [2 log2 (n + 1) + 1] turns on [n] items. *)
Theorem TreeFind_finds ms w i m key value k fuel : represents ms w → ms !! i = Some m → compares compare i (ranks i) key value k →
  runs (TreeFindIndex1 compare key i value) w (λ r w' _, w' = w ∧ match find_item (ranks i) k m with
    | Some y => ∃ a n, r = Some a ∧ nodes w !! a = Some n ∧ (content n, nsize n) = y
    | None => r = None
    end) ∧
  ((2 * Nat.log2 (S (length m)) < fuel)%nat → ∀ root, roots w !! i = Some root → is_Some (iterate fuel (search_turn compare i key value) (root, (None, false)) w)).
Proof.
  intros (Ts & Hsh & -> & _) Hm Hk. rewrite list_lookup_fmap in Hm. destruct (Ts !! i) as [T|] eqn:HT; [|done]. injection Hm as <-.
  destruct (proj1 (proj2 Hsh) i T HT) as (HR & Hb & Hs & _). split.
  - eapply runs_mono; [by apply (TreeFindIndex1_runs compare i (ranks i) T)|]. intros r w' ev (-> & c & t & Hat & ->). split; [done|].
    rewrite (key_at_item _ _ _ _ _ Hat Hs). destruct Hat as (-> & _). apply Rep_plug in HR as (HR & _). destruct t as [|a y col l r]; [done|].
    destruct HR as [Ha _]. exists a. eexists. split; [done|]. split; [exact Ha|]. by destruct y.
  - intros Hf root Hroot. pose proof (proj1 (proj2 HR)) as Hroot'. rewrite Hroot in Hroot'. injection Hroot' as ->.
    pose proof (balanced_height T Hb) as Hh. pose proof (search_runs compare i (ranks i) key value k Hk fuel T w HR Hs ltac:(lia)) as Hrun.
    apply runs_some in Hrun as (r & w' & ev & -> & _). by eexists.
Qed.

(** From NULL, [TreeNextElementIndex] goes through the nodes of the items, in
    order, each once, and back to NULL; it writes nothing. *)
Theorem TreeNextElement_in_order ms w i m : represents ms w → ms !! i = Some m →
  ∃ l, Forall2 (λ a y, ∃ n, nodes w !! a = Some n ∧ (content n, nsize n) = y) l m ∧ NoDup l ∧
    runs (TreeNextElementIndex None i) w (λ r w' _, w' = w ∧ r = head l) ∧
    ∀ j a, l !! j = Some a → runs (TreeNextElementIndex (Some a) i) w (λ r w' _, w' = w ∧ r = l !! S j).
Proof.
  intros (Ts & Hsh & -> & _) Hm. rewrite list_lookup_fmap in Hm. destruct (Ts !! i) as [T|] eqn:HT; [|done]. injection Hm as <-.
  destruct (proj1 (proj2 Hsh) i T HT) as (HR & _). exists (places T). split; [by eapply places_items, HR|]. split; [rewrite places_addrs; apply HR|].
  by apply TreeNextElementIndex_order.
Qed.


(** The other branches of [TreeAddByIndex]: without memory for a node, or when a
    content of the same rank is found and the tree does not replace it, NULL and no
    change; when it is replaced the order is kept (the balance may be lost). *)
Theorem TreeAddByIndex_branches ms w i m room x sz : represents ms w → ms !! i = Some m →
  runs (TreeAddByIndex compare room x sz i) w (λ r w' _, match find_item (ranks i) (ranks i x) m with
    | None => if room then r = Some x else r = None ∧ w' = w
    | Some y => if allow_duplicates w then r = None ∧ w' = w
                else r = Some x ∧ count w' = count w ∧ ∃ T', Rep i T' w' ∧ inorder T' = add_item (ranks i) (x, sz) m
    end).
Proof using Hcmp.
  intros (Ts & Hsh & -> & _) Hm. rewrite list_lookup_fmap in Hm. destruct (Ts !! i) as [T|] eqn:HT; [|done]. injection Hm as <-.
  destruct (proj1 (proj2 Hsh) i T HT) as (HR & Hb & Hs & Hx). destruct (find_item (ranks i) (ranks i x) (inorder T)) as [y|] eqn:Hf.
  - destruct (allow_duplicates w) eqn:Hd.
    + eapply runs_mono; [apply (add_refused compare i (ranks i) T); [done..|]|by intros r w' ev [-> ->]]. by rewrite Hf.
    + eapply runs_mono; [by apply (add_existing compare i (ranks i) T w room x sz y)|]. intros r w' ev (-> & T' & [HR' _] & Hin & Hc & _).
      split; [done|]. split; [done|]. by exists T'.
  - destruct room.
    + eapply runs_mono; [by apply (add_new compare i (ranks i) T)|]. by intros r w' ev [-> _].
    + eapply runs_mono; [apply (add_refused compare i (ranks i) T); [done..|]|by intros r w' ev [-> ->]]. by rewrite Hf.
Qed.
End Spec.

Lemma sorted_ext rank rank' (m : list item) : (∀ x, x ∈ m → rank x.1 = rank' x.1) → sorted rank m → sorted rank' m.
Proof.
  intros H Hs. induction Hs as [|x m Hm IH Hx]; [constructor|]. constructor; [apply IH; intros y Hy; apply H; by right|].
  rewrite Forall_forall in Hx |- *. intros y Hy. rewrite <-(H x), <-(H y) by (by left || by right). by apply Hx.
Qed.
(** Only the ranks of the contents matter. *)
Lemma represents_ext ranks ranks' ms w : (∀ i m x, ms !! i = Some m → x ∈ m → ranks i x.1 = ranks' i x.1) → represents ranks ms w → represents ranks' ms w.
Proof.
  intros H (Ts & (Hl & HTs & Hd) & -> & Hm). exists Ts. split; [|by split]. split; [done|]. split; [|done].
  intros i T HT. destruct (HTs i T HT) as (HR & Hb & Hs & Hx). split_and!; try done. eapply sorted_ext; [|exact Hs]. intros x. apply (H i). by rewrite list_lookup_fmap, HT.
Qed.

(** ** Trees on concrete heaps *)

(** Contents compared by their addresses. *)
Definition ptr_compare (_ : nat) (a b : Z) (value : bool) : Z := TreePtrCompare a b value.
Definition by_address (_ : nat) (c : Z) : Z := c.
Lemma ptr_compares i key value : compares ptr_compare i (by_address i) key value key.
Proof. intros c. unfold ptr_compare, TreePtrCompare, by_address. destruct (Z.ltb_spec key c), (Z.eqb_spec c key); lia. Qed.

Lemma rep_unique h p T T' : rep h p T → rep h p T' → root_of T = root_of T' → T = T'.
Proof.
  revert p T'. induction T as [|a x c l IHl r IHr]; intros p [|a' x' c' l' r'] H H' Hroot; try done. injection Hroot as <-.
  destruct H as (Ha & Hl & Hr), H' as (Ha' & Hl' & Hr'). rewrite Ha in Ha'. destruct x as [x1 x2], x' as [y1 y2]. cbn in Ha'. injection Ha' as Hll Hrr <- <- <-.
  f_equal; [by apply (IHl (Some a))|by apply (IHr (Some a))].
Qed.
(** The number of black nodes of every way down. *)
Fixpoint blacks (t : tree) : option nat :=
  match t with
  | Leaf => Some O
  | Bin _ _ c l r =>
      match blacks l, blacks r with
      | Some n, Some m => if decide (n = m) then if c then (if is_red l || is_red r then None else Some n) else Some (S n) else None
      | _, _ => None
      end
  end.
Lemma rb_blacks n t : rb n t ↔ blacks t = Some n.
Proof.
  revert n. induction t as [|a x c l IHl r IHr]; intros n; cbn; [split; [by intros ->|by intros [= ->]]|]. destruct c.
  - rewrite IHl, IHr. destruct (blacks l) as [nl|], (blacks r) as [nr|]; cbn; try (split; [by intros (? & ? & ? & ?)|done]).
    case_decide as Hd; [subst nr|split; [intros (? & ? & [= ->] & [= ->])|]; done]. destruct (is_red l), (is_red r); cbn; (split; [by intros (? & ? & ? & ?)|intros H; try done; by split_and!]).
  - destruct n as [|n].
    + split; [done|]. destruct (blacks l), (blacks r); [case_decide|..]; done.
    + rewrite IHl, IHr. destruct (blacks l) as [nl|], (blacks r) as [nr|]; cbn; try (split; [by intros (? & ?)|done]).
      case_decide as Hd; [subst nr|split; [intros ([= ->] & [= ->])|]; done]. split; [by intros ([= ->] & _)|by intros [= ->]].
Qed.
Lemma balanced_blacks T : balanced T ↔ is_red T = false ∧ is_Some (blacks T).
Proof. unfold balanced. split; intros [H [n Hn]]; (split; [done|]); exists n; by apply rb_blacks. Qed.

(** One index. *)
Lemma represents_tree ranks T w : roots w = [root_of T] → Rep 0 T w → balanced T → sorted (ranks 0%nat) (inorder T) → Forall (λ x, x.1 ≠ 0) (inorder T) →
  count w = len (inorder T) → size w = u64 (total (inorder T)) → represents ranks [inorder T] w.
Proof.
  intros Hroots HR Hb Hs Hx Hc Hsz. exists [T]. split; [split; [by rewrite Hroots|split]|].
  - intros i U HU. apply list_lookup_singleton_Some in HU as [-> <-]. done.
  - intros i j U V a HU HV _ _. apply list_lookup_singleton_Some in HU as [-> _], HV as [-> _]. done.
  - split; [done|]. by exists (inorder T).
Qed.
Lemma represents_init : represents by_address [[]] TreeInitializeNoMalloc.
Proof. apply (represents_tree by_address Leaf); try done; [repeat split; by constructor|split; [done|by exists O]|constructor]. Qed.

(** Three nodes, the inner one first. *)
Definition three : Tree :=
  mkTree (<[1%positive := mkNode None (Some 2%positive) (Some 3%positive) 5 4 false]>
    (<[2%positive := mkNode (Some 1%positive) None None 3 1 true]> {[ 3%positive := mkNode (Some 1%positive) None None 8 2 true ]})) [Some 1%positive] 3 7 false.
Lemma represents_three : represents by_address [[(3, 1); (5, 4); (8, 2)]] three.
Proof.
  apply (represents_tree by_address (Bin 1 (5, 4) false (Bin 2 (3, 1) true Leaf Leaf) (Bin 3 (8, 2) true Leaf Leaf))); try done.
  - split; [vm_compute; by repeat split|]. split; [done|]. by apply (bool_decide_unpack _).
  - apply balanced_blacks. split; [done|]. by eexists.
  - vm_compute. by repeat constructor.
  - cbn. by repeat constructor.
Qed.
Lemma TreeAdd_inserts_witness :
  runs (TreeAdd ptr_compare (λ _, true) 4 7) three (λ r w' _, r = Some 4 ∧ represents by_address [[(3, 1); (4, 7); (5, 4); (8, 2)]] w').
Proof.
  apply (TreeAdd_inserts ptr_compare by_address (λ i x, ptr_compares i x true) _ three 4 7 represents_three); [done|].
  intros i m Hm. apply list_lookup_singleton_Some in Hm as [-> <-]. reflexivity.
Defined.
Lemma TreeRemove_removes_witness :
  runs (TreeRemove ptr_compare 5) three (λ r w' _, r = Some 5 ∧ represents by_address [[(3, 1); (8, 2)]] w').
Proof. apply (TreeRemove_removes ptr_compare by_address (λ i x, ptr_compares i x true) _ three 5 represents_three). Defined.
Lemma TreeFind_finds_witness :
  runs (TreeFindIndex1 ptr_compare 8 0 false) three (λ r w' _, w' = three ∧ ∃ a n, r = Some a ∧ nodes three !! a = Some n ∧ (content n, nsize n) = (8, 2)) ∧
  ((4 < 5)%nat → ∀ root, roots three !! 0%nat = Some root → is_Some (iterate 5 (search_turn ptr_compare 0 8 false) (root, (None, false)) three)).
Proof. apply (TreeFind_finds ptr_compare by_address _ three 0 _ 8 false 8 5 represents_three eq_refl (ptr_compares 0 8 false)). Defined.
Lemma TreeNextElement_in_order_witness : ∃ l, Forall2 (λ a y, ∃ n, nodes three !! a = Some n ∧ (content n, nsize n) = y) l [(3, 1); (5, 4); (8, 2)] ∧ NoDup l ∧
  runs (TreeNextElementIndex None 0) three (λ r w' _, w' = three ∧ r = head l) ∧
  ∀ j a, l !! j = Some a → runs (TreeNextElementIndex (Some a) 0) three (λ r w' _, w' = three ∧ r = l !! S j).
Proof. apply (TreeNextElement_in_order by_address _ three 0 _ represents_three eq_refl). Defined.
Lemma TreeAddByIndex_branches_witness : runs (TreeAddByIndex ptr_compare true 5 9 0) three (λ r w' _, r = Some 5 ∧ count w' = 3 ∧
  ∃ T', Rep 0 T' w' ∧ inorder T' = [(3, 1); (5, 9); (8, 2)]).
Proof. apply (TreeAddByIndex_branches ptr_compare by_address (λ i x, ptr_compares i x true) _ three 0 _ true 5 9 represents_three eq_refl). Defined.
(** Eight additions and a removal. *)
Fixpoint additions (l : list Z) : io () :=
  match l with [] => mret () | x :: l' => _ ← TreeAdd ptr_compare (λ _, true) x 1; additions l' end.
Definition script : io () := additions [1; 2; 3; 4; 5; 6; 7; 8];; _ ← TreeRemove ptr_compare 1; mret ().

(** [TreeBalanceAfterAdd] is also run on the node whose content is replaced.  After
    these calls the tree is balanced, and it is not after [TreeAdd] of a content that
    it has. *)
Theorem TreeAdd_again_unbalances : ∃ w w', script TreeInitializeNoMalloc = Some ((), w, []) ∧ represents by_address [(λ x, (x, 1)) <$> [2; 3; 4; 5; 6; 7; 8]] w ∧
  TreeAdd ptr_compare (λ _, true) 5 1 w = Some (Some 5, w', []) ∧ ∀ ms, ¬ represents by_address ms w'.
Proof.
  eexists _, _. split; [vm_compute; reflexivity|]. split; [|split; [vm_compute; reflexivity|]].
  - set (B := λ a c l r, Bin a (Zpos a, 1) c l r).
    apply (represents_tree by_address (B 4%positive false (B 2%positive false Leaf (B 3%positive true Leaf Leaf)) (B 6%positive true (B 5%positive false Leaf Leaf)
      (B 7%positive false Leaf (B 8%positive true Leaf Leaf))))); try (vm_compute; reflexivity).
    + split; [vm_compute; by repeat split|]. split; [vm_compute; reflexivity|]. by apply (bool_decide_unpack _).
    + apply balanced_blacks. split; [done|]. by eexists.
    + vm_compute. by repeat constructor.
    + cbn. by repeat constructor.
  - intros ms (Ts & (Hl & HTs & _) & _). destruct Ts as [|T [|]]; [done| |done]. destruct (HTs 0%nat T eq_refl) as ((HR & Hroot & _) & Hb & _).
    set (B := λ a c l r, Bin a (Zpos a, 1) c l r).
    set (T1 := B 5%positive false (B 4%positive true (B 2%positive false Leaf (B 3%positive true Leaf Leaf)) Leaf) (B 6%positive true Leaf (B 7%positive false Leaf (B 8%positive true Leaf Leaf)))).
    assert (T = T1) as ->.
    { apply (rep_unique _ _ _ T1 HR); [vm_compute; by repeat split|]. injection Hroot as Hroot. by rewrite <-Hroot. }
    apply balanced_blacks in Hb as [_ [n Hn]]. done.
Qed.
End TreesSpec.
