(* ===== verification/Heap.v ===== *)
(** * The heap that is tracked (paho.mqtt.c/src/Heap.c, Heap.h)

    The records of the blocks that are allocated, by their addresses, and the tree
    that orders them by the address of their block.  The answers of [malloc] and
    [realloc] are arguments, 0 is NULL; of the bytes of a block only the two words
    around those of the caller are kept. *)
From S2P Require Import Prelude Trees.

Module Heap.
Import Trees.

(** ** Data *)

(** [el_file_at] is the address of the copy of the name. *)
Record storageElement := mkElement { el_file : list Z; el_file_at : Z; el_line : Z; el_ptr : Z; el_size : Z }.
(** The storage elements by address, [state], and the words of type [double]. *)
Record world := mkWorld { elements : gmap Z storageElement; heap : Tree; current_size : Z; max_size : Z; words : gmap Z Z }.
Inductive event := Locked | Unlocked | Logged (error : bool) | Freed (a : Z) | Moved (a b : Z) | Wrote (n : Z).

Definition io : Type → Type := emitting world event.
Definition the_world : io world := λ w, Some (w, w, []).
Definition set_elements (e : gmap Z storageElement) : io () := λ w, Some ((), mkWorld e (heap w) (current_size w) (max_size w) (words w), []).
Definition set_sizes (c m : Z) : io () := λ w, Some ((), mkWorld (elements w) (heap w) c m (words w), []).
Definition set_words (h : gmap Z Z) : io () := λ w, Some ((), mkWorld (elements w) (heap w) (current_size w) (max_size w) h, []).
(** A function of [Tree.c] on [heap]. *)
Definition on_tree {A} (f : Trees.io A) : io A := λ w,
  match f (heap w) with
  | Some (r, t, _) => Some (r, mkWorld (elements w) t (current_size w) (max_size w) (words w), [])
  | None => None
  end.

Definition eyecatcher : Z := 0x8888888888888800.
Definition sizeof_eyecatcher : Z := 8.
Definition sizeof_element : Z := 32.

Definition Heap_roundup (size : Z) : Z :=
  let multsize := 4 * 4 in if size mod multsize =? 0 then size else u64 (size + (multsize - size mod multsize)).

(** The block of a storage element; only those that are there are compared. *)
Definition ptr_of (e : gmap Z storageElement) (c : Z) : Z := default 0 (el_ptr <$> e !! c).
Definition ptrCompare (e : gmap Z storageElement) (_ : nat) (a b : Z) (value : bool) : Z :=
  let a := ptr_of e a in let b := if value then ptr_of e b else b in if b <? a then -1 else if a =? b then 0 else 1.

(** The word before the bytes at [p], and the one after them. *)
Definition eyecatchers (p size : Z) (h : gmap Z Z) : gmap Z Z := <[p + size := eyecatcher]> (<[p - sizeof_eyecatcher := eyecatcher]> h).
Definition checkEyecatchers (p size : Z) : io () :=
  w ← the_world;
  let word a := default 0 (words w !! a) in
  (if word (p - sizeof_eyecatcher) =? eyecatcher then mret () else emits [Logged true]);;
  (if word (p + size) =? eyecatcher then mret () else emits [Logged true]).

Definition add_size (n : Z) : io () :=
  w ← the_world; let c := u64 (current_size w + n) in set_sizes c (if max_size w <? c then c else max_size w).
(** [TreeAdd]; there is memory for the node, or not. *)
Definition track (room : bool) (s space : Z) : io () :=
  w ← the_world; _ ← on_tree (TreeAdd (ptrCompare (elements w)) (λ _, room) s space); mret ().

(** ** Allocating *)

(** The answers of [malloc] for the element, for the name, for the block, and for
    the node of the tree. *)
Record answers := mkAnswers { for_element : Z; for_file : Z; for_block : Z; for_node : bool }.

Definition mymalloc (al : answers) (file : list Z) (line size : Z) : io Z :=
  let filenamelen := len file + 1 in
  emits [Locked];;
  let size := Heap_roundup size in
  rc ← (if for_element al =? 0 then emits [Logged true];; mret 0
        else if for_file al =? 0 then emits [Logged true; Freed (for_element al)];; mret 0
        else if for_block al =? 0 then emits [Logged true; Freed (for_file al); Freed (for_element al)];; mret 0
        else
          let p := for_block al in
          w ← the_world;
          set_elements (<[for_element al := mkElement file (for_file al) line p size]> (elements w));;
          set_words (eyecatchers (p + sizeof_eyecatcher) size (words w));;
          emits [Logged false];;
          track (for_node al) (for_element al) (u64 (sizeof_element + filenamelen + (size + 2 * sizeof_eyecatcher)));;
          add_size size;;
          mret (p + sizeof_eyecatcher));
  emits [Unlocked];;
  mret rc.

(** ** Freeing *)

Definition find (p : Z) : io (option positive) := w ← the_world; on_tree (TreeFind (ptrCompare (elements w)) (p - sizeof_eyecatcher)).
Definition node_of (a : positive) : io Node := on_tree (get a).

Definition Internal_heap_unlink (p : Z) : io bool :=
  e ← find p;
  match e with
  | None => emits [Logged true];; mret false
  | Some a =>
      n ← node_of a;
      w ← the_world;
      s ← lift (elements w !! content n);
      emits [Logged false];;
      checkEyecatchers p (el_size s);;
      emits [Freed (el_file_at s)];;
      set_sizes (u64 (current_size w - el_size s)) (max_size w);;
      _ ← on_tree (TreeRemoveNodeIndex a 0);
      emits [Freed (content n)];;
      set_elements (delete (content n) (elements w));;
      mret true
  end.
Definition myfree (p : Z) : io () :=
  if p =? 0 then emits [Logged true]
  else
    emits [Locked];;
    b ← Internal_heap_unlink p;
    (if (b : bool) then emits [Freed (p - sizeof_eyecatcher)] else mret ());;
    emits [Unlocked].
Definition Heap_unlink (p : Z) : io () :=
  emits [Locked];; _ ← Internal_heap_unlink p; emits [Unlocked].

(** ** Reallocating *)

(** [block] and [name] are the answers of [realloc]; the name is written without a
    test. *)
Definition reallocated (block name : Z) (room : bool) (file : list Z) (line p size c : Z) : io Z :=
  w ← the_world;
  s ← lift (elements w !! c);
  checkEyecatchers p (el_size s);;
  let size := Heap_roundup size in
  add_size (size - el_size s);;
  set_elements (<[c := mkElement (el_file s) (el_file_at s) (el_line s) block (el_size s)]> (elements w));;
  if block =? 0 then emits [Logged true];; mret 0
  else
    emits [Moved (el_ptr s) block];;
    w ← the_world;
    set_words (eyecatchers (block + sizeof_eyecatcher) size (words w));;
    (if name =? 0 then lift None else emits [Moved (el_file_at s) name]);;
    set_elements (<[c := mkElement file name line block size]> (elements w));;
    track room c (u64 (sizeof_element + (size + 2 * sizeof_eyecatcher - el_size s) - len (el_file s) + (len file + 1)));;
    mret block.
Definition myrealloc (block name : Z) (room : bool) (file : list Z) (line p size : Z) : io Z :=
  emits [Locked];;
  w ← the_world;
  o ← on_tree (TreeRemoveKey (ptrCompare (elements w)) (p - sizeof_eyecatcher));
  rc ← (match o with None => emits [Logged true];; mret 0 | Some c => reallocated block name room file line p size c end);
  emits [Unlocked];;
  mret (if rc =? 0 then 0 else rc + sizeof_eyecatcher).

(** ** Reading *)

Definition Heap_findItem (p : Z) : io (option Z) :=
  emits [Locked];;
  e ← find p;
  emits [Unlocked];;
  match e with None => mret None | Some a => n ← node_of a; mret (Some (content n)) end.

(** [body] for each node, until it says no. *)
Definition scan (body : Node → storageElement → io bool) : io bool :=
  w ← the_world;
  iterate (Datatypes.S (base.size (nodes (heap w)))) (λ cur,
    next ← on_tree (TreeNextElement cur);
    match next with
    | None => mret (inr true)
    | Some a => n ← node_of a; s ← lift (elements w !! content n); b ← body n s; mret (if (b : bool) then inl (Some a) else inr false)
    end) None.
Definition HeapScan : io () :=
  emits [Locked; Logged false];;
  _ ← scan (λ _ _, emits [Logged false; Logged false];; mret true);
  emits [Logged false; Unlocked].
Definition Heap_initialize : world := mkWorld ∅ TreeInitializeNoMalloc 0 0 ∅.
Definition Heap_terminate : io () :=
  emits [Logged false];;
  w ← the_world;
  if 20 <? current_size w then emits [Logged true];; HeapScan else mret ().

(** [written] is what each of the three calls of [fwrite] for an element answers; the
    third one reads the size of the node from the block. *)
Definition HeapDump (written : Z → Z → bool) : io Z :=
  b ← scan (λ n s,
    if written (content n) 0 && written (content n) 1 then
      if el_size s + 2 * sizeof_eyecatcher <? nsize n then lift None
      else emits [Wrote (nsize n)];; mret (written (content n) 2)
    else mret false);
  mret (if (b : bool) then 0 else -1).
End Heap.
