(* ===== verification/HeapSpec.v ===== *)
(** * The heap that is tracked: what it stands for (paho.mqtt.c/src/Heap.c)

    The state stands for the blocks in use with their sizes; allocating, freeing and
    reallocating are those of that map. *)
From stdpp Require Import fin_maps.
From S2P Require Import Prelude Trees TreesShape TreesBalance TreesIndex TreesSpec Heap.

Module HeapSpec.
Import Trees TreesShape TreesIndex TreesSpec Heap.

(** ** The blocks in use *)

Definition ranks (e : gmap Z storageElement) (_ : nat) (c : Z) : Z := ptr_of e c.
Lemma ptrCompare_value e i x : compares (ptrCompare e) i (ranks e i) x true (ranks e i x).
Proof. intros c. unfold ptrCompare, ranks. destruct (Z.ltb_spec (ptr_of e x) (ptr_of e c)), (Z.eqb_spec (ptr_of e c) (ptr_of e x)); lia. Qed.
Lemma ptrCompare_key e i key : compares (ptrCompare e) i (ranks e i) key false key.
Proof. intros c. unfold ptrCompare, ranks. destruct (Z.ltb_spec key (ptr_of e c)), (Z.eqb_spec (ptr_of e c) key); lia. Qed.

Definition sum_sizes (bs : gmap Z Z) : Z := map_fold (λ _ n s, n + s) 0 bs.
Lemma sum_insert bs p n : bs !! p = None → sum_sizes (<[p := n]> bs) = n + sum_sizes bs.
Proof. intros Hp. unfold sum_sizes. apply (map_fold_insert_L (λ _ n s, n + s)); [lia|done]. Qed.
Lemma sum_delete bs p n : bs !! p = Some n → sum_sizes bs = n + sum_sizes (delete p bs).
Proof. intros Hp. rewrite <-(insert_delete_id bs p n) at 1 by done. apply sum_insert, lookup_delete_eq. Qed.

(** Each storage element has a node and a block of its own. *)
Definition blocks_by (m : list item) (bs : gmap Z Z) (e : gmap Z storageElement) (t : Tree) : Prop :=
  represents (ranks e) [m] t ∧ (∀ c, is_Some (e !! c) ↔ c ∈ m.*1) ∧
  (∀ p n, bs !! p = Some n ↔ ∃ c s, e !! c = Some s ∧ el_ptr s = p ∧ el_size s = n).
Definition tracked_by (m : list item) (bs : gmap Z Z) (w : world) : Prop :=
  blocks_by m bs (elements w) (heap w) ∧ current_size w = u64 (sum_sizes bs).
Definition tracked (bs : gmap Z Z) (w : world) : Prop := ∃ m, tracked_by m bs w.

Lemma tracked_init : tracked ∅ Heap_initialize.
Proof.
  exists []. split; [|done]. split; [|split].
  - eapply represents_ext; [|exact represents_init]. intros i m x Hm Hx. apply list_lookup_singleton_Some in Hm as [_ <-]. by apply not_elem_of_nil in Hx.
  - intros c. split; [by intros [? ?]|]. intros H. by apply not_elem_of_nil in H.
  - intros p n. split; [done|]. by intros (? & ? & ? & _).
Qed.
Lemma ranks_some e i c s : e !! c = Some s → ranks e i c = el_ptr s.
Proof. unfold ranks, ptr_of. by intros ->. Qed.

Definition freed (ev : list event) : list Z := omap (λ x, match x with Freed a => Some a | _ => None end) ev.

Lemma runs_tree {A} (f : Trees.io A) w (Q : A → world → list event → Prop) :
  runs f (heap w) (λ r t _, Q r (mkWorld (elements w) t (current_size w) (max_size w) (words w)) []) → runs (on_tree f) w Q.
Proof. unfold runs, on_tree. by destruct (f (heap w)) as [[[r t] ev]|]. Qed.

(** A new element: no content of the tree has its address. *)
Lemma track_new c s bs m w0 e1 t : blocks_by m bs w0 t → w0 !! c = None → bs !! el_ptr s = None → e1 = <[c := s]> w0 →
  represents (ranks e1) [m] t ∧ find_item (ranks e1 0) (ranks e1 0 c) m = None.
Proof.
  intros (Hrep & Hel & Hbs) Hnone Hp He.
  assert (Hm : ∀ x, x ∈ m → ∃ s', w0 !! x.1 = Some s' ∧ e1 !! x.1 = Some s').
  { intros x Hx. destruct (proj2 (Hel x.1)) as [s' Hs']; [by apply list_elem_of_fmap_2|]. exists s'. split; [done|].
    rewrite He, lookup_insert_ne; [done|congruence]. }
  split.
  - eapply represents_ext; [|exact Hrep]. intros i m' x Hm' Hx. apply list_lookup_singleton_Some in Hm' as [_ <-].
    destruct (Hm x Hx) as (s' & Hs0 & Hs1). by rewrite !(ranks_some _ _ _ s').
  - apply find_item_none, Forall_forall. intros x Hx. destruct (Hm x Hx) as (s' & Hs0 & Hs1).
    rewrite (ranks_some e1 0 c s) by (by rewrite He, lookup_insert_eq). rewrite (ranks_some e1 0 _ s') by done.
    intros Heq. assert (bs !! el_ptr s = Some (el_size s')) as Hb by (apply Hbs; by exists x.1, s'). congruence.
Qed.
Lemma track_fails c s sz bs m w0 w1 : blocks_by m bs w0 (heap w1) → w0 !! c = None → bs !! el_ptr s = None → elements w1 = <[c := s]> w0 →
  runs (track false c sz) w1 (λ _ w2 ev, ev = [] ∧ w2 = w1).
Proof.
  intros Hm Hnone Hp He. destruct (track_new c s bs m w0 (elements w1) (heap w1)) as [Hrep Hnew]; [done..|].
  unfold track. apply runs_bind. unfold runs at 1, the_world. apply runs_bind, runs_tree.
  eapply runs_mono; [by apply (one_refused (ptrCompare (elements w1)) (ranks (elements w1)) (ptrCompare_value (elements w1)) m)|].
  intros r t ev ->. apply runs_ret. split; [done|]. by destruct w1.
Qed.
Lemma track_runs c s sz bs m w0 w1 : blocks_by m bs w0 (heap w1) → c ≠ 0 → w0 !! c = None → bs !! el_ptr s = None → elements w1 = <[c := s]> w0 →
  runs (track true c sz) w1 (λ _ w2 ev, ev = [] ∧ current_size w2 = current_size w1 ∧ words w2 = words w1 ∧ elements w2 = elements w1 ∧
    blocks_by (add_item (ranks (elements w1) 0) (c, sz) m) (<[el_ptr s := el_size s]> bs) (elements w2) (heap w2)).
Proof.
  intros Hblocks Hc Hnone Hp He. destruct (track_new c s bs m w0 (elements w1) (heap w1)) as [Hrep1 Hnew]; [done..|].
  destruct Hblocks as (Hrep & Hel & Hbs).
  unfold track. apply runs_bind. unfold runs at 1, the_world. apply runs_bind, runs_tree.
  eapply runs_mono; [apply (one_added (ptrCompare (elements w1)) (ranks (elements w1)) (ptrCompare_value (elements w1)) m); done|].
  intros r t ev [_ Ht]. apply runs_ret. split_and!; try done. split; [exact Ht|].
  assert (Hperm : add_item (ranks (elements w1) 0) (c, sz) m ≡ₚ (c, sz) :: m).
  { destruct (one_tree _ m _ Hrep1) as (T & _ & (_ & _ & Hs & _) & -> & _). by apply add_item_new. }
  cbn [elements]. rewrite He. rewrite He in Hperm. split.
  - intros b. rewrite Hperm. cbn. rewrite elem_of_cons, <-Hel. rewrite lookup_insert_is_Some. destruct (decide (c = b)); naive_solver.
  - intros p n. rewrite lookup_insert_Some. split.
    + intros [[<- <-]|[Hne Hb]]; [by exists c, s; rewrite lookup_insert_eq|]. apply Hbs in Hb as (b & s' & Hb & <- & <-). exists b, s'.
      rewrite lookup_insert_ne; [done|]. intros ->. congruence.
    + intros (b & s' & Hb & <- & <-). apply lookup_insert_Some in Hb as [[<- <-]|[Hne Hb]]; [by left|]. right.
      assert (Hb' : bs !! el_ptr s' = Some (el_size s')) by (apply Hbs; by exists b, s'). split; [congruence|done].
Qed.

(** The size is rounded up to a multiple of 16, in 64 bits. *)
Lemma Heap_roundup_spec size : 0 ≤ size ≤ 2 ^ 64 - 16 → Heap_roundup size mod 16 = 0 ∧ size ≤ Heap_roundup size < size + 16.
Proof.
  intros Hs. unfold Heap_roundup. change (4 * 4) with 16. pose proof (Z.mod_pos_bound size 16 ltac:(lia)). pose proof (Z.div_mod size 16 ltac:(lia)).
  destruct (Z.eqb_spec (size mod 16) 0) as [Hz|Hz]; [lia|]. unfold u64.
  assert (size + (16 - size mod 16) = 16 * (size / 16 + 1)) as -> by lia. rewrite (Z.mod_small _ (2 ^ 64)) by lia. split; [by rewrite Z.mul_comm, Z.mod_mul|lia].
Qed.
(** ** Allocating *)

Definition locks (ev : list event) : list bool := omap (λ x, match x with Locked => Some true | Unlocked => Some false | _ => None end) ev.
Lemma freed_app l1 l2 : freed (l1 ++ l2) = freed l1 ++ freed l2.
Proof. apply omap_app. Qed.
Lemma locks_app l1 l2 : locks (l1 ++ l2) = locks l1 ++ locks l2.
Proof. apply omap_app. Qed.

Definition obtains (al : answers) : bool := negb (for_element al =? 0) && negb (for_file al =? 0) && negb (for_block al =? 0).
(** What was allocated before the answer NULL, the last one first. *)
Definition obtained (al : answers) : list Z :=
  if for_element al =? 0 then [] else if for_file al =? 0 then [for_element al] else [for_file al; for_element al].

Lemma u64_sum bs p n c x : bs !! p = None → c = u64 (sum_sizes bs + x) → u64 (c + (n - x)) = u64 (sum_sizes (<[p := n]> bs)).
Proof. intros Hp ->. rewrite sum_insert by done. unfold u64. rewrite Z.add_mod_idemp_l by done. f_equal. lia. Qed.
(** The block that is given out, tracked or not. *)
Definition given (al : answers) (file : list Z) (line size : Z) (bs : gmap Z Z) (w w' : world) : Prop :=
  (if for_node al then tracked (<[for_block al := Heap_roundup size]> bs) w'
   else heap w' = heap w ∧ current_size w' = u64 (current_size w + Heap_roundup size)) ∧
  elements w' = <[for_element al := mkElement file (for_file al) line (for_block al) (Heap_roundup size)]> (elements w) ∧
  words w' = eyecatchers (for_block al + 8) (Heap_roundup size) (words w).
Lemma mymalloc_runs al file line size bs w : tracked bs w → obtains al = true → elements w !! for_element al = None → bs !! for_block al = None →
  runs (mymalloc al file line size) w (λ r w' ev, r = for_block al + 8 ∧ ev = [Locked; Logged false; Unlocked] ∧ given al file line size bs w w').
Proof.
  intros [m Hm] Hok Hnone Hp. apply andb_true_iff in Hok as [Hok Hb0]. apply andb_true_iff in Hok as [He0 Hf0].
  apply negb_true_iff in He0, Hf0, Hb0. unfold mymalloc. rewrite He0, Hf0, Hb0.
  set (s := mkElement file (for_file al) line (for_block al) (Heap_roundup size)).
  apply runs_bind, runs_emits. apply runs_bind, runs_bind. unfold runs at 1, the_world. apply runs_bind. unfold runs at 1, set_elements.
  apply runs_bind. unfold runs at 1, set_words. apply runs_bind, runs_emits. apply runs_bind.
  apply Z.eqb_neq in He0. destruct Hm as [Hm Hsz]. unfold given. destruct (for_node al).
  - eapply runs_mono; [by apply (track_runs (for_element al) s _ bs m (elements w))|]. cbn [elements heap current_size max_size words].
    intros [] w2 ev2 (-> & Hc2 & Hw2 & He2 & Hblocks). unfold add_size. apply runs_bind, runs_bind. unfold runs at 1, the_world. unfold runs at 1, set_sizes.
    apply runs_ret. apply runs_bind, runs_emits, runs_ret. split; [done|]. split; [done|]. split; [|by rewrite He2, Hw2].
    eexists. split; [exact Hblocks|]. cbn [current_size]. rewrite Hc2.
    pose proof (u64_sum bs (for_block al) (Heap_roundup size) (current_size w) 0 Hp) as Hu. rewrite Z.sub_0_r, Z.add_0_r in Hu. by apply Hu.
  - eapply runs_mono; [by apply (track_fails (for_element al) s _ bs m (elements w))|]. intros [] w2 ev2 [-> ->].
    unfold add_size. apply runs_bind, runs_bind. unfold runs at 1, the_world. unfold runs at 1, set_sizes.
    apply runs_ret. apply runs_bind, runs_emits, runs_ret. done.
Qed.

(** C31: What [mymalloc] does for each answer of the system, for a size of at most
    2^64 - 16 and addresses that are not in use.  When the storage element, the
    name or the block cannot be had it gives NULL, frees what it had allocated and
    changes nothing; else it gives the word after the first one of the block,
    between two eyecatchers, whose size is rounded up to a multiple of 16, and the
    block is now in use.  But when there is no memory for the node of the tree the
    block is given out and counted all the same, and the tree stays as it was: the
    block is not in the map.  The mutex is released. *)
Theorem mymalloc_outcome al file line size bs w : tracked bs w → elements w !! for_element al = None → bs !! for_block al = None →
  0 ≤ size ≤ 2 ^ 64 - 16 →
  runs (mymalloc al file line size) w (λ r w' ev, locks ev = [true; false] ∧
    if obtains al then r = for_block al + 8 ∧ freed ev = [] ∧ ∃ n, n mod 16 = 0 ∧ size ≤ n < size + 16 ∧
      words w' = eyecatchers (for_block al + 8) n (words w) ∧
      if for_node al then tracked (<[for_block al := n]> bs) w' else heap w' = heap w ∧ current_size w' = u64 (current_size w + n)
    else r = 0 ∧ w' = w ∧ freed ev = obtained al).
Proof.
  intros Hw Hnone Hp Hsize. destruct (obtains al) eqn:Hok.
  - eapply runs_mono; [by apply (mymalloc_runs al file line size bs w)|]. intros r w' ev (-> & -> & Ht & _ & Hwords). destruct (Heap_roundup_spec size Hsize).
    split; [done|]. split; [done|]. split; [done|]. by exists (Heap_roundup size).
  - unfold mymalloc, obtains, obtained in *. apply runs_bind, runs_emits, runs_bind.
    destruct (for_element al =? 0); [|destruct (for_file al =? 0); [|destruct (for_block al =? 0); [|done]]]; by apply runs_bind, runs_emits, runs_ret.
Qed.

(** ** Freeing *)

(** The item of a block. *)
Lemma block_item m bs w p : tracked_by m bs w → match bs !! p with
  | Some n => ∃ y s, find_item (ranks (elements w) 0) p m = Some y ∧ elements w !! y.1 = Some s ∧ el_ptr s = p ∧ el_size s = n ∧
      m ≡ₚ y :: remove_item (ranks (elements w) 0) p m ∧ y.1 ∉ (remove_item (ranks (elements w) 0) p m).*1
  | None => find_item (ranks (elements w) 0) p m = None
  end.
Proof.
  intros ((Hrep & Hel & Hbs) & Hsz). destruct (one_tree _ m _ Hrep) as (T & _ & (_ & _ & Hs & _) & Hm & _). rewrite <-Hm in Hs. clear Hm.
  destruct (find_item (ranks (elements w) 0) p m) as [y|] eqn:Hf.
  - pose proof (remove_item_some _ _ _ _ Hs Hf) as Hp. unfold find_item in Hf. apply fmap_Some in Hf as ([j y'] & Hf & ->). apply list_find_Some in Hf as (Hj & Hrank & _).
    cbn [snd fst] in *. destruct (proj2 (Hel y'.1)) as [s Hs']; [apply list_elem_of_fmap_2; by eapply list_elem_of_lookup_2|].
    rewrite (ranks_some _ _ _ _ Hs') in Hrank. assert (bs !! p = Some (el_size s)) as -> by (apply Hbs; by exists y'.1, s). exists y', s. split_and!; try done.
    intros Hin. apply list_elem_of_fmap in Hin as (x & Hx1 & Hx). apply list_elem_of_filter in Hx as [Hx _]. apply Hx. rewrite <-Hx1. by rewrite (ranks_some _ _ _ _ Hs').
  - destruct (bs !! p) as [n|] eqn:Hb; [|done]. exfalso. apply Hbs in Hb as (c & s & Hc & <- & _). apply find_item_none in Hf. rewrite Forall_forall in Hf.
    assert (Hin : c ∈ m.*1) by (by apply Hel; eexists). apply list_elem_of_fmap in Hin as (x & -> & Hx). apply (Hf x Hx). by apply ranks_some.
Qed.

Lemma blocks_delete m bs e t t2 y s : blocks_by m bs e t → e !! y.1 = Some s →
  let m' := remove_item (ranks e 0) (el_ptr s) m in m ≡ₚ y :: m' → y.1 ∉ m'.*1 → represents (ranks e) [m'] t2 →
  blocks_by m' (delete (el_ptr s) bs) (delete y.1 e) t2.
Proof.
  intros (Hrep & Hel & Hbs) Hs m' Hm Hy Hrep2. split; [|split].
  - eapply represents_ext; [|exact Hrep2]. intros i m2 x Hm2 Hx. apply list_lookup_singleton_Some in Hm2 as [_ <-]. unfold ranks, ptr_of.
    rewrite lookup_delete_ne; [done|]. intros Heq. apply Hy. rewrite Heq. by apply list_elem_of_fmap_2.
  - intros c. rewrite lookup_delete_is_Some, Hel, Hm. cbn. rewrite elem_of_cons. naive_solver.
  - intros p n. rewrite lookup_delete_Some, Hbs. split.
    + intros (Hne & c & s' & Hc' & <- & <-). exists c, s'. rewrite lookup_delete_ne; [done|]. intros <-. congruence.
    + intros (c & s' & Hc' & <- & <-). apply lookup_delete_Some in Hc' as [Hne Hc']. split; [|by exists c, s']. intros Heq.
      apply Hy. apply list_elem_of_fmap. assert (Hin : c ∈ m.*1) by (by apply Hel; eexists). rewrite Hm in Hin. cbn in Hin. apply elem_of_cons in Hin as [->|Hin]; [done|].
      apply list_elem_of_fmap in Hin as (x & -> & Hx). unfold m' in Hx. apply list_elem_of_filter in Hx as [Hx _]. exfalso. apply Hx. rewrite (ranks_some _ _ _ _ Hc'). done.
Qed.
Lemma u64_minus bs p n c : bs !! p = Some n → c = u64 (sum_sizes bs) → u64 (c - n) = u64 (sum_sizes (delete p bs)).
Proof. intros Hp ->. rewrite (sum_delete bs p n Hp). unfold u64. rewrite Zminus_mod_idemp_l. f_equal. lia. Qed.

Lemma check_runs p n w : runs (checkEyecatchers p n) w (λ _ w' ev, w' = w ∧ freed ev = [] ∧ locks ev = [] ∧
  (words w !! (p - 8) = Some eyecatcher → words w !! (p + n) = Some eyecatcher → ev = [])).
Proof.
  unfold checkEyecatchers. apply runs_bind. unfold runs at 1, the_world. apply runs_bind. unfold sizeof_eyecatcher.
  destruct (default 0 (words w !! (p - 8)) =? eyecatcher) eqn:H1; [apply runs_ret|apply runs_emits];
    (destruct (default 0 (words w !! (p + n)) =? eyecatcher) eqn:H2; [apply runs_ret|apply runs_emits]); (split_and!; try done);
    intros G1 G2; rewrite ?G1, ?G2 in *; done.
Qed.

(** The removal of the element of a block. *)
Lemma heap_unlink_runs m bs w p : tracked_by m bs w →
  runs (Internal_heap_unlink p) w (λ r w' ev, locks ev = [] ∧ match bs !! (p - 8) with
    | Some n => r = true ∧ tracked (delete (p - 8) bs) w' ∧ ∃ c s, elements w !! c = Some s ∧ el_ptr s = p - 8 ∧ el_size s = n ∧ freed ev = [el_file_at s; c] ∧
        (words w !! (p - 8) = Some eyecatcher → words w !! (p + n) = Some eyecatcher → Logged true ∉ ev)
    | None => r = false ∧ w' = w ∧ ev = [Logged true]
    end).
Proof.
  intros Hm. pose proof (block_item m bs w (p - 8) Hm) as Hitem. unfold Internal_heap_unlink. apply runs_bind. unfold find. apply runs_bind. unfold runs at 1, the_world.
  apply runs_tree. eapply runs_mono; [apply (one_found (ptrCompare (elements w)) (ranks (elements w)) m _ (p - 8) (p - 8)); [apply Hm|apply ptrCompare_key]|].
  intros r t ev0 [-> Hfound]. replace (mkWorld (elements w) (heap w) _ _ _) with w by (by destruct w).
  destruct (bs !! (p - 8)) as [n|] eqn:Hb; [|rewrite Hitem in Hfound; subst r; apply runs_bind, runs_emits, runs_ret; done].
  destruct Hitem as (y & s & Hf & Hy & Hp & Hn & Hperm & Hnot). rewrite Hf in Hfound. destruct Hfound as (a & nd & -> & Ha & Hnd & Hrun).
  apply runs_bind. apply runs_tree. unfold get, runs at 1, lift. rewrite Ha. replace (mkWorld (elements w) (heap w) _ _ _) with w by (by destruct w).
  apply runs_bind. unfold runs at 1, the_world. assert (Hc : content nd = y.1) by (by rewrite <-Hnd). rewrite Hc.
  apply runs_bind, (runs_lift _ s); [done|]. apply runs_bind, runs_emits, runs_bind. eapply runs_mono; [apply check_runs|]. intros [] w1 ev1 (-> & Hf1 & Hl1 & Herr).
  apply runs_bind, runs_emits, runs_bind. unfold runs at 1, set_sizes. apply runs_bind, runs_tree. cbn [elements heap current_size max_size words].
  eapply runs_mono; [exact Hrun|]. intros v t ev2 [-> Ht]. apply runs_bind, runs_emits, runs_bind. unfold runs at 1, set_elements. apply runs_ret.
  split; [by rewrite !locks_app, Hl1|]. split; [done|]. split.
  - eexists. rewrite <-Hp in *. split; [by eapply blocks_delete; [apply Hm|..]|]. cbn [current_size]. rewrite Hn. apply u64_minus; [done|apply Hm].
  - exists y.1, s. split_and!; try done; [by rewrite !freed_app, Hf1|]. intros H1 H2. rewrite Hn in Herr. rewrite (Herr H1 H2). cbn. set_solver.
Qed.

(** C30:[myfree] of the address of a block in use frees its element with the name and the
    block, each once, and takes it out of the map; of another address, one that was
    freed before included, it changes and frees nothing.  The mutex is released. *)
Theorem myfree_exact bs w p : tracked bs w → p ≠ 0 →
  runs (myfree p) w (λ _ w' ev, locks ev = [true; false] ∧ match bs !! (p - 8) with
    | Some n => tracked (delete (p - 8) bs) w' ∧ ∃ c s, elements w !! c = Some s ∧ el_ptr s = p - 8 ∧ el_size s = n ∧ freed ev = [el_file_at s; c; p - 8]
    | None => w' = w ∧ freed ev = []
    end).
Proof.
  intros [m Hm] Hp. unfold myfree. rewrite (proj2 (Z.eqb_neq _ _) Hp). apply runs_bind, runs_emits, runs_bind. eapply runs_mono; [by apply (heap_unlink_runs m bs w p)|].
  intros r w' ev [Hl Hr]. destruct (bs !! (p - 8)) as [n|].
  - destruct Hr as (-> & Ht & c & s & Hc & Hptr & Hn & Hf & _). apply runs_bind, runs_emits, runs_emits. split; [by rewrite !locks_app, Hl|]. split; [done|].
    exists c, s. by rewrite !freed_app, Hf.
  - destruct Hr as (-> & -> & ->). by apply runs_bind, runs_ret, runs_emits.
Qed.

(** What was allocated and is freed: the blocks in use are those that were before,
    the three allocations are freed and no error is logged. *)
Theorem mymalloc_myfree al file line size bs w : tracked bs w → obtains al = true → for_node al = true →
  elements w !! for_element al = None → bs !! for_block al = None → for_block al + 8 ≠ 0 →
  runs (p ← mymalloc al file line size; myfree p) w (λ _ w' ev, tracked bs w' ∧
    freed ev = [for_file al; for_element al; for_block al] ∧ Logged true ∉ ev ∧ locks ev = [true; false; true; false]).
Proof.
  intros Hw Hok Hnode Hnone Hb Hp. apply runs_bind. eapply runs_mono; [by apply (mymalloc_runs al file line size bs w)|].
  intros p w1 ev1 (-> & -> & Hg). unfold given in Hg. rewrite Hnode in Hg. destruct Hg as ([m Hm] & He & Hwords). unfold myfree. rewrite (proj2 (Z.eqb_neq _ _) Hp). apply runs_bind, runs_emits, runs_bind.
  eapply runs_mono; [by apply (heap_unlink_runs m (<[for_block al := Heap_roundup size]> bs) w1 (for_block al + 8))|]. replace (for_block al + 8 - 8) with (for_block al) by lia. rewrite lookup_insert_eq.
  intros r w' ev [Hl (-> & Ht & c & s & Hc & Hptr & Hn & Hf & Herr)]. apply runs_bind, runs_emits, runs_emits.
  rewrite delete_insert_id in Ht by done. split; [done|].
  assert (c = for_element al ∧ s = mkElement file (for_file al) line (for_block al) (Heap_roundup size)) as [-> ->].
  { rewrite He in Hc. apply lookup_insert_Some in Hc as [[<- <-]|[_ Hc]]; [done|]. exfalso. destruct Hw as (m0 & (_ & _ & Hbs) & _).
    assert (bs !! for_block al = Some (el_size s)) by (apply Hbs; by exists c, s). congruence. }
  split; [|split].
  - replace (for_block al + 8 - sizeof_eyecatcher) with (for_block al) by (unfold sizeof_eyecatcher; lia). by rewrite !freed_app, Hf.
  - assert (Hno : Logged true ∉ ev).
    { apply Herr; rewrite Hwords; unfold eyecatchers, sizeof_eyecatcher; [|apply lookup_insert_eq].
      replace (for_block al + 8 - 8) with (for_block al) by lia. destruct (decide (for_block al = for_block al + 8 + Heap_roundup size)) as [<-|Hne];
        [apply lookup_insert_eq|]. rewrite lookup_insert_ne by done. apply lookup_insert_eq. }
    set_solver.
  - by rewrite !locks_app, Hl.
Qed.

(** ** Reallocating *)

Lemma reallocated_runs m bs w c s block name file line p size : blocks_by m bs (delete c (elements w)) (heap w) → elements w !! c = Some s → c ≠ 0 →
  current_size w = u64 (sum_sizes bs + el_size s) → name ≠ 0 → (block ≠ 0 → bs !! block = None) →
  runs (reallocated block name true file line p size c) w (λ r w' ev, r = block ∧ locks ev = [] ∧ freed ev = [] ∧
    if block =? 0 then heap w' = heap w ∧ ∃ s', elements w' = <[c := s']> (elements w) else tracked (<[block := Heap_roundup size]> bs) w').
Proof.
  intros Hm Hs Hc Hsz Hname Hblock. unfold reallocated. apply runs_bind. unfold runs at 1, the_world. apply runs_bind, (runs_lift _ s); [done|].
  apply runs_bind. eapply runs_mono; [apply check_runs|]. intros [] w1 ev1 (-> & Hf & Hl & _). unfold add_size. apply runs_bind, runs_bind. unfold runs at 1, the_world.
  unfold runs at 1, set_sizes. apply runs_bind. unfold runs at 1, set_elements. destruct (Z.eqb_spec block 0) as [->|Hb].
  { apply runs_bind, runs_emits, runs_ret. cbn. rewrite !locks_app, !freed_app, Hf, Hl. split_and!; try done. by eexists. }
  apply runs_bind, runs_emits, runs_bind. unfold runs at 1, the_world. apply runs_bind. unfold runs at 1, set_words.
  rewrite (proj2 (Z.eqb_neq _ _) Hname). apply runs_bind, runs_emits, runs_bind. unfold runs at 1, set_elements. cbn [elements heap current_size max_size words].
  set (s2 := mkElement file name line block (Heap_roundup size)). apply runs_bind.
  eapply runs_mono; [apply (track_runs c s2 _ bs m (delete c (elements w))); [exact Hm|done|apply lookup_delete_eq|by apply Hblock|]|].
  { cbn [elements]. by rewrite insert_insert_eq, insert_delete_eq. }
  cbn [elements heap current_size words]. intros [] w2 ev2 (-> & Hc2 & Hw2 & He2 & Hblocks). apply runs_ret.
  rewrite !locks_app, !freed_app, Hf, Hl. split_and!; try done. eexists. split; [exact Hblocks|]. rewrite Hc2. apply u64_sum; [by apply Hblock|done].
Qed.

(** [myrealloc] of the address of a block in use gives its new block, which is in use
    with the new size instead of the old one; but when there is no memory the block,
    which is still allocated, has no node any more.  Another address gives NULL. *)
Theorem myrealloc_outcome bs w block name file line p size : tracked bs w → name ≠ 0 → (block ≠ 0 → delete (p - 8) bs !! block = None) →
  runs (myrealloc block name true file line p size) w (λ r w' ev, locks ev = [true; false] ∧ freed ev = [] ∧ match bs !! (p - 8) with
    | None => r = 0 ∧ tracked bs w'
    | Some n =>
        if block =? 0 then r = 0 ∧ ∃ m c, represents (ranks (elements w')) [m] (heap w') ∧ is_Some (elements w' !! c) ∧ ptr_of (elements w) c = p - 8 ∧ c ∉ m.*1
        else r = block + 8 ∧ tracked (<[block := Heap_roundup size]> (delete (p - 8) bs)) w'
    end).
Proof.
  intros [m Hm] Hname Hblock. pose proof (block_item m bs w (p - 8) Hm) as Hitem. destruct Hm as [Hm Hsz]. pose proof Hm as (Hrep & Hel & Hbs).
  unfold myrealloc. apply runs_bind, runs_emits, runs_bind. unfold runs at 1, the_world. apply runs_bind, runs_tree.
  eapply runs_mono; [apply (one_key_removed (ptrCompare (elements w)) (ranks (elements w)) m (heap w) (p - 8) (p - 8) Hrep), ptrCompare_key|].
  intros r t ev [-> Ht]. destruct (bs !! (p - 8)) as [n|] eqn:Hb.
  - destruct Hitem as (y & s & Hf & Hy & Hp & Hn & Hperm & Hnot). rewrite Hf. cbn [fmap option_fmap option_map]. 
    set (w1 := mkWorld (elements w) t (current_size w) (max_size w) (words w)).
    assert (Hy0 : y.1 ≠ 0).
    { destruct (represents_index (ranks (elements w)) [m] (heap w) 0 m Hrep eq_refl) as (_ & _ & Hx). rewrite Forall_forall in Hx. apply Hx. rewrite Hperm. left. }
    apply runs_bind. eapply runs_mono.
    { apply (reallocated_runs (remove_item (ranks (elements w) 0) (p - 8) m) (delete (p - 8) bs) w1 y.1 s); [|exact Hy|done| |done|exact Hblock].
      - rewrite <-Hp in *. by eapply blocks_delete.
      - cbn. by rewrite Hsz, (sum_delete bs (p - 8) n Hb), Hn, Z.add_comm. }
    intros r w' ev1 (-> & Hl & Hfr & Hcase). apply runs_bind, runs_emits, runs_ret. rewrite !locks_app, !freed_app, Hl, Hfr. split; [done|]. split; [done|].
    destruct (block =? 0); [|done]. destruct Hcase as (Hheap & s' & He). split; [done|]. exists (remove_item (ranks (elements w) 0) (p - 8) m), y.1. rewrite Hheap, He. split; [|split; [|split]].
    + eapply represents_ext; [|exact Ht]. intros i m2 x Hm2 Hx. apply list_lookup_singleton_Some in Hm2 as [_ <-]. unfold ranks, ptr_of. cbn.
      rewrite lookup_insert_ne; [done|]. intros Heq. apply Hnot. rewrite Heq. by apply list_elem_of_fmap_2.
    + rewrite lookup_insert_eq. by eexists.
    + unfold ptr_of. rewrite Hy. exact Hp.
    + done.
  - rewrite Hitem. cbn [fmap option_fmap option_map]. apply runs_bind, runs_bind, runs_emits, runs_ret. apply runs_bind, runs_emits, runs_ret. split; [done|]. split; [done|]. split; [done|].
    exists m. rewrite (remove_item_none _ _ _ Hitem) in Ht. done.
Qed.


(** ** Witnesses *)

Definition one_block : world :=
  mkWorld {[ 100 := mkElement [97; 46; 99] 200 7 400 16 ]} (mkTree {[ 1%positive := mkNode None None None 100 68 false ]} [Some 1%positive] 1 68 false) 16 16 ∅.
Lemma one_block_tracked : tracked {[ 400 := 16 ]} one_block.
Proof.
  exists [(100, 68)]. split; [|done]. split; [|split].
  - apply (represents_tree (ranks (elements one_block)) (Bin 1 (100, 68) false Leaf Leaf)); try done.
    + split; [vm_compute; by repeat split|]. split; [done|]. by apply (bool_decide_unpack _).
    + apply balanced_blacks. split; [done|]. by eexists.
    + by repeat constructor.
    + by repeat constructor.
  - intros c. cbn [elements one_block]. rewrite lookup_singleton_is_Some. cbn. rewrite list_elem_of_singleton. naive_solver.
  - intros p n. rewrite lookup_singleton_Some. cbn [elements one_block]. split.
    + intros [<- <-]. exists 100. eexists. split; [apply lookup_singleton_eq|done].
    + intros (c & s & Hc & <- & <-). by apply lookup_singleton_Some in Hc as [<- <-].
Qed.

Definition some_answers : answers := mkAnswers 100 200 400 true.
Definition no_node : answers := mkAnswers 100 200 400 false.
Lemma mymalloc_outcome_witness :
  runs (mymalloc some_answers [97; 46; 99] 7 10) Heap_initialize (λ r w' ev, locks ev = [true; false] ∧ r = 408 ∧ freed ev = [] ∧
    ∃ n, n mod 16 = 0 ∧ 10 ≤ n < 10 + 16 ∧ words w' = eyecatchers 408 n ∅ ∧ tracked (<[400 := n]> ∅) w') ∧
  runs (mymalloc no_node [97; 46; 99] 7 10) Heap_initialize (λ r w' ev, locks ev = [true; false] ∧ r = 408 ∧ freed ev = [] ∧
    ∃ n, n mod 16 = 0 ∧ 10 ≤ n < 10 + 16 ∧ words w' = eyecatchers 408 n ∅ ∧ heap w' = heap Heap_initialize ∧ current_size w' = u64 (0 + n)).
Proof.
  split; [apply (mymalloc_outcome some_answers [97; 46; 99] 7 10 ∅ Heap_initialize tracked_init)|
    apply (mymalloc_outcome no_node [97; 46; 99] 7 10 ∅ Heap_initialize tracked_init)]; (reflexivity || lia).
Defined.
Lemma myfree_exact_witness : runs (myfree 408) one_block (λ _ w' ev, locks ev = [true; false] ∧ tracked (delete 400 {[ 400 := 16 ]}) w' ∧
  ∃ c s, elements one_block !! c = Some s ∧ el_ptr s = 400 ∧ el_size s = 16 ∧ freed ev = [el_file_at s; c; 400]).
Proof. apply (myfree_exact {[ 400 := 16 ]} one_block 408 one_block_tracked). lia. Defined.
Lemma mymalloc_myfree_witness : runs (p ← mymalloc some_answers [97; 46; 99] 7 10; myfree p) Heap_initialize (λ _ w' ev, tracked ∅ w' ∧
  freed ev = [200; 100; 400] ∧ Logged true ∉ ev ∧ locks ev = [true; false; true; false]).
Proof. apply (mymalloc_myfree some_answers [97; 46; 99] 7 10 ∅ Heap_initialize tracked_init); (reflexivity || (cbn; lia)). Defined.
Lemma myrealloc_outcome_witness : runs (myrealloc 600 700 true [98; 46; 99] 9 408 40) one_block (λ r w' ev, locks ev = [true; false] ∧ freed ev = [] ∧
  r = 608 ∧ tracked (<[600 := 48]> (delete 400 {[ 400 := 16 ]})) w').
Proof. apply (myrealloc_outcome {[ 400 := 16 ]} one_block 600 700 [98; 46; 99] 9 408 40 one_block_tracked); [lia|]. intros _. reflexivity. Defined.

(** The size of a node counts its storage element, and [HeapDump] reads as many bytes
    from the block: it reads after its end. *)
Example dump_overreads : ∃ p w ev, mymalloc some_answers [97; 46; 99] 7 10 Heap_initialize = Some (p, w, ev) ∧ HeapDump (λ _ _, true) w = None.
Proof. eexists _, _, _. split; [vm_compute; reflexivity|]. vm_compute. reflexivity. Qed.
(** Without memory for its node a block is in no map; [myfree] does not find it. *)
Example untracked_block : ∃ p w ev w' ev', mymalloc no_node [97; 46; 99] 7 10 Heap_initialize = Some (p, w, ev) ∧ p = 408 ∧
  myfree p w = Some ((), w', ev') ∧ freed ev' = [].
Proof. eexists _, _, _, _, _. split; [vm_compute; reflexivity|]. split; [reflexivity|]. split; vm_compute; reflexivity. Qed.
End HeapSpec.
