(* ===== verification/Trace.v ===== *)
(** * Logging and tracing (paho.mqtt.c/src/Log.c, StackTrace.c)

    Module [Messages]: the tables of texts, and the conversions of [printf] that they
    use.  Module [Log]: the ring of the last entries and the trace file with its
    backup; the clock, the environment, the memory and the files that can be opened
    are arguments.  Module [StackTrace]: the stacks of the calls of each thread. *)
From S2P Require Import Prelude Libc.
Import Libc.

Module Messages.

Definition nameToString : list (Z * list Z) :=
  [(0, bs "SUCCESS");
   (0, bs "Normal disconnection");
   (0, bs "Granted QoS 0");
   (1, bs "Granted QoS 1");
   (2, bs "Granted QoS 2");
   (4, bs "Disconnect with Will Message");
   (16, bs "No matching subscribers");
   (17, bs "No subscription found");
   (24, bs "Continue authentication");
   (25, bs "Re-authenticate");
   (128, bs "Unspecified error");
   (129, bs "Malformed Packet");
   (130, bs "Protocol error");
   (131, bs "Implementation specific error");
   (132, bs "Unsupported Protocol Version");
   (133, bs "Client Identifier not valid");
   (134, bs "Bad User Name or Password");
   (135, bs "Not authorized");
   (136, bs "Server unavailable");
   (137, bs "Server busy");
   (138, bs "Banned");
   (139, bs "Server shutting down");
   (140, bs "Bad authentication method");
   (141, bs "Keep Alive timeout");
   (142, bs "Session taken over");
   (143, bs "Topic filter invalid");
   (144, bs "Topic name invalid");
   (145, bs "Packet Identifier in use");
   (146, bs "Packet Identifier not found");
   (147, bs "Receive Maximum exceeded");
   (148, bs "Topic Alias invalid");
   (149, bs "Packet too large");
   (150, bs "Message rate too high");
   (151, bs "Quota exceeded");
   (152, bs "Administrative action");
   (153, bs "Payload format invalid");
   (154, bs "Retain not supported");
   (155, bs "QoS not supported");
   (156, bs "Use another server");
   (157, bs "Server moved");
   (158, bs "Shared subscriptions not supported");
   (159, bs "Connection rate exceeded");
   (160, bs "Maximum connect time");
   (161, bs "Subscription Identifiers not supported");
   (162, bs "Wildcard Subscriptions not supported")].
Fixpoint first_name (value : Z) (l : list (Z * list Z)) : option (list Z) :=
  match l with [] => None | (v, s) :: l' => if v =? value then Some s else first_name value l' end.
Definition MQTTReasonCode_toString (value : Z) : option (list Z) := first_name value nameToString.

Definition protocol_message_list : list (list Z) :=
  [bs "%d %s -> CONNECT version %d clean: %d (%d)";
   bs "%d %s <- CONNACK rc: %d";
   bs "%d %s -> CONNACK rc: %d (%d)";
   bs "%d %s <- PINGREQ";
   bs "%d %s -> PINGRESP (%d)";
   bs "%d %s <- DISCONNECT";
   bs "%d %s <- SUBSCRIBE msgid: %d";
   bs "%d %s -> SUBACK msgid: %d (%d)";
   bs "%d %s <- UNSUBSCRIBE msgid: %d";
   bs "%d %s -> UNSUBACK msgid: %d (%d)";
   bs "%d %s -> PUBLISH msgid: %d qos: %d retained: %d rc %d payload len(%d): %.*s";
   bs "%d %s <- PUBLISH msgid: %d qos: %d retained: %d payload len(%d): %.*s";
   bs "%d %s -> PUBACK msgid: %d (%d)";
   bs "%d %s -> PUBREC msgid: %d (%d)";
   bs "%d %s <- PUBACK msgid: %d";
   bs "%d %s <- PUBREC msgid: %d";
   bs "%d %s -> PUBREL msgid: %d (%d)";
   bs "%d %s <- PUBREL msgid %d";
   bs "%d %s -> PUBCOMP msgid %d (%d)";
   bs "%d %s <- PUBCOMP msgid:%d";
   bs "%d %s -> PINGREQ (%d)";
   bs "%d %s <- PINGRESP";
   bs "%d %s -> SUBSCRIBE msgid: %d (%d)";
   bs "%d %s <- SUBACK msgid: %d";
   bs "%d %s <- UNSUBACK msgid: %d";
   bs "%d %s -> UNSUBSCRIBE msgid: %d (%d)";
   bs "%d %s <- CONNECT";
   bs "%d %s -> PUBLISH qos: 0 retained: %d rc: %d payload len(%d): %.*s";
   bs "%d %s -> DISCONNECT (%d)";
   bs "Socket error for client identifier %s, socket %d, peer address %s; ending connection"].
Definition trace_message_list : list (list Z) :=
  [bs "Failed to remove client from bstate->clients";
   bs "Removed client %s from bstate->clients, socket %d";
   bs "Packet_Factory: unhandled packet type %d";
   bs "Packet %s received from client %s for message identifier %d, but no record of that message identifier found";
   bs "Packet %s received from client %s for message identifier %d, but message is wrong QoS, %d";
   bs "Packet %s received from client %s for message identifier %d, but message is in wrong state";
   bs "%s received from client %s for message id %d - removing publication";
   bs "Trying %s again for client %s, socket %d, message identifier %d";
   bs "";
   bs "(%lu) %*s(%d)> %s:%d";
   bs "(%lu) %*s(%d)< %s:%d";
   bs "(%lu) %*s(%d)< %s:%d (%d)";
   bs "Storing unsent QoS 0 message"].

Definition TRACE_MAXIMUM : Z := 1.
Definition TRACE_MEDIUM : Z := 2.
Definition TRACE_MINIMUM : Z := 3.
Definition TRACE_PROTOCOL : Z := 4.
Definition LOG_ERROR : Z := 5.
Definition LOG_FATAL : Z := 7.
Definition INVALID_LEVEL : Z := -1.

Definition Messages_get (index log_level : Z) : option (list Z) :=
  let l := if log_level =? TRACE_PROTOCOL then protocol_message_list else trace_message_list in
  if (0 <=? index) && (index <? len l) then l !! Z.to_nat index else None.

(** [printf]: the conversions of the texts; any other, or an insert that is missing
    or of another type, has no result. *)
Inductive insert := ANumber (z : Z) | AText (s : list Z).
Inductive conversion := CNumber | CText | CPadded | CCut.
Definition conversions : list (list Z * conversion) :=
  [(bs "d", CNumber); (bs "u", CNumber); (bs "lu", CNumber); (bs "s", CText); (bs "*s", CPadded); (bs ".*s", CCut)].
Fixpoint conversion_at (f : list Z) (l : list (list Z * conversion)) : option (conversion * list Z) :=
  match l with [] => None | (p, c) :: l' => if starts_with p f then Some (c, drop (length p) f) else conversion_at f l' end.
Definition convert (c : conversion) (args : list insert) : option (list Z * list insert) :=
  match c, args with
  | CNumber, ANumber z :: args' => Some (dec z, args')
  | CText, AText s :: args' => Some (s, args')
  | CPadded, ANumber w :: AText s :: args' => Some (if w <? 0 then s ++ replicate (Z.to_nat (- w) - length s) 32 else replicate (Z.to_nat w - length s) 32 ++ s, args')
  | CCut, ANumber p :: AText s :: args' => Some (if p <? 0 then s else take (Z.to_nat p) s, args')
  | _, _ => None
  end.
Fixpoint printf_loop (fuel : nat) (f : list Z) (args : list insert) : option (list Z) :=
  match fuel, f with
  | _, [] => Some []
  | O, _ => None
  | S fuel', c :: f' =>
      if c =? 37 then
        '(c, f') ← conversion_at f' conversions;
        '(t, args') ← convert c args;
        app t <$> printf_loop fuel' f' args'
      else cons c <$> printf_loop fuel' f' args
  end.
Definition printf (f : list Z) (args : list insert) : option (list Z) := printf_loop (length f) f args.
(** What fits in [n] bytes with the terminator. *)
Definition snprintf (n : Z) (f : list Z) (args : list insert) : option (list Z) := take (Z.to_nat (n - 1)) <$> printf f args.
(** [%.3d]. *)
Definition padded (n : nat) (z : Z) : list Z := replicate (n - length (dec z)) 48 ++ dec z.
End Messages.

Module Log.
Import Messages.

(** ** Data *)

(** An entry of the ring; [ts] is its time, in microseconds. *)
Record traceEntry := mkEntry { ts : Z; sametime : Z; number : Z; thread_id : Z; depth : Z; name : list Z; line : Z; has_rc : Z; rc : Z; level : Z }.
(** The ring: not allocated, freed and not set to NULL, or its places, which are not
    initialised at first. *)
Inductive queue := QNull | QFreed | QRing (l : list (option traceEntry)).
Inductive destination := NoDestination | Stdout | File.
#[export] Instance destination_eq_dec : EqDecision destination.
Proof. solve_decision. Defined.
Record settings := mkSettings { trace_level : Z; max_trace_entries : Z }.
(** The static variables, and the lines of standard output, of the trace file and of
    its backup. *)
Record state := mkState {
  trace_settings : settings;
  trace_queue : queue;
  trace_queue_size : Z;
  start_index : Z;
  next_index : Z;
  trace_destination : destination;
  lines_written : Z;
  max_lines_per_file : Z;
  trace_output_level : Z;
  trace_callback : bool;
  sametime_count : Z;
  now_ts : Z;
  last_ts : Z;
  stdout_lines : list (list Z);
  file_lines : list (list Z);
  backup_lines : list (list Z)
}.
(** A call of the callback. *)
Definition io : Type → Type := emitting state (Z * list Z).
Definition the_state : io state := λ s, Some (s, s, []).
Definition put (s : state) : io () := λ _, Some ((), s, []).

Definition with_ring (s : state) (q : queue) (n start next : Z) : state :=
  mkState (trace_settings s) q n start next (trace_destination s) (lines_written s) (max_lines_per_file s) (trace_output_level s) (trace_callback s)
    (sametime_count s) (now_ts s) (last_ts s) (stdout_lines s) (file_lines s) (backup_lines s).
Definition with_clock (s : state) (n now last : Z) : state :=
  mkState (trace_settings s) (trace_queue s) (trace_queue_size s) (start_index s) (next_index s) (trace_destination s) (lines_written s) (max_lines_per_file s)
    (trace_output_level s) (trace_callback s) n now last (stdout_lines s) (file_lines s) (backup_lines s).
Definition with_output (s : state) (d : destination) (n : Z) (out file backup : list (list Z)) : state :=
  mkState (trace_settings s) (trace_queue s) (trace_queue_size s) (start_index s) (next_index s) d n (max_lines_per_file s)
    (trace_output_level s) (trace_callback s) (sametime_count s) (now_ts s) (last_ts s) out file backup.
Definition with_levels (s : state) (t o : Z) (lines : Z) (callback : bool) : state :=
  mkState (mkSettings t (max_trace_entries (trace_settings s))) (trace_queue s) (trace_queue_size s) (start_index s) (next_index s) (trace_destination s)
    (lines_written s) lines o callback (sametime_count s) (now_ts s) (last_ts s) (stdout_lines s) (file_lines s) (backup_lines s).

Definition initial : state := mkState (mkSettings TRACE_MINIMUM 400) QNull 0 (-1) 0 NoDestination 0 1000 INVALID_LEVEL false 0 0 0 [] [] [].

(** ** Output *)

(** [reopened] is whether the trace file can be opened again. *)
Definition Log_output (reopened : bool) (log_level : Z) (msg : list Z) : io () :=
  s ← the_state;
  put (match trace_destination s with
       | NoDestination => s
       | Stdout => with_output s Stdout (lines_written s) (stdout_lines s ++ [msg]) (file_lines s) (backup_lines s)
       | File =>
           let file := file_lines s ++ [msg] in
           if max_lines_per_file s <=? lines_written s + 1 then with_output s (if reopened then File else Stdout) 0 (stdout_lines s) [] file
           else with_output s File (lines_written s + 1) (stdout_lines s) file (backup_lines s)
       end);;
  if trace_callback s then emits [(log_level, msg)] else mret ().

(** ** The ring *)

(** The index of the new entry, [None] when there is no memory; [clock] is what
    [gettimeofday] answers, [room] whether there is memory for another queue. *)
Definition resize (room : bool) (s : state) : option (option state) :=
  let n := max_trace_entries (trace_settings s) in
  if trace_queue_size s =? n then Some (Some s)
  else if room then
    match trace_queue s with
    | QRing l =>
        let l' := take (Z.to_nat (Z.min (trace_queue_size s) n)) l in
        let q := QRing (l' ++ replicate (Z.to_nat n - length l') None) in
        let lost := (n + 1 <? start_index s) || (n + 1 <? next_index s) in
        Some (Some (with_ring s q n (if lost then -1 else start_index s) (if lost then 0 else next_index s)))
    | _ => None
    end
  else Some None.
Definition Log_pretrace (clock : Z) (room : bool) : io (option Z) :=
  s ← the_state;
  let n := sametime_count s + 1 in
  let s := if Z.rem n 20 =? 0 then (if bool_decide (clock = last_ts s) then with_clock s n clock (last_ts s) else with_clock s 0 clock clock)
           else with_clock s n (now_ts s) (last_ts s) in
  o ← lift (resize room s);
  match o with
  | None => put s;; mret None
  | Some s =>
      let max := max_trace_entries (trace_settings s) in
      let cur := next_index s in
      let start := if cur =? start_index s then (if start_index s + 1 =? max then 0 else start_index s + 1)
                   else if start_index s =? -1 then 0 else start_index s in
      let next := if cur + 1 =? max then 0 else cur + 1 in
      put (with_ring s (trace_queue s) (trace_queue_size s) start next);;
      mret (Some cur)
  end.
(** The entry is written; the fields that a function does not write keep what was
    there. *)
Definition blank : traceEntry := mkEntry 0 0 0 0 0 [] 0 0 0 0.
Definition write_entry (cur : option Z) (f : state → traceEntry → traceEntry) : io traceEntry :=
  s ← the_state;
  match cur, trace_queue s with
  | Some i, QRing l =>
      if (0 <=? i) && (i <? len l) then
        let e := f s (default blank (l !! Z.to_nat i ≫= λ e, e)) in
        put (with_ring s (QRing (<[Z.to_nat i := Some e]> l)) (trace_queue_size s) (start_index s) (next_index s));;
        mret e
      else lift None
  | _, _ => lift None
  end.

Section Text.
(** The date of a time of day, as [strftime] writes it: [20261231 235959]. *)
Context (strftime : Z → list Z).

(** The text without what precedes its eighth byte; the counter is written there last,
    and a counter of five digits ends the text. *)
Definition Log_formatTraceEntry (e : traceEntry) : option (list Z) :=
  body ← (if has_rc e =? 2 then Some (take 485 (name e))
          else f ← Messages_get (number e) (level e);
               snprintf 485 f ([ANumber (thread_id e); ANumber (depth e); AText []; ANumber (depth e); AText (name e); ANumber (line e)] ++
                               (if has_rc e =? 1 then [ANumber (rc e)] else [])));
  let counter := bs "(" ++ padded 4 (sametime e) ++ bs ")" ++ [0] in
  let msg_buf := replicate 7 32 ++ strftime (ts e / 1000000) ++ bs "." ++ padded 3 (ts e mod 1000000 / 1000) ++ bs " " ++ body in
  Some (cstr (drop 7 (counter ++ drop (length counter) msg_buf))).

Definition Log_posttrace (reopened : bool) (log_level : Z) (e : traceEntry) : io () :=
  s ← the_state;
  if (if trace_output_level s =? -1 then trace_level (trace_settings s) <=? log_level else trace_output_level s <=? log_level)
  then if bool_decide (trace_destination s = NoDestination) && negb (trace_callback s) then mret ()
       else msg ← lift (Log_formatTraceEntry e); Log_output reopened log_level msg
  else mret ().

(** The time, the memory and the file that a call meets. *)
Record meets := mkMeets { clock : Z; room : bool; reopened : bool }.

(** A name that does not fit is cut. *)
Definition Log_trace (w : meets) (log_level : Z) (buf : list Z) : io () :=
  s ← the_state;
  match trace_queue s with
  | QNull => mret ()
  | _ =>
      cur ← Log_pretrace (clock w) (room w);
      e ← write_entry cur (λ s e, mkEntry (now_ts s) (sametime_count s) (number e) (thread_id e) (depth e) (take 256 buf) (line e) 2 (rc e) (level e));
      Log_posttrace (reopened w) log_level e
  end.
Definition Log (w : meets) (log_level msgno : Z) (format : option (list Z)) (args : list insert) : io () :=
  s ← the_state;
  if trace_level (trace_settings s) <=? log_level then
    let format := match format with Some f => Some f | None => Messages_get msgno log_level end in
    msg ← lift (f ← format; snprintf 512 f args);
    Log_trace w log_level msg
  else mret ().
(** [strcpy] of a longer name writes after the end of the entry's. *)
Definition Log_stackTrace (w : meets) (log_level msgno thread current_depth : Z) (fname : list Z) (fline : Z) (prc : option Z) : io () :=
  s ← the_state;
  match trace_queue s with
  | QNull => mret ()
  | _ =>
      if log_level <? trace_level (trace_settings s) then mret ()
      else
        (if 256 <? len fname then lift None else mret ());;
        cur ← Log_pretrace (clock w) (room w);
        e ← write_entry cur (λ s e, mkEntry (now_ts s) (sametime_count s) msgno thread current_depth fname fline
                                      (match prc with None => 0 | Some _ => 1 end) (default (rc e) prc) log_level);
        Log_posttrace (reopened w) log_level e
  end.
End Text.

(** ** Starting and ending *)

Definition Log_setTraceCallback (callback : bool) : io () :=
  s ← the_state; put (with_levels s (trace_level (trace_settings s)) (trace_output_level s) (max_lines_per_file s) callback).
Definition Log_setTraceLevel (l : Z) : io () :=
  s ← the_state;
  put (with_levels s (if l <? TRACE_MINIMUM then l else trace_level (trace_settings s)) l (max_lines_per_file s) (trace_callback s)).
Definition Log_terminate : io () :=
  s ← the_state;
  put (with_levels (with_clock (with_output (with_ring s QNull 0 (-1) 0) NoDestination (lines_written s) (stdout_lines s) (file_lines s) (backup_lines s)) 0 (now_ts s) (last_ts s))
        (trace_level (trace_settings s)) INVALID_LEVEL (max_lines_per_file s) (trace_callback s)).

(** The environment, what is allocated and opened. *)
Record environment := mkEnvironment {
  env_trace : option (list Z); env_max_lines : option (list Z); env_level : option (list Z);
  queue_room : bool; file_opens : bool; name_room : bool; backup_room : bool; proc_version : option (list Z) }.
Definition nonempty (o : option (list Z)) : option (list Z) := match o with Some [] => None | _ => o end.
Definition env_is (v : list Z) (l : list (list Z)) : bool := existsb (λ x, bool_decide (v = x)) l.
(** The levels that the environment sets. *)
Definition level_of (v : list Z) (s : state) : state :=
  let set_level t := with_levels s t (trace_output_level s) (max_lines_per_file s) (trace_callback s) in
  let set_output o := with_levels s (trace_level (trace_settings s)) o (max_lines_per_file s) (trace_callback s) in
  if env_is v [bs "MAXIMUM"; bs "TRACE_MAXIMUM"] then set_level TRACE_MAXIMUM
  else if env_is v [bs "MEDIUM"; bs "TRACE_MEDIUM"] then set_level TRACE_MEDIUM
  else if env_is v [bs "MINIMUM"; bs "TRACE_MINIMUM"] then set_level TRACE_MINIMUM
  else if env_is v [bs "PROTOCOL"; bs "TRACE_PROTOCOL"] then set_output TRACE_PROTOCOL
  else if env_is v [bs "ERROR"; bs "TRACE_ERROR"] then set_output LOG_ERROR
  else s.
(** The destination, or that there was no memory for the names: the queue is then
    freed and not set to NULL. *)
Definition destination_of (e : environment) (s : state) : state * bool :=
  match nonempty (env_trace e) with
  | None => (s, true)
  | Some v =>
      let on d file := with_output s d (lines_written s) (stdout_lines s) file (backup_lines s) in
      if bool_decide (v = bs "ON") || negb (file_opens e) then (on Stdout (file_lines s), true)
      else if name_room e && backup_room e then (on File [], true)
      else (with_ring (on File []) QFreed (trace_queue_size s) (start_index s) (next_index s), false)
  end.
(** The result is always [SOCKET_ERROR]; [info] are the lines of the caller. *)
Definition Log_initialize (e : environment) (reopens : bool) (info : list (list Z)) : io Z :=
  if negb (queue_room e) then s ← the_state; put (with_ring s QNull (trace_queue_size s) (start_index s) (next_index s));; mret (-1)
  else
    s ← the_state;
    let n := max_trace_entries (trace_settings s) in
    let s := with_ring s (QRing (replicate (Z.to_nat n) None)) n (start_index s) (next_index s) in
    let '(s, ok) := destination_of e s in
    put s;;
    if negb ok then mret (-1)
    else
      s ← the_state;
      put (match nonempty (env_max_lines e) with
           | None => s
           | Some v => with_levels s (trace_level (trace_settings s)) (trace_output_level s) (if atoi v <=? 0 then 1000 else atoi v) (trace_callback s)
           end);;
      s ← the_state;
      put (match nonempty (env_level e) with None => s | Some v => level_of v s end);;
      let rule := bs "=========================================================" in
      each (Log_output reopens TRACE_MINIMUM)
        ([rule; bs "                   Trace Output"] ++ (take 511 <$> info) ++
         (match proc_version e with Some v => [bs "/proc/version: " ++ take 496 v] | None => [] end) ++ [rule]);;
      mret (-1).
End Log.

Module StackTrace.
Import Messages.

Definition MAX_STACK_DEPTH : Z := 50.
Definition MAX_FUNCTION_NAME_LENGTH : Z := 30.
Definition MAX_THREADS : Z := 255.

(** The name and the line of a call; [callstack] has [MAX_STACK_DEPTH] places. *)
Record threadEntry := mkThread { id : Z; maxdepth : Z; current_depth : Z; callstack : list (list Z * Z) }.
(** The table, up to [thread_count]. *)
Abbreviation threads := (list threadEntry).
(** Calls of [Log] and of [Log_stackTrace]. *)
Inductive event := EFatal | ETrace (level msgno thread depth : Z) (name : list Z) (line : Z) (rc : option Z).
Definition io : Type → Type := emitting threads event.
Definition the_threads : io threads := λ s, Some (s, s, []).
Definition put (s : threads) : io () := λ _, Some ((), s, []).

(** The place of the thread; it is added when [create] is set and there is one left. *)
Fixpoint thread_at (curid : Z) (l : threads) : option nat :=
  match l with [] => None | t :: l' => if id t =? curid then Some O else S <$> thread_at curid l' end.
Definition setStack (curid : Z) (create : bool) : io (option nat) :=
  s ← the_threads;
  match thread_at curid s with
  | Some i => mret (Some i)
  | None =>
      if create && (len s <? MAX_THREADS) then
        put (s ++ [mkThread curid 0 0 (replicate (Z.to_nat MAX_STACK_DEPTH) ([], 0))]);; mret (Some (length s))
      else mret None
  end.

(** What a place keeps of a name. *)
Definition kept (name : list Z) : list Z := take (Z.to_nat (MAX_FUNCTION_NAME_LENGTH - 1)) name.
Definition fatal (b : bool) : io () := if b then emits [EFatal] else mret ().
Definition traced (level msgno : Z) (t : threadEntry) (d : Z) (name : list Z) (line : Z) (rc : option Z) : io () :=
  if level =? -1 then mret () else emits [ETrace level msgno (s32 (id t)) d name line rc].

Definition StackTrace_entry (curid : Z) (name : list Z) (line trace_level : Z) : io () :=
  o ← setStack curid true;
  match o with
  | None => mret ()
  | Some i =>
      s ← the_threads;
      t ← lift (s !! i);
      traced trace_level 9 t (current_depth t) name line None;;
      (if (0 <=? current_depth t) && (current_depth t <? MAX_STACK_DEPTH) then mret () else lift None);;
      let d := current_depth t + 1 in
      put (<[i := mkThread (id t) (Z.max (maxdepth t) d) d (<[Z.to_nat (current_depth t) := (kept name, line)]> (callstack t))]> s);;
      fatal (MAX_STACK_DEPTH <=? d)
  end.
Definition StackTrace_exit (curid : Z) (name : list Z) (line : Z) (rc : option Z) (trace_level : Z) : io () :=
  o ← setStack curid false;
  match o with
  | None => mret ()
  | Some i =>
      s ← the_threads;
      t ← lift (s !! i);
      let d := current_depth t - 1 in
      put (<[i := mkThread (id t) (maxdepth t) d (callstack t)]> s);;
      fatal (d <? 0);;
      e ← lift (if (0 <=? d) && (d <? MAX_STACK_DEPTH) then callstack t !! Z.to_nat d else None);
      fatal (negb (bool_decide (e.1 = kept name)));;
      traced trace_level (match rc with None => 10 | Some _ => 11 end) t d name line rc
  end.

(** The calls that are open in a thread, the last one first. *)
Definition open_calls (t : threadEntry) : list (list Z * Z) := reverse (take (Z.to_nat (current_depth t)) (callstack t)).
Definition at_line (e : list Z * Z) : list Z := e.1 ++ bs " (" ++ dec e.2 ++ bs ")".
Definition stack_lines (calls : list (list Z * Z)) : list (list Z) :=
  match calls with [] => [] | e :: l => at_line e :: ((λ e, bs "   at " ++ at_line e) <$> l) end.
(** One line more in the buffer of [StackTrace_get]: what [snprintf] returns is the
    length of the line, cut or not, and a negative size is a huge one. *)
Fixpoint get_lines (bufsize curpos : Z) (text : list Z) (l : list (list Z)) : option (Z * list Z) :=
  match l with
  | [] => Some (curpos, text)
  | x :: l' =>
      let room := bufsize - curpos - 1 in
      let x := x ++ [10] in
      if room <? 0 then None else get_lines bufsize (curpos + len x) (text ++ take (Z.to_nat (room - 1)) x) l'
  end.
(** The text in the buffer; the buffer is left as it is when it is short. *)
Definition StackTrace_get (threadid bufsize : Z) (buf : list Z) (s : threads) : option (list Z) :=
  if bufsize <? 100 then Some buf
  else
    match thread_at threadid s ≫= λ i, s !! i with
    | None => Some []
    | Some t =>
        match stack_lines (open_calls t) with
        | [] => Some []
        | l =>
            '(curpos, text) ← get_lines bufsize 0 [] l;
            if bufsize <? curpos then None
            else if (len text =? curpos) && bool_decide (last text = Some 10) then Some (removelast text) else Some text
        end
    end.
(** The lines of all threads. *)
Definition StackTrace_printStack (s : threads) : list (list Z) :=
  flat_map (λ t, if 0 <? id t then
    [bs "=========== Start of stack trace for thread " ++ dec (id t) ++ bs " =========="] ++ stack_lines (open_calls t) ++
    [bs "=========== End of stack trace for thread " ++ dec (id t) ++ bs " =========="; []] else []) s.
End StackTrace.
