(* ===== verification/TraceSpec.v ===== *)
(** * Logging and tracing: what is kept (paho.mqtt.c/src/Log.c, StackTrace.c)

    Module [LogSpec]: the ring holds the last entries, the trace file and its backup
    the last lines.  Module [StackSpec]: the stack of each thread is that of its calls
    that are open. *)
From S2P Require Import Prelude Libc Trace.
Import Libc.

Module LogSpec.
Import Messages Log.

(** ** The ring *)

(** The last [n] elements. *)
Definition lastn {A} (n : nat) (l : list A) : list A := drop (length l - n) l.

(** [q], from [start], holds [l]; [next] is the place after it. *)
Definition ring_of (n : nat) (q : list (option traceEntry)) (start next : Z) (l : list traceEntry) : Prop :=
  length q = n ∧ (0 < n)%nat ∧ (length l ≤ n)%nat ∧
  ∃ s : nat, (s < n)%nat ∧ (match l with [] => start = -1 ∧ s = O | _ => start = Z.of_nat s end) ∧ next = Z.of_nat ((s + length l) mod n) ∧
    ∀ k e, l !! k = Some e → q !! ((s + k) mod n)%nat = Some (Some e).

Definition next_start (n : nat) (start next : Z) : Z :=
  if next =? start then (if start + 1 =? Z.of_nat n then 0 else start + 1) else if start =? -1 then 0 else start.
Definition next_next (n : nat) (next : Z) : Z := if next + 1 =? Z.of_nat n then 0 else next + 1.

Lemma mod_place (n s k : nat) : (s < n)%nat → (k ≤ n)%nat → ((s + k) mod n = if decide (s + k < n) then s + k else s + k - n)%nat.
Proof.
  intros Hs Hk. case_decide as Hd; [by apply Nat.mod_small|]. symmetry. apply (Nat.mod_unique _ _ 1); lia.
Qed.
Lemma next_next_mod (n a : nat) : (0 < n)%nat → next_next n (Z.of_nat (a mod n)) = Z.of_nat (S a mod n).
Proof.
  intros Hn. unfold next_next. pose proof (Nat.mod_upper_bound a n ltac:(lia)).
  rewrite <-(Nat.add_1_r a), <-Nat.Div0.add_mod_idemp_l, mod_place by lia. case_leb; case_decide; lia.
Qed.
Lemma lastn_all {A} n (l : list A) : (length l ≤ n)%nat → lastn n l = l.
Proof. intros H. unfold lastn. by replace (length l - n)%nat with O by lia. Qed.
Lemma lastn_app {A} n (l l' : list A) : lastn n (lastn n l ++ l') = lastn n (l ++ l').
Proof.
  unfold lastn. rewrite !length_app, length_drop, !drop_app, drop_drop, length_drop. f_equal; f_equal; lia.
Qed.
Lemma lastn_length {A} n (l : list A) : (length (lastn n l) ≤ n)%nat.
Proof. unfold lastn. rewrite length_drop. lia. Qed.

(** There is room: the entry is put after the others. *)
Lemma ring_room n q start next l e : ring_of n q start next l → (length l < n)%nat →
  ring_of n (<[Z.to_nat next := Some e]> q) (next_start n start next) (next_next n next) (l ++ [e]).
Proof.
  intros (Hq & Hn & Hl & s & Hs & Hstart & -> & Hlk) Hroom. rewrite Nat2Z.id, next_next_mod by done.
  split; [by rewrite length_insert|]. split; [done|]. split; [rewrite length_app; cbn; lia|]. exists s. split; [done|].
  rewrite length_app, Nat.add_1_r, <-plus_n_Sm. split.
  - unfold next_start. destruct l as [|e' l]; cbn [app length] in *.
    + destruct Hstart as [-> ->]. by case_leb.
    + subst start. rewrite mod_place by lia. case_decide; case_leb; lia.
  - split; [done|]. intros k x Hk. assert (Hk' : (k ≤ length l)%nat) by (apply lookup_lt_Some in Hk; rewrite length_app in Hk; cbn in Hk; lia).
    destruct (decide (k = length l)) as [->|Hne].
    + rewrite list_lookup_middle in Hk by done. injection Hk as ->. apply list_lookup_insert_eq. rewrite Hq. by apply Nat.mod_upper_bound; lia.
    + rewrite lookup_app_l in Hk by lia. rewrite list_lookup_insert_ne; [by apply Hlk|]. rewrite !mod_place by lia. repeat case_decide; lia.
Qed.
(** The ring is full: the entry takes the place of the first one. *)
Lemma ring_full n q start next e0 l e : ring_of n q start next (e0 :: l) → S (length l) = n →
  ring_of n (<[Z.to_nat next := Some e]> q) (next_start n start next) (next_next n next) (l ++ [e]).
Proof.
  intros (Hq & Hn & Hl & s & Hs & -> & -> & Hlk) Hfull. cbn [length] in *. rewrite Hfull in *.
  assert (Hp : ((s + n) mod n = s)%nat) by (rewrite mod_place by lia; case_decide; lia). rewrite next_next_mod, Hp, Nat2Z.id by done.
  split; [by rewrite length_insert|]. split; [done|]. split; [rewrite length_app; cbn; lia|]. exists (S s mod n)%nat.
  rewrite length_app, Nat.add_1_r, Hfull. rewrite Nat.Div0.add_mod_idemp_l, <-plus_Sn_m. split; [by apply Nat.mod_upper_bound; lia|]. split.
  - assert (Hstart : next_start n (Z.of_nat s) (Z.of_nat s) = Z.of_nat (S s mod n)).
    { rewrite <-next_next_mod by done. rewrite (Nat.mod_small s n Hs). unfold next_start, next_next. by rewrite Z.eqb_refl. }
    rewrite Hstart. by destruct l.
  - split; [done|]. intros k x Hk.
    assert (Hk' : (k ≤ length l)%nat) by (apply lookup_lt_Some in Hk; rewrite length_app in Hk; cbn in Hk; lia).
    rewrite Nat.Div0.add_mod_idemp_l, plus_Sn_m, plus_n_Sm. destruct (decide (k = length l)) as [->|Hne].
    + rewrite list_lookup_middle in Hk by done. injection Hk as ->. rewrite Hfull, Hp. apply list_lookup_insert_eq. lia.
    + rewrite lookup_app_l in Hk by lia. rewrite list_lookup_insert_ne; [by apply Hlk|]. rewrite mod_place by lia. repeat case_decide; lia.
Qed.
Lemma ring_step n q start next l e : ring_of n q start next l →
  0 ≤ next < len q ∧ ring_of n (<[Z.to_nat next := Some e]> q) (next_start n start next) (next_next n next) (lastn n (l ++ [e])).
Proof.
  intros H. pose proof H as (Hq & Hn & Hl & s & Hs & _ & Hnext & _). split.
  - subst next. pose proof (Nat.mod_upper_bound (s + length l) n ltac:(lia)). lia.
  - destruct (decide (length l = n)) as [Hfull|Hfull].
    + destruct l as [|e0 l]; [cbn in Hfull; lia|]. cbn [length app] in *. unfold lastn. cbn [length]. rewrite length_app. cbn [length].
      replace (S (length l + 1) - n)%nat with 1%nat by lia. cbn [drop]. by eapply ring_full.
    + rewrite lastn_all by (rewrite length_app; cbn; lia). apply ring_room; [done|lia].
Qed.

(** ** The calls *)

Section Calls.
Context (strftime : Z → list Z).

Inductive call :=
  | CallLog (w : meets) (log_level msgno : Z) (format : option (list Z)) (args : list insert)
  | CallTrace (w : meets) (log_level msgno thread current_depth : Z) (fname : list Z) (fline : Z) (prc : option Z).
Definition do_call (c : call) : io () :=
  match c with
  | CallLog w log_level msgno format args => Log strftime w log_level msgno format args
  | CallTrace w log_level msgno thread current_depth fname fline prc => Log_stackTrace strftime w log_level msgno thread current_depth fname fline prc
  end.
Definition level_of_call (c : call) : Z := match c with CallLog _ v _ _ _ => v | CallTrace _ v _ _ _ _ _ _ => v end.
Definition recorded (min : Z) (c : call) : Prop := min ≤ level_of_call c.
#[export] Instance recorded_dec min c : Decision (recorded min c).
Proof. unfold recorded. apply _. Defined.
Definition text_of (log_level msgno : Z) (format : option (list Z)) (args : list insert) : option (list Z) :=
  f ← match format with Some f => Some f | None => Messages_get msgno log_level end; snprintf 512 f args.
(** The text can be printed; a call of the stack trace has one of the three messages
    for it and a name that fits. *)
Definition printable (c : call) : Prop :=
  match c with
  | CallLog _ v m format args => is_Some (text_of v m format args)
  | CallTrace _ v m _ _ fname _ prc => v ≠ TRACE_PROTOCOL ∧ len fname ≤ 256 ∧ (m = 9 ∨ m = 10 ∨ m = 11 ∧ is_Some prc)
  end.
(** The entry of a call. *)
Definition entry_of (c : call) (e : traceEntry) : Prop :=
  match c with
  | CallLog _ v m format args => ∃ t, text_of v m format args = Some t ∧ has_rc e = 2 ∧ name e = take 256 t
  | CallTrace _ v m thread d fname fline prc =>
      number e = m ∧ thread_id e = thread ∧ depth e = d ∧ name e = fname ∧ line e = fline ∧ level e = v ∧
      match prc with None => has_rc e = 0 | Some r => has_rc e = 1 ∧ rc e = r end
  end.

Lemma entry_formats c e : printable c → entry_of c e → is_Some (Log_formatTraceEntry strftime e).
Proof.
  unfold Log_formatTraceEntry. destruct c as [w v m format args|w v m thread d fname fline prc]; cbn [printable entry_of].
  - intros _ (t & _ & -> & _). by eexists.
  - intros (Hv & _ & Hm) (-> & _ & _ & _ & _ & -> & Hrc).
    assert (Hne : has_rc e ≠ 2) by (destruct prc; lia). rewrite (proj2 (Z.eqb_neq _ _) Hne).
    assert (Hg : Messages_get m v = trace_message_list !! Z.to_nat m).
    { unfold Messages_get. rewrite (proj2 (Z.eqb_neq _ _) Hv). destruct Hm as [->|[->|[-> _]]]; reflexivity. }
    rewrite Hg. destruct Hm as [->|[->|[-> [r ->]]]].
    + destruct (has_rc e =? 1); by eexists.
    + destruct (has_rc e =? 1); by eexists.
    + destruct Hrc as [-> _]. by eexists.
Qed.

(** The queue is allocated, of the size that is asked for, and holds [l]. *)
Definition ring_holds (s : state) (l : list traceEntry) : Prop :=
  ∃ q, trace_queue s = QRing q ∧ trace_queue_size s = max_trace_entries (trace_settings s) ∧ 0 < trace_queue_size s ∧
    ring_of (Z.to_nat (trace_queue_size s)) q (start_index s) (next_index s) l.
Definition same_ring (s s' : state) : Prop :=
  trace_settings s' = trace_settings s ∧ trace_queue s' = trace_queue s ∧ trace_queue_size s' = trace_queue_size s ∧
  start_index s' = start_index s ∧ next_index s' = next_index s.
Lemma same_holds s s' l : same_ring s s' → ring_holds s l → ring_holds s' l.
Proof. intros (H1 & H2 & H3 & H4 & H5) (q & Hq). exists q. by rewrite H1, H2, H3, H4, H5. Qed.

Lemma bind_runs {A B} (f : io (option Z)) (g : option Z → io A) (h : A → io B) s Q (Q' : B → state → list (Z * list Z) → Prop) :
  (∀ e s' ev, Q e s' ev → runs (h e) s' (λ x s2 ev2, Q' x s2 (ev ++ ev2))) →
  runs (cur ← f; g cur) s Q → runs (cur ← f; e ← g cur; h e) s Q'.
Proof.
  intros H. unfold runs, mbind, emitting_bind. destruct (f s) as [[[o s1] ev1]|]; [|done]. destruct (g o s1) as [[[e s2] ev2]|]; [|done].
  intros H1%H. unfold runs in H1. destruct (h e s2) as [[[x s3] ev3]|]; [|done]. by rewrite (assoc_L (++)).
Qed.
Lemma output_runs r v msg s : runs (Log_output r v msg) s (λ _ s' _, same_ring s s').
Proof.
  unfold Log_output, the_state, put. apply runs_bind. cbn. apply runs_bind. cbn.
  destruct (trace_callback s); cbn; destruct (trace_destination s); try done; by destruct (_ <=? _).
Qed.
Lemma posttrace_runs r v e s : is_Some (Log_formatTraceEntry strftime e) → runs (Log_posttrace strftime r v e) s (λ _ s' _, same_ring s s').
Proof.
  intros [t Ht]. unfold Log_posttrace. apply runs_bind. cbn. destruct (if _ =? _ then _ else _); [|done]. destruct (_ && _); [done|].
  apply runs_bind. rewrite Ht. cbn. apply output_runs.
Qed.
(** The new entry. *)
Lemma record_runs t r (f : state → traceEntry → traceEntry) s l : ring_holds s l →
  runs (cur ← Log_pretrace t r; write_entry cur f) s (λ e s' _,
    (∃ s0 e0, e = f s0 e0) ∧ trace_settings s' = trace_settings s ∧ ring_holds s' (lastn (Z.to_nat (max_trace_entries (trace_settings s))) (l ++ [e]))).
Proof.
  intros (q & Hq & Hsize & Hpos & Hring). unfold Log_pretrace. apply runs_bind, runs_bind. cbn.
  set (s1 := if _ =? 0 then _ else _).
  assert (H1 : same_ring s s1) by (subst s1; repeat case_match; done). destruct H1 as (E1 & E2 & E3 & E4 & E5).
  apply runs_bind. unfold resize. rewrite E3, E1, Hsize, Z.eqb_refl. cbn. apply runs_bind. cbn. rewrite E1, E2, E3, E4, E5, Hq, Hsize.
  unfold write_entry. apply runs_bind. cbn. destruct (_ && _) eqn:Hin.
  - set (e := f _ _). apply runs_bind. cbn. split; [by eexists _, _|]. split; [done|]. rewrite <-Hsize in *.
    destruct (ring_step _ _ _ _ _ e Hring) as [_ Hnew]. unfold next_start, next_next in Hnew. rewrite Z2Nat.id in Hnew by lia.
    eexists. split; [reflexivity|]. cbn. by rewrite E1.
  - destruct (ring_step _ _ _ _ _ blank Hring) as [Hn _]. lia.
Qed.

Lemma trace_runs w v buf s l : ring_holds s l →
  runs (Log_trace strftime w v buf) s (λ _ s' _, trace_settings s' = trace_settings s ∧
    ∃ e, has_rc e = 2 ∧ name e = take 256 buf ∧ ring_holds s' (lastn (Z.to_nat (max_trace_entries (trace_settings s))) (l ++ [e]))).
Proof.
  intros H. pose proof H as (q & Hq & _). unfold Log_trace. apply runs_bind. cbn. rewrite Hq.
  eapply bind_runs, (record_runs (clock w) (room w) _ s l H).
  intros e s1 _ ((s0 & e0 & ->) & Hs & Hr). set (e := mkEntry _ _ _ _ _ _ _ _ _ _) in *.
  eapply runs_mono; [apply posttrace_runs; by eexists|]. intros ? s2 ? Hs2. pose proof Hs2 as [Hs2' _]. split; [congruence|].
  exists e. split; [done|]. split; [done|]. apply (same_holds _ _ _ Hs2 Hr).
Qed.
Lemma call_runs c s l : ring_holds s l → (recorded (trace_level (trace_settings s)) c → printable c) →
  runs (do_call c) s (λ _ s' _, trace_settings s' = trace_settings s ∧
    (if decide (recorded (trace_level (trace_settings s)) c)
     then ∃ e, entry_of c e ∧ ring_holds s' (lastn (Z.to_nat (max_trace_entries (trace_settings s))) (l ++ [e])) else ring_holds s' l)).
Proof.
  intros H Hp. pose proof H as (q & Hq & _). destruct c as [w v m format args|w v m thread d fname fline prc]; cbn [do_call].
  - unfold Log. apply runs_bind. cbn. unfold recorded in *. cbn [level_of_call] in *. case_decide as Hv; case_leb; [|done].
    destruct (Hp Hv) as [t Ht]. apply runs_bind. eapply runs_lift; [exact Ht|]. cbn.
    eapply runs_mono; [by apply trace_runs|]. intros ? s' ? (Hs & e & He & Hn & Hr). split; [done|]. exists e. split; [by exists t|done].
  - unfold Log_stackTrace. apply runs_bind. cbn. rewrite Hq. unfold recorded in *. cbn [level_of_call] in *. destruct (Z.ltb_spec v (trace_level (trace_settings s))); case_decide as Hv; try lia; [done|].
    pose proof (Hp Hv) as (_ & Hlen & _). apply runs_bind. case_leb. cbn.
    eapply bind_runs, (record_runs (clock w) (room w) _ s l H).
    intros e s1 _ ((s0 & e0 & ->) & Hs & Hr). match goal with |- context [Log_posttrace _ _ _ ?x] => set (e := x) in * end.
    assert (He : entry_of (CallTrace w v m thread d fname fline prc) e) by (subst e; by destruct prc).
    eapply runs_mono; [apply posttrace_runs; exact (entry_formats _ _ (Hp Hv) He)|]. intros ? s2 ? Hs2. pose proof Hs2 as [Hs2' _].
    split; [congruence|]. exists e. split; [done|]. apply (same_holds _ _ _ Hs2 Hr).
Qed.

(** C15: the log holds the last entries: after any calls of [Log] and of
    [Log_stackTrace], whatever their times and files, of which those that reach
    the level can be printed, none writes out of the queue, and the queue holds
    the last [max_trace_entries] of what it held and of the entries, in order, of
    the calls that reach the level.  The queue is allocated with that size.  A call
    of [Log] can be printed if its text is found and has the inserts it asks for;
    one of the stack trace if it has message 9 or 10, or 11 with a result, a level
    other than PROTOCOL, and a function name of at most 256 bytes, since a longer
    one is copied over the end of the entry (see the findings). *)
Theorem trace_keeps_last cs s l : ring_holds s l → Forall (λ c, recorded (trace_level (trace_settings s)) c → printable c) cs →
  runs (each do_call cs) s (λ _ s' _, trace_settings s' = trace_settings s ∧
    ∃ es, Forall2 entry_of (filter (recorded (trace_level (trace_settings s))) cs) es ∧
      ring_holds s' (lastn (Z.to_nat (max_trace_entries (trace_settings s))) (l ++ es))).
Proof.
  revert s l. induction cs as [|c cs IH]; intros s l H Hp; cbn [each].
  - cbn. split; [done|]. exists []. split; [constructor|]. rewrite app_nil_r, lastn_all; [done|]. destruct H as (q & _ & <- & _ & H). apply H.
  - apply Forall_cons in Hp as [Hp Hps]. apply runs_bind. eapply runs_mono; [by apply call_runs|]. intros ? s1 ? [Hs Hr].
    assert (IH' := IH s1). rewrite Hs in IH'. rewrite filter_cons. case_decide as Hc.
    + destruct Hr as (e & He & Hr). eapply runs_mono; [by eapply IH'|]. intros ? s2 ? (Hs2 & es & Hes & Hr2). split; [done|]. exists (e :: es).
      split; [by constructor|]. by rewrite lastn_app, <-(assoc_L (++)) in Hr2.
    + by apply IH'.
Qed.
End Calls.

(** ** The trace file *)

(** The lines written so far that the file has when it is renamed after every [n]
    lines, and those of the backup. *)
Definition in_file {A} (n : nat) (all : list A) : list A := drop (n * (length all / n)) all.
Definition in_backup {A} (n : nat) (all : list A) (before : list A) : list A :=
  if (length all <? n)%nat then before else take n (drop (n * (length all / n - 1)) all).
Lemma in_file_step {A} n (b all : list A) : length b = n → (0 < n)%nat → in_file n (b ++ all) = in_file n all.
Proof.
  intros Hb Hn. unfold in_file. rewrite length_app, Hb. replace (n + length all)%nat with (length all + 1 * n)%nat by lia.
  rewrite Nat.div_add, Nat.mul_add_distr_l, Nat.mul_1_r, (Nat.add_comm _ n), <-drop_drop by lia. by rewrite drop_app_length'.
Qed.
Lemma in_backup_step {A} n (b all before : list A) : length b = n → (0 < n)%nat → in_backup n (b ++ all) before = in_backup n all b.
Proof.
  intros Hb Hn. unfold in_backup. rewrite length_app, Hb. rewrite (proj2 (Nat.ltb_ge _ _)) by lia.
  replace (n + length all)%nat with (length all + 1 * n)%nat by lia. rewrite Nat.div_add by lia.
  destruct (Nat.ltb_spec (length all) n) as [Hs|Hs].
  - rewrite Nat.div_small by done. cbn. rewrite Nat.mul_0_r, drop_0, <-Hb. apply take_app_length.
  - assert (1 ≤ length all / n)%nat by (apply Nat.div_le_lower_bound; lia).
    replace (length all / n + 1 - 1)%nat with (length all / n - 1 + 1)%nat by lia.
    by rewrite Nat.mul_add_distr_l, Nat.mul_1_r, (Nat.add_comm _ n), <-drop_drop, drop_app_length'.
Qed.

(** The trace file rotates: after any messages the file holds the lines since the
    last time it was full, fewer than [max_lines_per_file], and the backup holds the
    [max_lines_per_file] lines before them, if there were as many; no line is lost
    but those of older backups, and the callback gets each message once, in order. *)
Theorem Log_output_rotates v ms s : trace_destination s = File → lines_written s = len (file_lines s) → len (file_lines s) < max_lines_per_file s →
  let n := Z.to_nat (max_lines_per_file s) in
  runs (each (Log_output true v) ms) s (λ _ s' ev,
    file_lines s' = in_file n (file_lines s ++ ms) ∧ backup_lines s' = in_backup n (file_lines s ++ ms) (backup_lines s) ∧
    lines_written s' = len (file_lines s') ∧ trace_destination s' = File ∧ stdout_lines s' = stdout_lines s ∧
    ev = if trace_callback s then (λ m, (v, m)) <$> ms else []).
Proof.
  intros Hd Hl Hm n. assert (Hn : (0 < n)%nat) by lia. revert s Hd Hl Hm n Hn. induction ms as [|m ms IH]; intros s Hd Hl Hm n Hn; cbn [each].
  - cbn. rewrite app_nil_r. unfold in_file, in_backup. rewrite Nat.div_small, Nat.mul_0_r by lia. rewrite (proj2 (Nat.ltb_lt _ _)) by lia.
    by destruct (trace_callback s).
  - apply runs_bind. unfold Log_output at 1. apply runs_bind. cbn. apply runs_bind. cbn. rewrite Hd. set (s1 := if _ <=? _ then _ else _).
    assert (Hev : runs (if trace_callback s then emits [(v, m)] else mret ()) s1 (λ _ s' ev, s' = s1 ∧ ev = if trace_callback s then [(v, m)] else []))
      by (by destruct (trace_callback s)).
    assert (H1 : max_lines_per_file s1 = max_lines_per_file s ∧ trace_callback s1 = trace_callback s ∧ stdout_lines s1 = stdout_lines s ∧ trace_destination s1 = File ∧
      lines_written s1 = len (file_lines s1) ∧ len (file_lines s1) < max_lines_per_file s ∧
      in_file n (file_lines s ++ m :: ms) = in_file n (file_lines s1 ++ ms) ∧
      in_backup n (file_lines s ++ m :: ms) (backup_lines s) = in_backup n (file_lines s1 ++ ms) (backup_lines s1)).
    { rewrite (cons_middle m), (assoc_L (++)). subst s1. destruct (Z.leb_spec (max_lines_per_file s) (lines_written s + 1)); cbn;
        rewrite ?length_app; cbn; repeat (split; [done || lia|]).
      - split; [apply in_file_step|apply in_backup_step]; rewrite ?length_app; cbn; lia.
      - done. }
    destruct H1 as (E1 & E2 & E3 & E4 & E5 & E6 & E7 & E8). clearbody s1. eapply runs_mono; [exact Hev|]. cbn. intros ? s2 ? [-> ->].
    eapply runs_mono; [apply (IH s1); rewrite ?E1; done|]. cbn. rewrite E1, E2, E3. fold n. rewrite E7, E8.
    intros ? s' ? (-> & -> & -> & -> & -> & ->). repeat (split; [done|]). by destruct (trace_callback s).
Qed.
Definition to_file : state := mkState (mkSettings 3 400) QNull 0 (-1) 0 File 0 2 3 true 0 0 0 [] [] [].
Lemma Log_output_rotates_witness : ∃ s', each (Log_output true 3) [[65]; [66]; [67]; [68]; [69]] to_file = Some ((), s', (λ m, (3, m)) <$> [[65]; [66]; [67]; [68]; [69]]) ∧
  file_lines s' = [[69]] ∧ backup_lines s' = [[67]; [68]].
Proof.
  destruct (runs_some _ _ _ (Log_output_rotates 3 [[65]; [66]; [67]; [68]; [69]] to_file eq_refl eq_refl eq_refl)) as ([] & s' & ev & Hr & Hf & Hb & _ & _ & _ & Hev).
  exists s'. rewrite Hr, Hf, Hb, Hev. split; [reflexivity|]. split; reflexivity.
Defined.
Definition empty_ring : state := mkState (mkSettings 3 2) (QRing [None; None]) 2 (-1) 0 NoDestination 0 2 (-1) false 0 0 0 [] [] [].
Definition three_calls (w : meets) : list call :=
  [CallTrace w 3 9 7 0 (bs "ListFind") 60 None; CallTrace w 1 9 7 1 (bs "ListFind") 61 None; CallLog w 5 (-1) (Some (bs "rc %d")) [ANumber (-1)]; CallTrace w 3 11 7 0 (bs "ListFind") 62 (Some 4)].
Lemma trace_keeps_last_witness : ∃ s' ev e1 e2, each (do_call (λ _, bs "20260101 000000")) (three_calls (mkMeets 5 true true)) empty_ring = Some ((), s', ev) ∧
  ring_holds s' [e1; e2] ∧ name e1 = bs "rc -1" ∧ (number e2, line e2, rc e2) = (11, 62, 4).
Proof.
  assert (H0 : ring_holds empty_ring []).
  { exists [None; None]. split; [reflexivity|]. split; [reflexivity|]. split; [reflexivity|]. split; [reflexivity|]. split; [cbn; lia|]. split; [cbn; lia|].
    exists O. split; [cbn; lia|]. split; [split; reflexivity|]. split; [reflexivity|]. intros k e Hk. rewrite lookup_nil in Hk. discriminate Hk. }
  assert (Hp : Forall (λ c, recorded 3 c → printable c) (three_calls (mkMeets 5 true true))).
  { apply Forall_forall. intros c Hc _. unfold three_calls in Hc. repeat (apply elem_of_cons in Hc as [->|Hc]);
      first [by eexists|split; [done|]; split; [vm_compute; discriminate|by auto]|idtac].
    by apply not_elem_of_nil in Hc. }
  destruct (runs_some _ _ _ (trace_keeps_last (λ _, bs "20260101 000000") _ empty_ring [] H0 Hp)) as ([] & s' & ev & Hr & _ & es & Hes & Hh).
  exists s', ev. change (filter _ _) with (filter (recorded 3) (three_calls (mkMeets 5 true true))) in Hes.
  assert (Hfl : filter (recorded 3) (three_calls (mkMeets 5 true true)) =
    [CallTrace (mkMeets 5 true true) 3 9 7 0 (bs "ListFind") 60 None; CallLog (mkMeets 5 true true) 5 (-1) (Some (bs "rc %d")) [ANumber (-1)];
     CallTrace (mkMeets 5 true true) 3 11 7 0 (bs "ListFind") 62 (Some 4)]) by reflexivity.
  rewrite Hfl in Hes. apply Forall2_cons_inv_l in Hes as (e0 & es1 & _ & Hes & ->). apply Forall2_cons_inv_l in Hes as (e1 & es2 & He1 & Hes & ->).
  apply Forall2_cons_inv_l in Hes as (e2 & es3 & He2 & Hes & ->). apply Forall2_nil_inv_l in Hes as ->. exists e1, e2. split; [exact Hr|]. split; [exact Hh|]. destruct He1 as (t & Ht & _ & ->). vm_compute in Ht. injection Ht as <-.
  split; [reflexivity|]. destruct He2 as (-> & _ & _ & _ & -> & _ & _ & ->). reflexivity.
Defined.

(** ** What goes wrong *)

(** The queue is made shorter: an index one past the end is kept, and the next entry
    is written after the end of the queue. *)
Definition shorter : state := mkState (mkSettings 3 4) (QRing (replicate 8 (Some blank))) 8 0 5 NoDestination 0 2 (-1) false 0 0 0 [] [] [].
Example Log_pretrace_past_the_end : (λ r, r.1.1) <$> Log_pretrace 5 true shorter = Some (Some 5) ∧
  Log_trace (λ _, []) (mkMeets 5 true true) 5 (bs "x") shorter = None.
Proof. split; reflexivity. Qed.
(** There is no memory for another queue: the entry is written at NULL. *)
Example Log_trace_without_memory : Log_trace (λ _, []) (mkMeets 5 false true) 5 (bs "x") shorter = None.
Proof. reflexivity. Qed.
(** The names cannot be allocated: the queue is freed, and used by the next call. *)
Example Log_initialize_frees :
  let e := mkEnvironment (Some (bs "trace.txt")) None None true true false true None in
  ∃ s, Log_initialize e true [] initial = Some (-1, s, []) ∧ Log_trace (λ _, []) (mkMeets 5 true true) 5 (bs "x") s = None.
Proof. eexists. split; reflexivity. Qed.
(** A counter of five digits hides the text. *)
Example Log_formatTraceEntry_hides : Log_formatTraceEntry (λ _, bs "20260101 000000") (mkEntry 0 9999 0 0 0 (bs "x") 0 2 0 0) = Some (bs "20260101 000000.000 x") ∧
  Log_formatTraceEntry (λ _, bs "20260101 000000") (mkEntry 0 10000 0 0 0 (bs "x") 0 2 0 0) = Some [].
Proof. split; reflexivity. Qed.
End LogSpec.

Module StackSpec.
Import Messages StackTrace.

(** ** What is promised

    The calls that are open in each thread that has made one. *)

Abbreviation open_map := (gmap Z (list (list Z * Z))).
Inductive step := Enter (t : Z) (name : list Z) (line level : Z) | Leave (t : Z) (name : list Z) (line : Z) (rc : option Z) (level : Z).
Definition do_step (c : step) : io () :=
  match c with Enter t name line level => StackTrace_entry t name line level | Leave t name line rc level => StackTrace_exit t name line rc level end.
Definition tell (level msgno t d : Z) (name : list Z) (line : Z) (rc : option Z) : list event :=
  if level =? -1 then [] else [ETrace level msgno (s32 t) d name line rc].
(** Entering opens a call, leaving closes the last one, which has the same name; a
    256th thread is not followed; [None] when the depth would be 50 or the names
    differ. *)
Definition spec_step (c : step) (m : open_map) : option (open_map * list event) :=
  match c with
  | Enter t name line level =>
      match m !! t, bool_decide (size m < 255)%nat with
      | None, false => Some (m, [])
      | o, _ => let st := default [] o in
          if (length st <? 49)%nat then Some (<[t := (kept name, line) :: st]> m, tell level 9 t (len st) name line None) else None
      end
  | Leave t name line rc level =>
      match m !! t with
      | None => Some (m, [])
      | Some [] => None
      | Some (e :: st) =>
          if bool_decide (e.1 = kept name) then Some (<[t := st]> m, tell level (match rc with None => 10 | Some _ => 11 end) t (len st) name line rc) else None
      end
  end.
Fixpoint spec_run (cs : list step) (m : open_map) : option (open_map * list event) :=
  match cs with
  | [] => Some (m, [])
  | c :: cs' => '(m1, ev1) ← spec_step c m; '(m2, ev2) ← spec_run cs' m1; Some (m2, ev1 ++ ev2)
  end.

(** ** The threads *)

Definition thread_ok (t : threadEntry) : Prop := length (callstack t) = 50%nat ∧ 0 ≤ current_depth t < 50.
Definition threads_ok (s : threads) : Prop := NoDup (id <$> s) ∧ Forall thread_ok s ∧ (length s ≤ 255)%nat.
Definition model (s : threads) : open_map := list_to_map ((λ t, (id t, open_calls t)) <$> s).

Lemma thread_at_spec c s : match thread_at c s with Some i => ∃ t, s !! i = Some t ∧ id t = c | None => c ∉ id <$> s end.
Proof.
  induction s as [|t s IH]; cbn; [by apply not_elem_of_nil|]. destruct (Z.eqb_spec (id t) c) as [<-|Hne]; [by exists t|].
  destruct (thread_at c s) as [i|]; [done|]. cbn. by apply not_elem_of_cons.
Qed.
Lemma thread_at_insert c s i t t' : s !! i = Some t → id t' = id t → thread_at c (<[i := t']> s) = thread_at c s.
Proof. revert i. induction s as [|t0 s IH]; intros [|i] Hi He; cbn in *; [done|done|by injection Hi as <-; rewrite He|by rewrite IH]. Qed.
Lemma model_lookup c s : model s !! c = match thread_at c s with Some i => open_calls <$> s !! i | None => None end.
Proof.
  unfold model. induction s as [|t s IH]; cbn; [apply lookup_empty|]. destruct (Z.eqb_spec (id t) c) as [<-|Hne]; [apply lookup_insert_eq|].
  rewrite lookup_insert_ne by done. rewrite IH. by destruct (thread_at c s).
Qed.
Lemma model_size s : NoDup (id <$> s) → size (model s) = length s.
Proof. intros H. unfold model. rewrite map_size_list_to_map; [by rewrite length_fmap|]. by rewrite <-list_fmap_compose. Qed.
Lemma model_insert s i t t' : thread_at (id t) s = Some i → s !! i = Some t → id t' = id t → model (<[i := t']> s) = <[id t := open_calls t']> (model s).
Proof.
  intros Hi Hs He. apply map_eq. intros c. rewrite model_lookup, (thread_at_insert _ _ _ _ _ Hs He). destruct (decide (c = id t)) as [->|Hne].
  - rewrite Hi, lookup_insert_eq, list_lookup_insert_eq; [done|by eapply lookup_lt_Some].
  - rewrite lookup_insert_ne, model_lookup by done. destruct (thread_at c s) as [j|] eqn:Hj; [|done].
    pose proof (thread_at_spec c s) as Ht. rewrite Hj in Ht. destruct Ht as (tj & Htj & <-). rewrite list_lookup_insert_ne; [done|]. congruence.
Qed.
Lemma ok_insert s i t t' : threads_ok s → s !! i = Some t → id t' = id t → thread_ok t' → threads_ok (<[i := t']> s).
Proof.
  intros (Hn & Hf & Hl) Hi He Ht. split; [|split].
  - rewrite list_fmap_insert, He, list_insert_id; [done|]. by rewrite list_lookup_fmap, Hi.
  - by apply Forall_insert.
  - by rewrite length_insert.
Qed.

(** ** The place of a thread *)

Lemma setStack_found c b s i : thread_at c s = Some i → setStack c b s = Some (Some i, s, []).
Proof. intros H. unfold setStack, the_threads, mbind, emitting_bind. cbn. by rewrite H. Qed.
Lemma setStack_new c s : threads_ok s → thread_at c s = None → (length s < 255)%nat →
  ∃ t, setStack c true s = Some (Some (length s), s ++ [t], []) ∧ id t = c ∧ thread_ok t ∧ current_depth t = 0 ∧ threads_ok (s ++ [t]) ∧
    thread_at c (s ++ [t]) = Some (length s) ∧ model (s ++ [t]) = <[c := []]> (model s).
Proof.
  intros (Hn & Hf & Hl) Hc Hlt. pose proof (thread_at_spec c s) as Hni. rewrite Hc in Hni.
  unfold setStack, the_threads, mbind, emitting_bind. cbn. rewrite Hc. unfold MAX_THREADS. case_leb. cbn. set (t := mkThread _ _ _ _). exists t.
  assert (Hok : thread_ok t) by done. split; [done|]. split; [done|]. split; [done|]. split; [done|].
  assert (Hat : ∀ c', thread_at c' (s ++ [t]) = match thread_at c' s with Some i => Some i | None => if c =? c' then Some (length s) else None end).
  { intros c'. change c with (id t). clear. clearbody t. induction s as [|t0 s IH]; cbn; [by destruct (id t =? c')|]. destruct (id t0 =? c'); [done|].
    rewrite IH. by destruct (thread_at c' s), (id t =? c'). }
  split.
  - split; [|split].
    + rewrite fmap_app. apply NoDup_app. split; [done|]. split; [|apply NoDup_singleton]. intros x Hx ->%list_elem_of_singleton. done.
    + by apply Forall_app_2; [|repeat constructor].
    + rewrite length_app. cbn. lia.
  - split; [by rewrite Hat, Hc, Z.eqb_refl|]. apply map_eq. intros c'. rewrite model_lookup, Hat. destruct (decide (c' = c)) as [->|Hne].
    + by rewrite Hc, Z.eqb_refl, lookup_insert_eq, list_lookup_middle.
    + rewrite lookup_insert_ne, model_lookup by done. pose proof (thread_at_spec c' s) as Ht. destruct (thread_at c' s) as [i|].
      * destruct Ht as (t' & Ht & _). by rewrite lookup_app_l by (by eapply lookup_lt_Some).
      * by case_leb.
Qed.

(** ** The calls *)

Lemma open_length t : thread_ok t → len (open_calls t) = current_depth t.
Proof. intros [Hc Hd]. unfold open_calls. rewrite length_reverse, length_take. lia. Qed.
Lemma open_enter t e d m : thread_ok t → current_depth t = d →
  open_calls (mkThread (id t) m (d + 1) (<[Z.to_nat d := e]> (callstack t))) = e :: open_calls t.
Proof.
  intros [Hc Hd] <-. unfold open_calls. cbn. replace (Z.to_nat (current_depth t + 1)) with (S (Z.to_nat (current_depth t))) by lia.
  erewrite take_S_r; [|apply list_lookup_insert_eq; lia]. by rewrite take_insert_ge, reverse_snoc by lia.
Qed.
Lemma open_leave t e st m : thread_ok t → open_calls t = e :: st →
  callstack t !! Z.to_nat (current_depth t - 1) = Some e ∧ 1 ≤ current_depth t ∧ current_depth t - 1 = len st ∧
  open_calls (mkThread (id t) m (current_depth t - 1) (callstack t)) = st.
Proof.
  intros Hok Ho. pose proof (open_length t Hok) as Hlen. rewrite Ho in Hlen. cbn [length] in Hlen. destruct Hok as [Hc Hd].
  assert (Hlt : (Z.to_nat (current_depth t - 1) < length (callstack t))%nat) by lia. destruct (lookup_lt_is_Some_2 _ _ Hlt) as [e' He'].
  unfold open_calls in *. replace (Z.to_nat (current_depth t)) with (S (Z.to_nat (current_depth t - 1))) in Ho by lia.
  rewrite (take_S_r _ _ _ He'), reverse_snoc in Ho. injection Ho as -> Ho. split; [done|]. split; [lia|]. split; [lia|done].
Qed.
Lemma traced_runs level msgno t d name line rc s : runs (traced level msgno t d name line rc) s (λ _ s' ev, s' = s ∧ ev = tell level msgno (id t) d name line rc).
Proof. unfold traced, tell. by destruct (level =? -1). Qed.

(** A call of a thread that has a place. *)
Lemma enter_runs c s0 s i t name line level : setStack c true s0 = Some (Some i, s, []) → threads_ok s → thread_at c s = Some i → s !! i = Some t → id t = c →
  current_depth t < 49 →
  runs (StackTrace_entry c name line level) s0 (λ _ s' ev, threads_ok s' ∧ model s' = <[c := (kept name, line) :: open_calls t]> (model s) ∧
    ev = tell level 9 c (current_depth t) name line None).
Proof.
  intros H0 Hok Hi Ht <- Hd. pose proof Hok as (_ & Hf & _). pose proof (Forall_lookup_1 _ _ _ _ Hf Ht) as Htk. pose proof Htk as [Hc Hd0].
  unfold StackTrace_entry. apply runs_bind. unfold runs at 1. rewrite H0. cbn. apply runs_bind. cbn. apply runs_bind. eapply runs_lift; [exact Ht|]. cbn.
  apply runs_bind. eapply runs_mono; [apply traced_runs|]. cbn. intros ? ? ev [-> ->]. unfold MAX_STACK_DEPTH. case_leb. cbn.
  apply runs_bind. cbn. apply runs_bind. cbn. unfold fatal. set (t' := mkThread _ _ _ _). assert (Ht' : thread_ok t') by (split; cbn; [by rewrite length_insert|lia]).
  rewrite app_nil_r. split; [by eapply ok_insert|]. split; [|done]. erewrite model_insert; [|done..]. f_equal. by apply open_enter.
Qed.
Lemma leave_runs c s i t e st name line rc level : threads_ok s → thread_at c s = Some i → s !! i = Some t → id t = c → open_calls t = e :: st → e.1 = kept name →
  runs (StackTrace_exit c name line rc level) s (λ _ s' ev, threads_ok s' ∧ model s' = <[c := st]> (model s) ∧
    ev = tell level (match rc with None => 10 | Some _ => 11 end) c (len st) name line rc).
Proof.
  intros Hok Hi Ht <- Ho He. pose proof Hok as (_ & Hf & _). pose proof (Forall_lookup_1 _ _ _ _ Hf Ht) as Htk.
  destruct (open_leave t e st (maxdepth t) Htk Ho) as (Hl & Hd1 & Hlen & Ho'). destruct Htk as [Hc Hd].
  unfold StackTrace_exit. apply runs_bind. unfold runs at 1. rewrite (setStack_found _ _ _ _ Hi). apply runs_bind. cbn. apply runs_bind. eapply runs_lift; [exact Ht|].
  apply runs_bind. cbn. set (t' := mkThread _ _ _ _). apply runs_bind. unfold fatal at 1, MAX_STACK_DEPTH. case_leb. cbn. apply runs_bind.
  eapply runs_lift; [exact Hl|]. apply runs_bind. rewrite He. rewrite bool_decide_true by done. cbn. eapply runs_mono; [apply traced_runs|]. cbn. intros ? ? ev [-> ->].
  split; [eapply ok_insert; [done..|]; split; cbn; lia|]. split; [|by rewrite Hlen]. erewrite model_insert; [|done..]. by rewrite <-Ho'.
Qed.
Lemma step_runs c s m ev : threads_ok s → spec_step c (model s) = Some (m, ev) → runs (do_step c) s (λ _ s' ev', threads_ok s' ∧ model s' = m ∧ ev' = ev).
Proof.
  intros Hok. pose proof Hok as (Hn & Hf & Hl). destruct c as [c name line level|c name line rc level]; cbn [do_step spec_step]; rewrite model_lookup; 
    pose proof (thread_at_spec c s) as Hat; destruct (thread_at c s) as [i|] eqn:Hi.
  - destruct Hat as (t & Ht & Hid). rewrite Ht. cbn. pose proof (open_length t (Forall_lookup_1 _ _ _ _ Hf Ht)) as Hlen.
    destruct (Nat.leb_spec (length (open_calls t)) 48); [|done]. intros [= <- <-]. rewrite Hlen.
    eapply enter_runs; [by apply setStack_found|done..|lia].
  - rewrite model_size by done. case_bool_decide as Hlt; cbn.
    + intros [= <- <-]. destruct (setStack_new c s Hok Hi Hlt) as (t & Hs & Hid & Htk & Hd & Hok' & Hat' & Hm).
      eapply runs_mono; [eapply enter_runs; [exact Hs|exact Hok'|done|by rewrite list_lookup_middle|done|lia]|]. cbn. intros ? s' ? (? & -> & ->). split; [done|].
      rewrite Hm, insert_insert_eq, Hd. split; [|done]. f_equal. pose proof (open_length t Htk) as H0. rewrite Hd in H0. by destruct (open_calls t).
    + intros [= <- <-]. unfold StackTrace_entry. apply runs_bind. unfold setStack. apply runs_bind. cbn. rewrite Hi. unfold MAX_THREADS. case_leb. done.
  - destruct Hat as (t & Ht & Hid). rewrite Ht. cbn. destruct (open_calls t) as [|e st] eqn:Ho; [done|]. case_bool_decide as He; [|done]. intros [= <- <-].
    by eapply leave_runs.
  - intros [= <- <-]. unfold StackTrace_exit. apply runs_bind. unfold setStack. apply runs_bind. cbn. by rewrite Hi.
Qed.
Lemma runs_steps cs s m ev : threads_ok s → spec_run cs (model s) = Some (m, ev) → runs (each do_step cs) s (λ _ s' ev', threads_ok s' ∧ model s' = m ∧ ev' = ev).
Proof.
  revert s m ev. induction cs as [|c cs IH]; intros s m ev Hok; cbn [spec_run each]; [by intros [= <- <-]|].
  destruct (spec_step c (model s)) as [[m1 ev1]|] eqn:H1; [|done]. cbn. destruct (spec_run cs m1) as [[m2 ev2]|] eqn:H2; [|done]. intros [= <- <-].
  apply runs_bind. eapply runs_mono; [by apply step_runs|]. cbn. intros ? s1 ? (Hok1 & <- & ->). eapply runs_mono; [by apply IH|]. cbn. by intros ? s2 ? (? & ? & ->).
Qed.

(** C14: the stacks follow the calls: from the start, whatever calls of any threads are
    entered and left, if each call that is left is the last one its thread entered and
    none is the 50th of its thread, nothing is written outside of the tables, no
    message about a stack is logged, each entry and exit is traced with its depth, and
    the stack of each of the first 255 threads is that of its open calls. *)
Theorem StackTrace_follows cs m ev : spec_run cs ∅ = Some (m, ev) →
  ∃ s, each do_step cs [] = Some ((), s, ev) ∧ threads_ok s ∧ ∀ t, open_calls <$> (thread_at t s ≫= λ i, s !! i) = m !! t.
Proof.
  intros H. assert (Hok : threads_ok []) by (split; [constructor|split; [constructor|cbn; lia]]).
  destruct (runs_some _ _ _ (runs_steps cs [] m ev Hok H)) as ([] & s & ev' & Hr & Hok' & <- & ->). exists s. split; [done|]. split; [done|].
  intros t. rewrite model_lookup. by destruct (thread_at t s).
Qed.
Definition noted : list Z := bs "MQTTProtocol_assignMsgId".
Lemma StackTrace_follows_witness : ∃ m ev s, spec_run [Enter 7 noted 40 3; Enter 9 noted 50 (-1); Enter 7 (bs "ListFind") 60 (-1); Leave 7 (bs "ListFind") 70 (Some 1) 1] ∅ = Some (m, ev) ∧
  each do_step [Enter 7 noted 40 3; Enter 9 noted 50 (-1); Enter 7 (bs "ListFind") 60 (-1); Leave 7 (bs "ListFind") 70 (Some 1) 1] [] = Some ((), s, ev) ∧
  open_calls <$> (thread_at 7 s ≫= λ i, s !! i) = Some [(noted, 40)].
Proof.
  destruct (spec_run [Enter 7 noted 40 3; Enter 9 noted 50 (-1); Enter 7 (bs "ListFind") 60 (-1); Leave 7 (bs "ListFind") 70 (Some 1) 1] ∅) as [[m ev]|] eqn:H; [|discriminate H].
  destruct (StackTrace_follows _ m ev H) as (s & Hs & _ & Ht). exists m, ev, s. split; [reflexivity|]. split; [exact Hs|].
  rewrite (Ht 7). clear -H. vm_compute in H. injection H as <- _. reflexivity.
Defined.

(** ** The text of a stack *)

Definition text_lines (l : list (list Z)) : list Z := concat ((λ x, x ++ [10]) <$> l).
Lemma get_lines_fit bufsize l text : len text + len (text_lines l) ≤ bufsize - 2 →
  get_lines bufsize (len text) text l = Some (len text + len (text_lines l), text ++ text_lines l).
Proof.
  revert text. induction l as [|x l IH]; intros text Hfit; cbn [get_lines text_lines fmap list_fmap concat]; [by rewrite Z.add_0_r, app_nil_r|].
  unfold text_lines in *. cbn in Hfit. rewrite !length_app in Hfit. cbn [length] in Hfit. case_leb. rewrite take_ge by (rewrite length_app; cbn; lia).
  replace (len text + len (x ++ [10])) with (len (text ++ x ++ [10])) by (rewrite length_app; lia).
  rewrite IH by (rewrite !length_app; cbn; lia). f_equal. f_equal; [rewrite !length_app; lia|by rewrite <-!(assoc_L (++))].
Qed.
Lemma text_lines_last x l : ∃ t, text_lines (x :: l) = t ++ [10].
Proof.
  unfold text_lines. revert x. induction l as [|y l IH]; intros x; cbn; [by exists x; rewrite app_nil_r|].
  destruct (IH y) as [t Ht]. cbn in Ht. rewrite Ht. exists ((x ++ [10]) ++ t). by rewrite <-!(assoc_L (++)).
Qed.

(** The stack of a thread as text: the lines of its open calls, the last one
    first, each but the last ended by a new line, when they fit with two bytes to
    spare; nothing when no call is open or the thread is not known. *)
Theorem StackTrace_get_text tid bufsize buf s : 100 ≤ bufsize → let st := default [] (model s !! tid) in len (text_lines (stack_lines st)) ≤ bufsize - 2 →
  StackTrace_get tid bufsize buf s = Some (removelast (text_lines (stack_lines st))).
Proof.
  intros Hb st Hfit. unfold StackTrace_get. case_leb. unfold st in *. clear st. rewrite model_lookup in *.
  destruct (thread_at tid s) as [i|]; cbn [mbind option_bind] in *; [|done]. destruct (s !! i) as [t|]; [|done]. cbn [fmap option_fmap option_map default from_option] in Hfit |- *. unfold Datatypes.id in *.
  destruct (stack_lines (open_calls t)) as [|x l]; [done|]. pose proof (get_lines_fit bufsize (x :: l) [] Hfit) as Hg. cbn [length app] in Hg. 
  change (Z.of_nat 0) with 0 in Hg. rewrite Z.add_0_l in Hg. rewrite Hg. cbn [mbind option_bind]. case_leb.
  destruct (text_lines_last x l) as [tx ->]. rewrite last_snoc, bool_decide_true by done. by case_leb.
Qed.
Lemma StackTrace_get_text_witness :
  ∃ s, StackTrace_get 7 100 [] s = Some (bs "ListFind (60)" ++ [10] ++ bs "   at MQTTProtocol_assignMsgId (40)").
Proof.
  exists [mkThread 7 2 2 ([(noted, 40); (bs "ListFind", 60)] ++ replicate 48 ([], 0))].
  rewrite (StackTrace_get_text 7 100 [] _); [reflexivity|lia|]. vm_compute. discriminate.
Defined.

(** ** What goes wrong *)

(** The 51st open call is written after the end of the stack of its thread, an exit
    too many is compared with what precedes it. *)
Example StackTrace_overflows : each do_step (replicate 50 (Enter 7 noted 40 (-1))) [] ≠ None ∧ each do_step (replicate 51 (Enter 7 noted 40 (-1))) [] = None.
Proof. split; [|vm_compute; reflexivity]. vm_compute. discriminate. Qed.
Example StackTrace_underflows : each do_step [Enter 7 noted 40 (-1); Leave 7 noted 41 None (-1); Leave 7 noted 42 None (-1)] [] = None.
Proof. vm_compute. reflexivity. Qed.
(** Three lines of 33 bytes or more in a buffer of 100. *)
Example StackTrace_get_overflows :
  (s ← each do_step (replicate 4 (Enter 7 noted 40 (-1))) []; StackTrace_get 7 100 [] s.1.2) = None.
Proof. vm_compute. reflexivity. Qed.
End StackSpec.
