(* ===== verification/AppConfig.v ===== *)
(** * Configuration of the bridge (lib/init.c, src/main.c, lib/globle.c, lib/mysql.sdk.c)

    [GetInitKey] reads the INI file character by character through a 1024-byte
    line buffer; [main_config] and [initMysqlAccount] load the globals from it.
    The specification is a declarative lookup on the lines of the file. *)
From S2P Require Import Prelude Libc.

Module Config.
Export Libc.

(** ** C library functions used by the parser *)

(** [strchr(" \t", c) != NULL]: the terminating NUL of the literal matches too. *)
Definition blank_or_nul (c : Z) : bool := (c =? 32) || (c =? 9) || (c =? 0).
Definition is_blank (c : Z) : bool := (c =? 32) || (c =? 9).
(** [strchr("#;", c) != NULL], for a [c] that is not NUL. *)
Definition is_comment (c : Z) : bool := (c =? 35) || (c =? 59).

Fixpoint prefixb (p s : list Z) : bool :=
  match p, s with
  | [], _ => true
  | a :: p', b :: s' => (a =? b) && prefixb p' s'
  | _ :: _, [] => false
  end.

(** [strstr]: the offset of the first occurrence. *)
Fixpoint strstr (s key : list Z) : option nat :=
  if prefixb key s then Some 0%nat
  else match s with
       | [] => None
       | _ :: s' => S <$> strstr s' key
       end.

(** [strchr(line, '=')], with the two halves the code works on. *)
Fixpoint split_eq (s : list Z) : option (list Z * list Z) :=
  match s with
  | [] => None
  | c :: s' => if c =? 61 then Some ([], s')
               else (λ '(l, r), (c :: l, r)) <$> split_eq s'
  end.

Fixpoint skip_blanks (s : list Z) : list Z :=
  match s with
  | c :: s' => if is_blank c then skip_blanks s' else s
  | [] => []
  end.

(** ** GetInitKey *)

(** What the code does with a complete line. *)
Inductive line_result :=
  | LContinue (flag : bool)
  | LBreak
  | LReturn (value : list Z).

Definition header (title : list Z) : list Z := 91 :: title ++ [93].

(** The test of a [key = value] line once the section has been found. *)
Definition match_key (key lhs rhs : list Z) : option (list Z) :=
  match strstr lhs key with
  | None => None
  | Some p =>
      if (0 <? Z.of_nat p) && negb (blank_or_nul (default 0 (lhs !! pred p))) then None
      else if blank_or_nul (default 0 (lhs !! (p + length key)%nat))
      then Some (skip_blanks rhs)
      else None
  end.

Definition process_line (title key : list Z) (flag : bool) (line : list Z) : line_result :=
  let header_test := LContinue (if decide (header title = line) then true else flag) in
  match line with
  | [] => LContinue flag
  | c :: _ =>
      if is_comment c then LContinue flag
      else if c =? 91 then
        if flag then LBreak else header_test
      else
        match split_eq line with
        | Some (lhs, rhs) =>
            if flag then
              match match_key key lhs rhs with
              | Some v => LReturn v
              | None => LContinue flag
              end
            else header_test
        | None => header_test
        end
  end.

(** The static result buffer, or one of the two string literals, or an
    overflow of [tmpLine]. *)
Inductive init_result :=
  | Static (value : list Z)
  | Literal (text : list Z)
  | Overflow.

#[export] Instance init_result_eq_dec : EqDecision init_result.
Proof. solve_decision. Defined.

Definition tmpLine_size : Z := 1024.

(** The [while (!feof(fp))] loop: [acc] is the part of [tmpLine] already read,
    [file] what is left of the file. *)
Fixpoint scan (title key : list Z) (flag : bool) (acc file : list Z) : init_result :=
  if tmpLine_size <=? len acc then Overflow
  else
    match file with
    | [] =>
        match process_line title key flag (cstr acc) with
        | LReturn v => Static v
        | _ => Literal []
        end
    | c :: rest =>
        if c =? 10 then
          match process_line title key flag (cstr acc) with
          | LReturn v => Static v
          | LBreak => Literal []
          | LContinue flag' => scan title key flag' [] rest
          end
        else scan title key flag (acc ++ [c]) rest
    end.

(** [file = None] when [fopen] fails. *)
Definition GetInitKey (file : option (list Z)) (title key : list Z) : init_result :=
  match file with
  | None => Literal (bs "have no such file")
  | Some f => scan title key false [] f
  end.

(** The C string the caller gets. *)
Definition init_string (r : init_result) : option (list Z) :=
  match r with
  | Static v => Some v
  | Literal t => Some t
  | Overflow => None
  end.

(** [atoi(GetInitKey(...))]. *)
Definition GetInitInt (file : option (list Z)) (title key : list Z) : option Z :=
  atoi <$> init_string (GetInitKey file title key).

(** ** The globals (globle.c) and their loading (main.c, mysql.sdk.c) *)

Record globals := Globals {
  MQTT_CLIENTID_g : list Z;
  MQTT_USERNAME_g : list Z;
  MQTT_PWD_g : list Z;
  MQTT_SVR_IP_g : list Z;
  MQTT_KEEPALIVE_g : Z;
  DB_SCAN_ENABLE_g : Z;
  TIME_SYNC_INTERVAL_g : Z;
  GAME_HEART_BEAT_g : Z;
  MYSQL_SERVERIP : list Z;
  MYSQL_USERID : list Z;
  MYSQL_PASSWD : list Z;
  MYSQL_DATABASE : list Z
}.

Definition initial_globals : globals := {|
  MQTT_CLIENTID_g := bs "Default_ID_250";
  MQTT_USERNAME_g := bs "Default_XinYun";
  MQTT_PWD_g := bs "Default_PWD";
  MQTT_SVR_IP_g := bs "tcp://spare.yuanwe.net:8081";
  MQTT_KEEPALIVE_g := 45;
  DB_SCAN_ENABLE_g := 0;
  TIME_SYNC_INTERVAL_g := 600;
  GAME_HEART_BEAT_g := 100000;
  MYSQL_SERVERIP := bs "localhost";
  MYSQL_USERID := bs "jsb";
  MYSQL_PASSWD := bs "password";
  MYSQL_DATABASE := bs "jj"
|}.

(** [memcpy(dst, GetInitKey(...), 256)] then the test of [strlen(dst)]: the
    static buffer has 1024 bytes, but a string literal is shorter than the 256
    bytes copied, an out-of-bounds read ([None]).  At most 256 bytes of the
    value survive. *)
Definition load_string (r : init_result) (old : list Z) : option (list Z) :=
  match r with
  | Static v => let s := take 256 v in Some (if decide (s = []) then old else s)
  | Literal _ | Overflow => None
  end.

Definition load_int (r : option Z) (old : Z) : option Z :=
  (λ ret, if ret =? 0 then old else ret) <$> r.

Definition initMysqlAccount (file : option (list Z)) (g : globals) : option globals :=
  ip ← load_string (GetInitKey file (bs "MYSQL") (bs "SERVERIP")) (MYSQL_SERVERIP g);
  user ← load_string (GetInitKey file (bs "MYSQL") (bs "USERID")) (MYSQL_USERID g);
  pwd ← load_string (GetInitKey file (bs "MYSQL") (bs "PASSWD")) (MYSQL_PASSWD g);
  db ← load_string (GetInitKey file (bs "MYSQL") (bs "DATABASE")) (MYSQL_DATABASE g);
  Some {| MQTT_CLIENTID_g := MQTT_CLIENTID_g g; MQTT_USERNAME_g := MQTT_USERNAME_g g;
          MQTT_PWD_g := MQTT_PWD_g g; MQTT_SVR_IP_g := MQTT_SVR_IP_g g;
          MQTT_KEEPALIVE_g := MQTT_KEEPALIVE_g g; DB_SCAN_ENABLE_g := DB_SCAN_ENABLE_g g;
          TIME_SYNC_INTERVAL_g := TIME_SYNC_INTERVAL_g g;
          GAME_HEART_BEAT_g := GAME_HEART_BEAT_g g;
          MYSQL_SERVERIP := ip; MYSQL_USERID := user; MYSQL_PASSWD := pwd;
          MYSQL_DATABASE := db |}.

(** The configuration block of [main]. *)
Definition main_config (file : option (list Z)) (g : globals) : option globals :=
  let int_key k := GetInitInt file (bs "MQTT") (bs k) in
  let str_key k := GetInitKey file (bs "MQTT") (bs k) in
  heart ← load_int (int_key "GAME_HEART_BEAT") (GAME_HEART_BEAT_g g);
  keep ← load_int (int_key "MQTT_KEEPALIVE") (MQTT_KEEPALIVE_g g);
  scn ← load_int (int_key "DB_SCAN_ENABLE") (DB_SCAN_ENABLE_g g);
  sync ← load_int (int_key "TIME_SYNC_INTERVAL") (TIME_SYNC_INTERVAL_g g);
  ip ← load_string (str_key "MQTT_SVR_IP") (MQTT_SVR_IP_g g);
  cid ← load_string (str_key "MQTT_CLIENTID") (MQTT_CLIENTID_g g);
  usr ← load_string (str_key "MQTT_USERNAME") (MQTT_USERNAME_g g);
  pwd ← load_string (str_key "MQTT_PWD") (MQTT_PWD_g g);
  initMysqlAccount file
    {| MQTT_CLIENTID_g := cid; MQTT_USERNAME_g := usr; MQTT_PWD_g := pwd; MQTT_SVR_IP_g := ip;
       MQTT_KEEPALIVE_g := keep; DB_SCAN_ENABLE_g := scn; TIME_SYNC_INTERVAL_g := sync;
       GAME_HEART_BEAT_g := heart; MYSQL_SERVERIP := MYSQL_SERVERIP g;
       MYSQL_USERID := MYSQL_USERID g; MYSQL_PASSWD := MYSQL_PASSWD g;
       MYSQL_DATABASE := MYSQL_DATABASE g |}.

(** The directory argument of [main]: one trailing slash is removed. *)
Definition config_path (argv1 : option (list Z)) : list Z :=
  match argv1 with
  | Some dir =>
      let dir := if decide (last dir = Some 47) then removelast dir else dir in
      dir ++ bs "/main.config"
  | None => bs "main.config"
  end.

(** [get_executable_path]: the link split at its last slash, [None] for -1. *)
Fixpoint split_last_slash (path : list Z) : option (list Z * list Z) :=
  match path with
  | [] => None
  | c :: rest =>
      match split_last_slash rest with
      | Some (dir, name) => Some (c :: dir, name)
      | None => if c =? 47 then Some ([c], rest) else None
      end
  end.

Definition get_executable_path (link : option (list Z)) : option (Z * list Z * list Z) :=
  match link with
  | None | Some [] => None
  | Some path => (λ '(dir, name), (len dir, dir, name)) <$> split_last_slash path
  end.

(** ** Specification: lookup on the lines of the file *)

(** The lines of a file: what is between the newlines, the last one included. *)
Fixpoint lines (file : list Z) : list (list Z) :=
  match file with
  | [] => [[]]
  | c :: rest =>
      if c =? 10 then [] :: lines rest
      else match lines rest with
           | l :: ls => (c :: l) :: ls
           | [] => [[c]]
           end
  end.

Definition is_section (line : list Z) : bool :=
  match line with c :: _ => c =? 91 | [] => false end.

(** The value a line of the section gives to [key], if it gives one. *)
Definition key_value (key line : list Z) : option (list Z) :=
  match line with
  | [] => None
  | c :: _ =>
      if is_comment c then None
      else '(lhs, rhs) ← split_eq line; match_key key lhs rhs
  end.

(** The lines up to the next section header. *)
Fixpoint section_lines (ls : list (list Z)) : list (list Z) :=
  match ls with
  | [] => []
  | l :: ls' => if is_section l then [] else l :: section_lines ls'
  end.

(** The lines of the first section of that title. *)
Fixpoint section_body (title : list Z) (ls : list (list Z)) : list (list Z) :=
  match ls with
  | [] => []
  | l :: ls' => if decide (header title = l) then section_lines ls' else section_body title ls'
  end.

Definition lookup_key (title key : list Z) (ls : list (list Z)) : option (list Z) :=
  head (omap (key_value key) (section_body title ls)).

(** An INI file as data, and its text. *)
Definition ini : Type := list (list Z * list (list Z * list Z)).

Definition render_entry (e : list Z * list Z) : list Z := e.1 ++ 61 :: e.2.
Definition render_section (s : list Z * list (list Z * list Z)) : list (list Z) :=
  header s.1 :: (render_entry <$> s.2).
Definition render (i : ini) : list Z :=
  concat ((λ l, l ++ [10]) <$> concat (render_section <$> i)).

(** What the entries of a file must satisfy to be read back. *)
Definition text_ok (l : list Z) : Prop := Forall (λ c, 0 < c < 256 ∧ c ≠ 10) l.
Definition key_ok (k : list Z) : Prop :=
  text_ok k ∧ k ≠ [] ∧ Forall (λ c, is_blank c = false ∧ c ≠ 61) k ∧
  Forall (λ c, is_comment c = false ∧ c ≠ 91) (take 1 k).
Definition value_ok (v : list Z) : Prop := text_ok v ∧ skip_blanks v = v.
Definition ini_ok (i : ini) : Prop :=
  Forall (λ s, text_ok s.1 ∧ len s.1 < 1000 ∧
               Forall (λ e, key_ok e.1 ∧ value_ok e.2 ∧ len (e.1 ++ e.2) < 1000) s.2) i.

(** First entry of the key in the first section of the title. *)
Definition ini_lookup (i : ini) (title key : list Z) : option (list Z) :=
  match list_find (λ s, s.1 = title) i with
  | Some (_, s) => snd ∘ snd <$> list_find (λ e, e.1 = key) s.2
  | None => None
  end.

(** ** Lemmas *)

(** The line loop that [scan] performs once the lines have been cut. *)
Fixpoint scan_lines (title key : list Z) (flag : bool) (ls : list (list Z)) : init_result :=
  match ls with
  | [] => Literal []
  | l :: ls' =>
      match process_line title key flag l with
      | LReturn v => Static v
      | LBreak => Literal []
      | LContinue flag' => scan_lines title key flag' ls'
      end
  end.

Lemma lines_cons f : ∃ l ls, lines f = l :: ls.
Proof.
  destruct f as [|c f]; simpl; [by eauto|]. destruct (c =? 10); [by eauto|].
  destruct (lines f); eauto.
Qed.

Definition short_line (l : list Z) : Prop := len l < tmpLine_size.

Lemma scan_scan_lines title key f : ∀ flag acc l ls,
  lines f = l :: ls → Forall short_line ((acc ++ l) :: ls) →
  scan title key flag acc f = scan_lines title key flag (cstr <$> ((acc ++ l) :: ls)).
Proof.
  unfold short_line, tmpLine_size.
  induction f as [|c f IH]; intros flag acc l ls Hl Hs; cbn [scan lines] in *.
  - simplify_eq. apply Forall_cons in Hs as [Hs _]. rewrite app_nil_r in *.
    rewrite (proj2 (Z.leb_gt _ _)) by (unfold tmpLine_size; lia).
    simpl. by destruct (process_line _ _ _ _).
  - assert (len acc < 1024) by (apply Forall_cons in Hs as [Hs _]; lens).
    rewrite (proj2 (Z.leb_gt _ _)) by (unfold tmpLine_size; lia).
    destruct (lines_cons f) as (l' & ls' & Hf).
    destruct (c =? 10).
    + simplify_eq. rewrite app_nil_r in *. apply Forall_cons in Hs as [_ Hs].
      rewrite fmap_cons. cbn [scan_lines]. destruct (process_line _ _ _ _); try done.
      rewrite Hf in *. by rewrite (IH _ [] l' ls').
    + rewrite Hf in Hl. simplify_eq.
      rewrite (IH _ (acc ++ [c]) l' ls); rewrite <-?app_assoc; done.
Qed.

Lemma header_section title : is_section (header title) = true.
Proof. done. Qed.

Lemma process_line_in title key l : is_section l = false →
  process_line title key true l =
    match key_value key l with Some v => LReturn v | None => LContinue true end.
Proof.
  unfold process_line, key_value. destruct l as [|c l]; [done|]. simpl is_section. intros ->.
  destruct (is_comment c); [done|].
  destruct (split_eq (c :: l)) as [[lhs rhs]|]; simpl; [|by case_decide]. done.
Qed.

Lemma process_line_section title key l : is_section l = true →
  process_line title key true l = LBreak.
Proof.
  unfold process_line. destruct l as [|c l]; [done|]. simpl. intros Hc%Z.eqb_eq. by subst.
Qed.

Lemma process_line_before title key l :
  process_line title key false l =
    LContinue (if decide (header title = l) then true else false).
Proof.
  unfold process_line. destruct l as [|c l]; [by case_decide|].
  destruct (is_comment c) eqn:Hc.
  - case_decide as Hd; [|done]. unfold header in Hd. by simplify_eq.
  - destruct (c =? 91); [done|]. by destruct (split_eq _) as [[]|].
Qed.

Lemma scan_lines_in title key ls :
  scan_lines title key true ls =
    match head (omap (key_value key) (section_lines ls)) with
    | Some v => Static v | None => Literal [] end.
Proof.
  induction ls as [|l ls IH]; [done|]. cbn [scan_lines section_lines].
  destruct (is_section l) eqn:Hl.
  - by rewrite process_line_section.
  - rewrite process_line_in by done. simpl. by destruct (key_value key l).
Qed.

Lemma scan_lines_lookup title key ls :
  scan_lines title key false ls =
    match lookup_key title key ls with Some v => Static v | None => Literal [] end.
Proof.
  unfold lookup_key. induction ls as [|l ls IH]; [done|]. cbn [scan_lines section_body].
  rewrite process_line_before. case_decide; [apply scan_lines_in|done].
Qed.

Lemma prefixb_spec p s : prefixb p s = true ↔ ∃ r, s = p ++ r.
Proof.
  revert s. induction p as [|a p IH]; intros s; simpl; [split; [by eauto|done]|].
  destruct s as [|b s]; [split; [done|by intros [? ?]]|].
  rewrite andb_true_iff, Z.eqb_eq, IH. split.
  - intros [-> [r ->]]. by exists r.
  - intros [r Hr]. simplify_eq. eauto.
Qed.

Lemma prefixb_refl p : prefixb p p = true.
Proof. apply prefixb_spec. exists []. by rewrite app_nil_r. Qed.

Lemma strstr_refl s : strstr s s = Some 0%nat.
Proof. destruct s; cbn [strstr]; by rewrite prefixb_refl. Qed.

Lemma strstr_zero s key : strstr s key = Some 0%nat → ∃ r, s = key ++ r.
Proof.
  intros Hs. apply prefixb_spec. destruct s as [|c s]; cbn [strstr] in Hs;
    destruct (prefixb key _); [done|done|done|]. by destruct (strstr s key).
Qed.

Lemma strstr_lt s key p : key ≠ [] → strstr s key = Some p → (p < length s)%nat.
Proof.
  intros Hk. revert p. induction s as [|c s IH]; intros p; cbn [strstr].
  - destruct (prefixb key []) eqn:E; [|done]. by destruct key.
  - destruct (prefixb key _); [intros; simplify_eq; simpl; lia|].
    destruct (strstr s key) as [q|]; [|done]. simpl. intros. simplify_eq.
    specialize (IH q eq_refl). lia.
Qed.

(** What [key_ok] gives on each character. *)
Lemma key_ok_char k n c : key_ok k → k !! n = Some c → blank_or_nul c = false ∧ c ≠ 61.
Proof.
  intros (Ht & _ & Hb & _) Hc.
  pose proof (Forall_lookup_1 _ _ _ _ Ht Hc) as Ht'.
  pose proof (Forall_lookup_1 _ _ _ _ Hb Hc) as [Hb1 Hb2]. simpl in *.
  split; [|done]. unfold blank_or_nul, is_blank in *. rewrite Hb1. simpl. lia.
Qed.

Lemma match_key_spec key k v : key_ok k → key_ok key →
  match_key key k v = if decide (k = key) then Some (skip_blanks v) else None.
Proof.
  intros Hk Hkey. unfold match_key. destruct (strstr k key) as [p|] eqn:Hs.
  - destruct (decide (p = 0%nat)) as [->|Hp].
    + destruct (strstr_zero _ _ Hs) as [r ->]. simpl.
      rewrite lookup_app_r, Nat.sub_diag by lia. destruct r as [|c r]; simpl.
      * rewrite app_nil_r. by rewrite decide_True.
      * destruct (key_ok_char (key ++ c :: r) (length key) c Hk) as [Hc _].
        { by apply list_lookup_middle. }
        rewrite Hc, decide_False; [done|].
        intros Heq. apply (f_equal length) in Heq. rewrite length_app in Heq. simpl in Heq. lia.
    + rewrite (proj2 (Z.ltb_lt _ _)) by lia. pose proof (strstr_lt k key p) as Hlt.
      destruct (lookup_lt_is_Some_2 k (pred p)) as [c Hc].
      { destruct Hkey as (_ & ? & _). pose proof (Hlt ltac:(done) Hs). lia. }
      rewrite Hc. simpl. destruct (key_ok_char k _ _ Hk Hc) as [-> _]. simpl.
      rewrite decide_False; [done|]. intros ->. rewrite strstr_refl in Hs. by simplify_eq.
  - rewrite decide_False; [done|]. intros ->. by rewrite strstr_refl in Hs.
Qed.

Lemma split_eq_entry k v : Forall (λ c, is_blank c = false ∧ c ≠ 61) k →
  split_eq (k ++ 61 :: v) = Some (k, v).
Proof.
  induction 1 as [|c k [_ Hc] Hk IH]; simpl; [done|].
  rewrite (proj2 (Z.eqb_neq _ _)) by done. by rewrite IH.
Qed.

Lemma key_value_entry key k v : key_ok k → key_ok key → value_ok v →
  key_value key (render_entry (k, v)) = if decide (k = key) then Some v else None.
Proof.
  intros Hk Hkey [_ Hv]. unfold render_entry, key_value. simpl.
  destruct (k ++ 61 :: v) as [|c l] eqn:E; [by destruct k|].
  assert (is_comment c = false) as ->.
  { destruct Hk as (_ & Hne & _ & Hf). destruct k as [|c' k]; [done|].
    simpl in *. simplify_eq. by apply Forall_cons in Hf as [[? _] _]. }
  rewrite <-E, split_eq_entry by apply Hk. simpl.
  rewrite match_key_spec by done. by rewrite Hv.
Qed.

Lemma render_entry_section e : key_ok e.1 → is_section (render_entry e) = false.
Proof.
  intros (_ & Hne & _ & Hf). unfold render_entry. destruct (e.1) as [|c k]; [done|].
  simpl in *. apply Forall_cons in Hf as [[_ ?] _]. by apply Z.eqb_neq.
Qed.

Lemma lines_line l f : Forall (λ c, c ≠ 10) l → lines (l ++ 10 :: f) = l :: lines f.
Proof.
  induction 1 as [|c l Hc Hl IH]; [done|]. cbn [lines app].
  rewrite (proj2 (Z.eqb_neq _ _)) by done. by rewrite IH.
Qed.

Lemma lines_concat ls : Forall (Forall (λ c, c ≠ 10)) ls →
  lines (concat ((λ l, l ++ [10]) <$> ls)) = ls ++ [[]].
Proof.
  induction 1 as [|l ls Hl Hls IH]; [done|]. cbn [fmap list_fmap concat].
  rewrite <-app_assoc. simpl. by rewrite lines_line, IH.
Qed.

Lemma text_ok_line l : text_ok l → Forall (λ c, c ≠ 10) l.
Proof. intros H. eapply Forall_impl; [exact H|]. simpl. tauto. Qed.

Lemma text_ok_cstr l : text_ok l → cstr l = l.
Proof. intros H. apply cstr_ok. eapply Forall_impl; [exact H|]. simpl. tauto. Qed.

Lemma header_inj t t' : header t = header t' → t = t'.
Proof. unfold header. intros [= H]. by apply app_inj_tail in H as [? _]. Qed.

Lemma text_ok_header t : text_ok t → text_ok (header t).
Proof.
  intros H. unfold header. constructor; [lia|]. apply Forall_app. split; [done|].
  constructor; [lia|constructor].
Qed.

Lemma text_ok_entry k v : text_ok k → text_ok v → text_ok (render_entry (k, v)).
Proof. intros. apply Forall_app. split; [done|]. constructor; [lia|done]. Qed.

(** Every line of a rendered file is text and fits [tmpLine]. *)
Lemma render_lines_ok i : ini_ok i →
  Forall (λ l, text_ok l ∧ len l < tmpLine_size) (concat (render_section <$> i)).
Proof.
  unfold tmpLine_size. induction 1 as [|[t es] i (Ht & Hlen & Hes) Hi IH]; simpl; [constructor|].
  constructor; simpl in *.
  { split; [by apply text_ok_header|]. unfold header. lens. }
  apply Forall_app. split; [|done]. apply Forall_fmap. eapply Forall_impl; [exact Hes|].
  intros [k v] ((Hk & _) & (Hv & _) & Hl). simpl in *. split; [by apply text_ok_entry|].
  unfold render_entry. simpl. lens.
Qed.

Lemma section_lines_entries es tail : Forall (λ e, key_ok e.1) es →
  section_lines ((render_entry <$> es) ++ tail) = (render_entry <$> es) ++ section_lines tail.
Proof.
  induction 1 as [|e es He Hes IH]; [done|]. rewrite !fmap_cons. cbn [app section_lines].
  by rewrite render_entry_section, IH.
Qed.

Lemma section_body_entries title es tail : Forall (λ e, key_ok e.1) es →
  section_body title ((render_entry <$> es) ++ tail) = section_body title tail.
Proof.
  induction 1 as [|e es He Hes IH]; [done|]. rewrite fmap_cons. cbn [app section_body].
  rewrite decide_False; [done|]. intros Heq. pose proof (render_entry_section e He) as Hs. by rewrite <-Heq in Hs.
Qed.

Lemma omap_entries key es : key_ok key → Forall (λ e, key_ok e.1 ∧ value_ok e.2) es →
  head (omap (key_value key) (render_entry <$> es)) =
    snd ∘ snd <$> list_find (λ e, e.1 = key) es.
Proof.
  intros Hkey. induction 1 as [|[k v] es [Hk Hv] Hes IH]; [done|]. simpl in Hk, Hv.
  rewrite fmap_cons. cbn [omap list_omap head list_find fst snd].
  rewrite key_value_entry by done. case_decide; simpl; [done|].
  etrans; [exact IH|]. by destruct (list_find _ es) as [[]|].
Qed.

(** The end of the rendered file after a section: another header or the empty
    last line, neither of which gives a value. *)
Lemma section_lines_tail key i :
  omap (key_value key) (section_lines (concat (render_section <$> i) ++ [[]])) = [].
Proof. by destruct i as [|[t es] i]. Qed.

Lemma lookup_render i title key : ini_ok i → key_ok key →
  lookup_key title key (concat (render_section <$> i) ++ [[]]) = ini_lookup i title key.
Proof.
  intros Hi Hkey. unfold lookup_key, ini_lookup.
  induction Hi as [|[t es] i (Ht & _ & Hes) Hi IH]; [done|]. simpl in Ht, Hes.
  assert (Forall (λ e, key_ok e.1 ∧ value_ok e.2) es) as Hes1.
  { eapply Forall_impl; [exact Hes|]. simpl. tauto. }
  assert (Forall (λ e, key_ok e.1) es) as Hes2.
  { eapply Forall_impl; [exact Hes|]. simpl. tauto. }
  rewrite fmap_cons. unfold render_section at 1.
  cbn [concat app list_find fst snd section_body]. rewrite <-app_assoc. destruct (decide (t = title)) as [->|Hne].
  - rewrite decide_True by done. rewrite section_lines_entries by done.
    rewrite omap_app, section_lines_tail, app_nil_r. by apply omap_entries.
  - rewrite decide_False by (intros ?%header_inj; congruence).
    rewrite section_body_entries by done. rewrite IH.
    by destruct (list_find _ i) as [[? []]|].
Qed.

(** [GetInitKey] on the text of a file. *)
Lemma get_rendered i title key : ini_ok i → key_ok key →
  GetInitKey (Some (render i)) title key =
    match ini_lookup i title key with Some v => Static v | None => Literal [] end.
Proof.
  intros Hi Hkey. pose proof (render_lines_ok i Hi) as Hl.
  assert (lines (render i) = concat (render_section <$> i) ++ [[]]) as Hlines.
  { apply lines_concat. eapply Forall_impl; [exact Hl|]. intros l [? _]. by apply text_ok_line. }
  destruct (lines_cons (render i)) as (l & ls & Hcons). unfold GetInitKey.
  rewrite (scan_scan_lines _ _ _ _ [] l ls); [|done|].
  - simpl app. rewrite <-Hcons, Hlines, scan_lines_lookup, fmap_app.
    replace (cstr <$> concat (render_section <$> i)) with (concat (render_section <$> i)).
    { change (cstr <$> [[]]) with [@nil Z]. by rewrite lookup_render. }
    symmetry. rewrite <-(list_fmap_id (concat _)) at 2. apply list_fmap_ext.
    intros n l' Hn. simpl. apply text_ok_cstr.
    by pose proof (Forall_lookup_1 _ _ _ _ Hl Hn) as [? _].
  - simpl app. rewrite <-Hcons, Hlines. apply Forall_app. split.
    + eapply Forall_impl; [exact Hl|]. unfold short_line. tauto.
    + constructor; [|constructor]. unfold short_line, tmpLine_size. simpl. lia.
Qed.

(** ** Properties *)

(** The character loop of [GetInitKey] computes the declarative lookup: on a
    file all of whose lines fit the 1024-byte line buffer, it returns the value
    of the first line of the first [title] section that defines the key, and
    the empty literal when there is none. *)
Theorem GetInitKey_lookup f title key : Forall short_line (lines f) →
  GetInitKey (Some f) title key =
    match lookup_key title key (cstr <$> lines f) with
    | Some v => Static v
    | None => Literal []
    end.
Proof.
  intros Hs. destruct (lines_cons f) as (l & ls & Hl). unfold GetInitKey.
  rewrite Hl in *. rewrite (scan_scan_lines _ _ _ _ [] l ls) by done. apply scan_lines_lookup.
Qed.

Lemma GetInitKey_lookup_witness :
  Forall short_line (lines (bs "[MQTT]" ++ 10 :: bs "KEY = v")) ∧
  GetInitKey (Some (bs "[MQTT]" ++ 10 :: bs "KEY = v")) (bs "MQTT") (bs "KEY") = Static (bs "v").
Proof.
  assert (H : Forall short_line (lines (bs "[MQTT]" ++ 10 :: bs "KEY = v")))
    by (vm_compute; repeat constructor).
  split; [exact H|]. exact (GetInitKey_lookup _ (bs "MQTT") (bs "KEY") H).
Defined.

(** Round trip of the INI format: on the text of any well-formed file
    (sections and entries as data), [GetInitKey] returns the value of the first
    entry of that key in the first section of that title, and the empty literal
    when there is none; keys that only share a prefix, a suffix or an infix are
    not confused. *)
Theorem GetInitKey_render i title key : ini_ok i → key_ok key →
  GetInitKey (Some (render i)) title key =
    match ini_lookup i title key with Some v => Static v | None => Literal [] end.
Proof. apply get_rendered. Qed.

Definition sample_ini : ini :=
  [ (bs "OTHER", [(bs "MQTT_PWD", bs "no")]);
    (bs "MQTT", [(bs "MQTT_SVR_IP2", bs "x"); (bs "MQTT_SVR_IP", bs "tcp://h:1883");
                 (bs "MQTT_CLIENTID", bs "c1"); (bs "MQTT_USERNAME", bs "u"); (bs "MQTT_PWD", bs "p");
                 (bs "MQTT_KEEPALIVE", bs "60")]);
    (bs "MYSQL", [(bs "SERVERIP", bs "db"); (bs "USERID", []); (bs "PASSWD", bs "s");
                  (bs "DATABASE", bs "jj2")]) ].

Lemma sample_ini_ok : ini_ok sample_ini.
Proof.
  unfold sample_ini, ini_ok, key_ok, value_ok, text_ok.
  repeat (constructor; cbn); try done; lia.
Qed.

Lemma GetInitKey_render_witness :
  ini_ok sample_ini ∧ key_ok (bs "MQTT_SVR_IP") ∧
  GetInitKey (Some (render sample_ini)) (bs "MQTT") (bs "MQTT_SVR_IP") = Static (bs "tcp://h:1883").
Proof.
  assert (K : key_ok (bs "MQTT_SVR_IP")).
  { unfold key_ok, text_ok. repeat (constructor; cbn); try done; lia. }
  split; [exact sample_ini_ok|]. split; [exact K|].
  exact (GetInitKey_render sample_ini (bs "MQTT") (bs "MQTT_SVR_IP") sample_ini_ok K).
Defined.

(** The eight string settings that [main] copies with [memcpy]. *)
Definition string_keys : list (list Z * list Z) :=
  [ (bs "MQTT", bs "MQTT_SVR_IP"); (bs "MQTT", bs "MQTT_CLIENTID");
    (bs "MQTT", bs "MQTT_USERNAME"); (bs "MQTT", bs "MQTT_PWD");
    (bs "MYSQL", bs "SERVERIP"); (bs "MYSQL", bs "USERID");
    (bs "MYSQL", bs "PASSWD"); (bs "MYSQL", bs "DATABASE") ].

(** What a setting of the file makes of the old value of a global. *)
Definition string_setting (i : ini) (title key : list Z) (old : list Z) : list Z :=
  match ini_lookup i title key with
  | Some v => if decide (take 256 v = []) then old else take 256 v
  | None => old
  end.
Definition int_setting (i : ini) (key : list Z) (old : Z) : Z :=
  let n := atoi (default [] (ini_lookup i (bs "MQTT") key)) in
  if n =? 0 then old else n.

Definition configured (i : ini) (g : globals) : globals := {|
  MQTT_CLIENTID_g := string_setting i (bs "MQTT") (bs "MQTT_CLIENTID") (MQTT_CLIENTID_g g);
  MQTT_USERNAME_g := string_setting i (bs "MQTT") (bs "MQTT_USERNAME") (MQTT_USERNAME_g g);
  MQTT_PWD_g := string_setting i (bs "MQTT") (bs "MQTT_PWD") (MQTT_PWD_g g);
  MQTT_SVR_IP_g := string_setting i (bs "MQTT") (bs "MQTT_SVR_IP") (MQTT_SVR_IP_g g);
  MQTT_KEEPALIVE_g := int_setting i (bs "MQTT_KEEPALIVE") (MQTT_KEEPALIVE_g g);
  DB_SCAN_ENABLE_g := int_setting i (bs "DB_SCAN_ENABLE") (DB_SCAN_ENABLE_g g);
  TIME_SYNC_INTERVAL_g := int_setting i (bs "TIME_SYNC_INTERVAL") (TIME_SYNC_INTERVAL_g g);
  GAME_HEART_BEAT_g := int_setting i (bs "GAME_HEART_BEAT") (GAME_HEART_BEAT_g g);
  MYSQL_SERVERIP := string_setting i (bs "MYSQL") (bs "SERVERIP") (MYSQL_SERVERIP g);
  MYSQL_USERID := string_setting i (bs "MYSQL") (bs "USERID") (MYSQL_USERID g);
  MYSQL_PASSWD := string_setting i (bs "MYSQL") (bs "PASSWD") (MYSQL_PASSWD g);
  MYSQL_DATABASE := string_setting i (bs "MYSQL") (bs "DATABASE") (MYSQL_DATABASE g)
|}.

Lemma load_string_render i title key old : ini_ok i → key_ok key →
  load_string (GetInitKey (Some (render i)) title key) old =
    match ini_lookup i title key with
    | Some _ => Some (string_setting i title key old)
    | None => None
    end.
Proof.
  intros. rewrite get_rendered by done. unfold string_setting.
  by destruct (ini_lookup i title key).
Qed.

Lemma load_int_render i key old : ini_ok i → key_ok key →
  load_int (GetInitInt (Some (render i)) (bs "MQTT") key) old = Some (int_setting i key old).
Proof.
  intros. unfold GetInitInt, int_setting. rewrite get_rendered by done.
  by destruct (ini_lookup i _ key).
Qed.

Ltac key_ok_tac := unfold key_ok, text_ok; repeat (constructor; cbn); try done; lia.

(** On the text of a well-formed configuration file, [main_config] loads
    every setting (integers when they are not zero, strings when they are not
    empty, cut at 256 bytes) exactly when the file defines all eight string
    keys; when one of them is missing the 256-byte [memcpy] from the literal
    that [GetInitKey] returns is out of bounds. *)
Theorem main_config_render i g : ini_ok i →
  main_config (Some (render i)) g =
    if decide (Forall (λ k, is_Some (ini_lookup i k.1 k.2)) string_keys)
    then Some (configured i g) else None.
Proof.
  intros Hi. unfold main_config, initMysqlAccount.
  rewrite !load_int_render by first [done | key_ok_tac].
  cbn [mbind option_bind MQTT_CLIENTID_g MQTT_USERNAME_g MQTT_PWD_g MQTT_SVR_IP_g MYSQL_SERVERIP
       MYSQL_USERID MYSQL_PASSWD MYSQL_DATABASE MQTT_KEEPALIVE_g DB_SCAN_ENABLE_g
       TIME_SYNC_INTERVAL_g GAME_HEART_BEAT_g].
  rewrite !load_string_render by first [done | key_ok_tac].
  destruct (decide _) as [Hall|Hnot].
  - unfold string_keys in Hall. repeat (apply Forall_cons in Hall as [[? E] Hall];
      cbn [fst snd] in E; rewrite E; clear E).
    reflexivity.
  - repeat (match goal with
      |- context [ini_lookup i ?t ?k] =>
        destruct (ini_lookup i t k) eqn:?; [|reflexivity] end).
    destruct Hnot. unfold string_keys. repeat (constructor; simpl); eauto.
Qed.

Lemma main_config_render_witness :
  ini_ok sample_ini ∧
  MQTT_SVR_IP_g <$> main_config (Some (render sample_ini)) initial_globals
    = Some (bs "tcp://h:1883").
Proof.
  split; [exact sample_ini_ok|].
  rewrite (main_config_render sample_ini initial_globals sample_ini_ok).
  rewrite decide_True; [reflexivity|]. repeat constructor; eexists; reflexivity.
Defined.

(** The finding of C4 on a file that lacks one key. *)
Example missing_key_faults :
  main_config (Some (render [(bs "MQTT", [(bs "MQTT_SVR_IP", bs "tcp://h:1883")])]))
    initial_globals = None.
Proof. by vm_compute. Qed.

(** Without the configuration file every string key is the 17-byte literal. *)
Example missing_file_faults : main_config None initial_globals = None.
Proof. by vm_compute. Qed.

(** A line of 1024 bytes overflows [tmpLine]. *)
Example long_line_overflows :
  GetInitKey (Some (replicate 1024 65)) (bs "MQTT") (bs "K") = Overflow.
Proof. by vm_compute. Qed.

End Config.
