(* ===== verification/AppTopics.v ===== *)
(** * The topic table of the bridge (core/regfunc.c, core/handle.c)

    The table of handlers, the part of it that the configuration file enables,
    the subscriptions made from it and the dispatch of the received messages
    with its one-entry cache and its counters. *)
From stdpp Require Import pretty.
From S2P Require Import Prelude AppConfig.

Module Topics.
Import Config.

(** ** Data *)

(** The functions of handle.c: both only trace and return 1. *)
Inductive handler := H_do_A1 | H_do_test.

#[export] Instance handler_eq_dec : EqDecision handler.
Proof. solve_decision. Defined.

Definition do_A1 (topicName : list Z) : Z := 1.
Definition do_test (topicName : list Z) : Z := 1.
Definition run_handler (h : handler) (topicName : list Z) : Z :=
  match h with H_do_A1 => do_A1 topicName | H_do_test => do_test topicName end.

(** [topic_name] is the C string of the 256 bytes buffer, [bc] is [None] for NULL. *)
Record cmd_pro := mkCmd { topic_name : list Z; cnt : Z; bc : option handler }.

#[export] Instance cmd_pro_eq_dec : EqDecision cmd_pro.
Proof. solve_decision. Defined.

Definition ctr_handle_tab : list cmd_pro :=
  [ mkCmd (bs "RRS123") 0 (Some H_do_A1);
    mkCmd (bs "SFR123") 0 (Some H_do_A1);
    mkCmd (bs "RS4123") 0 (Some H_do_A1);
    mkCmd (bs "RDC123") 0 (Some H_do_A1);
    mkCmd (bs "RSC123") 0 (Some H_do_A1);
    mkCmd (bs "RCN123") 0 (Some H_do_A1);
    mkCmd (bs "TEST12") 0 (Some H_do_test) ].

Definition ctr_table_size : Z := len ctr_handle_tab.
Definition zero_cmd : cmd_pro := mkCmd [] 0 None.

(** The static variables of regfunc.c and of [decode_msg_handle]. [pHandle]
    points into [handleTableLocal]; it is set with [_mysqlcon]. *)
Record state := mkState {
  handleTableLocal : list cmd_pro;
  topicNumLocal : Z;
  msgcnt : Z;
  mysqlcon : bool;
  pHandle : Z
}.

(** ** initTopicConf *)

Definition resstr_size : Z := 128.

(** [strcpy(resstr, ...)] into 128 bytes. *)
Definition copy_resstr (r : init_result) : option (list Z) :=
  s ← init_string r;
  if len s <? resstr_size then Some s else None.

(** [sprintf(tmpstr, "%d", i)]. *)
Definition decimal (i : Z) : list Z := bs (pretty i).

(** Whether the configuration enables the entry [i] of the table. *)
Definition topic_flag (file : option (list Z)) (iDefault i : Z) : option Z :=
  resstr ← copy_resstr (GetInitKey file (bs "TOPIC") (decimal i));
  Some (if len resstr =? 0 then iDefault else atoi resstr).

(** The loading loop: [i] runs up to [num], the table is filled from its start. *)
Fixpoint load_topics (fuel : nat) (file : option (list Z)) (iDefault num i : Z)
    (filled : list cmd_pro) : option (list cmd_pro) :=
  match fuel with
  | O => Some filled
  | S fuel' =>
      if i <? num then
        ret ← topic_flag file iDefault i;
        entry ← ctr_handle_tab !! Z.to_nat i;
        load_topics fuel' file iDefault num (i + 1)
          (if ret =? 1 then filled ++ [mkCmd (topic_name entry) 0 (bc entry)] else filled)
      else Some filled
  end.

(** A negative count asks [malloc] for nearly 2^64 bytes: NULL, then [exit(1)].
    The assertion on [bc] aborts. *)
Definition initTopicConf (file : option (list Z)) (topicNum : Z) : outcome state :=
  d ← or_fault (GetInitInt file (bs "TOPIC") (bs "DEFAULT"));
  let iDefault := if (d =? 1) || (d =? 0) then d else 0 in
  n ← or_fault (GetInitInt file (bs "TOPIC") (bs "NUM"));
  let num := if n =? 0 then topicNum else n in
  let num := if ctr_table_size <? num then ctr_table_size else num in
  if num <? 0 then Exits 1
  else
    filled ← or_fault (load_topics (Z.to_nat num) file iDefault num 0 []);
    if forallb (λ e, match bc e with Some _ => true | None => false end) filled
    then Returns (mkState (filled ++ replicate (Z.to_nat num - length filled) zero_cmd)
                    (len filled) 0 false 0)
    else Faults.

(** ** regTopicFromTable: the topics passed to [my_subsribe_topic], with QoS 0 *)

Definition regTopicFromTable (s : state) : list (list Z * Z) :=
  omap (λ e, match bc e with Some _ => Some (topic_name e, 0) | None => None end)
    (take (Z.to_nat (topicNumLocal s)) (handleTableLocal s)).

(** ** decode_msg_handle *)

Definition incr_cnt (e : cmd_pro) : cmd_pro := mkCmd (topic_name e) (u32 (cnt e + 1)) (bc e).

(** Calling the handler of the entry at [p] and counting the message. *)
Definition call_entry (s : state) (p : Z) (topic : list Z) : outcome (state * list handler) :=
  match handleTableLocal s !! Z.to_nat p with
  | None => Faults
  | Some e =>
      match bc e with
      | None => Faults
      | Some h =>
          Returns (mkState (<[Z.to_nat p := incr_cnt e]> (handleTableLocal s)) (topicNumLocal s)
                     (msgcnt s) (mysqlcon s) p, [h])
      end
  end.

Fixpoint dispatch_loop (fuel : nat) (s : state) (idx : Z) (topic : list Z)
    : outcome (state * list handler) :=
  match fuel with
  | O => Returns (s, [])
  | S fuel' =>
      if idx <? topicNumLocal s then
        match handleTableLocal s !! Z.to_nat idx with
        | None => Faults
        | Some e =>
            if decide (topic = topic_name e) then call_entry s idx topic
            else dispatch_loop fuel'
                   (mkState (handleTableLocal s) (topicNumLocal s) (msgcnt s) (mysqlcon s) idx)
                   (idx + 1) topic
        end
      else Returns (s, [])
  end.

(** [connected] is the result of [mysql_real_connect] on the first message. The
    handlers that are called are returned with the new state; the result of the
    function is always 0. *)
Definition decode_msg_handle (connected : bool) (s : state) (topic : list Z)
    : outcome (state * list handler) :=
  let s1 := mkState (handleTableLocal s) (topicNumLocal s) (u32 (msgcnt s + 1))
              (mysqlcon s) (pHandle s) in
  s2 ← (if mysqlcon s then Returns s1
        else if connected
        then Returns (mkState (handleTableLocal s1) (topicNumLocal s1) (msgcnt s1) true 0)
        else Exits 1);
  match handleTableLocal s2 !! Z.to_nat (pHandle s2) with
  | None => Faults
  | Some e =>
      if decide (topic = topic_name e) then call_entry s2 (pHandle s2) topic
      else dispatch_loop (S (Z.to_nat (topicNumLocal s2))) s2 0 topic
  end.

(** The messages one after the other, as the receive thread delivers them. *)
Fixpoint run_messages (s : state) (topics : list (list Z)) : outcome (state * list handler) :=
  match topics with
  | [] => Returns (s, [])
  | t :: topics' =>
      '(s', hs) ← decode_msg_handle true s t;
      '(s'', hs') ← run_messages s' topics';
      Returns (s'', hs ++ hs')
  end.

(** ** print_stats: the numbers of the first line *)

Definition stats_time (timeGloble_g timeBegin_g : Z) : Z * Z * Z :=
  let sec := s32 (timeGloble_g - timeBegin_g) in
  (Z.quot sec 3600, Z.quot sec 60, Z.rem sec 60).

Definition print_stats (timeGloble_g timeBegin_g : Z) (s : state)
    : (Z * Z * Z) * Z * list (list Z * Z) :=
  (stats_time timeGloble_g timeBegin_g, msgcnt s,
   (λ e, (topic_name e, cnt e)) <$> take (Z.to_nat (topicNumLocal s)) (handleTableLocal s)).

(** ** Specification *)

(** The entries that a configuration enables, by the position in the table. *)
Definition enabled (file : option (list Z)) (iDefault : Z) (i : nat) : bool :=
  match topic_flag file iDefault (Z.of_nat i) with Some r => r =? 1 | None => false end.

(** The enabled part of the table: distinct non-empty names, all with handlers. *)
Record table_ok (s : state) : Prop := {
  tab_num : 0 ≤ topicNumLocal s ≤ len (handleTableLocal s);
  tab_nonempty : handleTableLocal s ≠ [];
  tab_names : NoDup (topic_name <$> take (Z.to_nat (topicNumLocal s)) (handleTableLocal s));
  tab_handlers : Forall (λ e, topic_name e ≠ [] ∧ bc e ≠ None)
    (take (Z.to_nat (topicNumLocal s)) (handleTableLocal s));
  tab_rest : Forall (λ e, e = zero_cmd) (drop (Z.to_nat (topicNumLocal s)) (handleTableLocal s));
  tab_cache : mysqlcon s = true → 0 ≤ pHandle s < len (handleTableLocal s)
}.

(** The registered entries. *)
Definition registered (s : state) : list cmd_pro :=
  take (Z.to_nat (topicNumLocal s)) (handleTableLocal s).

(** The handlers of the entries of a table named [topic]. *)
Fixpoint handlers_of (topic : list Z) (l : list cmd_pro) : list handler :=
  match l with
  | [] => []
  | e :: l' =>
      (if decide (topic = topic_name e) then option_list (bc e) else []) ++ handlers_of topic l'
  end.

Definition handler_of (s : state) (topic : list Z) : list handler :=
  handlers_of topic (registered s).

(** ** Lemmas: dispatch *)

(** What a message on [topic] does to an entry. *)
Definition counted (topic : list Z) (e : cmd_pro) : cmd_pro :=
  if decide (topic = topic_name e) then incr_cnt e else e.

Lemma counted_name topic e : topic_name (counted topic e) = topic_name e.
Proof. unfold counted. by case_decide. Qed.

Lemma counted_bc topic e : bc (counted topic e) = bc e.
Proof. unfold counted. by case_decide. Qed.

(** With distinct names, counting a message changes one entry. *)
Lemma counted_at topic l i e : NoDup (topic_name <$> l) → l !! i = Some e → topic = topic_name e →
  <[i := incr_cnt e]> l = counted topic <$> l ∧
  handlers_of topic l = option_list (bc e).
Proof.
  revert i. induction l as [|x l IH]; intros i Hnd Hl ->; [done|].
  rewrite fmap_cons in Hnd. apply NoDup_cons in Hnd as [Hx Hnd].
  assert (Hother : ∀ n, n ∉ topic_name <$> l → counted n <$> l = l ∧
    handlers_of n l = []).
  { clear. intros n. induction l as [|y l IH]; [done|]. rewrite fmap_cons, not_elem_of_cons.
    intros [Hy Hl]. destruct (IH Hl) as [H1 H2]. rewrite fmap_cons, H1. cbn. rewrite H2.
    unfold counted. by rewrite !decide_False by done. }
  destruct i as [|i]; simpl in Hl.
  - apply (inj Some) in Hl. subst x. destruct (Hother _ Hx) as [H1 H2].
    rewrite fmap_cons, H1. cbn. rewrite H2, app_nil_r. unfold counted.
    by rewrite !decide_True by done.
  - destruct (IH i Hnd Hl eq_refl) as [H1 H2]. rewrite fmap_cons.
    change (<[S i:=incr_cnt e]> (x :: l)) with (x :: <[i:=incr_cnt e]> l). rewrite H1.
    cbn [handlers_of].
    assert (Hne : topic_name e ≠ topic_name x).
    { intros Heq. apply Hx. rewrite <-Heq. apply list_elem_of_fmap_2.
      by eapply list_elem_of_lookup_2. }
    rewrite H2. unfold counted at 2. by rewrite !decide_False by done.
Qed.

Lemma counted_none topic l : topic ∉ topic_name <$> l →
  counted topic <$> l = l ∧
  handlers_of topic l = [].
Proof.
  induction l as [|y l IH]; [done|]. rewrite fmap_cons, not_elem_of_cons.
  intros [Hy Hl]. destruct (IH Hl) as [H1 H2]. rewrite fmap_cons, H1. cbn. rewrite H2.
  unfold counted. by rewrite !decide_False by done.
Qed.

(** An entry of the allocated table with a non-empty name is registered. *)
Lemma named_registered s p e topic : table_ok s → handleTableLocal s !! p = Some e →
  topic = topic_name e → topic ≠ [] → registered s !! p = Some e.
Proof.
  intros Hok Hp -> Hne. unfold registered.
  destruct (decide (p < Z.to_nat (topicNumLocal s))%nat) as [Hlt|Hge].
  - by rewrite lookup_take_lt.
  - exfalso. apply Hne. pose proof (tab_rest s Hok) as Hr. rewrite Forall_lookup in Hr.
    rewrite (Hr (p - Z.to_nat (topicNumLocal s))%nat e); [done|].
    rewrite lookup_drop. rewrite <-Hp. f_equal. lia.
Qed.

(** The state after a message, up to the cache. *)
Record counted_state (topic : list Z) (s s' : state) : Prop := {
  cs_num : topicNumLocal s' = topicNumLocal s;
  cs_msgcnt : msgcnt s' = msgcnt s;
  cs_ok : table_ok s';
  cs_registered : registered s' = counted topic <$> registered s
}.

Lemma call_entry_ok s p e topic : table_ok s → mysqlcon s = true →
  handleTableLocal s !! p = Some e → topic = topic_name e → topic ≠ [] →
  ∃ s', call_entry s (Z.of_nat p) topic = Returns (s', handler_of s topic) ∧
    counted_state topic s s'.
Proof.
  intros Hok Hcon Hp Ht Hne. pose proof (named_registered s p e topic Hok Hp Ht Hne) as Hr.
  pose proof (tab_handlers s Hok) as Hh. rewrite Forall_lookup in Hh.
  destruct (Hh p e Hr) as [_ Hbc]. unfold call_entry. rewrite Nat2Z.id, Hp.
  destruct (counted_at topic _ p e (tab_names s Hok) Hr Ht) as [H1 H2].
  unfold handler_of. fold (registered s) in *. rewrite H2. destruct (bc e) as [h|]; [|done].
  eexists. split; [done|]. destruct Hok as [Hnum Hn Hnd Hhd Hrest Hcache].
  assert (Hlt : (p < length (registered s))%nat) by (by apply lookup_lt_is_Some_1; eexists).
  assert (Hreg : take (Z.to_nat (topicNumLocal s)) (<[p:=incr_cnt e]> (handleTableLocal s))
    = counted topic <$> registered s).
  { rewrite <-H1. unfold registered. by rewrite take_insert_lt by
      (unfold registered in Hlt; rewrite length_take in Hlt; lia). }
  split; cbn; try done. split; cbn [topicNumLocal handleTableLocal mysqlcon pHandle].
  - by rewrite length_insert.
  - intros Heq. apply (f_equal length) in Heq. rewrite length_insert in Heq. by destruct (handleTableLocal s).
  - rewrite Hreg, <-list_fmap_compose. rewrite (list_fmap_ext _ topic_name); [done|].
    intros. apply counted_name.
  - rewrite Hreg, Forall_fmap. eapply Forall_impl; [exact Hhd|]. intros x. unfold compose.
    by rewrite counted_name, counted_bc.
  - rewrite drop_insert_lt; [done|]. unfold registered in Hlt. rewrite length_take in Hlt. lia.
  - intros _. rewrite length_insert. apply lookup_lt_Some in Hp. lia.
Qed.

Lemma set_cache_ok s p : table_ok s → 0 ≤ p < len (handleTableLocal s) →
  table_ok (mkState (handleTableLocal s) (topicNumLocal s) (msgcnt s) (mysqlcon s) p).
Proof. intros [] Hp. by split. Qed.

Lemma dispatch_loop_ok topic fuel : ∀ s idx,
  table_ok s → mysqlcon s = true → topic ≠ [] → (Z.to_nat (topicNumLocal s) < fuel + idx)%nat →
  topic ∉ topic_name <$> take idx (registered s) →
  ∃ s', dispatch_loop fuel s (Z.of_nat idx) topic = Returns (s', handler_of s topic) ∧
    counted_state topic s s'.
Proof.
  induction fuel as [|fuel IH]; intros s idx Hok Hcon Hne Hf Hnot; cbn [dispatch_loop];
    [|destruct (Z.ltb_spec (Z.of_nat idx) (topicNumLocal s)) as [Hlt|Hge]].
  2: { destruct (lookup_lt_is_Some_2 (handleTableLocal s) idx) as [e He];
         [pose proof (tab_num s Hok); lia|].
       rewrite Nat2Z.id, He. case_decide as Ht; [by eapply call_entry_ok|].
       set (s1 := mkState _ _ _ _ _).
       assert (Hok1 : table_ok s1).
       { apply set_cache_ok; [done|]. pose proof (tab_num s Hok). lia. }
       destruct (IH s1 (S idx) Hok1) as (s' & Hd & Hc); try done; [simpl; lia| |].
       - change (registered s1) with (registered s).
         assert (Hr : registered s !! idx = Some e) by (unfold registered; rewrite lookup_take_lt by lia; done).
         rewrite (take_S_r _ _ _ Hr), fmap_app. simpl. rewrite not_elem_of_app.
         split; [done|]. by rewrite list_elem_of_singleton.
       - exists s'. change (handler_of s1 topic) with (handler_of s topic) in Hd.
         split; [|by destruct Hc; split].
         rewrite <-Hd. f_equal. lia. }
  all: destruct (counted_none topic (registered s)) as [H1 H2];
    [rewrite take_ge in Hnot by (unfold registered; rewrite length_take; lia); done|].
  all: exists s; split; [unfold handler_of; by rewrite H2|]; by split.
Qed.

Lemma decode_msg_ok s topic : table_ok s → topic ≠ [] →
  ∃ s', decode_msg_handle true s topic = Returns (s', handler_of s topic) ∧ table_ok s' ∧
    topicNumLocal s' = topicNumLocal s ∧ msgcnt s' = u32 (msgcnt s + 1) ∧
    registered s' = counted topic <$> registered s.
Proof.
  intros Hok Hne. unfold decode_msg_handle.
  assert (∃ s2, (if mysqlcon s
      then Returns (mkState (handleTableLocal s) (topicNumLocal s) (u32 (msgcnt s + 1)) (mysqlcon s) (pHandle s))
      else Returns (mkState (handleTableLocal s) (topicNumLocal s) (u32 (msgcnt s + 1)) true 0)) = Returns s2 ∧
      table_ok s2 ∧ mysqlcon s2 = true ∧ handleTableLocal s2 = handleTableLocal s ∧
      topicNumLocal s2 = topicNumLocal s ∧ msgcnt s2 = u32 (msgcnt s + 1)) as (s2 & H2 & Hok2 & Hc2 & Ht2 & Hn2 & Hm2).
  { destruct Hok as [? Hn ? ? ? Hc]. destruct (mysqlcon s); eexists; (split; [done|]); (split; [|done]);
      split; try done. simpl. intros _. destruct (handleTableLocal s); [done|simpl; lia]. }
  assert (Hreg : registered s2 = registered s) by (unfold registered; congruence).
  assert (Hh : handler_of s2 topic = handler_of s topic) by (unfold handler_of; congruence).
  cbn [handleTableLocal topicNumLocal msgcnt]. rewrite H2. cbn [mbind outcome_bind].
  destruct (tab_cache s2 Hok2 Hc2) as [Hp0 Hp1].
  destruct (lookup_lt_is_Some_2 (handleTableLocal s2) (Z.to_nat (pHandle s2))) as [e He]; [lia|].
  rewrite He. case_decide as Ht.
  - destruct (call_entry_ok s2 _ e topic Hok2 Hc2 He Ht Hne) as (s' & Hcall & []).
    rewrite Z2Nat.id in Hcall by done. exists s'. rewrite Hcall, <-Hh, <-Hreg, <-Hn2, <-Hm2. done.
  - destruct (dispatch_loop_ok topic (S (Z.to_nat (topicNumLocal s2))) s2 0 Hok2 Hc2 Hne)
      as (s' & Hd & []); [lia|by apply not_elem_of_nil|].
    change (Z.of_nat 0) with 0 in Hd. exists s'. rewrite Hd, <-Hh, <-Hreg, <-Hn2, <-Hm2. done.
Qed.

(** Counting a message more or less on a topic. *)
Definition count_of (topics : list (list Z)) (name : list Z) : Z :=
  len (filter (λ t, t = name) topics).

Lemma counted_compose (n : Z) topic topics e :
  mkCmd (topic_name (counted topic e)) (u32 (cnt (counted topic e) + count_of topics (topic_name (counted topic e))))
    (bc (counted topic e)) =
  mkCmd (topic_name e) (u32 (cnt e + count_of (topic :: topics) (topic_name e))) (bc e).
Proof.
  rewrite counted_name, counted_bc. f_equal. unfold counted, count_of. rewrite filter_cons.
  case_decide; cbn [incr_cnt cnt length]; [|done].
  rewrite Nat2Z.inj_succ. unfold u32. rewrite Z.add_mod_idemp_l by done. f_equal. lia.
Qed.

(** ** Lemmas: the configuration *)

Lemma table_entry i e : ctr_handle_tab !! i = Some e → mkCmd (topic_name e) 0 (bc e) = e ∧
  topic_name e ≠ [] ∧ bc e ≠ None.
Proof.
  assert (H : Forall (λ e, mkCmd (topic_name e) 0 (bc e) = e ∧ topic_name e ≠ [] ∧ bc e ≠ None)
    ctr_handle_tab) by (repeat constructor; done).
  rewrite Forall_lookup in H. apply H.
Qed.

Lemma table_names : NoDup (topic_name <$> ctr_handle_tab).
Proof. apply (bool_decide_eq_true_1 _). by vm_compute. Qed.

Lemma sublist_names (l k : list cmd_pro) : l `sublist_of` k → (topic_name <$> l) `sublist_of` (topic_name <$> k).
Proof. induction 1; rewrite ?fmap_cons; by constructor. Qed.

(** The entries from [i] on that a flag function enables. *)
Definition select (flag : nat → bool) (i k : nat) : list cmd_pro :=
  concat ((λ j, if flag j then option_list (ctr_handle_tab !! j) else []) <$> seq i k).

Lemma select_sublist flag i k : select flag i k `sublist_of` take k (drop i ctr_handle_tab).
Proof.
  revert i. induction k as [|k IH]; intros i; [done|].
  unfold select. cbn [seq fmap list_fmap concat].
  destruct (ctr_handle_tab !! i) as [e|] eqn:He.
  - rewrite (drop_S _ _ _ He). cbn [take]. destruct (flag i); cbn [option_list app].
    + constructor. apply IH.
    + apply sublist_cons. apply IH.
  - apply lookup_ge_None in He. rewrite drop_ge by lia. rewrite take_nil.
    replace (if flag i then _ else _) with (@nil cmd_pro) by (by destruct (flag i)).
    specialize (IH (S i)). rewrite drop_ge, take_nil in IH by lia. exact IH.
Qed.

Lemma load_topics_ok file d flag num fuel : ∀ i k filled,
  (i + k = num)%nat → (k ≤ fuel)%nat → (num ≤ length ctr_handle_tab)%nat →
  (∀ j, (j < num)%nat → ∃ r, topic_flag file d (Z.of_nat j) = Some r ∧ flag j = (r =? 1)) →
  load_topics fuel file d (Z.of_nat num) (Z.of_nat i) filled = Some (filled ++ select flag i k).
Proof.
  induction fuel as [|fuel IH]; intros i k filled Hik Hf Hnum Hflag; cbn [load_topics].
  - assert (k = O) as -> by lia. by rewrite app_nil_r.
  - destruct k as [|k].
    + rewrite (proj2 (Z.ltb_ge _ _)) by lia. by rewrite app_nil_r.
    + rewrite (proj2 (Z.ltb_lt _ _)) by lia.
      destruct (Hflag i) as (r & Hr & Hri); [lia|]. rewrite Hr. cbn [mbind option_bind].
      destruct (lookup_lt_is_Some_2 ctr_handle_tab i) as [e He]; [lia|].
      rewrite Nat2Z.id, He. cbn [mbind option_bind].
      replace (Z.of_nat i + 1) with (Z.of_nat (S i)) by lia.
      rewrite (IH (S i) k) by (done || lia).
      unfold select at 2. cbn [seq fmap list_fmap concat]. fold (select flag (S i) k).
      rewrite Hri, He. destruct (r =? 1); cbn [option_list app]; [|done].
      destruct (table_entry i e He) as [-> _]. by rewrite <-app_assoc.
Qed.

Lemma select_entries flag i k : Forall (λ e, topic_name e ≠ [] ∧ bc e ≠ None ∧ cnt e = 0) (select flag i k).
Proof.
  unfold select. apply Forall_concat, Forall_fmap, Forall_forall. intros j _. unfold compose.
  destruct (flag j); [|constructor]. destruct (ctr_handle_tab !! j) as [e|] eqn:He; [|constructor].
  destruct (table_entry j e He) as (H0 & H1 & H2). repeat constructor; [done|done|]. by rewrite <-H0.
Qed.

Lemma select_length flag i k : (length (select flag i k) ≤ k)%nat.
Proof.
  pose proof (sublist_length _ _ (select_sublist flag i k)) as H.
  rewrite length_take in H. lia.
Qed.

Lemma loaded_ok filled (num : nat) : (length filled ≤ num)%nat → (0 < num)%nat →
  Forall (λ e, topic_name e ≠ [] ∧ bc e ≠ None ∧ cnt e = 0) filled → NoDup (topic_name <$> filled) →
  table_ok (mkState (filled ++ replicate (num - length filled) zero_cmd) (len filled) 0 false 0).
Proof.
  intros Hl Hn Hf Hnd.
  split; cbn [topicNumLocal handleTableLocal mysqlcon pHandle]; rewrite ?Nat2Z.id, ?take_app_length,
    ?drop_app_length; try done.
  - lens.
  - intros Heq. apply (f_equal length) in Heq. rewrite length_app, length_replicate in Heq.
    cbn [length] in Heq. lia.
  - eapply Forall_impl; [exact Hf|]. by intros e (? & ? & _).
  - by apply Forall_replicate.
Qed.

(** The setting of a topic in a configuration file. *)
Definition ini_topic (i : ini) (iDefault : Z) (n : nat) : Z :=
  match ini_lookup i (bs "TOPIC") (decimal (Z.of_nat n)) with
  | Some v => if len v =? 0 then iDefault else atoi v
  | None => iDefault
  end.

Definition ini_int (i : ini) (key : list Z) : Z :=
  atoi (default [] (ini_lookup i (bs "TOPIC") key)).

Lemma get_int i key : ini_ok i → key_ok key →
  GetInitInt (Some (render i)) (bs "TOPIC") key = Some (ini_int i key).
Proof.
  intros Hi Hk. unfold GetInitInt, ini_int. rewrite get_rendered by done.
  by destruct (ini_lookup i (bs "TOPIC") key).
Qed.

(** A property of every value of the file holds of a value looked up. *)
Lemma ini_lookup_Forall (P : list Z → Prop) i title key v :
  Forall (λ s, Forall (λ e, P e.2) s.2) i → ini_lookup i title key = Some v → P v.
Proof.
  intros Hi. unfold ini_lookup. destruct (list_find _ i) as [[a [t s]]|] eqn:Ef; [|done].
  apply list_find_Some in Ef as (Hs & _ & _).
  cbn [snd]. destruct (list_find (λ e, e.1 = key) s) as [[b [k w]]|] eqn:Eg; [|done].
  apply list_find_Some in Eg as (Hw & _ & _). cbn. intros [= <-].
  rewrite Forall_lookup in Hi. specialize (Hi _ _ Hs). rewrite Forall_lookup in Hi. exact (Hi _ _ Hw).
Qed.

Lemma decimal_ok n : (n < length ctr_handle_tab)%nat → key_ok (decimal (Z.of_nat n)).
Proof.
  intros Hn. assert (H : Forall (λ n, key_ok (decimal (Z.of_nat n))) (seq 0 7)).
  { repeat (constructor; [apply (bool_decide_eq_true_1 _); by vm_compute|]). constructor. }
  rewrite Forall_forall in H. apply H. apply elem_of_seq. simpl in Hn. lia.
Qed.

Lemma topic_flag_ini i d n : ini_ok i → (n < length ctr_handle_tab)%nat →
  (∀ v, ini_lookup i (bs "TOPIC") (decimal (Z.of_nat n)) = Some v → len v < resstr_size) →
  topic_flag (Some (render i)) d (Z.of_nat n) = Some (ini_topic i d n).
Proof.
  intros Hi Hn Hv. unfold topic_flag, copy_resstr, ini_topic.
  rewrite get_rendered by (done || by apply decimal_ok).
  destruct (ini_lookup i (bs "TOPIC") _) as [v|]; cbn [init_string mbind option_bind]; [|done].
  rewrite (proj2 (Z.ltb_lt _ _)) by (by apply Hv). done.
Qed.

(** The only exit is the one after a failed allocation. *)
Lemma initTopicConf_exits file n c : initTopicConf file n = Exits c → c = 1.
Proof.
  unfold initTopicConf. intros H.
  apply bind_Exits in H as [H|(d & _ & H)]; [by apply or_fault_Exits in H|].
  apply bind_Exits in H as [H|(m & _ & H)]; [by apply or_fault_Exits in H|].
  cbn beta zeta in H. destruct (_ <? 0); [by injection H|].
  apply bind_Exits in H as [H|(l & _ & H)]; [by apply or_fault_Exits in H|].
  by destruct (forallb _ _).
Qed.

(** ** Properties *)

(** The topic table made from any well-formed configuration file: the number
    of topics is the NUM key (the size of the built-in table when it is absent
    or zero, and at most that size), each of the first ones is enabled when its
    key, or DEFAULT when it has none, is 1; the enabled entries keep their
    order, names and handlers with counters at zero, and the table satisfies
    the invariant of the dispatcher. A negative NUM ends the process. *)
Theorem initTopicConf_render i : ini_ok i →
  (∀ n v, ini_lookup i (bs "TOPIC") (decimal (Z.of_nat n)) = Some v → len v < resstr_size) →
  let d := ini_int i (bs "DEFAULT") in
  let d := if (d =? 1) || (d =? 0) then d else 0 in
  let n := ini_int i (bs "NUM") in
  let num := Z.min (if n =? 0 then ctr_table_size else n) ctr_table_size in
  match initTopicConf (Some (render i)) ctr_table_size with
  | Faults => False
  | Exits c => num < 0 ∧ c = 1
  | Returns s => 0 < num ∧ table_ok s ∧ len (handleTableLocal s) = num ∧ msgcnt s = 0 ∧
      registered s = select (λ j, ini_topic i d j =? 1) 0 (Z.to_nat num)
  end.
Proof.
  intros Hi Hv d0 d n num. unfold initTopicConf.
  rewrite !get_int by (done || by apply (bool_decide_eq_true_1 _); vm_compute).
  cbn [or_fault mbind outcome_bind]. fold d0 n. fold d.
  replace (if ctr_table_size <? (if n =? 0 then ctr_table_size else n) then ctr_table_size
           else if n =? 0 then ctr_table_size else n) with num by (unfold num; case_leb).
  assert (Hnum : num ≤ 7 ∧ num ≠ 0) by (unfold num, ctr_table_size; simpl; case_leb).
  destruct (Z.ltb_spec num 0) as [Hneg|Hpos]; [done|].
  pose proof (load_topics_ok (Some (render i)) d (λ j, ini_topic i d j =? 1) (Z.to_nat num)
    (Z.to_nat num) 0 (Z.to_nat num) []) as Hload.
  rewrite Z2Nat.id in Hload by done. change (Z.of_nat 0) with 0 in Hload.
  rewrite Hload; [|lia|lia|simpl; lia|].
  2: { intros j Hj. eexists. split; [|done]. apply topic_flag_ini; [done|simpl; lia|].
       intros v. apply Hv. }
  cbn [or_fault mbind outcome_bind app].
  set (filled := select _ _ _). pose proof (select_entries (λ j, ini_topic i d j =? 1) 0 (Z.to_nat num)) as Hf.
  fold filled in Hf.
  assert (Hall : forallb (λ e, match bc e with Some _ => true | None => false end) filled = true).
  { rewrite forallb_forall. intros e He%list_elem_of_In. rewrite Forall_forall in Hf.
    destruct (Hf e He) as (_ & Hb & _). by destruct (bc e). }
  rewrite Hall.
  assert (Hlen : (length filled ≤ Z.to_nat num)%nat) by apply select_length.
  split; [lia|]. split; [|split; [|split; [done|]]].
  - apply loaded_ok; [done|lia|done|]. eapply sublist_NoDup; [apply table_names|].
    apply sublist_names. etrans; [apply select_sublist|]. etrans; [apply sublist_take|].
    apply sublist_drop.
  - cbn [handleTableLocal]. lens.
  - unfold registered. cbn [topicNumLocal handleTableLocal]. by rewrite Nat2Z.id, take_app_length.
Qed.

Definition topics_ini : ini :=
  [(bs "MQTT", [(bs "MQTT_KEEPALIVE", bs "20")]);
   (bs "TOPIC", [(bs "DEFAULT", bs "1"); (bs "NUM", bs "4"); (bs "0", bs "0"); (bs "2", bs "1")])].

Lemma initTopicConf_render_witness :
  ini_ok topics_ini ∧
  match initTopicConf (Some (render topics_ini)) ctr_table_size with
  | Returns s => topic_name <$> registered s = [bs "SFR123"; bs "RS4123"; bs "RDC123"]
  | _ => False
  end.
Proof.
  assert (Hi : ini_ok topics_ini) by (apply (bool_decide_eq_true_1 _); by vm_compute).
  split; [exact Hi|].
  assert (Hv : ∀ n v, ini_lookup topics_ini (bs "TOPIC") (decimal (Z.of_nat n)) = Some v →
    len v < resstr_size).
  { intros n v. apply (ini_lookup_Forall (λ v, len v < resstr_size)).
    repeat constructor; by vm_compute. }
  pose proof (initTopicConf_render topics_ini Hi Hv) as H. cbv zeta in H.
  destruct (initTopicConf _ _) as [|c|s]; [done|by destruct H as [? _]; vm_compute in H|].
  destruct H as (_ & _ & _ & _ & ->). by vm_compute.
Defined.

Lemma run_messages_ok topics : ∀ s, table_ok s → Forall (λ t, t ≠ []) topics →
  ∃ s', run_messages s topics = Returns (s', concat (handler_of s <$> topics)) ∧ table_ok s' ∧
    (is_u32 (msgcnt s) → msgcnt s' = u32 (msgcnt s + len topics)) ∧
    (Forall (λ e, is_u32 (cnt e)) (registered s) →
     registered s' = (λ e, mkCmd (topic_name e) (u32 (cnt e + count_of topics (topic_name e))) (bc e))
       <$> registered s).
Proof.
  induction topics as [|t topics IH]; intros s Hok Ht.
  - exists s. split; [done|]. split; [done|]. split.
    + intros Hm. rewrite Z.add_0_r, u32_small; done.
    + intros Hc. rewrite <-(list_fmap_id (registered s)) at 1. apply list_fmap_ext.
      intros j e He. rewrite Forall_lookup in Hc. specialize (Hc j e He). unfold count_of. cbn.
      rewrite Z.add_0_r, u32_small by done. by destruct e.
  - apply Forall_cons in Ht as [Ht0 Ht].
    destruct (decode_msg_ok s t Hok Ht0) as (s1 & Hd & Hok1 & _ & Hm1 & Hr1).
    destruct (IH s1 Hok1 Ht) as (s2 & Hrun & Hok2 & Hm2 & Hr2).
    exists s2. cbn [run_messages]. rewrite Hd. cbn [mbind outcome_bind]. rewrite Hrun.
    assert (Hh : ∀ u, handler_of s1 u = handler_of s u).
    { intros u. unfold handler_of. rewrite Hr1. clear.
      induction (registered s) as [|e l IHl]; [done|]. rewrite fmap_cons. cbn [handlers_of].
      by rewrite IHl, counted_name, counted_bc. }
    split; [|split; [done|split]].
    + rewrite fmap_cons. cbn [concat outcome_bind].
      by rewrite (list_fmap_ext (handler_of s1) (handler_of s)) by (intros; apply Hh).
    + intros Hm. rewrite Hm2 by (rewrite Hm1; unfold is_u32, u32; apply Z.mod_pos_bound; lia).
      rewrite Hm1. unfold u32. rewrite Z.add_mod_idemp_l by done. f_equal. cbn [length]. lia.
    + intros Hc. rewrite Hr2, Hr1.
      * rewrite <-list_fmap_compose. apply list_fmap_ext. intros j e _. apply (counted_compose 0).
      * rewrite Hr1, Forall_fmap. eapply Forall_impl; [exact Hc|]. intros e He. unfold compose, counted.
        case_decide; [|done]. unfold is_u32, incr_cnt, u32. cbn. apply Z.mod_pos_bound. lia.
Qed.

(** The dispatch of any sequence of messages: whatever entry the cache holds,
    each message on a registered topic calls exactly the handler registered
    under its name, in the order of arrival, and a message on another topic
    calls none; every registered counter grows by the number of messages of
    its topic and the global counter by their total (modulo 2^32). *)
Theorem run_messages_counts s topics : table_ok s → Forall (λ t, t ≠ []) topics →
  is_u32 (msgcnt s) → Forall (λ e, is_u32 (cnt e)) (registered s) →
  ∃ s', run_messages s topics = Returns (s', concat (handler_of s <$> topics)) ∧
    table_ok s' ∧ msgcnt s' = u32 (msgcnt s + len topics) ∧
    registered s' = (λ e, mkCmd (topic_name e) (u32 (cnt e + count_of topics (topic_name e))) (bc e))
      <$> registered s.
Proof.
  intros Hok Ht Hm Hc. destruct (run_messages_ok topics s Hok Ht) as (s' & ? & ? & ? & ?).
  exists s'. split; [done|]. split; [done|]. auto.
Qed.

(** Two enabled topics, no message yet. *)
Definition two_topics : state :=
  mkState [mkCmd (bs "RRS123") 0 (Some H_do_A1); mkCmd (bs "TEST12") 0 (Some H_do_test); zero_cmd]
    2 0 false 0.

Lemma two_topics_ok : table_ok two_topics.
Proof.
  split; try (by repeat constructor); cbn [topicNumLocal two_topics handleTableLocal mysqlcon]; try done.
  apply (bool_decide_eq_true_1 _). by vm_compute.
Qed.

Lemma run_messages_counts_witness :
  table_ok two_topics ∧
  ∃ s', run_messages two_topics [bs "TEST12"; bs "TEST12"; bs "OTHER"; bs "RRS123"]
    = Returns (s', [H_do_test; H_do_test; H_do_A1]).
Proof.
  split; [exact two_topics_ok|].
  destruct (run_messages_counts two_topics [bs "TEST12"; bs "TEST12"; bs "OTHER"; bs "RRS123"]
    two_topics_ok ltac:(repeat constructor; done) ltac:(done)
    ltac:(repeat constructor; done)) as (s' & H & _).
  exists s'. exact H.
Defined.

(** When no topic is enabled, a message on the empty topic hits the zeroed
    entry in the cache and calls its NULL handler. *)
Example empty_topic_faults :
  decode_msg_handle true (mkState (replicate 7 zero_cmd) 0 0 false 0) [] = Faults.
Proof. done. Qed.

(** After two hours the statistics print 120 as the minutes of '2h'. *)
Example stats_minutes : stats_time 7200 0 = (2, 120, 0).
Proof. done. Qed.

End Topics.
