(* ===== verification/AppRuntime.v ===== *)
(** * The runtime of the bridge (core/mqtta.c, core/core.c, lib/mysql.sdk.c,
    lib/decode.c, lib/cmd.init.c, src/main.c)

    The connection to the broker and its reconnection loop, the SQL execution
    with its two reconnections, the heartbeat of the Hall thread, the command
    table and the start of the process. The MySQL client library, the system
    calls and the results of the MQTTAsync calls are parameters. *)
From Stdlib Require Import Sorting.Sorted.
From S2P Require Import Prelude AppConfig AppTopics.

(** ** The MySQL wrapper (mysql.sdk.c) *)

Module Mysql.

Definition CR_SERVER_GONE_ERROR := 2006.
Definition CR_SERVER_LOST := 2013.

Inductive db_event := EQuery | EClose | EInit | ESleep (seconds : Z) | EConnect.

#[export] Instance db_event_eq_dec : EqDecision db_event.
Proof. solve_decision. Defined.

Definition lower (c : Z) : Z := if (65 <=? c) && (c <=? 90) then c + 32 else c.

(** [!strncasecmp(mysql_error(mysql), "MySQL server has gone away", 26)]. *)
Definition gone_away (error : list Z) : bool :=
  bool_decide (lower <$> take 26 error = lower <$> bs "MySQL server has gone away").

Definition lost (ret : Z) : bool := (ret =? CR_SERVER_GONE_ERROR) || (ret =? CR_SERVER_LOST).

Definition reconnect_events : list db_event := [EClose; EInit; ESleep 2; EConnect].

Section Mysql.
(** The library: the return code and the error text of the n-th query of the
    call, the success of the n-th connection. *)
Context (query : nat → Z * list Z) (real_connect : nat → bool).

(** Closing and reconnecting, then the query again if that worked: the new
    return code and the number of queries made. *)
Definition reconnect (attempt nq : nat) (ret : Z) : Z * nat * list db_event :=
  if real_connect attempt
  then (fst (query nq), S nq, reconnect_events ++ [EQuery])
  else (ret, nq, reconnect_events).

Definition excuteSql2 : Z * list db_event :=
  let '(ret, error) := query 0%nat in
  if ret =? 0 then (ret, [EQuery])
  else
    let ret := if gone_away error then CR_SERVER_GONE_ERROR else ret in
    if lost ret then
      let '(ret, nq, ev1) := reconnect 0 1 ret in
      if lost ret then
        let '(ret, nq, ev2) := reconnect 1 nq ret in
        (ret, [EQuery] ++ ev1 ++ ev2)
      else (ret, [EQuery] ++ ev1)
    else (ret, [EQuery]).

(** The same statements after a line of log. *)
Definition excuteSql : Z * list db_event := excuteSql2.

(** [mysqlConnetInit] ends the process when the connection fails. *)
Definition mysqlConnetInit : outcome Z := if real_connect 0%nat then Returns 0 else Exits 1.

(** [db_init]: a NULL connection also ends the process, with status 0. *)
Definition db_init (db_null : bool) : outcome Z :=
  if db_null then Exits 0
  else r ← mysqlConnetInit; Returns (if r =? 0 then 0 else 1).

(** *** Lemmas *)

Definition queries (ev : list db_event) : Z :=
  foldr (λ e n, match e with EQuery => 1 + n | _ => n end) 0 ev.
Definition connections (ev : list db_event) : Z :=
  foldr (λ e n, match e with EConnect => 1 + n | _ => n end) 0 ev.

(** Evaluates the counts of a concrete list of events. *)
Ltac count_events :=
  repeat match goal with
  | |- context [Z.to_nat (queries ?l - 1)] =>
      let n := eval vm_compute in (Z.to_nat (queries l - 1)) in
      change (Z.to_nat (queries l - 1)) with n
  | |- context [queries ?l] =>
      let n := eval vm_compute in (queries l) in change (queries l) with n
  | |- context [connections ?l] =>
      let n := eval vm_compute in (connections l) in change (connections l) with n
  end.

(** The SQL wrapper answers the code of a query it made, or the lost-connection
    code when the reconnections failed; it makes at most three queries and
    two reconnections, and none of them after a success. *)
Theorem excuteSql_spec :
  let '(ret, ev) := excuteSql in
  1 ≤ queries ev ≤ 3 ∧ connections ev ≤ 2 ∧ queries ev ≤ 1 + connections ev ∧
  (ret = 0 ↔ fst (query (Z.to_nat (queries ev - 1))) = 0) ∧
  (connections ev = 0 ↔ fst (query 0%nat) = 0 ∨
     (lost (fst (query 0%nat)) = false ∧ gone_away (snd (query 0%nat)) = false)) ∧
  (connections ev = 2 → ret ≠ 0 → lost ret = true ∨ ret = fst (query (Z.to_nat (queries ev - 1)))).
Proof.
  unfold excuteSql, excuteSql2, reconnect. destruct (query 0%nat) as [ret error] eqn:Hq. cbn [fst snd].
  destruct (Z.eqb_spec ret 0) as [->|Hne]; [by count_events; rewrite ?Hq; intuition (congruence || lia)|].
  destruct (gone_away error) eqn:Hg, (lost ret) eqn:Hlr, (real_connect 0%nat) eqn:Hc0;
    try change (lost CR_SERVER_GONE_ERROR) with true; cbn iota; rewrite ?Hlr;
    try (destruct (lost (fst (query 1%nat))) eqn:Hl); try (destruct (real_connect 1%nat) eqn:Hc1);
    count_events; rewrite ?Hq; cbn [fst snd]; intuition (discriminate || congruence || lia).
Qed.

End Mysql.
End Mysql.

(** ** The MQTT connection (mqtta.c) *)

Module Mqtta.
Import Config Topics.

Definition MQTTASYNC_SUCCESS := 0.
Definition EXIT_FAILURE := 1.

(** The fields of [client_conn_opts] that this file sets; the strings are
    pointers to the globals. *)
Record connectOptions := mkOpts {
  keepAliveInterval : Z;
  cleansession : Z;
  onFailure_set : bool;
  context_set : bool;
  username : option (list Z);
  password : option (list Z)
}.

Definition MQTTAsync_connectOptions_initializer : connectOptions :=
  mkOpts 60 1 false false None None.

(** The calls of the MQTTAsync interface that the bridge makes. *)
Inductive mqtt_event :=
  | MCreate (uri clientID : list Z)
  | MSetCallbacks
  | MConnect (opts : connectOptions)
  | MIsConnected
  | MSubscribe (topic : list Z) (qos : Z)
  | MUnsubscribe (topic : list Z)
  | MSendMessage (topic : list Z)
  | MFreeMessage
  | MFree
  | MSleep (seconds : Z).

Section Mqtta.
(** The result of the n-th [MQTTAsync_connect] of the call. *)
Context (connect : nat → Z).

(** [do ... while ((rc != MQTTASYNC_SUCCESS) && (0 != count))]. *)
Fixpoint reconnect_loop (count : nat) (n : nat) (opts : connectOptions) : Z * list mqtt_event :=
  let rc := connect n in
  let ev := [MSleep 3; MConnect opts] in
  match count with
  | O | S O => (rc, ev)
  | S count' =>
      if rc =? MQTTASYNC_SUCCESS then (rc, ev)
      else let '(rc', ev') := reconnect_loop count' (S n) opts in (rc', ev ++ ev')
  end.

Definition set_session (g : globals) (opts : connectOptions) : connectOptions :=
  mkOpts (MQTT_KEEPALIVE_g g) 1 (onFailure_set opts) (context_set opts) (username opts) (password opts).

Definition myReconnctMQTT (g : globals) (opts : connectOptions)
    : connectOptions * Z * list mqtt_event :=
  let opts := set_session g opts in
  let '(rc, ev) := reconnect_loop 100 0 opts in (opts, rc, ev).

(** The callbacks: both only start the reconnection. *)
Definition connlost := myReconnctMQTT.
Definition onConFailure := myReconnctMQTT.
End Mqtta.

(** [rc] is the result of [MQTTAsync_sendMessage]. *)
Definition my_mqqta_sendmsg (rc : Z) (topicName : list Z) : Z * list mqtt_event :=
  (if negb (rc =? MQTTASYNC_SUCCESS) then EXIT_FAILURE else rc, [MSendMessage topicName]).

(** The message is decoded, then it and its topic are freed; always 1. *)
Definition my_mqqta_recvmsg (connected : bool) (s : state) (topicName : list Z)
    : outcome (Z * state * list handler * list mqtt_event) :=
  '(s', hs) ← decode_msg_handle connected s topicName;
  Returns (1, s', hs, [MFreeMessage; MFree]).

Definition my_subsribe_topic (rc : Z) (topic : list Z) (qos : Z) : Z * list mqtt_event :=
  (rc, [MSubscribe topic qos]).
Definition my_unsubsribe_topic (rc : Z) (topic : list Z) (qos : Z) : Z * list mqtt_event :=
  (rc, [MUnsubscribe topic]).

(** The results of the four calls of [init_mqtt_client]; each failure ends the
    process, the assertion on the connection aborts it. *)
Definition init_mqtt_client (create setCallbacks connect : Z) (isConnected : bool) (g : globals)
    (opts : connectOptions) : outcome (Z * connectOptions * list mqtt_event) :=
  if negb (create =? MQTTASYNC_SUCCESS) then Exits EXIT_FAILURE
  else if negb (setCallbacks =? MQTTASYNC_SUCCESS) then Exits EXIT_FAILURE
  else
    let opts := mkOpts (MQTT_KEEPALIVE_g g) 1 true true
                  (Some (MQTT_USERNAME_g g)) (Some (MQTT_PWD_g g)) in
    if negb (connect =? MQTTASYNC_SUCCESS) then Exits EXIT_FAILURE
    else if negb isConnected then Faults
    else Returns (connect, opts,
           [MCreate (MQTT_SVR_IP_g g) (MQTT_CLIENTID_g g); MSetCallbacks; MConnect opts;
            MSleep 2; MIsConnected]).

(** [core_init] (core.c): the client, the topic table, the subscriptions. *)
Definition core_init (create setCallbacks connect : Z) (isConnected : bool) (g : globals)
    (file : option (list Z)) : outcome (Z * state * list mqtt_event) :=
  '(_, _, ev) ← init_mqtt_client create setCallbacks connect isConnected g
                  MQTTAsync_connectOptions_initializer;
  s ← initTopicConf file ctr_table_size;
  Returns (0, s, ev ++ [MSleep 1]
           ++ concat ((λ '(t, q), [MSubscribe t q; MSleep 2]) <$> regTopicFromTable s)).

(** *** Lemmas *)

Lemma reconnect_loop_spec connect opts count : ∀ n, (0 < count)%nat →
  ∃ k, (1 ≤ k ≤ count)%nat ∧
    reconnect_loop connect count n opts =
      (connect (n + k - 1)%nat, concat (replicate k [MSleep 3; MConnect opts])) ∧
    (∀ j, (j < k - 1)%nat → connect (n + j)%nat ≠ MQTTASYNC_SUCCESS) ∧
    (connect (n + k - 1)%nat = MQTTASYNC_SUCCESS ∨ k = count).
Proof.
  induction count as [|count IH]; intros n Hc; [lia|]. cbn [reconnect_loop].
  destruct count as [|count].
  { exists 1%nat. replace (n + 1 - 1)%nat with n by lia. split; [lia|]. split; [done|].
    split; [lia|by right]. }
  destruct (Z.eqb_spec (connect n) MQTTASYNC_SUCCESS) as [Hs|Hf].
  - exists 1%nat. replace (n + 1 - 1)%nat with n by lia. split; [lia|]. split; [done|].
    split; [lia|by left].
  - destruct (IH (S n)) as (k & Hk & -> & Hbefore & Hlast); [lia|].
    exists (S k). replace (n + S k - 1)%nat with (S n + k - 1)%nat by lia.
    split; [lia|]. split; [done|]. split.
    + intros [|j] Hj; [by rewrite Nat.add_0_r|]. replace (n + S j)%nat with (S n + j)%nat by lia.
      apply Hbefore. lia.
    + destruct Hlast; [by left|right; lia].
Qed.

(** The reconnection always ends: it makes between one and a hundred attempts,
    three seconds apart, with the configured keep-alive interval and a clean
    session, stops at the first one that succeeds, and gives up only after a
    hundred failures. *)
Theorem myReconnctMQTT_bounded connect g opts :
  ∃ k opts', (1 ≤ k ≤ 100)%nat ∧
    myReconnctMQTT connect g opts
      = (opts', connect (k - 1)%nat, concat (replicate k [MSleep 3; MConnect opts'])) ∧
    keepAliveInterval opts' = MQTT_KEEPALIVE_g g ∧ cleansession opts' = 1 ∧
    username opts' = username opts ∧ password opts' = password opts ∧
    (∀ j, (j < k - 1)%nat → connect j ≠ MQTTASYNC_SUCCESS) ∧
    (connect (k - 1)%nat = MQTTASYNC_SUCCESS ∨ k = 100%nat).
Proof.
  destruct (reconnect_loop_spec connect (set_session g opts) 100 0) as (k & Hk & He & Hb & Hl); [lia|].
  exists k, (set_session g opts). unfold myReconnctMQTT. rewrite He. cbn in Hb, Hl.
  split; [done|]. split; [done|]. repeat split; done.
Qed.

(** What the bridge does before it subscribes. *)
Definition startup_events (g : globals) : list mqtt_event :=
  let opts := mkOpts (MQTT_KEEPALIVE_g g) 1 true true
                (Some (MQTT_USERNAME_g g)) (Some (MQTT_PWD_g g)) in
  [MCreate (MQTT_SVR_IP_g g) (MQTT_CLIENTID_g g); MSetCallbacks; MConnect opts; MSleep 2;
   MIsConnected; MSleep 1].

(** [core_init] returns only with a connected client and a topic table, after
    connecting with the configured address and credentials and subscribing
    with QoS 0 to exactly the registered topics, each once and in the order of
    the table; any failed call of the client library ends the process. *)
Theorem core_init_subscribes create setCallbacks connect isConnected g file :
  match core_init create setCallbacks connect isConnected g file with
  | Returns (rc, s, ev) =>
      rc = 0 ∧ create = 0 ∧ setCallbacks = 0 ∧ connect = 0 ∧ isConnected = true ∧
      initTopicConf file ctr_table_size = Returns s ∧
      ev = startup_events g ++
        concat ((λ e, match bc e with Some _ => [MSubscribe (topic_name e) 0; MSleep 2] | None => [] end)
          <$> registered s)
  | Exits c => c = 1
  | Faults => isConnected = false ∨ initTopicConf file ctr_table_size = Faults
  end.
Proof.
  unfold core_init, init_mqtt_client, EXIT_FAILURE, MQTTASYNC_SUCCESS.
  destruct (Z.eqb_spec create 0) as [->|]; [|done].
  destruct (Z.eqb_spec setCallbacks 0) as [->|]; [|done].
  destruct (Z.eqb_spec connect 0) as [->|]; [|done].
  destruct isConnected; [|by left]. cbn [negb mbind outcome_bind].
  destruct (initTopicConf file ctr_table_size) as [|c|s] eqn:Hi; cbn [outcome_bind].
  - by right.
  - by eapply initTopicConf_exits.
  - do 6 (split; [done|]). cbn. do 6 f_equal. unfold regTopicFromTable. fold (registered s).
    clear. induction (registered s) as [|e l IH]; [done|]. rewrite fmap_cons. cbn.
    destruct (bc e); [|exact IH]. rewrite fmap_cons. cbn. by rewrite IH.
Qed.

End Mqtta.

(** ** The threads (decode.c, core.c) *)

Module Threads.
Import Config.

(** [core_heart] and [core_heart_1s]: both return their argument as an [int]. *)
Definition core_heart (nowTime : Z) : Z := s32 nowTime.
Definition core_heart_1s (nowTime : Z) : Z := s32 nowTime.

Inductive beat := Heart (now : Z) | Heart1s (now : Z) | TooLong (used : Z).

(** One turn of the loop of [Hall]: [now] is the value of [timeGloble_g] read at
    its start and [later] the one at its end (another thread writes it). The
    difference is computed in [unsigned int]. *)
Definition hall_turn (lastHeartTime now later : Z) : Z * list beat :=
  let '(last, one) :=
    if lastHeartTime =? now then (lastHeartTime, []) else (now, [Heart1s now]) in
  (last, Heart now :: one ++ (if 1 <? u32 (later - now) then [TooLong (u32 (later - now))] else [])).

Fixpoint hall_loop (lastHeartTime : Z) (turns : list (Z * Z)) : list beat :=
  match turns with
  | [] => []
  | (now, later) :: turns' =>
      let '(last, beats) := hall_turn lastHeartTime now later in
      beats ++ hall_loop last turns'
  end.

(** [Hall] after [core_init]: no heartbeat unless [DB_SCAN_ENABLE_g] is set. *)
Definition Hall (g : globals) (turns : list (Z * Z)) : list beat :=
  if DB_SCAN_ENABLE_g g =? 0 then [] else hall_loop 0 turns.

(** The values [pthTime] gives to [timeGloble_g] and [timeBegin_g]: [time(NULL)]
    at the start, then the seconds of each [gettimeofday]. *)
Definition pthTime (start : Z) (tv_secs : list Z) : Z * list Z :=
  (u32 start, u32 start :: (u32 <$> tv_secs)).

(** *** Lemmas *)

(** The seconds of the one-second heartbeats. *)
Fixpoint seconds (beats : list beat) : list Z :=
  match beats with
  | [] => []
  | Heart1s t :: beats' => t :: seconds beats'
  | _ :: beats' => seconds beats'
  end.

Lemma seconds_app b1 b2 : seconds (b1 ++ b2) = seconds b1 ++ seconds b2.
Proof. induction b1 as [|[] b1 IH]; cbn; by rewrite ?IH. Qed.

Lemma seconds_turn last now later :
  seconds (snd (hall_turn last now later)) = (if last =? now then [] else [now]) ∧
  fst (hall_turn last now later) = now.
Proof.
  unfold hall_turn. destruct (Z.eqb_spec last now) as [->|]; by destruct (1 <? _).
Qed.

(** The adjacent repetitions of a sequence removed. *)
Fixpoint dedup (last : Z) (ts : list Z) : list Z :=
  match ts with
  | [] => []
  | t :: ts' => if last =? t then dedup last ts' else t :: dedup t ts'
  end.

Lemma hall_loop_seconds turns : ∀ last, seconds (hall_loop last turns) = dedup last (fst <$> turns).
Proof.
  induction turns as [|[now later] turns IH]; intros last; [done|]. rewrite fmap_cons.
  cbn [hall_loop dedup fst]. destruct (seconds_turn last now later) as [Hs Hl].
  destruct (hall_turn last now later) as [l b]. cbn [fst snd] in *. subst l.
  rewrite seconds_app, Hs, IH. destruct (Z.eqb_spec last now) as [->|]; done.
Qed.

Lemma dedup_increasing ts : ∀ last, Sorted Z.le (last :: ts) →
  StronglySorted Z.lt (last :: dedup last ts) ∧ (∀ t, t ∈ last :: dedup last ts ↔ t ∈ last :: ts).
Proof.
  induction ts as [|t ts IH]; intros last Hs; [split; [by repeat constructor|done]|].
  apply Sorted_inv in Hs as [Hs Hhd]. apply HdRel_inv in Hhd. cbn [dedup].
  destruct (IH t Hs) as [Hst Hin]. destruct (Z.eqb_spec last t) as [->|Hne].
  - split; [done|]. intros u. rewrite Hin. set_solver.
  - split; [|intros u; rewrite !elem_of_cons, <-elem_of_cons, Hin; set_solver].
    constructor; [done|]. apply Forall_forall. intros u Hu. apply StronglySorted_inv in Hst as [_ Hall].
    apply elem_of_cons in Hu as [->|Hu]; [lia|]. rewrite Forall_forall in Hall. specialize (Hall u Hu). lia.
Qed.

(** The one-second heartbeat: while the clock does not go back, [core_heart_1s]
    is called once for every distinct second that the loop reads, in increasing
    order, whatever the number of turns in a second; [core_heart] is called on
    every turn, and nothing is called when the scan is disabled. *)
Theorem Hall_heartbeats g turns : Sorted Z.le (0 :: (fst <$> turns)) →
  Forall (λ t, 0 < t) (fst <$> turns) →
  if DB_SCAN_ENABLE_g g =? 0 then Hall g turns = []
  else StronglySorted Z.lt (seconds (Hall g turns)) ∧
       (∀ t, t ∈ seconds (Hall g turns) ↔ t ∈ fst <$> turns) ∧
       omap (λ b, match b with Heart t => Some t | _ => None end) (Hall g turns) = fst <$> turns.
Proof.
  intros Hs Hpos. unfold Hall. destruct (_ =? 0); [done|].
  destruct (dedup_increasing _ _ Hs) as [Hst Hin]. rewrite hall_loop_seconds.
  apply StronglySorted_inv in Hst as [Hst Hlt]. split; [done|]. split.
  - intros t. specialize (Hin t). rewrite !elem_of_cons in Hin.
    rewrite Forall_forall in Hlt, Hpos. specialize (Hlt t). specialize (Hpos t).
    split; intros Ht; [destruct (proj1 Hin (or_intror Ht)) as [->|]|destruct (proj2 Hin (or_intror Ht)) as [->|]];
      naive_solver lia.
  - clear. generalize 0. induction turns as [|[now later] turns IH]; intros last; [done|].
    rewrite fmap_cons. cbn [hall_loop fst]. destruct (hall_turn last now later) as [l b] eqn:Hb.
    rewrite omap_app, IH. unfold hall_turn in Hb.
    destruct (last =? now), (1 <? _); injection Hb as <- <-; done.
Qed.

Lemma Hall_heartbeats_witness :
  Sorted Z.le (0 :: (fst <$> [(5, 5); (5, 5); (6, 6); (8, 8); (8, 10)])) ∧
  Forall (λ t, 0 < t) (fst <$> [(5, 5); (5, 5); (6, 6); (8, 8); (8, 10)]) ∧
  let g := {| MQTT_CLIENTID_g := []; MQTT_USERNAME_g := []; MQTT_PWD_g := []; MQTT_SVR_IP_g := [];
              MQTT_KEEPALIVE_g := 45; DB_SCAN_ENABLE_g := 1; TIME_SYNC_INTERVAL_g := 0;
              GAME_HEART_BEAT_g := 1; MYSQL_SERVERIP := []; MYSQL_USERID := [];
              MYSQL_PASSWD := []; MYSQL_DATABASE := [] |} in
  StronglySorted Z.lt (seconds (Hall g [(5, 5); (5, 5); (6, 6); (8, 8); (8, 10)])).
Proof.
  assert (H1 : Sorted Z.le (0 :: (fst <$> [(5, 5); (5, 5); (6, 6); (8, 8); (8, 10)])))
    by (repeat constructor; cbn; lia).
  assert (H2 : Forall (λ t, 0 < t) (fst <$> [(5, 5); (5, 5); (6, 6); (8, 8); (8, 10)]))
    by (repeat constructor; cbn; lia).
  split; [exact H1|]. split; [exact H2|]. intros g. exact (proj1 (Hall_heartbeats g _ H1 H2)).
Defined.

End Threads.

(** ** The command table (cmd.init.c) *)

Module Commands.

Definition MAX_CMD_TYPE : nat := 256.
Definition MAX_CMD_VALUE : nat := 256.

(** [sCmdMap]: NULL or a table of processes; a process is an address, 0 is NULL. *)
Abbreviation cmd_map := (list (option (list Z))).
Definition sCmdMap_init : cmd_map := replicate MAX_CMD_TYPE None.

(** [calloc] succeeds when [mem]; [cmd] is an [unsigned short], the array has 256
    entries. *)
Definition cmdAddType (mem : bool) (m : cmd_map) (cmd : Z) : outcome (Z * cmd_map) :=
  match m !! Z.to_nat cmd with
  | None => Faults
  | Some (Some _) => Returns (0, m)
  | Some None =>
      if mem then Returns (1, <[Z.to_nat cmd := Some (replicate MAX_CMD_VALUE 0)]> m)
      else Returns (0, m)
  end.

(** A type that was not added is a NULL table, written through. *)
Definition cmdRegister (m : cmd_map) (cmd value proc : Z) : outcome (Z * cmd_map) :=
  match m !! Z.to_nat cmd with
  | None | Some None => Faults
  | Some (Some procs) =>
      match procs !! Z.to_nat value with
      | None => Faults
      | Some old =>
          if negb (old =? 0) then Returns (0, m)
          else Returns (if proc =? 0 then 0 else 1,
                        <[Z.to_nat cmd := Some (<[Z.to_nat value := proc]> procs)]> m)
      end
  end.

(** Both arguments are [unsigned char]. *)
Definition cmdGetProc (m : cmd_map) (cmd value : Z) : outcome Z :=
  match m !! Z.to_nat cmd with
  | None => Faults
  | Some None => Returns 0
  | Some (Some procs) => or_fault (procs !! Z.to_nat value)
  end.

(** The invariant: 256 entries, the tables added have 256 processes. *)
Definition map_ok (m : cmd_map) : Prop :=
  length m = MAX_CMD_TYPE ∧ Forall (λ o, ∀ t, o = Some t → length t = MAX_CMD_VALUE) m.

Definition added (m : cmd_map) (cmd : Z) : bool :=
  match m !! Z.to_nat cmd with Some (Some _) => true | _ => false end.

Lemma map_ok_init : map_ok sCmdMap_init.
Proof. split; [apply length_replicate|]. by apply Forall_replicate. Qed.

Lemma map_ok_entry m cmd t : map_ok m → m !! Z.to_nat cmd = Some (Some t) → length t = MAX_CMD_VALUE.
Proof. intros [_ H] Hl. rewrite Forall_lookup in H. exact (H _ _ Hl t eq_refl). Qed.

(** The command table: adding a type succeeds once, registering in an added
    type succeeds once per value and never replaces a process, and
    [cmdGetProc] then finds the process registered and is unchanged at every
    other command; a type of 256 or more is read out of the array, and
    registering in a type that was not added writes through NULL. *)
Theorem cmdRegister_correct m cmd value proc : map_ok m → is_u16 cmd → is_byte value →
  match cmdRegister m cmd value proc with
  | Faults => 256 ≤ cmd ∨ added m cmd = false
  | Exits _ => False
  | Returns (r, m') => map_ok m' ∧ added m cmd = true ∧ cmd < 256 ∧
      (cmdGetProc m cmd value = Returns 0 →
         r = (if proc =? 0 then 0 else 1) ∧ cmdGetProc m' cmd value = Returns proc) ∧
      (cmdGetProc m cmd value ≠ Returns 0 → r = 0 ∧ m' = m) ∧
      (∀ c v, is_byte c → is_byte v → (c, v) ≠ (cmd, value) →
         cmdGetProc m' c v = cmdGetProc m c v)
  end.
Proof.
  intros Hok Hc Hv. unfold is_u16, is_byte in *. unfold cmdRegister, added, cmdGetProc.
  destruct (m !! Z.to_nat cmd) as [[procs|]|] eqn:Hm;
    [|by right|left; apply lookup_ge_None in Hm; destruct Hok as [Hlen _]; unfold MAX_CMD_TYPE in Hlen; lia].
  pose proof (map_ok_entry m cmd procs Hok Hm) as Hlp. unfold MAX_CMD_VALUE in Hlp.
  destruct Hok as [Hlen Hall]. pose proof (lookup_lt_Some _ _ _ Hm) as Hlt. unfold MAX_CMD_TYPE in Hlen.
  destruct (lookup_lt_is_Some_2 procs (Z.to_nat value)) as [old Ho]; [lia|]. rewrite Ho.
  cbn [or_fault]. destruct (Z.eqb_spec old 0) as [->|Hne]; cbn [negb].
  - split; [split|split; [done|split; [lia|split; [|split; [done|]]]]].
    + by rewrite length_insert.
    + apply Forall_insert; [done|]. intros t [= <-]. by rewrite length_insert.
    + intros _. split; [done|]. rewrite list_lookup_insert_eq by lia.
      by rewrite list_lookup_insert_eq by lia.
    + intros c v Hcc Hvv Hcv. destruct (decide (c = cmd)) as [->|Hn].
      * rewrite list_lookup_insert_eq by lia. rewrite Hm.
        rewrite list_lookup_insert_ne; [done|]. intros Heq. apply Hcv. f_equal. lia.
      * by rewrite list_lookup_insert_ne by lia.
  - split; [done|]. split; [done|]. split; [lia|]. split; [intros [= ->]; done|].
    split; [done|]. done.
Qed.

Lemma cmdRegister_correct_witness :
  map_ok (<[16%nat := Some (replicate 256 0)]> sCmdMap_init) ∧
  match cmdRegister (<[16%nat := Some (replicate 256 0)]> sCmdMap_init) 16 7 99 with
  | Returns (1, m') => cmdGetProc m' 16 7 = Returns 99
  | _ => False
  end.
Proof.
  assert (H : map_ok (<[16%nat := Some (replicate 256 0)]> sCmdMap_init)).
  { destruct map_ok_init as [H1 H2]. split; [by rewrite length_insert|].
    apply Forall_insert; [done|]. by intros t [= <-]. }
  split; [exact H|].
  pose proof (cmdRegister_correct _ 16 7 99 H ltac:(unfold is_u16; lia) ltac:(unfold is_byte; lia)) as Hr.
  destruct (cmdRegister _ 16 7 99) as [|c|[r m']] eqn:E.
  - destruct Hr as [Hr|Hr]; [lia|]. vm_compute in Hr. done.
  - done.
  - destruct Hr as (_ & _ & _ & Hr & _). destruct Hr as [-> Hr]; [by vm_compute|]. exact Hr.
Defined.

(** The header declares [cmd] as an [unsigned short]; a type above 255 is out of
    the array in [cmdAddType]. *)
Example cmdAddType_out : cmdAddType true sCmdMap_init 300 = Faults.
Proof. by vm_compute. Qed.
Example cmdRegister_null : cmdRegister sCmdMap_init 3 0 99 = Faults.
Proof. by vm_compute. Qed.

End Commands.

(** ** The start of the process (src/main.c) *)

Module Main.
Import Config Threads.

Definition EAGAIN := 11.
Definition EACCES := 13.

(** [isInRunning]: [opened] is the success of [open], [lock] the error number
    of [tryLockPidFile], [None] when the lock is taken. *)
Definition isInRunning (opened : bool) (lock : option Z) : outcome Z :=
  if negb opened then Exits 1
  else match lock with
       | None => Returns 0
       | Some errno => if (errno =? EACCES) || (errno =? EAGAIN) then Returns 1 else Exits 1
       end.

(** The path of the lock file, from the link to the executable. *)
Definition lock_file_path (link : option (list Z)) : list Z :=
  bs "/tmp/" ++ default [] (snd <$> get_executable_path link) ++ bs ".SVR.pid".

(** [main] up to the threads: the lock, the directory argument (an empty one is
    read before its start), the configuration file found by [files]. *)
Definition main_start (opened : bool) (lock : list Z → option Z) (link argv1 : option (list Z))
    (files : list Z → option (list Z)) : outcome globals :=
  running ← isInRunning opened (lock (lock_file_path link));
  if negb (running =? 0) then Exits 1
  else if decide (argv1 = Some []) then Faults
  else or_fault (main_config (files (config_path argv1)) initial_globals).

(** The process goes on past its start only when it holds the lock named
    after its executable, and then with the globals that the configuration
    file of its directory argument gives; a lock held by another instance, or
    any failure to lock, ends it with status 1. *)
Theorem main_start_locked opened lock link argv1 files :
  match main_start opened lock link argv1 files with
  | Returns g => opened = true ∧ lock (lock_file_path link) = None ∧
      main_config (files (config_path argv1)) initial_globals = Some g
  | Exits c => c = 1 ∧ (opened = false ∨ lock (lock_file_path link) ≠ None)
  | Faults => opened = true ∧ lock (lock_file_path link) = None ∧
      (argv1 = Some [] ∨ main_config (files (config_path argv1)) initial_globals = None)
  end.
Proof.
  unfold main_start, isInRunning. destruct opened; cbn [negb]; [|simpl; by auto].
  destruct (lock (lock_file_path link)) as [e|]; cbn [mbind outcome_bind].
  - destruct (_ || _); simpl; by auto.
  - change (negb (0 =? 0)) with false. cbn iota. case_decide; [by auto|].
    generalize (main_config (files (config_path argv1)) initial_globals). intros [g|]; cbn [or_fault]; by auto.
Qed.

End Main.
